(* ===== verification/_CoqProject ===== *)
-Q . S2P
Prelude.v
GoLib.v
GoText.v
Sha256.v
StorageTypes.v
Model.v
Requests.v
Encoding.v
Meta.v
Manifest.v
Repo.v
RepoBuckets.v
RepoObjects.v
RepoMultipart.v
RepoListing.v
RepoOps.v
RepoShared.v
RepoAudit.v
RepoLogic.v
RepoCalls.v
AuditChain.v
ObjRules.v
ObjInv.v
RepoExample.v
Worm.v
Pagination.v
MultipartInv.v
Multipart.v
UploadPages.v
Leases.v
ProtRefs.v
Budget.v
Segments.v
LocalStore.v
WorkerSafety.v
Gc.v
GcSafety.v
Lifecycle.v
LifecycleSafety.v
Schedulers.v
Keyspace.v
IdGen.v
KvStore.v
KvRepo.v
KvObjects.v
KvMeta.v
KvMultipart.v
KvOps.v
KvInv.v
KvMetaInv.v
KvRefines.v
KvMultipartRefines.v
KvOpsRefines.v
KvAgreement.v
KvListing.v
KvClaims.v
KvRepair.v
KvRepairFacts.v
Policy.v
Chunked.v
StorageClass.v
Encryption.v
S3Http.v
Routing.v
Admission.v
GatewayRequest.v
Gateway.v
GatewayMultipart.v
GatewayBuckets.v
GatewayServe.v
GatewayLogic.v
GatewayRoundTrip.v
GatewayCompletion.v
GatewayParts.v
GatewayExample.v
SigV4.v
SigV4Facts.v
Drain.v
DrainSafety.v
Findings.v
