(* ===== verification/Prelude.v ===== *)
(** * A verification library for NAMROS, an S3-compatible object store

    ** The program

    NAMROS stores S3 objects. The gateway ([src/internal/gateway]) receives S3
    requests; object bytes go to a segment store ([src/internal/storage]); all
    metadata (tenants, buckets, object heads and versions, multipart uploads, audit
    events, leases, locks and the records of the background workers) goes through
    the interface [meta.Repository] ([src/internal/meta/repository.go]). That
    interface has two implementations: the in-memory repository
    ([src/internal/meta/memory]), whose methods each run under one mutex, and the
    KV repository ([src/internal/meta/kvrepo]), whose methods are transactions over
    a sorted key-value store, Pebble or TiKV, keyed by [src/internal/meta/keyspace].
    Identifiers come from [src/internal/meta/id].

    ** The files

    Shared foundations.
    - [Prelude]: record update, the state and error monad, list, option, string and
      integer lemmas, tactics and hint databases.
    - [GoLib], [Sha256], [Encoding]: what the code uses of Go's standard library:
      strings, base 36, sort.Search, crypto/sha256, crypto/md5, time.Format,
      encoding/json.

    Data.
    - [StorageTypes], [Model], [Requests]: one record per Go struct. Integers are
      [Z] with [int64] and [uint64] wrap-around where the code computes; times are
      nanoseconds since Go's zero time; string enumerations stay strings.
    - [Meta]: the record builders of package meta (quota, leases, pools, drains,
      schema, summaries). [Manifest]: the object-manifest planner of [scale.go].

    The memory repository.
    - [Repo] is its state and helpers; [RepoBuckets], [RepoObjects],
      [RepoMultipart], [RepoListing], [RepoOps], [RepoShared], [RepoAudit] hold one
      definition per method. [RepoCalls] makes every mutating method a [call] and
      [reachable] the states any calls lead to; failed calls included.
    - [RepoLogic] and [ObjRules] are the weakest-precondition calculus and its rules.
    - [AuditChain]: the audit log is an append-only hash chain. [ObjInv]: heads,
      versions and bucket indexes agree. [Worm]: object lock keeps versions.
      [Pagination], [UploadPages]: following markers shows everything once.
      [MultipartInv], [Multipart]: summaries, closed uploads, completions, cleanup.
      [Leases]: leases and locks exclude and fence.

    The KV repository.
    - [Keyspace]: the key builders, their injectivity and their scans.
    - [IdGen]: the generators, uniqueness and order of identifiers, termination.
    - [KvStore]: the interface [ReadWriter] as a class with laws, its three
      implementations over an engine with the documented laws, and the proof that
      they list like a sorted map.
    - [KvRepo], [KvObjects], [KvMeta], [KvMultipart], [KvOps], [KvListing]: the
      records, transactions and operations; [KvInv], [KvMetaInv]: type-safety and the exact
      listing index over all runs; [KvClaims]: what follows from it.
    - [KvRefines], [KvMultipartRefines], [KvOpsRefines]: a relation between the states
      of the two repositories and a simulation lemma per administrative, multipart and
      operational method.
      [KvAgreement]: the interface as a class with both repositories as instances,
      and the refinement theorem: on every sequence of calls they answer alike.
    - [KvRepair], [KvRepairFacts]: the repair of the listing indexes, and the proof that
      it restores them.

    Beyond the repositories.
    - [ProtRefs]: which segments the metadata still protects, from the versions,
      parts and shared objects of a repository state.
    - [Segments]: the interface of a segment store as the class [SegmentStore] with
      [SegmentStoreLaws], and the world a worker runs in (repository, disk, trace).
      [LocalStore] is [src/internal/storage/local]: plain and erasure-coded
      segments over the files of its directory, its instance of the laws, and
      reading back after the loss of shards. The Reed-Solomon code is a parameter
      with its documented laws, instantiated by a parity code in the witness.
    - [Budget], [Schedulers]: [src/internal/workerscheduler], the worker budget with
      its counters, the lease-holding runner, and the schedulers of the workers.
    - [Gc], [Lifecycle]: the workers of [src/internal/gc] and
      [src/internal/lifecycle] with their planner; every repository and store call
      is logged, and other clients may call the repository between any two of them.
      [WorkerSafety] is the logic of such runs; [GcSafety] and [LifecycleSafety]
      prove that no run deletes what object lock protects.
    - [Policy]: [src/internal/auth/policy.go] and [auth.go] and the policy simulation
      of [src/internal/iam]: parsing of documents, matching and the decision.
    - [GoText]: more of Go's standard library (strings, strconv, base64,
      hex), with the round trips the gateway relies on.
    - [StorageClass], [Encryption]: [src/internal/storageclass] and
      [src/internal/encryption], with AES-GCM as the class [Aead] and its laws.

    The gateway.
    - [Routing]: [src/internal/s3api/routing], from an HTTP request to an operation.
      [S3Http]: requests as the handlers see them, replies, errors and documents.
    - [Chunked]: the aws-chunked body reader of [aws_chunked.go].
    - [Admission]: drain, data budget and request limiter, as steps of a gateway.
    - [GatewayRequest]: the parsing of headers, ranges, tags, locks and part lists.
      [Gateway]: the object handlers of [s3_handlers.go] over a repository and a
      segment store, with other clients of the repository between any two calls.
      [GatewayMultipart]: uploads, parts, the resumable completion and the abort;
      [GatewayBuckets]: buckets, configurations, CORS, listings, tags, locks and ACLs;
      [GatewayServe]: the checks, the admission and the dispatch of a request.
    - [GatewayLogic]: what a reader of segments returns, and inversion
      rules for handlers that succeeded. [GatewayRoundTrip]: PutObject and GetObject.
      [GatewayCompletion], [GatewayParts]: from the parts of an upload to the object.
      [GatewayExample]: a gateway with an encryption key, for the witnesses, and runs
      in which bytes are lost, leaked or miscounted.
    - [SigV4]: [src/internal/auth/sigv4] and the static store of
      [src/internal/auth/credentials]: canonical requests, signing keys and both ways
      of verification. [SigV4Facts]: what is accepted is signed, what is signed is
      accepted, and a signature covers one request only.
    - [Drain]: the worker of [src/internal/drain] that moves versions off a volume and
      reclaims their source segments. [DrainSafety]: a move keeps every byte; runs in
      which a drained or a reclaimed object is lost.

    [RepoExample] is the concrete environment the witnesses run in, and [Findings],
    [KvClaims] and [KvRepairFacts] prove the departures found.

    ** Conventions

    A method of the source is a state transformer that returns [Ok] or [Fail] with
    the source's error; guards and early returns keep the source's order. The clock
    and the identifier generator are the class [Env]: the value of the n-th reading,
    arbitrary in the theorems (with the class [GeneratorOk] where a theorem needs
    that identifiers are not empty, an instance of which [IdGen] proves). The KV
    engine is the class [Engine] with [EngineLaws]. Nothing is assumed otherwise.

    ** Fuel

    Loops that are not structural take fuel equal to a measure of their input: the
    number of references for the chunk builder, one more than the number of keys for
    range scans, and the number of entries for clients that follow markers. Where
    fuel can run out the result is [None], and the theorems state that it does not
    (the result is produced), never only what holds if it is.

    ** What is not modelled

    Context cancellation, locking and goroutine scheduling inside one method;
    metrics, logging and tracing; sockets, HTTP framing and the text of XML (decoding
    is a parameter); ciphers (AES-GCM is a parameter with its laws);
    the SBS store (a client of a service outside the repository); command-line
    tools. Of the KV repository, shared-object, import and count-repair methods and
    the version and upload listings; of TiKV, retries and client set-up.
    The manifest beside this library lists every component with its status. *)

From stdpp Require Export base gmap strings list pretty sorting.
From Stdlib Require Export ZArith Lia.
From Stdlib Require Import Ascii.

#[export] Unset Printing Records.

(** ** Functional record update *)

(** [RecordEta R] holds the eta-expansion of a record; the update notation
    [r <| f := v |>] replaces the projection [f] in it by the new value. *)
Class RecordEta (R : Type) := record_eta : R -> R.

Ltac field_setter proj :=
  lazymatch type of proj with
  | ?R -> ?T =>
    let inst := constr:(_ : RecordEta R) in
    let body := eval red in inst in
    lazymatch eval pattern proj in body with
    | ?abs _ =>
      let t := eval cbv beta in (fun (v : T) => abs (fun _ => v)) in exact t
    end
  end.

(** The setter of a projection is found by instance resolution and stays folded
    under [simpl]: an update mentions the record once, so that chains of updates
    stay small. [field_simpl] evaluates projections of updated records. *)
Class Setter {R T : Type} (p : R -> T) := setter : T -> R -> R.
Arguments setter {R T} p {_} v r : simpl never.
#[export] Hint Extern 0 (Setter ?p) => field_setter p : typeclass_instances.

Notation "r <| p := v |>" := (setter p v r)
  (at level 1, left associativity).

Ltac is_projection g r :=
  let t := eval cbv beta delta [g] in (g r) in
  lazymatch t with match _ with _ => _ end => idtac end.
(** The equation of a projection and a setter, proved on variables so that the
    record at hand is never compared with itself. *)
Ltac field_equation g p inst :=
  match constr:(tt) with
  | _ => let _ := match constr:(tt) with _ => constr_eq g p end in
         constr:(fun v r => eq_refl : g (@setter _ _ p inst v r) = v)
  | _ => constr:(fun v r => eq_refl : g (@setter _ _ p inst v r) = g r)
  end.
Ltac field_simpl :=
  repeat match goal with
         | |- context [?g (@setter _ _ ?p ?inst ?v ?r)] =>
             is_projection g r;
             let e := field_equation g p inst in rewrite (e v r)
         end; cbv beta.
Ltac field_simpl_in H :=
  repeat match type of H with
         | context [?g (@setter _ _ ?p ?inst ?v ?r)] =>
             is_projection g r;
             let e := field_equation g p inst in rewrite (e v r) in H
         end; cbv beta in H.

Ltac state_simpl :=
  repeat match goal with
         | H : context [?g (@setter _ _ ?p ?inst ?v ?r)] |- _ =>
             is_projection g r;
             let e := field_equation g p inst in rewrite (e v r) in H; cbv beta in H
         end.

(** ** Outcomes and the state-and-error monad *)

(** A Go function returning [(A, error)]. *)
Inductive outcome (E A : Type) : Type :=
| Ok (a : A)
| Fail (e : E).
Arguments Ok {E A} a.
Arguments Fail {E A} e.

Definition is_ok {E A} (o : outcome E A) : bool :=
  match o with Ok _ => true | Fail _ => false end.

(** Code that reads and writes the state [S] and may return an error. Writes
    made before an error is returned stay, as they do in the Go code. *)
Definition ST (S E A : Type) : Type := S -> outcome E A * S.

Definition st_ret {S E A} (a : A) : ST S E A := fun s => (Ok a, s).
Definition st_fail {S E A} (e : E) : ST S E A := fun s => (Fail e, s).
Definition st_bind {S E A B} (m : ST S E A) (k : A -> ST S E B) : ST S E B :=
  fun s => match m s with
           | (Ok a, s') => k a s'
           | (Fail e, s') => (Fail e, s')
           end.
Definition st_get {S E} : ST S E S := fun s => (Ok s, s).
Definition st_put {S E} (s' : S) : ST S E unit := fun _ => (Ok tt, s').
Definition st_modify {S E} (f : S -> S) : ST S E unit := fun s => (Ok tt, f s).

(** Lifts a pure fallible computation. *)
Definition st_lift {S E A} (o : outcome E A) : ST S E A := fun s => (o, s).

(** The final state of a call. *)
Definition st_exec {S E A} (m : ST S E A) (s : S) : S := (m s).2.

Declare Scope go_scope.
Delimit Scope go_scope with go.

Notation "'let!' x ':=' m 'in' k" := (st_bind m (fun x => k))
  (at level 10, x binder, m at level 100, k at level 200) : go_scope.
Notation "m ';;!' k" := (st_bind m (fun _ => k))
  (at level 199, right associativity) : go_scope.
(** The code's [if b { return err }] followed by [k]. *)
Notation "'fail!' e 'when' b ';' k" := (if b then st_fail e else k)
  (at level 10, e at level 9, b at level 100, k at level 200) : go_scope.
Open Scope go_scope.

(** ** Go integers *)

Abbreviation Time := Z (only parsing).

(** [int] and [int64] arithmetic wraps modulo 2^64 into the signed range. *)
Definition int64 (z : Z) : Z := ((z + 2 ^ 63) mod 2 ^ 64 - 2 ^ 63)%Z.
Definition uint64 (z : Z) : Z := (z mod 2 ^ 64)%Z.

(** ** Boolean tests on strings *)

Notation "a =s b" := (String.eqb a b) (at level 70) : go_scope.

Definition ascii_ltb (a b : ascii) : bool := (N_of_ascii a <? N_of_ascii b)%N.

(** Go's [<] on strings: bytewise lexicographic. *)
Fixpoint str_ltb (a b : string) : bool :=
  match a, b with
  | EmptyString, String _ _ => true
  | String x a', String y b' =>
      if Ascii.eqb x y then str_ltb a' b' else ascii_ltb x y
  | _, _ => false
  end.

(** ** sort.Slice and sort.Search *)

Fixpoint insert_by {A} (less : A -> A -> bool) (x : A) (l : list A) : list A :=
  match l with
  | [] => [x]
  | y :: l' => if less y x then y :: insert_by less x l' else x :: l
  end.

(** [sort.Slice(l, less)]. The library sort is not stable, so its result is
    determined only when no two elements are tied; [sort_by_unique] below shows
    that on such lists every sorting algorithm gives this one's result. *)
Definition sort_by {A} (less : A -> A -> bool) (l : list A) : list A :=
  foldr (insert_by less) [] l.

(** [sort.Search(n, f)]: the loop of the standard library, on the interval
    [i, j); [fuel] bounds the number of halvings and [j - i] suffices. *)
Fixpoint search_go (fuel : nat) (f : nat -> bool) (i j : nat) : nat :=
  match fuel with
  | 0 => i
  | S fuel' =>
      if bool_decide (i < j)%nat then
        let h := ((i + j) / 2)%nat in
        if f h then search_go fuel' f i h else search_go fuel' f (S h) j
      else i
  end.

Definition sort_search (n : nat) (f : nat -> bool) : nat := search_go n f 0 n.

(** ** Lemmas: the monad *)

Section MonadLaws.
Context {S E A B C : Type}.

Lemma st_bind_ret (a : A) (k : A -> ST S E B) s : st_bind (st_ret a) k s = k a s.
Proof. reflexivity. Qed.

Lemma st_bind_assoc (m : ST S E A) (k : A -> ST S E B) (h : B -> ST S E C) s :
  st_bind (st_bind m k) h s = st_bind m (fun a => st_bind (k a) h) s.
Proof. unfold st_bind. by destruct (m s) as [[] ?]. Qed.

(** A call that succeeds ran both halves. *)
Lemma st_bind_ok (m : ST S E A) (k : A -> ST S E B) s b s' :
  st_bind m k s = (Ok b, s') <->
  exists a s1, m s = (Ok a, s1) /\ k a s1 = (Ok b, s').
Proof.
  unfold st_bind. destruct (m s) as [[a|e] s1].
  - split; [eauto | intros (?&?&?&?); simplify_eq; done].
  - split; [intros; simplify_eq | intros (?&?&?&?); simplify_eq].
Qed.

End MonadLaws.

(** A relation between the states before and after a call. *)
Definition preserves {S E A} (R : S -> S -> Prop) (m : ST S E A) : Prop :=
  forall s, R s (st_exec m s).

Section Preserves.
Context {S E : Type} (R : S -> S -> Prop) `{!Reflexive R, !Transitive R}.

Lemma preserves_ret {A} (a : A) : preserves R (st_ret (E := E) a).
Proof. intros s. reflexivity. Qed.

Lemma preserves_fail {A} (e : E) : preserves R (st_fail (A := A) e).
Proof. intros s. reflexivity. Qed.

Lemma preserves_get : preserves R (st_get (E := E)).
Proof. intros s. reflexivity. Qed.

Lemma preserves_lift {A} (o : outcome E A) : preserves R (st_lift o).
Proof. intros s. reflexivity. Qed.

Lemma preserves_bind {A B} (m : ST S E A) (k : A -> ST S E B) :
  preserves R m -> (forall a, preserves R (k a)) -> preserves R (st_bind m k).
Proof.
  intros Hm Hk s. unfold st_exec, st_bind.
  pose proof (Hm s) as H1. unfold st_exec in H1.
  destruct (m s) as [[a|e] s1]; simpl in *; [|done].
  etrans; [exact H1 | apply (Hk a s1)].
Qed.

(** As [preserves_bind], with the first half's result state at hand. *)
Lemma preserves_bind_at {A B} (m : ST S E A) (k : A -> ST S E B) s :
  R s (st_exec m s) ->
  (forall a s1, m s = (Ok a, s1) -> R s1 (st_exec (k a) s1)) ->
  R s (st_exec (st_bind m k) s).
Proof.
  unfold st_exec, st_bind. intros H1 H2.
  destruct (m s) as [[a|e] s1] eqn:Hm; simpl in *; [|done].
  etrans; [exact H1 | by apply H2].
Qed.

End Preserves.

(** ** Lemmas: integers *)

Lemma int64_id z : (- 2 ^ 63 <= z < 2 ^ 63)%Z -> int64 z = z.
Proof. intros Hz. unfold int64. rewrite Z.mod_small; lia. Qed.

(** ** Lemmas: strings *)

Lemma ascii_ltb_irrefl a : ascii_ltb a a = false.
Proof. unfold ascii_ltb. apply N.ltb_irrefl. Qed.

Lemma ascii_ltb_trans a b c : ascii_ltb a b = true -> ascii_ltb b c = true -> ascii_ltb a c = true.
Proof. unfold ascii_ltb. rewrite !N.ltb_lt. lia. Qed.

Lemma ascii_ltb_total a b : ascii_ltb a b = false -> ascii_ltb b a = false -> a = b.
Proof.
  unfold ascii_ltb. rewrite !N.ltb_ge. intros H1 H2.
  rewrite <- (ascii_N_embedding a), <- (ascii_N_embedding b). f_equal. lia.
Qed.

Lemma str_ltb_irrefl a : str_ltb a a = false.
Proof. induction a as [|x a IH]; simpl; [done|]. by rewrite Ascii.eqb_refl. Qed.

Lemma str_ltb_trans a b c : str_ltb a b = true -> str_ltb b c = true -> str_ltb a c = true.
Proof.
  revert b c. induction a as [|x a IH]; intros [|y b] [|z c]; simpl; try done.
  destruct (Ascii.eqb_spec x y) as [->|Hxy], (Ascii.eqb_spec y z) as [->|Hyz]; [by apply IH| | |].
  - done.
  - by destruct (Ascii.eqb_spec x z).
  - intros H1 H2. pose proof (ascii_ltb_trans _ _ _ H1 H2) as H3.
    destruct (Ascii.eqb_spec x z) as [->|]; [|done].
    by rewrite ascii_ltb_irrefl in H3.
Qed.

Lemma str_ltb_total a b : str_ltb a b = false -> str_ltb b a = false -> a = b.
Proof.
  revert b. induction a as [|x a IH]; intros [|y b]; simpl; try done.
  destruct (Ascii.eqb_spec x y) as [->|Hxy].
  - rewrite Ascii.eqb_refl. intros. f_equal. by apply IH.
  - destruct (Ascii.eqb_spec y x); [done|].
    intros. exfalso. apply Hxy. by apply ascii_ltb_total.
Qed.

Lemma str_ltb_asym a b : str_ltb a b = true -> str_ltb b a = false.
Proof.
  intros H. destruct (str_ltb b a) eqn:H'; [|done].
  pose proof (str_ltb_trans _ _ _ H H') as H2. by rewrite str_ltb_irrefl in H2.
Qed.

(** The non-strict order is transitive as well. *)
Lemma str_geb_trans a b c : str_ltb b a = false -> str_ltb c b = false -> str_ltb c a = false.
Proof.
  intros H1 H2. destruct (str_ltb c a) eqn:H3; [|done].
  destruct (str_ltb b c) eqn:H4.
  - by rewrite (str_ltb_trans _ _ _ H4 H3) in H1.
  - rewrite (str_ltb_total _ _ H2 H4) in H3. congruence.
Qed.

(** ** Lemmas: sorting *)

Section SortBy.
Context {A : Type} (less : A -> A -> bool).

Lemma insert_by_perm x l : insert_by less x l ≡ₚ x :: l.
Proof.
  induction l as [|y l IH]; simpl; [done|].
  destruct (less y x); [|done]. rewrite IH. apply Permutation_swap.
Qed.

Lemma sort_by_perm l : sort_by less l ≡ₚ l.
Proof.
  induction l as [|x l IH]; simpl; [done|]. by rewrite insert_by_perm, IH.
Qed.

Lemma elem_of_sort_by x l : x ∈ sort_by less l <-> x ∈ l.
Proof. by rewrite sort_by_perm. Qed.

Lemma length_sort_by l : length (sort_by less l) = length l.
Proof. by rewrite sort_by_perm. Qed.

(** "not after": the order the sorted list is non-decreasing in. *)
Definition not_after (x y : A) : Prop := less y x = false.

Hypothesis less_asym : forall x y, less x y = true -> less y x = false.
Hypothesis not_after_trans : forall x y z, not_after x y -> not_after y z -> not_after x z.

Lemma insert_by_sorted x l :
  StronglySorted not_after l -> StronglySorted not_after (insert_by less x l).
Proof.
  induction 1 as [|y l Hl IH Hy]; simpl; [repeat constructor|].
  destruct (less y x) eqn:Hyx.
  - constructor; [done|]. rewrite insert_by_perm. constructor; [|done].
    by apply less_asym.
  - constructor; [by constructor|]. constructor; [done|].
    eapply Forall_impl; [exact Hy|]. intros z Hz. by eapply not_after_trans.
Qed.

Lemma sort_by_sorted l : StronglySorted not_after (sort_by less l).
Proof. induction l; simpl; [constructor | by apply insert_by_sorted]. Qed.

(** The sorted rearrangement of a list without ties is unique. *)
Lemma sort_by_unique l l' :
  (forall x y, x ∈ l -> y ∈ l -> not_after x y -> not_after y x -> x = y) ->
  l' ≡ₚ l -> StronglySorted not_after l' -> l' = sort_by less l.
Proof.
  intros Htie Hp Hs. apply (StronglySorted_unique_strong not_after);
    [| exact Hs | apply sort_by_sorted | by rewrite sort_by_perm].
  intros x y Hx Hy. rewrite Hp in Hx. rewrite elem_of_sort_by in Hy. by apply Htie.
Qed.

(** So the result does not depend on the order the input was collected in
    (for instance the iteration order of a Go map). *)
Lemma sort_by_perm_eq l1 l2 :
  (forall x y, x ∈ l1 -> y ∈ l1 -> not_after x y -> not_after y x -> x = y) ->
  l1 ≡ₚ l2 -> sort_by less l1 = sort_by less l2.
Proof.
  intros Htie Hp. symmetry. apply sort_by_unique; [done| |apply sort_by_sorted].
  by rewrite sort_by_perm.
Qed.

End SortBy.

(** ** Lemmas: binary search *)

Lemma midpoint_bounds i j : (i < j)%nat -> (i <= (i + j) / 2 < j)%nat.
Proof. split; [apply Nat.div_le_lower_bound | apply Nat.Div0.div_lt_upper_bound]; lia. Qed.

Lemma search_go_bounds fuel f i j :
  (i <= j)%nat -> (i <= search_go fuel f i j <= j)%nat.
Proof.
  revert i j. induction fuel as [|fuel IH]; intros i j Hij; cbn [search_go]; [lia|].
  case_bool_decide; [|lia].
  pose proof (midpoint_bounds i j ltac:(lia)) as Hm. set (h := ((i + j) / 2)%nat) in *.
  destruct (f h); [pose proof (IH i h ltac:(lia)) | pose proof (IH (S h) j ltac:(lia))]; lia.
Qed.

Section SortSearch.
Context (f : nat -> bool) (n : nat).
Hypothesis f_mono : forall i j, (i <= j < n)%nat -> f i = true -> f j = true.

Lemma search_go_spec fuel i j :
  (j - i <= fuel)%nat -> (i <= j <= n)%nat ->
  (forall k, (k < i)%nat -> f k = false) ->
  (forall k, (j <= k < n)%nat -> f k = true) ->
  let r := search_go fuel f i j in
  (forall k, (k < r)%nat -> f k = false) /\ (forall k, (r <= k < n)%nat -> f k = true).
Proof.
  revert i j. induction fuel as [|fuel IH]; intros i j Hf Hij Hlo Hhi; cbn [search_go].
  { assert (i = j) as -> by lia. done. }
  case_bool_decide as Hlt.
  2:{ assert (i = j) as -> by lia. done. }
  pose proof (midpoint_bounds i j ltac:(lia)) as Hm. set (h := ((i + j) / 2)%nat) in *.
  destruct (f h) eqn:Hh.
  - apply IH; [lia|lia|done|]. intros k Hk. eapply f_mono; [|exact Hh]. lia.
  - apply IH; [lia|lia| |done]. intros k Hk.
    destruct (f k) eqn:Hfk; [|done]. rewrite <- Hh. symmetry. apply (f_mono k); [lia|done].
Qed.

(** On a monotone predicate the search returns the first index satisfying it. *)
Lemma sort_search_spec :
  let r := sort_search n f in
  (r <= n)%nat /\ (forall k, (k < r)%nat -> f k = false) /\
  (forall k, (r <= k < n)%nat -> f k = true).
Proof.
  split; [apply (search_go_bounds n f 0 n); lia|].
  apply search_go_spec; lia.
Qed.

End SortSearch.
