(* ===== verification/GoLib.v ===== *)
(** * GoLib: the parts of Go's standard library the modelled code calls

    Strings are byte strings, as in Go. [TrimSpace] removes the UTF-8 encodings
    of the Unicode white-space characters, [HasPrefix], [TrimPrefix] and [Index]
    are bytewise, [Itoa] is decimal printing and [leftPadZeros] is the padding
    of the [%020d] verb. *)

From S2P Require Import Prelude.
From Stdlib Require Import Ascii.
Open Scope string_scope.

(** ** strings.TrimSpace *)

Definition byte_is (n : N) (c : ascii) : bool := (N_of_ascii c =? n)%N.
Definition byte_in (lo hi : N) (c : ascii) : bool :=
  ((lo <=? N_of_ascii c) && (N_of_ascii c <=? hi))%N.

(** The one-byte white space: tab, newline, vertical tab, form feed, carriage
    return and blank. *)
Definition space1 (c : ascii) : bool := byte_in 9 13 c || byte_is 32 c.

(** U+0085 and U+00A0. *)
Definition space2 (c1 c2 : ascii) : bool :=
  byte_is 194 c1 && (byte_is 133 c2 || byte_is 160 c2).

(** U+1680, U+2000 to U+200A, U+2028, U+2029, U+202F, U+205F and U+3000. *)
Definition space3 (c1 c2 c3 : ascii) : bool :=
  (byte_is 225 c1 && byte_is 154 c2 && byte_is 128 c3) ||
  (byte_is 226 c1 && byte_is 128 c2 &&
     (byte_in 128 138 c3 || byte_is 168 c3 || byte_is 169 c3 || byte_is 175 c3)) ||
  (byte_is 226 c1 && byte_is 129 c2 && byte_is 159 c3) ||
  (byte_is 227 c1 && byte_is 128 c2 && byte_is 128 c3).

Fixpoint trim_front (p2 : ascii -> ascii -> bool) (p3 : ascii -> ascii -> ascii -> bool)
    (s : list ascii) : list ascii :=
  match s with
  | c1 :: s1 =>
      if space1 c1 then trim_front p2 p3 s1
      else match s1 with
           | c2 :: s2 =>
               if p2 c1 c2 then trim_front p2 p3 s2
               else match s2 with
                    | c3 :: s3 => if p3 c1 c2 c3 then trim_front p2 p3 s3 else s
                    | [] => s
                    end
           | [] => s
           end
  | [] => []
  end.

Definition trim_left (s : list ascii) : list ascii := trim_front space2 space3 s.
Definition trim_right (s : list ascii) : list ascii :=
  reverse (trim_front (fun c2 c1 => space2 c1 c2) (fun c3 c2 c1 => space3 c1 c2 c3) (reverse s)).

Definition TrimSpace (s : string) : string :=
  String.string_of_list_ascii (trim_right (trim_left (String.list_ascii_of_string s))).

(** ** Prefixes, search and slicing *)

Definition HasPrefix (s p : string) : bool := String.prefix p s.

(** [s[n:]] for [n] within range. *)
Definition drop_str (n : nat) (s : string) : string :=
  String.substring n (String.length s - n) s.
(** [s[:n]] for [n] within range. *)
Definition str_len (s : string) : Z := Z.of_nat (String.length s).
Definition take_str (n : nat) (s : string) : string := String.substring 0 n s.

Definition TrimPrefix (s p : string) : string :=
  if HasPrefix s p then drop_str (String.length p) s else s.

(** [strings.Index]; [None] stands for -1. *)
Definition Index (s sub : string) : option nat := String.index 0 sub s.

(** ** Case mapping *)

(** [strings.ToLower], as far as a comparison with an ASCII text can tell: the
    ASCII capitals and the two other characters whose lower case is ASCII (the
    Kelvin sign and the dotted capital I) are mapped, every other byte is kept. *)
Fixpoint lower_bytes (s : list ascii) : list ascii :=
  match s with
  | [] => []
  | c1 :: s1 =>
      if byte_in 65 90 c1 then ascii_of_N (N_of_ascii c1 + 32) :: lower_bytes s1
      else match s1 with
           | c2 :: s2 =>
               if byte_is 196 c1 && byte_is 176 c2 then ascii_of_N 105 :: lower_bytes s2
               else match s2 with
                    | c3 :: s3 =>
                        if byte_is 226 c1 && byte_is 132 c2 && byte_is 170 c3
                        then ascii_of_N 107 :: lower_bytes s3
                        else c1 :: lower_bytes s1
                    | [] => c1 :: lower_bytes s1
                    end
           | [] => c1 :: lower_bytes s1
           end
  end.

Definition ToLower (s : string) : string :=
  String.string_of_list_ascii (lower_bytes (String.list_ascii_of_string s)).

(** [strings.EqualFold] on ASCII texts. *)
Definition EqualFold (a b : string) : bool := ToLower a =s ToLower b.

(** [strings.ReplaceAll] for one-byte texts. *)
Definition replace_byte (old new : ascii) (s : string) : string :=
  String.string_of_list_ascii
    (map (fun c => if Ascii.eqb c old then new else c) (String.list_ascii_of_string s)).

(** ** Decimal numbers *)

Definition Itoa (z : Z) : string := pretty z.

Fixpoint repeat_str (n : nat) (s : string) : string :=
  match n with 0 => "" | S n' => s +:+ repeat_str n' s end.

(** [fmt.Sprintf] with a zero-padded width, on a non-negative value. *)
Definition leftPadZeros (width : nat) (z : Z) : string :=
  let text := Itoa z in
  repeat_str (width - String.length text) "0" +:+ text.

(** [strconv.Atoi] on the text of an unsigned decimal number in range; [None]
    is an error. A leading sign is accepted as the library does. *)
Fixpoint parse_digits (acc : Z) (s : list ascii) : option Z :=
  match s with
  | [] => Some acc
  | c :: s' =>
      if byte_in 48 57 c then parse_digits (acc * 10 + (Z.of_N (N_of_ascii c) - 48)) s' else None
  end.

Definition Atoi (s : string) : option Z :=
  let in_range z := if ((- 2 ^ 63 <=? z) && (z <? 2 ^ 63))%Z then Some z else None in
  match String.list_ascii_of_string s with
  | [] => None
  | c :: rest =>
      if byte_is 45 c then
        match rest with [] => None | _ => z ← parse_digits 0 rest; in_range (- z)%Z end
      else if byte_is 43 c then
        match rest with [] => None | _ => z ← parse_digits 0 rest; in_range z end
      else z ← parse_digits 0 (c :: rest); in_range z
  end.

(** ** encoding/hex *)

Definition hex_digit (n : N) : ascii :=
  ascii_of_N (if (n <? 10)%N then 48 + n else 87 + n)%N.
Definition hex_byte (c : ascii) : string :=
  String (hex_digit (N_of_ascii c / 16)) (String (hex_digit (N_of_ascii c mod 16)) "").

Fixpoint EncodeToString (bytes : list ascii) : string :=
  match bytes with [] => "" | c :: l => hex_byte c +:+ EncodeToString l end.

(** ** Evaluated examples *)

Example trim_space_ex :
  TrimSpace " a b	 " = "a b" /\ TrimSpace "x" = "x" /\ TrimSpace "  " = "".
Proof. vm_compute. auto. Qed.

Example trim_space_nbsp :
  TrimSpace (String (ascii_of_N 194) (String (ascii_of_N 160) "k")) = "k".
Proof. reflexivity. Qed.

Example left_pad_ex : leftPadZeros 20 42 = "00000000000000000042".
Proof. reflexivity. Qed.

Example atoi_ex : Atoi "00042" = Some 42%Z /\ Atoi "4x" = None /\ Atoi "-7" = Some (-7)%Z.
Proof. vm_compute. auto. Qed.

(** ** Lemmas *)

Lemma str_app_cons c (a b : string) : String c a +:+ b = String c (a +:+ b).
Proof. reflexivity. Qed.

Lemma str_nil_app (b : string) : "" +:+ b = b.
Proof. reflexivity. Qed.

Create Rewrite HintDb strapp.
#[export] Hint Rewrite str_app_cons str_nil_app : strapp.
(** Unfolds [+:+] over the constructors of its first argument. *)
Ltac str_simpl := autorewrite with strapp in *; simpl.

Lemma str_app_nil_r (s : string) : s +:+ "" = s.
Proof. induction s as [|c s IH]; str_simpl; [done | by rewrite IH]. Qed.

Lemma prefix_spec p s : String.prefix p s = true <-> exists t, s = p +:+ t.
Proof.
  revert s. induction p as [|c p IH]; intros s; simpl.
  { split; [|by destruct s]. intros _. by exists s. }
  destruct s as [|d s]; simpl.
  { split; [done | intros [t Ht]; by rewrite str_app_cons in Ht]. }
  setoid_rewrite str_app_cons. destruct (ascii_dec c d) as [->|Hne].
  - rewrite IH. split; intros [t Ht]; exists t; by simplify_eq/=.
  - split; [done | intros [t Ht]; by simplify_eq/=].
Qed.

Lemma substring_full s : String.substring 0 (String.length s) s = s.
Proof. induction s as [|c s IH]; simpl; [done | by rewrite IH]. Qed.

Lemma drop_str_app p t : drop_str (String.length p) (p +:+ t) = t.
Proof.
  unfold drop_str. induction p as [|c p IH]; str_simpl; [|done].
  rewrite Nat.sub_0_r. apply substring_full.
Qed.

Lemma TrimPrefix_app p t : TrimPrefix (p +:+ t) p = t.
Proof.
  unfold TrimPrefix, HasPrefix. assert (String.prefix p (p +:+ t) = true) as ->.
  { apply prefix_spec. eauto. }
  apply drop_str_app.
Qed.

Lemma str_length_app a b : String.length (a +:+ b) = (String.length a + String.length b)%nat.
Proof. induction a as [|c a IH]; str_simpl; [done | by rewrite IH]. Qed.

Lemma str_app_assoc (a b c : string) : a +:+ (b +:+ c) = (a +:+ b) +:+ c.
Proof. induction a as [|x a IH]; str_simpl; [done | by rewrite IH]. Qed.

Lemma str_app_inj_l (p a b : string) : p +:+ a = p +:+ b -> a = b.
Proof. induction p as [|c p IH]; str_simpl; [done|]. intros [=]. by apply IH. Qed.

(** Trimming text that is already trimmed changes nothing. *)
Lemma trim_front_fix p2 p3 s :
  trim_front p2 p3 (trim_front p2 p3 s) = trim_front p2 p3 s.
Proof.
  remember (length s) as n eqn:Hn. revert s Hn.
  induction n as [n IH] using lt_wf_ind. intros s ->.
  destruct s as [|c1 s1]; [done|]. simpl.
  destruct (space1 c1) eqn:H1; [apply (IH (length s1)); simpl; lia|].
  destruct s1 as [|c2 s2]; [simpl; by rewrite H1|].
  destruct (p2 c1 c2) eqn:H2; [apply (IH (length s2)); simpl; lia|].
  destruct s2 as [|c3 s3]; [simpl; by rewrite H1, H2|].
  destruct (p3 c1 c2 c3) eqn:H3; [apply (IH (length s3)); simpl; lia|].
  simpl. by rewrite H1, H2, H3.
Qed.

(** ** Lemmas: taking strings apart *)

Lemma str_take_drop n s : take_str n s +:+ drop_str n s = s.
Proof.
  unfold take_str, drop_str. revert n. induction s as [|c s IH]; intros [|n]; simpl; try done.
  - rewrite substring_full. done.
  - rewrite str_app_cons, IH. done.
Qed.

Lemma length_take_str n s : String.length (take_str n s) = Nat.min n (String.length s).
Proof. unfold take_str. revert n. induction s as [|c s IH]; intros [|n]; simpl; try done. by rewrite IH. Qed.

Lemma length_drop_str n s : String.length (drop_str n s) = (String.length s - n)%nat.
Proof.
  pose proof (f_equal String.length (str_take_drop n s)) as E. rewrite str_length_app, length_take_str in E. lia.
Qed.

Lemma take_str_all n s : (String.length s <= n)%nat -> take_str n s = s.
Proof.
  intros Hn. pose proof (str_take_drop n s) as E. assert (drop_str n s = "") as Hd; [|by rewrite Hd, str_app_nil_r in E].
  pose proof (length_drop_str n s). destruct (drop_str n s); [done | simpl in *; lia].
Qed.

Lemma take_str_whole s : take_str (String.length s) s = s.
Proof. by apply take_str_all. Qed.

Lemma drop_str_0 s : drop_str 0 s = s.
Proof. unfold drop_str. rewrite Nat.sub_0_r. apply substring_full. Qed.

Lemma str_length_0 s : String.length s = 0%nat -> s = "".
Proof. by destruct s. Qed.

Lemma take_str_app a b : take_str (String.length a) (a +:+ b) = a.
Proof. unfold take_str. induction a as [|c a IH]; str_simpl; [by destruct b | by rewrite IH]. Qed.

(** ** Lemmas: decimal numbers *)

Lemma parse_digits_all acc l z : parse_digits acc l = Some z -> forall c, c ∈ l -> byte_in 48 57 c = true.
Proof.
  revert acc. induction l as [|c l IH]; intros acc; simpl; [by intros _ c ?%elem_of_nil|].
  destruct (byte_in 48 57 c) eqn:Hc; [|done]. intros Hl d [->|Hd]%elem_of_cons; [done | by eapply IH].
Qed.

Lemma pretty_char x : (x < 10)%N -> byte_in 48 57 (pretty_N_char x) = true /\ N_of_ascii (pretty_N_char x) = (48 + x)%N.
Proof.
  intros Hx. assert (x = 0 \/ x = 1 \/ x = 2 \/ x = 3 \/ x = 4 \/ x = 5 \/ x = 6 \/ x = 7 \/ x = 8 \/ x = 9)%N as Hc by lia.
  by destruct_or! Hc; subst.
Qed.

Lemma parse_pretty_go x s :
  exists k, (0 <= k)%Z /\ forall acc, parse_digits acc (String.list_ascii_of_string (pretty_N_go x s)) =
    parse_digits (acc * 10 ^ k + Z.of_N x) (String.list_ascii_of_string s).
Proof.
  revert s. induction (N.lt_wf_0 x) as [x _ IH]; intros s.
  destruct (decide (x = 0)%N) as [->|Hx].
  { exists 0%Z. split; [lia|]. intros acc. rewrite pretty_N_go_0. f_equal. lia. }
  rewrite pretty_N_go_step by lia.
  destruct (IH (x / 10)%N ltac:(apply N.div_lt; lia) (String (pretty_N_char (x mod 10)) s)) as (k & Hk & Hacc).
  destruct (pretty_char (x mod 10) ltac:(by apply N.mod_lt)) as [H1 H2].
  exists (k + 1)%Z. split; [lia|]. intros acc. rewrite Hacc. simpl. rewrite H1, H2. f_equal.
  rewrite Z.pow_add_r by lia. pose proof (N.div_mod x 10 ltac:(lia)). lia.
Qed.

Lemma parse_Itoa z : (0 <= z)%Z -> parse_digits 0 (String.list_ascii_of_string (Itoa z)) = Some z.
Proof.
  intros Hz. unfold Itoa, pretty, pretty_Z, pretty, pretty_positive, pretty, pretty_N. destruct z as [|p|p]; [done| |lia].
  destruct (decide (N.pos p = 0)%N); [done|]. destruct (parse_pretty_go (N.pos p) "") as (k & _ & Hk). by rewrite Hk.
Qed.

Lemma parse_leftPadZeros w z : (0 <= z)%Z -> parse_digits 0 (String.list_ascii_of_string (leftPadZeros w z)) = Some z.
Proof.
  intros Hz. unfold leftPadZeros. generalize (w - String.length (Itoa z))%nat as n. induction n as [|n IH]; [by apply parse_Itoa|].
  cbn [repeat_str]. by rewrite <- str_app_assoc, str_app_cons.
Qed.

Lemma leftPadZeros_inj w a b : (0 <= a)%Z -> (0 <= b)%Z -> leftPadZeros w a = leftPadZeros w b -> a = b.
Proof.
  intros Ha Hb Heq. pose proof (parse_leftPadZeros w a Ha) as Pa. rewrite Heq, parse_leftPadZeros in Pa by done. by simplify_eq.
Qed.
