(* ===== verification/GoText.v ===== *)
(** * GoText: strings, strconv and encodings as the request handlers use them

    [strings.Cut], [Split], [ToUpper], [HasSuffix], [strconv.ParseUint], and the reading of hexadecimal
    and base64 texts, with the lemmas that reading undoes writing. *)

From S2P Require Import Prelude GoLib.
From Stdlib Require Import Ascii.
Open Scope string_scope.
Open Scope Z_scope.

(** ** strings *)

Definition HasSuffix (s suffix : string) : bool :=
  let n := (String.length s - String.length suffix)%nat in
  (String.length suffix <=? String.length s)%nat && (drop_str n s =s suffix).
Definition TrimSuffix (s suffix : string) : string :=
  if HasSuffix s suffix then take_str (String.length s - String.length suffix) s else s.

(** [strings.Cut] at a one-byte separator. *)
Fixpoint Cut (sep : ascii) (s : string) : string * string * bool :=
  match s with
  | "" => ("", "", false)
  | String c rest =>
      if Ascii.eqb c sep then ("", rest, true)
      else let '(before, after, found) := Cut sep rest in (String c before, after, found)
  end.

(** [strings.Split] at a one-byte separator. *)
Fixpoint Split (sep : ascii) (s : string) : list string :=
  match s with
  | "" => [""]
  | String c rest =>
      match Split sep rest with
      | [] => []
      | part :: parts => if Ascii.eqb c sep then "" :: part :: parts else String c part :: parts
      end
  end.

Definition CutPrefix (s prefix : string) : option string :=
  if HasPrefix s prefix then Some (drop_str (String.length prefix) s) else None.

Definition contains_byte (c : ascii) (s : string) : bool := existsb (Ascii.eqb c) (String.list_ascii_of_string s).

(** [strings.ToUpper], as far as a comparison with an ASCII text can tell. *)
Definition ToUpper (s : string) : string :=
  String.string_of_list_ascii
    (map (fun c => if byte_in 97 122 c then ascii_of_N (N_of_ascii c - 32) else c) (String.list_ascii_of_string s)).

(** ** strconv *)

Definition digit_value (c : ascii) : option Z :=
  if byte_in 48 57 c then Some (Z.of_N (N_of_ascii c) - 48)
  else if byte_in 97 122 c then Some (Z.of_N (N_of_ascii c) - 87)
  else if byte_in 65 90 c then Some (Z.of_N (N_of_ascii c) - 55)
  else None.

Fixpoint parse_base (base acc : Z) (s : list ascii) : option Z :=
  match s with
  | [] => Some acc
  | c :: rest =>
      d ← digit_value c;
      if base <=? d then None
      else if 2 ^ 64 <=? acc * base + d then None
      else parse_base base (acc * base + d) rest
  end.

(** [strconv.ParseUint(s, base, 64)] for a base that is not zero. *)
Definition ParseUint (s : string) (base : Z) : option Z :=
  match String.list_ascii_of_string s with
  | [] => None
  | digits => parse_base base 0 digits
  end.

(** The hexadecimal text of a number. *)
Fixpoint hex_digits (fuel : nat) (n : N) : list ascii :=
  match fuel with
  | O => [hex_digit (n mod 16)]
  | S fuel' => if (n <? 16)%N then [hex_digit n] else (hex_digits fuel' (n / 16) ++ [hex_digit (n mod 16)])%list
  end.
Definition FormatHex (n : N) : string := String.string_of_list_ascii (hex_digits 16 n).

(** ** encoding/hex and encoding/base64 *)

Definition hex_value (c : ascii) : option N :=
  if byte_in 48 57 c then Some (N_of_ascii c - 48)%N
  else if byte_in 97 102 c then Some (N_of_ascii c - 87)%N
  else if byte_in 65 70 c then Some (N_of_ascii c - 55)%N
  else None.

(** [hex.DecodeString]: two digits a byte, an odd or foreign digit is an error. *)
Fixpoint DecodeHex (s : list ascii) : option (list ascii) :=
  match s with
  | [] => Some []
  | [_] => None
  | a :: b :: rest =>
      x ← hex_value a; y ← hex_value b; l ← DecodeHex rest;
      Some (ascii_of_N (16 * x + y) :: l)
  end.

Definition base64_char (n : N) : ascii :=
  ascii_of_N (if n <? 26 then 65 + n else if n <? 52 then 71 + n else if n <? 62 then n - 4
              else if n =? 62 then 43 else 47)%N.
Definition base64_value (c : ascii) : option N :=
  if byte_in 65 90 c then Some (N_of_ascii c - 65)%N
  else if byte_in 97 122 c then Some (N_of_ascii c - 71)%N
  else if byte_in 48 57 c then Some (N_of_ascii c + 4)%N
  else if byte_is 43 c then Some 62%N
  else if byte_is 47 c then Some 63%N
  else None.

(** [base64.StdEncoding]. The decoder skips line breaks; what it decodes here is
    what the encoder wrote, which has none. *)
Fixpoint base64_encode (s : list ascii) : list ascii :=
  match s with
  | [] => []
  | [a] =>
      let x := N_of_ascii a in
      [base64_char (x / 4); base64_char (x mod 4 * 16); "="; "="]%char
  | [a; b] =>
      let x := N_of_ascii a in let y := N_of_ascii b in
      [base64_char (x / 4); base64_char (x mod 4 * 16 + y / 16); base64_char (y mod 16 * 4); "="%char]
  | a :: b :: c :: rest =>
      let x := N_of_ascii a in let y := N_of_ascii b in let z := N_of_ascii c in
      base64_char (x / 4) :: base64_char (x mod 4 * 16 + y / 16) ::
      base64_char (y mod 16 * 4 + z / 64) :: base64_char (z mod 64) :: base64_encode rest
  end%N.

Fixpoint base64_decode (s : list ascii) : option (list ascii) :=
  match s with
  | [] => Some []
  | a :: b :: c :: d :: rest =>
      x ← base64_value a; y ← base64_value b;
      if Ascii.eqb c "=" then
        if Ascii.eqb d "=" then match rest with [] => Some [ascii_of_N (4 * x + y / 16)] | _ => None end else None
      else
        z ← base64_value c;
        if Ascii.eqb d "=" then
          match rest with [] => Some [ascii_of_N (4 * x + y / 16); ascii_of_N (y mod 16 * 16 + z / 4)] | _ => None end
        else
          u ← base64_value d; l ← base64_decode rest;
          Some (ascii_of_N (4 * x + y / 16) :: ascii_of_N (y mod 16 * 16 + z / 4) :: ascii_of_N (z mod 4 * 64 + u) :: l)
  | _ => None
  end%N.
Definition Base64Encode (s : string) : string := String.string_of_list_ascii (base64_encode (String.list_ascii_of_string s)).
Definition Base64Decode (s : string) : option string :=
  String.string_of_list_ascii <$> base64_decode (String.list_ascii_of_string s).

(** ** Evaluated examples *)

Example cut_ex : Cut ";" "5;sig=x" = ("5", "sig=x", true) /\ Cut ";" "5" = ("5", "", false).
Proof. by vm_compute. Qed.
Example split_ex : Split "," "a,,b" = ["a"; ""; "b"] /\ Split "," "" = [""].
Proof. by vm_compute. Qed.
Example parse_uint_ex :
  ParseUint "1fF" 16 = Some 511 /\ ParseUint "18446744073709551616" 10 = None /\ ParseUint "" 10 = None /\ ParseUint "f" 10 = None.
Proof. by vm_compute. Qed.
Example base64_ex : Base64Encode "any carnal" = "YW55IGNhcm5hbA==" /\ Base64Decode "YW55IGNhcm5hbA==" = Some "any carnal".
Proof. by vm_compute. Qed.

(** ** Lemmas *)

(** A property of the hexadecimal digits is checked digit by digit. *)
Lemma below_16 (P : N -> Prop) : Forall (fun k => P (N.of_nat k)) (seq 0 16) -> forall n, (n < 16)%N -> P n.
Proof.
  intros HP n Hn. rewrite Forall_forall in HP. rewrite <- (N2Nat.id n). apply HP, elem_of_seq. lia.
Qed.

Lemma hex_digit_value n : (n < 16)%N -> digit_value (hex_digit n) = Some (Z.of_N n).
Proof. revert n. apply below_16. repeat constructor. Qed.

Lemma parse_base_app base acc l1 l2 :
  parse_base base acc (l1 ++ l2)%list = a ← parse_base base acc l1; parse_base base a l2.
Proof.
  revert acc. induction l1 as [|c l1 IH]; intros acc; [done|]. cbn [app parse_base].
  destruct (digit_value c) as [d|]; [|done]. cbn [mbind option_bind]. repeat case_match; auto.
Qed.

Lemma parse_hex_digits fuel n :
  (n < 16 ^ (N.of_nat fuel + 1))%N -> (n < 2 ^ 64)%N -> parse_base 16 0 (hex_digits fuel n) = Some (Z.of_N n).
Proof.
  revert n. induction fuel as [|fuel IH]; intros n Hn Hm; cbn [hex_digits].
  - rewrite N.mod_small by (simpl in Hn; lia). cbn [parse_base]. rewrite hex_digit_value by (simpl in Hn; lia).
    cbn [mbind option_bind]. destruct (Z.leb_spec 16 (Z.of_N n)); [simpl in Hn; lia|].
    destruct (Z.leb_spec (2 ^ 64) (0 * 16 + Z.of_N n)); [lia | done].
  - destruct (N.ltb_spec n 16) as [Hlt|Hge].
    + cbn [parse_base]. rewrite hex_digit_value by done. cbn [mbind option_bind].
      destruct (Z.leb_spec 16 (Z.of_N n)); [lia|]. destruct (Z.leb_spec (2 ^ 64) (0 * 16 + Z.of_N n)); [lia | done].
    + assert (n / 16 < 2 ^ 64)%N as Hq by (pose proof (N.div_lt n 16 ltac:(lia) ltac:(lia)); lia).
      rewrite parse_base_app, IH; [| |done].
      * cbn [mbind option_bind parse_base]. rewrite hex_digit_value by (apply N.mod_lt; lia). cbn [mbind option_bind].
        pose proof (N.div_mod n 16 ltac:(lia)). pose proof (N.mod_lt n 16 ltac:(lia)).
        destruct (Z.leb_spec 16 (Z.of_N (n mod 16))); [lia|].
        destruct (Z.leb_spec (2 ^ 64) (Z.of_N (n / 16) * 16 + Z.of_N (n mod 16))); [lia|]. f_equal. lia.
      * apply N.Div0.div_lt_upper_bound. rewrite Nat2N.inj_succ in Hn.
        replace (N.succ (N.of_nat fuel) + 1)%N with (1 + (N.of_nat fuel + 1))%N in Hn by lia.
        by rewrite N.pow_add_r in Hn.
Qed.

Lemma hex_digits_nonempty fuel n : hex_digits fuel n <> [].
Proof. destruct fuel; cbn [hex_digits]; [done|]. case_match; [done|]. by destruct (hex_digits fuel (n / 16)). Qed.

Lemma ParseUint_FormatHex n : (n < 2 ^ 64)%N -> ParseUint (FormatHex n) 16 = Some (Z.of_N n).
Proof.
  intros Hn. unfold ParseUint, FormatHex. rewrite String.list_ascii_of_string_of_list_ascii.
  pose proof (hex_digits_nonempty 16 n). rewrite <- (parse_hex_digits 16 n); [by destruct (hex_digits 16 n)| |done].
  etransitivity; [exact Hn|]. by vm_compute.
Qed.

(** *** Taking texts apart *)

Lemma take_str_app_le n a b : (n <= String.length a)%nat -> take_str n (a +:+ b) = take_str n a.
Proof.
  unfold take_str. revert n. induction a as [|c a IH]; intros [|n]; str_simpl; intros Hn; try done; try lia.
  - by destruct b.
  - f_equal. apply IH. lia.
Qed.

Lemma drop_str_app_le n a b : (n <= String.length a)%nat -> drop_str n (a +:+ b) = drop_str n a +:+ b.
Proof.
  intros Hn. apply (str_app_inj_l (take_str n a)). rewrite str_app_assoc, str_take_drop, <- (take_str_app_le n a b) by done.
  apply str_take_drop.
Qed.

(** ** fmt *)

(** [fmt.Sprintf] of a format and the texts of its arguments: the wording of error
    messages, which nothing else depends on. *)
Class GoFmt := { Sprintf : string -> list string -> string }.

(** *** Trimming twice *)

Lemma HasSuffix_app a b : HasSuffix (a +:+ b) b = true.
Proof.
  unfold HasSuffix. rewrite str_length_app. replace (String.length a + String.length b - String.length b)%nat
    with (String.length a) by lia. rewrite drop_str_app, String.eqb_refl, andb_true_r. apply Nat.leb_le. lia.
Qed.

Lemma TrimSuffix_app a b : TrimSuffix (a +:+ b) b = a.
Proof.
  unfold TrimSuffix. rewrite HasSuffix_app, str_length_app.
  replace (String.length a + String.length b - String.length b)%nat with (String.length a) by lia. apply take_str_app.
Qed.

Lemma trim_front_suffix p2 p3 l : trim_front p2 p3 l `suffix_of` l.
Proof.
  remember (length l) as n eqn:Hn. revert l Hn. induction n as [n IH] using lt_wf_ind. intros l ->.
  destruct l as [|c1 l]; [done|]. cbn [trim_front]. destruct (space1 c1); [apply suffix_cons_r, (IH (length l)); simpl; lia|].
  destruct l as [|c2 l]; [done|]. destruct (p2 c1 c2); [do 2 apply suffix_cons_r; apply (IH (length l)); simpl; lia|].
  destruct l as [|c3 l]; [done|]. destruct (p3 c1 c2 c3); [do 3 apply suffix_cons_r; apply (IH (length l)); simpl; lia | done].
Qed.

Lemma trim_front_shorter p2 p3 l l' : (length l < length l')%nat -> trim_front p2 p3 l <> l'.
Proof. intros Hl <-. pose proof (suffix_length _ _ (trim_front_suffix p2 p3 l)). lia. Qed.

(** What begins a trimmed text is trimmed at its front. *)
Lemma trim_front_prefix p2 p3 l l' : trim_front p2 p3 l = l -> l' `prefix_of` l -> trim_front p2 p3 l' = l'.
Proof.
  intros Hl [k ->]. destruct l' as [|c1 l']; [done|]. cbn [app trim_front] in *.
  destruct (space1 c1); [by apply trim_front_shorter in Hl; [|simpl; lia]|].
  destruct l' as [|c2 l']; [done|]. cbn [app] in *.
  destruct (p2 c1 c2); [by apply trim_front_shorter in Hl; [|simpl; lia]|].
  destruct l' as [|c3 l']; [done|]. cbn [app] in *.
  destruct (p3 c1 c2 c3); [by apply trim_front_shorter in Hl; [|simpl; lia] | done].
Qed.

Lemma TrimSpace_idem s : TrimSpace (TrimSpace s) = TrimSpace s.
Proof.
  unfold TrimSpace. rewrite String.list_ascii_of_string_of_list_ascii. f_equal.
  set (l := trim_left (String.list_ascii_of_string s)). assert (trim_left (trim_right l) = trim_right l) as ->.
  { apply (trim_front_prefix _ _ l); [apply trim_front_fix|]. unfold trim_right.
    pose proof (trim_front_suffix (fun c2 c1 => space2 c1 c2) (fun c3 c2 c1 => space3 c1 c2 c3) (reverse l)) as Hs.
    apply suffix_prefix_reverse in Hs. by rewrite reverse_involutive in Hs. }
  unfold trim_right. by rewrite reverse_involutive, trim_front_fix.
Qed.

(** ** base64 decoding undoes encoding *)

Definition sextets : list N := map N.of_nat (seq 0 64).
Lemma base64_table : forallb (fun n => bool_decide (base64_value (base64_char n) = Some n) && negb (Ascii.eqb (base64_char n) "=")) sextets = true.
Proof. by vm_compute. Qed.

Lemma base64_char_spec n : (n < 64)%N -> base64_value (base64_char n) = Some n /\ Ascii.eqb (base64_char n) "=" = false.
Proof.
  intros Hn. pose proof base64_table as Ht. rewrite forallb_forall in Ht. specialize (Ht n).
  rewrite andb_true_iff, bool_decide_eq_true, negb_true_iff in Ht. apply Ht. unfold sextets. apply in_map_iff.
  exists (N.to_nat n). split; [lia|]. apply in_seq. lia.
Qed.

Lemma byte_bound (c : ascii) : (N_of_ascii c < 256)%N.
Proof. by destruct c as [[] [] [] [] [] [] [] []]. Qed.

Lemma base64_byte x (c : ascii) : x = N_of_ascii c -> ascii_of_N x = c.
Proof. intros ->. apply ascii_N_embedding. Qed.

(** Linear arithmetic with division by constants. *)
Ltac euclid a b :=
  let q := fresh "q" in let r := fresh "r" in
  pose proof (N.div_mod a b ltac:(lia)); pose proof (N.mod_lt a b ltac:(lia));
  set (q := (a / b)%N) in *; set (r := (a mod b)%N) in *; clearbody q r.
Ltac sextet :=
  repeat match goal with
  | |- context [(?a / ?b)%N] => euclid a b
  | |- context [(?a mod ?b)%N] => euclid a b
  | _ : context [(?a / ?b)%N] |- _ => euclid a b
  | _ : context [(?a mod ?b)%N] |- _ => euclid a b
  end; lia.
Ltac base64_step :=
  match goal with
  | |- context [base64_value (base64_char ?n)] => rewrite (proj1 (base64_char_spec n ltac:(sextet)))
  | |- context [Ascii.eqb (base64_char ?n) _] => rewrite (proj2 (base64_char_spec n ltac:(sextet)))
  end; cbn [mbind option_bind].

Lemma base64_round_trip l : base64_decode (base64_encode l) = Some l.
Proof.
  remember (length l) as n eqn:Hn. revert l Hn. induction n as [n IH] using lt_wf_ind. intros l ->.
  destruct l as [|a [|b [|c l]]]; [done| | |]; cbn [base64_encode base64_decode];
    pose proof (byte_bound a); try pose proof (byte_bound b); try pose proof (byte_bound c); repeat base64_step.
  - rewrite Ascii.eqb_refl. f_equal. f_equal. apply base64_byte. sextet.
  - rewrite Ascii.eqb_refl. f_equal. f_equal; [|f_equal]; apply base64_byte; sextet.
  - rewrite (IH (length l)) by (simpl; lia || done). cbn [mbind option_bind].
    f_equal. f_equal; [|f_equal; [|f_equal]]; apply base64_byte; sextet.
Qed.

Lemma Base64Decode_Encode s : Base64Decode (Base64Encode s) = Some s.
Proof.
  unfold Base64Decode, Base64Encode. rewrite String.list_ascii_of_string_of_list_ascii, base64_round_trip. simpl.
  by rewrite String.string_of_list_ascii_of_string.
Qed.

(** ** Slices *)

(** The bytes of a text from [off] on, at most [len] of them. *)
Definition slice (off len : Z) (s : string) : string := take_str (Z.to_nat len) (drop_str (Z.to_nat off) s).

Lemma slice_whole s : slice 0 (str_len s) s = s.
Proof. unfold slice, str_len. by rewrite drop_str_0, Nat2Z.id, take_str_whole. Qed.

Lemma slice_nil off s : slice off 0 s = "".
Proof. unfold slice, take_str. by destruct (drop_str _ _). Qed.

Lemma drop_str_skip n a b : drop_str (String.length a + n) (a +:+ b) = drop_str n b.
Proof.
  revert n. induction a as [|c a IH]; intros n; [done|]. rewrite str_app_cons. cbn [String.length Nat.add]. rewrite <- (IH n).
  unfold drop_str. simpl. done.
Qed.

(** A slice of two texts in a row that begins behind the first. *)
Lemma slice_skip off len a b : str_len a <= off -> slice off len (a +:+ b) = slice (off - str_len a) len b.
Proof.
  unfold slice, str_len. intros Hoff.
  replace (Z.to_nat off) with (String.length a + Z.to_nat (off - Z.of_nat (String.length a)))%nat by lia. by rewrite drop_str_skip.
Qed.

(** A slice that ends in the first text. *)
Lemma slice_within off len a b : 0 <= off -> 0 <= len -> off + len <= str_len a -> slice off len (a +:+ b) = slice off len a.
Proof.
  unfold slice, str_len. intros H1 H2 H3. rewrite drop_str_app_le by lia. apply take_str_app_le. rewrite length_drop_str. lia.
Qed.

(** A slice that goes on behind the first text. *)
Lemma slice_across off len a b :
  0 <= off <= str_len a -> str_len a - off <= len ->
  slice off len (a +:+ b) = slice off (str_len a - off) a +:+ slice 0 (len - (str_len a - off)) b.
Proof.
  unfold slice, str_len. intros H1 H2. rewrite drop_str_app_le, drop_str_0 by lia.
  set (x := drop_str (Z.to_nat off) a). assert (String.length x = Z.to_nat (Z.of_nat (String.length a) - off)) as Hx
    by (unfold x; rewrite length_drop_str; lia).
  rewrite <- Hx, take_str_whole. replace (Z.to_nat len) with
    (String.length x + Z.to_nat (len - (Z.of_nat (String.length a) - off)))%nat by lia.
  generalize (Z.to_nat (len - (Z.of_nat (String.length a) - off))) as k. intros k. clear.
  induction x as [|c x IH]; [done|]. rewrite !str_app_cons. cbn [String.length Nat.add]. unfold take_str in *. simpl. by rewrite IH.
Qed.

Lemma length_slice off len s : 0 <= off -> 0 <= len -> off + len <= str_len s -> str_len (slice off len s) = len.
Proof. unfold slice, str_len. intros. rewrite length_take_str, length_drop_str. lia. Qed.

(** ** Decimal texts *)

Lemma parse_base_digits acc l z :
  0 <= acc -> parse_digits acc l = Some z -> z < 2 ^ 64 -> parse_base 10 acc l = Some z.
Proof.
  revert acc. induction l as [|c l IH]; intros acc Hacc; cbn [parse_digits parse_base]; [done|].
  destruct (byte_in 48 57 c) eqn:Hc; [|done]. intros Hl Hz. unfold digit_value. rewrite Hc. cbn [mbind option_bind].
  unfold byte_in in Hc. rewrite andb_true_iff, !N.leb_le in Hc. destruct (Z.leb_spec 10 (Z.of_N (N_of_ascii c) - 48)); [lia|].
  assert (forall acc l z, 0 <= acc -> parse_digits acc l = Some z -> acc <= z) as Hmono.
  { clear. intros acc l. revert acc. induction l as [|c l IH]; intros acc z Hacc; cbn [parse_digits]; [intros; by simplify_eq|].
    destruct (byte_in 48 57 c) eqn:Hc; [|done]. unfold byte_in in Hc. rewrite andb_true_iff, !N.leb_le in Hc.
    intros Hp%IH; nia. }
  assert (acc * 10 + (Z.of_N (N_of_ascii c) - 48) <= z) by (eapply Hmono; [nia | exact Hl]). destruct (Z.leb_spec (2 ^ 64) (acc * 10 + (Z.of_N (N_of_ascii c) - 48))); [lia|].
  apply IH; [nia | done | done].
Qed.

Lemma ParseUint_Itoa n : 0 <= n < 2 ^ 64 -> ParseUint (Itoa n) 10 = Some n.
Proof.
  intros Hn. pose proof (parse_Itoa n ltac:(lia)) as Hp. unfold ParseUint.
  destruct (String.list_ascii_of_string (Itoa n)) as [|c l] eqn:Hl.
  - exfalso. assert (Itoa n = "") as Hi by (rewrite <- (String.string_of_list_ascii_of_string (Itoa n)), Hl; done).
    revert Hi. unfold Itoa, pretty, pretty_Z, pretty, pretty_positive, pretty, pretty_N.
    destruct n as [|p|p]; [done| |lia]. destruct (decide (N.pos p = 0)%N); [done|]. intros Hi.
    assert (forall x s, s <> "" -> pretty_N_go x s <> "") as Hgo.
    { clear. intros x. induction (N.lt_wf_0 x) as [x _ IH]; intros s Hs. destruct (decide (x = 0)%N) as [->|Hx].
      - by rewrite pretty_N_go_0.
      - rewrite pretty_N_go_step by lia. apply IH; [apply N.div_lt; lia | done]. }
    rewrite pretty_N_go_step in Hi by lia. by apply Hgo in Hi.
  - apply parse_base_digits; [lia | exact Hp | lia].
Qed.

Lemma parse_base_range base acc l z : 0 <= base -> 0 <= acc < 2 ^ 64 -> parse_base base acc l = Some z -> 0 <= z < 2 ^ 64.
Proof.
  intros Hb. revert acc. induction l as [|c l IH]; intros acc Ha; cbn [parse_base]; [intros; by simplify_eq|].
  destruct (digit_value c) as [d|] eqn:Hd; [|done]. cbn [mbind option_bind].
  destruct (base <=? d); [done|]. destruct (Z.leb_spec (2 ^ 64) (acc * base + d)); [done|]. apply IH.
  assert (0 <= d); [|nia]. unfold digit_value, byte_in in Hd. repeat case_match; simplify_eq; rewrite ?andb_true_iff, ?N.leb_le in *; lia.
Qed.

Lemma ParseUint_range s base z : 0 <= base -> ParseUint s base = Some z -> 0 <= z < 2 ^ 64.
Proof. unfold ParseUint. intros Hb. destruct (String.list_ascii_of_string s); [done|]. by apply parse_base_range. Qed.
