(* ===== verification/Sha256.v ===== *)
(** * Sha256: the standard library's crypto/sha256 and crypto/md5

    SHA-256 as FIPS 180-4 defines it, MD5 by RFC 1321. Words are [N] below 2^32,
    messages are byte lists. *)

From S2P Require Import Prelude GoLib.
From Stdlib Require Import Ascii NArith.
Open Scope string_scope.
Open Scope N_scope.

Definition w32 (x : N) : N := N.land x 4294967295.
Definition rotr (n x : N) : N := N.lor (N.shiftr x n) (w32 (N.shiftl x (32 - n))).
Definition Ch (x y z : N) : N := N.lxor (N.land x y) (N.land (N.lxor x 4294967295) z).
Definition Maj (x y z : N) : N := N.lxor (N.lxor (N.land x y) (N.land x z)) (N.land y z).
Definition BigSigma0 (x : N) : N := N.lxor (N.lxor (rotr 2 x) (rotr 13 x)) (rotr 22 x).
Definition BigSigma1 (x : N) : N := N.lxor (N.lxor (rotr 6 x) (rotr 11 x)) (rotr 25 x).
Definition SmallSigma0 (x : N) : N := N.lxor (N.lxor (rotr 7 x) (rotr 18 x)) (N.shiftr x 3).
Definition SmallSigma1 (x : N) : N := N.lxor (N.lxor (rotr 17 x) (rotr 19 x)) (N.shiftr x 10).

(** The constants, by their definition in the standard: the first 32 bits of the
    fractional parts of the cube roots of the first 64 primes, and of the square
    roots of the first 8. *)
Definition divides_none (n : N) (l : list N) : bool := forallb (fun p => negb (n mod p =? 0)) l.
Fixpoint primes (count : nat) (fuel : nat) (n : N) (found : list N) : list N :=
  match fuel with
  | O => reverse found
  | S fuel' =>
      if (count <=? length found)%nat then reverse found
      else primes count fuel' (n + 1) (if divides_none n found then n :: found else found)
  end.

(** The integer cube root, bit by bit from bit [n - 1] down. *)
Fixpoint cbrt (n : nat) (x root : N) : N :=
  match n with
  | O => root
  | S n' =>
      let r := root + N.shiftl 1 (N.of_nat n') in
      cbrt n' x (if r * r * r <=? x then r else root)
  end.

Definition K256 : list N :=
  Eval vm_compute in map (fun p => w32 (cbrt 40 (N.shiftl p 96) 0)) (primes 64 320 2 []).
Definition H256 : list N :=
  Eval vm_compute in map (fun p => w32 (N.sqrt (N.shiftl p 64))) (primes 8 320 2 []).

Example first_constants : head K256 = Some 0x428a2f98 /\ last K256 = Some 0xc67178f2 /\ head H256 = Some 0x6a09e667.
Proof. vm_compute. auto. Qed.

Definition word_of (bs : list N) : N := fold_left (fun acc b => acc * 256 + b) bs 0.

(** Splits into [n] groups of [k] elements. *)
Fixpoint groups {A} (n k : nat) (l : list A) : list (list A) :=
  match n with
  | O => []
  | S n' => take k l :: groups n' k (drop k l)
  end.

(** The message schedule: the last sixteen words are kept, newest first. *)
Fixpoint schedule (n : nat) (recent acc : list N) : list N :=
  match n with
  | O => reverse acc
  | S n' =>
      let w := w32 (SmallSigma1 (nth 1 recent 0) + nth 6 recent 0
                    + SmallSigma0 (nth 14 recent 0) + nth 15 recent 0) in
      schedule n' (w :: take 15 recent) (w :: acc)
  end.

Definition message_schedule (block : list N) : list N :=
  let ws := map word_of (groups 16 4 block) in
  schedule 48 (reverse ws) (reverse ws).

Record regs := mkRegs { ra : N; rb : N; rc : N; rd : N; re : N; rf : N; rg : N; rh : N }.

Definition round (r : regs) (kw : N * N) : regs :=
  let t1 := rh r + BigSigma1 (re r) + Ch (re r) (rf r) (rg r) + fst kw + snd kw in
  let t2 := BigSigma0 (ra r) + Maj (ra r) (rb r) (rc r) in
  mkRegs (w32 (t1 + t2)) (ra r) (rb r) (rc r) (w32 (rd r + t1)) (re r) (rf r) (rg r).

Definition compress (h : list N) (block : list N) : list N :=
  match h with
  | [a; b; c; d; e; f; g; i] =>
      let r := fold_left round (zip K256 (message_schedule block)) (mkRegs a b c d e f g i) in
      [w32 (a + ra r); w32 (b + rb r); w32 (c + rc r); w32 (d + rd r);
       w32 (e + re r); w32 (f + rf r); w32 (g + rg r); w32 (i + rh r)]
  | _ => h
  end.

Fixpoint be_bytes (n : nat) (x : N) : list N :=
  match n with
  | O => []
  | S n' => N.land (N.shiftr x (8 * N.of_nat n')) 255 :: be_bytes n' x
  end.

Definition pad (msg : list N) : list N :=
  let len := length msg in
  let zeros := ((119 - len mod 64) mod 64)%nat in
  msg ++ 128 :: repeat 0 zeros ++ be_bytes 8 (8 * N.of_nat len).

Definition sha256 (msg : list N) : list N :=
  let padded := pad msg in
  let h := fold_left compress (groups (length padded / 64) 64 padded) H256 in
  flat_map (be_bytes 4) h.

Definition string_bytes (s : string) : list N :=
  map N_of_ascii (String.list_ascii_of_string s).

(** [hex.EncodeToString(sum[:n])] of the digest of the bytes of [s]. *)
Definition sha256_hex_prefix (n : nat) (s : string) : string :=
  EncodeToString (map ascii_of_N (take n (sha256 (string_bytes s)))).
Definition sha256_hex (s : string) : string := sha256_hex_prefix 32 s.

(** The test vectors of FIPS 180-4 for the empty, one-block and two-block messages. *)
Example sha256_empty :
  sha256_hex "" = "e3b0c44298fc1c149afbf4c8996fb92427ae41e4649b934ca495991b7852b855".
Proof. vm_compute. reflexivity. Qed.

Example sha256_abc :
  sha256_hex "abc" = "ba7816bf8f01cfea414140de5dae2223b00361a396177a9cb410ff61f20015ad".
Proof. vm_compute. reflexivity. Qed.

Example sha256_two_blocks :
  sha256_hex "abcdbcdecdefdefgefghfghighijhijkijkljklmklmnlmnomnopnopq"
  = "248d6a61d20638b8e5c026930c3e6039a33ce45964ff2167f6ecedd419db06c1".
Proof. vm_compute. reflexivity. Qed.

(** ** crypto/md5

    The digest behind S3 entity tags, by RFC 1321, on byte strings; checked on the
    RFC's test vectors. *)

Open Scope string_scope.

Definition rotl (n x : N) : N := N.lor (w32 (N.shiftl x n)) (N.shiftr x (32 - n)).
Definition not32 (x : N) : N := N.lxor x 4294967295.

(** The sine table. *)
Definition md5_K : list N :=
  [3614090360; 3905402710; 606105819; 3250441966; 4118548399; 1200080426;
     2821735955; 4249261313; 1770035416; 2336552879; 4294925233; 2304563134;
     1804603682; 4254626195; 2792965006; 1236535329; 4129170786; 3225465664;
     643717713; 3921069994; 3593408605; 38016083; 3634488961; 3889429448;
     568446438; 3275163606; 4107603335; 1163531501; 2850285829; 4243563512;
     1735328473; 2368359562; 4294588738; 2272392833; 1839030562; 4259657740;
     2763975236; 1272893353; 4139469664; 3200236656; 681279174; 3936430074;
     3572445317; 76029189; 3654602809; 3873151461; 530742520; 3299628645;
     4096336452; 1126891415; 2878612391; 4237533241; 1700485571; 2399980690;
     4293915773; 2240044497; 1873313359; 4264355552; 2734768916; 1309151649;
     4149444226; 3174756917; 718787259; 3951481745].
Definition md5_shifts : list N := [7; 12; 17; 22; 5; 9; 14; 20; 4; 11; 16; 23; 6; 10; 15; 21].

Definition le_word (bs : list N) : N := fold_right (fun b acc => b + 256 * acc) 0 bs.
Fixpoint le_bytes (n : nat) (x : N) : list N :=
  match n with O => [] | S n' => x mod 256 :: le_bytes n' (x / 256) end.

Definition md5_step (block : list N) (s : N * N * N * N) (i : nat) : N * N * N * N :=
  let '(a, b, c, d) := s in
  let '(f, g) :=
    match (i / 16)%nat with
    | 0%nat => (N.lor (N.land b c) (N.land (not32 b) d), i)
    | 1%nat => (N.lor (N.land d b) (N.land (not32 d) c), ((5 * i + 1) mod 16)%nat)
    | 2%nat => (N.lxor (N.lxor b c) d, ((3 * i + 5) mod 16)%nat)
    | _ => (N.lxor c (N.lor b (not32 d)), ((7 * i) mod 16)%nat)
    end in
  let sum := w32 (f + a + nth i md5_K 0 + nth g block 0) in
  (d, w32 (b + rotl (nth (i / 16 * 4 + i mod 4)%nat md5_shifts 0) sum), b, c).

Definition md5_compress (s : N * N * N * N) (block : list N) : N * N * N * N :=
  let '(a, b, c, d) := s in
  let '(a', b', c', d') := fold_left (md5_step (map le_word (groups 16 4 block))) (seq 0 64) s in
  (w32 (a + a'), w32 (b + b'), w32 (c + c'), w32 (d + d')).

Definition md5_pad (msg : list N) : list N :=
  let zeros := ((55 + 64 - length msg mod 64) mod 64)%nat in
  (msg ++ [128] ++ repeat 0 zeros ++ le_bytes 8 (8 * N.of_nat (length msg)))%list.

(** [md5.Sum]. *)
Definition md5 (msg : list N) : list N :=
  let padded := md5_pad msg in
  let '(a, b, c, d) := fold_left md5_compress (groups (length padded / 64) 64 padded)
                         (1732584193, 4023233417, 2562383102, 271733878) in
  (le_bytes 4 a ++ le_bytes 4 b ++ le_bytes 4 c ++ le_bytes 4 d)%list.

Definition md5_sum (s : string) : list ascii := map ascii_of_N (md5 (string_bytes s)).
Definition md5_hex (s : string) : string := EncodeToString (md5_sum s).

Example md5_empty : md5_hex "" = "d41d8cd98f00b204e9800998ecf8427e".
Proof. by vm_compute. Qed.
Example md5_abc : md5_hex "abc" = "900150983cd24fb0d6963f7d28e17f72".
Proof. by vm_compute. Qed.
Example md5_two_blocks :
  md5_hex "12345678901234567890123456789012345678901234567890123456789012345678901234567890" = "57edf4a22be3c955ac49da2e2107b67a".
Proof. by vm_compute. Qed.
