(* ===== verification/StorageTypes.v ===== *)
(** * StorageTypes: segment references and policy documents

    The data types of [src/internal/storage/storage.go] (what a gateway knows
    about one stored segment) and the policy document types of
    [src/internal/auth/policy.go]. Field names keep the source's names behind a
    short prefix per struct. A Go map is a [gmap], a nil map the empty one; the
    [Clone...] helpers of the source copy values and have no counterpart, because
    values of the model are never shared. *)

From S2P Require Import Prelude GoLib.
Open Scope string_scope.
Open Scope Z_scope.

(** [src/internal/storage/storage.go] lines 46-50. *)
Record StorageClassSnapshot := mkStorageClassSnapshot {
  scs_StorageClassID : string;
  scs_Backend : string;
  scs_Parameters : gmap string string
}.
#[export] Instance eta_StorageClassSnapshot : RecordEta StorageClassSnapshot := fun r =>
    mkStorageClassSnapshot (scs_StorageClassID r) (scs_Backend r) (scs_Parameters r).
Definition zero_StorageClassSnapshot : StorageClassSnapshot := mkStorageClassSnapshot "" "" ∅.

(** [src/internal/storage/storage.go] lines 63-73. *)
Record PlacementChunk := mkPlacementChunk {
  plc_LogicalOffsetBytes : Z;
  plc_SizeBytes : Z;
  plc_VolumeID : string;
  plc_OffsetBytes : Z;
  plc_LengthBytes : Z;
  plc_StoreID : string;
  plc_ShardID : Z;
  plc_ChunkID : Z;
  plc_Role : string
}.
#[export] Instance eta_PlacementChunk : RecordEta PlacementChunk := fun r => mkPlacementChunk
    (plc_LogicalOffsetBytes r) (plc_SizeBytes r) (plc_VolumeID r) (plc_OffsetBytes r)
    (plc_LengthBytes r) (plc_StoreID r) (plc_ShardID r) (plc_ChunkID r) (plc_Role r).

(** [src/internal/storage/storage.go] lines 52-61. *)
Record PlacementSnapshot := mkPlacementSnapshot {
  pls_Backend : string;
  pls_Layout : string;
  pls_RedundancyBackend : string;
  pls_ProfileID : string;
  pls_ProfileGeneration : Z;
  pls_ChunkSizeBytes : Z;
  pls_Parameters : gmap string string;
  pls_Chunks : list PlacementChunk
}.
#[export] Instance eta_PlacementSnapshot : RecordEta PlacementSnapshot := fun r =>
    mkPlacementSnapshot (pls_Backend r) (pls_Layout r) (pls_RedundancyBackend r)
    (pls_ProfileID r) (pls_ProfileGeneration r) (pls_ChunkSizeBytes r) (pls_Parameters r)
    (pls_Chunks r).
Definition zero_PlacementSnapshot : PlacementSnapshot := mkPlacementSnapshot "" "" "" "" 0 0 ∅
    [].

(** [src/internal/storage/storage.go] lines 75-78. *)
Record Digest := mkDigest {
  dg_Algorithm : string;
  dg_Hex : string
}.
Definition zero_Digest : Digest := mkDigest "" "".

(** [src/internal/storage/storage.go] lines 80-89. *)
Record EncryptionEnvelope := mkEncryptionEnvelope {
  ee_Algorithm : string;
  ee_KeyID : string;
  ee_KeyVersion : string;
  ee_WrappedDEK : string;
  ee_Nonce : string;
  ee_PlaintextSizeBytes : Z;
  ee_CiphertextSizeBytes : Z;
  ee_Context : gmap string string
}.
#[export] Instance eta_EncryptionEnvelope : RecordEta EncryptionEnvelope := fun r =>
    mkEncryptionEnvelope (ee_Algorithm r) (ee_KeyID r) (ee_KeyVersion r) (ee_WrappedDEK r)
    (ee_Nonce r) (ee_PlaintextSizeBytes r) (ee_CiphertextSizeBytes r) (ee_Context r).
Definition zero_EncryptionEnvelope : EncryptionEnvelope := mkEncryptionEnvelope "" "" "" "" "" 0
    0 ∅.

(** [src/internal/storage/storage.go] lines 91-100. *)
Record SegmentRef := mkSegmentRef {
  sr_SegmentID : string;
  sr_StorageClass : StorageClassSnapshot;
  sr_Placement : PlacementSnapshot;
  sr_SizeBytes : Z;
  sr_Digest : Digest;
  sr_Encryption : EncryptionEnvelope;
  sr_CreatedAt : Time;
  sr_SharedObjectID : string
}.
#[export] Instance eta_SegmentRef : RecordEta SegmentRef := fun r => mkSegmentRef
    (sr_SegmentID r) (sr_StorageClass r) (sr_Placement r) (sr_SizeBytes r) (sr_Digest r)
    (sr_Encryption r) (sr_CreatedAt r) (sr_SharedObjectID r).
Definition zero_SegmentRef : SegmentRef := mkSegmentRef "" zero_StorageClassSnapshot
    zero_PlacementSnapshot 0 zero_Digest zero_EncryptionEnvelope 0 "".

(** [src/internal/storage/storage.go] lines 130-134. *)
Record GCCandidate := mkGCCandidate {
  gcc_Ref : SegmentRef;
  gcc_Reason : string;
  gcc_CreatedAt : Time
}.
(** [src/internal/auth/policy.go] lines 16-22. *)
Record PolicyStatement := mkPolicyStatement {
  ps_Sid : string;
  ps_Effect : string;
  ps_Principals : list string;
  ps_Actions : list string;
  ps_Resources : list string
}.
#[export] Instance eta_PolicyStatement : RecordEta PolicyStatement := fun r => mkPolicyStatement
    (ps_Sid r) (ps_Effect r) (ps_Principals r) (ps_Actions r) (ps_Resources r).

(** [src/internal/auth/policy.go] lines 11-14. *)
Record PolicyDocument := mkPolicyDocument {
  pd_Version : string;
  pd_Statements : list PolicyStatement
}.
#[export] Instance eta_PolicyDocument : RecordEta PolicyDocument := fun r => mkPolicyDocument
    (pd_Version r) (pd_Statements r).
Definition zero_PolicyDocument : PolicyDocument := mkPolicyDocument "" [].
(** Delete reasons, [src/internal/storage/storage.go] lines 120-129. *)
Definition DeleteReasonPublishFailed : string := "publish_failed".
Definition DeleteReasonObjectOverwritten : string := "object_overwritten".
Definition DeleteReasonMultipartAborted : string := "multipart_aborted".
Definition DeleteReasonManualGC : string := "manual_gc".
Definition DeleteReasonDedupeReplaced : string := "dedupe_replaced".
Definition DeleteReasonVolumeDrained : string := "volume_drained".
