(* ===== verification/Model.v ===== *)
(** * Model: the metadata records of [src/internal/meta/model/model.go]

    One [Record] per struct, with the source's field names behind a short
    prefix. The string-typed enumerations of the source stay strings, because the
    code receives and stores values outside the declared constants; the constants
    the code compares with are the definitions below. Times are [Z] nanoseconds
    counted from Go's zero time, so [IsZero] is equality with 0; [int], [int64]
    and [uint64] are [Z]; [float64] is the standard library's IEEE [spec_float]. *)

From S2P Require Import Prelude GoLib StorageTypes.
From Stdlib Require Import SpecFloat.
Open Scope string_scope.
Open Scope Z_scope.

(** [src/internal/meta/model/model.go] lines 10-14. *)
Record Tenant := mkTenant {
  tn_TenantID : string;
  tn_DisplayName : string;
  tn_CreatedAt : Time
}.

(** [src/internal/meta/model/model.go] lines 16-23. *)
Record MetadataSchemaRecord := mkMetadataSchemaRecord {
  msr_SchemaVersion : Z;
  msr_MinReaderVersion : Z;
  msr_MinWriterVersion : Z;
  msr_UpdatedBy : string;
  msr_CreatedAt : Time;
  msr_UpdatedAt : Time
}.
#[export] Instance eta_MetadataSchemaRecord : RecordEta MetadataSchemaRecord := fun r =>
    mkMetadataSchemaRecord (msr_SchemaVersion r) (msr_MinReaderVersion r)
    (msr_MinWriterVersion r) (msr_UpdatedBy r) (msr_CreatedAt r) (msr_UpdatedAt r).
Definition zero_MetadataSchemaRecord : MetadataSchemaRecord := mkMetadataSchemaRecord 0 0 0 "" 0
    0.

(** [src/internal/meta/model/model.go] lines 46-53. *)
Record MetadataMigrationStep := mkMetadataMigrationStep {
  mms_Name : string;
  mms_Status : string;
  mms_Message : string;
  mms_RepairNeeded : bool;
  mms_RecordsScanned : Z;
  mms_RecordsRepaired : Z
}.
#[export] Instance eta_MetadataMigrationStep : RecordEta MetadataMigrationStep := fun r =>
    mkMetadataMigrationStep (mms_Name r) (mms_Status r) (mms_Message r) (mms_RepairNeeded r)
    (mms_RecordsScanned r) (mms_RecordsRepaired r).

(** [src/internal/meta/model/model.go] lines 55-68. *)
Record MetadataMigrationOperationRecord := mkMetadataMigrationOperationRecord {
  mmor_OperationID : string;
  mmor_ResumeOfOperationID : string;
  mmor_TargetSchemaVersion : Z;
  mmor_Status : string;
  mmor_DryRun : bool;
  mmor_Apply : bool;
  mmor_OwnerID : string;
  mmor_Cursor : string;
  mmor_Steps : list MetadataMigrationStep;
  mmor_StartedAt : Time;
  mmor_FinishedAt : Time;
  mmor_CreatedAt : Time
}.
#[export] Instance eta_MetadataMigrationOperationRecord : RecordEta
    MetadataMigrationOperationRecord := fun r => mkMetadataMigrationOperationRecord
    (mmor_OperationID r) (mmor_ResumeOfOperationID r) (mmor_TargetSchemaVersion r)
    (mmor_Status r) (mmor_DryRun r) (mmor_Apply r) (mmor_OwnerID r) (mmor_Cursor r)
    (mmor_Steps r) (mmor_StartedAt r) (mmor_FinishedAt r) (mmor_CreatedAt r).

(** [src/internal/meta/model/model.go] lines 70-77. *)
Record TenantQuota := mkTenantQuota {
  tq_TenantID : string;
  tq_MaxBytes : Z;
  tq_MaxObjects : Z;
  tq_MaxActiveUploads : Z;
  tq_CreatedAt : Time;
  tq_UpdatedAt : Time
}.
Definition zero_TenantQuota : TenantQuota := mkTenantQuota "" 0 0 0 0 0.

(** [src/internal/meta/model/model.go] lines 79-89. *)
Record TenantUsage := mkTenantUsage {
  tu_TenantID : string;
  tu_ObjectBytes : Z;
  tu_ObjectCount : Z;
  tu_ActiveUploads : Z;
  tu_ReconciledAt : Time;
  tu_UpdatedAt : Time;
  tu_CreatedAt : Time;
  tu_ReconciliationID : string;
  tu_ReconciliationErr : string
}.
#[export] Instance eta_TenantUsage : RecordEta TenantUsage := fun r => mkTenantUsage
    (tu_TenantID r) (tu_ObjectBytes r) (tu_ObjectCount r) (tu_ActiveUploads r)
    (tu_ReconciledAt r) (tu_UpdatedAt r) (tu_CreatedAt r) (tu_ReconciliationID r)
    (tu_ReconciliationErr r).
Definition zero_TenantUsage : TenantUsage := mkTenantUsage "" 0 0 0 0 0 0 "" "".

(** [src/internal/meta/model/model.go] lines 98-105. *)
Record AccessKey := mkAccessKey {
  ak_TenantID : string;
  ak_AccessKeyID : string;
  ak_SecretHash : string;
  ak_Status : string;
  ak_Permissions : list string;
  ak_CreatedAt : Time
}.
#[export] Instance eta_AccessKey : RecordEta AccessKey := fun r => mkAccessKey (ak_TenantID r)
    (ak_AccessKeyID r) (ak_SecretHash r) (ak_Status r) (ak_Permissions r) (ak_CreatedAt r).

(** [src/internal/meta/model/model.go] lines 136-142. *)
Record CORSRule := mkCORSRule {
  cors_AllowedOrigins : list string;
  cors_AllowedMethods : list string;
  cors_AllowedHeaders : list string;
  cors_ExposeHeaders : list string;
  cors_MaxAgeSeconds : Z
}.

(** [src/internal/meta/model/model.go] lines 164-168. *)
Record LifecycleExpiration := mkLifecycleExpiration {
  le_Days : Z;
  le_Date : Time;
  le_ExpiredObjectDeleteMarker : bool
}.

(** [src/internal/meta/model/model.go] lines 170-172. *)
Record LifecycleNoncurrentVersionExpiration := mkLifecycleNoncurrentVersionExpiration {
  lnve_NoncurrentDays : Z
}.

(** [src/internal/meta/model/model.go] lines 174-176. *)
Record LifecycleAbortIncompleteMultipartUpload := mkLifecycleAbortIncompleteMultipartUpload {
  laimu_DaysAfterInitiation : Z
}.

(** [src/internal/meta/model/model.go] lines 155-162. *)
Record LifecycleRule := mkLifecycleRule {
  lr_ID : string;
  lr_Status : string;
  lr_Prefix : string;
  lr_Expiration : LifecycleExpiration;
  lr_NoncurrentVersionExpiration : LifecycleNoncurrentVersionExpiration;
  lr_AbortIncompleteMultipartUpload : LifecycleAbortIncompleteMultipartUpload
}.

(** [src/internal/meta/model/model.go] lines 151-153. *)
Record BucketLifecycleConfiguration := mkBucketLifecycleConfiguration {
  blc_Rules : list LifecycleRule
}.
Definition zero_BucketLifecycleConfiguration : BucketLifecycleConfiguration :=
    mkBucketLifecycleConfiguration [].

(** [src/internal/meta/model/model.go] lines 216-220. *)
Record ServerSideEncryption := mkServerSideEncryption {
  sse_Algorithm : string;
  sse_KeyID : string;
  sse_KeyVersion : string
}.
Definition zero_ServerSideEncryption : ServerSideEncryption := mkServerSideEncryption "" "" "".

(** [src/internal/meta/model/model.go] lines 197-201. *)
Record BucketObjectLockDefaultRetention := mkBucketObjectLockDefaultRetention {
  boldr_Mode : string;
  boldr_Days : Z;
  boldr_Years : Z
}.
Definition zero_BucketObjectLockDefaultRetention : BucketObjectLockDefaultRetention :=
    mkBucketObjectLockDefaultRetention "" 0 0.

(** [src/internal/meta/model/model.go] lines 192-195. *)
Record BucketObjectLockConfiguration := mkBucketObjectLockConfiguration {
  bolc_Enabled : bool;
  bolc_DefaultRetention : BucketObjectLockDefaultRetention
}.
Definition zero_BucketObjectLockConfiguration : BucketObjectLockConfiguration :=
    mkBucketObjectLockConfiguration false zero_BucketObjectLockDefaultRetention.

(** [src/internal/meta/model/model.go] lines 107-119. *)
Record Bucket := mkBucket {
  bk_BucketID : string;
  bk_TenantID : string;
  bk_Name : string;
  bk_Region : string;
  bk_VersioningState : string;
  bk_CORSRules : list CORSRule;
  bk_Lifecycle : BucketLifecycleConfiguration;
  bk_DefaultEncryption : ServerSideEncryption;
  bk_ObjectLock : BucketObjectLockConfiguration;
  bk_Policy : PolicyDocument;
  bk_CreatedAt : Time
}.
#[export] Instance eta_Bucket : RecordEta Bucket := fun r => mkBucket (bk_BucketID r)
    (bk_TenantID r) (bk_Name r) (bk_Region r) (bk_VersioningState r) (bk_CORSRules r)
    (bk_Lifecycle r) (bk_DefaultEncryption r) (bk_ObjectLock r) (bk_Policy r) (bk_CreatedAt r).
Definition zero_Bucket : Bucket := mkBucket "" "" "" "" "" [] zero_BucketLifecycleConfiguration
    zero_ServerSideEncryption zero_BucketObjectLockConfiguration zero_PolicyDocument 0.

(** [src/internal/meta/model/model.go] lines 121-126. *)
Record BucketQuota := mkBucketQuota {
  bq_BucketID : string;
  bq_MaxObjectSizeBytes : Z;
  bq_CreatedAt : Time;
  bq_UpdatedAt : Time
}.
Definition zero_BucketQuota : BucketQuota := mkBucketQuota "" 0 0 0.

(** [src/internal/meta/model/model.go] lines 203-206. *)
Record ObjectLockRetention := mkObjectLockRetention {
  olr_Mode : string;
  olr_RetainUntilDate : Time
}.
Definition zero_ObjectLockRetention : ObjectLockRetention := mkObjectLockRetention "" 0.

(** [src/internal/meta/model/model.go] lines 231-237. *)
Record KMSKeyRecord := mkKMSKeyRecord {
  kms_KeyID : string;
  kms_KeyVersion : string;
  kms_State : string;
  kms_CreatedAt : Time;
  kms_UpdatedAt : Time
}.
#[export] Instance eta_KMSKeyRecord : RecordEta KMSKeyRecord := fun r => mkKMSKeyRecord
    (kms_KeyID r) (kms_KeyVersion r) (kms_State r) (kms_CreatedAt r) (kms_UpdatedAt r).
Definition zero_KMSKeyRecord : KMSKeyRecord := mkKMSKeyRecord "" "" "" 0 0.

(** [src/internal/meta/model/model.go] lines 239-254. *)
Record ComplianceProfileAttachment := mkComplianceProfileAttachment {
  cpa_ProfileID : string;
  cpa_Regulation : string;
  cpa_RecordClass : string;
  cpa_BucketID : string;
  cpa_Prefix : string;
  cpa_ObjectClass : string;
  cpa_RetentionMode : string;
  cpa_RetentionDays : Z;
  cpa_RetentionYears : Z;
  cpa_LegalHoldPolicy : string;
  cpa_GovernanceBypassPolicy : string;
  cpa_EvidenceExportPolicy : string;
  cpa_CreatedAt : Time;
  cpa_UpdatedAt : Time
}.
#[export] Instance eta_ComplianceProfileAttachment : RecordEta ComplianceProfileAttachment :=
    fun r => mkComplianceProfileAttachment (cpa_ProfileID r) (cpa_Regulation r)
    (cpa_RecordClass r) (cpa_BucketID r) (cpa_Prefix r) (cpa_ObjectClass r)
    (cpa_RetentionMode r) (cpa_RetentionDays r) (cpa_RetentionYears r) (cpa_LegalHoldPolicy r)
    (cpa_GovernanceBypassPolicy r) (cpa_EvidenceExportPolicy r) (cpa_CreatedAt r)
    (cpa_UpdatedAt r).
Definition zero_ComplianceProfileAttachment : ComplianceProfileAttachment :=
    mkComplianceProfileAttachment "" "" "" "" "" "" "" 0 0 "" "" "" 0 0.

(** [src/internal/meta/model/model.go] lines 304-316. *)
Record AuditPrincipal := mkAuditPrincipal {
  ap_TenantID : string;
  ap_AccessKeyID : string;
  ap_DisplayName : string;
  ap_Subject : string;
  ap_Groups : list string;
  ap_Roles : list string;
  ap_SessionID : string;
  ap_ExternalIssuer : string;
  ap_PolicyVersion : string;
  ap_SourceIdentity : string;
  ap_Root : bool
}.
#[export] Instance eta_AuditPrincipal : RecordEta AuditPrincipal := fun r => mkAuditPrincipal
    (ap_TenantID r) (ap_AccessKeyID r) (ap_DisplayName r) (ap_Subject r) (ap_Groups r)
    (ap_Roles r) (ap_SessionID r) (ap_ExternalIssuer r) (ap_PolicyVersion r)
    (ap_SourceIdentity r) (ap_Root r).
Definition zero_AuditPrincipal : AuditPrincipal := mkAuditPrincipal "" "" "" "" [] [] "" "" ""
    "" false.

(** [src/internal/meta/model/model.go] lines 318-331. *)
Record AuditEvent := mkAuditEvent {
  ae_EventID : string;
  ae_Action : string;
  ae_BucketID : string;
  ae_Key : string;
  ae_VersionID : string;
  ae_RequestID : string;
  ae_Reason : string;
  ae_Principal : AuditPrincipal;
  ae_Details : gmap string string;
  ae_PreviousHash : string;
  ae_EventHash : string;
  ae_CreatedAt : Time
}.
#[export] Instance eta_AuditEvent : RecordEta AuditEvent := fun r => mkAuditEvent (ae_EventID r)
    (ae_Action r) (ae_BucketID r) (ae_Key r) (ae_VersionID r) (ae_RequestID r) (ae_Reason r)
    (ae_Principal r) (ae_Details r) (ae_PreviousHash r) (ae_EventHash r) (ae_CreatedAt r).

(** [src/internal/meta/model/model.go] lines 339-352. *)
Record ProtectedRef := mkProtectedRef {
  pr_RefID : string;
  pr_Reason : string;
  pr_BucketID : string;
  pr_Key : string;
  pr_VersionID : string;
  pr_SegmentID : string;
  pr_SegmentRef : SegmentRef;
  pr_RetentionMode : string;
  pr_RetainUntilDate : Time;
  pr_LegalHold : string;
  pr_CreatedAt : Time;
  pr_UpdatedAt : Time
}.
#[export] Instance eta_ProtectedRef : RecordEta ProtectedRef := fun r => mkProtectedRef
    (pr_RefID r) (pr_Reason r) (pr_BucketID r) (pr_Key r) (pr_VersionID r) (pr_SegmentID r)
    (pr_SegmentRef r) (pr_RetentionMode r) (pr_RetainUntilDate r) (pr_LegalHold r)
    (pr_CreatedAt r) (pr_UpdatedAt r).

(** [src/internal/meta/model/model.go] lines 370-377. *)
Record GCOperationAttempt := mkGCOperationAttempt {
  gca_SegmentID : string;
  gca_SharedObjectID : string;
  gca_Reason : string;
  gca_Status : string;
  gca_Retryable : bool;
  gca_Error : string
}.

(** [src/internal/meta/model/model.go] lines 379-391. *)
Record GCOperationRecord := mkGCOperationRecord {
  gco_OperationID : string;
  gco_ResumeOfOperationID : string;
  gco_Status : string;
  gco_StartedAt : Time;
  gco_FinishedAt : Time;
  gco_Scanned : Z;
  gco_Deleted : Z;
  gco_Skipped : Z;
  gco_Retryable : Z;
  gco_Attempts : list GCOperationAttempt;
  gco_CreatedAt : Time
}.
#[export] Instance eta_GCOperationRecord : RecordEta GCOperationRecord := fun r =>
    mkGCOperationRecord (gco_OperationID r) (gco_ResumeOfOperationID r) (gco_Status r)
    (gco_StartedAt r) (gco_FinishedAt r) (gco_Scanned r) (gco_Deleted r) (gco_Skipped r)
    (gco_Retryable r) (gco_Attempts r) (gco_CreatedAt r).

(** [src/internal/meta/model/model.go] lines 393-399. *)
Record GCCandidateRecord := mkGCCandidateRecord {
  gcr_SegmentID : string;
  gcr_SegmentRef : SegmentRef;
  gcr_Reason : string;
  gcr_CreatedAt : Time;
  gcr_UpdatedAt : Time
}.
#[export] Instance eta_GCCandidateRecord : RecordEta GCCandidateRecord := fun r =>
    mkGCCandidateRecord (gcr_SegmentID r) (gcr_SegmentRef r) (gcr_Reason r) (gcr_CreatedAt r)
    (gcr_UpdatedAt r).
Definition zero_GCCandidateRecord : GCCandidateRecord := mkGCCandidateRecord "" zero_SegmentRef
    "" 0 0.

(** [src/internal/meta/model/model.go] lines 417-429. *)
Record DedupeOperationAttempt := mkDedupeOperationAttempt {
  doa_BucketID : string;
  doa_Key : string;
  doa_SourceVersion : string;
  doa_CandidateVersion : string;
  doa_PlanStatus : string;
  doa_PlanReason : string;
  doa_Status : string;
  doa_SharedObjectID : string;
  doa_OrphansMarked : Z;
  doa_Retryable : bool;
  doa_Error : string
}.

(** [src/internal/meta/model/model.go] lines 431-443. *)
Record DedupeOperationRecord := mkDedupeOperationRecord {
  dop_OperationID : string;
  dop_ResumeOfOperationID : string;
  dop_Status : string;
  dop_StartedAt : Time;
  dop_FinishedAt : Time;
  dop_Scanned : Z;
  dop_Acked : Z;
  dop_Skipped : Z;
  dop_Retryable : Z;
  dop_Attempts : list DedupeOperationAttempt;
  dop_CreatedAt : Time
}.
#[export] Instance eta_DedupeOperationRecord : RecordEta DedupeOperationRecord := fun r =>
    mkDedupeOperationRecord (dop_OperationID r) (dop_ResumeOfOperationID r) (dop_Status r)
    (dop_StartedAt r) (dop_FinishedAt r) (dop_Scanned r) (dop_Acked r) (dop_Skipped r)
    (dop_Retryable r) (dop_Attempts r) (dop_CreatedAt r).

(** [src/internal/meta/model/model.go] lines 445-451. *)
Record DedupeOperationLock := mkDedupeOperationLock {
  dol_LockID : string;
  dol_OwnerID : string;
  dol_AcquiredAt : Time;
  dol_UpdatedAt : Time;
  dol_ExpiresAt : Time
}.

(** [src/internal/meta/model/model.go] lines 474-486. *)
Record VolumeDrainAttempt := mkVolumeDrainAttempt {
  vda_BucketID : string;
  vda_Key : string;
  vda_VersionID : string;
  vda_SourceSegmentID : string;
  vda_SourceRef : SegmentRef;
  vda_TargetSegmentID : string;
  vda_TargetRef : SegmentRef;
  vda_Status : string;
  vda_Protected : bool;
  vda_Retryable : bool;
  vda_Error : string
}.
#[export] Instance eta_VolumeDrainAttempt : RecordEta VolumeDrainAttempt := fun r =>
    mkVolumeDrainAttempt (vda_BucketID r) (vda_Key r) (vda_VersionID r) (vda_SourceSegmentID r)
    (vda_SourceRef r) (vda_TargetSegmentID r) (vda_TargetRef r) (vda_Status r) (vda_Protected r)
    (vda_Retryable r) (vda_Error r).

(** [src/internal/meta/model/model.go] lines 488-506. *)
Record VolumeDrainOperationRecord := mkVolumeDrainOperationRecord {
  vdor_OperationID : string;
  vdor_ResumeOfOperationID : string;
  vdor_PoolID : string;
  vdor_SourceVolumeID : string;
  vdor_TargetVolumeID : string;
  vdor_OwnerID : string;
  vdor_Status : string;
  vdor_Cursor : string;
  vdor_StartedAt : Time;
  vdor_FinishedAt : Time;
  vdor_Scanned : Z;
  vdor_Copied : Z;
  vdor_Skipped : Z;
  vdor_Protected : Z;
  vdor_Retryable : Z;
  vdor_Attempts : list VolumeDrainAttempt;
  vdor_CreatedAt : Time
}.
#[export] Instance eta_VolumeDrainOperationRecord : RecordEta VolumeDrainOperationRecord := fun
    r => mkVolumeDrainOperationRecord (vdor_OperationID r) (vdor_ResumeOfOperationID r)
    (vdor_PoolID r) (vdor_SourceVolumeID r) (vdor_TargetVolumeID r) (vdor_OwnerID r)
    (vdor_Status r) (vdor_Cursor r) (vdor_StartedAt r) (vdor_FinishedAt r) (vdor_Scanned r)
    (vdor_Copied r) (vdor_Skipped r) (vdor_Protected r) (vdor_Retryable r) (vdor_Attempts r)
    (vdor_CreatedAt r).

(** [src/internal/meta/model/model.go] lines 514-523. *)
Record SharedObjectRelease := mkSharedObjectRelease {
  srl_ReleaseID : string;
  srl_SharedObjectID : string;
  srl_SegmentID : string;
  srl_SegmentRef : SegmentRef;
  srl_Reason : string;
  srl_Status : string;
  srl_CreatedAt : Time;
  srl_UpdatedAt : Time
}.
#[export] Instance eta_SharedObjectRelease : RecordEta SharedObjectRelease := fun r =>
    mkSharedObjectRelease (srl_ReleaseID r) (srl_SharedObjectID r) (srl_SegmentID r)
    (srl_SegmentRef r) (srl_Reason r) (srl_Status r) (srl_CreatedAt r) (srl_UpdatedAt r).
Definition zero_SharedObjectRelease : SharedObjectRelease := mkSharedObjectRelease "" "" ""
    zero_SegmentRef "" "" 0 0.

(** [src/internal/meta/model/model.go] lines 525-539. *)
Record SharedObject := mkSharedObject {
  so_SharedObjectID : string;
  so_TenantID : string;
  so_BucketID : string;
  so_Key : string;
  so_SourceVersionID : string;
  so_SizeBytes : Z;
  so_Digest : Digest;
  so_StorageClass : StorageClassSnapshot;
  so_SegmentRefs : list SegmentRef;
  so_RefCount : Z;
  so_ProtectedRootCount : Z;
  so_CreatedAt : Time;
  so_UpdatedAt : Time
}.
#[export] Instance eta_SharedObject : RecordEta SharedObject := fun r => mkSharedObject
    (so_SharedObjectID r) (so_TenantID r) (so_BucketID r) (so_Key r) (so_SourceVersionID r)
    (so_SizeBytes r) (so_Digest r) (so_StorageClass r) (so_SegmentRefs r) (so_RefCount r)
    (so_ProtectedRootCount r) (so_CreatedAt r) (so_UpdatedAt r).

Definition zero_SharedObject : SharedObject := mkSharedObject "" "" "" "" "" 0 zero_Digest
    zero_StorageClassSnapshot [] 0 0 0 0.

(** [src/internal/meta/model/model.go] lines 541-550. *)
Record SharedObjectRef := mkSharedObjectRef {
  sof_RefID : string;
  sof_SharedObjectID : string;
  sof_BucketID : string;
  sof_Key : string;
  sof_VersionID : string;
  sof_SegmentRefs : list SegmentRef;
  sof_CreatedAt : Time;
  sof_UpdatedAt : Time
}.
#[export] Instance eta_SharedObjectRef : RecordEta SharedObjectRef := fun r => mkSharedObjectRef
    (sof_RefID r) (sof_SharedObjectID r) (sof_BucketID r) (sof_Key r) (sof_VersionID r)
    (sof_SegmentRefs r) (sof_CreatedAt r) (sof_UpdatedAt r).

(** [src/internal/meta/model/model.go] lines 592-596. *)
Record ObjectManifestDescriptor := mkObjectManifestDescriptor {
  omd_Encoding : string;
  omd_RefCount : Z;
  omd_ChunkCount : Z
}.
Definition zero_ObjectManifestDescriptor : ObjectManifestDescriptor :=
    mkObjectManifestDescriptor "" 0 0.

(** [src/internal/meta/model/model.go] lines 659-680. *)
Record ObjectVersion := mkObjectVersion {
  ov_BucketID : string;
  ov_Key : string;
  ov_VersionID : string;
  ov_VersionSortKey : string;
  ov_SizeBytes : Z;
  ov_ETag : string;
  ov_ContentType : string;
  ov_StorageClass : StorageClassSnapshot;
  ov_ServerSideEncryption : ServerSideEncryption;
  ov_SegmentRef : SegmentRef;
  ov_SegmentRefs : list SegmentRef;
  ov_Manifest : ObjectManifestDescriptor;
  ov_UserMetadata : gmap string string;
  ov_Tags : gmap string string;
  ov_ObjectLockRetention : ObjectLockRetention;
  ov_ObjectLockLegalHold : string;
  ov_State : string;
  ov_CreatedAt : Time;
  ov_CommittedAt : Time;
  ov_DeleteMarker : bool
}.
#[export] Instance eta_ObjectVersion : RecordEta ObjectVersion := fun r => mkObjectVersion
    (ov_BucketID r) (ov_Key r) (ov_VersionID r) (ov_VersionSortKey r) (ov_SizeBytes r)
    (ov_ETag r) (ov_ContentType r) (ov_StorageClass r) (ov_ServerSideEncryption r)
    (ov_SegmentRef r) (ov_SegmentRefs r) (ov_Manifest r) (ov_UserMetadata r) (ov_Tags r)
    (ov_ObjectLockRetention r) (ov_ObjectLockLegalHold r) (ov_State r) (ov_CreatedAt r)
    (ov_CommittedAt r) (ov_DeleteMarker r).
Definition zero_ObjectVersion : ObjectVersion := mkObjectVersion "" "" "" "" 0 "" ""
    zero_StorageClassSnapshot zero_ServerSideEncryption zero_SegmentRef []
    zero_ObjectManifestDescriptor ∅ ∅ zero_ObjectLockRetention "" "" 0 0 false.

(** [src/internal/meta/model/model.go] lines 552-557. *)
Record AttachSharedObjectResult := mkAttachSharedObjectResult {
  asor_Version : ObjectVersion;
  asor_SharedObject : SharedObject;
  asor_Ref : SharedObjectRef;
  asor_PreviousSegmentRefs : list SegmentRef
}.

(** [src/internal/meta/model/model.go] lines 559-562. *)
Record SharedObjectRepairResult := mkSharedObjectRepairResult {
  sorr_Scanned : Z;
  sorr_Updated : Z
}.
#[export] Instance eta_SharedObjectRepairResult : RecordEta SharedObjectRepairResult := fun r =>
    mkSharedObjectRepairResult (sorr_Scanned r) (sorr_Updated r).
Definition zero_SharedObjectRepairResult : SharedObjectRepairResult :=
    mkSharedObjectRepairResult 0 0.

(** [src/internal/meta/model/model.go] lines 564-577. *)
Record ListIndexRepairResult := mkListIndexRepairResult {
  lirr_ScannedObjectHeads : Z;
  lirr_ScannedObjectListEntries : Z;
  lirr_MissingObjectListEntries : Z;
  lirr_StaleObjectListEntries : Z;
  lirr_RepairedObjectListEntries : Z;
  lirr_RemovedObjectListEntries : Z;
  lirr_ScannedMultipartUploads : Z;
  lirr_ScannedMultipartUploadIndexes : Z;
  lirr_MissingMultipartUploadIndexes : Z;
  lirr_StaleMultipartUploadIndexes : Z;
  lirr_RepairedMultipartUploadIndexes : Z;
  lirr_RemovedMultipartUploadIndexes : Z
}.
#[export] Instance eta_ListIndexRepairResult : RecordEta ListIndexRepairResult := fun r =>
    mkListIndexRepairResult (lirr_ScannedObjectHeads r) (lirr_ScannedObjectListEntries r)
    (lirr_MissingObjectListEntries r) (lirr_StaleObjectListEntries r)
    (lirr_RepairedObjectListEntries r) (lirr_RemovedObjectListEntries r)
    (lirr_ScannedMultipartUploads r) (lirr_ScannedMultipartUploadIndexes r)
    (lirr_MissingMultipartUploadIndexes r) (lirr_StaleMultipartUploadIndexes r)
    (lirr_RepairedMultipartUploadIndexes r) (lirr_RemovedMultipartUploadIndexes r).
Definition zero_ListIndexRepairResult : ListIndexRepairResult := mkListIndexRepairResult 0 0 0 0
    0 0 0 0 0 0 0 0.

(** [src/internal/meta/model/model.go] lines 598-605. *)
Record ObjectManifestChunk := mkObjectManifestChunk {
  omc_BucketID : string;
  omc_Key : string;
  omc_VersionID : string;
  omc_ChunkNumber : Z;
  omc_SegmentRefs : list SegmentRef;
  omc_CreatedAt : Time
}.

(** [src/internal/meta/model/model.go] lines 607-626. *)
Record ObjectHead := mkObjectHead {
  oh_BucketID : string;
  oh_Key : string;
  oh_VersionID : string;
  oh_Revision : Z;
  oh_SizeBytes : Z;
  oh_ETag : string;
  oh_ContentType : string;
  oh_StorageClass : StorageClassSnapshot;
  oh_ServerSideEncryption : ServerSideEncryption;
  oh_SegmentRef : SegmentRef;
  oh_SegmentRefs : list SegmentRef;
  oh_Manifest : ObjectManifestDescriptor;
  oh_UserMetadata : gmap string string;
  oh_Tags : gmap string string;
  oh_ObjectLockRetention : ObjectLockRetention;
  oh_ObjectLockLegalHold : string;
  oh_LastModified : Time;
  oh_DeleteMarker : bool
}.
#[export] Instance eta_ObjectHead : RecordEta ObjectHead := fun r => mkObjectHead
    (oh_BucketID r) (oh_Key r) (oh_VersionID r) (oh_Revision r) (oh_SizeBytes r) (oh_ETag r)
    (oh_ContentType r) (oh_StorageClass r) (oh_ServerSideEncryption r) (oh_SegmentRef r)
    (oh_SegmentRefs r) (oh_Manifest r) (oh_UserMetadata r) (oh_Tags r)
    (oh_ObjectLockRetention r) (oh_ObjectLockLegalHold r) (oh_LastModified r)
    (oh_DeleteMarker r).
Definition zero_ObjectHead : ObjectHead := mkObjectHead "" "" "" 0 0 "" ""
    zero_StorageClassSnapshot zero_ServerSideEncryption zero_SegmentRef []
    zero_ObjectManifestDescriptor ∅ ∅ zero_ObjectLockRetention "" 0 false.

(** [src/internal/meta/model/model.go] lines 682-687. *)
Record PendingObjectVersion := mkPendingObjectVersion {
  pov_Version : ObjectVersion;
  pov_BaseHeadVersionID : string;
  pov_BaseHead : ObjectHead;
  pov_BaseHeadFound : bool
}.

(** [src/internal/meta/model/model.go] lines 689-694. *)
Record DeleteResult := mkDeleteResult {
  dr_Deleted : bool;
  dr_DeletedVersionID : string;
  dr_DeleteMarker : bool;
  dr_DeletedVersion : ObjectVersion
}.

(** [src/internal/meta/model/model.go] lines 696-701. *)
Record ListObjectsResult := mkListObjectsResult {
  lores_Contents : list ObjectHead;
  lores_CommonPrefixes : list string;
  lores_IsTruncated : bool;
  lores_NextContinuationToken : string
}.

(** [src/internal/meta/model/model.go] lines 703-706. *)
Record ObjectVersionEntry := mkObjectVersionEntry {
  ove_Version : ObjectVersion;
  ove_IsLatest : bool
}.

(** [src/internal/meta/model/model.go] lines 708-715. *)
Record ListObjectVersionsResult := mkListObjectVersionsResult {
  lovr_Versions : list ObjectVersionEntry;
  lovr_DeleteMarkers : list ObjectVersionEntry;
  lovr_CommonPrefixes : list string;
  lovr_IsTruncated : bool;
  lovr_NextKeyMarker : string;
  lovr_NextVersionIDMarker : string
}.

(** [src/internal/meta/model/model.go] lines 748-774. *)
Record MultipartUpload := mkMultipartUpload {
  mu_UploadID : string;
  mu_BucketID : string;
  mu_Key : string;
  mu_ContentType : string;
  mu_StorageClass : StorageClassSnapshot;
  mu_ServerSideEncryption : ServerSideEncryption;
  mu_UserMetadata : gmap string string;
  mu_Tags : gmap string string;
  mu_ObjectLockRetention : ObjectLockRetention;
  mu_ObjectLockLegalHold : string;
  mu_State : string;
  mu_PartCount : Z;
  mu_TotalPartSizeBytes : Z;
  mu_MaxPartNumber : Z;
  mu_PartsUpdatedAt : Time;
  mu_CompletedVersionID : string;
  mu_CompletedETag : string;
  mu_CompletedSizeBytes : Z;
  mu_CompletedPartCount : Z;
  mu_CompletedAt : Time;
  mu_PartsCleanupState : string;
  mu_PartsCleanupDeleted : Z;
  mu_PartsCleanupUpdatedAt : Time;
  mu_CreatedAt : Time;
  mu_UpdatedAt : Time
}.
#[export] Instance eta_MultipartUpload : RecordEta MultipartUpload := fun r => mkMultipartUpload
    (mu_UploadID r) (mu_BucketID r) (mu_Key r) (mu_ContentType r) (mu_StorageClass r)
    (mu_ServerSideEncryption r) (mu_UserMetadata r) (mu_Tags r) (mu_ObjectLockRetention r)
    (mu_ObjectLockLegalHold r) (mu_State r) (mu_PartCount r) (mu_TotalPartSizeBytes r)
    (mu_MaxPartNumber r) (mu_PartsUpdatedAt r) (mu_CompletedVersionID r) (mu_CompletedETag r)
    (mu_CompletedSizeBytes r) (mu_CompletedPartCount r) (mu_CompletedAt r)
    (mu_PartsCleanupState r) (mu_PartsCleanupDeleted r) (mu_PartsCleanupUpdatedAt r)
    (mu_CreatedAt r) (mu_UpdatedAt r).
Definition zero_MultipartUpload : MultipartUpload := mkMultipartUpload "" "" "" ""
    zero_StorageClassSnapshot zero_ServerSideEncryption ∅ ∅ zero_ObjectLockRetention "" "" 0 0 0
    0 "" "" 0 0 0 "" 0 0 0 0.

(** [src/internal/meta/model/model.go] lines 717-723. *)
Record ListMultipartUploadsResult := mkListMultipartUploadsResult {
  lmur_Uploads : list MultipartUpload;
  lmur_CommonPrefixes : list string;
  lmur_IsTruncated : bool;
  lmur_NextKeyMarker : string;
  lmur_NextUploadIDMarker : string
}.

(** [src/internal/meta/model/model.go] lines 776-788. *)
Record MultipartCompletionRecord := mkMultipartCompletionRecord {
  mcr_BucketID : string;
  mcr_Key : string;
  mcr_UploadID : string;
  mcr_ObjectVersionID : string;
  mcr_ExpectedHeadVersionID : string;
  mcr_ETag : string;
  mcr_SizeBytes : Z;
  mcr_PartCount : Z;
  mcr_State : string;
  mcr_CreatedAt : Time;
  mcr_UpdatedAt : Time
}.
#[export] Instance eta_MultipartCompletionRecord : RecordEta MultipartCompletionRecord := fun r
    => mkMultipartCompletionRecord (mcr_BucketID r) (mcr_Key r) (mcr_UploadID r)
    (mcr_ObjectVersionID r) (mcr_ExpectedHeadVersionID r) (mcr_ETag r) (mcr_SizeBytes r)
    (mcr_PartCount r) (mcr_State r) (mcr_CreatedAt r) (mcr_UpdatedAt r).

(** [src/internal/meta/model/model.go] lines 790-798. *)
Record MultipartPart := mkMultipartPart {
  mp_UploadID : string;
  mp_PartNumber : Z;
  mp_SizeBytes : Z;
  mp_ETag : string;
  mp_SegmentRef : SegmentRef;
  mp_CreatedAt : Time;
  mp_UpdatedAt : Time
}.
#[export] Instance eta_MultipartPart : RecordEta MultipartPart := fun r => mkMultipartPart
    (mp_UploadID r) (mp_PartNumber r) (mp_SizeBytes r) (mp_ETag r) (mp_SegmentRef r)
    (mp_CreatedAt r) (mp_UpdatedAt r).

(** [src/internal/meta/model/model.go] lines 827-843. *)
Record VolumePoolMember := mkVolumePoolMember {
  vpm_VolumeID : string;
  vpm_AdminEndpoint : string;
  vpm_DataEndpoint : string;
  vpm_GatewayID : string;
  vpm_AttachmentID : string;
  vpm_Generation : Z;
  vpm_ChunkSizeBytes : Z;
  vpm_State : string;
  vpm_ReadOnly : bool;
  vpm_Weight : Z;
  vpm_CapacityBytes : Z;
  vpm_AvailableBytes : Z;
  vpm_UsedPercent : spec_float;
  vpm_HighWatermarkPercent : spec_float;
  vpm_LastObservedAt : Time
}.
#[export] Instance eta_VolumePoolMember : RecordEta VolumePoolMember := fun r =>
    mkVolumePoolMember (vpm_VolumeID r) (vpm_AdminEndpoint r) (vpm_DataEndpoint r)
    (vpm_GatewayID r) (vpm_AttachmentID r) (vpm_Generation r) (vpm_ChunkSizeBytes r)
    (vpm_State r) (vpm_ReadOnly r) (vpm_Weight r) (vpm_CapacityBytes r) (vpm_AvailableBytes r)
    (vpm_UsedPercent r) (vpm_HighWatermarkPercent r) (vpm_LastObservedAt r).

(** [src/internal/meta/model/model.go] lines 817-825. *)
Record VolumePool := mkVolumePool {
  vp_PoolID : string;
  vp_Generation : Z;
  vp_DurabilityClass : string;
  vp_StorageClassIDs : list string;
  vp_Members : list VolumePoolMember;
  vp_CreatedAt : Time;
  vp_UpdatedAt : Time
}.
#[export] Instance eta_VolumePool : RecordEta VolumePool := fun r => mkVolumePool (vp_PoolID r)
    (vp_Generation r) (vp_DurabilityClass r) (vp_StorageClassIDs r) (vp_Members r)
    (vp_CreatedAt r) (vp_UpdatedAt r).
Definition zero_VolumePool : VolumePool := mkVolumePool "" 0 "" [] [] 0 0.

(** [src/internal/meta/model/model.go] lines 845-855. *)
Record WorkerLease := mkWorkerLease {
  wl_LeaseID : string;
  wl_WorkerKind : string;
  wl_ShardID : string;
  wl_OwnerID : string;
  wl_Generation : Z;
  wl_Cursor : string;
  wl_AcquiredAt : Time;
  wl_UpdatedAt : Time;
  wl_ExpiresAt : Time
}.
#[export] Instance eta_WorkerLease : RecordEta WorkerLease := fun r => mkWorkerLease
    (wl_LeaseID r) (wl_WorkerKind r) (wl_ShardID r) (wl_OwnerID r) (wl_Generation r)
    (wl_Cursor r) (wl_AcquiredAt r) (wl_UpdatedAt r) (wl_ExpiresAt r).
Definition zero_WorkerLease : WorkerLease := mkWorkerLease "" "" "" "" 0 "" 0 0 0.

(** [src/internal/meta/model/model.go] lines 876-892. *)
Record WorkerOperationRecord := mkWorkerOperationRecord {
  wor_OperationID : string;
  wor_WorkerKind : string;
  wor_ShardID : string;
  wor_OwnerID : string;
  wor_LeaseID : string;
  wor_Status : string;
  wor_Cursor : string;
  wor_Scanned : Z;
  wor_Processed : Z;
  wor_Skipped : Z;
  wor_Retryable : Z;
  wor_LastError : string;
  wor_StartedAt : Time;
  wor_FinishedAt : Time;
  wor_CreatedAt : Time
}.

(** [src/internal/meta/model/model.go] lines 894-902. *)
Record WorkerControlRecord := mkWorkerControlRecord {
  wcr_WorkerKind : string;
  wcr_ShardID : string;
  wcr_State : string;
  wcr_Reason : string;
  wcr_UpdatedBy : string;
  wcr_UpdatedAt : Time;
  wcr_CreatedAt : Time
}.
Definition zero_WorkerControlRecord : WorkerControlRecord := mkWorkerControlRecord "" "" "" ""
    "" 0 0.
(** ** Constants *)

Definition AccessKeyActive : string := "active".
Definition BucketVersioningEnabled : string := "Enabled".
Definition BucketVersioningSuspended : string := "Suspended".
Definition LifecycleRuleEnabled : string := "Enabled".
Definition LifecycleRuleDisabled : string := "Disabled".
Definition ObjectLockModeGovernance : string := "GOVERNANCE".
Definition ObjectLockModeCompliance : string := "COMPLIANCE".
Definition ObjectLockLegalHoldOn : string := "ON".
Definition ObjectLockLegalHoldOff : string := "OFF".
Definition ServerSideEncryptionAES256 : string := "AES256".
Definition ServerSideEncryptionAWSKMS : string := "aws:kms".
Definition KMSKeyActive : string := "active".
Definition KMSKeyDisabled : string := "disabled".
Definition KMSKeyPendingDeletion : string := "pending_deletion".
Definition KMSKeyDeleted : string := "deleted".
Definition AuditActionGovernanceBypassDeleteObject : string := "governance_bypass_delete_object".
Definition AuditActionGovernanceBypassPutObjectRetention : string :=
  "governance_bypass_put_object_retention".
Definition AuditActionPutBucketPolicy : string := "put_bucket_policy".
Definition AuditActionDeleteBucketPolicy : string := "delete_bucket_policy".
Definition AuditActionPutBucketLifecycle : string := "put_bucket_lifecycle".
Definition AuditActionDeleteBucketLifecycle : string := "delete_bucket_lifecycle".
Definition AuditActionPutBucketEncryption : string := "put_bucket_encryption".
Definition AuditActionDeleteBucketEncryption : string := "delete_bucket_encryption".
Definition AuditActionPutBucketObjectLock : string := "put_bucket_object_lock".
Definition AuditActionPutObjectRetention : string := "put_object_retention".
Definition AuditActionPutObjectLegalHold : string := "put_object_legal_hold".
Definition ProtectedRefReasonObjectLock : string := "object_lock".
Definition GCOperationAttemptRetryable : string := "retryable".
Definition GCOperationSucceeded : string := "succeeded".
Definition GCOperationRetryPending : string := "retry_pending".
Definition GCOperationFailed : string := "failed".
Definition DedupeOperationSucceeded : string := "succeeded".
Definition DedupeOperationRetryPending : string := "retry_pending".
Definition SharedObjectReleasePending : string := "pending".
Definition ObjectVersionPending : string := "pending".
Definition ObjectVersionCommitted : string := "committed".
Definition ObjectManifestEncodingChunked : string := "chunked".
Definition MultipartUploadActive : string := "active".
Definition MultipartUploadCompleted : string := "completed".
Definition MultipartUploadAborted : string := "aborted".
Definition MultipartPartsCleanupPending : string := "pending".
Definition MultipartPartsCleanupDone : string := "done".
Definition MultipartCompletionPrepared : string := "prepared".
Definition MultipartCompletionPublished : string := "published".
Definition MultipartCompletionCompleted : string := "completed".

(** ** KMS key states *)

Definition NormalizeKMSKeyState (state : string) : string :=
  if (state =s "") || (state =s KMSKeyActive) then KMSKeyActive
  else if (state =s KMSKeyDisabled) || (state =s KMSKeyPendingDeletion) || (state =s KMSKeyDeleted)
       then state
       else KMSKeyDisabled.

Definition KMSKeyAllowsDelete (state : string) : bool :=
  NormalizeKMSKeyState state =s KMSKeyActive.

(** ** Errors *)

(** The sentinel errors of [src/internal/meta/errors.go]. A wrapped error of the
    source ([fmt.Errorf] with the %w verb) is its sentinel; its message is not modelled.
    The manifest-size error wraps two sentinels and is a constructor of its own;
    [ErrOther] is any error that wraps none (a record that does not decode). *)
Inductive Err :=
| ErrNotFound
| ErrAlreadyExists
| ErrBucketNotEmpty
| ErrCASConflict
| ErrInvalidArgument
| ErrObjectManifestTooLarge
| ErrObjectLocked
| ErrKMSKeyUnavailable
| ErrQuotaExceeded
| ErrUnavailable
| ErrWorkerPaused
| ErrWorkerCanceled
| ErrOther.

#[export] Instance Err_eq_dec : EqDecision Err.
Proof. solve_decision. Defined.
