(* ===== verification/Requests.v ===== *)
(** * Requests: the request and result types of [src/internal/meta/repository.go] *)

From S2P Require Import Prelude GoLib StorageTypes Model.
Open Scope string_scope.
Open Scope Z_scope.

(** [src/internal/meta/repository.go] lines 122-125. *)
Record CreateTenantRequest := mkCreateTenantRequest {
  ct_TenantID : string;
  ct_DisplayName : string
}.

(** [src/internal/meta/repository.go] lines 127-132. *)
Record PutMetadataSchemaRequest := mkPutMetadataSchemaRequest {
  pms_SchemaVersion : Z;
  pms_MinReaderVersion : Z;
  pms_MinWriterVersion : Z;
  pms_UpdatedBy : string
}.

(** [src/internal/meta/repository.go] lines 134-139. *)
Record TenantQuotaRequest := mkTenantQuotaRequest {
  tqr_TenantID : string;
  tqr_MaxBytes : Z;
  tqr_MaxObjects : Z;
  tqr_MaxActiveUploads : Z
}.

(** [src/internal/meta/repository.go] lines 141-149. *)
Record TenantUsageRequest := mkTenantUsageRequest {
  tur_TenantID : string;
  tur_ObjectBytes : Z;
  tur_ObjectCount : Z;
  tur_ActiveUploads : Z;
  tur_ReconciledAt : Time;
  tur_ReconciliationID : string;
  tur_ReconciliationErr : string
}.

(** [src/internal/meta/repository.go] lines 151-157. *)
Record PutAccessKeyRequest := mkPutAccessKeyRequest {
  pak_TenantID : string;
  pak_AccessKeyID : string;
  pak_SecretHash : string;
  pak_Status : string;
  pak_Permissions : list string
}.

(** [src/internal/meta/repository.go] lines 159-163. *)
Record PutKMSKeyRequest := mkPutKMSKeyRequest {
  pkk_KeyID : string;
  pkk_KeyVersion : string;
  pkk_State : string
}.

(** [src/internal/meta/repository.go] lines 165-167. *)
Record ListKMSKeysRequest := mkListKMSKeysRequest {
  lkk_Limit : Z
}.

(** [src/internal/meta/repository.go] lines 169-182. *)
Record PutComplianceProfileAttachmentRequest := mkPutComplianceProfileAttachmentRequest {
  pcp_ProfileID : string;
  pcp_Regulation : string;
  pcp_RecordClass : string;
  pcp_BucketID : string;
  pcp_Prefix : string;
  pcp_ObjectClass : string;
  pcp_RetentionMode : string;
  pcp_RetentionDays : Z;
  pcp_RetentionYears : Z;
  pcp_LegalHoldPolicy : string;
  pcp_GovernanceBypassPolicy : string;
  pcp_EvidenceExportPolicy : string
}.

(** [src/internal/meta/repository.go] lines 184-187. *)
Record ListComplianceProfileAttachmentsRequest := mkListComplianceProfileAttachmentsRequest {
  lcp_BucketID : string;
  lcp_Limit : Z
}.

(** [src/internal/meta/repository.go] lines 189-194. *)
Record CreateBucketRequest := mkCreateBucketRequest {
  cb_TenantID : string;
  cb_Name : string;
  cb_Region : string;
  cb_ObjectLockEnabled : bool
}.

(** [src/internal/meta/repository.go] lines 196-199. *)
Record PutBucketVersioningRequest := mkPutBucketVersioningRequest {
  pbv_BucketID : string;
  pbv_State : string
}.

(** [src/internal/meta/repository.go] lines 201-204. *)
Record BucketCORSRequest := mkBucketCORSRequest {
  bcr_BucketID : string;
  bcr_Rules : list CORSRule
}.

(** [src/internal/meta/repository.go] lines 316-320. *)
Record AuditContext := mkAuditContext {
  actx_RequestID : string;
  actx_Reason : string;
  actx_Principal : AuditPrincipal
}.

(** [src/internal/meta/repository.go] lines 206-210. *)
Record BucketLifecycleRequest := mkBucketLifecycleRequest {
  blr_BucketID : string;
  blr_Configuration : BucketLifecycleConfiguration;
  blr_Audit : AuditContext
}.

(** [src/internal/meta/repository.go] lines 212-216. *)
Record BucketEncryptionRequest := mkBucketEncryptionRequest {
  ber_BucketID : string;
  ber_Encryption : ServerSideEncryption;
  ber_Audit : AuditContext
}.

(** [src/internal/meta/repository.go] lines 218-221. *)
Record BucketQuotaRequest := mkBucketQuotaRequest {
  bqr_BucketID : string;
  bqr_MaxObjectSizeBytes : Z
}.

(** [src/internal/meta/repository.go] lines 223-227. *)
Record BucketPolicyRequest := mkBucketPolicyRequest {
  bpr_BucketID : string;
  bpr_Policy : PolicyDocument;
  bpr_Audit : AuditContext
}.

(** [src/internal/meta/repository.go] lines 229-233. *)
Record BucketObjectLockRequest := mkBucketObjectLockRequest {
  bolr_BucketID : string;
  bolr_Configuration : BucketObjectLockConfiguration;
  bolr_Audit : AuditContext
}.

(** [src/internal/meta/repository.go] lines 235-249. *)
Record BeginPutObjectRequest := mkBeginPutObjectRequest {
  bpo_BucketID : string;
  bpo_Key : string;
  bpo_SizeBytes : Z;
  bpo_ETag : string;
  bpo_ContentType : string;
  bpo_StorageClass : StorageClassSnapshot;
  bpo_ServerSideEncryption : ServerSideEncryption;
  bpo_SegmentRef : SegmentRef;
  bpo_SegmentRefs : list SegmentRef;
  bpo_UserMetadata : gmap string string;
  bpo_Tags : gmap string string;
  bpo_ObjectLockRetention : ObjectLockRetention;
  bpo_ObjectLockLegalHold : string
}.

(** [src/internal/meta/repository.go] lines 251-256. *)
Record CommitObjectVersionRequest := mkCommitObjectVersionRequest {
  cov_BucketID : string;
  cov_Key : string;
  cov_VersionID : string;
  cov_ExpectedHeadVersionID : string
}.

(** [src/internal/meta/repository.go] lines 260-264. *)
Record PutObjectVersionResult := mkPutObjectVersionResult {
  povr_Head : ObjectHead;
  povr_ReplacedHead : ObjectHead;
  povr_ReplacedHeadFound : bool
}.

(** [src/internal/meta/repository.go] lines 266-272. *)
Record DeleteObjectRequest := mkDeleteObjectRequest {
  dor_BucketID : string;
  dor_Key : string;
  dor_VersionID : string;
  dor_BypassGovernanceRetention : bool;
  dor_BypassAudit : AuditContext
}.

(** [src/internal/meta/repository.go] lines 274-280. *)
Record ListObjectsRequest := mkListObjectsRequest {
  lor_BucketID : string;
  lor_Prefix : string;
  lor_Delimiter : string;
  lor_ContinuationToken : string;
  lor_MaxKeys : Z
}.

(** [src/internal/meta/repository.go] lines 282-289. *)
Record ListObjectVersionsRequest := mkListObjectVersionsRequest {
  lov_BucketID : string;
  lov_Prefix : string;
  lov_Delimiter : string;
  lov_KeyMarker : string;
  lov_VersionIDMarker : string;
  lov_MaxKeys : Z
}.

(** [src/internal/meta/repository.go] lines 291-296. *)
Record ObjectTagsRequest := mkObjectTagsRequest {
  otr_BucketID : string;
  otr_Key : string;
  otr_VersionID : string;
  otr_Tags : gmap string string
}.
#[export] Instance eta_ObjectTagsRequest : RecordEta ObjectTagsRequest := fun r =>
    mkObjectTagsRequest (otr_BucketID r) (otr_Key r) (otr_VersionID r) (otr_Tags r).

(** [src/internal/meta/repository.go] lines 298-306. *)
Record ObjectRetentionRequest := mkObjectRetentionRequest {
  orr_BucketID : string;
  orr_Key : string;
  orr_VersionID : string;
  orr_Retention : ObjectLockRetention;
  orr_BypassGovernanceRetention : bool;
  orr_BypassAudit : AuditContext;
  orr_Audit : AuditContext
}.

(** [src/internal/meta/repository.go] lines 308-314. *)
Record ObjectLegalHoldRequest := mkObjectLegalHoldRequest {
  olh_BucketID : string;
  olh_Key : string;
  olh_VersionID : string;
  olh_LegalHold : string;
  olh_Audit : AuditContext
}.

(** [src/internal/meta/repository.go] lines 322-327. *)
Record ListAuditEventsRequest := mkListAuditEventsRequest {
  lae_BucketID : string;
  lae_Key : string;
  lae_Action : string;
  lae_Limit : Z
}.

(** [src/internal/meta/repository.go] lines 329-336. *)
Record PutAdminAuditEventRequest := mkPutAdminAuditEventRequest {
  pae_Action : string;
  pae_BucketID : string;
  pae_Key : string;
  pae_VersionID : string;
  pae_Details : gmap string string;
  pae_Audit : AuditContext
}.

(** [src/internal/meta/repository.go] lines 338-340. *)
Record PutAdminAuditEventsRequest := mkPutAdminAuditEventsRequest {
  paes_Events : list PutAdminAuditEventRequest
}.

(** [src/internal/meta/repository.go] lines 342-356. *)
Record ImportOperationalMetadataRequest := mkImportOperationalMetadataRequest {
  iom_MetadataSchema : option MetadataSchemaRecord;
  iom_MetadataMigrationOperations : list MetadataMigrationOperationRecord;
  iom_KMSKeys : list KMSKeyRecord;
  iom_AuditEvents : list AuditEvent;
  iom_GCOperations : list GCOperationRecord;
  iom_DedupeOperations : list DedupeOperationRecord;
  iom_SharedObjects : list SharedObject;
  iom_SharedObjectReleases : list SharedObjectRelease;
  iom_VolumePools : list VolumePool;
  iom_VolumeDrainOperations : list VolumeDrainOperationRecord;
  iom_WorkerLeases : list WorkerLease;
  iom_WorkerOperations : list WorkerOperationRecord;
  iom_RequireEmptyTarget : bool
}.

(** [src/internal/meta/repository.go] lines 358-371. *)
Record ImportOperationalMetadataResult := mkImportOperationalMetadataResult {
  iomr_MetadataSchema : Z;
  iomr_MetadataMigrationOperations : Z;
  iomr_KMSKeys : Z;
  iomr_AuditEvents : Z;
  iomr_GCOperations : Z;
  iomr_DedupeOperations : Z;
  iomr_SharedObjects : Z;
  iomr_SharedObjectReleases : Z;
  iomr_VolumePools : Z;
  iomr_VolumeDrainOperations : Z;
  iomr_WorkerLeases : Z;
  iomr_WorkerOperations : Z
}.

(** [src/internal/meta/repository.go] lines 373-384. *)
Record PutMetadataMigrationOperationRequest := mkPutMetadataMigrationOperationRequest {
  pmm_ResumeOfOperationID : string;
  pmm_TargetSchemaVersion : Z;
  pmm_Status : string;
  pmm_DryRun : bool;
  pmm_Apply : bool;
  pmm_OwnerID : string;
  pmm_Cursor : string;
  pmm_Steps : list MetadataMigrationStep;
  pmm_StartedAt : Time;
  pmm_FinishedAt : Time
}.

(** [src/internal/meta/repository.go] lines 386-389. *)
Record ListMetadataMigrationOperationsRequest := mkListMetadataMigrationOperationsRequest {
  lmm_Status : string;
  lmm_Limit : Z
}.

(** [src/internal/meta/repository.go] lines 391-398. *)
Record ListProtectedRefsRequest := mkListProtectedRefsRequest {
  lpr_BucketID : string;
  lpr_Key : string;
  lpr_VersionID : string;
  lpr_SegmentID : string;
  lpr_ActiveOnly : bool;
  lpr_Limit : Z
}.

(** [src/internal/meta/repository.go] lines 400-403. *)
Record PutGCCandidateRequest := mkPutGCCandidateRequest {
  pgc_SegmentRef : SegmentRef;
  pgc_Reason : string
}.

(** [src/internal/meta/repository.go] lines 405-407. *)
Record ListGCCandidatesRequest := mkListGCCandidatesRequest {
  lgc_Limit : Z
}.

(** [src/internal/meta/repository.go] lines 409-419. *)
Record PutGCOperationRequest := mkPutGCOperationRequest {
  pgo_ResumeOfOperationID : string;
  pgo_Status : string;
  pgo_StartedAt : Time;
  pgo_FinishedAt : Time;
  pgo_Scanned : Z;
  pgo_Deleted : Z;
  pgo_Skipped : Z;
  pgo_Retryable : Z;
  pgo_Attempts : list GCOperationAttempt
}.

(** [src/internal/meta/repository.go] lines 421-423. *)
Record ListGCOperationsRequest := mkListGCOperationsRequest {
  lgo_Limit : Z
}.

(** [src/internal/meta/repository.go] lines 425-435. *)
Record PutDedupeOperationRequest := mkPutDedupeOperationRequest {
  pdo_ResumeOfOperationID : string;
  pdo_Status : string;
  pdo_StartedAt : Time;
  pdo_FinishedAt : Time;
  pdo_Scanned : Z;
  pdo_Acked : Z;
  pdo_Skipped : Z;
  pdo_Retryable : Z;
  pdo_Attempts : list DedupeOperationAttempt
}.

(** [src/internal/meta/repository.go] lines 437-439. *)
Record ListDedupeOperationsRequest := mkListDedupeOperationsRequest {
  ldo_Limit : Z
}.

(** [src/internal/meta/repository.go] lines 441-445. *)
Record AcquireDedupeOperationLockRequest := mkAcquireDedupeOperationLockRequest {
  adl_LockID : string;
  adl_OwnerID : string;
  adl_TTL : Z
}.

(** [src/internal/meta/repository.go] lines 447-450. *)
Record ReleaseDedupeOperationLockRequest := mkReleaseDedupeOperationLockRequest {
  rdl_LockID : string;
  rdl_OwnerID : string
}.

(** [src/internal/meta/repository.go] lines 452-457. *)
Record PutSharedObjectReleaseRequest := mkPutSharedObjectReleaseRequest {
  psr_SharedObjectID : string;
  psr_SegmentRef : SegmentRef;
  psr_Reason : string;
  psr_Status : string
}.

(** [src/internal/meta/repository.go] lines 459-463. *)
Record ListSharedObjectReleasesRequest := mkListSharedObjectReleasesRequest {
  lsr_SharedObjectID : string;
  lsr_Status : string;
  lsr_Limit : Z
}.

(** [src/internal/meta/repository.go] lines 465-471. *)
Record PutVolumePoolRequest := mkPutVolumePoolRequest {
  pvp_PoolID : string;
  pvp_Generation : Z;
  pvp_DurabilityClass : string;
  pvp_StorageClassIDs : list string;
  pvp_Members : list VolumePoolMember
}.

(** [src/internal/meta/repository.go] lines 473-475. *)
Record ListVolumePoolsRequest := mkListVolumePoolsRequest {
  lvp_Limit : Z
}.

(** [src/internal/meta/repository.go] lines 477-493. *)
Record PutVolumeDrainOperationRequest := mkPutVolumeDrainOperationRequest {
  pvd_ResumeOfOperationID : string;
  pvd_PoolID : string;
  pvd_SourceVolumeID : string;
  pvd_TargetVolumeID : string;
  pvd_OwnerID : string;
  pvd_Status : string;
  pvd_Cursor : string;
  pvd_StartedAt : Time;
  pvd_FinishedAt : Time;
  pvd_Scanned : Z;
  pvd_Copied : Z;
  pvd_Skipped : Z;
  pvd_Protected : Z;
  pvd_Retryable : Z;
  pvd_Attempts : list VolumeDrainAttempt
}.

(** [src/internal/meta/repository.go] lines 495-500. *)
Record ListVolumeDrainOperationsRequest := mkListVolumeDrainOperationsRequest {
  lvd_SourceVolumeID : string;
  lvd_TargetVolumeID : string;
  lvd_Status : string;
  lvd_Limit : Z
}.

(** [src/internal/meta/repository.go] lines 502-508. *)
Record AcquireWorkerLeaseRequest := mkAcquireWorkerLeaseRequest {
  awl_WorkerKind : string;
  awl_ShardID : string;
  awl_OwnerID : string;
  awl_TTL : Z;
  awl_Cursor : string
}.

(** [src/internal/meta/repository.go] lines 510-514. *)
Record ReleaseWorkerLeaseRequest := mkReleaseWorkerLeaseRequest {
  rwl_WorkerKind : string;
  rwl_ShardID : string;
  rwl_OwnerID : string
}.

(** [src/internal/meta/repository.go] lines 516-520. *)
Record ListWorkerLeasesRequest := mkListWorkerLeasesRequest {
  lwl_WorkerKind : string;
  lwl_ShardID : string;
  lwl_Limit : Z
}.

(** [src/internal/meta/repository.go] lines 522-536. *)
Record PutWorkerOperationRequest := mkPutWorkerOperationRequest {
  pwo_WorkerKind : string;
  pwo_ShardID : string;
  pwo_OwnerID : string;
  pwo_LeaseID : string;
  pwo_Status : string;
  pwo_Cursor : string;
  pwo_Scanned : Z;
  pwo_Processed : Z;
  pwo_Skipped : Z;
  pwo_Retryable : Z;
  pwo_LastError : string;
  pwo_StartedAt : Time;
  pwo_FinishedAt : Time
}.

(** [src/internal/meta/repository.go] lines 538-543. *)
Record ListWorkerOperationsRequest := mkListWorkerOperationsRequest {
  lwo_WorkerKind : string;
  lwo_ShardID : string;
  lwo_Status : string;
  lwo_Limit : Z
}.

(** [src/internal/meta/repository.go] lines 545-551. *)
Record PutWorkerControlRequest := mkPutWorkerControlRequest {
  pwc_WorkerKind : string;
  pwc_ShardID : string;
  pwc_State : string;
  pwc_Reason : string;
  pwc_UpdatedBy : string
}.

(** [src/internal/meta/repository.go] lines 553-556. *)
Record GetWorkerControlRequest := mkGetWorkerControlRequest {
  gwc_WorkerKind : string;
  gwc_ShardID : string
}.

(** [src/internal/meta/repository.go] lines 558-562. *)
Record PublishSharedObjectRequest := mkPublishSharedObjectRequest {
  pso_BucketID : string;
  pso_Key : string;
  pso_VersionID : string
}.

(** [src/internal/meta/repository.go] lines 564-569. *)
Record ListSharedObjectsRequest := mkListSharedObjectsRequest {
  lso_TenantID : string;
  lso_BucketID : string;
  lso_Key : string;
  lso_Limit : Z
}.

(** [src/internal/meta/repository.go] lines 571-576. *)
Record AttachObjectVersionToSharedObjectRequest := mkAttachObjectVersionToSharedObjectRequest {
  aso_SharedObjectID : string;
  aso_BucketID : string;
  aso_Key : string;
  aso_VersionID : string
}.

(** [src/internal/meta/repository.go] lines 578-584. *)
Record PublishObjectVersionRefsRequest := mkPublishObjectVersionRefsRequest {
  pvr_BucketID : string;
  pvr_Key : string;
  pvr_VersionID : string;
  pvr_ExpectedSourceVolumeID : string;
  pvr_SegmentRefs : list SegmentRef
}.

(** [src/internal/meta/repository.go] lines 586-589. *)
Record PublishObjectVersionRefsResult := mkPublishObjectVersionRefsResult {
  pvrr_Version : ObjectVersion;
  pvrr_PreviousSegmentRefs : list SegmentRef
}.

(** [src/internal/meta/repository.go] lines 591-597. *)
Record ListSharedObjectRefsRequest := mkListSharedObjectRefsRequest {
  lsf_SharedObjectID : string;
  lsf_BucketID : string;
  lsf_Key : string;
  lsf_VersionID : string;
  lsf_Limit : Z
}.

(** [src/internal/meta/repository.go] lines 599-602. *)
Record RepairSharedObjectRefCountsRequest := mkRepairSharedObjectRefCountsRequest {
  rsc_SharedObjectID : string;
  rsc_Limit : Z
}.

(** [src/internal/meta/repository.go] lines 604-608. *)
Record RepairListIndexesRequest := mkRepairListIndexesRequest {
  rli_BucketID : string;
  rli_Limit : Z;
  rli_Apply : bool
}.

(** [src/internal/meta/repository.go] lines 610-620. *)
Record CreateMultipartUploadRequest := mkCreateMultipartUploadRequest {
  cmu_BucketID : string;
  cmu_Key : string;
  cmu_ContentType : string;
  cmu_StorageClass : StorageClassSnapshot;
  cmu_ServerSideEncryption : ServerSideEncryption;
  cmu_UserMetadata : gmap string string;
  cmu_Tags : gmap string string;
  cmu_ObjectLockRetention : ObjectLockRetention;
  cmu_ObjectLockLegalHold : string
}.

(** [src/internal/meta/repository.go] lines 622-629. *)
Record ListMultipartUploadsRequest := mkListMultipartUploadsRequest {
  lmu_BucketID : string;
  lmu_Prefix : string;
  lmu_Delimiter : string;
  lmu_KeyMarker : string;
  lmu_UploadIDMarker : string;
  lmu_MaxUploads : Z
}.

(** [src/internal/meta/repository.go] lines 631-635. *)
Record MultipartUploadRequest := mkMultipartUploadRequest {
  mur_BucketID : string;
  mur_Key : string;
  mur_UploadID : string
}.

(** [src/internal/meta/repository.go] lines 637-642. *)
Record GetMultipartPartsRequest := mkGetMultipartPartsRequest {
  gmp_BucketID : string;
  gmp_Key : string;
  gmp_UploadID : string;
  gmp_PartNumbers : list Z
}.

(** [src/internal/meta/repository.go] lines 644-653. *)
Record PrepareMultipartCompletionRequest := mkPrepareMultipartCompletionRequest {
  pmc_BucketID : string;
  pmc_Key : string;
  pmc_UploadID : string;
  pmc_ObjectVersionID : string;
  pmc_ExpectedHeadVersionID : string;
  pmc_ETag : string;
  pmc_SizeBytes : Z;
  pmc_PartCount : Z
}.

(** [src/internal/meta/repository.go] lines 655-659. *)
Record MultipartCompletionStateRequest := mkMultipartCompletionStateRequest {
  mcs_BucketID : string;
  mcs_Key : string;
  mcs_UploadID : string
}.

(** [src/internal/meta/repository.go] lines 661-669. *)
Record CompleteMultipartUploadRequest := mkCompleteMultipartUploadRequest {
  cmp_BucketID : string;
  cmp_Key : string;
  cmp_UploadID : string;
  cmp_ObjectVersionID : string;
  cmp_ETag : string;
  cmp_SizeBytes : Z;
  cmp_PartCount : Z
}.

(** [src/internal/meta/repository.go] lines 671-676. *)
Record CleanupMultipartUploadPartsRequest := mkCleanupMultipartUploadPartsRequest {
  cln_BucketID : string;
  cln_Key : string;
  cln_UploadID : string;
  cln_Limit : Z
}.

(** [src/internal/meta/repository.go] lines 678-682. *)
Record CleanupMultipartUploadPartsResult := mkCleanupMultipartUploadPartsResult {
  clnr_Upload : MultipartUpload;
  clnr_DeletedParts : Z;
  clnr_HasMore : bool
}.

(** [src/internal/meta/repository.go] lines 684-692. *)
Record PutMultipartPartRequest := mkPutMultipartPartRequest {
  pmp_BucketID : string;
  pmp_Key : string;
  pmp_UploadID : string;
  pmp_PartNumber : Z;
  pmp_SizeBytes : Z;
  pmp_ETag : string;
  pmp_SegmentRef : SegmentRef
}.
