(* ===== verification/Encoding.v ===== *)
(** * Encoding: time.Format(time.RFC3339Nano) and encoding/json

    What the metadata code serialises: the audit payload that is hashed
    ([auditEventHash] of the repositories) and the object version and manifest
    chunk values whose encoded size is bounded ([src/internal/meta/scale.go]). *)

From S2P Require Import Prelude GoLib StorageTypes Model.
From Stdlib Require Import Ascii.
Open Scope string_scope.
Open Scope Z_scope.

(** ** Times *)

(** Year, month and day of a day count from 1 January of year 1. *)
Definition civil (days : Z) : Z * Z * Z :=
  let z := days + 306 in
  let era := z / 146097 in
  let doe := z mod 146097 in
  let yoe := (doe - doe / 1460 + doe / 36524 - doe / 146096) / 365 in
  let doy := doe - (365 * yoe + yoe / 4 - yoe / 100) in
  let mp := (5 * doy + 2) / 153 in
  let d := doy - (153 * mp + 2) / 5 + 1 in
  let m := if mp <? 10 then mp + 3 else mp - 9 in
  let y := yoe + era * 400 + (if m <=? 2 then 1 else 0) in
  (y, m, d).

Fixpoint strip_zeros (s : list ascii) : list ascii :=
  match s with
  | c :: s' => if byte_is 48 c then strip_zeros s' else s
  | [] => []
  end.

(** The nine digits of the nanoseconds without trailing zeros. *)
Definition fraction (ns : Z) : string :=
  if ns =? 0 then ""
  else "." +:+ String.string_of_list_ascii
                 (reverse (strip_zeros (reverse (String.list_ascii_of_string (leftPadZeros 9 ns))))).

(** [t.UTC().Format(time.RFC3339Nano)] for years 0 to 9999. *)
Definition RFC3339Nano (t : Time) : string :=
  let ns := t mod 1000000000 in
  let secs := t / 1000000000 in
  let tod := secs mod 86400 in
  let '(y, m, d) := civil (secs / 86400) in
  leftPadZeros 4 y +:+ "-" +:+ leftPadZeros 2 m +:+ "-" +:+ leftPadZeros 2 d +:+ "T" +:+
  leftPadZeros 2 (tod / 3600) +:+ ":" +:+ leftPadZeros 2 (tod / 60 mod 60) +:+ ":" +:+
  leftPadZeros 2 (tod mod 60) +:+ fraction ns +:+ "Z".

Definition year_of (t : Time) : Z := fst (fst (civil (t / 1000000000 / 86400))).

Example rfc3339_zero : RFC3339Nano 0 = "0001-01-01T00:00:00Z".
Proof. reflexivity. Qed.

Example rfc3339_unix_epoch :
  RFC3339Nano (719162 * 86400 * 1000000000) = "1970-01-01T00:00:00Z".
Proof. reflexivity. Qed.

(** The reference time of the package documentation, with a fraction. *)
Example rfc3339_reference :
  RFC3339Nano ((719162 * 86400 + 1136239445) * 1000000000 + 120000000) = "2006-01-02T22:04:05.12Z".
Proof. reflexivity. Qed.

(** ** JSON *)

Inductive json :=
| JNull
| JBool (b : bool)
| JInt (z : Z)
| JStr (s : string)
| JTime (t : Time)
| JArr (l : list json)
| JObj (fields : list (string * json)).

Definition quote_char : ascii := ascii_of_N 34.
Definition quoted (s : string) : string := String quote_char (s +:+ String quote_char "").

Definition unicode_escape (c : ascii) : string := "\u00" +:+ hex_byte c.

Definition continuation (c : ascii) : bool := byte_in 128 191 c.

(** The width of the UTF-8 encoded character a byte string starts with. *)
Definition utf8_width (s : list ascii) : option nat :=
  match s with
  | c1 :: c2 :: c3 :: c4 :: _ =>
      if byte_in 194 223 c1 && continuation c2 then Some 2%nat
      else if ((byte_is 224 c1 && byte_in 160 191 c2) || (byte_in 225 236 c1 && continuation c2) ||
               (byte_is 237 c1 && byte_in 128 159 c2) || (byte_in 238 239 c1 && continuation c2))
              && continuation c3 then Some 3%nat
      else if ((byte_is 240 c1 && byte_in 144 191 c2) || (byte_in 241 243 c1 && continuation c2) ||
               (byte_is 244 c1 && byte_in 128 143 c2))
              && continuation c3 && continuation c4 then Some 4%nat
      else None
  | c1 :: c2 :: c3 :: _ =>
      if byte_in 194 223 c1 && continuation c2 then Some 2%nat
      else if ((byte_is 224 c1 && byte_in 160 191 c2) || (byte_in 225 236 c1 && continuation c2) ||
               (byte_is 237 c1 && byte_in 128 159 c2) || (byte_in 238 239 c1 && continuation c2))
              && continuation c3 then Some 3%nat
      else None
  | c1 :: c2 :: _ => if byte_in 194 223 c1 && continuation c2 then Some 2%nat else None
  | _ => None
  end.

(** The body of a JSON string literal, with the HTML-safe escapes of [json.Marshal]. *)
Fixpoint escape_json (skip : nat) (s : list ascii) : string :=
  match s with
  | [] => ""
  | c :: s' =>
      match skip with
      | S k => String c (escape_json k s')
      | O =>
          if byte_is 34 c then String "\" (String quote_char (escape_json 0 s'))
          else if byte_is 92 c then "\\" +:+ escape_json 0 s'
          else if byte_is 8 c then "\b" +:+ escape_json 0 s'
          else if byte_is 12 c then "\f" +:+ escape_json 0 s'
          else if byte_is 10 c then "\n" +:+ escape_json 0 s'
          else if byte_is 13 c then "\r" +:+ escape_json 0 s'
          else if byte_is 9 c then "\t" +:+ escape_json 0 s'
          else if byte_in 0 31 c || byte_is 60 c || byte_is 62 c || byte_is 38 c
               then unicode_escape c +:+ escape_json 0 s'
          else if byte_in 0 127 c then String c (escape_json 0 s')
          else match s with
               | c1 :: c2 :: c3 :: s3 =>
                   if byte_is 226 c1 && byte_is 128 c2 && byte_is 168 c3 then
                     "\u2028" +:+ drop_str 2 (escape_json 2 s')
                   else if byte_is 226 c1 && byte_is 128 c2 && byte_is 169 c3 then
                     "\u2029" +:+ drop_str 2 (escape_json 2 s')
                   else match utf8_width s with
                        | Some w => String c (escape_json (w - 1) s')
                        | None => "\ufffd" +:+ escape_json 0 s'
                        end
               | _ => match utf8_width s with
                      | Some w => String c (escape_json (w - 1) s')
                      | None => "\ufffd" +:+ escape_json 0 s'
                      end
               end
      end
  end.

Definition json_string (s : string) : string :=
  quoted (escape_json 0 (String.list_ascii_of_string s)).

Fixpoint join_with (sep : string) (l : list string) : string :=
  match l with
  | [] => ""
  | [x] => x
  | x :: l' => x +:+ sep +:+ join_with sep l'
  end.

(** [json.Marshal]; [None] is the error for a time outside years 0 to 9999. *)
Fixpoint marshal (j : json) : option string :=
  match j with
  | JNull => Some "null"
  | JBool b => Some (if b then "true" else "false")
  | JInt z => Some (Itoa z)
  | JStr s => Some (json_string s)
  | JTime t =>
      if (0 <=? year_of t) && (year_of t <=? 9999) then Some (quoted (RFC3339Nano t)) else None
  | JArr l => xs ← mapM marshal l; Some ("[" +:+ join_with "," xs +:+ "]")
  | JObj fs =>
      xs ← mapM (fun '(k, v) => x ← marshal v; Some (json_string k +:+ ":" +:+ x)) fs;
      Some ("{" +:+ join_with "," xs +:+ "}")
  end.

(** A [map[string]string]: keys in order; the nil map is null. *)
Definition json_map (m : gmap string string) : json :=
  match sort_by (fun p q => str_ltb p.1 q.1) (map_to_list m) with
  | [] => JNull
  | l => JObj (map (fun p => (p.1, JStr p.2)) l)
  end.

Definition json_list {A} (f : A -> json) (l : list A) : json :=
  match l with [] => JNull | _ => JArr (map f l) end.

(** ** The encoded records *)

Definition json_Digest (d : Digest) : json :=
  JObj [("Algorithm", JStr (dg_Algorithm d)); ("Hex", JStr (dg_Hex d))].

Definition json_StorageClassSnapshot (s : StorageClassSnapshot) : json :=
  JObj [("StorageClassID", JStr (scs_StorageClassID s)); ("Backend", JStr (scs_Backend s));
        ("Parameters", json_map (scs_Parameters s))].

Definition json_PlacementChunk (c : PlacementChunk) : json :=
  JObj [("LogicalOffsetBytes", JInt (plc_LogicalOffsetBytes c)); ("SizeBytes", JInt (plc_SizeBytes c));
        ("VolumeID", JStr (plc_VolumeID c)); ("OffsetBytes", JInt (plc_OffsetBytes c));
        ("LengthBytes", JInt (plc_LengthBytes c)); ("StoreID", JStr (plc_StoreID c));
        ("ShardID", JInt (plc_ShardID c)); ("ChunkID", JInt (plc_ChunkID c)); ("Role", JStr (plc_Role c))].

Definition json_PlacementSnapshot (p : PlacementSnapshot) : json :=
  JObj [("Backend", JStr (pls_Backend p)); ("Layout", JStr (pls_Layout p));
        ("RedundancyBackend", JStr (pls_RedundancyBackend p)); ("ProfileID", JStr (pls_ProfileID p));
        ("ProfileGeneration", JInt (pls_ProfileGeneration p));
        ("ChunkSizeBytes", JInt (pls_ChunkSizeBytes p)); ("Parameters", json_map (pls_Parameters p));
        ("Chunks", json_list json_PlacementChunk (pls_Chunks p))].

Definition json_EncryptionEnvelope (e : EncryptionEnvelope) : json :=
  JObj [("Algorithm", JStr (ee_Algorithm e)); ("KeyID", JStr (ee_KeyID e));
        ("KeyVersion", JStr (ee_KeyVersion e)); ("WrappedDEK", JStr (ee_WrappedDEK e));
        ("Nonce", JStr (ee_Nonce e)); ("PlaintextSizeBytes", JInt (ee_PlaintextSizeBytes e));
        ("CiphertextSizeBytes", JInt (ee_CiphertextSizeBytes e)); ("Context", json_map (ee_Context e))].

Definition json_SegmentRef (r : SegmentRef) : json :=
  JObj [("SegmentID", JStr (sr_SegmentID r)); ("StorageClass", json_StorageClassSnapshot (sr_StorageClass r));
        ("Placement", json_PlacementSnapshot (sr_Placement r)); ("SizeBytes", JInt (sr_SizeBytes r));
        ("Digest", json_Digest (sr_Digest r)); ("Encryption", json_EncryptionEnvelope (sr_Encryption r));
        ("CreatedAt", JTime (sr_CreatedAt r)); ("SharedObjectID", JStr (sr_SharedObjectID r))].

Definition json_ServerSideEncryption (e : ServerSideEncryption) : json :=
  JObj [("Algorithm", JStr (sse_Algorithm e)); ("KeyID", JStr (sse_KeyID e));
        ("KeyVersion", JStr (sse_KeyVersion e))].

Definition json_ObjectLockRetention (r : ObjectLockRetention) : json :=
  JObj [("Mode", JStr (olr_Mode r)); ("RetainUntilDate", JTime (olr_RetainUntilDate r))].

Definition json_ObjectManifestDescriptor (d : ObjectManifestDescriptor) : json :=
  JObj [("Encoding", JStr (omd_Encoding d)); ("RefCount", JInt (omd_RefCount d));
        ("ChunkCount", JInt (omd_ChunkCount d))].

Definition json_ObjectVersion (v : ObjectVersion) : json :=
  JObj [("BucketID", JStr (ov_BucketID v)); ("Key", JStr (ov_Key v)); ("VersionID", JStr (ov_VersionID v));
        ("VersionSortKey", JStr (ov_VersionSortKey v)); ("SizeBytes", JInt (ov_SizeBytes v));
        ("ETag", JStr (ov_ETag v)); ("ContentType", JStr (ov_ContentType v));
        ("StorageClass", json_StorageClassSnapshot (ov_StorageClass v));
        ("ServerSideEncryption", json_ServerSideEncryption (ov_ServerSideEncryption v));
        ("SegmentRef", json_SegmentRef (ov_SegmentRef v));
        ("SegmentRefs", json_list json_SegmentRef (ov_SegmentRefs v));
        ("Manifest", json_ObjectManifestDescriptor (ov_Manifest v));
        ("UserMetadata", json_map (ov_UserMetadata v)); ("Tags", json_map (ov_Tags v));
        ("ObjectLockRetention", json_ObjectLockRetention (ov_ObjectLockRetention v));
        ("ObjectLockLegalHold", JStr (ov_ObjectLockLegalHold v)); ("State", JStr (ov_State v));
        ("CreatedAt", JTime (ov_CreatedAt v)); ("CommittedAt", JTime (ov_CommittedAt v));
        ("DeleteMarker", JBool (ov_DeleteMarker v))].

Definition json_ObjectManifestChunk (c : ObjectManifestChunk) : json :=
  JObj [("BucketID", JStr (omc_BucketID c)); ("Key", JStr (omc_Key c)); ("VersionID", JStr (omc_VersionID c));
        ("ChunkNumber", JInt (omc_ChunkNumber c));
        ("SegmentRefs", json_list json_SegmentRef (omc_SegmentRefs c));
        ("CreatedAt", JTime (omc_CreatedAt c))].

(** The struct tags of [model.AuditPrincipal] leave empty fields out. *)
Definition omitempty_str (name s : string) : list (string * json) :=
  if s =s "" then [] else [(name, JStr s)].
Definition omitempty_list (name : string) (l : list string) : list (string * json) :=
  match l with [] => [] | _ => [(name, JArr (map JStr l))] end.

Definition json_AuditPrincipal (p : AuditPrincipal) : json :=
  JObj (omitempty_str "tenant_id" (ap_TenantID p) ++ omitempty_str "access_key_id" (ap_AccessKeyID p) ++
        omitempty_str "display_name" (ap_DisplayName p) ++ omitempty_str "subject" (ap_Subject p) ++
        omitempty_list "groups" (ap_Groups p) ++ omitempty_list "roles" (ap_Roles p) ++
        omitempty_str "session_id" (ap_SessionID p) ++
        omitempty_str "external_issuer" (ap_ExternalIssuer p) ++
        omitempty_str "policy_version" (ap_PolicyVersion p) ++
        omitempty_str "source_identity" (ap_SourceIdentity p) ++ [("root", JBool (ap_Root p))])%list.

Example marshal_digest :
  String.length <$> marshal (json_Digest (mkDigest "sha256" "00<")) = Some 39%nat.
Proof. vm_compute. reflexivity. Qed.
