(* ===== verification/Meta.v ===== *)
(** * Meta: the record builders of the package [src/internal/meta]

    The functions both repositories share: quota and usage records, worker
    leases and controls, collection candidates, volume pools and drain records,
    the metadata schema record, multipart summaries and the manifest planner. A
    builder validates a request and returns the record to store. [wall] is the
    value of [time.Now().UTC()], which a builder falls back to when the
    repository clock returns the zero time. *)

From S2P Require Import Prelude GoLib StorageTypes Model Requests Encoding.
From Stdlib Require Import Ascii SpecFloat.
Open Scope string_scope.
Open Scope Z_scope.

Definition res (A : Type) : Type := outcome Err A.

(** ** Quotas and usage ([quota.go]) *)

Definition or_wall (wall now : Time) : Time := if now =? 0 then wall else now.
Definition or_time (t fallback : Time) : Time := if t =? 0 then fallback else t.

Definition BuildBucketQuota (wall : Time) (existing : BucketQuota) (req : BucketQuotaRequest)
    (now : Time) : res BucketQuota :=
  if bqr_BucketID req =s "" then Fail ErrInvalidArgument
  else if bqr_MaxObjectSizeBytes req <? 0 then Fail ErrInvalidArgument
  else
    let now := or_wall wall now in
    Ok (mkBucketQuota (bqr_BucketID req) (bqr_MaxObjectSizeBytes req)
          (or_time (bq_CreatedAt existing) now) now).

Definition BuildTenantQuota (wall : Time) (existing : TenantQuota) (req : TenantQuotaRequest)
    (now : Time) : res TenantQuota :=
  if tqr_TenantID req =s "" then Fail ErrInvalidArgument
  else if tqr_MaxBytes req <? 0 then Fail ErrInvalidArgument
  else if tqr_MaxObjects req <? 0 then Fail ErrInvalidArgument
  else if tqr_MaxActiveUploads req <? 0 then Fail ErrInvalidArgument
  else
    let now := or_wall wall now in
    Ok (mkTenantQuota (tqr_TenantID req) (tqr_MaxBytes req) (tqr_MaxObjects req)
          (tqr_MaxActiveUploads req) (or_time (tq_CreatedAt existing) now) now).

Definition BuildTenantUsage (wall : Time) (existing : TenantUsage) (req : TenantUsageRequest)
    (now : Time) : res TenantUsage :=
  if tur_TenantID req =s "" then Fail ErrInvalidArgument
  else if tur_ObjectBytes req <? 0 then Fail ErrInvalidArgument
  else if tur_ObjectCount req <? 0 then Fail ErrInvalidArgument
  else if tur_ActiveUploads req <? 0 then Fail ErrInvalidArgument
  else
    let now := or_wall wall now in
    Ok (mkTenantUsage (tur_TenantID req) (tur_ObjectBytes req) (tur_ObjectCount req)
          (tur_ActiveUploads req) (or_time (tur_ReconciledAt req) now) now
          (or_time (tu_CreatedAt existing) now) (tur_ReconciliationID req)
          (tur_ReconciliationErr req)).

Definition ApplyTenantActiveUploadDelta (wall : Time) (existing : TenantUsage) (tenantID : string)
    (delta : Z) (now : Time) : res TenantUsage :=
  if tenantID =s "" then Fail ErrInvalidArgument
  else if negb (tu_TenantID existing =s "") && negb (tu_TenantID existing =s tenantID)
       then Fail ErrInvalidArgument
  else
    let now := or_wall wall now in
    let activeUploads := int64 (tu_ActiveUploads existing + delta) in
    let activeUploads := if activeUploads <? 0 then 0 else activeUploads in
    Ok (existing <| tu_TenantID := tenantID |> <| tu_ActiveUploads := activeUploads |>
          <| tu_UpdatedAt := now |> <| tu_CreatedAt := or_time (tu_CreatedAt existing) now |>).

(** ** Bucket encryption ([validation.go]) *)

Definition ValidateBucketEncryption (e : ServerSideEncryption) : res unit :=
  if sse_Algorithm e =s ServerSideEncryptionAES256 then
    if negb (sse_KeyID e =s "") || negb (sse_KeyVersion e =s "") then Fail ErrInvalidArgument
    else Ok tt
  else if sse_Algorithm e =s ServerSideEncryptionAWSKMS then Ok tt
  else Fail ErrInvalidArgument.

(** ** Garbage-collection candidates ([gc_candidate.go]) *)

Definition BuildGCCandidate (existing : GCCandidateRecord) (req : PutGCCandidateRequest)
    (now : Time) : res GCCandidateRecord :=
  let segmentID := TrimSpace (sr_SegmentID (pgc_SegmentRef req)) in
  if segmentID =s "" then Fail ErrInvalidArgument
  else
    let reason := if pgc_Reason req =s "" then DeleteReasonManualGC else pgc_Reason req in
    Ok (mkGCCandidateRecord segmentID (pgc_SegmentRef req) reason
          (or_time (gcr_CreatedAt existing) now) now).

(** ** Multipart part summaries ([multipart_summary.go]) *)

Definition ApplyMultipartPartSummary (upload : MultipartUpload) (part : MultipartPart)
    (previous : option MultipartPart) (now : Time) : MultipartUpload :=
  let upload :=
    match previous with
    | None => upload <| mu_PartCount := int64 (mu_PartCount upload + 1) |>
                <| mu_TotalPartSizeBytes := int64 (mu_TotalPartSizeBytes upload + mp_SizeBytes part) |>
    | Some prev => upload <| mu_TotalPartSizeBytes :=
                     int64 (mu_TotalPartSizeBytes upload + int64 (mp_SizeBytes part - mp_SizeBytes prev)) |>
    end in
  let upload :=
    if mu_MaxPartNumber upload <? mp_PartNumber part
    then upload <| mu_MaxPartNumber := mp_PartNumber part |> else upload in
  upload <| mu_PartsUpdatedAt := now |> <| mu_UpdatedAt := now |>.

(** ** Worker leases and controls ([worker.go]) *)

Definition WorkerLeaseID (workerKind shardID : string) : string :=
  TrimSpace workerKind +:+ "/" +:+ TrimSpace shardID.

Definition BuildWorkerLease (existing : WorkerLease) (req : AcquireWorkerLeaseRequest) (now : Time)
    : res WorkerLease :=
  let workerKind := TrimSpace (awl_WorkerKind req) in
  let shardID := TrimSpace (awl_ShardID req) in
  let ownerID := TrimSpace (awl_OwnerID req) in
  if (workerKind =s "") || (shardID =s "") || (ownerID =s "") then Fail ErrInvalidArgument
  else if awl_TTL req <=? 0 then Fail ErrInvalidArgument
  else if negb (wl_LeaseID existing =s "") && negb (wl_OwnerID existing =s ownerID) &&
          (now <? wl_ExpiresAt existing) then Fail ErrCASConflict
  else
    let fresh := (wl_LeaseID existing =s "") || negb (wl_OwnerID existing =s ownerID) in
    let bumped := uint64 (wl_Generation existing + 1) in
    let generation :=
      if fresh then (if bumped =? 0 then 1 else bumped) else wl_Generation existing in
    let acquiredAt := if fresh then now else wl_AcquiredAt existing in
    Ok (mkWorkerLease (WorkerLeaseID workerKind shardID) workerKind shardID ownerID generation
          (TrimSpace (awl_Cursor req)) acquiredAt now (now + awl_TTL req)).

Definition NormalizeWorkerOperationStatus (status : string) (retryable : Z) : string :=
  if bool_decide (status ∈ ["running"; "succeeded"; "retry_pending"; "failed"; "canceled"; "paused"])
  then status
  else if 0 <? retryable then "retry_pending" else "succeeded".

Definition NormalizeWorkerControlState (state : string) : string :=
  let s := ToLower (TrimSpace state) in
  if (s =s "") || (s =s "active") then "active"
  else if s =s "paused" then "paused"
  else if s =s "canceled" then "canceled"
  else "".

Definition BuildWorkerControl (existing : WorkerControlRecord) (req : PutWorkerControlRequest)
    (now : Time) : res WorkerControlRecord :=
  let workerKind := TrimSpace (pwc_WorkerKind req) in
  let shardID := TrimSpace (pwc_ShardID req) in
  if (workerKind =s "") || (shardID =s "") then Fail ErrInvalidArgument
  else
    let state := NormalizeWorkerControlState (pwc_State req) in
    if state =s "" then Fail ErrInvalidArgument
    else Ok (mkWorkerControlRecord workerKind shardID state (TrimSpace (pwc_Reason req))
               (TrimSpace (pwc_UpdatedBy req)) now (or_time (wcr_CreatedAt existing) now)).

(** ** The metadata schema record ([schema.go]) *)

Definition CurrentMetadataSchemaVersion : Z := 1.

Definition DefaultMetadataSchemaRecord (now : Time) : MetadataSchemaRecord :=
  mkMetadataSchemaRecord 1 1 1 "namros" now now.

Definition ValidateMetadataSchemaRecord (record : MetadataSchemaRecord) : res unit :=
  if (msr_SchemaVersion record <=? 0) || (msr_MinReaderVersion record <=? 0) ||
     (msr_MinWriterVersion record <=? 0) ||
     (msr_SchemaVersion record <? msr_MinReaderVersion record) ||
     (msr_SchemaVersion record <? msr_MinWriterVersion record)
  then Fail ErrInvalidArgument else Ok tt.

Definition MetadataSchemaRecordFromRequest (req : PutMetadataSchemaRequest) (now : Time)
    (existing : MetadataSchemaRecord) : res MetadataSchemaRecord :=
  let updatedBy := TrimSpace (pms_UpdatedBy req) in
  let record := mkMetadataSchemaRecord (pms_SchemaVersion req)
    (if pms_MinReaderVersion req =? 0 then pms_SchemaVersion req else pms_MinReaderVersion req)
    (if pms_MinWriterVersion req =? 0 then pms_SchemaVersion req else pms_MinWriterVersion req)
    (if updatedBy =s "" then "namros" else updatedBy)
    (or_time (msr_CreatedAt existing) now) now in
  match ValidateMetadataSchemaRecord record with
  | Ok _ => Ok record
  | Fail e => Fail e
  end.

(** ** Migration operations ([migration.go]) *)

Definition NormalizeMetadataMigrationOperationStatus (status : string) (dryRun apply : bool) : string :=
  if bool_decide (status ∈ ["planned"; "running"; "succeeded"; "retry_pending"; "failed"; "canceled"])
  then status
  else if status =s "" then (if dryRun && negb apply then "planned" else "succeeded")
  else "failed".

Definition CloneMetadataMigrationSteps (steps : list MetadataMigrationStep) : list MetadataMigrationStep :=
  map (fun s => s <| mms_Name := TrimSpace (mms_Name s) |> <| mms_Message := TrimSpace (mms_Message s) |>)
      steps.

Definition CloneMetadataMigrationOperationRecord (r : MetadataMigrationOperationRecord) :=
  r <| mmor_Steps := CloneMetadataMigrationSteps (mmor_Steps r) |>.

Definition BuildMetadataMigrationOperation (operationID : string)
    (req : PutMetadataMigrationOperationRequest) (now : Time) : res MetadataMigrationOperationRecord :=
  let operationID := TrimSpace operationID in
  if operationID =s "" then Fail ErrInvalidArgument
  else Ok (mkMetadataMigrationOperationRecord operationID (TrimSpace (pmm_ResumeOfOperationID req))
    (if pmm_TargetSchemaVersion req <=? 0 then CurrentMetadataSchemaVersion else pmm_TargetSchemaVersion req)
    (NormalizeMetadataMigrationOperationStatus (pmm_Status req) (pmm_DryRun req) (pmm_Apply req))
    (pmm_DryRun req) (pmm_Apply req) (TrimSpace (pmm_OwnerID req)) (TrimSpace (pmm_Cursor req))
    (CloneMetadataMigrationSteps (pmm_Steps req)) (pmm_StartedAt req) (pmm_FinishedAt req) now).

(** ** Volume drain records ([volume_drain.go]) *)

Definition NormalizeVolumeDrainOperationStatus (status : string) (retryable : Z) : string :=
  if bool_decide (status ∈ ["running"; "succeeded"; "retry_pending"; "failed"; "canceled"]) then status
  else if status =s "" then (if 0 <? retryable then "retry_pending" else "succeeded")
  else "failed".

Definition CloneVolumeDrainAttempts (l : list VolumeDrainAttempt) : list VolumeDrainAttempt :=
  map (fun a =>
    let source := TrimSpace (vda_SourceSegmentID a) in
    let target := TrimSpace (vda_TargetSegmentID a) in
    a <| vda_SourceSegmentID := if source =s "" then sr_SegmentID (vda_SourceRef a) else source |>
      <| vda_TargetSegmentID := if target =s "" then sr_SegmentID (vda_TargetRef a) else target |>) l.

Definition CloneVolumeDrainOperationRecord (r : VolumeDrainOperationRecord) : VolumeDrainOperationRecord :=
  r <| vdor_Attempts := CloneVolumeDrainAttempts (vdor_Attempts r) |>.

Definition BuildVolumeDrainOperation (operationID : string) (req : PutVolumeDrainOperationRequest)
    (now : Time) : res VolumeDrainOperationRecord :=
  let sourceVolumeID := TrimSpace (pvd_SourceVolumeID req) in
  if sourceVolumeID =s "" then Fail ErrInvalidArgument
  else
    let operationID := TrimSpace operationID in
    if operationID =s "" then Fail ErrInvalidArgument
    else Ok (mkVolumeDrainOperationRecord operationID (TrimSpace (pvd_ResumeOfOperationID req))
      (TrimSpace (pvd_PoolID req)) sourceVolumeID (TrimSpace (pvd_TargetVolumeID req))
      (TrimSpace (pvd_OwnerID req))
      (NormalizeVolumeDrainOperationStatus (pvd_Status req) (pvd_Retryable req))
      (TrimSpace (pvd_Cursor req)) (pvd_StartedAt req) (pvd_FinishedAt req) (pvd_Scanned req)
      (pvd_Copied req) (pvd_Skipped req) (pvd_Protected req) (pvd_Retryable req)
      (CloneVolumeDrainAttempts (pvd_Attempts req)) now).

Fixpoint first_chunk_volume (chunks : list PlacementChunk) : string :=
  match chunks with
  | [] => ""
  | c :: l => let v := TrimSpace (plc_VolumeID c) in if v =s "" then first_chunk_volume l else v
  end.

Definition SegmentRefVolumeID (ref : SegmentRef) : string :=
  let param := TrimSpace (default "" (pls_Parameters (sr_Placement ref) !! "volume_id")) in
  if negb (param =s "") then param else first_chunk_volume (pls_Chunks (sr_Placement ref)).

Definition SegmentRefsContainVolume (refs : list SegmentRef) (volumeID : string) : bool :=
  let volumeID := TrimSpace volumeID in
  if volumeID =s "" then true
  else existsb (fun ref => SegmentRefVolumeID ref =s volumeID) refs.

(** ** Volume pools ([volume_pool.go]) *)

Definition float_zero : spec_float := S754_zero false.
Definition float_hundred : spec_float := S754_finite false 7036874417766400 (-46).

Definition maxVolumePoolMemberWeight : Z := 1024.

Definition NormalizeVolumePoolState (state : string) (readOnly : bool) : res string :=
  let normalized := ToLower (TrimSpace (replace_byte "-" "_" state)) in
  if normalized =s "" then Ok (if readOnly then "read_only" else "active")
  else if bool_decide (normalized ∈ ["active"; "read_only"; "draining"; "degraded"; "full"; "offline"])
       then Ok normalized
       else Fail ErrInvalidArgument.

Definition normalizeVolumePoolMember (member : VolumePoolMember) : res VolumePoolMember :=
  match NormalizeVolumePoolState (vpm_State member) (vpm_ReadOnly member) with
  | Fail e => Fail e
  | Ok state =>
      let member := member <| vpm_State := state |>
                      <| vpm_ReadOnly := vpm_ReadOnly member || (state =s "read_only") |> in
      let member := if vpm_Weight member =? 0 then member <| vpm_Weight := 1 |> else member in
      if (vpm_Weight member <? 0) || (maxVolumePoolMemberWeight <? vpm_Weight member)
      then Fail ErrInvalidArgument
      else if SFltb (vpm_UsedPercent member) float_zero || SFltb float_hundred (vpm_UsedPercent member)
      then Fail ErrInvalidArgument
      else if SFltb (vpm_HighWatermarkPercent member) float_zero ||
              SFltb float_hundred (vpm_HighWatermarkPercent member)
      then Fail ErrInvalidArgument
      else Ok member
  end.

Fixpoint normalizeVolumePoolMembers (seen : list string) (l : list VolumePoolMember)
    : res (list VolumePoolMember) :=
  match l with
  | [] => Ok []
  | member :: l' =>
      let id := TrimSpace (vpm_VolumeID member) in
      if id =s "" then Fail ErrInvalidArgument
      else if bool_decide (id ∈ seen) then Fail ErrInvalidArgument
      else match normalizeVolumePoolMember (member <| vpm_VolumeID := id |>) with
           | Fail e => Fail e
           | Ok m => match normalizeVolumePoolMembers (id :: seen) l' with
                     | Fail e => Fail e
                     | Ok ms => Ok (m :: ms)
                     end
           end
  end.

Definition NormalizeVolumePoolMembers (l : list VolumePoolMember) : res (list VolumePoolMember) :=
  match l with [] => Fail ErrInvalidArgument | _ => normalizeVolumePoolMembers [] l end.

Fixpoint cleanVolumePoolStringList (seen : list string) (l : list string) : list string :=
  match l with
  | [] => []
  | value :: l' =>
      let value := TrimSpace value in
      if (value =s "") || bool_decide (value ∈ seen) then cleanVolumePoolStringList seen l'
      else value :: cleanVolumePoolStringList (value :: seen) l'
  end.

Definition BuildVolumePool (existing : VolumePool) (req : PutVolumePoolRequest) (now : Time)
    : res VolumePool :=
  let poolID := TrimSpace (pvp_PoolID req) in
  if poolID =s "" then Fail ErrInvalidArgument
  else if negb (vp_PoolID existing =s "") && negb (vp_PoolID existing =s poolID)
  then Fail ErrInvalidArgument
  else
    let bumped := uint64 (vp_Generation existing + 1) in
    if negb (pvp_Generation req =? 0) && negb (vp_PoolID existing =s "") &&
       (pvp_Generation req <=? vp_Generation existing) then Fail ErrCASConflict
    else
      let generation := if pvp_Generation req =? 0 then (if bumped =? 0 then 1 else bumped)
                        else pvp_Generation req in
      match NormalizeVolumePoolMembers (pvp_Members req) with
      | Fail e => Fail e
      | Ok members =>
          Ok (mkVolumePool poolID generation (TrimSpace (pvp_DurabilityClass req))
                (cleanVolumePoolStringList [] (pvp_StorageClassIDs req)) members
                (or_time (vp_CreatedAt existing) now) now)
      end.
