(* ===== verification/Manifest.v ===== *)
(** * Manifest: the object-manifest planner of [src/internal/meta/scale.go]

    An object version is stored inline when its JSON value fits the metadata
    value budget; otherwise its segment references move to numbered chunk
    records, each filled with at most [ObjectManifestChunkRefTarget] references
    and halved until it fits. [hydrate] is the reader's inverse
    ([hydrateObjectVersionManifest] of [src/internal/meta/kvrepo/repository.go]). *)

From S2P Require Import Prelude GoLib StorageTypes Model Requests Encoding Meta.
Open Scope string_scope.
Open Scope Z_scope.

Definition MaxMultipartParts : Z := 10000.
Definition MaxObjectManifestSegmentRefs : Z := MaxMultipartParts.
Definition MaxObjectManifestValueBytes : Z := 16 * 1024 * 1024.
Definition ObjectManifestChunkRefTarget : nat := 1024.

Definition ValidateObjectManifestScale (refs : list SegmentRef) : res unit :=
  if MaxObjectManifestSegmentRefs <? Z.of_nat (length refs) then Fail ErrInvalidArgument else Ok tt.

Definition ValidateCompletedMultipartPartCount (partCount : Z) : res unit :=
  if (partCount <? 1) || (MaxMultipartParts <? partCount) then Fail ErrInvalidArgument else Ok tt.

Fixpoint check_part_numbers (seen : list Z) (l : list Z) : res unit :=
  match l with
  | [] => Ok tt
  | n :: l' =>
      if (n <? 1) || (MaxMultipartParts <? n) then Fail ErrInvalidArgument
      else if bool_decide (n ∈ seen) then Fail ErrInvalidArgument
      else check_part_numbers (n :: seen) l'
  end.

Definition ValidateMultipartPartNumberSelection (partNumbers : list Z) : res unit :=
  if (Z.of_nat (length partNumbers) <? 1) || (MaxMultipartParts <? Z.of_nat (length partNumbers))
  then Fail ErrInvalidArgument
  else check_part_numbers [] partNumbers.

Definition DefaultMultipartCleanupLimit : Z := 256.
Definition NormalizeMultipartCleanupLimit (limit : Z) : Z :=
  if limit <=? 0 then DefaultMultipartCleanupLimit else if 1000 <? limit then 1000 else limit.

(** The effective segment references of a version. *)
Definition normalizeSegmentRefs (single : SegmentRef) (refs : list SegmentRef) : list SegmentRef :=
  match refs with
  | [] => if sr_SegmentID single =s "" then [] else [single]
  | _ => refs
  end.

Definition objectVersionSegmentRefs (v : ObjectVersion) : list SegmentRef :=
  normalizeSegmentRefs (ov_SegmentRef v) (ov_SegmentRefs v).

Definition encoded_size (j : json) : res Z :=
  match marshal j with
  | None => Fail ErrInvalidArgument
  | Some text => Ok (Z.of_nat (String.length text))
  end.

Definition objectVersionEncodedValue (v : ObjectVersion) : res Z := encoded_size (json_ObjectVersion v).
Definition objectManifestChunkValueBytes (c : ObjectManifestChunk) : res Z :=
  encoded_size (json_ObjectManifestChunk c).

Definition manifest_chunk (v : ObjectVersion) (number : Z) (refs : list SegmentRef) : ObjectManifestChunk :=
  mkObjectManifestChunk (ov_BucketID v) (ov_Key v) (ov_VersionID v) number refs (ov_CreatedAt v).

(** The inner loop of [buildObjectManifestChunks]: the first [chunkSize]
    references, halved until the encoded chunk fits. *)
Fixpoint fit_chunk (fuel : nat) (v : ObjectVersion) (number : Z) (refs : list SegmentRef)
    (chunkSize : nat) : option (res (ObjectManifestChunk * nat)) :=
  match fuel with
  | O => None
  | S fuel' =>
      let chunk := manifest_chunk v number (take chunkSize refs) in
      match objectManifestChunkValueBytes chunk with
      | Fail e => Some (Fail e)
      | Ok valueBytes =>
          if valueBytes <=? MaxObjectManifestValueBytes then Some (Ok (chunk, chunkSize))
          else if Nat.eqb chunkSize 1 then Some (Fail ErrObjectManifestTooLarge)
          else fit_chunk fuel' v number refs (Nat.max 1 (chunkSize / 2))
      end
  end.

(** The outer loop, on the references not yet placed. *)
Fixpoint build_chunks (fuel : nat) (v : ObjectVersion) (number : Z) (refs : list SegmentRef)
    : option (res (list ObjectManifestChunk)) :=
  match refs with
  | [] => Some (Ok [])
  | _ =>
      match fuel with
      | O => None
      | S fuel' =>
          let chunkSize := Nat.min ObjectManifestChunkRefTarget (length refs) in
          match fit_chunk (S chunkSize) v number refs chunkSize with
          | None => None
          | Some (Fail e) => Some (Fail e)
          | Some (Ok (chunk, size)) =>
              match build_chunks fuel' v (number + 1) (drop size refs) with
              | Some (Ok chunks) => Some (Ok (chunk :: chunks))
              | other => other
              end
          end
      end
  end.

Definition buildObjectManifestChunks (v : ObjectVersion) (refs : list SegmentRef)
    : option (res (list ObjectManifestChunk)) := build_chunks (length refs) v 1 refs.

Record ObjectVersionManifestPlan := mkPlan {
  plan_Inline : bool;
  plan_ValueBytes : Z;
  plan_StoredVersion : ObjectVersion;
  plan_Chunks : list ObjectManifestChunk
}.

Definition PlanObjectVersionManifestStorage (v : ObjectVersion) : option (res ObjectVersionManifestPlan) :=
  match ValidateObjectManifestScale (objectVersionSegmentRefs v) with
  | Fail e => Some (Fail e)
  | Ok _ =>
      let inline := v <| ov_Manifest := zero_ObjectManifestDescriptor |> in
      match objectVersionEncodedValue inline with
      | Fail e => Some (Fail e)
      | Ok valueBytes =>
          if valueBytes <=? MaxObjectManifestValueBytes then
            Some (Ok (mkPlan true valueBytes inline []))
          else match objectVersionSegmentRefs v with
          | [] => Some (Fail ErrObjectManifestTooLarge)
          | refs =>
              match buildObjectManifestChunks v refs with
              | None => None
              | Some (Fail e) => Some (Fail e)
              | Some (Ok chunks) =>
                  let chunked := v <| ov_SegmentRef := zero_SegmentRef |> <| ov_SegmentRefs := ([] : list SegmentRef) |>
                    <| ov_Manifest := mkObjectManifestDescriptor ObjectManifestEncodingChunked
                                        (Z.of_nat (length refs)) (Z.of_nat (length chunks)) |> in
                  match objectVersionEncodedValue chunked with
                  | Fail e => Some (Fail e)
                  | Ok valueBytes =>
                      if MaxObjectManifestValueBytes <? valueBytes
                      then Some (Fail ErrObjectManifestTooLarge)
                      else Some (Ok (mkPlan false valueBytes chunked chunks))
                  end
              end
          end
      end
  end.

(** The plan's fuel always suffices ([plan_total]), so the missing case below
    is never taken. *)
Definition ValidateObjectVersionScale (v : ObjectVersion) : res unit :=
  match PlanObjectVersionManifestStorage v with
  | Some (Ok _) => Ok tt
  | Some (Fail e) => Fail e
  | None => Fail ErrObjectManifestTooLarge
  end.

(** ** The chunk records of the key-value repository *)

(** [keyspace.ObjectManifestChunk(bucketID, versionID, chunkNumber)]. *)
Abbreviation chunk_store := (gmap (string * string * Z) ObjectManifestChunk).

Definition deleteObjectManifestChunks (m : chunk_store) (bucketID versionID : string) : chunk_store :=
  if (bucketID =s "") || (versionID =s "") then m
  else filter (fun kv => ~ (kv.1.1.1 = bucketID /\ kv.1.1.2 = versionID)) m.

Definition setJSON_chunk (m : chunk_store) (c : ObjectManifestChunk) : chunk_store :=
  <[ (omc_BucketID c, omc_VersionID c, omc_ChunkNumber c) := c ]> m.

(** The chunk half of [setObjectVersion]: the records left by an earlier
    chunked value are removed, then the plan's chunks are written. *)
Definition setObjectVersion_chunks (m : chunk_store) (v : ObjectVersion)
    (plan : ObjectVersionManifestPlan) : chunk_store :=
  let m' :=
    if (omd_Encoding (ov_Manifest v) =s ObjectManifestEncodingChunked)
       || negb (Nat.eqb (length (plan_Chunks plan)) 0)
    then deleteObjectManifestChunks m (ov_BucketID v) (ov_VersionID v) else m in
  foldl setJSON_chunk m' (plan_Chunks plan).

Definition firstSegmentRef (refs : list SegmentRef) : SegmentRef := default zero_SegmentRef (head refs).

(** The read loop over chunk numbers [n .. n + count - 1]; [get] reads the chunk
    record of a bucket, a version and a number. *)
Fixpoint collect_chunks (get : string * string * Z -> option ObjectManifestChunk) (v : ObjectVersion) (n : Z) (count : nat)
    : res (list SegmentRef) :=
  match count with
  | O => Ok []
  | S count' =>
      match get (ov_BucketID v, ov_VersionID v, n) with
      | None => Fail ErrUnavailable
      | Some c =>
          if negb (omc_BucketID c =s ov_BucketID v) || negb (omc_VersionID c =s ov_VersionID v)
             || negb (omc_ChunkNumber c =? n)
          then Fail ErrUnavailable
          else match collect_chunks get v (n + 1) count' with
               | Ok rest => Ok (omc_SegmentRefs c ++ rest)%list
               | Fail e => Fail e
               end
      end
  end.

Definition hydrateObjectVersionManifest (get : string * string * Z -> option ObjectManifestChunk)
    (v : ObjectVersion) : res ObjectVersion :=
  if negb (omd_Encoding (ov_Manifest v) =s ObjectManifestEncodingChunked) then Ok v
  else if (omd_ChunkCount (ov_Manifest v) <=? 0) || (omd_RefCount (ov_Manifest v) <? 0)
  then Fail ErrUnavailable
  else match collect_chunks get v 1 (Z.to_nat (omd_ChunkCount (ov_Manifest v))) with
       | Fail e => Fail e
       | Ok refs =>
           if negb (Z.of_nat (length refs) =? omd_RefCount (ov_Manifest v)) then Fail ErrUnavailable
           else Ok (v <| ov_SegmentRefs := refs |> <| ov_SegmentRef := firstSegmentRef refs |>)
       end.

(** ** Termination: the fuel suffices *)

Lemma half_lt n : (2 <= n)%nat -> (1 <= Nat.max 1 (n / 2) < n)%nat.
Proof.
  intros Hn. pose proof (Nat.Div0.mul_div_le n 2). split; [lia|].
  apply Nat.max_lub_lt; lia.
Qed.

(** A chunk that fits is the longest tried prefix, non-empty and no longer
    than the size the loop started at. *)
Definition fit_result (v : ObjectVersion) (number : Z) (refs : list SegmentRef) (chunkSize : nat)
    (r : res (ObjectManifestChunk * nat)) : Prop :=
  match r with
  | Fail _ => True
  | Ok (chunk, size) =>
      (1 <= size <= chunkSize)%nat /\ chunk = manifest_chunk v number (take size refs) /\
      exists bytes, objectManifestChunkValueBytes chunk = Ok bytes /\ bytes <= MaxObjectManifestValueBytes
  end.

Lemma fit_chunk_spec fuel v number refs chunkSize :
  (1 <= chunkSize < fuel)%nat ->
  exists r, fit_chunk fuel v number refs chunkSize = Some r /\ fit_result v number refs chunkSize r.
Proof.
  revert chunkSize. induction fuel as [|fuel IH]; intros chunkSize Hc; [lia|]. cbn [fit_chunk].
  destruct (objectManifestChunkValueBytes _) as [bytes|e] eqn:Hb; [|by eexists].
  destruct (Z.leb_spec bytes MaxObjectManifestValueBytes).
  { eexists. split; [done|]. split; [lia|]. split; [done|]. eauto. }
  destruct (Nat.eqb_spec chunkSize 1); [by eexists|].
  pose proof (half_lt chunkSize ltac:(lia)).
  destruct (IH (Nat.max 1 (chunkSize / 2))) as (r & Hr & Hs); [lia|].
  exists r. split; [done|]. destruct r as [[chunk size]|]; [|done]. simpl in *.
  split; [lia | apply Hs].
Qed.

(** A sequence of chunks laid out for [v], numbered from [number], whose
    references concatenate to [refs]. *)
Inductive chunk_layout (v : ObjectVersion) : Z -> list SegmentRef -> list ObjectManifestChunk -> Prop :=
| layout_nil number : chunk_layout v number [] []
| layout_cons number front rest chunks bytes :
    (1 <= length front <= ObjectManifestChunkRefTarget)%nat ->
    objectManifestChunkValueBytes (manifest_chunk v number front) = Ok bytes ->
    bytes <= MaxObjectManifestValueBytes ->
    chunk_layout v (number + 1) rest chunks ->
    chunk_layout v number (front ++ rest)%list (manifest_chunk v number front :: chunks).

Lemma build_chunks_spec fuel v number refs :
  (length refs <= fuel)%nat ->
  exists r, build_chunks fuel v number refs = Some r /\
            forall chunks, r = Ok chunks -> chunk_layout v number refs chunks.
Proof.
  revert number refs. induction fuel as [|fuel IH]; intros number refs Hf.
  { destruct refs; [|simpl in Hf; lia]. eexists. split; [done|]. intros ? [= <-]. constructor. }
  destruct refs as [|ref refs].
  { eexists. split; [done|]. intros ? [= <-]. constructor. }
  cbn [build_chunks]. set (l := ref :: refs) in *.
  assert (1 <= length l)%nat by (simpl; lia).
  set (c := Nat.min ObjectManifestChunkRefTarget (length l)).
  assert (1 <= c)%nat by (subst c; unfold ObjectManifestChunkRefTarget; lia).
  destruct (fit_chunk_spec (S c) v number l c) as (r & -> & Hr); [lia|].
  destruct r as [[chunk size]|e]; [|eexists; split; [done|discriminate]].
  destruct Hr as (Hsize & -> & bytes & Hb & Hle).
  destruct (IH (number + 1) (drop size l)) as (r & -> & Hlay).
  { rewrite length_drop. lia. }
  destruct r as [chunks|e]; [|eexists; split; [done|discriminate]].
  eexists. split; [done|]. intros ? [= <-].
  rewrite <- (take_drop size l) at 1. econstructor; [|exact Hb|done|by apply Hlay].
  rewrite length_take. lia.
Qed.

Lemma buildObjectManifestChunks_spec v refs :
  exists r, buildObjectManifestChunks v refs = Some r /\
            forall chunks, r = Ok chunks -> chunk_layout v 1 refs chunks.
Proof. by apply build_chunks_spec. Qed.

(** The planner always returns: its loops end on every input. *)
Lemma plan_total v : exists r, PlanObjectVersionManifestStorage v = Some r.
Proof.
  unfold PlanObjectVersionManifestStorage.
  destruct (ValidateObjectManifestScale _); [|eauto].
  destruct (objectVersionEncodedValue _); [|eauto].
  destruct (_ <=? _); [eauto|]. destruct (objectVersionSegmentRefs v) as [|ref refs]; [eauto|].
  destruct (buildObjectManifestChunks_spec v (ref :: refs)) as (r & -> & _).
  destruct r; [|eauto]. destruct (objectVersionEncodedValue _); [|eauto].
  destruct (_ <? _); eauto.
Qed.

(** ** Writing a plan and reading it back *)

Lemma chunk_layout_length v number refs chunks :
  chunk_layout v number refs chunks -> refs <> [] -> (1 <= length chunks)%nat.
Proof. destruct 1; [done | simpl; lia]. Qed.

Lemma setJSON_chunk_lookup m v number refs :
  setJSON_chunk m (manifest_chunk v number refs) !! (ov_BucketID v, ov_VersionID v, number) =
  Some (manifest_chunk v number refs).
Proof. unfold setJSON_chunk. simpl. by rewrite lookup_insert_eq. Qed.

Lemma setJSON_chunks_lookup_low v number refs chunks m n :
  chunk_layout v number refs chunks -> n < number ->
  foldl setJSON_chunk m chunks !! (ov_BucketID v, ov_VersionID v, n) = m !! (ov_BucketID v, ov_VersionID v, n).
Proof.
  intros Hlay. revert m. induction Hlay as [|number front rest chunks bytes _ _ _ _ IH]; intros m Hn; [done|].
  cbn [foldl]. rewrite IH by lia. unfold setJSON_chunk. simpl.
  rewrite lookup_insert_ne; [done|]. intros [=]. lia.
Qed.

Lemma collect_chunks_layout v stored number refs chunks m :
  ov_BucketID stored = ov_BucketID v -> ov_VersionID stored = ov_VersionID v ->
  chunk_layout v number refs chunks ->
  collect_chunks (fun k => foldl setJSON_chunk m chunks !! k) stored number (length chunks) = Ok refs.
Proof.
  intros HB HV Hlay. revert m.
  induction Hlay as [|number front rest chunks bytes _ _ _ Hlay IH]; intros m; [done|].
  cbn [foldl length collect_chunks]. rewrite HB, HV.
  rewrite (setJSON_chunks_lookup_low _ _ _ _ _ _ Hlay) by lia.
  rewrite setJSON_chunk_lookup. simpl.
  rewrite !String.eqb_refl, Z.eqb_refl. simpl. by rewrite IH.
Qed.

Lemma setJSON_chunks_other v number refs chunks m b w n :
  chunk_layout v number refs chunks -> (b, w) <> (ov_BucketID v, ov_VersionID v) ->
  foldl setJSON_chunk m chunks !! (b, w, n) = m !! (b, w, n).
Proof.
  intros Hlay. revert m. induction Hlay as [|number front rest chunks bytes _ _ _ _ IH]; intros m Hn; [done|].
  cbn [foldl]. rewrite IH by done. unfold setJSON_chunk. simpl.
  rewrite lookup_insert_ne; [done|]. intros [=]. by subst.
Qed.

(** The two shapes a successful plan has. *)
Lemma plan_cases v plan :
  PlanObjectVersionManifestStorage v = Some (Ok plan) ->
  plan_ValueBytes plan <= MaxObjectManifestValueBytes /\
  ((plan_Inline plan = true /\ plan_Chunks plan = [] /\
    plan_StoredVersion plan = v <| ov_Manifest := zero_ObjectManifestDescriptor |>) \/
   (plan_Inline plan = false /\ objectVersionSegmentRefs v <> [] /\
    chunk_layout v 1 (objectVersionSegmentRefs v) (plan_Chunks plan) /\
    plan_StoredVersion plan =
      v <| ov_SegmentRef := zero_SegmentRef |> <| ov_SegmentRefs := ([] : list SegmentRef) |>
        <| ov_Manifest := mkObjectManifestDescriptor ObjectManifestEncodingChunked
             (Z.of_nat (length (objectVersionSegmentRefs v))) (Z.of_nat (length (plan_Chunks plan))) |>)).
Proof.
  unfold PlanObjectVersionManifestStorage.
  destruct (ValidateObjectManifestScale _); [|done].
  destruct (objectVersionEncodedValue _) as [bytes|]; [|done].
  destruct (Z.leb_spec bytes MaxObjectManifestValueBytes).
  { intros [= <-]. simpl. split; [done|]. by left. }
  destruct (objectVersionSegmentRefs v) as [|ref refs] eqn:Hrefs; [done|].
  destruct (buildObjectManifestChunks_spec v (ref :: refs)) as (r & -> & Hlay).
  destruct r as [chunks|]; [|done]. specialize (Hlay chunks eq_refl).
  destruct (objectVersionEncodedValue _) as [bytes2|]; [|done].
  destruct (Z.ltb_spec MaxObjectManifestValueBytes bytes2); [done|].
  intros [= <-]. simpl. split; [done|]. right. done.
Qed.

Lemma firstSegmentRef_refs refs v :
  refs <> [] ->
  objectVersionSegmentRefs (v <| ov_SegmentRefs := refs |> <| ov_SegmentRef := firstSegmentRef refs |>) = refs.
Proof. by destruct refs. Qed.


(** Writing one version's chunks leaves every other version's in place. *)
Lemma setObjectVersion_chunks_frame m v plan b w n :
  PlanObjectVersionManifestStorage v = Some (Ok plan) ->
  (b, w) <> (ov_BucketID v, ov_VersionID v) ->
  setObjectVersion_chunks m v plan !! (b, w, n) = m !! (b, w, n).
Proof.
  intros Hplan Hne. unfold setObjectVersion_chunks. set (m' := if _ : bool then _ else m).
  assert (m' !! (b, w, n) = m !! (b, w, n)) as Hm'.
  { subst m'. destruct (_ || _); [|done]. unfold deleteObjectManifestChunks.
    destruct (_ || _); [done|]. rewrite map_lookup_filter.
    destruct (m !! (b, w, n)); simpl; [|done].
    rewrite option_guard_True; [done|]. simpl. intros [-> ->]. done. }
  rewrite <- Hm'. destruct (plan_cases v plan Hplan) as [_ [(_ & -> & _)|(_ & _ & Hlay & _)]]; [done|].
  by eapply setJSON_chunks_other.
Qed.

Definition example_version : ObjectVersion :=
  zero_ObjectVersion <| ov_BucketID := "bkt" |> <| ov_Key := "k" |> <| ov_VersionID := "v1" |>
    <| ov_SegmentRef := zero_SegmentRef <| sr_SegmentID := "seg" |> |>.

