(* ===== verification/Repo.v ===== *)
(** * Repo: the state of the in-memory metadata repository

    [src/internal/meta/memory/repository.go]. One field per field of the Go
    struct, every map a [gmap]; the mutex makes each method one atomic step, so a
    method is a state transformer of the monad [M]. The clock and the identifier
    generator are the two things a repository is built with ([NewWithClock],
    [WithIDGenerator]): the class [Env] gives the value of the n-th call to each,
    and the state counts the calls. The helpers shared by the operation files
    (identifiers, head revisions, object-lock predicates, the audit chain,
    protected references) follow. *)

From S2P Require Import Prelude GoLib Sha256 StorageTypes Model Requests Encoding Meta Manifest.
Open Scope string_scope.
Open Scope Z_scope.

(** ** Map keys *)

Record objectKey := mk_objectKey {
  ok_bucketID : string;
  ok_key : string
}.
#[export] Instance objectKey_eq_dec : EqDecision objectKey.
Proof. solve_decision. Defined.
#[export] Instance objectKey_countable : Countable objectKey.
Proof.
  refine (inj_countable' (fun k => (ok_bucketID k, ok_key k)) (fun '(a, b) => mk_objectKey a b) _).
  by intros [].
Defined.

Record versionKey := mk_versionKey {
  vk_bucketID : string;
  vk_key : string;
  vk_versionID : string
}.
#[export] Instance versionKey_eq_dec : EqDecision versionKey.
Proof. solve_decision. Defined.
#[export] Instance versionKey_countable : Countable versionKey.
Proof.
  refine (inj_countable' (fun k => (vk_bucketID k, vk_key k, vk_versionID k)) (fun '(a, b, c) => mk_versionKey a b c) _).
  by intros [].
Defined.

Record uploadKey := mk_uploadKey {
  uk_bucketID : string;
  uk_key : string;
  uk_uploadID : string
}.
#[export] Instance uploadKey_eq_dec : EqDecision uploadKey.
Proof. solve_decision. Defined.
#[export] Instance uploadKey_countable : Countable uploadKey.
Proof.
  refine (inj_countable' (fun k => (uk_bucketID k, uk_key k, uk_uploadID k)) (fun '(a, b, c) => mk_uploadKey a b c) _).
  by intros [].
Defined.

Record partKey := mk_partKey {
  pk_bucketID : string;
  pk_key : string;
  pk_uploadID : string;
  pk_partNumber : Z
}.
#[export] Instance partKey_eq_dec : EqDecision partKey.
Proof. solve_decision. Defined.
#[export] Instance partKey_countable : Countable partKey.
Proof.
  refine (inj_countable' (fun k => (pk_bucketID k, pk_key k, pk_uploadID k, pk_partNumber k)) (fun '(a, b, c, d) => mk_partKey a b c d) _).
  by intros [].
Defined.

Record sharedObjectReleaseKey := mk_sharedObjectReleaseKey {
  srk_sharedObjectID : string;
  srk_segmentID : string
}.
#[export] Instance sharedObjectReleaseKey_eq_dec : EqDecision sharedObjectReleaseKey.
Proof. solve_decision. Defined.
#[export] Instance sharedObjectReleaseKey_countable : Countable sharedObjectReleaseKey.
Proof.
  refine (inj_countable' (fun k => (srk_sharedObjectID k, srk_segmentID k)) (fun '(a, b) => mk_sharedObjectReleaseKey a b) _).
  by intros [].
Defined.

(** ** The state *)

Record Repository := mkRepository {
  metadataSchema : MetadataSchemaRecord;
  tenants : gmap string Tenant;
  tenantQuotas : gmap string TenantQuota;
  tenantUsages : gmap string TenantUsage;
  accessKeys : gmap string AccessKey;
  kmsKeys : gmap string KMSKeyRecord;
  profiles : gmap string ComplianceProfileAttachment;
  bucketsByID : gmap string Bucket;
  bucketNameToID : gmap string string;
  bucketQuotas : gmap string BucketQuota;
  heads : gmap objectKey ObjectHead;
  versions : gmap versionKey ObjectVersion;
  uploads : gmap uploadKey MultipartUpload;
  completions : gmap uploadKey MultipartCompletionRecord;
  parts : gmap partKey MultipartPart;
  nextAuditID : Z;
  auditHeadHash : string;
  auditEvents : list AuditEvent;
  protectedRefs : gmap string ProtectedRef;
  gcCandidates : gmap string GCCandidateRecord;
  nextMigrationOpID : Z;
  migrationOps : list MetadataMigrationOperationRecord;
  nextGCOpID : Z;
  gcOperations : list GCOperationRecord;
  nextDedupeOpID : Z;
  dedupeOps : list DedupeOperationRecord;
  dedupeLocks : gmap string DedupeOperationLock;
  nextWorkerOpID : Z;
  workerOps : list WorkerOperationRecord;
  workerLeases : gmap string WorkerLease;
  workerControls : gmap string WorkerControlRecord;
  sharedReleases : gmap sharedObjectReleaseKey SharedObjectRelease;
  sharedObjects : gmap string SharedObject;
  sharedRefs : gmap string SharedObjectRef;
  volumePools : gmap string VolumePool;
  nextDrainOpID : Z;
  drainOps : list VolumeDrainOperationRecord;
  clock_calls : nat;
  id_calls : nat
}.
#[export] Instance eta_Repository : RecordEta Repository := fun r => mkRepository
    (metadataSchema r) (tenants r) (tenantQuotas r) (tenantUsages r) (accessKeys r)
    (kmsKeys r) (profiles r) (bucketsByID r) (bucketNameToID r) (bucketQuotas r) (heads r)
    (versions r) (uploads r) (completions r) (parts r) (nextAuditID r) (auditHeadHash r)
    (auditEvents r) (protectedRefs r) (gcCandidates r) (nextMigrationOpID r) (migrationOps
    r) (nextGCOpID r) (gcOperations r) (nextDedupeOpID r) (dedupeOps r) (dedupeLocks r)
    (nextWorkerOpID r) (workerOps r) (workerLeases r) (workerControls r) (sharedReleases
    r) (sharedObjects r) (sharedRefs r) (volumePools r) (nextDrainOpID r) (drainOps r)
    (clock_calls r) (id_calls r).

(** ** The environment: clock and identifier generator *)

(** [env_now n] is the n-th value of the repository clock, [env_wall n] the
    process clock at that moment, [env_newID n kind] the result of the n-th call
    to the generator ([None] when it fails). *)
Class Env := {
  env_now : nat -> Time;
  env_wall : nat -> Time;
  env_newID : nat -> string -> option string
}.

Definition KindBucket : string := "bkt".
Definition KindVersion : string := "ver".
Definition KindUpload : string := "upl".

Definition M (A : Type) : Type := ST Repository Err A.

Section Repo.
Context `{Env}.

Definition NewWithClock : Repository :=
  mkRepository
    (DefaultMetadataSchemaRecord (env_now 0)) ∅ ∅ ∅ ∅ ∅ ∅ ∅ ∅ ∅ ∅ ∅ ∅ ∅ ∅ 0 "" [] ∅ ∅ 0 []
    0 [] 0 [] ∅ 0 [] ∅ ∅ ∅ ∅ ∅ ∅ 0 [] 1%nat 0%nat.
Definition gets {A} (f : Repository -> A) : M A := fun s => (Ok (f s), s).

Definition now : M Time := fun s =>
  (Ok (env_now (clock_calls s)), s <| clock_calls := S (clock_calls s) |>).

(** [time.Now().UTC()] as read by a record builder. *)
Definition wall : M Time := gets (fun s => env_wall (clock_calls s)).

Definition NewID (kind : string) : M string := fun s =>
  (match env_newID (id_calls s) kind with Some id => Ok id | None => Fail ErrUnavailable end,
   s <| id_calls := S (id_calls s) |>).

Definition idCollisionRetryLimit : nat := 8.

(** The retry loop of [CreateBucket], [nextObjectVersionIDLocked] and
    [nextMultipartUploadIDLocked]: at most eight identifiers are drawn, and one
    that is taken is skipped. *)
Fixpoint fresh_id (attempts : nat) (kind : string) (taken : Repository -> string -> bool) : M string :=
  match attempts with
  | O => st_fail ErrUnavailable
  | S attempts' =>
      let! id := NewID kind in
      let! used := gets (fun s => taken s id) in
      if used then fresh_id attempts' kind taken else st_ret id
  end.

Definition is_some {A} (o : option A) : bool := match o with Some _ => true | None => false end.

Definition nextObjectVersionIDLocked (bucketID key : string) : M string :=
  fresh_id idCollisionRetryLimit KindVersion
    (fun s id => is_some (versions s !! mk_versionKey bucketID key id)).

Definition multipartUploadIDExistsLocked (s : Repository) (bucketID uploadID : string) : bool :=
  existsb (fun kv => (uk_bucketID kv.1 =s bucketID) && (uk_uploadID kv.1 =s uploadID))
    (map_to_list (uploads s)).

Definition nextMultipartUploadIDLocked (bucketID : string) : M string :=
  fresh_id idCollisionRetryLimit KindUpload (fun s id => multipartUploadIDExistsLocked s bucketID id).

(** A successful map lookup, or the given error. *)
Definition lookup_or {A} (e : Err) (f : Repository -> option A) : M A := fun s =>
  (match f s with Some a => Ok a | None => Fail e end, s).

Definition go_limit (limit : Z) : nat := Z.to_nat (if limit <=? 0 then 1000 else limit).

(** ** Object-lock predicates *)

Definition isValidObjectLockMode (mode : string) : bool :=
  (mode =s ObjectLockModeGovernance) || (mode =s ObjectLockModeCompliance).

Definition objectLockProtected (deleteMarker : bool) (retention : ObjectLockRetention)
    (legalHold : string) (now : Time) (bypassGovernance : bool) : bool :=
  if deleteMarker then false
  else if legalHold =s ObjectLockLegalHoldOn then true
  else if olr_Mode retention =s "" then false
  else if olr_RetainUntilDate retention =? 0 then true
  else if negb (now <? olr_RetainUntilDate retention) then false
  else if olr_Mode retention =s ObjectLockModeCompliance then true
  else if olr_Mode retention =s ObjectLockModeGovernance then negb bypassGovernance
  else true.

Definition objectHeadProtectedByObjectLock (head : ObjectHead) (now : Time) (bypass : bool) : bool :=
  objectLockProtected (oh_DeleteMarker head) (oh_ObjectLockRetention head)
    (oh_ObjectLockLegalHold head) now bypass.

Definition objectVersionProtectedByObjectLock (v : ObjectVersion) (now : Time) (bypass : bool) : bool :=
  objectLockProtected (ov_DeleteMarker v) (ov_ObjectLockRetention v) (ov_ObjectLockLegalHold v) now bypass.

Definition retentionUpdateBlocked (current next : ObjectLockRetention) (now : Time)
    (bypassGovernance : bool) : bool :=
  if olr_Mode current =s "" then false
  else if olr_RetainUntilDate current =? 0 then true
  else if negb (now <? olr_RetainUntilDate current) then false
  else if olr_Mode current =s ObjectLockModeCompliance then
    negb (olr_Mode next =s ObjectLockModeCompliance) ||
    (olr_RetainUntilDate next <? olr_RetainUntilDate current)
  else if olr_Mode current =s ObjectLockModeGovernance then negb bypassGovernance
  else true.

Definition validateObjectLockState (retention : ObjectLockRetention) (legalHold : string) : res unit :=
  let bad :=
    if olr_Mode retention =s "" then negb (olr_RetainUntilDate retention =? 0)
    else negb (isValidObjectLockMode (olr_Mode retention)) || (olr_RetainUntilDate retention =? 0) in
  if bad then Fail ErrInvalidArgument
  else if (legalHold =s "") || (legalHold =s ObjectLockLegalHoldOn) || (legalHold =s ObjectLockLegalHoldOff)
  then Ok tt else Fail ErrInvalidArgument.

Definition validateBucketObjectLockConfiguration (c : BucketObjectLockConfiguration) : res unit :=
  let retention := bolc_DefaultRetention c in
  if negb (bolc_Enabled c) then Fail ErrInvalidArgument
  else if (boldr_Mode retention =s "") && (boldr_Days retention =? 0) && (boldr_Years retention =? 0) then Ok tt
  else if negb (isValidObjectLockMode (boldr_Mode retention)) then Fail ErrInvalidArgument
  else if (boldr_Days retention <=? 0) && (boldr_Years retention <=? 0) then Fail ErrInvalidArgument
  else if (0 <? boldr_Days retention) && (0 <? boldr_Years retention) then Fail ErrInvalidArgument
  else Ok tt.

(** ** The audit chain *)

Definition auditEventPayload (e : AuditEvent) : json :=
  JObj [("EventID", JStr (ae_EventID e)); ("Action", JStr (ae_Action e));
           ("BucketID", JStr (ae_BucketID e)); ("Key", JStr (ae_Key e));
           ("VersionID", JStr (ae_VersionID e)); ("RequestID", JStr (ae_RequestID e));
           ("Reason", JStr (ae_Reason e)); ("Principal", json_AuditPrincipal (ae_Principal e));
           ("Details", json_map (ae_Details e)); ("PreviousHash", JStr (ae_PreviousHash e));
           ("CreatedAt", JStr (RFC3339Nano (ae_CreatedAt e)))].

Definition auditEventHash (e : AuditEvent) : string :=
  sha256_hex (default "" (marshal (auditEventPayload e))).

(** [event] as [appendAuditEventLocked] completes it in state [s] at time [t]. *)
Definition sealed_event (event : AuditEvent) (id : Z) (prev : string) (t : Time) : AuditEvent :=
  let event := event <| ae_EventID := "audit-" +:+ leftPadZeros 20 id |>
                 <| ae_CreatedAt := t |> <| ae_PreviousHash := prev |> in
  event <| ae_EventHash := auditEventHash event |>.

Definition appendAuditEventLocked (event : AuditEvent) : M unit :=
  st_modify (fun s => s <| nextAuditID := int64 (nextAuditID s + 1) |>) ;;!
  let! t := now in
  st_modify (fun s =>
    let event := sealed_event event (nextAuditID s) (auditHeadHash s) t in
    s <| auditHeadHash := ae_EventHash event |> <| auditEvents := (auditEvents s ++ [event])%list |>).

Definition validGovernanceBypassAudit (a : AuditContext) : bool :=
  negb (TrimSpace (actx_Reason a) =s "") && negb (TrimSpace (ap_AccessKeyID (actx_Principal a)) =s "").

Definition governanceBypassAuditEvent (req : DeleteObjectRequest) (action versionID : string)
    (details : gmap string string) : AuditEvent :=
  let audit := dor_BypassAudit req in
  mkAuditEvent "" action (dor_BucketID req) (dor_Key req) versionID (actx_RequestID audit)
    (TrimSpace (actx_Reason audit)) (actx_Principal audit) details "" "" 0.

Definition transitionAuditEvent (audit : AuditContext) (action bucketID key versionID : string)
    (details : gmap string string) : AuditEvent :=
  let reason := TrimSpace (actx_Reason audit) in
  mkAuditEvent "" action bucketID key versionID (actx_RequestID audit)
    (if reason =s "" then action else reason) (actx_Principal audit) details "" "" 0.

Definition FormatBool (b : bool) : string := if b then "true" else "false".

Definition bucketObjectLockAuditDetails (c : BucketObjectLockConfiguration) : gmap string string :=
  let retention := bolc_DefaultRetention c in
  let d := <["enabled" := FormatBool (bolc_Enabled c)]> ∅ in
  let d := if boldr_Mode retention =s "" then d
           else <["default_retention_mode" := boldr_Mode retention]> d in
  let d := if 0 <? boldr_Days retention
           then <["default_retention_days" := Itoa (boldr_Days retention)]> d else d in
  if 0 <? boldr_Years retention
  then <["default_retention_years" := Itoa (boldr_Years retention)]> d else d.

Definition formatAuditTime (t : Time) : string := if t =? 0 then "" else RFC3339Nano t.

(** ** Heads and protected references *)

Definition headFromVersion (v : ObjectVersion) (lastModified : Time) : ObjectHead :=
  mkObjectHead (ov_BucketID v) (ov_Key v) (ov_VersionID v) 0 (ov_SizeBytes v) (ov_ETag v)
    (ov_ContentType v) (ov_StorageClass v) (ov_ServerSideEncryption v) (ov_SegmentRef v)
    (ov_SegmentRefs v) zero_ObjectManifestDescriptor (ov_UserMetadata v) (ov_Tags v)
    (ov_ObjectLockRetention v) (ov_ObjectLockLegalHold v) lastModified (ov_DeleteMarker v).

Definition nextObjectHeadRevision (previous : option ObjectHead) : Z :=
  match previous with
  | None => 1
  | Some p => if oh_Revision p =? 0 then 1 else uint64 (oh_Revision p + 1)
  end.

Definition setHeadLocked (key : objectKey) (head : ObjectHead) : M ObjectHead :=
  let! previous := gets (fun s => heads s !! key) in
  let head := head <| oh_Revision := nextObjectHeadRevision previous |> in
  st_modify (fun s => s <| heads := <[key := head]> (heads s) |>) ;;!
  st_ret head.

(** Deletes the record and returns it, or the zero version when there is none. *)
Definition deleteVersionRecordLocked (bucketID key versionID : string) : M ObjectVersion :=
  if versionID =s "" then st_ret zero_ObjectVersion
  else
    let vkey := mk_versionKey bucketID key versionID in
    let! found := gets (fun s => versions s !! vkey) in
    match found with
    | None => st_ret zero_ObjectVersion
    | Some version =>
        st_modify (fun s => s <| versions := delete vkey (versions s) |>) ;;! st_ret version
    end.

Definition objectSegmentRefsFromVersion (v : ObjectVersion) : list SegmentRef :=
  normalizeSegmentRefs (ov_SegmentRef v) (ov_SegmentRefs v).

Definition nul : string := String Ascii.zero "".

Definition protectedRefID (v : ObjectVersion) (ref : SegmentRef) : string :=
  sha256_hex (ov_BucketID v +:+ nul +:+ ov_Key v +:+ nul +:+ ov_VersionID v +:+ nul +:+ sr_SegmentID ref).

Definition protectedRefFromVersion (v : ObjectVersion) (ref : SegmentRef) (now : Time) : ProtectedRef :=
  mkProtectedRef (protectedRefID v ref) ProtectedRefReasonObjectLock (ov_BucketID v) (ov_Key v)
    (ov_VersionID v) (sr_SegmentID ref) ref (olr_Mode (ov_ObjectLockRetention v))
    (olr_RetainUntilDate (ov_ObjectLockRetention v)) (ov_ObjectLockLegalHold v) now now.

Definition protectedRefActive (ref : ProtectedRef) (now : Time) : bool :=
  if pr_LegalHold ref =s ObjectLockLegalHoldOn then true
  else if pr_RetentionMode ref =s "" then false
  else if pr_RetainUntilDate ref =? 0 then true
  else now <? pr_RetainUntilDate ref.

Definition ref_of_version (bucketID key versionID : string) (ref : ProtectedRef) : bool :=
  (pr_BucketID ref =s bucketID) && (pr_Key ref =s key) && (pr_VersionID ref =s versionID).

Definition deleteProtectedRefsForVersionLocked (bucketID key versionID : string) : M unit :=
  st_modify (fun s => s <| protectedRefs :=
    filter (fun kv => ref_of_version bucketID key versionID kv.2 = false) (protectedRefs s) |>).

Definition add_protected_refs (v : ObjectVersion) (now : Time) (refs : list SegmentRef)
    (m : gmap string ProtectedRef) : gmap string ProtectedRef :=
  foldl (fun m ref => if sr_SegmentID ref =s "" then m
                      else <[protectedRefID v ref := protectedRefFromVersion v ref now]> m) m refs.

Definition syncProtectedRefsForVersionLocked (v : ObjectVersion) (now : Time) : M unit :=
  deleteProtectedRefsForVersionLocked (ov_BucketID v) (ov_Key v) (ov_VersionID v) ;;!
  if negb (objectVersionProtectedByObjectLock v now false) then st_ret tt
  else st_modify (fun s => s <| protectedRefs :=
         add_protected_refs v now (objectSegmentRefsFromVersion v) (protectedRefs s) |>).

(** ** Tenant upload counters *)

Definition checkTenantActiveUploadQuotaLocked (s : Repository) (tenantID : string) : res unit :=
  if tenantID =s "" then Ok tt
  else match tenantQuotas s !! tenantID with
  | None => Ok tt
  | Some quota =>
      if tq_MaxActiveUploads quota <=? 0 then Ok tt
      else if tq_MaxActiveUploads quota <=? tu_ActiveUploads (default zero_TenantUsage (tenantUsages s !! tenantID))
      then Fail ErrQuotaExceeded else Ok tt
  end.

Definition applyTenantActiveUploadDeltaLocked (tenantID : string) (delta : Z) (now : Time) : M unit :=
  let! w := wall in
  st_modify (fun s =>
    if tenantID =s "" then s
    else if negb (is_some (tenants s !! tenantID)) then s
    else match ApplyTenantActiveUploadDelta w (default zero_TenantUsage (tenantUsages s !! tenantID))
                 tenantID delta now with
         | Fail _ => s
         | Ok usage => s <| tenantUsages := <[tenantID := usage]> (tenantUsages s) |>
         end).

Definition applyTenantActiveUploadDeltaForBucketLocked (bucketID : string) (delta : Z) (now : Time) : M unit :=
  let! bucket := gets (fun s => bucketsByID s !! bucketID) in
  match bucket with
  | None => st_ret tt
  | Some b => applyTenantActiveUploadDeltaLocked (bk_TenantID b) delta now
  end.

End Repo.
