(* ===== verification/RepoBuckets.v ===== *)
(** * RepoBuckets: tenants, keys, profiles and buckets of the memory repository

    The methods of [src/internal/meta/memory/repository.go] from
    [GetMetadataSchema] to [DeleteBucket]. *)

From S2P Require Import Prelude GoLib Sha256 StorageTypes Model Requests Encoding Meta Manifest Repo.
Open Scope string_scope.
Open Scope Z_scope.

Section Buckets.
Context `{Env}.

(** ** Schema record, tenants, quotas and usage *)

Definition GetMetadataSchema : M MetadataSchemaRecord :=
  let! record := gets metadataSchema in
  fail! ErrNotFound when msr_SchemaVersion record =? 0 ;
  st_ret record.

Definition PutMetadataSchema (req : PutMetadataSchemaRequest) : M MetadataSchemaRecord :=
  let! t := now in
  let! existing := gets metadataSchema in
  let! record := st_lift (MetadataSchemaRecordFromRequest req t existing) in
  st_modify (fun s => s <| metadataSchema := record |>) ;;!
  st_ret record.

Definition CreateTenant (req : CreateTenantRequest) : M Tenant :=
  fail! ErrInvalidArgument when ct_TenantID req =s "" ;
  let! existing := gets (fun s => tenants s !! ct_TenantID req) in
  fail! ErrAlreadyExists when is_some existing ;
  let! t := now in
  let tenant := mkTenant (ct_TenantID req) (ct_DisplayName req) t in
  st_modify (fun s => s <| tenants := <[ct_TenantID req := tenant]> (tenants s) |>) ;;!
  st_ret tenant.

Definition GetTenant (tenantID : string) : M Tenant := lookup_or ErrNotFound (fun s => tenants s !! tenantID).

Definition PutTenantQuota (req : TenantQuotaRequest) : M TenantQuota :=
  lookup_or ErrNotFound (fun s => tenants s !! tqr_TenantID req) ;;!
  let! existing := gets (fun s => default zero_TenantQuota (tenantQuotas s !! tqr_TenantID req)) in
  let! t := now in
  let! w := wall in
  let! quota := st_lift (BuildTenantQuota w existing req t) in
  st_modify (fun s => s <| tenantQuotas := <[tq_TenantID quota := quota]> (tenantQuotas s) |>) ;;!
  st_ret quota.

Definition GetTenantQuota (tenantID : string) : M TenantQuota :=
  lookup_or ErrNotFound (fun s => tenants s !! tenantID) ;;!
  lookup_or ErrNotFound (fun s => tenantQuotas s !! tenantID).

Definition DeleteTenantQuota (tenantID : string) : M unit :=
  lookup_or ErrNotFound (fun s => tenants s !! tenantID) ;;!
  lookup_or ErrNotFound (fun s => tenantQuotas s !! tenantID) ;;!
  st_modify (fun s => s <| tenantQuotas := delete tenantID (tenantQuotas s) |>).

Definition PutTenantUsage (req : TenantUsageRequest) : M TenantUsage :=
  lookup_or ErrNotFound (fun s => tenants s !! tur_TenantID req) ;;!
  let! existing := gets (fun s => default zero_TenantUsage (tenantUsages s !! tur_TenantID req)) in
  let! t := now in
  let! w := wall in
  let! usage := st_lift (BuildTenantUsage w existing req t) in
  st_modify (fun s => s <| tenantUsages := <[tu_TenantID usage := usage]> (tenantUsages s) |>) ;;!
  st_ret usage.

Definition GetTenantUsage (tenantID : string) : M TenantUsage :=
  lookup_or ErrNotFound (fun s => tenants s !! tenantID) ;;!
  lookup_or ErrNotFound (fun s => tenantUsages s !! tenantID).

(** ** Access keys, encryption keys, compliance profiles *)

Definition PutAccessKey (req : PutAccessKeyRequest) : M AccessKey :=
  fail! ErrInvalidArgument when (pak_TenantID req =s "") || (pak_AccessKeyID req =s "") || (pak_SecretHash req =s "") ;
  let status := if pak_Status req =s "" then AccessKeyActive else pak_Status req in
  let! t := now in
  let accessKey := mkAccessKey (pak_TenantID req) (pak_AccessKeyID req) (pak_SecretHash req) status
                     (pak_Permissions req) t in
  st_modify (fun s => s <| accessKeys := <[pak_AccessKeyID req := accessKey]> (accessKeys s) |>) ;;!
  st_ret accessKey.

Definition GetAccessKey (accessKeyID : string) : M AccessKey :=
  lookup_or ErrNotFound (fun s => accessKeys s !! accessKeyID).

Definition PutKMSKey (req : PutKMSKeyRequest) : M KMSKeyRecord :=
  let keyID := TrimSpace (pkk_KeyID req) in
  fail! ErrInvalidArgument when keyID =s "" ;
  let! t := now in
  let! existing := gets (fun s => default zero_KMSKeyRecord (kmsKeys s !! keyID)) in
  let record := if kms_KeyID existing =s ""
                then existing <| kms_KeyID := keyID |> <| kms_CreatedAt := t |> else existing in
  let record := record <| kms_KeyVersion := TrimSpace (pkk_KeyVersion req) |>
    <| kms_State := NormalizeKMSKeyState (pkk_State req) |> <| kms_UpdatedAt := t |> in
  st_modify (fun s => s <| kmsKeys := <[keyID := record]> (kmsKeys s) |>) ;;!
  st_ret record.

Definition GetKMSKey (keyID : string) : M KMSKeyRecord :=
  lookup_or ErrNotFound (fun s => kmsKeys s !! TrimSpace keyID).

(** The values of a map, in its iteration order. *)
Definition map_values {K A} `{Countable K} (m : gmap K A) : list A := (map_to_list m).*2.

Definition ListKMSKeys (req : ListKMSKeysRequest) : M (list KMSKeyRecord) :=
  gets (fun s => take (go_limit (lkk_Limit req))
    (sort_by (fun a b => str_ltb (kms_KeyID a) (kms_KeyID b)) (map_values (kmsKeys s)))).

Definition PutComplianceProfileAttachment (req : PutComplianceProfileAttachmentRequest)
    : M ComplianceProfileAttachment :=
  let profileID := TrimSpace (pcp_ProfileID req) in
  fail! ErrInvalidArgument when profileID =s "" ;
  fail! ErrInvalidArgument when (TrimSpace (pcp_Regulation req) =s "") || (TrimSpace (pcp_RecordClass req) =s "") ;
  fail! ErrInvalidArgument when negb (isValidObjectLockMode (pcp_RetentionMode req)) ;
  fail! ErrInvalidArgument when (pcp_RetentionDays req <? 0) || (pcp_RetentionYears req <? 0) ;
  fail! ErrInvalidArgument when (pcp_RetentionDays req <=? 0) && (pcp_RetentionYears req <=? 0) ;
  fail! ErrInvalidArgument when (0 <? pcp_RetentionDays req) && (0 <? pcp_RetentionYears req) ;
  let! t := now in
  let! existing := gets (fun s => default zero_ComplianceProfileAttachment (profiles s !! profileID)) in
  let record := if cpa_ProfileID existing =s ""
                then existing <| cpa_ProfileID := profileID |> <| cpa_CreatedAt := t |> else existing in
  let record := mkComplianceProfileAttachment (cpa_ProfileID record) (TrimSpace (pcp_Regulation req))
    (TrimSpace (pcp_RecordClass req)) (TrimSpace (pcp_BucketID req)) (TrimSpace (pcp_Prefix req))
    (TrimSpace (pcp_ObjectClass req)) (pcp_RetentionMode req) (pcp_RetentionDays req)
    (pcp_RetentionYears req) (TrimSpace (pcp_LegalHoldPolicy req))
    (TrimSpace (pcp_GovernanceBypassPolicy req)) (TrimSpace (pcp_EvidenceExportPolicy req))
    (cpa_CreatedAt record) t in
  st_modify (fun s => s <| profiles := <[profileID := record]> (profiles s) |>) ;;!
  st_ret record.

Definition ListComplianceProfileAttachments (req : ListComplianceProfileAttachmentsRequest)
    : M (list ComplianceProfileAttachment) :=
  gets (fun s => take (go_limit (lcp_Limit req))
    (sort_by (fun a b => str_ltb (cpa_ProfileID a) (cpa_ProfileID b))
      (List.filter (fun r => (lcp_BucketID req =s "") || (cpa_BucketID r =s lcp_BucketID req))
        (map_values (profiles s))))).

(** ** Buckets *)

Definition CreateBucket (req : CreateBucketRequest) : M Bucket :=
  fail! ErrInvalidArgument when (cb_TenantID req =s "") || (cb_Name req =s "") || (cb_Region req =s "") ;
  let! existing := gets (fun s => bucketNameToID s !! cb_Name req) in
  fail! ErrAlreadyExists when is_some existing ;
  let! bucketID := fresh_id idCollisionRetryLimit KindBucket (fun s id => is_some (bucketsByID s !! id)) in
  let! t := now in
  let bucket := zero_Bucket <| bk_BucketID := bucketID |> <| bk_TenantID := cb_TenantID req |>
    <| bk_Name := cb_Name req |> <| bk_Region := cb_Region req |> <| bk_CreatedAt := t |> in
  let bucket := if cb_ObjectLockEnabled req
    then bucket <| bk_ObjectLock := mkBucketObjectLockConfiguration true zero_BucketObjectLockDefaultRetention |>
                <| bk_VersioningState := BucketVersioningEnabled |>
    else bucket in
  st_modify (fun s => s <| bucketsByID := <[bucketID := bucket]> (bucketsByID s) |>
                        <| bucketNameToID := <[cb_Name req := bucketID]> (bucketNameToID s) |>) ;;!
  st_ret bucket.

(** The methods that change one field of a bucket: read it, write it back under
    its own identifier, return it. *)
Definition update_bucket (bucketID : string) (f : Bucket -> Bucket) : M Bucket :=
  let! bucket := lookup_or ErrNotFound (fun s => bucketsByID s !! bucketID) in
  let bucket := f bucket in
  st_modify (fun s => s <| bucketsByID := <[bk_BucketID bucket := bucket]> (bucketsByID s) |>) ;;!
  st_ret bucket.

Definition PutBucketVersioning (req : PutBucketVersioningRequest) : M Bucket :=
  fail! ErrInvalidArgument when pbv_BucketID req =s "" ;
  fail! ErrInvalidArgument when negb (pbv_State req =s BucketVersioningEnabled)
                                && negb (pbv_State req =s BucketVersioningSuspended) ;
  let! bucket := lookup_or ErrNotFound (fun s => bucketsByID s !! pbv_BucketID req) in
  fail! ErrInvalidArgument when bolc_Enabled (bk_ObjectLock bucket)
                                && negb (pbv_State req =s BucketVersioningEnabled) ;
  update_bucket (pbv_BucketID req) (fun b => b <| bk_VersioningState := pbv_State req |>).

Definition PutBucketCORS (req : BucketCORSRequest) : M Bucket :=
  fail! ErrInvalidArgument when bcr_BucketID req =s "" ;
  update_bucket (bcr_BucketID req) (fun b => b <| bk_CORSRules := bcr_Rules req |>).

Definition GetBucketCORS (bucketID : string) : M (list CORSRule) :=
  let! bucket := lookup_or ErrNotFound (fun s => bucketsByID s !! bucketID) in
  st_ret (bk_CORSRules bucket).

Definition DeleteBucketCORS (bucketID : string) : M Bucket :=
  update_bucket bucketID (fun b => b <| bk_CORSRules := [] |>).

Definition lifecycle_rule_ok (rule : LifecycleRule) : bool :=
  let e := lr_Expiration rule in
  let nc := lnve_NoncurrentDays (lr_NoncurrentVersionExpiration rule) in
  let mp := laimu_DaysAfterInitiation (lr_AbortIncompleteMultipartUpload rule) in
  ((lr_Status rule =s LifecycleRuleEnabled) || (lr_Status rule =s LifecycleRuleDisabled)) &&
  ((0 <? le_Days e) || negb (le_Date e =? 0) || le_ExpiredObjectDeleteMarker e || (0 <? nc) || (0 <? mp)) &&
  negb ((le_Days e <? 0) || (nc <? 0) || (mp <? 0)).

Definition validateBucketLifecycleConfiguration (c : BucketLifecycleConfiguration) : res unit :=
  let rules := blc_Rules c in
  if (length rules =? 0)%nat || (1000 <? Z.of_nat (length rules)) then Fail ErrInvalidArgument
  else if forallb lifecycle_rule_ok rules then Ok tt else Fail ErrInvalidArgument.

Definition PutBucketLifecycle (req : BucketLifecycleRequest) : M Bucket :=
  fail! ErrInvalidArgument when blr_BucketID req =s "" ;
  st_lift (validateBucketLifecycleConfiguration (blr_Configuration req)) ;;!
  let! bucket := update_bucket (blr_BucketID req) (fun b => b <| bk_Lifecycle := blr_Configuration req |>) in
  appendAuditEventLocked (transitionAuditEvent (blr_Audit req) AuditActionPutBucketLifecycle
    (bk_BucketID bucket) "" "" (<["rule_count" := Itoa (Z.of_nat (length (blc_Rules (blr_Configuration req))))]> ∅)) ;;!
  st_ret bucket.

Definition GetBucketLifecycle (bucketID : string) : M BucketLifecycleConfiguration :=
  let! bucket := lookup_or ErrNotFound (fun s => bucketsByID s !! bucketID) in
  fail! ErrNotFound when (length (blc_Rules (bk_Lifecycle bucket)) =? 0)%nat ;
  st_ret (bk_Lifecycle bucket).

Definition DeleteBucketLifecycle (bucketID : string) (audit : AuditContext) : M Bucket :=
  let! bucket := update_bucket bucketID (fun b => b <| bk_Lifecycle := zero_BucketLifecycleConfiguration |>) in
  appendAuditEventLocked (transitionAuditEvent audit AuditActionDeleteBucketLifecycle (bk_BucketID bucket) "" "" ∅) ;;!
  st_ret bucket.

Definition PutBucketEncryption (req : BucketEncryptionRequest) : M Bucket :=
  fail! ErrInvalidArgument when ber_BucketID req =s "" ;
  st_lift (ValidateBucketEncryption (ber_Encryption req)) ;;!
  let! bucket := update_bucket (ber_BucketID req) (fun b => b <| bk_DefaultEncryption := ber_Encryption req |>) in
  appendAuditEventLocked (transitionAuditEvent (ber_Audit req) AuditActionPutBucketEncryption
    (bk_BucketID bucket) "" "" (<["algorithm" := sse_Algorithm (ber_Encryption req)]>
      (<["key_id" := sse_KeyID (ber_Encryption req)]> ∅))) ;;!
  st_ret bucket.

Definition GetBucketEncryption (bucketID : string) : M ServerSideEncryption :=
  let! bucket := lookup_or ErrNotFound (fun s => bucketsByID s !! bucketID) in
  fail! ErrNotFound when sse_Algorithm (bk_DefaultEncryption bucket) =s "" ;
  st_ret (bk_DefaultEncryption bucket).

Definition DeleteBucketEncryption (bucketID : string) (audit : AuditContext) : M Bucket :=
  let! bucket := update_bucket bucketID (fun b => b <| bk_DefaultEncryption := zero_ServerSideEncryption |>) in
  appendAuditEventLocked (transitionAuditEvent audit AuditActionDeleteBucketEncryption (bk_BucketID bucket) "" "" ∅) ;;!
  st_ret bucket.

Definition PutBucketQuota (req : BucketQuotaRequest) : M BucketQuota :=
  lookup_or ErrNotFound (fun s => bucketsByID s !! bqr_BucketID req) ;;!
  let! existing := gets (fun s => default zero_BucketQuota (bucketQuotas s !! bqr_BucketID req)) in
  let! t := now in
  let! w := wall in
  let! quota := st_lift (BuildBucketQuota w existing req t) in
  st_modify (fun s => s <| bucketQuotas := <[bq_BucketID quota := quota]> (bucketQuotas s) |>) ;;!
  st_ret quota.

Definition GetBucketQuota (bucketID : string) : M BucketQuota :=
  lookup_or ErrNotFound (fun s => bucketsByID s !! bucketID) ;;!
  lookup_or ErrNotFound (fun s => bucketQuotas s !! bucketID).

Definition DeleteBucketQuota (bucketID : string) : M unit :=
  lookup_or ErrNotFound (fun s => bucketsByID s !! bucketID) ;;!
  lookup_or ErrNotFound (fun s => bucketQuotas s !! bucketID) ;;!
  st_modify (fun s => s <| bucketQuotas := delete bucketID (bucketQuotas s) |>).

Definition PutBucketPolicy (req : BucketPolicyRequest) : M Bucket :=
  fail! ErrInvalidArgument when bpr_BucketID req =s "" ;
  fail! ErrInvalidArgument when (length (pd_Statements (bpr_Policy req)) =? 0)%nat ;
  let! bucket := update_bucket (bpr_BucketID req) (fun b => b <| bk_Policy := bpr_Policy req |>) in
  appendAuditEventLocked (transitionAuditEvent (bpr_Audit req) AuditActionPutBucketPolicy
    (bk_BucketID bucket) "" ""
    (<["statement_count" := Itoa (Z.of_nat (length (pd_Statements (bpr_Policy req))))]> ∅)) ;;!
  st_ret bucket.

Definition GetBucketPolicy (bucketID : string) : M PolicyDocument :=
  let! bucket := lookup_or ErrNotFound (fun s => bucketsByID s !! bucketID) in
  fail! ErrNotFound when (length (pd_Statements (bk_Policy bucket)) =? 0)%nat ;
  st_ret (bk_Policy bucket).

Definition DeleteBucketPolicy (bucketID : string) (audit : AuditContext) : M Bucket :=
  let! bucket := update_bucket bucketID (fun b => b <| bk_Policy := zero_PolicyDocument |>) in
  appendAuditEventLocked (transitionAuditEvent audit AuditActionDeleteBucketPolicy (bk_BucketID bucket) "" "" ∅) ;;!
  st_ret bucket.

Definition PutBucketObjectLock (req : BucketObjectLockRequest) : M Bucket :=
  fail! ErrInvalidArgument when bolr_BucketID req =s "" ;
  st_lift (validateBucketObjectLockConfiguration (bolr_Configuration req)) ;;!
  let! bucket := update_bucket (bolr_BucketID req) (fun b => b <| bk_ObjectLock := bolr_Configuration req |>
                   <| bk_VersioningState := BucketVersioningEnabled |>) in
  appendAuditEventLocked (transitionAuditEvent (bolr_Audit req) AuditActionPutBucketObjectLock
    (bk_BucketID bucket) "" "" (bucketObjectLockAuditDetails (bolr_Configuration req))) ;;!
  st_ret bucket.

Definition GetBucketObjectLock (bucketID : string) : M BucketObjectLockConfiguration :=
  let! bucket := lookup_or ErrNotFound (fun s => bucketsByID s !! bucketID) in
  st_ret (bk_ObjectLock bucket).

Definition GetBucketByName (name : string) : M Bucket :=
  let! bucketID := lookup_or ErrNotFound (fun s => bucketNameToID s !! name) in
  gets (fun s => default zero_Bucket (bucketsByID s !! bucketID)).

Definition ListBuckets (tenantID : string) : M (list Bucket) :=
  gets (fun s => sort_by (fun a b => str_ltb (bk_Name a) (bk_Name b))
    (List.filter (fun b => (tenantID =s "") || (bk_TenantID b =s tenantID)) (map_values (bucketsByID s)))).

Definition bucket_in_use (s : Repository) (bucketID : string) : bool :=
  existsb (fun kv => ok_bucketID kv.1 =s bucketID) (map_to_list (heads s)) ||
  existsb (fun kv => (vk_bucketID kv.1 =s bucketID) && (ov_State kv.2 =s ObjectVersionCommitted))
    (map_to_list (versions s)).

Definition DeleteBucket (bucketID : string) : M unit :=
  let! bucket := lookup_or ErrNotFound (fun s => bucketsByID s !! bucketID) in
  let! used := gets (fun s => bucket_in_use s bucketID) in
  fail! ErrBucketNotEmpty when used ;
  st_modify (fun s => s <| bucketsByID := delete bucketID (bucketsByID s) |>
                        <| bucketNameToID := delete (bk_Name bucket) (bucketNameToID s) |>
                        <| bucketQuotas := delete bucketID (bucketQuotas s) |>).

End Buckets.
