(* ===== verification/RepoObjects.v ===== *)
(** * RepoObjects: object operations of the memory repository

    [BeginPutObject], [CommitObjectVersion], [PutObjectVersion], [DeleteObject],
    tags, retention and legal hold, each the whole method of
    [src/internal/meta/memory/repository.go]. *)

From S2P Require Import Prelude GoLib Sha256 StorageTypes Model Requests Encoding Meta Manifest Repo.
Open Scope string_scope.
Open Scope Z_scope.

Section Objects.
Context `{Env}.

(** ** Writing *)

(** The version record both put operations build. *)
Definition version_of_request (req : BeginPutObjectRequest) (versionID : string)
    (segmentRefs : list SegmentRef) (state : string) (createdAt committedAt : Time) : ObjectVersion :=
  mkObjectVersion (bpo_BucketID req) (bpo_Key req) versionID versionID (bpo_SizeBytes req)
    (bpo_ETag req) (bpo_ContentType req) (bpo_StorageClass req) (bpo_ServerSideEncryption req)
    (firstSegmentRef segmentRefs) segmentRefs zero_ObjectManifestDescriptor (bpo_UserMetadata req)
    (bpo_Tags req) (bpo_ObjectLockRetention req) (bpo_ObjectLockLegalHold req) state
    createdAt committedAt false.

Definition BeginPutObject (req : BeginPutObjectRequest) : M PendingObjectVersion :=
  fail! ErrInvalidArgument when (bpo_BucketID req =s "") || (bpo_Key req =s "") ;
  st_lift (validateObjectLockState (bpo_ObjectLockRetention req) (bpo_ObjectLockLegalHold req)) ;;!
  let segmentRefs := normalizeSegmentRefs (bpo_SegmentRef req) (bpo_SegmentRefs req) in
  st_lift (ValidateObjectManifestScale segmentRefs) ;;!
  lookup_or ErrNotFound (fun s => bucketsByID s !! bpo_BucketID req) ;;!
  let! currentHead := gets (fun s => default zero_ObjectHead
                              (heads s !! mk_objectKey (bpo_BucketID req) (bpo_Key req))) in
  let! t := now in
  let! versionID := nextObjectVersionIDLocked (bpo_BucketID req) (bpo_Key req) in
  let version := version_of_request req versionID segmentRefs ObjectVersionPending t 0 in
  st_lift (ValidateObjectVersionScale version) ;;!
  st_modify (fun s => s <| versions :=
    <[mk_versionKey (bpo_BucketID req) (bpo_Key req) versionID := version]> (versions s) |>) ;;!
  st_ret (mkPendingObjectVersion version (oh_VersionID currentHead) currentHead
            (negb (oh_VersionID currentHead =s ""))).

(** The version a non-versioned bucket's head pointed at goes away when a new
    one replaces it. *)
Definition drop_replaced (bucket : Bucket) (bucketID key : string) (currentHead : ObjectHead)
    (versionID : string) : M unit :=
  if negb (bk_VersioningState bucket =s BucketVersioningEnabled)
     && negb (oh_VersionID currentHead =s "") && negb (oh_VersionID currentHead =s versionID)
  then
    let! old := deleteVersionRecordLocked bucketID key (oh_VersionID currentHead) in
    deleteProtectedRefsForVersionLocked (ov_BucketID old) (ov_Key old) (ov_VersionID old)
  else st_ret tt.

Definition CommitObjectVersion (req : CommitObjectVersionRequest) : M ObjectHead :=
  fail! ErrInvalidArgument when (cov_BucketID req =s "") || (cov_Key req =s "") || (cov_VersionID req =s "") ;
  let key := mk_objectKey (cov_BucketID req) (cov_Key req) in
  let vkey := mk_versionKey (cov_BucketID req) (cov_Key req) (cov_VersionID req) in
  let! bucket := gets (fun s => default zero_Bucket (bucketsByID s !! cov_BucketID req)) in
  let! currentHead := gets (fun s => default zero_ObjectHead (heads s !! key)) in
  fail! ErrCASConflict when negb (oh_VersionID currentHead =s cov_ExpectedHeadVersionID req) ;
  let! version := lookup_or ErrNotFound (fun s => versions s !! vkey) in
  if ov_State version =s ObjectVersionCommitted then st_ret currentHead
  else
    let! t := now in
    let version := version <| ov_State := ObjectVersionCommitted |> <| ov_CommittedAt := t |> in
    st_modify (fun s => s <| versions := <[vkey := version]> (versions s) |>) ;;!
    drop_replaced bucket (cov_BucketID req) (cov_Key req) currentHead (ov_VersionID version) ;;!
    let! head := setHeadLocked key (headFromVersion version t) in
    syncProtectedRefsForVersionLocked version t ;;!
    st_ret head.

Definition PutObjectVersion (req : BeginPutObjectRequest) : M PutObjectVersionResult :=
  fail! ErrInvalidArgument when (bpo_BucketID req =s "") || (bpo_Key req =s "") ;
  st_lift (validateObjectLockState (bpo_ObjectLockRetention req) (bpo_ObjectLockLegalHold req)) ;;!
  let segmentRefs := normalizeSegmentRefs (bpo_SegmentRef req) (bpo_SegmentRefs req) in
  st_lift (ValidateObjectManifestScale segmentRefs) ;;!
  let! bucket := lookup_or ErrNotFound (fun s => bucketsByID s !! bpo_BucketID req) in
  let key := mk_objectKey (bpo_BucketID req) (bpo_Key req) in
  let! currentHead := gets (fun s => default zero_ObjectHead (heads s !! key)) in
  let! t := now in
  let! versionID := nextObjectVersionIDLocked (bpo_BucketID req) (bpo_Key req) in
  let version := version_of_request req versionID segmentRefs ObjectVersionCommitted t t in
  st_lift (ValidateObjectVersionScale version) ;;!
  drop_replaced bucket (bpo_BucketID req) (bpo_Key req) currentHead versionID ;;!
  st_modify (fun s => s <| versions :=
    <[mk_versionKey (bpo_BucketID req) (bpo_Key req) versionID := version]> (versions s) |>) ;;!
  let! head := setHeadLocked key (headFromVersion version t) in
  syncProtectedRefsForVersionLocked version t ;;!
  st_ret (mkPutObjectVersionResult head currentHead (negb (oh_VersionID currentHead =s ""))).

(** ** Reading *)

Definition GetObjectHead (bucketID key : string) : M ObjectHead :=
  lookup_or ErrNotFound (fun s => heads s !! mk_objectKey bucketID key).

Definition GetObjectVersion (bucketID key versionID : string) : M ObjectVersion :=
  lookup_or ErrNotFound (fun s => versions s !! mk_versionKey bucketID key versionID).

(** ** Deleting *)

Definition checkDeleteKMSAdmissionLocked (s : Repository) (e : ServerSideEncryption) : res unit :=
  if negb (sse_Algorithm e =s ServerSideEncryptionAWSKMS) then Ok tt
  else
    let keyID := TrimSpace (sse_KeyID e) in
    if keyID =s "" then Ok tt
    else match kmsKeys s !! keyID with
         | None => Ok tt
         | Some key => if KMSKeyAllowsDelete (kms_State key) then Ok tt else Fail ErrKMSKeyUnavailable
         end.

Definition checkKMS (e : ServerSideEncryption) : M unit :=
  let! admission := gets (fun s => checkDeleteKMSAdmissionLocked s e) in st_lift admission.

Definition committed_at (bucketID key : string) (kv : versionKey * ObjectVersion) : bool :=
  (vk_bucketID kv.1 =s bucketID) && (vk_key kv.1 =s key) && (ov_State kv.2 =s ObjectVersionCommitted).

Definition latest_step (bucketID key : string) (latest : ObjectVersion) (kv : versionKey * ObjectVersion)
    : ObjectVersion :=
  if negb (committed_at bucketID key kv) then latest
  else if (ov_VersionID latest =s "") || str_ltb (ov_VersionSortKey latest) (ov_VersionSortKey kv.2)
  then kv.2 else latest.

Definition latestCommittedVersionLocked (s : Repository) (bucketID key : string) : option ObjectVersion :=
  let latest := foldl (latest_step bucketID key) zero_ObjectVersion (map_to_list (versions s)) in
  if ov_VersionID latest =s "" then None else Some latest.

Definition createDeleteMarkerLocked (req : DeleteObjectRequest) : M DeleteResult :=
  let! t := now in
  let! versionID := nextObjectVersionIDLocked (dor_BucketID req) (dor_Key req) in
  let version := zero_ObjectVersion <| ov_BucketID := dor_BucketID req |> <| ov_Key := dor_Key req |>
    <| ov_VersionID := versionID |> <| ov_VersionSortKey := versionID |>
    <| ov_State := ObjectVersionCommitted |> <| ov_CreatedAt := t |> <| ov_CommittedAt := t |>
    <| ov_DeleteMarker := true |> in
  st_modify (fun s => s <| versions :=
    <[mk_versionKey (dor_BucketID req) (dor_Key req) versionID := version]> (versions s) |>) ;;!
  setHeadLocked (mk_objectKey (dor_BucketID req) (dor_Key req)) (headFromVersion version t) ;;!
  st_ret (mkDeleteResult true versionID true version).

(** The object-lock gate of both delete paths: [protected b] is the target's
    protection with governance bypassed or not. *)
Definition governance_gate (protected : bool -> bool) (bypass : bool) (audit : AuditContext)
    (event : AuditEvent) : M unit :=
  if protected false then
    fail! ErrObjectLocked when protected true || negb bypass || negb (validGovernanceBypassAudit audit) ;
    appendAuditEventLocked event
  else st_ret tt.

Definition deleteObjectVersionLocked (req : DeleteObjectRequest) : M DeleteResult :=
  let vkey := mk_versionKey (dor_BucketID req) (dor_Key req) (dor_VersionID req) in
  let! deleted := lookup_or ErrNotFound (fun s => versions s !! vkey) in
  checkKMS (ov_ServerSideEncryption deleted) ;;!
  let! t := now in
  governance_gate (objectVersionProtectedByObjectLock deleted t) (dor_BypassGovernanceRetention req)
    (dor_BypassAudit req)
    (governanceBypassAuditEvent req AuditActionGovernanceBypassDeleteObject (ov_VersionID deleted)
       (<["target" := "object_version"]> ∅)) ;;!
  st_modify (fun s => s <| versions := delete vkey (versions s) |>) ;;!
  deleteProtectedRefsForVersionLocked (ov_BucketID deleted) (ov_Key deleted) (ov_VersionID deleted) ;;!
  let headKey := mk_objectKey (dor_BucketID req) (dor_Key req) in
  let! head := gets (fun s => heads s !! headKey) in
  (if match head with Some h => oh_VersionID h =s dor_VersionID req | None => false end then
     let! promoted := gets (fun s => latestCommittedVersionLocked s (dor_BucketID req) (dor_Key req)) in
     match promoted with
     | Some p => setHeadLocked headKey (headFromVersion p (ov_CommittedAt p)) ;;! st_ret tt
     | None => st_modify (fun s => s <| heads := delete headKey (heads s) |>)
     end
   else st_ret tt) ;;!
  st_ret (mkDeleteResult true (ov_VersionID deleted) (ov_DeleteMarker deleted) deleted).

Definition DeleteObject (req : DeleteObjectRequest) : M DeleteResult :=
  fail! ErrInvalidArgument when (dor_BucketID req =s "") || (dor_Key req =s "") ;
  let key := mk_objectKey (dor_BucketID req) (dor_Key req) in
  let! bucket := lookup_or ErrNotFound (fun s => bucketsByID s !! dor_BucketID req) in
  if negb (dor_VersionID req =s "") then deleteObjectVersionLocked req
  else
    let! found := gets (fun s => heads s !! key) in
    if bk_VersioningState bucket =s BucketVersioningEnabled then
      match found with
      | Some head => checkKMS (oh_ServerSideEncryption head)
      | None => st_ret tt
      end ;;!
      createDeleteMarkerLocked req
    else match found with
    | None => st_ret (mkDeleteResult false "" false zero_ObjectVersion)
    | Some head =>
        checkKMS (oh_ServerSideEncryption head) ;;!
        let! t := now in
        governance_gate (objectHeadProtectedByObjectLock head t) (dor_BypassGovernanceRetention req)
          (dor_BypassAudit req)
          (governanceBypassAuditEvent req AuditActionGovernanceBypassDeleteObject (oh_VersionID head)
             (<["target" := "object_head"]> ∅)) ;;!
        st_modify (fun s => s <| heads := delete key (heads s) |>) ;;!
        let! deleted := deleteVersionRecordLocked (dor_BucketID req) (dor_Key req) (oh_VersionID head) in
        deleteProtectedRefsForVersionLocked (ov_BucketID deleted) (ov_Key deleted) (ov_VersionID deleted) ;;!
        st_ret (mkDeleteResult true (oh_VersionID head) false deleted)
    end.

(** ** Tags *)

Definition GetObjectTags (req : ObjectTagsRequest) : M (gmap string string) :=
  fail! ErrInvalidArgument when (otr_BucketID req =s "") || (otr_Key req =s "") ;
  if negb (otr_VersionID req =s "") then
    let! version := lookup_or ErrNotFound
      (fun s => versions s !! mk_versionKey (otr_BucketID req) (otr_Key req) (otr_VersionID req)) in
    fail! ErrNotFound when negb (ov_State version =s ObjectVersionCommitted) ;
    st_ret (ov_Tags version)
  else
    let! head := lookup_or ErrNotFound (fun s => heads s !! mk_objectKey (otr_BucketID req) (otr_Key req)) in
    st_ret (oh_Tags head).

Definition PutObjectTags (req : ObjectTagsRequest) : M unit :=
  fail! ErrInvalidArgument when (otr_BucketID req =s "") || (otr_Key req =s "") ;
  let headKey := mk_objectKey (otr_BucketID req) (otr_Key req) in
  let tags := otr_Tags req in
  if negb (otr_VersionID req =s "") then
    let vkey := mk_versionKey (otr_BucketID req) (otr_Key req) (otr_VersionID req) in
    let! version := lookup_or ErrNotFound (fun s => versions s !! vkey) in
    fail! ErrNotFound when negb (ov_State version =s ObjectVersionCommitted) ;
    st_modify (fun s => s <| versions := <[vkey := version <| ov_Tags := tags |>]> (versions s) |>) ;;!
    let! found := gets (fun s => heads s !! headKey) in
    match found with
    | Some head =>
        if oh_VersionID head =s otr_VersionID req
        then setHeadLocked headKey (head <| oh_Tags := tags |>) ;;! st_ret tt
        else st_ret tt
    | None => st_ret tt
    end
  else
    let! head := lookup_or ErrNotFound (fun s => heads s !! headKey) in
    setHeadLocked headKey (head <| oh_Tags := tags |>) ;;!
    if oh_VersionID head =s "" then st_ret tt
    else
      let vkey := mk_versionKey (otr_BucketID req) (otr_Key req) (oh_VersionID head) in
      let! found := gets (fun s => versions s !! vkey) in
      match found with
      | Some version =>
          st_modify (fun s => s <| versions := <[vkey := version <| ov_Tags := tags |>]> (versions s) |>)
      | None => st_ret tt
      end.

Definition DeleteObjectTags (req : ObjectTagsRequest) : M unit :=
  PutObjectTags (req <| otr_Tags := ∅ |>).

(** ** Retention and legal hold *)

Definition objectLockTargetLocked (bucketID key versionID : string) : M (versionKey * ObjectVersion) :=
  let! versionID :=
    (if versionID =s "" then
       let! head := lookup_or ErrNotFound (fun s => heads s !! mk_objectKey bucketID key) in
       fail! ErrNotFound when oh_DeleteMarker head ;
       st_ret (oh_VersionID head)
     else st_ret versionID) in
  let vkey := mk_versionKey bucketID key versionID in
  let! version := lookup_or ErrNotFound (fun s => versions s !! vkey) in
  fail! ErrNotFound when negb (ov_State version =s ObjectVersionCommitted) || ov_DeleteMarker version ;
  st_ret (vkey, version).

Definition updateHeadObjectLockLocked (version : ObjectVersion) : M unit :=
  let headKey := mk_objectKey (ov_BucketID version) (ov_Key version) in
  let! found := gets (fun s => heads s !! headKey) in
  match found with
  | None => st_ret tt
  | Some head =>
      if negb (oh_VersionID head =s ov_VersionID version) then st_ret tt
      else setHeadLocked headKey (head <| oh_ObjectLockRetention := ov_ObjectLockRetention version |>
             <| oh_ObjectLockLegalHold := ov_ObjectLockLegalHold version |>) ;;! st_ret tt
  end.

Definition GetObjectRetention (req : ObjectRetentionRequest) : M ObjectLockRetention :=
  fail! ErrInvalidArgument when (orr_BucketID req =s "") || (orr_Key req =s "") ;
  let! target := objectLockTargetLocked (orr_BucketID req) (orr_Key req) (orr_VersionID req) in
  st_ret (ov_ObjectLockRetention target.2).

Definition PutObjectRetention (req : ObjectRetentionRequest) : M unit :=
  fail! ErrInvalidArgument when (orr_BucketID req =s "") || (orr_Key req =s "") ;
  st_lift (validateObjectLockState (orr_Retention req) "") ;;!
  let! t0 := now in
  fail! ErrInvalidArgument when negb (t0 <? olr_RetainUntilDate (orr_Retention req)) ;
  let! target := objectLockTargetLocked (orr_BucketID req) (orr_Key req) (orr_VersionID req) in
  let vkey := target.1 in
  let version := target.2 in
  let! t := now in
  let previous := ov_ObjectLockRetention version in
  governance_gate (retentionUpdateBlocked previous (orr_Retention req) t)
    (orr_BypassGovernanceRetention req) (orr_BypassAudit req)
    (governanceBypassAuditEvent
       (mkDeleteObjectRequest (orr_BucketID req) (orr_Key req) (ov_VersionID version) false (orr_BypassAudit req))
       AuditActionGovernanceBypassPutObjectRetention (ov_VersionID version)
       (<["current_mode" := olr_Mode previous]>
        (<["current_retain_until" := RFC3339Nano (olr_RetainUntilDate previous)]>
         (<["next_mode" := olr_Mode (orr_Retention req)]>
          (<["next_retain_until" := RFC3339Nano (olr_RetainUntilDate (orr_Retention req))]> ∅))))) ;;!
  let version := version <| ov_ObjectLockRetention := orr_Retention req |> in
  st_modify (fun s => s <| versions := <[vkey := version]> (versions s) |>) ;;!
  updateHeadObjectLockLocked version ;;!
  syncProtectedRefsForVersionLocked version t ;;!
  appendAuditEventLocked (transitionAuditEvent (orr_Audit req) AuditActionPutObjectRetention
    (orr_BucketID req) (orr_Key req) (ov_VersionID version)
    (<["previous_mode" := olr_Mode previous]>
     (<["previous_retain_until" := formatAuditTime (olr_RetainUntilDate previous)]>
      (<["next_mode" := olr_Mode (orr_Retention req)]>
       (<["next_retain_until" := formatAuditTime (olr_RetainUntilDate (orr_Retention req))]> ∅))))).

Definition GetObjectLegalHold (req : ObjectLegalHoldRequest) : M string :=
  fail! ErrInvalidArgument when (olh_BucketID req =s "") || (olh_Key req =s "") ;
  let! target := objectLockTargetLocked (olh_BucketID req) (olh_Key req) (olh_VersionID req) in
  st_ret (ov_ObjectLockLegalHold target.2).

Definition PutObjectLegalHold (req : ObjectLegalHoldRequest) : M unit :=
  fail! ErrInvalidArgument when (olh_BucketID req =s "") || (olh_Key req =s "") ;
  fail! ErrInvalidArgument when negb ((olh_LegalHold req =s ObjectLockLegalHoldOn)
                                      || (olh_LegalHold req =s ObjectLockLegalHoldOff)) ;
  let! target := objectLockTargetLocked (olh_BucketID req) (olh_Key req) (olh_VersionID req) in
  let vkey := target.1 in
  let previous := ov_ObjectLockLegalHold target.2 in
  let version := target.2 <| ov_ObjectLockLegalHold := olh_LegalHold req |> in
  st_modify (fun s => s <| versions := <[vkey := version]> (versions s) |>) ;;!
  updateHeadObjectLockLocked version ;;!
  let! t := now in
  syncProtectedRefsForVersionLocked version t ;;!
  appendAuditEventLocked (transitionAuditEvent (olh_Audit req) AuditActionPutObjectLegalHold
    (olh_BucketID req) (olh_Key req) (ov_VersionID version)
    (<["previous_legal_hold" := previous]> (<["next_legal_hold" := olh_LegalHold req]> ∅))).

End Objects.
