(* ===== verification/RepoMultipart.v ===== *)
(** * RepoMultipart: multipart uploads of the memory repository

    The methods of [src/internal/meta/memory/repository.go] from
    [CreateMultipartUpload] to [CleanupMultipartUploadParts]; the listing of
    uploads is in [RepoListing]. *)

From S2P Require Import Prelude GoLib Sha256 StorageTypes Model Requests Encoding Meta Manifest Repo.
Open Scope string_scope.
Open Scope Z_scope.

Section Multipart.
Context `{Env}.

Definition upload_key (req : MultipartUploadRequest) : uploadKey :=
  mk_uploadKey (mur_BucketID req) (mur_Key req) (mur_UploadID req).

Definition put_upload (key : uploadKey) (upload : MultipartUpload) : M unit :=
  st_modify (fun s => s <| uploads := <[key := upload]> (uploads s) |>).

Definition getUploadLocked (req : MultipartUploadRequest) : M MultipartUpload :=
  fail! ErrInvalidArgument when (mur_BucketID req =s "") || (mur_Key req =s "") || (mur_UploadID req =s "") ;
  lookup_or ErrNotFound (fun s => uploads s !! upload_key req).

Definition getActiveUploadLocked (req : MultipartUploadRequest) : M MultipartUpload :=
  let! upload := getUploadLocked req in
  fail! ErrNotFound when negb (mu_State upload =s MultipartUploadActive) ;
  st_ret upload.

Definition CreateMultipartUpload (req : CreateMultipartUploadRequest) : M MultipartUpload :=
  fail! ErrInvalidArgument when (cmu_BucketID req =s "") || (cmu_Key req =s "") ;
  st_lift (validateObjectLockState (cmu_ObjectLockRetention req) (cmu_ObjectLockLegalHold req)) ;;!
  let! bucket := lookup_or ErrNotFound (fun s => bucketsByID s !! cmu_BucketID req) in
  let! admitted := gets (fun s => checkTenantActiveUploadQuotaLocked s (bk_TenantID bucket)) in
  st_lift admitted ;;!
  let! t := now in
  let! uploadID := nextMultipartUploadIDLocked (cmu_BucketID req) in
  let upload := zero_MultipartUpload <| mu_UploadID := uploadID |> <| mu_BucketID := cmu_BucketID req |>
    <| mu_Key := cmu_Key req |> <| mu_ContentType := cmu_ContentType req |>
    <| mu_StorageClass := cmu_StorageClass req |>
    <| mu_ServerSideEncryption := cmu_ServerSideEncryption req |>
    <| mu_UserMetadata := cmu_UserMetadata req |> <| mu_Tags := cmu_Tags req |>
    <| mu_ObjectLockRetention := cmu_ObjectLockRetention req |>
    <| mu_ObjectLockLegalHold := cmu_ObjectLockLegalHold req |>
    <| mu_State := MultipartUploadActive |> <| mu_CreatedAt := t |> <| mu_UpdatedAt := t |> in
  put_upload (mk_uploadKey (cmu_BucketID req) (cmu_Key req) uploadID) upload ;;!
  applyTenantActiveUploadDeltaLocked (bk_TenantID bucket) 1 t ;;!
  st_ret upload.

Definition GetMultipartUpload (req : MultipartUploadRequest) : M MultipartUpload := getUploadLocked req.

Definition part_upload (key : partKey) : uploadKey := mk_uploadKey (pk_bucketID key) (pk_key key) (pk_uploadID key).

Definition PutMultipartPart (req : PutMultipartPartRequest) : M (MultipartPart * option MultipartPart) :=
  fail! ErrInvalidArgument when (pmp_BucketID req =s "") || (pmp_Key req =s "") || (pmp_UploadID req =s "")
    || (pmp_PartNumber req <? 1) || (MaxMultipartParts <? pmp_PartNumber req) ;
  let uploadReq := mkMultipartUploadRequest (pmp_BucketID req) (pmp_Key req) (pmp_UploadID req) in
  let! upload := getActiveUploadLocked uploadReq in
  let key := mk_partKey (pmp_BucketID req) (pmp_Key req) (pmp_UploadID req) (pmp_PartNumber req) in
  let! previous := gets (fun s => parts s !! key) in
  let! t := now in
  let part := mkMultipartPart (pmp_UploadID req) (pmp_PartNumber req) (pmp_SizeBytes req) (pmp_ETag req)
    (pmp_SegmentRef req) (match previous with Some old => mp_CreatedAt old | None => t end) t in
  st_modify (fun s => s <| parts := <[key := part]> (parts s) |>) ;;!
  put_upload (upload_key uploadReq) (ApplyMultipartPartSummary upload part previous t) ;;!
  st_ret (part, previous).

(** The entries of [parts] that belong to an upload. *)
Definition upload_parts (s : Repository) (req : MultipartUploadRequest) : list (partKey * MultipartPart) :=
  List.filter (fun kv => (pk_bucketID kv.1 =s mur_BucketID req) && (pk_key kv.1 =s mur_Key req)
                         && (pk_uploadID kv.1 =s mur_UploadID req)) (map_to_list (parts s)).

Definition listPartsLocked (s : Repository) (req : MultipartUploadRequest) : list MultipartPart :=
  sort_by (fun a b => mp_PartNumber a <? mp_PartNumber b) (upload_parts s req).*2.

Definition partKeysForCleanupLocked (s : Repository) (req : MultipartUploadRequest) (limit : Z) : list partKey :=
  let keys := sort_by (fun a b => pk_partNumber a <? pk_partNumber b) (upload_parts s req).*1 in
  if (0 <? limit) && (limit <? Z.of_nat (length keys)) then take (Z.to_nat limit) keys else keys.

Definition ListMultipartParts (req : MultipartUploadRequest) : M (list MultipartPart) :=
  getActiveUploadLocked req ;;! gets (fun s => listPartsLocked s req).

Definition GetMultipartParts (req : GetMultipartPartsRequest) : M (list MultipartPart) :=
  fail! ErrInvalidArgument when (gmp_BucketID req =s "") || (gmp_Key req =s "") || (gmp_UploadID req =s "") ;
  st_lift (ValidateMultipartPartNumberSelection (gmp_PartNumbers req)) ;;!
  getActiveUploadLocked (mkMultipartUploadRequest (gmp_BucketID req) (gmp_Key req) (gmp_UploadID req)) ;;!
  gets (fun s => omap (fun n => parts s !! mk_partKey (gmp_BucketID req) (gmp_Key req) (gmp_UploadID req) n)
                      (gmp_PartNumbers req)).

Definition GetMultipartCompletion (req : MultipartUploadRequest) : M MultipartCompletionRecord :=
  lookup_or ErrNotFound (fun s => completions s !! upload_key req).

Definition multipartCompletionMatches (record : MultipartCompletionRecord)
    (req : PrepareMultipartCompletionRequest) : bool :=
  (mcr_BucketID record =s pmc_BucketID req) && (mcr_Key record =s pmc_Key req) &&
  (mcr_UploadID record =s pmc_UploadID req) && (mcr_ObjectVersionID record =s pmc_ObjectVersionID req) &&
  (mcr_ExpectedHeadVersionID record =s pmc_ExpectedHeadVersionID req) &&
  (mcr_ETag record =s pmc_ETag req) && (mcr_SizeBytes record =? pmc_SizeBytes req) &&
  (mcr_PartCount record =? pmc_PartCount req).

Definition PrepareMultipartCompletion (req : PrepareMultipartCompletionRequest) : M MultipartCompletionRecord :=
  fail! ErrInvalidArgument when (pmc_BucketID req =s "") || (pmc_Key req =s "") || (pmc_UploadID req =s "")
    || (pmc_ObjectVersionID req =s "") || (pmc_ETag req =s "") || (pmc_PartCount req <? 1) ;
  let key := mk_uploadKey (pmc_BucketID req) (pmc_Key req) (pmc_UploadID req) in
  let! found := gets (fun s => completions s !! key) in
  match found with
  | Some existing =>
      fail! ErrCASConflict when negb (multipartCompletionMatches existing req) ;
      st_ret existing
  | None =>
      let! upload := getUploadLocked (mkMultipartUploadRequest (pmc_BucketID req) (pmc_Key req) (pmc_UploadID req)) in
      fail! ErrNotFound when negb (mu_State upload =s MultipartUploadActive) ;
      let! t := now in
      let record := mkMultipartCompletionRecord (pmc_BucketID req) (pmc_Key req) (pmc_UploadID req)
        (pmc_ObjectVersionID req) (pmc_ExpectedHeadVersionID req) (pmc_ETag req) (pmc_SizeBytes req)
        (pmc_PartCount req) MultipartCompletionPrepared t t in
      st_modify (fun s => s <| completions := <[key := record]> (completions s) |>) ;;!
      st_ret record
  end.

Definition multipartCompletionStateRank (state : string) : Z :=
  if state =s MultipartCompletionCompleted then 3
  else if state =s MultipartCompletionPublished then 2
  else if state =s MultipartCompletionPrepared then 1
  else 0.

Definition multipartCompletionStateAtLeast (state target : string) : bool :=
  multipartCompletionStateRank target <=? multipartCompletionStateRank state.

Definition markMultipartCompletionState (req : MultipartCompletionStateRequest) (state : string)
    : M MultipartCompletionRecord :=
  let key := mk_uploadKey (mcs_BucketID req) (mcs_Key req) (mcs_UploadID req) in
  let! record := lookup_or ErrNotFound (fun s => completions s !! key) in
  if multipartCompletionStateAtLeast (mcr_State record) state then st_ret record
  else
    let! t := now in
    let record := record <| mcr_State := state |> <| mcr_UpdatedAt := t |> in
    st_modify (fun s => s <| completions := <[key := record]> (completions s) |>) ;;!
    st_ret record.

Definition MarkMultipartCompletionPublished (req : MultipartCompletionStateRequest) : M MultipartCompletionRecord :=
  markMultipartCompletionState req MultipartCompletionPublished.
Definition MarkMultipartCompletionCompleted (req : MultipartCompletionStateRequest) : M MultipartCompletionRecord :=
  markMultipartCompletionState req MultipartCompletionCompleted.

Definition CompleteMultipartUpload (req : CompleteMultipartUploadRequest) : M MultipartUpload :=
  fail! ErrInvalidArgument when (cmp_ObjectVersionID req =s "") || (cmp_ETag req =s "") ;
  let uploadReq := mkMultipartUploadRequest (cmp_BucketID req) (cmp_Key req) (cmp_UploadID req) in
  let! upload := getUploadLocked uploadReq in
  if mu_State upload =s MultipartUploadCompleted then st_ret upload
  else
    fail! ErrNotFound when negb (mu_State upload =s MultipartUploadActive) ;
    st_lift (ValidateCompletedMultipartPartCount (cmp_PartCount req)) ;;!
    let! t := now in
    let upload := upload <| mu_State := MultipartUploadCompleted |>
      <| mu_CompletedVersionID := cmp_ObjectVersionID req |> <| mu_CompletedETag := cmp_ETag req |>
      <| mu_CompletedSizeBytes := cmp_SizeBytes req |> <| mu_CompletedPartCount := cmp_PartCount req |>
      <| mu_CompletedAt := t |> <| mu_PartsCleanupState := MultipartPartsCleanupPending |>
      <| mu_PartsCleanupDeleted := 0 |> <| mu_PartsCleanupUpdatedAt := t |> <| mu_UpdatedAt := t |> in
    put_upload (upload_key uploadReq) upload ;;!
    applyTenantActiveUploadDeltaForBucketLocked (cmp_BucketID req) (-1) t ;;!
    st_ret upload.

Definition AbortMultipartUpload (req : MultipartUploadRequest) : M (list MultipartPart) :=
  let! upload := getUploadLocked req in
  if mu_State upload =s MultipartUploadAborted then gets (fun s => listPartsLocked s req)
  else
    fail! ErrNotFound when negb (mu_State upload =s MultipartUploadActive) ;
    let! removed := gets (fun s => listPartsLocked s req) in
    let! t := now in
    let upload := upload <| mu_State := MultipartUploadAborted |>
      <| mu_PartsCleanupState := MultipartPartsCleanupPending |> <| mu_PartsCleanupDeleted := 0 |>
      <| mu_PartsCleanupUpdatedAt := t |> <| mu_UpdatedAt := t |> in
    put_upload (upload_key req) upload ;;!
    applyTenantActiveUploadDeltaForBucketLocked (mur_BucketID req) (-1) t ;;!
    st_ret removed.

Definition CleanupMultipartUploadParts (req : CleanupMultipartUploadPartsRequest)
    : M CleanupMultipartUploadPartsResult :=
  let uploadReq := mkMultipartUploadRequest (cln_BucketID req) (cln_Key req) (cln_UploadID req) in
  let! upload := getUploadLocked uploadReq in
  fail! ErrInvalidArgument when mu_State upload =s MultipartUploadActive ;
  fail! ErrNotFound when negb ((mu_State upload =s MultipartUploadCompleted)
                               || (mu_State upload =s MultipartUploadAborted)) ;
  let limit := NormalizeMultipartCleanupLimit (cln_Limit req) in
  let! keys := gets (fun s => partKeysForCleanupLocked s uploadReq (limit + 1)) in
  let hasMore := limit <? Z.of_nat (length keys) in
  let keys := if hasMore then take (Z.to_nat limit) keys else keys in
  st_modify (fun s => s <| parts := foldr delete (parts s) keys |>) ;;!
  let! t := now in
  let upload := upload <| mu_PartsCleanupDeleted := int64 (mu_PartsCleanupDeleted upload + Z.of_nat (length keys)) |>
    <| mu_PartsCleanupUpdatedAt := t |> <| mu_UpdatedAt := t |>
    <| mu_PartsCleanupState := if hasMore then MultipartPartsCleanupPending else MultipartPartsCleanupDone |> in
  put_upload (upload_key uploadReq) upload ;;!
  st_ret (mkCleanupMultipartUploadPartsResult upload (Z.of_nat (length keys)) hasMore).

End Multipart.
