(* ===== verification/RepoListing.v ===== *)
(** * RepoListing: the three listings of the memory repository

    [ListObjects], [ListObjectVersions] and [ListMultipartUploads] of
    [src/internal/meta/memory/repository.go] with their entry collectors, orders
    and resume searches. The three entry structs of the source have the same shape
    (a name, whether the entry is a rolled-up common prefix, and a payload that is
    the zero value for a prefix), which is [entry] here. *)

From S2P Require Import Prelude GoLib Sha256 StorageTypes Model Requests Encoding Meta Manifest Repo.
From Stdlib Require Import Sorted.
Open Scope string_scope.
Open Scope Z_scope.

Record entry (A : Type) := mk_entry {
  name : string;
  prefix : bool;
  payload : A
}.
Arguments mk_entry {A}.
Arguments name {A}.
Arguments prefix {A}.
Arguments payload {A}.

(** The common prefix a key rolls up into, if the delimiter occurs after the
    requested prefix. *)
Definition common_prefix (reqPrefix delimiter key : string) : option string :=
  if delimiter =s "" then None
  else
    let rest := TrimPrefix key reqPrefix in
    match Index rest delimiter with
    | Some index => Some (reqPrefix +:+ take_str (index + String.length delimiter) rest)
    | None => None
    end.

(** The loop body of the collectors: a key either becomes an entry or its common
    prefix is recorded once. *)
Fixpoint roll_up {A} (reqPrefix delimiter : string) (zero : A) (commonPrefixes : gset string)
    (l : list (string * A)) : list (entry A) :=
  match l with
  | [] => []
  | (key, a) :: l' =>
      match common_prefix reqPrefix delimiter key with
      | Some p =>
          if bool_decide (p ∈ commonPrefixes) then roll_up reqPrefix delimiter zero commonPrefixes l'
          else mk_entry p true zero :: roll_up reqPrefix delimiter zero ({[p]} ∪ commonPrefixes) l'
      | None => mk_entry key false a :: roll_up reqPrefix delimiter zero commonPrefixes l'
      end
  end.

(** The names of the prefix entries and the payloads of the others. *)
Definition entry_prefixes {A} (l : list (entry A)) : list string :=
  map name (List.filter prefix l).
Definition entry_items {A} (l : list (entry A)) : list A :=
  map payload (List.filter (fun e => negb (prefix e)) l).

(** The page cut from the entries that remain after the marker. *)
Definition page {A} (maxKeys : nat) (l : list A) : list A := take maxKeys l.
Definition truncated {A} (maxKeys : nat) (l : list A) : bool := (maxKeys <? length l)%nat.
Definition last_of {A} (maxKeys : nat) (l : list A) : option A :=
  if truncated maxKeys l then l !! (maxKeys - 1)%nat else None.

Section Listing.
Context `{Env}.

(** ** Objects *)

Definition listEntry_less (a b : entry ObjectHead) : bool :=
  if name a =s name b then negb (prefix a) && prefix b else str_ltb (name a) (name b).

Definition listed_heads (s : Repository) (bucketID reqPrefix : string) : list (string * ObjectHead) :=
  omap (fun kv => if negb (ok_bucketID kv.1 =s bucketID) || oh_DeleteMarker kv.2
                     || negb (HasPrefix (ok_key kv.1) reqPrefix)
                  then None else Some (ok_key kv.1, kv.2)) (map_to_list (heads s)).

Definition listEntries (s : Repository) (req : ListObjectsRequest) : list (entry ObjectHead) :=
  sort_by listEntry_less
    (roll_up (lor_Prefix req) (lor_Delimiter req) zero_ObjectHead ∅
       (listed_heads s (lor_BucketID req) (lor_Prefix req))).

(** [sort.Search] on the sorted entries, then the tail from there. *)
Definition entriesAfter {A} (l : list (entry A)) (token : string) : list (entry A) :=
  drop (sort_search (length l) (fun i => match l !! i with Some e => str_ltb token (name e) | None => true end)) l.

Definition ListObjects (req : ListObjectsRequest) : M ListObjectsResult :=
  fail! ErrInvalidArgument when lor_BucketID req =s "" ;
  let maxKeys := go_limit (lor_MaxKeys req) in
  lookup_or ErrNotFound (fun s => bucketsByID s !! lor_BucketID req) ;;!
  let! entries := gets (fun s => listEntries s req) in
  let entries := if lor_ContinuationToken req =s "" then entries
                 else entriesAfter entries (lor_ContinuationToken req) in
  st_ret (mkListObjectsResult (entry_items (page maxKeys entries)) (entry_prefixes (page maxKeys entries))
            (truncated maxKeys entries) (match last_of maxKeys entries with Some e => name e | None => "" end)).

(** ** Object versions *)

Record versionPayload := mk_versionPayload {
  vp_versionID : string;
  vp_sortKey : string;
  vp_isLatest : bool;
  vp_version : ObjectVersion
}.

Definition versionEntry_less (a b : entry versionPayload) : bool :=
  if name a =s name b then
    if negb (Bool.eqb (prefix a) (prefix b)) then prefix a
    else str_ltb (vp_sortKey (payload b)) (vp_sortKey (payload a))
  else str_ltb (name a) (name b).

Definition listed_versions (s : Repository) (bucketID reqPrefix : string) : list (string * versionPayload) :=
  omap (fun kv => if negb (vk_bucketID kv.1 =s bucketID) || negb (ov_State kv.2 =s ObjectVersionCommitted)
                     || negb (HasPrefix (vk_key kv.1) reqPrefix)
                  then None
                  else Some (vk_key kv.1,
                    let head := default zero_ObjectHead (heads s !! mk_objectKey (vk_bucketID kv.1) (vk_key kv.1)) in
                    mk_versionPayload (ov_VersionID kv.2) (ov_VersionSortKey kv.2)
                      (oh_VersionID head =s ov_VersionID kv.2) kv.2)) (map_to_list (versions s)).

Definition versionEntries (s : Repository) (req : ListObjectVersionsRequest) : list (entry versionPayload) :=
  sort_by versionEntry_less
    (roll_up (lov_Prefix req) (lov_Delimiter req) (mk_versionPayload "" "" false zero_ObjectVersion) ∅
       (listed_versions s (lov_BucketID req) (lov_Prefix req))).

Definition version_marker_pred (keyMarker versionIDMarker : string) (e : entry versionPayload) : bool :=
  if negb (name e =s keyMarker) then str_ltb keyMarker (name e)
  else if versionIDMarker =s "" then str_ltb keyMarker (name e)
  else vp_versionID (payload e) =s versionIDMarker.

Definition versionEntriesAfter (l : list (entry versionPayload)) (keyMarker versionIDMarker : string)
    : list (entry versionPayload) :=
  let index := sort_search (length l)
    (fun i => match l !! i with Some e => version_marker_pred keyMarker versionIDMarker e | None => true end) in
  let index := match l !! index with
               | Some e => if (name e =s keyMarker) && (vp_versionID (payload e) =s versionIDMarker)
                           then S index else index
               | None => index
               end in
  drop index l.

Definition ListObjectVersions (req : ListObjectVersionsRequest) : M ListObjectVersionsResult :=
  fail! ErrInvalidArgument when lov_BucketID req =s "" ;
  let maxKeys := go_limit (lov_MaxKeys req) in
  lookup_or ErrNotFound (fun s => bucketsByID s !! lov_BucketID req) ;;!
  let! entries := gets (fun s => versionEntries s req) in
  let entries := if lov_KeyMarker req =s "" then entries
                 else versionEntriesAfter entries (lov_KeyMarker req) (lov_VersionIDMarker req) in
  let items := entry_items (page maxKeys entries) in
  let out p := mkObjectVersionEntry (vp_version p) (vp_isLatest p) in
  st_ret (mkListObjectVersionsResult
    (map out (List.filter (fun p => negb (ov_DeleteMarker (vp_version p))) items))
    (map out (List.filter (fun p => ov_DeleteMarker (vp_version p)) items))
    (entry_prefixes (page maxKeys entries)) (truncated maxKeys entries)
    (match last_of maxKeys entries with Some e => name e | None => "" end)
    (match last_of maxKeys entries with Some e => vp_versionID (payload e) | None => "" end)).

(** ** Multipart uploads *)

Definition uploadEntry_less (a b : entry (string * MultipartUpload)) : bool :=
  if name a =s name b then
    if negb (Bool.eqb (prefix a) (prefix b)) then prefix a
    else str_ltb (payload a).1 (payload b).1
  else str_ltb (name a) (name b).

Definition listed_uploads (s : Repository) (bucketID reqPrefix : string)
    : list (string * (string * MultipartUpload)) :=
  omap (fun kv => if negb (uk_bucketID kv.1 =s bucketID) || negb (mu_State kv.2 =s MultipartUploadActive)
                     || negb (HasPrefix (uk_key kv.1) reqPrefix)
                  then None else Some (uk_key kv.1, (uk_uploadID kv.1, kv.2))) (map_to_list (uploads s)).

Definition multipartUploadEntries (s : Repository) (req : ListMultipartUploadsRequest)
    : list (entry (string * MultipartUpload)) :=
  sort_by uploadEntry_less
    (roll_up (lmu_Prefix req) (lmu_Delimiter req) ("", zero_MultipartUpload) ∅
       (listed_uploads s (lmu_BucketID req) (lmu_Prefix req))).

Definition upload_marker_pred (keyMarker uploadIDMarker : string) (e : entry (string * MultipartUpload)) : bool :=
  if negb (name e =s keyMarker) then str_ltb keyMarker (name e)
  else if uploadIDMarker =s "" then str_ltb keyMarker (name e)
  else str_ltb uploadIDMarker (payload e).1.

Definition multipartEntriesAfter (l : list (entry (string * MultipartUpload))) (keyMarker uploadIDMarker : string)
    : list (entry (string * MultipartUpload)) :=
  drop (sort_search (length l)
    (fun i => match l !! i with Some e => upload_marker_pred keyMarker uploadIDMarker e | None => true end)) l.

Definition ListMultipartUploads (req : ListMultipartUploadsRequest) : M ListMultipartUploadsResult :=
  fail! ErrInvalidArgument when lmu_BucketID req =s "" ;
  let maxUploads := go_limit (lmu_MaxUploads req) in
  lookup_or ErrNotFound (fun s => bucketsByID s !! lmu_BucketID req) ;;!
  let! entries := gets (fun s => multipartUploadEntries s req) in
  let entries := if lmu_KeyMarker req =s "" then entries
                 else multipartEntriesAfter entries (lmu_KeyMarker req) (lmu_UploadIDMarker req) in
  st_ret (mkListMultipartUploadsResult (map snd (entry_items (page maxUploads entries)))
            (entry_prefixes (page maxUploads entries)) (truncated maxUploads entries)
            (match last_of maxUploads entries with Some e => name e | None => "" end)
            (match last_of maxUploads entries with Some e => (payload e).1 | None => "" end)).

End Listing.
