(* ===== verification/RepoOps.v ===== *)
(** * RepoOps: operational records of the memory repository

    Migration, collection, dedupe, drain and worker records, locks, leases and
    controls, shared-object releases, volume pools and protected-reference listing:
    the methods of [src/internal/meta/memory/repository.go] from
    [PutMetadataMigrationOperation] to [GetWorkerControl]. *)

From S2P Require Import Prelude GoLib Sha256 StorageTypes Model Requests Encoding Meta Manifest Repo RepoBuckets.
Open Scope string_scope.
Open Scope Z_scope.

(** The newest-first scan of an operation log: [limit] records at most, all of
    them when it is not positive or exceeds the log. *)
Definition newest {A} (limit : Z) (keep : A -> bool) (log : list A) : list A :=
  let n := if (limit <=? 0) || (Z.of_nat (length log) <? limit) then length log else Z.to_nat limit in
  take n (List.filter keep (rev log)).

(** A filter field that is not set accepts every value. *)
Definition wants (filter value : string) : bool := (filter =s "") || (value =s filter).

(** [limit] as the listings over a map read it. *)
Definition cap (limit : Z) (size : nat) : nat :=
  if (limit <=? 0) || (Z.of_nat size <? limit) then size else Z.to_nat limit.

Section Ops.
Context `{Env}.

(** ** Migration operations *)

Definition PutMetadataMigrationOperation (req : PutMetadataMigrationOperationRequest)
    : M MetadataMigrationOperationRecord :=
  st_modify (fun s => s <| nextMigrationOpID := int64 (nextMigrationOpID s + 1) |>) ;;!
  let! t := now in
  let! id := gets nextMigrationOpID in
  match BuildMetadataMigrationOperation ("metadata-migration-" +:+ leftPadZeros 20 id) req t with
  | Fail e => st_modify (fun s => s <| nextMigrationOpID := int64 (nextMigrationOpID s - 1) |>) ;;! st_fail e
  | Ok record =>
      let record := CloneMetadataMigrationOperationRecord record in
      st_modify (fun s => s <| migrationOps := (migrationOps s ++ [record])%list |>) ;;! st_ret record
  end.

Definition ListMetadataMigrationOperations (req : ListMetadataMigrationOperationsRequest)
    : M (list MetadataMigrationOperationRecord) :=
  gets (fun s => map CloneMetadataMigrationOperationRecord
    (newest (lmm_Limit req) (fun r => wants (lmm_Status req) (mmor_Status r)) (migrationOps s))).

(** ** Protected references *)

Definition protected_ref_wanted (req : ListProtectedRefsRequest) (t : Time) (ref : ProtectedRef) : bool :=
  wants (lpr_BucketID req) (pr_BucketID ref) && wants (lpr_Key req) (pr_Key ref) &&
  wants (lpr_VersionID req) (pr_VersionID ref) && wants (lpr_SegmentID req) (pr_SegmentID ref) &&
  (negb (lpr_ActiveOnly req) || protectedRefActive ref t).

(** The limit is applied while the map is iterated, before the sort: [order] is
    the iteration order, any permutation of the map's values. *)
Definition ListProtectedRefs (order : list ProtectedRef -> list ProtectedRef)
    (req : ListProtectedRefsRequest) : M (list ProtectedRef) :=
  let! t := now in
  gets (fun s => sort_by (fun a b => str_ltb (pr_RefID a) (pr_RefID b))
    (take (go_limit (lpr_Limit req))
      (List.filter (protected_ref_wanted req t) (order (map_values (protectedRefs s)))))).

(** ** Garbage-collection candidates and operations *)

Definition PutGCCandidate (req : PutGCCandidateRequest) : M GCCandidateRecord :=
  let segmentID := TrimSpace (sr_SegmentID (pgc_SegmentRef req)) in
  let! existing := gets (fun s => default zero_GCCandidateRecord (gcCandidates s !! segmentID)) in
  let! t := now in
  let! record := st_lift (BuildGCCandidate existing req t) in
  st_modify (fun s => s <| gcCandidates := <[gcr_SegmentID record := record]> (gcCandidates s) |>) ;;!
  st_ret record.

Definition gc_candidate_less (a b : GCCandidateRecord) : bool :=
  if gcr_CreatedAt a =? gcr_CreatedAt b then str_ltb (gcr_SegmentID a) (gcr_SegmentID b)
  else gcr_CreatedAt a <? gcr_CreatedAt b.

Definition ListGCCandidates (req : ListGCCandidatesRequest) : M (list GCCandidateRecord) :=
  gets (fun s =>
    let limit := if lgc_Limit req <=? 0 then size (gcCandidates s) else Z.to_nat (lgc_Limit req) in
    take limit (sort_by gc_candidate_less (map_values (gcCandidates s)))).

Definition DeleteGCCandidate (segmentID : string) : M unit :=
  let segmentID := TrimSpace segmentID in
  fail! ErrInvalidArgument when segmentID =s "" ;
  lookup_or ErrNotFound (fun s => gcCandidates s !! segmentID) ;;!
  st_modify (fun s => s <| gcCandidates := delete segmentID (gcCandidates s) |>).

Definition normalizeOperationStatus (status : string) (retryable : Z) : string :=
  if negb (status =s "") then status
  else if 0 <? retryable then GCOperationRetryPending else GCOperationSucceeded.

Definition PutGCOperation (req : PutGCOperationRequest) : M GCOperationRecord :=
  st_modify (fun s => s <| nextGCOpID := int64 (nextGCOpID s + 1) |>) ;;!
  let! id := gets nextGCOpID in
  let! t := now in
  let record := mkGCOperationRecord ("gc-" +:+ leftPadZeros 20 id) (pgo_ResumeOfOperationID req)
    (normalizeOperationStatus (pgo_Status req) (pgo_Retryable req)) (pgo_StartedAt req) (pgo_FinishedAt req)
    (pgo_Scanned req) (pgo_Deleted req) (pgo_Skipped req) (pgo_Retryable req) (pgo_Attempts req) t in
  st_modify (fun s => s <| gcOperations := (gcOperations s ++ [record])%list |>) ;;!
  st_ret record.

Definition ListGCOperations (req : ListGCOperationsRequest) : M (list GCOperationRecord) :=
  gets (fun s => newest (lgo_Limit req) (fun _ => true) (gcOperations s)).

(** ** Dedupe operations and locks *)

Definition PutDedupeOperation (req : PutDedupeOperationRequest) : M DedupeOperationRecord :=
  st_modify (fun s => s <| nextDedupeOpID := int64 (nextDedupeOpID s + 1) |>) ;;!
  let! id := gets nextDedupeOpID in
  let! t := now in
  let record := mkDedupeOperationRecord ("dedupe-" +:+ leftPadZeros 20 id) (pdo_ResumeOfOperationID req)
    (normalizeOperationStatus (pdo_Status req) (pdo_Retryable req)) (pdo_StartedAt req) (pdo_FinishedAt req)
    (pdo_Scanned req) (pdo_Acked req) (pdo_Skipped req) (pdo_Retryable req) (pdo_Attempts req) t in
  st_modify (fun s => s <| dedupeOps := (dedupeOps s ++ [record])%list |>) ;;!
  st_ret record.

Definition ListDedupeOperations (req : ListDedupeOperationsRequest) : M (list DedupeOperationRecord) :=
  gets (fun s => newest (ldo_Limit req) (fun _ => true) (dedupeOps s)).

Definition AcquireDedupeOperationLock (req : AcquireDedupeOperationLockRequest) : M DedupeOperationLock :=
  let lockID := TrimSpace (adl_LockID req) in
  let ownerID := TrimSpace (adl_OwnerID req) in
  fail! ErrInvalidArgument when (lockID =s "") || (ownerID =s "") ;
  fail! ErrInvalidArgument when adl_TTL req <=? 0 ;
  let! t := now in
  let! found := gets (fun s => dedupeLocks s !! lockID) in
  let held := match found with Some existing => t <? dol_ExpiresAt existing | None => false end in
  let mine := match found with Some existing => dol_OwnerID existing =s ownerID | None => false end in
  fail! ErrCASConflict when held && negb mine ;
  let acquiredAt := match found with
                    | Some existing => if mine && held then dol_AcquiredAt existing else t
                    | None => t
                    end in
  let lock := mkDedupeOperationLock lockID ownerID acquiredAt t (t + adl_TTL req) in
  st_modify (fun s => s <| dedupeLocks := <[lockID := lock]> (dedupeLocks s) |>) ;;!
  st_ret lock.

Definition ReleaseDedupeOperationLock (req : ReleaseDedupeOperationLockRequest) : M unit :=
  let lockID := TrimSpace (rdl_LockID req) in
  let ownerID := TrimSpace (rdl_OwnerID req) in
  fail! ErrInvalidArgument when (lockID =s "") || (ownerID =s "") ;
  let! existing := lookup_or ErrNotFound (fun s => dedupeLocks s !! lockID) in
  fail! ErrCASConflict when negb (dol_OwnerID existing =s ownerID) ;
  st_modify (fun s => s <| dedupeLocks := delete lockID (dedupeLocks s) |>).

(** ** Shared-object releases *)

Definition sharedObjectReleaseID (sharedObjectID segmentID : string) : string :=
  sharedObjectID +:+ "/" +:+ segmentID.

Definition PutSharedObjectRelease (req : PutSharedObjectReleaseRequest) : M SharedObjectRelease :=
  let sharedObjectID := TrimSpace (psr_SharedObjectID req) in
  fail! ErrInvalidArgument when sharedObjectID =s "" ;
  let segmentID := TrimSpace (sr_SegmentID (psr_SegmentRef req)) in
  fail! ErrInvalidArgument when segmentID =s "" ;
  let status := if psr_Status req =s "" then SharedObjectReleasePending else psr_Status req in
  let! t := now in
  let key := mk_sharedObjectReleaseKey sharedObjectID segmentID in
  let! found := gets (fun s => default zero_SharedObjectRelease (sharedReleases s !! key)) in
  let release := if srl_ReleaseID found =s ""
    then found <| srl_ReleaseID := sharedObjectReleaseID sharedObjectID segmentID |>
           <| srl_SharedObjectID := sharedObjectID |> <| srl_SegmentID := segmentID |> <| srl_CreatedAt := t |>
    else found in
  let release := release <| srl_SegmentRef := (psr_SegmentRef req) <| sr_SharedObjectID := sharedObjectID |> |>
    <| srl_Reason := if psr_Reason req =s "" then DeleteReasonManualGC else psr_Reason req |>
    <| srl_Status := status |> <| srl_UpdatedAt := t |> in
  st_modify (fun s => s <| sharedReleases := <[key := release]> (sharedReleases s) |>) ;;!
  st_ret release.

Definition ListSharedObjectReleases (req : ListSharedObjectReleasesRequest) : M (list SharedObjectRelease) :=
  gets (fun s => take (cap (lsr_Limit req) (size (sharedReleases s)))
    (sort_by (fun a b => str_ltb (srl_ReleaseID a) (srl_ReleaseID b))
      (List.filter (fun r => wants (lsr_SharedObjectID req) (srl_SharedObjectID r)
                             && wants (lsr_Status req) (srl_Status r)) (map_values (sharedReleases s))))).

(** ** Volume pools and drain operations *)

Definition PutVolumePool (req : PutVolumePoolRequest) : M VolumePool :=
  let! existing := gets (fun s => default zero_VolumePool (volumePools s !! TrimSpace (pvp_PoolID req))) in
  let! t := now in
  let! pool := st_lift (BuildVolumePool existing req t) in
  st_modify (fun s => s <| volumePools := <[vp_PoolID pool := pool]> (volumePools s) |>) ;;!
  st_ret pool.

Definition GetVolumePool (poolID : string) : M VolumePool :=
  lookup_or ErrNotFound (fun s => volumePools s !! TrimSpace poolID).

Definition ListVolumePools (req : ListVolumePoolsRequest) : M (list VolumePool) :=
  gets (fun s => take (cap (lvp_Limit req) (size (volumePools s)))
    (sort_by (fun a b => str_ltb (vp_PoolID a) (vp_PoolID b)) (map_values (volumePools s)))).

Definition PutVolumeDrainOperation (req : PutVolumeDrainOperationRequest) : M VolumeDrainOperationRecord :=
  st_modify (fun s => s <| nextDrainOpID := int64 (nextDrainOpID s + 1) |>) ;;!
  let! t := now in
  let! id := gets nextDrainOpID in
  match BuildVolumeDrainOperation ("drain-" +:+ leftPadZeros 20 id) req t with
  | Fail e => st_modify (fun s => s <| nextDrainOpID := int64 (nextDrainOpID s - 1) |>) ;;! st_fail e
  | Ok record =>
      let record := CloneVolumeDrainOperationRecord record in
      st_modify (fun s => s <| drainOps := (drainOps s ++ [record])%list |>) ;;! st_ret record
  end.

Definition ListVolumeDrainOperations (req : ListVolumeDrainOperationsRequest) : M (list VolumeDrainOperationRecord) :=
  gets (fun s => map CloneVolumeDrainOperationRecord
    (newest (lvd_Limit req) (fun r => wants (lvd_SourceVolumeID req) (vdor_SourceVolumeID r)
       && wants (lvd_TargetVolumeID req) (vdor_TargetVolumeID r) && wants (lvd_Status req) (vdor_Status r))
       (drainOps s))).

(** ** Worker leases, operations and controls *)

Definition AcquireWorkerLease (req : AcquireWorkerLeaseRequest) : M WorkerLease :=
  let leaseID := WorkerLeaseID (awl_WorkerKind req) (awl_ShardID req) in
  let! existing := gets (fun s => default zero_WorkerLease (workerLeases s !! leaseID)) in
  let! t := now in
  let! lease := st_lift (BuildWorkerLease existing req t) in
  st_modify (fun s => s <| workerLeases := <[wl_LeaseID lease := lease]> (workerLeases s) |>) ;;!
  st_ret lease.

Definition ReleaseWorkerLease (req : ReleaseWorkerLeaseRequest) : M unit :=
  let workerKind := TrimSpace (rwl_WorkerKind req) in
  let shardID := TrimSpace (rwl_ShardID req) in
  let leaseID := WorkerLeaseID workerKind shardID in
  let ownerID := TrimSpace (rwl_OwnerID req) in
  fail! ErrInvalidArgument when (workerKind =s "") || (shardID =s "") || (ownerID =s "") ;
  let! existing := lookup_or ErrNotFound (fun s => workerLeases s !! leaseID) in
  fail! ErrCASConflict when negb (wl_OwnerID existing =s ownerID) ;
  let! t := now in
  st_modify (fun s => s <| workerLeases :=
    <[leaseID := existing <| wl_UpdatedAt := t |> <| wl_ExpiresAt := t |>]> (workerLeases s) |>).

Definition ListWorkerLeases (req : ListWorkerLeasesRequest) : M (list WorkerLease) :=
  gets (fun s => take (cap (lwl_Limit req) (size (workerLeases s)))
    (sort_by (fun a b => str_ltb (wl_LeaseID a) (wl_LeaseID b))
      (List.filter (fun l => wants (TrimSpace (lwl_WorkerKind req)) (wl_WorkerKind l)
                             && wants (TrimSpace (lwl_ShardID req)) (wl_ShardID l)) (map_values (workerLeases s))))).

Definition PutWorkerOperation (req : PutWorkerOperationRequest) : M WorkerOperationRecord :=
  let workerKind := TrimSpace (pwo_WorkerKind req) in
  let shardID := TrimSpace (pwo_ShardID req) in
  let ownerID := TrimSpace (pwo_OwnerID req) in
  fail! ErrInvalidArgument when (workerKind =s "") || (shardID =s "") || (ownerID =s "") ;
  st_modify (fun s => s <| nextWorkerOpID := int64 (nextWorkerOpID s + 1) |>) ;;!
  let! id := gets nextWorkerOpID in
  let! t := now in
  let record := mkWorkerOperationRecord ("worker-op-" +:+ leftPadZeros 20 id) workerKind shardID ownerID
    (pwo_LeaseID req) (NormalizeWorkerOperationStatus (pwo_Status req) (pwo_Retryable req))
    (TrimSpace (pwo_Cursor req)) (pwo_Scanned req) (pwo_Processed req) (pwo_Skipped req)
    (pwo_Retryable req) (pwo_LastError req) (pwo_StartedAt req) (pwo_FinishedAt req) t in
  st_modify (fun s => s <| workerOps := (workerOps s ++ [record])%list |>) ;;!
  st_ret record.

Definition ListWorkerOperations (req : ListWorkerOperationsRequest) : M (list WorkerOperationRecord) :=
  gets (fun s => newest (lwo_Limit req) (fun r => wants (lwo_WorkerKind req) (wor_WorkerKind r)
       && wants (lwo_ShardID req) (wor_ShardID r) && wants (lwo_Status req) (wor_Status r)) (workerOps s)).

Definition PutWorkerControl (req : PutWorkerControlRequest) : M WorkerControlRecord :=
  let controlID := WorkerLeaseID (pwc_WorkerKind req) (pwc_ShardID req) in
  let! existing := gets (fun s => default zero_WorkerControlRecord (workerControls s !! controlID)) in
  let! t := now in
  let! record := st_lift (BuildWorkerControl existing req t) in
  st_modify (fun s => s <| workerControls :=
    <[WorkerLeaseID (wcr_WorkerKind record) (wcr_ShardID record) := record]> (workerControls s) |>) ;;!
  st_ret record.

Definition GetWorkerControl (req : GetWorkerControlRequest) : M WorkerControlRecord :=
  let workerKind := TrimSpace (gwc_WorkerKind req) in
  let shardID := TrimSpace (gwc_ShardID req) in
  fail! ErrInvalidArgument when (workerKind =s "") || (shardID =s "") ;
  lookup_or ErrNotFound (fun s => workerControls s !! WorkerLeaseID workerKind shardID).

End Ops.
