(* ===== verification/RepoShared.v ===== *)
(** * RepoShared: shared objects of the memory repository

    Publishing a version as a shared object, attaching versions to it, replacing a
    version's segment references, and the two repair scans
    ([src/internal/meta/memory/repository.go]). *)

From S2P Require Import Prelude GoLib Sha256 StorageTypes Model Requests Encoding Meta Manifest Repo RepoBuckets RepoOps.
Open Scope string_scope.
Open Scope Z_scope.


Definition objectVersionDigest (v : ObjectVersion) : option Digest :=
  let set d := negb (dg_Algorithm d =s "") && negb (dg_Hex d =s "") in
  if set (sr_Digest (ov_SegmentRef v)) then Some (sr_Digest (ov_SegmentRef v))
  else match ov_SegmentRefs v with
       | [ref] => if set (sr_Digest ref) then Some (sr_Digest ref) else None
       | _ => None
       end.

Definition sharedObjectID (tenantID bucketID key : string) (digest : Digest) (sizeBytes : Z) : string :=
  "so-" +:+ sha256_hex_prefix 16 (tenantID +:+ nul +:+ bucketID +:+ nul +:+ key +:+ nul +:+
    ToLower (dg_Algorithm digest) +:+ nul +:+ ToLower (dg_Hex digest) +:+ nul +:+ Itoa sizeBytes).

Definition sharedObjectRefID (sharedObjectID bucketID key versionID : string) : string :=
  "soref-" +:+ sha256_hex_prefix 16 (sharedObjectID +:+ nul +:+ bucketID +:+ nul +:+ key +:+ nul +:+ versionID).

Definition sharedObjectRefFromVersion (shared : SharedObject) (v : ObjectVersion) (now : Time) : SharedObjectRef :=
  mkSharedObjectRef
    (sharedObjectRefID (so_SharedObjectID shared) (ov_BucketID v) (ov_Key v) (ov_VersionID v))
    (so_SharedObjectID shared) (ov_BucketID v) (ov_Key v) (ov_VersionID v) (so_SegmentRefs shared) now now.

Definition objectVersionMatchesSharedObject (v : ObjectVersion) (shared : SharedObject) : bool :=
  (ov_SizeBytes v =? so_SizeBytes shared) &&
  match objectVersionDigest v with
  | None => false
  | Some digest => EqualFold (dg_Algorithm digest) (dg_Algorithm (so_Digest shared)) &&
                   EqualFold (dg_Hex digest) (dg_Hex (so_Digest shared))
  end.

Definition sharedObjectFromVersion (bucket : Bucket) (v : ObjectVersion) (now : Time) : res SharedObject :=
  match objectSegmentRefsFromVersion v with
  | [] => Fail ErrInvalidArgument
  | refs =>
      match objectVersionDigest v with
      | None => Fail ErrInvalidArgument
      | Some digest =>
          let id := sharedObjectID (bk_TenantID bucket) (ov_BucketID v) (ov_Key v) digest (ov_SizeBytes v) in
          Ok (mkSharedObject id (bk_TenantID bucket) (ov_BucketID v) (ov_Key v) (ov_VersionID v)
                (ov_SizeBytes v) digest (ov_StorageClass v)
                (map (fun ref => ref <| sr_SharedObjectID := id |>) refs) 1 0 now now)
      end
  end.

(** The number of distinct active protected references on the segments. *)
Definition sharedObjectProtectedRootCountLocked (s : Repository) (shared : SharedObject) (now : Time) : Z :=
  Z.of_nat (size (list_to_set (C := gset string)
    (map pr_RefID (List.filter (fun ref =>
       existsb (fun seg => negb (sr_SegmentID seg =s "") && (pr_SegmentID ref =s sr_SegmentID seg))
         (so_SegmentRefs shared) && protectedRefActive ref now) (map_values (protectedRefs s)))))).

Section Shared.
Context `{Env}.

(** A committed version that is not a delete marker. *)
Definition live_version (key : versionKey) : M ObjectVersion :=
  let! version := lookup_or ErrNotFound (fun s => versions s !! key) in
  fail! ErrNotFound when negb (ov_State version =s ObjectVersionCommitted) || ov_DeleteMarker version ;
  st_ret version.

Definition put_shared (shared : SharedObject) : M unit :=
  st_modify (fun s => s <| sharedObjects := <[so_SharedObjectID shared := shared]> (sharedObjects s) |>).
Definition put_shared_ref (ref : SharedObjectRef) : M unit :=
  st_modify (fun s => s <| sharedRefs := <[sof_RefID ref := ref]> (sharedRefs s) |>).

Definition PublishSharedObject (req : PublishSharedObjectRequest) : M SharedObject :=
  fail! ErrInvalidArgument when (pso_BucketID req =s "") || (pso_Key req =s "") || (pso_VersionID req =s "") ;
  let! bucket := lookup_or ErrNotFound (fun s => bucketsByID s !! pso_BucketID req) in
  let! version := live_version (mk_versionKey (pso_BucketID req) (pso_Key req) (pso_VersionID req)) in
  let! t := now in
  let! shared := st_lift (sharedObjectFromVersion bucket version t) in
  let! roots := gets (fun s => sharedObjectProtectedRootCountLocked s shared t) in
  let shared := shared <| so_ProtectedRootCount := roots |> in
  let! found := gets (fun s => sharedObjects s !! so_SharedObjectID shared) in
  match found with
  | Some existing =>
      let! roots := gets (fun s => sharedObjectProtectedRootCountLocked s existing t) in
      let existing := existing <| so_ProtectedRootCount := roots |> <| so_UpdatedAt := t |> in
      put_shared existing ;;!
      let ref := sharedObjectRefFromVersion existing version t in
      let! known := gets (fun s => sharedRefs s !! sof_RefID ref) in
      (if is_some known then st_ret tt else put_shared_ref ref) ;;!
      st_ret existing
  | None =>
      put_shared shared ;;!
      put_shared_ref (sharedObjectRefFromVersion shared version (so_CreatedAt shared)) ;;!
      st_ret shared
  end.

Definition GetSharedObject (id : string) : M SharedObject :=
  lookup_or ErrNotFound (fun s => sharedObjects s !! id).

Definition ListSharedObjects (req : ListSharedObjectsRequest) : M (list SharedObject) :=
  gets (fun s => take (cap (lso_Limit req) (size (sharedObjects s)))
    (sort_by (fun a b => str_ltb (so_SharedObjectID a) (so_SharedObjectID b))
      (List.filter (fun o => wants (lso_TenantID req) (so_TenantID o) && wants (lso_BucketID req) (so_BucketID o)
                             && wants (lso_Key req) (so_Key o)) (map_values (sharedObjects s))))).

(** Changes the head when it points at the given version. *)
Definition update_head_of (key : objectKey) (versionID : string) (f : ObjectHead -> ObjectHead) : M unit :=
  let! found := gets (fun s => heads s !! key) in
  match found with
  | Some head => if oh_VersionID head =s versionID then setHeadLocked key (f head) ;;! st_ret tt else st_ret tt
  | None => st_ret tt
  end.

Definition AttachObjectVersionToSharedObject (req : AttachObjectVersionToSharedObjectRequest)
    : M AttachSharedObjectResult :=
  fail! ErrInvalidArgument when (aso_SharedObjectID req =s "") || (aso_BucketID req =s "")
    || (aso_Key req =s "") || (aso_VersionID req =s "") ;
  let! shared := lookup_or ErrNotFound (fun s => sharedObjects s !! aso_SharedObjectID req) in
  fail! ErrInvalidArgument when negb (so_BucketID shared =s aso_BucketID req) || negb (so_Key shared =s aso_Key req) ;
  let key := mk_versionKey (aso_BucketID req) (aso_Key req) (aso_VersionID req) in
  let! version := live_version key in
  let! t0 := now in
  fail! ErrObjectLocked when objectVersionProtectedByObjectLock version t0 false ;
  fail! ErrInvalidArgument when negb (objectVersionMatchesSharedObject version shared) ;
  let! t := now in
  let previousRefs := objectSegmentRefsFromVersion version in
  let version := version <| ov_SegmentRefs := so_SegmentRefs shared |>
    <| ov_SegmentRef := firstSegmentRef (so_SegmentRefs shared) |> <| ov_StorageClass := so_StorageClass shared |> in
  st_modify (fun s => s <| versions := <[key := version]> (versions s) |>) ;;!
  let ref := sharedObjectRefFromVersion shared version t in
  let! known := gets (fun s => sharedRefs s !! sof_RefID ref) in
  let shared := if is_some known then shared else shared <| so_RefCount := int64 (so_RefCount shared + 1) |> in
  let! roots := gets (fun s => sharedObjectProtectedRootCountLocked s shared t) in
  let shared := shared <| so_ProtectedRootCount := roots |> <| so_UpdatedAt := t |> in
  put_shared shared ;;!
  put_shared_ref ref ;;!
  update_head_of (mk_objectKey (aso_BucketID req) (aso_Key req)) (ov_VersionID version)
    (fun head => head <| oh_SegmentRefs := ov_SegmentRefs version |> <| oh_SegmentRef := ov_SegmentRef version |>
                   <| oh_StorageClass := ov_StorageClass version |> <| oh_LastModified := t |>) ;;!
  st_ret (mkAttachSharedObjectResult version shared ref previousRefs).

Definition PublishObjectVersionRefs (req : PublishObjectVersionRefsRequest) : M PublishObjectVersionRefsResult :=
  fail! ErrInvalidArgument when (pvr_BucketID req =s "") || (pvr_Key req =s "") || (pvr_VersionID req =s "") ;
  let refs := pvr_SegmentRefs req in
  fail! ErrInvalidArgument when (length refs =? 0)%nat ;
  let key := mk_versionKey (pvr_BucketID req) (pvr_Key req) (pvr_VersionID req) in
  let! version := live_version key in
  let! t := now in
  fail! ErrObjectLocked when objectVersionProtectedByObjectLock version t false ;
  let previousRefs := objectSegmentRefsFromVersion version in
  fail! ErrInvalidArgument when negb (SegmentRefsContainVolume previousRefs (pvr_ExpectedSourceVolumeID req)) ;
  let version := version <| ov_SegmentRefs := refs |> <| ov_SegmentRef := firstSegmentRef refs |> in
  st_modify (fun s => s <| versions := <[key := version]> (versions s) |>) ;;!
  update_head_of (mk_objectKey (pvr_BucketID req) (pvr_Key req)) (ov_VersionID version)
    (fun head => head <| oh_SegmentRefs := ov_SegmentRefs version |> <| oh_SegmentRef := ov_SegmentRef version |>) ;;!
  st_ret (mkPublishObjectVersionRefsResult version previousRefs).

Definition ListSharedObjectRefs (req : ListSharedObjectRefsRequest) : M (list SharedObjectRef) :=
  gets (fun s => take (cap (lsf_Limit req) (size (sharedRefs s)))
    (sort_by (fun a b => str_ltb (sof_RefID a) (sof_RefID b))
      (List.filter (fun r => wants (lsf_SharedObjectID req) (sof_SharedObjectID r)
         && wants (lsf_BucketID req) (sof_BucketID r) && wants (lsf_Key req) (sof_Key r)
         && wants (lsf_VersionID req) (sof_VersionID r)) (map_values (sharedRefs s))))).

(** ** Repair *)

Definition shared_ref_count (s : Repository) (id : string) : Z :=
  Z.of_nat (length (List.filter (fun ref => sof_SharedObjectID ref =s id) (map_values (sharedRefs s)))).

(** One iteration of the repair loop; the result is the state and whether the
    record was rewritten. *)
Definition repair_shared (t : Time) (s : Repository) (id : string) : Repository * bool :=
  let shared := default zero_SharedObject (sharedObjects s !! id) in
  let refCount := shared_ref_count s id in
  let roots := sharedObjectProtectedRootCountLocked s shared t in
  if (so_RefCount shared =? refCount) && (so_ProtectedRootCount shared =? roots) then (s, false)
  else (s <| sharedObjects := <[id := shared <| so_RefCount := refCount |> <| so_ProtectedRootCount := roots |>
                                        <| so_UpdatedAt := t |>]> (sharedObjects s) |>, true).

Fixpoint repair_all (t : Time) (ids : list string) (s : Repository) : Repository * Z :=
  match ids with
  | [] => (s, 0)
  | id :: ids' =>
      let '(s1, updated) := repair_shared t s id in
      let '(s2, n) := repair_all t ids' s1 in
      (s2, (if updated then 1 else 0) + n)
  end.

Definition RepairSharedObjectRefCounts (req : RepairSharedObjectRefCountsRequest) : M SharedObjectRepairResult :=
  let! limit := gets (fun s => cap (rsc_Limit req) (size (sharedObjects s))) in
  let! t := now in
  let! ids := gets (fun s => take limit (sort_by str_ltb
                (List.filter (wants (rsc_SharedObjectID req)) (map_to_list (sharedObjects s)).*1))) in
  fun s => let '(s', updated) := repair_all t ids s in
           (Ok (mkSharedObjectRepairResult (Z.of_nat (length ids)) updated), s').

(** The memory repository has no list index, so the scan only counts. The
    context-cancelled branch is the caller's. *)
Definition RepairListIndexes (req : RepairListIndexesRequest) : M ListIndexRepairResult :=
  fail! ErrInvalidArgument when rli_BucketID req =s "" ;
  lookup_or ErrNotFound (fun s => bucketsByID s !! rli_BucketID req) ;;!
  let limit := go_limit (rli_Limit req) in
  gets (fun s =>
    let scannedHeads := length (List.filter (fun kv => ok_bucketID kv.1 =s rli_BucketID req) (map_to_list (heads s))) in
    let scannedUploads := length (List.filter (fun kv => uk_bucketID kv.1 =s rli_BucketID req) (map_to_list (uploads s))) in
    mkListIndexRepairResult (Z.of_nat (Nat.min limit scannedHeads)) 0 0 0 0 0
      (Z.of_nat (Nat.min limit scannedUploads)) 0 0 0 0 0).

End Shared.
