(* ===== verification/RepoAudit.v ===== *)
(** * RepoAudit: audit events and the metadata import of the memory repository

    [ListAuditEvents], [PutAdminAuditEvent], [PutAdminAuditEvents] and
    [ImportOperationalMetadata] with its validation
    ([src/internal/meta/memory/repository.go]). *)

From S2P Require Import Prelude GoLib Sha256 StorageTypes Model Requests Encoding Meta Manifest Repo RepoBuckets RepoOps.
Open Scope string_scope.
Open Scope Z_scope.

(** ** The per-list checks of the import

    Each list is scanned once: an empty identifier, a repeated one or one the
    repository already has ends the import. *)
Fixpoint import_scan {A K} `{EqDecision K} (id : A -> K) (bad : A -> bool) (taken : K -> bool) (seen : list K)
    (l : list A) : res unit :=
  match l with
  | [] => Ok tt
  | a :: l' =>
      if bad a then Fail ErrInvalidArgument
      else if bool_decide (id a ∈ seen) then Fail ErrAlreadyExists
      else if taken (id a) then Fail ErrAlreadyExists
      else import_scan id bad taken (id a :: seen) l'
  end.

Definition blank (s : string) : bool := TrimSpace s =s "".

Definition and_then (a b : res unit) : res unit := match a with Ok _ => b | Fail e => Fail e end.

Definition validateOperationalMetadataImportLocked (s : Repository) (req : ImportOperationalMetadataRequest)
    : res unit :=
  and_then (match iom_MetadataSchema req with Some r => ValidateMetadataSchemaRecord r | None => Ok tt end)
  (and_then (import_scan (fun r => TrimSpace (mmor_OperationID r)) (fun r => blank (mmor_OperationID r))
      (fun id => existsb (fun e => mmor_OperationID e =s id) (migrationOps s)) [] (iom_MetadataMigrationOperations req))
  (and_then (import_scan (fun r => TrimSpace (kms_KeyID r)) (fun r => blank (kms_KeyID r))
      (fun id => is_some (kmsKeys s !! id)) [] (iom_KMSKeys req))
  (and_then (import_scan ae_EventID (fun e => blank (ae_EventID e) || blank (ae_EventHash e))
      (fun id => existsb (fun e => ae_EventID e =s id) (auditEvents s)) [] (iom_AuditEvents req))
  (and_then (import_scan gco_OperationID (fun r => blank (gco_OperationID r))
      (fun id => existsb (fun e => gco_OperationID e =s id) (gcOperations s)) [] (iom_GCOperations req))
  (and_then (import_scan dop_OperationID (fun r => blank (dop_OperationID r))
      (fun id => existsb (fun e => dop_OperationID e =s id) (dedupeOps s)) [] (iom_DedupeOperations req))
  (and_then (import_scan so_SharedObjectID (fun o => blank (so_SharedObjectID o))
      (fun id => is_some (sharedObjects s !! id)) [] (iom_SharedObjects req))
  (and_then (import_scan (fun r => mk_sharedObjectReleaseKey (srl_SharedObjectID r) (srl_SegmentID r))
      (fun r => blank (srl_ReleaseID r) || blank (srl_SharedObjectID r) || blank (srl_SegmentID r))
      (fun key => is_some (sharedReleases s !! key)) [] (iom_SharedObjectReleases req))
  (and_then (import_scan (fun p => TrimSpace (vp_PoolID p)) (fun p => blank (vp_PoolID p))
      (fun id => is_some (volumePools s !! id)) [] (iom_VolumePools req))
  (and_then (import_scan (fun r => TrimSpace (vdor_OperationID r)) (fun r => blank (vdor_OperationID r))
      (fun id => existsb (fun e => vdor_OperationID e =s id) (drainOps s)) [] (iom_VolumeDrainOperations req))
  (and_then (import_scan (fun l => TrimSpace (wl_LeaseID l))
      (fun l => blank (wl_LeaseID l) || blank (wl_WorkerKind l) || blank (wl_ShardID l)
                || negb (TrimSpace (wl_LeaseID l) =s
                         WorkerLeaseID (TrimSpace (wl_WorkerKind l)) (TrimSpace (wl_ShardID l))))
      (fun id => is_some (workerLeases s !! id)) [] (iom_WorkerLeases req))
  (import_scan (fun r => TrimSpace (wor_OperationID r)) (fun r => blank (wor_OperationID r))
      (fun id => existsb (fun e => wor_OperationID e =s id) (workerOps s)) [] (iom_WorkerOperations req)))))))))))).

Definition operationalMetadataEmptyLocked (s : Repository) : bool :=
  (size (kmsKeys s) =? 0)%nat && (length (auditEvents s) =? 0)%nat && (length (migrationOps s) =? 0)%nat &&
  (length (gcOperations s) =? 0)%nat && (length (dedupeOps s) =? 0)%nat && (size (sharedObjects s) =? 0)%nat &&
  (size (sharedReleases s) =? 0)%nat && (size (volumePools s) =? 0)%nat && (length (drainOps s) =? 0)%nat &&
  (size (workerLeases s) =? 0)%nat && (length (workerOps s) =? 0)%nat.

Definition numericIDSuffix (id pfx : string) : Z :=
  let suffix := TrimPrefix id pfx in
  if (suffix =s id) || (suffix =s "") then 0 else default 0 (Atoi suffix).

(** The counter after a list of imported identifiers. *)
Definition max_suffix {A} (id : A -> string) (pfx : string) (l : list A) (n : Z) : Z :=
  foldl (fun n a => Z.max n (numericIDSuffix (id a) pfx)) n l.

Definition insert_all {A K} `{Countable K} (key : A -> K) (l : list A) (m : gmap K A) : gmap K A :=
  foldl (fun m a => <[key a := a]> m) m l.

(** The writes of a validated import. *)
Definition import_state (req : ImportOperationalMetadataRequest) (s : Repository) : Repository :=
  let migrations := map CloneMetadataMigrationOperationRecord (iom_MetadataMigrationOperations req) in
  let kms := map (fun r => r <| kms_KeyID := TrimSpace (kms_KeyID r) |>
                             <| kms_State := NormalizeKMSKeyState (kms_State r) |>) (iom_KMSKeys req) in
  let drains := map CloneVolumeDrainOperationRecord (iom_VolumeDrainOperations req) in
  s <| metadataSchema := default (metadataSchema s) (iom_MetadataSchema req) |>
    <| migrationOps := (migrationOps s ++ migrations)%list |>
    <| nextMigrationOpID := max_suffix mmor_OperationID "metadata-migration-" migrations (nextMigrationOpID s) |>
    <| auditEvents := (auditEvents s ++ iom_AuditEvents req)%list |>
    <| auditHeadHash := default (auditHeadHash s) (ae_EventHash <$> last (iom_AuditEvents req)) |>
    <| nextAuditID := max_suffix ae_EventID "audit-" (iom_AuditEvents req) (nextAuditID s) |>
    <| kmsKeys := insert_all kms_KeyID kms (kmsKeys s) |>
    <| gcOperations := (gcOperations s ++ iom_GCOperations req)%list |>
    <| nextGCOpID := max_suffix gco_OperationID "gc-" (iom_GCOperations req) (nextGCOpID s) |>
    <| dedupeOps := (dedupeOps s ++ iom_DedupeOperations req)%list |>
    <| nextDedupeOpID := max_suffix dop_OperationID "dedupe-" (iom_DedupeOperations req) (nextDedupeOpID s) |>
    <| sharedObjects := insert_all so_SharedObjectID (iom_SharedObjects req) (sharedObjects s) |>
    <| sharedReleases := insert_all (fun r => mk_sharedObjectReleaseKey (srl_SharedObjectID r) (srl_SegmentID r))
                           (iom_SharedObjectReleases req) (sharedReleases s) |>
    <| volumePools := insert_all vp_PoolID (iom_VolumePools req) (volumePools s) |>
    <| drainOps := (drainOps s ++ drains)%list |>
    <| nextDrainOpID := max_suffix vdor_OperationID "drain-" drains (nextDrainOpID s) |>
    <| workerLeases := insert_all (fun l => WorkerLeaseID (wl_WorkerKind l) (wl_ShardID l))
                         (iom_WorkerLeases req) (workerLeases s) |>
    <| workerOps := (workerOps s ++ iom_WorkerOperations req)%list |>
    <| nextWorkerOpID := max_suffix wor_OperationID "worker-op-" (iom_WorkerOperations req) (nextWorkerOpID s) |>.

Section Audit.
Context `{Env}.

Definition audit_wanted (req : ListAuditEventsRequest) (e : AuditEvent) : bool :=
  wants (lae_BucketID req) (ae_BucketID e) && wants (lae_Key req) (ae_Key e) && wants (lae_Action req) (ae_Action e).

Definition ListAuditEvents (req : ListAuditEventsRequest) : M (list AuditEvent) :=
  gets (fun s => take (go_limit (lae_Limit req)) (List.filter (audit_wanted req) (auditEvents s))).

(** The event just appended. *)
Definition last_event : M AuditEvent := lookup_or ErrNotFound (fun s => last (auditEvents s)).

Definition put_admin_event (req : PutAdminAuditEventRequest) : M AuditEvent :=
  appendAuditEventLocked (transitionAuditEvent (pae_Audit req) (pae_Action req) (pae_BucketID req)
    (pae_Key req) (pae_VersionID req) (pae_Details req)) ;;!
  last_event.

Definition PutAdminAuditEvent (req : PutAdminAuditEventRequest) : M AuditEvent :=
  fail! ErrInvalidArgument when pae_Action req =s "" ;
  put_admin_event req.

Fixpoint put_admin_events (l : list PutAdminAuditEventRequest) : M (list AuditEvent) :=
  match l with
  | [] => st_ret []
  | req :: l' =>
      let! e := put_admin_event req in
      let! es := put_admin_events l' in
      st_ret (e :: es)
  end.

Definition PutAdminAuditEvents (req : PutAdminAuditEventsRequest) : M (list AuditEvent) :=
  fail! ErrInvalidArgument when existsb (fun e => pae_Action e =s "") (paes_Events req) ;
  put_admin_events (paes_Events req).

Definition ImportOperationalMetadata (req : ImportOperationalMetadataRequest) : M ImportOperationalMetadataResult :=
  let! empty := gets operationalMetadataEmptyLocked in
  fail! ErrAlreadyExists when iom_RequireEmptyTarget req && negb empty ;
  let! valid := gets (fun s => validateOperationalMetadataImportLocked s req) in
  st_lift valid ;;!
  st_modify (import_state req) ;;!
  let len {A} (l : list A) := Z.of_nat (length l) in
  st_ret (mkImportOperationalMetadataResult (if is_some (iom_MetadataSchema req) then 1 else 0)
    (len (iom_MetadataMigrationOperations req)) (len (iom_KMSKeys req)) (len (iom_AuditEvents req))
    (len (iom_GCOperations req)) (len (iom_DedupeOperations req)) (len (iom_SharedObjects req))
    (len (iom_SharedObjectReleases req)) (len (iom_VolumePools req)) (len (iom_VolumeDrainOperations req))
    (len (iom_WorkerLeases req)) (len (iom_WorkerOperations req))).

End Audit.
