(* ===== verification/RepoLogic.v ===== *)
(** * RepoLogic: reasoning about repository operations

    A weakest-precondition calculus for the monad [M], the rules of its primitive
    steps (clock, identifiers, lookups, head and reference updates, the audit
    append), and the tactics that run it: [wp_run] symbolically executes an
    operation, [frame] shows that an operation leaves a projection of the state
    alone. *)

From S2P Require Import Prelude GoLib Sha256 StorageTypes Model Requests Encoding Meta Manifest Repo.
Open Scope string_scope.
Open Scope Z_scope.

Lemma is_some_false {A} (o : option A) : is_some o = false <-> o = None.
Proof. by destruct o. Qed.
Lemma is_some_true {A} (o : option A) : is_some o = true <-> is_Some o.
Proof. destruct o; split; [by eexists | done | done | by intros []]. Qed.

(** ** Weakest preconditions *)

Definition wp {S E A} (m : ST S E A) (Q : outcome E A -> S -> Prop) (s : S) : Prop := Q (m s).1 (m s).2.

Section WpRules.
Context {S E : Type}.
Implicit Types s : S.

Lemma wp_mono {A} (m : ST S E A) (Q Q' : outcome E A -> S -> Prop) s :
  wp m Q s -> (forall o s', Q o s' -> Q' o s') -> wp m Q' s.
Proof. unfold wp. auto. Qed.

Lemma wp_bind {A B} (m : ST S E A) (k : A -> ST S E B) Q s :
  wp m (fun o s' => match o with Ok a => wp (k a) Q s' | Fail e => Q (Fail e) s' end) s ->
  wp (st_bind m k) Q s.
Proof. unfold wp, st_bind. by destruct (m s) as [[] ?]. Qed.

Lemma wp_ret {A} (a : A) (Q : outcome E A -> S -> Prop) s : Q (Ok a) s -> wp (st_ret a) Q s.
Proof. done. Qed.

Lemma wp_fail {A} (e : E) (Q : outcome E A -> S -> Prop) s : Q (Fail e) s -> wp (st_fail e) Q s.
Proof. done. Qed.

Lemma wp_lift {A} (o : outcome E A) (Q : outcome E A -> S -> Prop) s :
  Q o s -> wp (st_lift o) Q s.
Proof. done. Qed.

Lemma wp_modify (f : S -> S) (Q : outcome E unit -> S -> Prop) s : Q (Ok tt) (f s) -> wp (st_modify f) Q s.
Proof. done. Qed.

Lemma wp_if {A} (b : bool) (m1 m2 : ST S E A) Q s :
  (b = true -> wp m1 Q s) -> (b = false -> wp m2 Q s) -> wp (if b then m1 else m2) Q s.
Proof. destruct b; auto. Qed.

Lemma wp_option {A B} (o : option B) (m1 : B -> ST S E A) (m2 : ST S E A) Q s :
  (forall b, o = Some b -> wp (m1 b) Q s) -> (o = None -> wp m2 Q s) ->
  wp (match o with Some b => m1 b | None => m2 end) Q s.
Proof. destruct o; auto. Qed.

Lemma wp_option_r {A B} (o : option B) (m1 : B -> ST S E A) (m2 : ST S E A) Q s :
  (forall b, o = Some b -> wp (m1 b) Q s) -> (o = None -> wp m2 Q s) ->
  wp (match o with None => m2 | Some b => m1 b end) Q s.
Proof. destruct o; auto. Qed.

Lemma wp_exec {A} (m : ST S E A) (P : S -> Prop) s : wp m (fun _ s' => P s') s <-> P (st_exec m s).
Proof. done. Qed.

End WpRules.

Section RepoRules.
Context `{Env}.
Implicit Types s : Repository.

Lemma wp_gets {A} (f : Repository -> A) Q s : Q (Ok (f s)) s -> wp (gets f) Q s.
Proof. done. Qed.

Lemma wp_now Q s :
  Q (Ok (env_now (clock_calls s))) (s <| clock_calls := S (clock_calls s) |>) -> wp now Q s.
Proof. done. Qed.

Lemma wp_lookup_or {A} (e : Err) (f : Repository -> option A) Q s :
  (forall a, f s = Some a -> Q (Ok a) s) -> (f s = None -> Q (Fail e) s) -> wp (lookup_or e f) Q s.
Proof. unfold wp, lookup_or. simpl. destruct (f s); auto. Qed.

(** Drawing identifiers changes nothing but the call counter; the identifier
    returned is one the generator produced and is not taken. *)
Lemma wp_fresh_id attempts kind taken Q s :
  (forall n id, taken (s <| id_calls := n |>) id = false ->
     (exists i, env_newID i kind = Some id) -> Q (Ok id) (s <| id_calls := n |>)) ->
  (forall n, Q (Fail ErrUnavailable) (s <| id_calls := n |>)) ->
  wp (fresh_id attempts kind taken) Q s.
Proof.
  revert s. induction attempts as [|attempts IH]; intros s Hok Hfail; cbn [fresh_id].
  - apply wp_fail. specialize (Hfail (id_calls s)).
    assert (s <| id_calls := id_calls s |> = s) as <- by (by destruct s). done.
  - apply wp_bind. unfold wp at 1, NewID. simpl.
    destruct (env_newID (id_calls s) kind) as [id|] eqn:Hid; [|apply Hfail].
    apply wp_bind, wp_gets. apply wp_if; intros Hu.
    + apply IH; intros n; [intros id' Ht Hi; by apply (Hok n id') | by apply (Hfail n)].
    + apply wp_ret. apply Hok; eauto.
Qed.

Lemma wp_setHeadLocked key head Q s :
  (let head' := head <| oh_Revision := nextObjectHeadRevision (heads s !! key) |> in
   Q (Ok head') (s <| heads := <[key := head']> (heads s) |>)) ->
  wp (setHeadLocked key head) Q s.
Proof. done. Qed.

End RepoRules.

(** Runs the primitive steps; a test or a lookup splits the goal. *)
Ltac wp_step :=
  lazymatch goal with
  | |- wp (st_bind _ _) _ _ => apply wp_bind
  | |- wp (st_ret _) _ _ => apply wp_ret
  | |- wp (st_fail _) _ _ => apply wp_fail
  | |- wp (st_lift _) _ _ => apply wp_lift
  | |- wp (st_modify _) _ _ => apply wp_modify
  | |- wp (gets _) _ _ => apply wp_gets
  | |- wp wall _ _ => apply wp_gets
  | |- wp now _ _ => apply wp_now
  | |- wp (lookup_or _ _) _ _ => apply wp_lookup_or; [intros ? ? | intros ?]
  | |- wp (fresh_id _ _ _) _ _ => apply wp_fresh_id; [intros ? ? ? ? | intros ?]
  | |- wp (setHeadLocked _ _) _ _ => apply wp_setHeadLocked
  | |- wp (if _ then _ else _) _ _ => apply wp_if; intros ?
  | |- wp (match _ with Some _ => _ | None => _ end) _ _ => apply wp_option; [intros ? ? | intros ?]
  | |- match ?o with Ok _ => _ | Fail _ => _ end => first [ progress cbv beta iota | destruct o eqn:? ]
  | |- _ => progress cbv beta zeta
  end.

(** ** Frames *)

(** [m] leaves the projection [f] of the state unchanged. *)
Definition frames {S E A B} (f : S -> B) (m : ST S E A) : Prop :=
  preserves (fun s s' => f s' = f s) m.

#[export] Instance frame_rel_refl {S B} (f : S -> B) : Reflexive (fun s s' => f s' = f s).
Proof. by intros ?. Qed.
#[export] Instance frame_rel_trans {S B} (f : S -> B) : Transitive (fun s s' => f s' = f s).
Proof. intros a b c Hab Hbc. congruence. Qed.

Section FrameRules.
Context `{Env} {B : Type} (f : Repository -> B).

Lemma frames_bind {A C} (m : M A) (k : A -> M C) :
  frames f m -> (forall a, frames f (k a)) -> frames f (st_bind m k).
Proof. apply preserves_bind; tc_solve. Qed.

Lemma frames_ret {A} (a : A) : frames f (st_ret (E := Err) a).
Proof. by intros s. Qed.
Lemma frames_fail {A} (e : Err) : frames f (st_fail (A := A) e).
Proof. by intros s. Qed.
Lemma frames_lift {A} (o : res A) : frames f (st_lift o).
Proof. by intros s. Qed.
Lemma frames_gets {A} (g : Repository -> A) : frames f (gets g).
Proof. by intros s. Qed.
Lemma frames_lookup_or {A} e (g : Repository -> option A) : frames f (lookup_or e g).
Proof. by intros s. Qed.
Lemma frames_modify (g : Repository -> Repository) :
  (forall s, f (g s) = f s) -> frames f (st_modify (E := Err) g).
Proof. done. Qed.
Lemma frames_now : (forall s n, f (s <| clock_calls := n |>) = f s) -> frames f now.
Proof. intros Hf s. apply Hf. Qed.
Lemma frames_fresh_id attempts kind taken :
  (forall s n, f (s <| id_calls := n |>) = f s) -> frames f (fresh_id attempts kind taken).
Proof.
  intros Hf s. change (wp (fresh_id attempts kind taken) (fun _ s' => f s' = f s) s).
  apply wp_fresh_id; intros; apply Hf.
Qed.

Lemma frames_append event :
  (forall s a, f (s <| nextAuditID := a |>) = f s) -> (forall s n, f (s <| clock_calls := n |>) = f s) ->
  (forall s h l, f (s <| auditHeadHash := h |> <| auditEvents := l |>) = f s) ->
  frames f (appendAuditEventLocked event).
Proof.
  intros H1 H2 H3. unfold appendAuditEventLocked. apply frames_bind; [apply frames_modify; intros; apply H1|intros _].
  apply frames_bind; [by apply frames_now|intros t]. apply frames_modify. intros s. apply H3.
Qed.

End FrameRules.

(** Leaves of a frame proof: the projection does not mention the written field.
    An update chosen by a test is split first. *)
Ltac frame_leaf :=
  intros; cbv beta zeta;
  repeat match goal with
         | |- ?f (if ?b then _ else _) = _ => destruct b
         | |- ?f (match ?o with _ => _ end) = _ => destruct o
         end;
  reflexivity.

Create HintDb frames.

Ltac head_of t := lazymatch t with ?f _ => head_of f | _ => t end.

(** Replaces the operation at hand by its body. *)
Ltac unfold_head m := let h := head_of m in unfold h.

(** Walks an operation; [frames] holds the lemmas of the shared helpers. *)
Ltac frame_step :=
  lazymatch goal with
  | |- frames _ (st_bind _ _) => apply frames_bind; [|intros ?]
  | |- frames _ (st_ret _) => apply frames_ret
  | |- frames _ (st_fail _) => apply frames_fail
  | |- frames _ (st_lift _) => apply frames_lift
  | |- frames _ (gets _) => apply frames_gets
  | |- frames _ (lookup_or _ _) => apply frames_lookup_or
  | |- frames _ now => apply frames_now; [frame_leaf]
  | |- frames _ (fresh_id _ _ _) => apply frames_fresh_id; [frame_leaf]
  | |- frames _ (st_modify _) => apply frames_modify; [frame_leaf]
  | |- frames _ (appendAuditEventLocked _) => apply frames_append; [frame_leaf..]
  | |- frames _ (let _ := _ in _) => cbv beta zeta
  | |- frames _ (if ?b then _ else _) => destruct b
  | |- frames _ (match ?o with _ => _ end) => destruct o
  | |- frames _ ?m => first [solve [eauto 3 with frames nocore] | unfold_head m]
  end.
Ltac frame := repeat frame_step.

(** ** Preserved relations *)

Create HintDb preserves.

(** As [frame], for a reflexive and transitive relation; [leaf] closes the steps
    that are neither a bind nor a test. *)
Ltac walk_step leaf :=
  lazymatch goal with
  | |- preserves _ (st_bind _ _) => apply preserves_bind; [tc_solve | |intros ?]
  | |- preserves _ (st_ret _) => apply preserves_ret; tc_solve
  | |- preserves _ (st_fail _) => apply preserves_fail; tc_solve
  | |- preserves _ (st_lift _) => apply preserves_lift; tc_solve
  | |- preserves _ (let _ := _ in _) => cbv beta zeta
  | |- preserves _ (if ?b then _ else _) => destruct b
  | |- preserves _ (match ?o with _ => _ end) => destruct o
  | |- preserves _ ?m => first [solve [eauto 3 with preserves nocore] | solve [leaf] | unfold_head m]
  end.
Ltac walk leaf := repeat walk_step leaf.

(** The relation of an invariant. *)
Definition keeps {S} (P : S -> Prop) (s s' : S) : Prop := P s -> P s'.
#[export] Instance keeps_refl {S} (P : S -> Prop) : Reflexive (keeps P).
Proof. intros s Hs. exact Hs. Qed.
#[export] Instance keeps_trans {S} (P : S -> Prop) : Transitive (keeps P).
Proof. intros a b c H1 H2 H3. by apply H2, H1. Qed.

(** An operation that frames what the invariant is about keeps it. *)
Lemma frames_keeps {B A} `{Env} (f : Repository -> B) (P : Repository -> Prop) (m : M A) :
  (forall s s', f s' = f s -> P s -> P s') -> frames f m -> preserves (keeps P) m.
Proof. intros HP Hm s Hs. by apply (HP s), Hs. Qed.
