(* ===== verification/RepoCalls.v ===== *)
(** * RepoCalls: sequences of repository calls

    [call] has one constructor per method of the memory repository that changes
    its state; [run] is that method with its result dropped. The read-only methods
    leave the state as it is. [reachable] are the states a fresh repository can be
    brought to. *)

From S2P Require Import Prelude GoLib StorageTypes Model Requests Meta Repo RepoLogic.
From S2P Require Import RepoBuckets RepoObjects RepoMultipart RepoOps RepoShared RepoAudit.

Inductive call :=
| C_PutMetadataSchema (req : PutMetadataSchemaRequest)
| C_CreateTenant (req : CreateTenantRequest)
| C_PutTenantQuota (req : TenantQuotaRequest)
| C_DeleteTenantQuota (tenantID : string)
| C_PutTenantUsage (req : TenantUsageRequest)
| C_PutAccessKey (req : PutAccessKeyRequest)
| C_PutKMSKey (req : PutKMSKeyRequest)
| C_PutComplianceProfileAttachment (req : PutComplianceProfileAttachmentRequest)
| C_CreateBucket (req : CreateBucketRequest)
| C_PutBucketVersioning (req : PutBucketVersioningRequest)
| C_PutBucketCORS (req : BucketCORSRequest)
| C_DeleteBucketCORS (bucketID : string)
| C_PutBucketLifecycle (req : BucketLifecycleRequest)
| C_DeleteBucketLifecycle (bucketID : string) (audit : AuditContext)
| C_PutBucketEncryption (req : BucketEncryptionRequest)
| C_DeleteBucketEncryption (bucketID : string) (audit : AuditContext)
| C_PutBucketQuota (req : BucketQuotaRequest)
| C_DeleteBucketQuota (bucketID : string)
| C_PutBucketPolicy (req : BucketPolicyRequest)
| C_DeleteBucketPolicy (bucketID : string) (audit : AuditContext)
| C_PutBucketObjectLock (req : BucketObjectLockRequest)
| C_DeleteBucket (bucketID : string)
| C_BeginPutObject (req : BeginPutObjectRequest)
| C_CommitObjectVersion (req : CommitObjectVersionRequest)
| C_PutObjectVersion (req : BeginPutObjectRequest)
| C_DeleteObject (req : DeleteObjectRequest)
| C_PutObjectTags (req : ObjectTagsRequest)
| C_DeleteObjectTags (req : ObjectTagsRequest)
| C_PutObjectRetention (req : ObjectRetentionRequest)
| C_PutObjectLegalHold (req : ObjectLegalHoldRequest)
| C_PutAdminAuditEvent (req : PutAdminAuditEventRequest)
| C_PutAdminAuditEvents (req : PutAdminAuditEventsRequest)
| C_ImportOperationalMetadata (req : ImportOperationalMetadataRequest)
| C_PutMetadataMigrationOperation (req : PutMetadataMigrationOperationRequest)
| C_ListProtectedRefs (order : list ProtectedRef -> list ProtectedRef) (req : ListProtectedRefsRequest)
| C_PutGCCandidate (req : PutGCCandidateRequest)
| C_DeleteGCCandidate (segmentID : string)
| C_PutGCOperation (req : PutGCOperationRequest)
| C_PutDedupeOperation (req : PutDedupeOperationRequest)
| C_AcquireDedupeOperationLock (req : AcquireDedupeOperationLockRequest)
| C_ReleaseDedupeOperationLock (req : ReleaseDedupeOperationLockRequest)
| C_PutSharedObjectRelease (req : PutSharedObjectReleaseRequest)
| C_PutVolumePool (req : PutVolumePoolRequest)
| C_PutVolumeDrainOperation (req : PutVolumeDrainOperationRequest)
| C_AcquireWorkerLease (req : AcquireWorkerLeaseRequest)
| C_ReleaseWorkerLease (req : ReleaseWorkerLeaseRequest)
| C_PutWorkerOperation (req : PutWorkerOperationRequest)
| C_PutWorkerControl (req : PutWorkerControlRequest)
| C_PublishSharedObject (req : PublishSharedObjectRequest)
| C_AttachObjectVersionToSharedObject (req : AttachObjectVersionToSharedObjectRequest)
| C_PublishObjectVersionRefs (req : PublishObjectVersionRefsRequest)
| C_RepairSharedObjectRefCounts (req : RepairSharedObjectRefCountsRequest)
| C_CreateMultipartUpload (req : CreateMultipartUploadRequest)
| C_PutMultipartPart (req : PutMultipartPartRequest)
| C_PrepareMultipartCompletion (req : PrepareMultipartCompletionRequest)
| C_MarkMultipartCompletionPublished (req : MultipartCompletionStateRequest)
| C_MarkMultipartCompletionCompleted (req : MultipartCompletionStateRequest)
| C_CompleteMultipartUpload (req : CompleteMultipartUploadRequest)
| C_AbortMultipartUpload (req : MultipartUploadRequest)
| C_CleanupMultipartUploadParts (req : CleanupMultipartUploadPartsRequest).

Section Calls.
Context `{Env}.

(** The final state of a method, its result dropped. *)
Definition discard {A} (m : M A) : M unit := let! _ := m in st_ret tt.

Definition run (c : call) : M unit :=
  match c with
  | C_PutMetadataSchema req => discard (PutMetadataSchema req)
  | C_CreateTenant req => discard (CreateTenant req)
  | C_PutTenantQuota req => discard (PutTenantQuota req)
  | C_DeleteTenantQuota tenantID => discard (DeleteTenantQuota tenantID)
  | C_PutTenantUsage req => discard (PutTenantUsage req)
  | C_PutAccessKey req => discard (PutAccessKey req)
  | C_PutKMSKey req => discard (PutKMSKey req)
  | C_PutComplianceProfileAttachment req => discard (PutComplianceProfileAttachment req)
  | C_CreateBucket req => discard (CreateBucket req)
  | C_PutBucketVersioning req => discard (PutBucketVersioning req)
  | C_PutBucketCORS req => discard (PutBucketCORS req)
  | C_DeleteBucketCORS bucketID => discard (DeleteBucketCORS bucketID)
  | C_PutBucketLifecycle req => discard (PutBucketLifecycle req)
  | C_DeleteBucketLifecycle bucketID audit => discard (DeleteBucketLifecycle bucketID audit)
  | C_PutBucketEncryption req => discard (PutBucketEncryption req)
  | C_DeleteBucketEncryption bucketID audit => discard (DeleteBucketEncryption bucketID audit)
  | C_PutBucketQuota req => discard (PutBucketQuota req)
  | C_DeleteBucketQuota bucketID => discard (DeleteBucketQuota bucketID)
  | C_PutBucketPolicy req => discard (PutBucketPolicy req)
  | C_DeleteBucketPolicy bucketID audit => discard (DeleteBucketPolicy bucketID audit)
  | C_PutBucketObjectLock req => discard (PutBucketObjectLock req)
  | C_DeleteBucket bucketID => discard (DeleteBucket bucketID)
  | C_BeginPutObject req => discard (BeginPutObject req)
  | C_CommitObjectVersion req => discard (CommitObjectVersion req)
  | C_PutObjectVersion req => discard (PutObjectVersion req)
  | C_DeleteObject req => discard (DeleteObject req)
  | C_PutObjectTags req => discard (PutObjectTags req)
  | C_DeleteObjectTags req => discard (DeleteObjectTags req)
  | C_PutObjectRetention req => discard (PutObjectRetention req)
  | C_PutObjectLegalHold req => discard (PutObjectLegalHold req)
  | C_PutAdminAuditEvent req => discard (PutAdminAuditEvent req)
  | C_PutAdminAuditEvents req => discard (PutAdminAuditEvents req)
  | C_ImportOperationalMetadata req => discard (ImportOperationalMetadata req)
  | C_PutMetadataMigrationOperation req => discard (PutMetadataMigrationOperation req)
  | C_ListProtectedRefs order req => discard (ListProtectedRefs order req)
  | C_PutGCCandidate req => discard (PutGCCandidate req)
  | C_DeleteGCCandidate segmentID => discard (DeleteGCCandidate segmentID)
  | C_PutGCOperation req => discard (PutGCOperation req)
  | C_PutDedupeOperation req => discard (PutDedupeOperation req)
  | C_AcquireDedupeOperationLock req => discard (AcquireDedupeOperationLock req)
  | C_ReleaseDedupeOperationLock req => discard (ReleaseDedupeOperationLock req)
  | C_PutSharedObjectRelease req => discard (PutSharedObjectRelease req)
  | C_PutVolumePool req => discard (PutVolumePool req)
  | C_PutVolumeDrainOperation req => discard (PutVolumeDrainOperation req)
  | C_AcquireWorkerLease req => discard (AcquireWorkerLease req)
  | C_ReleaseWorkerLease req => discard (ReleaseWorkerLease req)
  | C_PutWorkerOperation req => discard (PutWorkerOperation req)
  | C_PutWorkerControl req => discard (PutWorkerControl req)
  | C_PublishSharedObject req => discard (PublishSharedObject req)
  | C_AttachObjectVersionToSharedObject req => discard (AttachObjectVersionToSharedObject req)
  | C_PublishObjectVersionRefs req => discard (PublishObjectVersionRefs req)
  | C_RepairSharedObjectRefCounts req => discard (RepairSharedObjectRefCounts req)
  | C_CreateMultipartUpload req => discard (CreateMultipartUpload req)
  | C_PutMultipartPart req => discard (PutMultipartPart req)
  | C_PrepareMultipartCompletion req => discard (PrepareMultipartCompletion req)
  | C_MarkMultipartCompletionPublished req => discard (MarkMultipartCompletionPublished req)
  | C_MarkMultipartCompletionCompleted req => discard (MarkMultipartCompletionCompleted req)
  | C_CompleteMultipartUpload req => discard (CompleteMultipartUpload req)
  | C_AbortMultipartUpload req => discard (AbortMultipartUpload req)
  | C_CleanupMultipartUploadParts req => discard (CleanupMultipartUploadParts req)
  end.

(** One call, whatever it returns. *)
Definition step (s s' : Repository) : Prop := exists c, s' = st_exec (run c) s.

Definition reachable : Repository -> Prop := rtc step NewWithClock.

Definition run_all (l : list call) (s : Repository) : Repository :=
  foldl (fun s c => st_exec (run c) s) s l.

Lemma exec_discard {A} (m : M A) s : st_exec (discard m) s = st_exec m s.
Proof. unfold discard, st_exec, st_bind. by destruct (m s) as [[] ?]. Qed.

Lemma run_all_steps l s : rtc step s (run_all l s).
Proof.
  revert s. induction l as [|c l IH]; intros s; [constructor|].
  simpl. eapply rtc_l; [by exists c | apply IH].
Qed.

(** Rule induction over calls: an invariant of the fresh repository that every
    call preserves holds in every reachable state. *)
Lemma reachable_ind (I : Repository -> Prop) :
  I NewWithClock -> (forall c s, I s -> I (st_exec (run c) s)) -> forall s, reachable s -> I s.
Proof.
  intros H0 Hstep s Hs. revert H0. unfold reachable in Hs.
  induction Hs as [|x y z [c ->] _ IH]; auto.
Qed.

Lemma frames_discard {A B} (f : Repository -> B) (m : M A) : frames f m -> frames f (discard m).
Proof. intros Hm s. rewrite exec_discard. apply Hm. Qed.

Lemma frames_repair_all {B} (f : Repository -> B) t ids s :
  (forall s m, f (s <| sharedObjects := m |>) = f s) -> f (repair_all t ids s).1 = f s.
Proof.
  intros Hf. revert s. induction ids as [|id ids IH]; intros s; [done|]. cbn [repair_all].
  unfold repair_shared. destruct (_ && _); cbv zeta beta iota.
  - specialize (IH s). by destruct (repair_all t ids s).
  - set (s1 := s <| sharedObjects := _ |>). specialize (IH s1).
    destruct (repair_all t ids s1). simpl in *. rewrite IH. apply Hf.
Qed.

Lemma frames_repair {B} (f : Repository -> B) req :
  (forall s m, f (s <| sharedObjects := m |>) = f s) ->
  (forall s n, f (s <| clock_calls := n |>) = f s) ->
  frames f (RepairSharedObjectRefCounts req).
Proof.
  intros Hf Hc. unfold RepairSharedObjectRefCounts. apply frames_bind; [apply frames_gets|intros ?].
  apply frames_bind; [by apply frames_now|intros t]. apply frames_bind; [apply frames_gets|intros ids].
  intros s. unfold st_exec. pose proof (frames_repair_all f t ids s Hf) as Hr.
  by destruct (repair_all t ids s).
Qed.

Lemma frames_put_admin_events {B} (f : Repository -> B) l :
  (forall s a, f (s <| nextAuditID := a |>) = f s) -> (forall s n, f (s <| clock_calls := n |>) = f s) ->
  (forall s h l, f (s <| auditHeadHash := h |> <| auditEvents := l |>) = f s) ->
  frames f (put_admin_events l).
Proof.
  intros H1 H2 H3. induction l as [|req l IH]; cbn [put_admin_events]; [apply frames_ret|].
  apply frames_bind; [apply frames_bind; [by apply frames_append | intros; apply frames_lookup_or] |intros e].
  apply frames_bind; [done|intros es; apply frames_ret].
Qed.

End Calls.

#[export] Hint Extern 1 (frames _ (RepairSharedObjectRefCounts _)) => apply frames_repair; frame_leaf : frames.
#[export] Hint Extern 1 (frames _ (put_admin_events _)) => apply frames_put_admin_events; frame_leaf : frames.
