(* ===== verification/AuditChain.v ===== *)
(** * AuditChain: the audit log is an append-only hash chain

    Every event stored by the repository carries the hash of its predecessor and
    its own hash over all other fields; no call removes or rewrites an event. *)

From S2P Require Import Prelude GoLib Sha256 StorageTypes Model Requests Encoding Meta Manifest Repo RepoLogic.
From S2P Require Import RepoBuckets RepoObjects RepoMultipart RepoListing RepoOps RepoShared RepoAudit RepoCalls.
Open Scope string_scope.

(** [l] is a valid continuation of a log whose head hash is [prev], and ends in
    head hash [h]. *)
Fixpoint chain (prev : string) (l : list AuditEvent) (h : string) : Prop :=
  match l with
  | [] => prev = h
  | e :: l' => ae_PreviousHash e = prev /\ ae_EventHash e = auditEventHash e /\ chain (ae_EventHash e) l' h
  end.

Lemma chain_app prev l1 l2 h1 h2 : chain prev l1 h1 -> chain h1 l2 h2 -> chain prev (l1 ++ l2) h2.
Proof.
  revert prev. induction l1 as [|e l1 IH]; intros prev H1 H2; simpl in *; [by subst|].
  destruct H1 as (? & ? & ?). auto.
Qed.

Definition audit_view (s : Repository) : string * list AuditEvent := (auditHeadHash s, auditEvents s).

(** The log of [s'] extends the log of [s] by chained events. *)
Definition log_extends (s s' : Repository) : Prop :=
  exists l, auditEvents s' = (auditEvents s ++ l)%list /\ chain (auditHeadHash s) l (auditHeadHash s').

#[export] Instance log_extends_refl : Reflexive log_extends.
Proof. intros s. exists []. by rewrite app_nil_r. Qed.
#[export] Instance log_extends_trans : Transitive log_extends.
Proof.
  intros a b c (l1 & E1 & C1) (l2 & E2 & C2). exists (l1 ++ l2)%list.
  rewrite E2, E1. split; [by rewrite app_assoc | by eapply chain_app].
Qed.

Section Chain.
Context `{Env}.

(** The hash covers every field but the hash itself. *)
Lemma auditEventHash_set e h : auditEventHash (e <| ae_EventHash := h |>) = auditEventHash e.
Proof. reflexivity. Qed.

Lemma append_extends event : preserves log_extends (appendAuditEventLocked event).
Proof.
  intros s. unfold appendAuditEventLocked. apply wp_exec.
  repeat wp_step.
  eexists [_]. field_simpl. split; [reflexivity|]. unfold sealed_event.
  simpl. rewrite auditEventHash_set. done.
Qed.

Lemma frames_extends {A} (m : M A) : frames audit_view m -> preserves log_extends m.
Proof.
  intros Hm s. specialize (Hm s). unfold audit_view in Hm. simplify_eq.
  exists []. rewrite app_nil_r. simpl. split; congruence.
Qed.

Lemma put_admin_events_extends l : preserves log_extends (put_admin_events l).
Proof.
  induction l as [|req l IH]; cbn [put_admin_events]; walk ltac:(first [apply append_extends | solve [apply frames_extends; frame] | apply IH]).
Qed.

Lemma chain_head prev l h : chain prev l h -> h = default prev (ae_EventHash <$> last l).
Proof.
  revert prev. induction l as [|e l IH]; intros prev; simpl; [done|].
  intros (_ & _ & Hc). rewrite (IH _ Hc). change (match l with [] => Some e | _ => last l end) with (last (e :: l)).
  rewrite last_cons. by destruct (last l).
Qed.

Lemma calls_extend (c : call) :
  (forall req, c <> C_ImportOperationalMetadata req) -> preserves log_extends (run c).
Proof.
  intros Hc. destruct c; try (by destruct (Hc req)); cbn [run].
  all: walk ltac:(first [apply append_extends | apply put_admin_events_extends
         | solve [apply frames_extends; frame]]).
Qed.

(** The events an import brings continue the log it is applied to; every other
    call writes its events itself. *)
Definition chained_import (s : Repository) (c : call) : Prop :=
  match c with
  | C_ImportOperationalMetadata req => exists h, chain (auditHeadHash s) (iom_AuditEvents req) h
  | _ => True
  end.

Lemma import_extends req s :
  chained_import s (C_ImportOperationalMetadata req) ->
  log_extends s (st_exec (run (C_ImportOperationalMetadata req)) s).
Proof.
  intros [h Hh]. pose proof (chain_head _ _ _ Hh) as ->. cbn [run]. rewrite exec_discard.
  unfold ImportOperationalMetadata. apply wp_exec. repeat wp_step; try reflexivity.
  exists (iom_AuditEvents req). split; [reflexivity | exact Hh].
Qed.

(** The audit log is an append-only hash chain: every call extends it by events
    chained to the previous head, and removes or rewrites none. *)
Lemma audit_log_extends (c : call) (s : Repository) :
  chained_import s c -> log_extends s (st_exec (run c) s).
Proof.
  intros Hc. destruct c; try (apply calls_extend; congruence). by apply import_extends.
Qed.

(** A run whose imports are chained. *)
Inductive chained_run : list call -> Repository -> Prop :=
| chained_nil s : chained_run [] s
| chained_cons c l s : chained_import s c -> chained_run l (st_exec (run c) s) -> chained_run (c :: l) s.

Lemma chained_run_extends l s : chained_run l s -> log_extends s (run_all l s).
Proof.
  induction 1 as [s|c l s Hc _ IH]; [reflexivity|]. simpl. etrans; [by apply audit_log_extends | done].
Qed.

End Chain.
