(* ===== verification/ObjRules.v ===== *)
(** * ObjRules: the rules of the object helpers

    What the shared helpers of the object operations do to the state, as rules of
    the calculus of [RepoLogic]. *)

From S2P Require Import Prelude GoLib Sha256 StorageTypes Model Requests Encoding Meta Manifest Repo RepoLogic.
From S2P Require Import RepoBuckets RepoObjects RepoMultipart RepoListing RepoOps RepoShared RepoAudit.
Open Scope string_scope.

Section Rules.
Context `{Env}.
Implicit Types s : Repository.

Lemma wp_deleteProtectedRefs b k v Q s :
  (forall m, Q (Ok tt) (s <| protectedRefs := m |>)) -> wp (deleteProtectedRefsForVersionLocked b k v) Q s.
Proof. intros HQ. apply wp_modify, HQ. Qed.

Lemma wp_sync v t Q s :
  (forall m, Q (Ok tt) (s <| protectedRefs := m |>)) -> wp (syncProtectedRefsForVersionLocked v t) Q s.
Proof.
  intros HQ. unfold syncProtectedRefsForVersionLocked. apply wp_bind, wp_deleteProtectedRefs. intros m.
  apply wp_if; intros _; [apply wp_ret, HQ|]. apply wp_modify. exact (HQ _).
Qed.

(** The state after an audit append. *)
Definition appended (event : AuditEvent) (s : Repository) : Repository :=
  let id := int64 (nextAuditID s + 1) in
  let e := sealed_event event id (auditHeadHash s) (env_now (clock_calls s)) in
  s <| nextAuditID := id |> <| clock_calls := S (clock_calls s) |>
    <| auditHeadHash := ae_EventHash e |> <| auditEvents := (auditEvents s ++ [e])%list |>.

Lemma clock_appended e s : clock_calls (appended e s) = S (clock_calls s).
Proof. reflexivity. Qed.

Lemma wp_append event Q s : Q (Ok tt) (appended event s) -> wp (appendAuditEventLocked event) Q s.
Proof. done. Qed.

Lemma wp_deleteVersionRecord b k v Q s :
  (versions s !! mk_versionKey b k v = None \/ v = "" -> Q (Ok zero_ObjectVersion) s) ->
  (forall old, v <> "" -> versions s !! mk_versionKey b k v = Some old ->
     Q (Ok old) (s <| versions := delete (mk_versionKey b k v) (versions s) |>)) ->
  wp (deleteVersionRecordLocked b k v) Q s.
Proof.
  intros Hnone Hsome. unfold deleteVersionRecordLocked. apply wp_if; intros Hv.
  { apply wp_ret, Hnone. right. by apply String.eqb_eq. }
  apply String.eqb_neq in Hv. apply wp_bind, wp_gets. apply wp_option_r; [intros old Hold|intros Hno].
  - apply wp_bind, wp_modify, wp_ret. auto.
  - apply wp_ret, Hnone. by left.
Qed.

(** Replacing a head drops the version it pointed at, outside versioned buckets. *)
Lemma wp_drop_replaced bucket b k head vid Q s :
  (forall V m, V = versions s \/
     (bk_VersioningState bucket <> BucketVersioningEnabled /\ oh_VersionID head <> "" /\
      oh_VersionID head <> vid /\ V = delete (mk_versionKey b k (oh_VersionID head)) (versions s)) ->
   Q (Ok tt) (s <| versions := V |> <| protectedRefs := m |>)) ->
  wp (drop_replaced bucket b k head vid) Q s.
Proof.
  intros HQ. unfold drop_replaced. apply wp_if; intros Hc.
  2:{ apply wp_ret. replace s with (s <| versions := versions s |> <| protectedRefs := protectedRefs s |>)
        by (by destruct s). apply HQ. by left. }
  rewrite !andb_true_iff, !negb_true_iff, !String.eqb_neq in Hc. destruct Hc as [[H1 H2] H3].
  apply wp_bind. apply wp_deleteVersionRecord; [intros [Hno|?]; [|done]|intros old _ Hold].
  - apply wp_deleteProtectedRefs. intros m.
    replace (s <| protectedRefs := m |>) with (s <| versions := versions s |> <| protectedRefs := m |>)
      by (by destruct s). apply HQ. by left.
  - apply wp_deleteProtectedRefs. intros m. apply HQ. by right.
Qed.

Lemma wp_governance_gate (protected : bool -> bool) bypass audit event Q s :
  (protected false = false -> Q (Ok tt) s) ->
  (protected false = true -> protected true = false -> bypass = true ->
     validGovernanceBypassAudit audit = true -> Q (Ok tt) (appended event s)) ->
  (protected false = true -> Q (Fail ErrObjectLocked) s) ->
  wp (governance_gate protected bypass audit event) Q s.
Proof.
  intros H1 H2 H3. unfold governance_gate. apply wp_if; intros Hp; [|by apply wp_ret, H1].
  apply wp_if; intros Hb; [by apply wp_fail, H3|].
  rewrite !orb_false_iff, !negb_false_iff in Hb. destruct Hb as [[? ?] ?]. apply wp_append; auto.
Qed.

(** States that agree on the object maps; the clock may have advanced. *)
Record same_objects (s s' : Repository) : Prop := {
  same_heads : heads s' = heads s;
  same_versions : versions s' = versions s;
  same_buckets : bucketsByID s' = bucketsByID s;
  same_clock : (clock_calls s <= clock_calls s')%nat
}.

Lemma wp_append_frame event Q s :
  (forall s', same_objects s s' -> Q (Ok tt) s') -> wp (appendAuditEventLocked event) Q s.
Proof. intros HQ. apply wp_append, HQ. split; try reflexivity. rewrite clock_appended. lia. Qed.

(** The gate leaves the object maps alone, and lets through only what is not
    protected or what an audited governance bypass may change. *)
Lemma wp_governance_frame (protected : bool -> bool) bypass audit event Q s :
  (forall s', same_objects s s' ->
     protected false = false \/
     (protected true = false /\ bypass = true /\ validGovernanceBypassAudit audit = true) ->
     Q (Ok tt) s') ->
  Q (Fail ErrObjectLocked) s ->
  wp (governance_gate protected bypass audit event) Q s.
Proof.
  intros H1 H2. apply wp_governance_gate; [|intros|done].
  - intros Hp. apply H1; [by split|by left].
  - apply H1; [split; try reflexivity; rewrite clock_appended; lia|by right].
Qed.

Lemma wp_put_shared shared Q s :
  (forall m, Q (Ok tt) (s <| sharedObjects := m |>)) -> wp (put_shared shared) Q s.
Proof. intros HQ. apply wp_modify, HQ. Qed.

Lemma wp_put_shared_ref ref Q s :
  (forall m, Q (Ok tt) (s <| sharedRefs := m |>)) -> wp (put_shared_ref ref) Q s.
Proof. intros HQ. apply wp_modify, HQ. Qed.

Lemma wp_checkKMS e Q s :
  Q (Ok tt) s -> Q (Fail ErrKMSKeyUnavailable) s -> wp (checkKMS e) Q s.
Proof.
  intros H1 H2. unfold checkKMS. apply wp_bind, wp_gets, wp_lift. unfold checkDeleteKMSAdmissionLocked.
  repeat case_match; auto.
Qed.

(** Changing a head that points at the given version. *)
Lemma wp_update_head_of key vid f Q s :
  ((forall h, heads s !! key = Some h -> oh_VersionID h <> vid) -> Q (Ok tt) s) ->
  (forall h r, heads s !! key = Some h -> oh_VersionID h = vid ->
     Q (Ok tt) (s <| heads := <[key := (f h) <| oh_Revision := r |>]> (heads s) |>)) ->
  wp (update_head_of key vid f) Q s.
Proof.
  intros H1 H2. unfold update_head_of. apply wp_bind, wp_gets. apply wp_option; [intros h Hh|intros Hn].
  - apply wp_if; intros He.
    + apply wp_bind, wp_setHeadLocked, wp_ret. apply H2; [done | by apply String.eqb_eq].
    + apply wp_ret, H1. intros h' Hh'. simplify_eq. by apply String.eqb_neq.
  - apply wp_ret, H1. congruence.
Qed.

Lemma wp_updateHeadObjectLock v Q s :
  ((forall h, heads s !! mk_objectKey (ov_BucketID v) (ov_Key v) = Some h -> oh_VersionID h <> ov_VersionID v) ->
   Q (Ok tt) s) ->
  (forall h r, heads s !! mk_objectKey (ov_BucketID v) (ov_Key v) = Some h -> oh_VersionID h = ov_VersionID v ->
     Q (Ok tt) (s <| heads := <[mk_objectKey (ov_BucketID v) (ov_Key v) :=
       h <| oh_ObjectLockRetention := ov_ObjectLockRetention v |>
         <| oh_ObjectLockLegalHold := ov_ObjectLockLegalHold v |> <| oh_Revision := r |>]> (heads s) |>)) ->
  wp (updateHeadObjectLockLocked v) Q s.
Proof.
  intros H1 H2. unfold updateHeadObjectLockLocked. apply wp_bind, wp_gets.
  apply wp_option_r; [intros h Hh|intros Hn].
  - apply wp_if; intros He.
    + apply wp_ret, H1. intros h' Hh'. simplify_eq. apply String.eqb_neq. by apply negb_true_iff.
    + apply negb_false_iff, String.eqb_eq in He. apply wp_bind, wp_setHeadLocked, wp_ret. by apply H2.
  - apply wp_ret, H1. congruence.
Qed.

Lemma wp_objectLockTarget b k v Q s :
  (forall vid ver, versions s !! mk_versionKey b k vid = Some ver ->
     ov_State ver = ObjectVersionCommitted -> ov_DeleteMarker ver = false ->
     (v <> "" -> vid = v) -> Q (Ok (mk_versionKey b k vid, ver)) s) ->
  Q (Fail ErrNotFound) s ->
  wp (objectLockTargetLocked b k v) Q s.
Proof.
  intros Hok Hfail. unfold objectLockTargetLocked. apply wp_bind.
  assert (forall vid, (v <> "" -> vid = v) ->
    wp (let vkey := mk_versionKey b k vid in
        let! version := lookup_or ErrNotFound (fun s => versions s !! vkey) in
        fail! ErrNotFound when negb (ov_State version =s ObjectVersionCommitted) || ov_DeleteMarker version ;
        st_ret (vkey, version)) Q s) as Hrest.
  { intros vid Hvid. cbv zeta. apply wp_bind, wp_lookup_or; [intros ver Hver|done].
    apply wp_if; intros Hc; [by apply wp_fail|]. apply wp_ret.
    rewrite orb_false_iff, negb_false_iff, String.eqb_eq in Hc. destruct Hc. by apply Hok. }
  apply wp_if; intros Hv.
  - apply wp_bind, wp_lookup_or; [intros h Hh|done]. apply wp_if; intros _; [done|].
    apply wp_ret, Hrest. intros Hne. by apply String.eqb_eq in Hv.
  - by apply wp_ret, Hrest.
Qed.

Lemma wp_live_version key Q s :
  (forall ver, versions s !! key = Some ver -> ov_State ver = ObjectVersionCommitted ->
     ov_DeleteMarker ver = false -> Q (Ok ver) s) ->
  Q (Fail ErrNotFound) s ->
  wp (live_version key) Q s.
Proof.
  intros Hok Hfail. unfold live_version. apply wp_bind, wp_lookup_or; [intros ver Hver|done].
  apply wp_if; intros Hc; [by apply wp_fail|]. apply wp_ret.
  rewrite orb_false_iff, negb_false_iff, String.eqb_eq in Hc. destruct Hc. by apply Hok.
Qed.

End Rules.

(** Rewrites with the equations of [same_objects]. *)
Ltac use_same :=
  repeat match goal with
         | E : same_objects ?s ?s' |- _ =>
             let E1 := fresh "Eh" in let E2 := fresh "Ev" in let E3 := fresh "Eb" in let E4 := fresh "Ec" in
             destruct E as [E1 E2 E3 E4]; field_simpl_in E1; field_simpl_in E2; field_simpl_in E3; field_simpl_in E4;
             rewrite ?E1, ?E2, ?E3 in *
         end.

(** [wp_step] with the rules above. *)
Ltac owp_step :=
  lazymatch goal with
  | |- wp (deleteProtectedRefsForVersionLocked _ _ _) _ _ => apply wp_deleteProtectedRefs; intros ?
  | |- wp (syncProtectedRefsForVersionLocked _ _) _ _ => apply wp_sync; intros ?
  | |- wp (appendAuditEventLocked _) _ _ => apply wp_append_frame; intros ? ?
  | |- wp (deleteVersionRecordLocked _ _ _) _ _ => apply wp_deleteVersionRecord; [intros ? | intros ? ? ?]
  | |- wp (drop_replaced _ _ _ _ _) _ _ => apply wp_drop_replaced; intros ? ? ?
  | |- wp (governance_gate _ _ _ _) _ _ => apply wp_governance_frame; [intros ? ? ?|]
  | |- wp (checkKMS _) _ _ => apply wp_checkKMS
  | |- wp (update_head_of _ _ _) _ _ => apply wp_update_head_of; [intros ? | intros ? ? ? ?]
  | |- wp (updateHeadObjectLockLocked _) _ _ => apply wp_updateHeadObjectLock; [intros ? | intros ? ? ? ?]
  | |- wp (objectLockTargetLocked _ _ _) _ _ => apply wp_objectLockTarget; [intros ? ? ? ? ? ? | ]
  | |- wp (live_version _) _ _ => apply wp_live_version; [intros ? ? ? ? | ]
  | |- wp (nextObjectVersionIDLocked _ _) _ _ => unfold nextObjectVersionIDLocked
  | |- wp (put_shared _) _ _ => apply wp_put_shared; intros ?
  | |- wp (put_shared_ref _) _ _ => apply wp_put_shared_ref; intros ?
  | |- _ => wp_step
  end.
Ltac owp := repeat owp_step.
