(* ===== verification/ObjInv.v ===== *)
(** * ObjInv: the object-store invariant of the memory repository

    Buckets are indexed by their own identifier and by name, a lock-enabled bucket
    is versioned, version records sit under their own key, and every head mirrors
    a committed version. Every call preserves it. *)

From S2P Require Import Prelude GoLib Sha256 StorageTypes Model Requests Encoding Meta Manifest Repo RepoLogic.
From S2P Require Import RepoBuckets RepoObjects RepoMultipart RepoListing RepoOps RepoShared RepoAudit RepoCalls.
From S2P Require Import AuditChain ObjRules.
Open Scope string_scope.

(** ** The invariant *)

Definition bucket_locked (b : Bucket) : bool := bolc_Enabled (bk_ObjectLock b).

Record bucket_inv (B : gmap string Bucket) (N : gmap string string) : Prop := {
  bucket_key : forall id b, B !! id = Some b -> bk_BucketID b = id;
  bucket_names : forall n id, N !! n = Some id <-> exists b, B !! id = Some b /\ bk_Name b = n;
  bucket_lock : forall id b, B !! id = Some b -> bucket_locked b = true ->
    bk_VersioningState b = BucketVersioningEnabled
}.

Definition version_key (v : ObjectVersion) : versionKey :=
  mk_versionKey (ov_BucketID v) (ov_Key v) (ov_VersionID v).
Definition object_key (k : versionKey) : objectKey := mk_objectKey (vk_bucketID k) (vk_key k).
Definition key_version (k : objectKey) (id : string) : versionKey := mk_versionKey (ok_bucketID k) (ok_key k) id.

(** A version record sits under its own key, with its identifier as sort key;
    neither the identifier nor the object key is empty. *)
Definition version_ok (k : versionKey) (v : ObjectVersion) : Prop :=
  version_key v = k /\ ov_VersionSortKey v = ov_VersionID v /\ ov_VersionID v <> "" /\ ov_Key v <> "".

Definition versions_ok (V : gmap versionKey ObjectVersion) : Prop :=
  forall k v, V !! k = Some v -> version_ok k v.

(** The head shows what the version holds; its time and revision are its own. *)
Definition mirrors (h : ObjectHead) (v : ObjectVersion) : Prop :=
  exists t r, h = (headFromVersion v t) <| oh_Revision := r |>.

Definition points (V : gmap versionKey ObjectVersion) (k : objectKey) (h : ObjectHead) : Prop :=
  exists v, V !! key_version k (oh_VersionID h) = Some v /\ ov_State v = ObjectVersionCommitted /\ mirrors h v.

(** Every head but the one excepted points at its version. *)
Definition heads_ok (except : option objectKey) (Hd : gmap objectKey ObjectHead)
    (V : gmap versionKey ObjectVersion) : Prop :=
  forall k h, except <> Some k -> Hd !! k = Some h -> points V k h.

Definition head_inv (s : Repository) : Prop := versions_ok (versions s) /\ heads_ok None (heads s) (versions s).

(** ** Heads and versions under updates *)

Section Heads.
Implicit Types (Hd : gmap objectKey ObjectHead) (V : gmap versionKey ObjectVersion).

Lemma versions_ok_insert V k v : versions_ok V -> version_ok k v -> versions_ok (<[k := v]> V).
Proof. intros HV Hv k' v' [[-> ->]|[_ Hl]]%lookup_insert_Some; [done | by apply HV]. Qed.

Lemma versions_ok_delete V k : versions_ok V -> versions_ok (delete k V).
Proof. intros HV k' v' [_ Hl]%lookup_delete_Some. by apply HV. Qed.

Lemma heads_ok_weaken x Hd V : heads_ok None Hd V -> heads_ok x Hd V.
Proof. intros Hok k h _ Hh. by apply Hok. Qed.

Lemma key_version_object k id k' : key_version k id = k' -> object_key k' = k /\ vk_versionID k' = id.
Proof. intros <-. by destruct k. Qed.

(** Changing a version record no unexcepted head points at. *)
Lemma heads_ok_insert x Hd V k v :
  heads_ok x Hd V ->
  (x = Some (object_key k) \/ forall h, Hd !! object_key k = Some h -> oh_VersionID h <> vk_versionID k) ->
  heads_ok x Hd (<[k := v]> V).
Proof.
  intros Hok Hx k' h Hk' Hh. destruct (Hok k' h Hk' Hh) as (w & Hw & Hc & Hm).
  exists w. split; [|done]. rewrite lookup_insert_ne; [done|].
  intros ->. destruct (key_version_object k' (oh_VersionID h) _ eq_refl) as [Ho Hi].
  destruct Hx as [->|Hx]; [by rewrite Ho in Hk'|]. rewrite Ho in Hx. by apply (Hx h Hh).
Qed.

Lemma heads_ok_delete x Hd V k :
  heads_ok x Hd V ->
  (x = Some (object_key k) \/ forall h, Hd !! object_key k = Some h -> oh_VersionID h <> vk_versionID k) ->
  heads_ok x Hd (delete k V).
Proof.
  intros Hok Hx k' h Hk' Hh. destruct (Hok k' h Hk' Hh) as (w & Hw & Hc & Hm).
  exists w. split; [|done]. rewrite lookup_delete_ne; [done|].
  intros ->. destruct (key_version_object k' (oh_VersionID h) _ eq_refl) as [Ho Hi].
  destruct Hx as [->|Hx]; [by rewrite Ho in Hk'|]. rewrite Ho in Hx. by apply (Hx h Hh).
Qed.

(** A record that is absent or pending has no head pointing at it. *)
Lemma not_pointed Hd V k :
  heads_ok None Hd V -> (forall v, V !! k = Some v -> ov_State v <> ObjectVersionCommitted) ->
  forall h, Hd !! object_key k = Some h -> oh_VersionID h <> vk_versionID k.
Proof.
  intros Hok Hk h Hh Heq. destruct (Hok _ h ltac:(done) Hh) as (v & Hv & Hc & _).
  apply (Hk v); [|done]. rewrite <- Hv. rewrite Heq. by destruct k.
Qed.

(** Writing the excepted head. *)
Lemma heads_ok_set k h Hd V : heads_ok (Some k) Hd V -> points V k h -> heads_ok None (<[k := h]> Hd) V.
Proof.
  intros Hok Hp k' h' _ [[-> ->]|[Hne Hl]]%lookup_insert_Some; [done|]. apply Hok; [congruence|done].
Qed.

Lemma heads_ok_remove k Hd V : heads_ok (Some k) Hd V -> heads_ok None (delete k Hd) V.
Proof. intros Hok k' h' _ [Hne Hl]%lookup_delete_Some. apply Hok; [congruence|done]. Qed.

Lemma points_head k v t r V :
  V !! k = Some v -> version_ok k v -> ov_State v = ObjectVersionCommitted ->
  points V (object_key k) ((headFromVersion v t) <| oh_Revision := r |>).
Proof.
  intros Hv Hok Hc. exists v. field_simpl. split; [|split; [done|by eexists _, _]].
  rewrite <- Hv. f_equal. by destruct Hok as [<- _].
Qed.

Lemma mirrors_version h v : mirrors h v -> oh_VersionID h = ov_VersionID v.
Proof. by intros (t & r & ->). Qed.

End Heads.

(** ** Buckets *)

Definition bucket_view (s : Repository) := (bucketsByID s, bucketNameToID s).
Definition buckets_ok (s : Repository) : Prop := bucket_inv (bucketsByID s) (bucketNameToID s).

Lemma bucket_inv_insert_new B N id b :
  bucket_inv B N -> B !! id = None -> N !! bk_Name b = None -> bk_BucketID b = id ->
  (bucket_locked b = true -> bk_VersioningState b = BucketVersioningEnabled) ->
  bucket_inv (<[id := b]> B) (<[bk_Name b := id]> N).
Proof.
  intros [Hk Hn Hl] Hid Hname Hb Hlock. split.
  - intros id' b' [[-> ->]|[_ Hb']]%lookup_insert_Some; [done | by apply Hk].
  - intros n id'. split.
    + intros [[<- <-]|[Hne Hn']]%lookup_insert_Some.
      * exists b. by rewrite lookup_insert_eq.
      * apply Hn in Hn' as (b' & Hb' & <-). exists b'. split; [|done].
        rewrite lookup_insert_ne; [done|]. intros ->. congruence.
    + intros (b' & [[<- <-]|[Hne Hb']]%lookup_insert_Some & <-); [by rewrite lookup_insert_eq|].
      assert (N !! bk_Name b' = Some id') as Hn' by (apply Hn; eauto).
      rewrite lookup_insert_ne; [done|]. intros Heq. congruence.
  - intros id' b' [[-> ->]|[_ Hb']]%lookup_insert_Some; [done | by apply (Hl id')].
Qed.

Lemma bucket_inv_update B N id b b' key :
  bucket_inv B N -> B !! id = Some b -> key = bk_BucketID b -> bk_BucketID b' = bk_BucketID b -> bk_Name b' = bk_Name b ->
  (bucket_locked b' = true -> bk_VersioningState b' = BucketVersioningEnabled) ->
  bucket_inv (<[key := b']> B) N.
Proof.
  intros [Hk Hn Hl] Hb -> Hid Hname Hlock. rewrite (Hk _ _ Hb). split.
  - intros id' b'' [[<- <-]|[_ Hb']]%lookup_insert_Some; [by rewrite Hid, (Hk _ _ Hb) | by apply Hk].
  - intros n id'. rewrite Hn. split; intros (b1 & Hb1 & <-).
    + destruct (decide (id' = id)) as [->|Hne].
      * exists b'. rewrite lookup_insert_eq. simplify_eq. done.
      * exists b1. by rewrite lookup_insert_ne.
    + apply lookup_insert_Some in Hb1 as [[<- <-]|[_ Hb1]]; eauto.
  - intros id' b'' [[<- <-]|[_ Hb']]%lookup_insert_Some; [done | by apply (Hl id')].
Qed.

Lemma bucket_inv_delete B N id b :
  bucket_inv B N -> B !! id = Some b -> bucket_inv (delete id B) (delete (bk_Name b) N).
Proof.
  intros [Hk Hn Hl] Hb. split.
  - intros id' b' [_ Hb']%lookup_delete_Some. by apply Hk.
  - intros n id'. rewrite lookup_delete_Some, Hn. split.
    + intros [Hne (b' & Hb' & <-)]. exists b'. split; [|done]. rewrite lookup_delete_ne; [done|].
      intros ->. congruence.
    + intros (b' & [Hne Hb']%lookup_delete_Some & <-). split; [|eauto].
      intros Heq. apply Hne. assert (N !! bk_Name b = Some id) by (apply Hn; eauto).
      assert (N !! bk_Name b' = Some id') by (apply Hn; eauto). congruence.
  - intros id' b' [_ Hb']%lookup_delete_Some. by apply (Hl id').
Qed.

Section BucketCalls.
Context `{Env}.

Lemma CreateBucket_ok req : preserves (keeps buckets_ok) (CreateBucket req).
Proof.
  intros s Hs. unfold CreateBucket. apply wp_exec. repeat wp_step; try exact Hs.
  unfold buckets_ok in *. field_simpl.
  set (b := if cb_ObjectLockEnabled req then _ else _).
  assert (bk_Name b = cb_Name req /\ bk_BucketID b = id /\
          (bucket_locked b = true -> bk_VersioningState b = BucketVersioningEnabled)) as (Hn & Hi & Hl).
  { subst b. by destruct (cb_ObjectLockEnabled req). }
  rewrite <- Hn. apply bucket_inv_insert_new; try done.
  - by apply is_some_false in H2.
  - rewrite Hn. by apply is_some_false.
Qed.

(** A bucket setter that keeps the identifier and the name, and lock implies
    versioning. *)
Lemma update_bucket_ok id f :
  (forall b, bk_BucketID (f b) = bk_BucketID b /\ bk_Name (f b) = bk_Name b) ->
  (forall b, (bucket_locked b = true -> bk_VersioningState b = BucketVersioningEnabled) ->
             bucket_locked (f b) = true -> bk_VersioningState (f b) = BucketVersioningEnabled) ->
  preserves (keeps buckets_ok) (update_bucket id f).
Proof.
  intros Hf Hl s Hs. unfold update_bucket. apply wp_exec. repeat wp_step; try exact Hs.
  unfold buckets_ok in *. field_simpl. destruct (Hf a) as [Hid Hn].
  eapply bucket_inv_update; eauto. apply Hl. by eapply bucket_lock.
Qed.

Lemma DeleteBucket_ok id : preserves (keeps buckets_ok) (DeleteBucket id).
Proof.
  intros s Hs. unfold DeleteBucket. apply wp_exec. repeat wp_step; try exact Hs.
  unfold buckets_ok in *. field_simpl. by apply bucket_inv_delete.
Qed.

Lemma PutBucketVersioning_ok req : preserves (keeps buckets_ok) (PutBucketVersioning req).
Proof.
  intros s Hs. unfold PutBucketVersioning, update_bucket. apply wp_exec. repeat wp_step; try exact Hs.
  unfold buckets_ok in *. field_simpl. simplify_eq. eapply bucket_inv_update; try reflexivity; try eassumption.
  unfold bucket_locked. field_simpl. intros Hl.
  match goal with Hv : _ && negb (pbv_State req =s _) = false |- _ => rewrite Hl in Hv; simpl in Hv;
    by apply negb_false_iff, String.eqb_eq in Hv end.
Qed.

(** Every call keeps the bucket index consistent. *)
Lemma buckets_ok_calls c : preserves (keeps buckets_ok) (run c).
Proof.
  assert (forall A (m : M A), frames bucket_view m -> preserves (keeps buckets_ok) m) as Hf.
  { intros A m. apply frames_keeps. unfold buckets_ok, bucket_view. intros s s' Heq. by injection Heq as -> ->. }
  destruct c; cbn [run].
  all: walk ltac:(first
    [ apply CreateBucket_ok | apply DeleteBucket_ok | apply PutBucketVersioning_ok
    | apply update_bucket_ok; [intros b; done | intros b Hb; first [exact Hb | done]]
    | solve [apply Hf; frame] ]).
Qed.

End BucketCalls.

(** ** The interface the identifier generator discharges *)

Class GeneratorOk `{Env} : Prop := newID_nonempty : forall i kind id, env_newID i kind = Some id -> id <> "".

(** ** Heads and versions *)

Definition head_view (s : Repository) := (heads s, versions s).

(** *** The version promoted when a head's version is deleted *)

Section Latest.
Context (b k : string).

Definition latest_of (l : list (versionKey * ObjectVersion)) (r : ObjectVersion) : Prop :=
  (ov_VersionID r = "" /\ forall kv, kv ∈ l -> committed_at b k kv = false) \/
  (ov_VersionID r <> "" /\ exists key, (key, r) ∈ l /\ committed_at b k (key, r) = true /\
     forall kv, kv ∈ l -> committed_at b k kv = true ->
       str_ltb (ov_VersionSortKey r) (ov_VersionSortKey kv.2) = false).

Lemma latest_step_ok l r kv :
  (committed_at b k kv = true -> ov_VersionID kv.2 <> "") ->
  latest_of l r -> latest_of (l ++ [kv]) (latest_step b k r kv).
Proof.
  intros Hid Hl. unfold latest_step. destruct (committed_at b k kv) eqn:Hc; simpl.
  2:{ destruct Hl as [[Hr Hl]|[Hr (key & Hin & Hck & Hmax)]]; [left|right]; split; try done.
      - intros kv'. rewrite elem_of_app, list_elem_of_singleton. intros [?| ->]; auto.
      - exists key. split; [by apply elem_of_app; left|]. split; [done|].
        intros kv'. rewrite elem_of_app, list_elem_of_singleton. intros [?| ->]; [by apply Hmax | congruence]. }
  specialize (Hid eq_refl). destruct kv as [kk v].
  destruct (ov_VersionID r =s "") eqn:Hr; simpl.
  - apply String.eqb_eq in Hr. destruct Hl as [[_ Hl]|[? _]]; [|done]. right. split; [done|].
    exists kk. split; [apply elem_of_app; right; by apply list_elem_of_singleton|]. split; [done|].
    intros kv'. rewrite elem_of_app, list_elem_of_singleton. intros [Hin| ->] Hc';
      [by rewrite (Hl _ Hin) in Hc' | apply str_ltb_irrefl].
  - apply String.eqb_neq in Hr. destruct Hl as [[? _]|[_ (key & Hin & Hck & Hmax)]]; [done|]. right.
    destruct (str_ltb (ov_VersionSortKey r) (ov_VersionSortKey v)) eqn:Hlt.
    + split; [done|]. exists kk. split; [apply elem_of_app; right; by apply list_elem_of_singleton|]. split; [done|].
      intros kv'. rewrite elem_of_app, list_elem_of_singleton. intros [Hin'| ->] Hc'; [|apply str_ltb_irrefl].
      eapply str_geb_trans; [by apply Hmax | by apply str_ltb_asym].
    + split; [done|]. exists key. split; [by apply elem_of_app; left|]. split; [done|].
      intros kv'. rewrite elem_of_app, list_elem_of_singleton. intros [Hin'| ->] Hc'; [by apply Hmax | done].
Qed.

Lemma latest_fold l :
  (forall kv, kv ∈ l -> committed_at b k kv = true -> ov_VersionID kv.2 <> "") ->
  latest_of l (foldl (latest_step b k) zero_ObjectVersion l).
Proof.
  induction l as [|kv l IH] using rev_ind; intros Hl; [left; split; [done | by intros kv Hkv%elem_of_nil]|].
  rewrite foldl_app. simpl. apply latest_step_ok.
  - intros. apply Hl; [|done]. apply elem_of_app. right. by apply list_elem_of_singleton.
  - apply IH. intros kv' Hin. apply Hl, elem_of_app. by left.
Qed.

Lemma committed_at_spec kv :
  committed_at b k kv = true <->
  object_key kv.1 = mk_objectKey b k /\ ov_State kv.2 = ObjectVersionCommitted.
Proof.
  unfold committed_at, object_key. rewrite !andb_true_iff, !String.eqb_eq.
  split; [intros [[-> ->] ->]; done | intros [[= -> ->] ->]; done].
Qed.

(** The promoted version is the committed version of the object with the greatest
    sort key, and there is none only if the object has no committed version. *)
Lemma latestCommittedVersion_spec s :
  versions_ok (versions s) ->
  match latestCommittedVersionLocked s b k with
  | Some v => exists key, versions s !! key = Some v /\ object_key key = mk_objectKey b k /\
      ov_State v = ObjectVersionCommitted /\
      forall key' v', versions s !! key' = Some v' -> object_key key' = mk_objectKey b k ->
        ov_State v' = ObjectVersionCommitted -> str_ltb (ov_VersionSortKey v) (ov_VersionSortKey v') = false
  | None => forall key v, versions s !! key = Some v -> object_key key = mk_objectKey b k ->
      ov_State v <> ObjectVersionCommitted
  end.
Proof.
  intros HV. unfold latestCommittedVersionLocked. set (l := map_to_list (versions s)).
  assert (forall key v, (key, v) ∈ l <-> versions s !! key = Some v) as Hl by (intros; apply elem_of_map_to_list).
  destruct (latest_fold l) as [[Hr Hno]|[Hr (key & Hin & Hc & Hmax)]].
  { intros [key v] Hin _. apply Hl, HV in Hin. apply Hin. }
  - rewrite Hr. simpl. intros key v Hv Hk Hc. assert (committed_at b k (key, v) = true) as Ht
      by (by apply committed_at_spec). rewrite Hno in Ht; [done|]. by apply Hl.
  - apply String.eqb_neq in Hr. rewrite Hr. apply committed_at_spec in Hc as [Hk Hc].
    exists key. split; [by apply Hl|]. split; [done|]. split; [done|].
    intros key' v' Hv' Hk' Hc'. apply (Hmax (key', v')); [by apply Hl | by apply committed_at_spec].
Qed.

End Latest.

Section HeadCalls.
Context `{Env, !GeneratorOk}.

Lemma fresh_version_ok s b k id i n :
  env_newID i KindVersion = Some id ->
  is_some (versions (s <| id_calls := n |>) !! mk_versionKey b k id) = false ->
  id <> "" /\ versions s !! mk_versionKey b k id = None.
Proof. intros Hid Hn. split; [by eapply newID_nonempty | by apply is_some_false in Hn]. Qed.

(** Recording a version no head points at. *)
Lemma head_inv_add Hd V k v :
  versions_ok V /\ heads_ok None Hd V -> version_ok k v ->
  (forall w, V !! k = Some w -> ov_State w <> ObjectVersionCommitted) ->
  versions_ok (<[k := v]> V) /\ heads_ok None Hd (<[k := v]> V).
Proof.
  intros [HV HH] Hv Hk. split; [by apply versions_ok_insert|].
  apply heads_ok_insert; [done|]. right. by eapply not_pointed.
Qed.

(** Publishing a committed version as the head, after dropping another one. *)
Lemma head_inv_publish Hd V V' k v t r :
  versions_ok V /\ heads_ok None Hd V -> V !! k = Some v -> ov_State v = ObjectVersionCommitted ->
  V' = V \/ (exists id, id <> vk_versionID k /\ V' = delete (key_version (object_key k) id) V) ->
  versions_ok V' /\
  heads_ok None (<[object_key k := (headFromVersion v t) <| oh_Revision := r |>]> Hd) V'.
Proof.
  intros [HV HH] Hk Hc HV'.
  assert (V' !! k = Some v /\ versions_ok V' /\ heads_ok (Some (object_key k)) Hd V') as (Hk' & HVok & HHok).
  { destruct HV' as [->|(id & Hne & ->)]; [split_and!; auto using heads_ok_weaken|].
    split_and!; [|by apply versions_ok_delete|].
    - rewrite lookup_delete_ne; [done|]. intros Heq. apply Hne. by rewrite <- Heq.
    - apply heads_ok_delete; [by apply heads_ok_weaken|]. by left. }
  split; [done|]. apply heads_ok_set; [done|]. apply points_head; auto.
Qed.

(** The argument check of the object operations. *)
Lemma arguments_named (b k : string) : (b =s "") || (k =s "") = false -> k <> "".
Proof. by intros [_ Hk%String.eqb_neq]%orb_false_iff. Qed.

(** Names the facts about a fresh version identifier. *)
Ltac fresh_version :=
  match goal with
  | Hi : (exists i, env_newID i KindVersion = Some ?id),
    Hn : is_some (_ !! mk_versionKey ?b ?k ?id) = false |- _ =>
      let Hne := fresh "Hne" in let Hno := fresh "Hno" in
      destruct Hi as [? Hi]; destruct (fresh_version_ok _ _ _ _ _ _ Hi Hn) as [Hne Hno]; field_simpl_in Hno
  end.

Lemma BeginPutObject_ok req : preserves (keeps head_inv) (BeginPutObject req).
Proof.
  intros s Hs. unfold BeginPutObject. apply wp_exec. owp; try exact Hs.
  fresh_version. unfold head_inv in *. field_simpl. apply head_inv_add; [done|by split_and!; eauto using arguments_named|intros w Hw; congruence].
Qed.

Lemma CommitObjectVersion_ok req : preserves (keeps head_inv) (CommitObjectVersion req).
Proof.
  intros s Hs. unfold CommitObjectVersion. apply wp_exec. owp; try exact Hs.
  unfold head_inv in *. field_simpl.
  set (k := mk_versionKey _ _ _) in *.
  set (v := a <| ov_State := _ |> <| ov_CommittedAt := _ |>) in *.
  assert (version_ok k a) as Hok by (by apply Hs).
  match goal with Hst : (ov_State a =s _) = false |- _ => apply String.eqb_neq in Hst as Hpend end.
  change (mk_objectKey (cov_BucketID req) (cov_Key req)) with (object_key k).
  apply (head_inv_publish (heads s) (<[k := v]> (versions s))).
  - apply head_inv_add; [done|done|]. intros w Hw. congruence.
  - apply lookup_insert_eq.
  - done.
  - match goal with HV : _ \/ _ |- _ => destruct HV as [->|(_ & _ & Hne & ->)]; [by left|right] end.
    eexists. split; [|reflexivity]. destruct Hok as [Hkey _]. by rewrite <- Hkey.
Qed.

Lemma PutObjectVersion_ok req : preserves (keeps head_inv) (PutObjectVersion req).
Proof.
  intros s Hs. unfold PutObjectVersion. apply wp_exec. owp; try exact Hs.
  fresh_version. unfold head_inv in *. field_simpl.
  set (v := version_of_request _ _ _ _ _ _). set (k := mk_versionKey (bpo_BucketID req) (bpo_Key req) id) in *.
  change (mk_objectKey (bpo_BucketID req) (bpo_Key req)) with (object_key k).
  apply (head_inv_publish (heads s) (<[k := v]> (versions s))).
  - apply head_inv_add; [done|by split_and!; eauto using arguments_named|]. intros w Hw. congruence.
  - apply lookup_insert_eq.
  - done.
  - match goal with HV : _ \/ _ |- _ => field_simpl_in HV; destruct HV as [->|(_ & _ & Hid & ->)]; [by left|right] end.
    eexists. split; [exact Hid|]. rewrite <- delete_insert_ne; [reflexivity|]. by intros [= <-].
Qed.

Lemma createDeleteMarker_ok req :
  dor_Key req <> "" -> preserves (keeps head_inv) (createDeleteMarkerLocked req).
Proof.
  intros Hkey s Hs. unfold createDeleteMarkerLocked. apply wp_exec. owp; try exact Hs.
  fresh_version. unfold head_inv in *. field_simpl.
  set (v := zero_ObjectVersion <| ov_BucketID := _ |> <| ov_Key := _ |> <| ov_VersionID := _ |>
     <| ov_VersionSortKey := _ |> <| ov_State := _ |> <| ov_CreatedAt := _ |> <| ov_CommittedAt := _ |>
     <| ov_DeleteMarker := _ |>).
  set (k := mk_versionKey (dor_BucketID req) (dor_Key req) id) in *.
  change (mk_objectKey (dor_BucketID req) (dor_Key req)) with (object_key k).
  apply (head_inv_publish (heads s) (<[k := v]> (versions s))); [|apply lookup_insert_eq|done|by left].
  apply head_inv_add; [done|by split_and!|]. intros w Hw. congruence.
Qed.

Lemma deleteObjectVersion_ok req : preserves (keeps head_inv) (deleteObjectVersionLocked req).
Proof.
  intros s Hs. unfold deleteObjectVersionLocked. apply wp_exec. unfold head_inv in Hs.
  apply wp_bind, wp_lookup_or; [intros v Hv|intros _; exact Hs]. apply wp_bind, wp_checkKMS; [|exact Hs].
  apply wp_bind, wp_now. apply wp_bind.
  set (k := mk_versionKey _ _ _) in *. change (mk_objectKey _ _) with (object_key k).
  apply (wp_mono _ (fun o s' => heads s' = heads s /\ versions s' = versions s)).
  { by apply wp_governance_gate. }
  intros [[]|e] s1 [Eh Ev]; [|unfold head_inv; by rewrite Eh, Ev].
  apply wp_bind, wp_modify. rewrite Ev. apply wp_bind, wp_deleteProtectedRefs. intros m.
  apply wp_bind, wp_gets. field_simpl. rewrite Eh. apply wp_bind.
  destruct Hs as [HV HH]. pose proof (versions_ok_delete _ k HV) as HV'.
  set (s2 := s1 <| versions := _ |> <| protectedRefs := _ |>).
  assert (heads s2 = heads s /\ versions s2 = delete k (versions s)) as [Eh2 Ev2] by done. clearbody s2.
  apply wp_if; intros Hpt.
  - assert (heads_ok (Some (object_key k)) (heads s) (delete k (versions s))) as HH'.
    { apply heads_ok_delete; [by apply heads_ok_weaken | by left]. }
    apply wp_bind, wp_gets. pose proof (latestCommittedVersion_spec (dor_BucketID req) (dor_Key req) s2 ltac:(by rewrite Ev2)) as Hlat.
    apply wp_option; [intros p Hp | intros Hp]; rewrite Hp in Hlat.
    + destruct Hlat as (key & Hkey & Ho & Hc & _). apply wp_bind, wp_setHeadLocked, wp_ret, wp_ret.
      unfold head_inv. field_simpl. rewrite Ev2 in *. split; [done|]. rewrite Eh2.
      apply heads_ok_set; [done|]. change (object_key k) with (mk_objectKey (dor_BucketID req) (dor_Key req)).
      rewrite <- Ho. apply points_head; [done|by apply HV'|done].
    + apply wp_modify, wp_ret. unfold head_inv. field_simpl. rewrite Eh2, Ev2.
      split; [done | by apply heads_ok_remove].
  - apply wp_ret, wp_ret. unfold head_inv. rewrite Eh2, Ev2. split; [done|].
    apply heads_ok_delete; [done|]. right. intros h Hh. rewrite Hh in Hpt. by apply String.eqb_neq.
Qed.

(** Rewriting a version in place, with its head when the head points at it. *)
Lemma head_inv_update Hd Hd' V k v :
  versions_ok V /\ heads_ok None Hd V -> version_ok k v -> ov_State v = ObjectVersionCommitted ->
  (Hd' = Hd /\ (forall h, Hd !! object_key k = Some h -> oh_VersionID h <> vk_versionID k)) \/
  (exists h, Hd' = <[object_key k := h]> Hd /\ mirrors h v) ->
  versions_ok (<[k := v]> V) /\ heads_ok None Hd' (<[k := v]> V).
Proof.
  intros [HV HH] Hk Hc Hh. split; [by apply versions_ok_insert|].
  destruct Hh as [[-> Hno]|(h & -> & Hm)]; [apply heads_ok_insert; auto|].
  apply heads_ok_set; [apply heads_ok_insert; [by apply heads_ok_weaken | by left]|].
  exists v. split; [|done]. rewrite (mirrors_version _ _ Hm). destruct Hk as [<- _]. apply lookup_insert_eq.
Qed.

(** What a pointing head knows about its version. *)
Lemma pointed_version s k h v :
  head_inv s -> versions s !! k = Some v -> heads s !! object_key k = Some h ->
  oh_VersionID h = vk_versionID k -> ov_State v = ObjectVersionCommitted /\ mirrors h v.
Proof.
  intros [_ HH] Hv Hh Hid. destruct (HH _ h ltac:(done) Hh) as (w & Hw & Hc & Hm).
  rewrite Hid in Hw. change (key_version (object_key k) (vk_versionID k)) with (mk_versionKey (vk_bucketID k) (vk_key k) (vk_versionID k)) in Hw.
  destruct k. simpl in *. by simplify_eq.
Qed.

Lemma head_points_to s key h :
  head_inv s -> heads s !! key = Some h ->
  exists v, versions s !! key_version key (oh_VersionID h) = Some v /\
    ov_State v = ObjectVersionCommitted /\ mirrors h v /\ version_ok (key_version key (oh_VersionID h)) v.
Proof.
  intros [HV HH] Hh. destruct (HH _ h ltac:(done) Hh) as (v & Hv & Hc & Hm).
  exists v. split_and!; auto.
Qed.

Lemma PutObjectTags_ok req : preserves (keeps head_inv) (PutObjectTags req).
Proof.
  intros s Hs. unfold PutObjectTags. apply wp_exec. apply wp_if; intros _; [exact Hs|]. cbv zeta.
  apply wp_if; intros Hvid.
  - set (k := mk_versionKey _ _ _). apply wp_bind, wp_lookup_or; [intros v Hv|done].
    apply wp_if; intros Hst; [exact Hs|]. apply negb_false_iff, String.eqb_eq in Hst.
    assert (version_ok k (v <| ov_Tags := otr_Tags req |>)) as Hk by exact (proj1 Hs _ _ Hv).
    apply wp_bind, wp_modify, wp_bind, wp_gets. change (mk_objectKey _ _) with (object_key k).
    apply wp_option; [intros h Hh|intros Hno]; [apply wp_if; intros Hid|].
    + apply String.eqb_eq in Hid. destruct (pointed_version s k h v Hs Hv Hh Hid) as [_ (t & r & ->)].
      apply wp_bind, wp_setHeadLocked, wp_ret.
      apply head_inv_update with (Hd := heads s); [done|done|done|]. right. eexists. split; [reflexivity|].
      by eexists _, _.
    + apply wp_ret. apply head_inv_update with (Hd := heads s); [done|done|done|]. left. split; [done|].
      field_simpl_in Hh. intros h' Hh'. simplify_eq. by apply String.eqb_neq.
    + apply wp_ret. apply head_inv_update with (Hd := heads s); [done|done|done|]. left. split; [done|].
      field_simpl_in Hno. intros h' Hh'. congruence.
  - apply wp_bind, wp_lookup_or; [intros h Hh|done]. set (key := mk_objectKey _ _) in *.
    destruct (head_points_to s key h Hs Hh) as (v & Hv & Hc & (t & r & ->) & Hok).
    apply wp_bind, wp_setHeadLocked. field_simpl. apply wp_if; intros He.
    { destruct Hok as (_ & _ & Hne & _). by apply String.eqb_eq in He. }
    apply wp_bind, wp_gets. field_simpl. field_simpl_in Hv.
    change (mk_versionKey _ _ _) with (key_version key (oh_VersionID (headFromVersion v t))).
    rewrite Hv. apply wp_modify. unfold head_inv. field_simpl.
    apply head_inv_update with (Hd := heads s); [done|done|done|]. right. eexists. split; [reflexivity|].
    by eexists _, _.
Qed.

(** [v'] is [v] with fields changed that identify neither it nor its state. *)
Definition same_identity (v v' : ObjectVersion) : Prop :=
  version_key v' = version_key v /\ ov_VersionSortKey v' = ov_VersionSortKey v /\ ov_State v' = ov_State v.

Lemma same_identity_ok k v v' : same_identity v v' -> version_ok k v -> version_ok k v'.
Proof.
  intros (Hk & Hs & _) (H1 & H2 & H3 & H4). unfold version_ok, version_key in *. simplify_eq.
  rewrite Hk. split_and!; congruence.
Qed.

(** The two outcomes of rewriting a committed version and its head. *)
Lemma update_unpointed s k v v' key :
  head_inv s -> versions s !! k = Some v -> ov_State v = ObjectVersionCommitted -> same_identity v v' ->
  key = object_key k ->
  (forall h, heads s !! key = Some h -> oh_VersionID h <> ov_VersionID v) ->
  versions_ok (<[k := v']> (versions s)) /\ heads_ok None (heads s) (<[k := v']> (versions s)).
Proof.
  intros Hs Hv Hc Hid -> Hno. pose proof (proj1 Hs _ _ Hv) as Hok.
  apply head_inv_update with (Hd := heads s); [done|by eapply same_identity_ok|by destruct Hid as (_ & _ & ->)|].
  left. split; [done|]. by destruct Hok as [<- _].
Qed.

Lemma update_pointed s k v v' h h' key :
  head_inv s -> versions s !! k = Some v -> ov_State v = ObjectVersionCommitted -> same_identity v v' ->
  key = object_key k ->
  heads s !! key = Some h -> oh_VersionID h = ov_VersionID v -> (mirrors h v -> mirrors h' v') ->
  versions_ok (<[k := v']> (versions s)) /\
  heads_ok None (<[key := h']> (heads s)) (<[k := v']> (versions s)).
Proof.
  intros Hs Hv Hc Hid -> Hh Hpt Hm. pose proof (proj1 Hs _ _ Hv) as Hok.
  apply head_inv_update with (Hd := heads s); [done|by eapply same_identity_ok|by destruct Hid as (_ & _ & ->)|].
  right. eexists. split; [done|]. apply Hm. eapply pointed_version; eauto. by destruct Hok as [<- _].
Qed.

Lemma own_object_key s k v :
  head_inv s -> versions s !! k = Some v -> mk_objectKey (ov_BucketID v) (ov_Key v) = object_key k.
Proof. intros Hs Hv. by destruct (proj1 Hs _ _ Hv) as [<- _]. Qed.

(** Closes the goals the lemmas above leave for a setter chain. *)
Ltac mirror_update := intros (? & ? & ->); eexists _, _; reflexivity.
Ltac same_key s := first [reflexivity | apply (own_object_key s); eassumption].
Ltac version_update s :=
  cbn [fst snd] in *; unfold head_inv; state_simpl; field_simpl; use_same; state_simpl; field_simpl;
  repeat match goal with E : _ = heads s |- _ => rewrite E in *; clear E
                       | E : _ = versions s |- _ => rewrite E in *; clear E end;
  lazymatch goal with
  | |- versions_ok (<[_ := _]> _) /\ heads_ok None (heads s) _ =>
      eapply (update_unpointed s); [eassumption|eassumption|assumption|done| |eassumption]; same_key s
  | |- _ =>
      eapply (update_pointed s); [eassumption|eassumption|assumption|done| |eassumption|eassumption|mirror_update];
      same_key s
  end.

Lemma PutObjectRetention_ok req : preserves (keeps head_inv) (PutObjectRetention req).
Proof.
  intros s Hs. unfold PutObjectRetention. apply wp_exec. owp; try exact Hs.
  all: version_update s.
Qed.

Lemma PutObjectLegalHold_ok req : preserves (keeps head_inv) (PutObjectLegalHold req).
Proof.
  intros s Hs. unfold PutObjectLegalHold. apply wp_exec. owp; try exact Hs.
  all: version_update s.
Qed.

Lemma AttachObjectVersion_ok req : preserves (keeps head_inv) (AttachObjectVersionToSharedObject req).
Proof.
  intros s Hs. unfold AttachObjectVersionToSharedObject. apply wp_exec. owp; try exact Hs.
  all: version_update s.
Qed.

Lemma PublishObjectVersionRefs_ok req : preserves (keeps head_inv) (PublishObjectVersionRefs req).
Proof.
  intros s Hs. unfold PublishObjectVersionRefs. apply wp_exec. owp; try exact Hs.
  all: version_update s.
Qed.

(** Deleting the head of an unversioned object with its version. *)
Lemma DeleteObject_ok req : preserves (keeps head_inv) (DeleteObject req).
Proof.
  intros s Hs. unfold DeleteObject. apply wp_exec. apply wp_if; intros Harg; [exact Hs|]. cbv zeta.
  apply wp_bind, wp_lookup_or; [intros bucket Hb|done].
  apply wp_if; intros _; [by apply deleteObjectVersion_ok|]. apply wp_bind, wp_gets. apply wp_if; intros _.
  { apply wp_bind. destruct (heads s !! _); [apply wp_checkKMS; [|exact Hs]|apply wp_ret];
      by apply createDeleteMarker_ok; [eapply arguments_named|]. }
  set (key := mk_objectKey _ _). apply wp_option_r; [intros h Hh|by intros _].
  owp; try exact Hs.
  all: destruct Hs as [HV HH];
    assert (heads_ok (Some key) (heads s) (versions s)) as HH' by (by apply heads_ok_weaken).
  all: unfold head_inv; field_simpl; use_same.
  - split; [done | by apply heads_ok_remove].
  - split; [by apply versions_ok_delete|]. apply heads_ok_remove.
    apply (heads_ok_delete (Some key) _ _ (key_version key (oh_VersionID h))); [done | by left].
Qed.

(** Every call keeps version records under their keys and heads mirroring their
    committed versions. *)
Lemma head_inv_calls c : preserves (keeps head_inv) (run c).
Proof.
  assert (forall A (m : M A), frames head_view m -> preserves (keeps head_inv) m) as Hf.
  { intros A m. apply frames_keeps. unfold head_inv, head_view. intros s s' Heq. by injection Heq as -> ->. }
  destruct c; cbn [run].
  all: walk ltac:(first
    [ apply BeginPutObject_ok | apply CommitObjectVersion_ok | apply PutObjectVersion_ok | apply DeleteObject_ok
    | apply PutObjectTags_ok | apply PutObjectRetention_ok | apply PutObjectLegalHold_ok
    | apply AttachObjectVersion_ok | apply PublishObjectVersionRefs_ok | solve [apply Hf; frame] ]).
Qed.

End HeadCalls.

(** ** The invariant of reachable states *)

Record obj_inv (s : Repository) : Prop := {
  inv_buckets : buckets_ok s;
  inv_heads : head_inv s
}.

(** The object-store invariant holds in every reachable state. *)
Lemma reachable_obj_inv `{Env, !GeneratorOk} (s : Repository) : reachable s -> obj_inv s.
Proof.
  apply (reachable_ind obj_inv).
  - split; [split|split]; unfold NewWithClock, buckets_ok; simpl.
    + intros id b. by rewrite lookup_empty.
    + intros n id. rewrite lookup_empty. split; [done|]. intros (b & Hb & _). by rewrite lookup_empty in Hb.
    + intros id b. by rewrite lookup_empty.
    + intros k v. simpl. by rewrite lookup_empty.
    + intros k h _. simpl. by rewrite lookup_empty.
  - intros c s' [H1 H2]. split; [by apply buckets_ok_calls | by apply head_inv_calls].
Qed.
