(* ===== verification/RepoExample.v ===== *)
(** * RepoExample: a concrete repository

    A clock that advances by one nanosecond per reading and a generator that
    numbers its identifiers, a bucket with object lock and one object under
    compliance retention and legal hold: the inputs the witnesses evaluate. *)

From S2P Require Import Prelude GoLib Sha256 StorageTypes Model Requests Encoding Meta Manifest Repo RepoLogic.
From S2P Require Import RepoBuckets RepoObjects RepoMultipart RepoListing RepoOps RepoShared RepoAudit RepoCalls.
From S2P Require Import AuditChain ObjRules ObjInv.
Open Scope string_scope.
Open Scope Z_scope.

Definition exEnv : Env := {|
  env_now n := Z.of_nat n + 1;
  env_wall n := Z.of_nat n + 1;
  env_newID n kind := Some (kind +:+ "_" +:+ Itoa (Z.of_nat n))
|}.

Lemma exEnv_ok : @GeneratorOk exEnv.
Proof. intros i kind id [= <-]. by destruct kind. Qed.


Lemma some_of_is_some {A} (d : A) (o : option A) : is_some o = true -> o = Some (default d o).
Proof. by destruct o. Qed.

Definition ex_audit : AuditContext :=
  mkAuditContext "req-1" "retention review"
    (mkAuditPrincipal "tenant" "AK1" "" "" [] [] "" "" "" "" false).

Definition ex_bucket : string := "bkt_0".
Definition ex_put (key : string) (retention : ObjectLockRetention) (hold : string) : BeginPutObjectRequest :=
  mkBeginPutObjectRequest ex_bucket key 4 "etag" "text/plain" zero_StorageClassSnapshot zero_ServerSideEncryption
    (zero_SegmentRef <| sr_SegmentID := "seg-1" |>) [] ∅ ∅ retention hold.

Definition ex_setup : list call :=
  [ C_CreateTenant (mkCreateTenantRequest "tenant" "Tenant");
    C_CreateBucket (mkCreateBucketRequest "tenant" "photos" "eu-1" true);
    C_PutObjectVersion (ex_put "a" (mkObjectLockRetention ObjectLockModeCompliance 1000000) ObjectLockLegalHoldOn);
    C_PutObjectVersion (ex_put "b" (mkObjectLockRetention ObjectLockModeGovernance 1000000) "") ].

Definition ex_state : Repository := @run_all exEnv ex_setup (@NewWithClock exEnv).
Definition ex_key_a : versionKey := mk_versionKey ex_bucket "a" "ver_1".
Definition ex_key_b : versionKey := mk_versionKey ex_bucket "b" "ver_2".
Definition ex_version (k : versionKey) : ObjectVersion := default zero_ObjectVersion (versions ex_state !! k).

Lemma ex_reachable : @reachable exEnv ex_state.
Proof. apply run_all_steps. Qed.

Example ex_found : is_some (versions ex_state !! ex_key_a) && is_some (versions ex_state !! ex_key_b) = true.
Proof. vm_compute. reflexivity. Qed.

Lemma ex_lookup (k : versionKey) : is_some (versions ex_state !! k) = true -> versions ex_state !! k = Some (ex_version k).
Proof. apply (some_of_is_some zero_ObjectVersion). Qed.

(** Ends with [vm_compute] only on boolean or numeric facts: a state never appears in a goal that is evaluated. *)
Ltac by_eval := vm_compute; reflexivity.

(** ** The invariants as theorems, with the example as witness *)

(** C17: In every reachable state of the repository every object head shows a
    committed version record of its own object, field by field; version records
    sit under their own key; bucket names and bucket identifiers index each other;
    and a bucket with object lock has versioning enabled. *)
Theorem object_store_consistent `{Env, !GeneratorOk} (s : Repository) :
  reachable s ->
  (forall key h, heads s !! key = Some h -> exists v, versions s !! key_version key (oh_VersionID h) = Some v /\
     ov_State v = ObjectVersionCommitted /\ mirrors h v) /\
  (forall k v, versions s !! k = Some v -> version_key v = k) /\
  (forall name id, bucketNameToID s !! name = Some id <-> exists b, bucketsByID s !! id = Some b /\ bk_Name b = name) /\
  (forall id b, bucketsByID s !! id = Some b -> bolc_Enabled (bk_ObjectLock b) = true ->
     bk_VersioningState b = BucketVersioningEnabled).
Proof.
  intros Hr. destruct (reachable_obj_inv s Hr) as [[_ Hn Hl] [HV HH]]. split_and!; [|by apply HV|done|done].
  intros key h Hh. by apply HH.
Qed.

Lemma object_store_consistent_witness :
  bk_VersioningState (default zero_Bucket (bucketsByID ex_state !! ex_bucket)) = BucketVersioningEnabled.
Proof.
  destruct (@object_store_consistent exEnv exEnv_ok ex_state) as (_ & _ & _ & H).
  - exact ex_reachable.
  - apply (H ex_bucket); [apply (some_of_is_some zero_Bucket); by_eval | by_eval].
Defined.


