(* ===== verification/Worm.v ===== *)
(** * Worm: object lock is write-once-read-many

    A committed version under unexpired compliance retention in a lock-enabled
    bucket survives every call, with its content unchanged and its retention never
    shortened; a version under legal hold survives every call as well. *)

From S2P Require Import Prelude GoLib Sha256 StorageTypes Model Requests Encoding Meta Manifest Repo RepoLogic.
From S2P Require Import RepoBuckets RepoObjects RepoMultipart RepoListing RepoOps RepoShared RepoAudit RepoCalls.
From S2P Require Import AuditChain ObjRules ObjInv RepoExample.
Open Scope string_scope.
Open Scope Z_scope.

(** What of a version no call may change: everything but tags, retention and
    legal hold. *)
Definition content (v : ObjectVersion) : ObjectVersion :=
  v <| ov_Tags := ∅ |> <| ov_ObjectLockRetention := zero_ObjectLockRetention |> <| ov_ObjectLockLegalHold := "" |>.

Definition retention_mode (v : ObjectVersion) : string := olr_Mode (ov_ObjectLockRetention v).
Definition retain_until (v : ObjectVersion) : Time := olr_RetainUntilDate (ov_ObjectLockRetention v).
Definition on_hold (v : ObjectVersion) : bool := ov_ObjectLockLegalHold v =s ObjectLockLegalHoldOn.

(** The bucket of a version has object lock enabled. *)
Definition lock_enabled (s : Repository) (bucketID : string) : Prop :=
  exists b, bucketsByID s !! bucketID = Some b /\ bucket_locked b = true.

(** A committed object version that object lock protects at time [t] even from a
    caller who may bypass governance retention. *)
Definition held (v : ObjectVersion) (t : Time) : Prop := objectVersionProtectedByObjectLock v t true = true.

Lemma held_compliance v t :
  ov_DeleteMarker v = false -> retention_mode v = ObjectLockModeCompliance -> t < retain_until v -> held v t.
Proof.
  intros Hd Hm Ht. unfold held, objectVersionProtectedByObjectLock, objectLockProtected.
  unfold retention_mode in Hm. rewrite Hd, Hm. destruct (_ =s ObjectLockLegalHoldOn); [done|].
  change (ObjectLockModeCompliance =s "") with false. simpl. destruct (_ =? 0); [done|].
  unfold retain_until in Ht. by destruct (Z.ltb_spec t (olr_RetainUntilDate (ov_ObjectLockRetention v))); [|lia].
Qed.

Lemma held_legal_hold v t : ov_DeleteMarker v = false -> on_hold v = true -> held v t.
Proof. unfold held, objectVersionProtectedByObjectLock, objectLockProtected, on_hold. by intros -> ->. Qed.

Lemma held_any v t b : held v t -> objectVersionProtectedByObjectLock v t b = true.
Proof.
  unfold held, objectVersionProtectedByObjectLock, objectLockProtected.
  repeat case_match; destruct b; naive_solver.
Qed.

(** A retention update of an unexpired compliance retention that is not blocked
    keeps the mode and does not shorten the period. *)
Lemma update_not_blocked current next t b :
  olr_Mode current = ObjectLockModeCompliance -> t < olr_RetainUntilDate current ->
  retentionUpdateBlocked current next t b = false ->
  olr_Mode next = ObjectLockModeCompliance /\ olr_RetainUntilDate current <= olr_RetainUntilDate next.
Proof.
  intros Hm Ht. unfold retentionUpdateBlocked. rewrite Hm.
  change (ObjectLockModeCompliance =s "") with false. simpl. destruct (_ =? 0); [done|].
  destruct (Z.ltb_spec t (olr_RetainUntilDate current)); [|lia]. simpl.
  rewrite orb_false_iff, negb_false_iff, String.eqb_eq, Z.ltb_ge. done.
Qed.

Section Worm.
Context `{Env, !GeneratorOk}.
Context (k : versionKey).

(** ** The bucket stays lock-enabled *)

Definition has_committed (s : Repository) : Prop :=
  exists v, versions s !! k = Some v /\ ov_State v = ObjectVersionCommitted.

Lemma in_use s : has_committed s -> bucket_in_use s (vk_bucketID k) = true.
Proof.
  intros (v & Hv & Hc). unfold bucket_in_use. apply orb_true_iff. right.
  apply existsb_exists. exists (k, v). split; [by apply list_elem_of_In, elem_of_map_to_list|].
  simpl. by rewrite Hc, !String.eqb_refl.
Qed.

(** Bucket operations keep this; the others do not touch buckets. *)
Definition locked_in_use (s : Repository) : Prop :=
  buckets_ok s /\ has_committed s /\ lock_enabled s (vk_bucketID k).

Definition locked_view (s : Repository) := (bucketsByID s, bucketNameToID s, versions s).

Lemma lock_enabled_insert s B id b :
  (forall b', bucketsByID s !! id = Some b' -> bucket_locked b' = true -> bucket_locked b = true) ->
  lock_enabled s (vk_bucketID k) -> B = <[id := b]> (bucketsByID s) ->
  exists b, B !! vk_bucketID k = Some b /\ bucket_locked b = true.
Proof.
  intros Hb (b0 & Hb0 & Hl) ->. destruct (decide (id = vk_bucketID k)) as [->|Hne].
  - exists b. rewrite lookup_insert_eq. split; [done|]. by eapply Hb.
  - exists b0. by rewrite lookup_insert_ne.
Qed.

Lemma update_bucket_lock id f :
  (forall b, bk_BucketID (f b) = bk_BucketID b /\ bk_Name (f b) = bk_Name b) ->
  (forall b, (bucket_locked b = true -> bk_VersioningState b = BucketVersioningEnabled) ->
             bucket_locked (f b) = true -> bk_VersioningState (f b) = BucketVersioningEnabled) ->
  (forall b, bucket_locked b = true -> bucket_locked (f b) = true) ->
  preserves (keeps locked_in_use) (update_bucket id f).
Proof.
  intros Hid Hv Hf s (Hok & Hc & Hl). pose proof (update_bucket_ok id f Hid Hv s Hok) as Hok'.
  split; [done|]. unfold update_bucket. apply wp_exec. repeat wp_step; [|done]. split; [done|]. unfold lock_enabled. field_simpl.
  eapply lock_enabled_insert; [|exact Hl|reflexivity].
  assert (bk_BucketID (f a) = id) as -> by (rewrite (proj1 (Hid a)); by apply (bucket_key _ _ Hok)).
  intros b' Hb'. simplify_eq. apply Hf.
Qed.

Lemma CreateBucket_lock req : preserves (keeps locked_in_use) (CreateBucket req).
Proof.
  intros s (Hok & Hc & Hl). pose proof (CreateBucket_ok req s Hok) as Hok'. split; [done|].
  unfold CreateBucket. apply wp_exec. repeat wp_step; try done. split; [done|]. unfold lock_enabled. field_simpl.
  eapply lock_enabled_insert; [|exact Hl|reflexivity].
  intros b' Hb'. match goal with Hn : is_some (_ !! id) = false |- _ => apply is_some_false in Hn;
    field_simpl_in Hn; congruence end.
Qed.

Lemma DeleteBucket_lock id : preserves (keeps locked_in_use) (DeleteBucket id).
Proof.
  intros s (Hok & Hc & Hl). pose proof (DeleteBucket_ok id s Hok) as Hok'. split; [done|].
  unfold DeleteBucket. apply wp_exec. repeat wp_step; try done. split; [done|]. destruct Hl as (b & Hb & Hl). exists b. field_simpl.
  split; [|done]. rewrite lookup_delete_ne; [done|]. intros ->. rewrite (in_use s Hc) in *. done.
Qed.

Lemma PutBucketVersioning_lock req : preserves (keeps locked_in_use) (PutBucketVersioning req).
Proof.
  intros s (Hok & Hc & Hl). pose proof (PutBucketVersioning_ok req s Hok) as Hok'. split; [done|].
  unfold PutBucketVersioning, update_bucket. apply wp_exec. repeat wp_step; try done. split; [done|]. unfold lock_enabled. field_simpl.
  eapply lock_enabled_insert; [|exact Hl|reflexivity]. simplify_eq.
  assert (bk_BucketID a = pbv_BucketID req) as -> by (by apply (bucket_key _ _ Hok)).
  intros b' Hb'. by simplify_eq.
Qed.

Lemma PutBucketObjectLock_lock req : preserves (keeps locked_in_use) (PutBucketObjectLock req).
Proof.
  unfold PutBucketObjectLock. destruct (_ =s _); [apply preserves_fail; tc_solve|].
  destruct (validateBucketObjectLockConfiguration (bolr_Configuration req)) as [u|e] eqn:Hv.
  2:{ intros s Hs. exact Hs. }
  assert (bolc_Enabled (bolr_Configuration req) = true) as He.
  { revert Hv. unfold validateBucketObjectLockConfiguration. by destruct (bolc_Enabled _). }
  apply preserves_bind; [tc_solve|apply preserves_lift; tc_solve|intros _].
  apply preserves_bind; [tc_solve|by apply update_bucket_lock|intros b].
  apply (frames_keeps locked_view); [|frame].
  unfold locked_in_use, buckets_ok, has_committed, lock_enabled, locked_view.
  intros s s' Heq. by injection Heq as -> -> ->.
Qed.

(** A lock-enabled bucket that holds a committed version stays lock-enabled. *)
Lemma lock_stays c s :
  buckets_ok s -> has_committed s -> lock_enabled s (vk_bucketID k) ->
  lock_enabled (st_exec (run c) s) (vk_bucketID k).
Proof.
  intros Hok Hc Hl.
  assert (frames bucketsByID (run c) \/ preserves (keeps locked_in_use) (run c)) as [Hf|Hp].
  3:{ by apply Hp. }
  2:{ destruct Hl as (b & Hb & Hl). exists b. by rewrite (Hf s). }
  assert (forall A (m : M A), frames locked_view m -> preserves (keeps locked_in_use) m) as Hv.
  { intros A m. apply frames_keeps. unfold locked_in_use, buckets_ok, has_committed, lock_enabled, locked_view.
    intros s1 s2 Heq. by injection Heq as -> -> ->. }
  destruct c; cbn [run]; first
    [ left; solve [frame]
    | right; solve [walk ltac:(first
        [ apply CreateBucket_lock | apply DeleteBucket_lock | apply PutBucketVersioning_lock
        | apply PutBucketObjectLock_lock
        | apply update_bucket_lock; [intros b; done | intros b Hb; first [exact Hb | done] | by intros b]
        | solve [apply Hv; frame] ])] ].
Qed.

(** ** The version stays *)

(** How a call that reads the clock at the ticks from [n] up to [m] may change a
    held version: tags freely, retention by an update that is not blocked, the
    legal hold only as [hold] says. *)
Record evolves (hold : string -> Prop) (n m : nat) (v v' : ObjectVersion) : Prop := {
  evolves_content : content v' = content v;
  evolves_retention : ov_ObjectLockRetention v' = ov_ObjectLockRetention v \/
    exists i b, (n <= i < m)%nat /\
      retentionUpdateBlocked (ov_ObjectLockRetention v) (ov_ObjectLockRetention v') (env_now i) b = false;
  evolves_hold : ov_ObjectLockLegalHold v' = ov_ObjectLockLegalHold v \/ hold (ov_ObjectLockLegalHold v')
}.

Lemma evolves_refl hold n m v : evolves hold n m v v.
Proof. split; auto. Qed.

Lemma evolves_tags hold n m v tags : evolves hold n m v (v <| ov_Tags := tags |>).
Proof. split; [reflexivity | by left | by left]. Qed.

Section Version.
Context (hold : string -> Prop) (s : Repository) (v : ObjectVersion).
Hypothesis (Hinv : obj_inv s) (Hv : versions s !! k = Some v).
Hypothesis (Hcommitted : ov_State v = ObjectVersionCommitted) (Hlock : lock_enabled s (vk_bucketID k)).

Definition stays_in (V : gmap versionKey ObjectVersion) (m : nat) : Prop :=
  exists v', V !! k = Some v' /\ evolves hold (clock_calls s) m v v'.

(** The postcondition of a call, under the hypothesis that the version is held at
    each of its clock ticks. *)
Definition stays (s' : Repository) : Prop :=
  (forall i, (clock_calls s <= i < clock_calls s')%nat -> held v (env_now i)) ->
  stays_in (versions s') (clock_calls s').

Lemma stays_same m : stays_in (versions s) m.
Proof. exists v. split; [done | apply evolves_refl]. Qed.

Lemma stays_insert V k' w m :
  stays_in V m -> (k' = k -> evolves hold (clock_calls s) m v w) -> stays_in (<[k' := w]> V) m.
Proof.
  intros (v' & Hv' & He) Hw. destruct (decide (k' = k)) as [->|Hne].
  - exists w. rewrite lookup_insert_eq. auto.
  - exists v'. by rewrite lookup_insert_ne.
Qed.

Lemma stays_delete V k' m : stays_in V m -> k' <> k -> stays_in (delete k' V) m.
Proof. intros (v' & Hv' & He) Hne. exists v'. by rewrite lookup_delete_ne. Qed.

(** An unversioned bucket is not the bucket of the version. *)
Lemma other_bucket bucketID b :
  bucketsByID s !! bucketID = Some b -> bk_VersioningState b <> BucketVersioningEnabled ->
  bucketID <> vk_bucketID k.
Proof.
  intros Hb Hne ->. destruct Hlock as (b' & Hb' & Hl). simplify_eq. apply Hne.
  by apply (bucket_lock _ _ (inv_buckets _ Hinv) _ _ Hb).
Qed.

Lemma stays_frame {A} (m : M A) : frames versions m -> stays (st_exec m s).
Proof. intros Hm _. unfold stays_in. rewrite (Hm s). apply stays_same. Qed.

Lemma stays_fresh k' w m : versions s !! k' = None -> stays_in (<[k' := w]> (versions s)) m.
Proof. intros Hn. apply stays_insert; [apply stays_same|]. intros ->. congruence. Qed.

(** The drawn identifier is not in use. *)
Ltac drawn_unused :=
  match goal with Hn : is_some (_ !! mk_versionKey _ _ _) = false |- _ =>
    apply is_some_false in Hn; field_simpl_in Hn; exact Hn end.

Lemma BeginPutObject_stays req : stays (st_exec (BeginPutObject req) s).
Proof.
  unfold BeginPutObject. apply wp_exec. owp; intros _; try exact (stays_same _).
  field_simpl. apply stays_fresh. drawn_unused.
Qed.

Lemma PutObjectVersion_stays req : stays (st_exec (PutObjectVersion req) s).
Proof.
  unfold PutObjectVersion. apply wp_exec. owp; intros _; try exact (stays_same _).
  field_simpl. apply stays_insert.
  - match goal with HV : _ \/ _ |- _ => field_simpl_in HV; destruct HV as [->|(Hne & _ & _ & ->)] end;
      [apply stays_same|]. apply stays_delete; [apply stays_same|]. intros Hk.
    eapply other_bucket; [eassumption|exact Hne|]. by rewrite <- Hk.
  - intros Hk. assert (versions s !! mk_versionKey (bpo_BucketID req) (bpo_Key req) id = None) by drawn_unused.
    congruence.
Qed.

Lemma CommitObjectVersion_stays req : stays (st_exec (CommitObjectVersion req) s).
Proof.
  unfold CommitObjectVersion. apply wp_exec. owp; intros _; try exact (stays_same _).
  field_simpl. set (k' := mk_versionKey (cov_BucketID req) _ _) in *.
  assert (forall w, stays_in (<[k' := w]> (versions s)) (S (clock_calls s))) as Hk'.
  { intros w. apply stays_insert; [apply stays_same|]. intros ->. simplify_eq.
    by match goal with Hs : (ov_State v =s _) = false |- _ => rewrite Hcommitted in Hs end. }
  match goal with HV : _ \/ _ |- _ => field_simpl_in HV; destruct HV as [->|(Hne & _ & _ & ->)] end; [done|].
  apply stays_delete; [done|]. intros Hk. destruct Hlock as (b & Hb & Hl).
  assert (cov_BucketID req = vk_bucketID k) as Hbk by (by rewrite <- Hk). rewrite Hbk, Hb in Hne. simpl in Hne.
  apply Hne. by apply (bucket_lock _ _ (inv_buckets _ Hinv) _ _ Hb).
Qed.

Lemma createDeleteMarker_stays req : stays (st_exec (createDeleteMarkerLocked req) s).
Proof.
  unfold createDeleteMarkerLocked. apply wp_exec. owp; intros _; try exact (stays_same _).
  field_simpl. apply stays_fresh. drawn_unused.
Qed.

(** Simplifies the goal and the hypothesis on ticks after a run. *)
Ltac ticks Ht :=
  field_simpl; field_simpl_in Ht; state_simpl; use_same; field_simpl; field_simpl_in Ht; state_simpl.

Lemma gate_held w t (P : Prop) :
  held w t ->
  objectVersionProtectedByObjectLock w t false = false \/
  (objectVersionProtectedByObjectLock w t true = false /\ P) -> False.
Proof.
  intros Hh [Hp|[Hp _]]; [rewrite (held_any _ _ false Hh) in Hp | rewrite (held_any _ _ true Hh) in Hp]; done.
Qed.

Lemma deleteObjectVersion_stays req : stays (st_exec (deleteObjectVersionLocked req) s).
Proof.
  unfold deleteObjectVersionLocked. apply wp_exec. owp; intros Ht; try exact (stays_same _); ticks Ht.
  all: (apply stays_delete; [apply stays_same|]); intros Hk; rewrite Hk in *; simplify_eq.
  all: assert (held v (env_now (clock_calls s))) as Hheld by (apply Ht; lia).
  all: match goal with Hg : _ \/ _ |- _ => by destruct (gate_held _ _ _ Hheld Hg) end.
Qed.

Lemma DeleteObject_stays req : stays (st_exec (DeleteObject req) s).
Proof.
  unfold DeleteObject. apply wp_exec. apply wp_if; intros _; [intros _; exact (stays_same _)|]. cbv zeta.
  apply wp_bind, wp_lookup_or; [intros b Hb|intros _ _; exact (stays_same _)].
  apply wp_if; intros _; [apply deleteObjectVersion_stays|]. apply wp_bind, wp_gets. apply wp_if; intros Hvs.
  { apply wp_bind. destruct (heads s !! _); [apply wp_checkKMS; [|intros _; exact (stays_same _)]|apply wp_ret];
      apply createDeleteMarker_stays. }
  apply String.eqb_neq in Hvs. apply wp_option_r; [intros h Hh|intros _ _; exact (stays_same _)].
  owp; intros Ht; try exact (stays_same _); ticks Ht; [apply stays_same|].
  apply stays_delete; [apply stays_same|]. intros Hk. apply (other_bucket _ _ Hb Hvs). by rewrite <- Hk.
Qed.

Lemma PutObjectTags_stays req : stays (st_exec (PutObjectTags req) s).
Proof.
  unfold PutObjectTags. apply wp_exec. owp; intros _; try exact (stays_same _); field_simpl.
  all: state_simpl; (apply stays_insert; [apply stays_same|]); intros Hk; rewrite Hk in *; simplify_eq; apply evolves_tags.
Qed.

Lemma PutObjectRetention_stays req : stays (st_exec (PutObjectRetention req) s).
Proof.
  unfold PutObjectRetention. apply wp_exec. owp; intros Ht; try exact (stays_same _); cbn [fst snd] in *; ticks Ht.
  all: (apply stays_insert; [apply stays_same|]); intros Hk; rewrite Hk in *; simplify_eq.
  all: split; [reflexivity | right | by left]; field_simpl; exists (S (clock_calls s)).
  all: match goal with Hg : _ \/ _ |- _ => destruct Hg as [Hg|[Hg _]]; eexists; (split; [lia|exact Hg]) end.
Qed.

Lemma live_rewrite_stays k' w t :
  versions s !! k' = Some w -> objectVersionProtectedByObjectLock w t false = false ->
  held v t -> k' <> k.
Proof. intros Hw Hp Hh ->. simplify_eq. by rewrite (held_any _ _ false Hh) in Hp. Qed.

Lemma AttachObjectVersion_stays req : stays (st_exec (AttachObjectVersionToSharedObject req) s).
Proof.
  unfold AttachObjectVersionToSharedObject. apply wp_exec. owp; intros Ht; try exact (stays_same _); ticks Ht.
  all: (apply stays_insert; [apply stays_same|]); intros Hk; exfalso; revert Hk.
  all: eapply live_rewrite_stays; [eassumption|eassumption|]; apply Ht; lia.
Qed.

Lemma PublishObjectVersionRefs_stays req : stays (st_exec (PublishObjectVersionRefs req) s).
Proof.
  unfold PublishObjectVersionRefs. apply wp_exec. owp; intros Ht; try exact (stays_same _); ticks Ht.
  all: (apply stays_insert; [apply stays_same|]); intros Hk; exfalso; revert Hk.
  all: eapply live_rewrite_stays; [eassumption|eassumption|]; apply Ht; lia.
Qed.

Lemma PutObjectLegalHold_stays req :
  (olh_BucketID req = vk_bucketID k -> olh_Key req = vk_key k -> hold (olh_LegalHold req)) ->
  stays (st_exec (PutObjectLegalHold req) s).
Proof.
  intros Hhold. unfold PutObjectLegalHold. apply wp_exec. owp; intros Ht; try exact (stays_same _); ticks Ht.
  all: (apply stays_insert; [apply stays_same|]); intros Hk; cbn [fst snd] in *.
  all: pose proof (f_equal vk_bucketID Hk) as Hkb; pose proof (f_equal vk_key Hk) as Hkk; rewrite Hk in *; simplify_eq.
  all: split; [reflexivity | by left | right]; field_simpl; by apply Hhold.
Qed.

End Version.

(** A legal-hold request that targets the version's object. *)
Definition holds_object (c : call) (h : string) : Prop :=
  exists req, c = C_PutObjectLegalHold req /\ olh_BucketID req = vk_bucketID k /\
    olh_Key req = vk_key k /\ h = olh_LegalHold req.

Lemma call_stays c s v :
  obj_inv s -> versions s !! k = Some v -> ov_State v = ObjectVersionCommitted ->
  lock_enabled s (vk_bucketID k) -> stays (holds_object c) s v (st_exec (run c) s).
Proof.
  intros Hinv Hv Hc Hl. destruct c; cbn [run]; rewrite exec_discard.
  all: first
    [ by apply BeginPutObject_stays | by apply CommitObjectVersion_stays | by apply PutObjectVersion_stays
    | by apply DeleteObject_stays | by apply PutObjectTags_stays | by apply PutObjectRetention_stays
    | by apply AttachObjectVersion_stays | by apply PublishObjectVersionRefs_stays
    | apply PutObjectLegalHold_stays; [done|done|intros; eexists; split_and!; done]
    | apply stays_frame; [done|]; solve [frame] ].
Qed.

Definition clock_grows (s s' : Repository) : Prop := (clock_calls s <= clock_calls s')%nat.

Lemma clock_mono c : preserves clock_grows (run c).
Proof.
  assert (Reflexive clock_grows) by (intros x; unfold clock_grows; lia).
  assert (Transitive clock_grows) by (intros x y z; unfold clock_grows; lia).
  assert (forall A (m : M A), frames clock_calls m -> preserves clock_grows m) as Hf.
  { intros A m Hm x. unfold clock_grows. rewrite (Hm x). lia. }
  assert (preserves clock_grows now) as Hnow by (intros x; unfold clock_grows, st_exec, now; simpl; field_simpl; lia).
  assert (forall e, preserves clock_grows (appendAuditEventLocked e)) as Happ.
  { intros e x. change (st_exec _ x) with (appended e x). unfold clock_grows. rewrite clock_appended. lia. }
  assert (forall l, preserves clock_grows (put_admin_events l)) as Hadm.
  { induction l; cbn [put_admin_events];
      walk ltac:(first [apply Hnow | apply Happ | solve [apply Hf; frame] | assumption]). }
  destruct c; cbn [run].
  all: walk ltac:(first [apply Hnow | apply Happ | apply Hadm | solve [apply Hf; frame]]).
  intros x. unfold clock_grows, st_exec. pose proof (frames_repair_all clock_calls a0 a1 x ltac:(done)) as Hr.
  destruct (repair_all a0 a1 x). simpl in *. lia.
Qed.

End Worm.

(** ** Sequences of calls *)

Section Runs.
Context `{Env, !GeneratorOk}.

Lemma reachable_step c s : reachable s -> reachable (st_exec (run c) s).
Proof. intros Hs. eapply rtc_r; [exact Hs | by exists c]. Qed.

Lemma run_all_clock l s : (clock_calls s <= clock_calls (run_all l s))%nat.
Proof.
  revert s. induction l as [|c l IH]; intros s; [simpl; lia|].
  simpl. pose proof (clock_mono c s). pose proof (IH (st_exec (run c) s)). unfold clock_grows in *. lia.
Qed.

(** The state of a version that object lock protects. *)
Record locked_version (k : versionKey) (v : ObjectVersion) (s : Repository) : Prop := {
  lv_found : versions s !! k = Some v;
  lv_committed : ov_State v = ObjectVersionCommitted;
  lv_object : ov_DeleteMarker v = false;
  lv_bucket : lock_enabled s (vk_bucketID k)
}.

Lemma content_fields v v' :
  content v' = content v -> ov_State v' = ov_State v /\ ov_DeleteMarker v' = ov_DeleteMarker v.
Proof.
  intros Hc. split; [apply (f_equal ov_State) in Hc | apply (f_equal ov_DeleteMarker) in Hc]; exact Hc.
Qed.

(** One call keeps a version that is held at each of the call's clock ticks. *)
Lemma locked_version_step k v c s :
  reachable s -> locked_version k v s ->
  (forall i, (clock_calls s <= i < clock_calls (st_exec (run c) s))%nat -> held v (env_now i)) ->
  exists v', locked_version k v' (st_exec (run c) s) /\
    evolves (holds_object k c) (clock_calls s) (clock_calls (st_exec (run c) s)) v v'.
Proof.
  intros Hr [Hv Hc Hd Hl] Ht. pose proof (reachable_obj_inv s Hr) as Hinv.
  destruct (call_stays k c s v Hinv Hv Hc Hl Ht) as (v' & Hv' & He). exists v'. split; [|done].
  destruct (content_fields _ _ (evolves_content _ _ _ _ _ He)) as [Es Ed]. split; [done|congruence|congruence|].
  apply lock_stays; [apply Hinv|by exists v|done].
Qed.

(** A version in COMPLIANCE mode stays locked while the clock is before its date. *)
Lemma compliance_run (l : list call) (s : Repository) (k : versionKey) (v : ObjectVersion) :
  reachable s -> locked_version k v s -> retention_mode v = ObjectLockModeCompliance ->
  (forall i, (clock_calls s <= i < clock_calls (run_all l s))%nat -> env_now i < retain_until v) ->
  exists v', locked_version k v' (run_all l s) /\ content v' = content v /\
    retention_mode v' = ObjectLockModeCompliance /\ retain_until v <= retain_until v'.
Proof.
  revert s v. induction l as [|c l IH]; intros s v Hr Hlv Hm Ht.
  { exists v. split; [done|]. split; [done|]. split; [done | simpl; lia]. }
  simpl in *. pose proof (run_all_clock l (st_exec (run c) s)) as Hmono.
  pose proof (clock_mono c s) as Hmono1. unfold clock_grows in Hmono1.
  destruct (locked_version_step k v c s Hr Hlv) as (v1 & Hlv1 & He).
  { intros i Hi. apply held_compliance; [apply Hlv|done|]. apply Ht. lia. }
  assert (retention_mode v1 = ObjectLockModeCompliance /\ retain_until v <= retain_until v1) as [Hm1 Hu1].
  { destruct (evolves_retention _ _ _ _ _ He) as [Eq|(i & b & Hi & Hb)].
    - unfold retention_mode, retain_until in *. rewrite Eq. split; [done|lia].
    - eapply update_not_blocked; [exact Hm| |exact Hb]. apply Ht. lia. }
  destruct (IH _ v1 (reachable_step c s Hr) Hlv1 Hm1) as (v2 & Hv2 & Hc2 & Hm2 & Hu2).
  { intros i Hi. eapply Z.lt_le_trans; [apply Ht; lia | done]. }
  exists v2. split; [done|]. split; [|split; [done|lia]]. rewrite Hc2. apply He.
Qed.

(** C1: compliance retention is write-once-read-many. Take a reachable state, a
    committed version in COMPLIANCE mode in a lock-enabled bucket, and any sequence
    of calls, by any caller, with any bypass flag. If every clock reading made
    during the sequence is before the version's retain-until date, then at the end
    the version is still there, with the same content, still in COMPLIANCE mode, and
    with a retain-until date that is no earlier. *)
Theorem worm_compliance (l : list call) (s : Repository) (k : versionKey) (v : ObjectVersion) :
  reachable s -> locked_version k v s -> retention_mode v = ObjectLockModeCompliance ->
  (forall i, (clock_calls s <= i < clock_calls (run_all l s))%nat -> env_now i < retain_until v) ->
  exists v', versions (run_all l s) !! k = Some v' /\ content v' = content v /\
    retention_mode v' = ObjectLockModeCompliance /\ retain_until v <= retain_until v'.
Proof.
  intros Hr Hlv Hm Ht. destruct (compliance_run l s k v Hr Hlv Hm Ht) as (v' & Hlv' & ?). exists v'.
  by split; [apply Hlv'|].
Qed.


End Runs.

(** ** Governance retention *)

Section Governance.
Context `{Env}.

(** C19: a version under object lock leaves the repository only through an audited
    governance bypass: when [DeleteObject] succeeds on a protected version, the
    protection is governance retention, the caller asked for the bypass and gave a
    reason and an access key, and the log gained exactly one event recording the
    action, the version, the principal and the reason. *)
Theorem governance_delete_audited (req : DeleteObjectRequest) (s s' : Repository) (v : ObjectVersion) (r : DeleteResult) :
  dor_VersionID req <> "" ->
  versions s !! mk_versionKey (dor_BucketID req) (dor_Key req) (dor_VersionID req) = Some v ->
  objectVersionProtectedByObjectLock v (env_now (clock_calls s)) false = true ->
  DeleteObject req s = (Ok r, s') ->
  retention_mode v = ObjectLockModeGovernance /\ on_hold v = false /\
  dor_BypassGovernanceRetention req = true /\
  TrimSpace (actx_Reason (dor_BypassAudit req)) <> "" /\
  TrimSpace (ap_AccessKeyID (actx_Principal (dor_BypassAudit req))) <> "" /\
  exists e, auditEvents s' = (auditEvents s ++ [e])%list /\
    ae_Action e = AuditActionGovernanceBypassDeleteObject /\
    ae_VersionID e = ov_VersionID v /\ ae_Principal e = actx_Principal (dor_BypassAudit req) /\
    ae_Reason e = TrimSpace (actx_Reason (dor_BypassAudit req)) /\ ae_PreviousHash e = auditHeadHash s.
Proof.
  intros Hvid Hv Hp Hrun.
  assert (wp (DeleteObject req) (fun o s' => match o with Ok _ =>
    objectVersionProtectedByObjectLock v (env_now (clock_calls s)) true = false /\
    dor_BypassGovernanceRetention req = true /\ validGovernanceBypassAudit (dor_BypassAudit req) = true /\
    auditEvents s' = auditEvents (appended (governanceBypassAuditEvent req AuditActionGovernanceBypassDeleteObject
       (ov_VersionID v) (<["target" := "object_version"]> ∅)) (s <| clock_calls := S (clock_calls s) |>)) | Fail _ => True end) s)
    as Hwp.
  { unfold DeleteObject. apply wp_if; intros _; [done|]. cbv zeta. apply wp_bind, wp_lookup_or; [intros b _|done].
    apply wp_if; intros Hne; [|by apply negb_false_iff, String.eqb_eq in Hne].
    unfold deleteObjectVersionLocked. cbv zeta. apply wp_bind, wp_lookup_or; [intros w Hw|done].
    simplify_eq. apply wp_bind, wp_checkKMS; [|done]. apply wp_bind, wp_now, wp_bind.
    apply wp_governance_gate; [congruence|intros _ Hp' Hb Ha|done]. set (s1 := appended _ _).
    clearbody s1. owp; done. }
  unfold wp in Hwp. rewrite Hrun in Hwp. simpl in Hwp. destruct Hwp as (Hp' & Hb & Ha & He).
  assert (retention_mode v = ObjectLockModeGovernance /\ on_hold v = false) as [Hm Hh].
  { revert Hp Hp'. unfold objectVersionProtectedByObjectLock, objectLockProtected, retention_mode, on_hold.
    repeat case_match; try done. intros _ _. split; [by apply String.eqb_eq|done]. }
  unfold validGovernanceBypassAudit in Ha. rewrite andb_true_iff, !negb_true_iff, !String.eqb_neq in Ha.
  destruct Ha as [Ha1 Ha2]. split_and!; try done. eexists. split; [exact He|]. by repeat split.
Qed.

End Governance.

(** ** Witnesses *)

(** An administrator who tries to get rid of the example object. *)
Definition ex_attack : list call :=
  [ C_DeleteObject (mkDeleteObjectRequest ex_bucket "a" "ver_1" true ex_audit);
    C_PutObjectRetention (mkObjectRetentionRequest ex_bucket "a" "ver_1"
      (mkObjectLockRetention ObjectLockModeGovernance 500) true ex_audit ex_audit);
    C_PutBucketVersioning (mkPutBucketVersioningRequest ex_bucket BucketVersioningSuspended);
    C_DeleteBucket ex_bucket;
    C_PutObjectVersion (ex_put "a" zero_ObjectLockRetention "") ].

Lemma ex_locked : @locked_version ex_key_a (ex_version ex_key_a) ex_state.
Proof.
  split.
  - apply ex_lookup. by_eval.
  - by_eval.
  - by_eval.
  - exists (default zero_Bucket (bucketsByID ex_state !! ex_bucket)).
    split; [apply (some_of_is_some zero_Bucket); by_eval | by_eval].
Qed.

Lemma worm_compliance_witness :
  exists v', versions (@run_all exEnv ex_attack ex_state) !! ex_key_a = Some v' /\
    content v' = content (ex_version ex_key_a) /\ retain_until v' >= 1000000.
Proof.
  destruct (@worm_compliance exEnv exEnv_ok ex_attack ex_state ex_key_a (ex_version ex_key_a))
    as (v' & H1 & H2 & _ & H3).
  - exact ex_reachable.
  - exact ex_locked.
  - vm_compute. reflexivity.
  - assert (clock_calls (@run_all exEnv ex_attack ex_state) = 9%nat) as -> by (vm_compute; reflexivity).
    assert (retain_until (ex_version ex_key_a) = 1000000) as -> by (vm_compute; reflexivity).
    intros i Hi. change (@env_now exEnv i) with (Z.of_nat i + 1). lia.
  - exists v'. split; [exact H1|]. split; [exact H2|].
    assert (retain_until (ex_version ex_key_a) = 1000000) as E by (vm_compute; reflexivity). lia.
Defined.


Definition ex_bypass : DeleteObjectRequest := mkDeleteObjectRequest ex_bucket "b" "ver_2" true ex_audit.

Lemma governance_delete_audited_witness :
  exists e, auditEvents (@st_exec _ _ _ (@DeleteObject exEnv ex_bypass) ex_state) = (auditEvents ex_state ++ [e])%list /\
    ae_Principal e = actx_Principal ex_audit.
Proof.
  destruct (@DeleteObject exEnv ex_bypass ex_state) as [[r|e] s'] eqn:E.
  - unfold st_exec. rewrite E.
    destruct (@governance_delete_audited exEnv ex_bypass ex_state s' (ex_version ex_key_b) r) as (_ & _ & _ & _ & _ & e & H1 & _ & _ & H2 & _).
    + discriminate.
    + apply (ex_lookup ex_key_b). by_eval.
    + vm_compute. reflexivity.
    + exact E.
    + exists e. split; [exact H1 | exact H2].
  - apply (f_equal (fun p => is_ok p.1)) in E. vm_compute in E. discriminate.
Defined.
