(* ===== verification/Pagination.v ===== *)
(** * Pagination: what the listings of the memory repository return

    Rolling keys up into common prefixes loses nothing and invents nothing, the
    entries come out strictly ordered, a page resumes exactly after the previous
    one, and a client that follows the markers sees every entry once. The client
    is [follow]; it is the loop of any S3 SDK paginator. *)

From S2P Require Import Prelude GoLib Sha256 StorageTypes Model Requests Encoding Meta Manifest Repo RepoListing.
From S2P Require Import RepoLogic RepoCalls ObjInv RepoExample.
From Stdlib Require Import Sorted Ascii.
Open Scope string_scope.
Open Scope Z_scope.

(** ** Strings *)

Lemma prefix_take d n s : String.prefix d (take_str n s) = true -> String.prefix d s = true.
Proof.
  unfold take_str. revert n s. induction d as [|c d IH]; intros n s; [by destruct s|].
  destruct s as [|e s]; [by destruct n|]. destruct n; [done|]. simpl.
  destruct (ascii_dec c e); [apply IH|done].
Qed.

(** The part of a text up to its first delimiter has its first delimiter at the
    same place. *)
Lemma Index_take d s i :
  d <> "" -> Index s d = Some i -> Index (take_str (i + String.length d) s) d = Some i.
Proof.
  intros Hd. unfold Index. revert i. induction s as [|c s IH]; intros i; [by destruct d|].
  cbn [String.index]. destruct (String.prefix d (String c s)) eqn:Hp.
  - intros [= <-]. apply prefix_spec in Hp as [t Ht]. rewrite Ht. cbn [Nat.add]. rewrite take_str_app.
    destruct d as [|e d]; [done|]. cbn [String.index].
    assert (String.prefix (String e d) (String e d) = true) as ->; [|done].
    apply prefix_spec. exists "". by rewrite str_app_nil_r.
  - destruct (String.index 0 d s) as [j|] eqn:Hj; [|done]. intros [= <-].
    change (take_str (S j + String.length d) (String c s)) with (String c (take_str (j + String.length d) s)).
    cbn [String.index]. rewrite (IH j) by done.
    destruct (String.prefix d (String c (take_str _ s))) eqn:Hq; [|done].
    by rewrite (prefix_take d (S (j + String.length d)) (String c s) Hq) in Hp.
Qed.

(** ** Common prefixes *)

Section Prefixes.
Context (reqPrefix delimiter : string).

(** A common prefix rolls up into itself, so it never is the name of a key that
    does not roll up. *)
Lemma common_prefix_fixed key p :
  HasPrefix key reqPrefix = true ->
  common_prefix reqPrefix delimiter key = Some p -> common_prefix reqPrefix delimiter p = Some p.
Proof.
  intros [rest ->]%prefix_spec. unfold common_prefix.
  destruct (String.eqb_spec delimiter "") as [|Hd]; [done|]. rewrite TrimPrefix_app.
  destruct (Index rest delimiter) as [i|] eqn:Hi; [|done]. intros [= <-].
  rewrite TrimPrefix_app, (Index_take _ _ _ Hd Hi). do 2 f_equal.
  unfold take_str. clear Hi. generalize (i + String.length delimiter)%nat as n. intros n.
  revert rest. induction n as [|n IH]; intros [|c rest]; simpl; [done..|by rewrite IH].
Qed.

Lemma common_prefix_named key p : common_prefix reqPrefix delimiter key = Some p -> p <> "".
Proof.
  unfold common_prefix. destruct (String.eqb_spec delimiter "") as [|Hd]; [done|].
  destruct (Index _ delimiter) as [i|] eqn:Hi; [|done]. intros [= <-] He.
  apply (f_equal String.length) in He. rewrite str_length_app in He. simpl in He.
  pose proof (Index_take _ _ _ Hd Hi) as Ht. destruct (take_str _ _); [|simpl in He; lia].
  by destruct delimiter.
Qed.

Context {A : Type} (zero : A).
Implicit Types l : list (string * A).

(** The entries are the keys that do not roll up and the prefixes not seen yet. *)
Lemma elem_of_roll_up seen l e :
  e ∈ roll_up reqPrefix delimiter zero seen l <->
  (exists key a, e = mk_entry key false a /\ (key, a) ∈ l /\ common_prefix reqPrefix delimiter key = None) \/
  (exists p key a, e = mk_entry p true zero /\ (p ∉ seen) /\ (key, a) ∈ l /\
     common_prefix reqPrefix delimiter key = Some p).
Proof.
  revert seen. induction l as [|[key a] l IH]; intros seen; simpl.
  { split; [by intros ?%elem_of_nil | intros [(?&?&_&?%elem_of_nil&_)|(?&?&?&_&_&?%elem_of_nil&_)]; done]. }
  destruct (common_prefix reqPrefix delimiter key) as [p|] eqn:Hp.
  - case_bool_decide as Hin; rewrite ?elem_of_cons, IH.
    + split; [intros [(k&b&?&?&?)|(q&k&b&?&?&?&?)]|intros [(k&b&?&[?|?]%elem_of_cons&?)|(q&k&b&?&?&[?|?]%elem_of_cons&?)]];
        simplify_eq; first [done | congruence | left; exists k, b; by rewrite ?elem_of_cons; auto | right; exists q, k, b; by rewrite ?elem_of_cons; auto].
    + split.
      * intros [->|[(k&b&?&?&?)|(q&k&b&?&Hq&?&?)]].
        -- right. exists p, key, a. by rewrite elem_of_cons; auto.
        -- left. exists k, b. by rewrite elem_of_cons; auto.
        -- right. exists q, k, b. rewrite elem_of_cons. apply not_elem_of_union in Hq as [_ Hq]. by auto 6.
      * intros [(k&b&?&[?|?]%elem_of_cons&?)|(q&k&b&->&Hq&[?|?]%elem_of_cons&Hk)]; simplify_eq; [|by left|].
        -- right; left. by exists k, b.
        -- destruct (decide (q = p)) as [->|Hne]; [by left|]. right; right. exists q, k, b.
           rewrite not_elem_of_union, not_elem_of_singleton. done.
  - rewrite elem_of_cons, IH. split.
    + intros [->|[(k&b&?&?&?)|(q&k&b&?&?&?&?)]]; [left; exists key, a|left; exists k, b|right; exists q, k, b];
        by rewrite elem_of_cons; auto.
    + intros [(k&b&->&[?|?]%elem_of_cons&?)|(q&k&b&?&?&[?|?]%elem_of_cons&?)]; simplify_eq; [by left|right..];
        [left; by exists k, b|right; by exists q, k, b].
Qed.

(** The prefix entries are distinct, and the others inherit distinctness. *)
Lemma NoDup_roll_up seen l : NoDup l -> NoDup (roll_up reqPrefix delimiter zero seen l).
Proof.
  revert seen. induction l as [|[key a] l IH]; intros seen; simpl; [constructor|].
  intros [Hni Hl]%NoDup_cons. destruct (common_prefix _ _ key) as [p|] eqn:Hp; [case_bool_decide|]; [by apply IH| |];
    apply NoDup_cons; (split; [|by apply IH]); rewrite elem_of_roll_up.
  - intros [(?&?&?&_)|(?&?&?&?&Hq&_)]; simplify_eq. by apply not_elem_of_union in Hq as [Hq%not_elem_of_singleton _].
  - intros [(?&?&?&?&_)|(?&?&?&?&_)]; simplify_eq. done.
Qed.

(** Two entries of one name are two keys of that name. *)
Lemma roll_up_names l e1 e2 :
  (forall key a, (key, a) ∈ l -> HasPrefix key reqPrefix = true) ->
  e1 ∈ roll_up reqPrefix delimiter zero ∅ l -> e2 ∈ roll_up reqPrefix delimiter zero ∅ l ->
  name e1 = name e2 ->
  e1 = e2 \/ (prefix e1 = false /\ prefix e2 = false /\
              (name e1, payload e1) ∈ l /\ (name e2, payload e2) ∈ l).
Proof.
  intros Hl. rewrite !elem_of_roll_up.
  intros [(k1&a1&->&H1&N1)|(p1&k1&a1&->&_&H1&N1)] [(k2&a2&->&H2&N2)|(p2&k2&a2&->&_&H2&N2)]; simpl; intros Heq; simplify_eq.
  - by right.
  - apply common_prefix_fixed in N2; [congruence|by eapply Hl].
  - apply common_prefix_fixed in N1; [congruence|by eapply Hl].
  - by left.
Qed.

End Prefixes.

(** ** Orders *)

(** The three entry orders compare names and break ties by [tie]. *)
Section Lex.
Context {A : Type} (tie : entry A -> entry A -> bool).

Definition lex (a b : entry A) : bool := if name a =s name b then tie a b else str_ltb (name a) (name b).

Hypothesis tie_asym : forall a b, tie a b = true -> tie b a = false.
Hypothesis tie_trans : forall a b c, tie b a = false -> tie c b = false -> tie c a = false.

Lemma lex_asym a b : lex a b = true -> lex b a = false.
Proof.
  unfold lex. rewrite (String.eqb_sym (name b)).
  destruct (name a =s name b); [apply tie_asym | apply str_ltb_asym].
Qed.

Lemma lex_trans a b c : not_after lex a b -> not_after lex b c -> not_after lex a c.
Proof.
  unfold not_after, lex. intros H1 H2.
  assert (str_ltb (name b) (name a) = false) as L1 by (destruct (String.eqb_spec (name b) (name a)) as [->|]; [apply str_ltb_irrefl|done]).
  assert (str_ltb (name c) (name b) = false) as L2 by (destruct (String.eqb_spec (name c) (name b)) as [->|]; [apply str_ltb_irrefl|done]).
  destruct (String.eqb_spec (name c) (name a)) as [E|]; [|by eapply str_geb_trans].
  rewrite E in *. assert (name a = name b) as E' by (apply str_ltb_total; done).
  rewrite E' in *. rewrite String.eqb_refl in *. by eapply tie_trans.
Qed.

(** What the sorted list guarantees of two positions. *)
Lemma lex_sorted l i j a b :
  sort_by lex l !! i = Some a -> sort_by lex l !! j = Some b -> (i < j)%nat -> lex b a = false.
Proof.
  intros Ha Hb Hij. pose proof (sort_by_sorted lex lex_asym lex_trans l) as Hs. revert Ha Hb Hij Hs.
  generalize (sort_by lex l) as l'. intros l'. revert i j.
  induction l' as [|x l' IH]; intros i j Ha Hb Hij Hs; [done|].
  apply StronglySorted_inv in Hs as [Hs Hx]. destruct i as [|i], j as [|j]; [lia| |lia|].
  - simpl in *. simplify_eq. rewrite Forall_lookup in Hx. by eapply Hx.
  - simpl in *. eapply (IH i j); [done|done|lia|done].
Qed.

(** A strict reading, when a name and a tie identify an entry. *)
Lemma lex_before l i j a b :
  NoDup l -> (forall x y, x ∈ l -> y ∈ l -> name x = name y -> tie x y = false -> tie y x = false -> x = y) ->
  sort_by lex l !! i = Some a -> sort_by lex l !! j = Some b -> (i < j)%nat ->
  str_ltb (name a) (name b) = true \/ (name a = name b /\ tie a b = true).
Proof.
  intros Hnd Huniq Ha Hb Hij. pose proof (lex_sorted l i j a b Ha Hb Hij) as Hba. unfold lex in Hba.
  assert (a ∈ l /\ b ∈ l) as [Hina Hinb].
  { by split; rewrite <- (elem_of_sort_by lex); eapply list_elem_of_lookup_2. }
  assert (a <> b) as Hne.
  { intros ->. assert (NoDup (sort_by lex l)) as Hnd' by (by rewrite sort_by_perm).
    pose proof (NoDup_lookup _ _ _ _ Hnd' Ha Hb). lia. }
  rewrite String.eqb_sym in Hba. destruct (String.eqb_spec (name a) (name b)) as [E|E].
  - right. split; [done|]. destruct (tie a b) eqn:Hab; [done|]. exfalso. by apply Hne, Huniq.
  - left. destruct (str_ltb (name a) (name b)) eqn:Hab; [done|]. exfalso. by apply E, str_ltb_total.
Qed.

End Lex.

(** ** Resuming *)

Lemma search_exact n f j :
  (j < n)%nat -> (forall i, (i < n)%nat -> f i = bool_decide (j < i)%nat) -> sort_search n f = S j.
Proof.
  intros Hj Hf. destruct (sort_search_spec f n) as (Hn & Hlo & Hhi).
  { intros i k Hik. rewrite !Hf by lia. rewrite !bool_decide_eq_true. lia. }
  set (r := sort_search n f) in *. destruct (decide (r <= j)%nat) as [Hr|Hr].
  - specialize (Hhi j ltac:(lia)). rewrite Hf in Hhi by done. apply bool_decide_eq_true in Hhi. lia.
  - destruct (decide (r = S j)) as [|Hne]; [done|]. specialize (Hlo (S j) ltac:(lia)).
    rewrite Hf in Hlo by lia. apply bool_decide_eq_false in Hlo. lia.
Qed.

(** ** Following the markers *)

(** A client fetches a page and, as long as the page says where to go on, the
    next one; [None] is running out of fuel. *)
Section Follow.
Context {Req Page : Type} (fetch : Req -> outcome Err Page) (next : Req -> Page -> option Req).

Fixpoint follow (fuel : nat) (req : Req) : option (outcome Err (list Page)) :=
  match fuel with
  | O => None
  | S fuel' =>
      match fetch req with
      | Fail e => Some (Fail e)
      | Ok page =>
          match next req page with
          | None => Some (Ok [page])
          | Some req' =>
              match follow fuel' req' with
              | Some (Ok pages) => Some (Ok (page :: pages))
              | other => other
              end
          end
      end
  end.

(** If every request stands at a position of [l], shows the next [n] elements and
    moves on by [n] while there are more, the pages together show [l]. *)
Context {A : Type} (l : list A) (n : nat) (at_ : nat -> Req -> Prop) (shows : Page -> list A -> Prop).
Hypothesis n_pos : (0 < n)%nat.
Hypothesis fetch_at : forall k req, at_ k req -> exists page, fetch req = Ok page /\
  shows page (take n (drop k l)) /\
  if (n <? length (drop k l))%nat then exists req', next req page = Some req' /\ at_ (k + n) req'
  else next req page = None.

Lemma follow_complete fuel k req :
  at_ k req -> (length l < k + fuel)%nat -> (k <= length l)%nat ->
  exists pages chunks, follow fuel req = Some (Ok pages) /\ Forall2 shows pages chunks /\ concat chunks = drop k l.
Proof.
  revert k req. induction fuel as [|fuel IH]; intros k req Hat Hf Hk; [lia|].
  destruct (fetch_at k req Hat) as (page & Hp & Hs & Hn). cbn [follow]. rewrite Hp.
  destruct (Nat.ltb_spec n (length (drop k l))) as [Hlt|Hge].
  - destruct Hn as (req' & -> & Hat'). rewrite length_drop in Hlt.
    destruct (IH (k + n)%nat req' Hat' ltac:(lia) ltac:(lia)) as (pages & chunks & -> & Hsh & Hc).
    exists (page :: pages), (take n (drop k l) :: chunks). split; [done|]. split; [by constructor|].
    simpl. rewrite Hc, <- drop_drop. apply take_drop.
  - rewrite Hn. exists [page], [take n (drop k l)]. split; [done|]. split; [by repeat constructor|].
    simpl. rewrite app_nil_r. by apply firstn_all2.
Qed.

End Follow.

Lemma NoDup_omap {A B} (f : A -> option B) (l : list A) :
  NoDup l -> (forall x y z, f x = Some z -> f y = Some z -> x = y) -> NoDup (omap f l).
Proof.
  intros Hl Hf. induction Hl as [|x l Hx Hl IH]; simpl; [constructor|].
  destruct (f x) as [z|] eqn:Hz; [|done]. constructor; [|done].
  intros (y & Hy & Hyz)%list_elem_of_omap. by rewrite (Hf _ _ _ Hz Hyz) in Hx.
Qed.

(** ** Objects *)

Section Objects.
Context `{Env}.
Context (s : Repository) (bucketID : string) (reqPrefix delimiter : string).

Definition lists_key (key : string) (h : ObjectHead) : Prop :=
  heads s !! mk_objectKey bucketID key = Some h /\ oh_DeleteMarker h = false /\ HasPrefix key reqPrefix = true.

Lemma elem_of_listed_heads key h : (key, h) ∈ listed_heads s bucketID reqPrefix <-> lists_key key h.
Proof.
  unfold listed_heads, lists_key. rewrite list_elem_of_omap. split.
  - intros ([[b k] h'] & Hin%elem_of_map_to_list & Heq). simpl in Heq.
    destruct (String.eqb_spec b bucketID) as [->|]; [|done]. destruct (oh_DeleteMarker h') eqn:Hd; [done|].
    destruct (HasPrefix k reqPrefix) eqn:Hp; [|done]. simpl in Heq. by simplify_eq.
  - intros (Hh & Hd & Hp). exists (mk_objectKey bucketID key, h). rewrite elem_of_map_to_list.
    split; [done|]. simpl. by rewrite String.eqb_refl, Hd, Hp.
Qed.

Lemma NoDup_listed_heads : NoDup (listed_heads s bucketID reqPrefix).
Proof.
  apply NoDup_omap; [apply NoDup_map_to_list|].
  intros [[b1 k1] h1] [[b2 k2] h2] z. simpl.
  destruct (String.eqb_spec b1 bucketID) as [->|]; [|done]. destruct (String.eqb_spec b2 bucketID) as [->|]; [|done].
  destruct (oh_DeleteMarker h1), (HasPrefix k1 reqPrefix), (oh_DeleteMarker h2), (HasPrefix k2 reqPrefix); try done.
  simpl. intros. by simplify_eq.
Qed.

Context (req : ListObjectsRequest).
Hypothesis req_bucket : lor_BucketID req = bucketID.
Hypothesis req_prefix : lor_Prefix req = reqPrefix.
Hypothesis req_delimiter : lor_Delimiter req = delimiter.

Lemma elem_of_listEntries e :
  e ∈ listEntries s req <->
  (exists key h, e = mk_entry key false h /\ lists_key key h /\ common_prefix reqPrefix delimiter key = None) \/
  (exists p key h, e = mk_entry p true zero_ObjectHead /\ lists_key key h /\
     common_prefix reqPrefix delimiter key = Some p).
Proof.
  unfold listEntries. rewrite elem_of_sort_by, req_bucket, req_prefix, req_delimiter, elem_of_roll_up.
  setoid_rewrite elem_of_listed_heads. split.
  - intros [?|(p & key & h & -> & _ & ?)]; [by left | right; by exists p, key, h].
  - intros [?|(p & key & h & -> & ?)]; [by left | right; exists p, key, h]. split; [done|]. split; [apply not_elem_of_empty|done].
Qed.

(** The entries are strictly ordered by name. *)
Lemma listEntries_before i j a b :
  listEntries s req !! i = Some a -> listEntries s req !! j = Some b -> (i < j)%nat -> str_ltb (name a) (name b) = true.
Proof.
  set (tie := fun a b : entry ObjectHead => negb (prefix a) && prefix b).
  change (listEntries s req) with (sort_by (lex tie) (roll_up (lor_Prefix req) (lor_Delimiter req) zero_ObjectHead ∅
       (listed_heads s (lor_BucketID req) (lor_Prefix req)))).
  rewrite req_bucket, req_prefix, req_delimiter. set (l := listed_heads s bucketID reqPrefix).
  set (entries := roll_up _ _ _ _ l). intros Ha Hb Hij.
  assert (forall x y, x ∈ entries -> y ∈ entries -> name x = name y -> x = y) as Huniq.
  { intros x y Hx Hy Hn.
    destruct (roll_up_names reqPrefix delimiter zero_ObjectHead l x y ltac:(by intros key h (_ & _ & Hp)%elem_of_listed_heads)
      Hx Hy Hn) as [?|(P1 & P2 & H1 & H2)]; [done|].
    apply elem_of_listed_heads in H1 as [H1 _], H2 as [H2 _]. destruct x, y. simpl in *. by simplify_eq. }
  assert (NoDup entries) as Hnd by apply NoDup_roll_up, NoDup_listed_heads.
  destruct (lex_before tie) with (l := entries) (i := i) (j := j) (a := a) (b := b) as [?|[Hn Ht]]; try done.
  - intros [? [] ?] [? [] ?]; done.
  - intros [? [] ?] [? [] ?] [? [] ?]; done.
  - intros x y Hx Hy Hn _ _. by apply Huniq.
  - assert (a = b) as ->; [|by destruct b as [? [] ?]].
    apply Huniq; [| |done]; rewrite <- (elem_of_sort_by (lex tie)); by eapply list_elem_of_lookup_2.
Qed.

(** Resuming after an entry drops exactly the entries up to it. *)
Lemma entriesAfter_exact j e : listEntries s req !! j = Some e -> entriesAfter (listEntries s req) (name e) = drop (S j) (listEntries s req).
Proof.
  intros Hj. unfold entriesAfter. f_equal. apply search_exact; [by eapply lookup_lt_Some|].
  intros i [a Ha]%lookup_lt_is_Some. rewrite Ha. case_bool_decide as Hij.
  - by eapply (listEntries_before j i).
  - destruct (decide (i = j)) as [->|Hne]; [simplify_eq; apply str_ltb_irrefl|].
    apply str_ltb_asym. eapply (listEntries_before i j); [done|done|lia].
Qed.

End Objects.

(** ** Sorted lists *)

Lemma StronglySorted_lookups {A} (R : A -> A -> Prop) (l : list A) :
  (forall i j a b, l !! i = Some a -> l !! j = Some b -> (i < j)%nat -> R a b) -> StronglySorted R l.
Proof.
  induction l as [|x l IH]; intros Hl; constructor.
  - apply IH. intros i j a b Ha Hb Hij. apply (Hl (S i) (S j)); [done|done|lia].
  - apply Forall_lookup. intros i a Ha. apply (Hl 0%nat (S i)); [done|done|lia].
Qed.

Lemma StronglySorted_select {A B} (R : A -> A -> Prop) (R' : B -> B -> Prop) (p : A -> bool) (g : A -> B) l :
  StronglySorted R l ->
  (forall x y, x ∈ l -> y ∈ l -> p x = true -> p y = true -> R x y -> R' (g x) (g y)) ->
  StronglySorted R' (map g (List.filter p l)).
Proof.
  intros Hs. induction Hs as [|x l Hl IH Hx]; intros Hg; simpl; [constructor|].
  assert (StronglySorted R' (map g (List.filter p l))) as Htl.
  { apply IH. intros; apply Hg; by rewrite ?elem_of_cons; auto. }
  destruct (p x) eqn:Hp; simpl; [|done]. constructor; [done|].
  apply Forall_forall. intros z (y & <- & [Hy Hpy]%List.filter_In)%list_elem_of_In%in_map_iff. rewrite Forall_forall in Hx.
  apply Hg; try done; rewrite ?elem_of_cons; [by left|right; by apply list_elem_of_In|by apply Hx, list_elem_of_In].
Qed.

Lemma elem_of_entry_items {A} (l : list (entry A)) a :
  a ∈ entry_items l <-> exists e, e ∈ l /\ prefix e = false /\ payload e = a.
Proof.
  unfold entry_items. rewrite list_elem_of_In, in_map_iff. setoid_rewrite List.filter_In.
  setoid_rewrite <- list_elem_of_In. setoid_rewrite negb_true_iff. firstorder.
Qed.

Lemma elem_of_entry_prefixes {A} (l : list (entry A)) p :
  p ∈ entry_prefixes l <-> exists e, e ∈ l /\ prefix e = true /\ name e = p.
Proof.
  unfold entry_prefixes. rewrite list_elem_of_In, in_map_iff. setoid_rewrite List.filter_In.
  setoid_rewrite <- list_elem_of_In. firstorder.
Qed.

Lemma entry_items_concat {A} (ls : list (list (entry A))) : entry_items (concat ls) = concat (map entry_items ls).
Proof.
  induction ls as [|l ls IH]; simpl; [done|]. rewrite <- IH. unfold entry_items. by rewrite List.filter_app, map_app.
Qed.
Lemma entry_prefixes_concat {A} (ls : list (list (entry A))) :
  entry_prefixes (concat ls) = concat (map entry_prefixes ls).
Proof.
  induction ls as [|l ls IH]; simpl; [done|]. rewrite <- IH. unfold entry_prefixes. by rewrite List.filter_app, map_app.
Qed.

Lemma Forall2_map_eq {A B C} (f : A -> C) (g : B -> C) l l' :
  Forall2 (fun a b => f a = g b) l l' -> map f l = map g l'.
Proof. induction 1; simpl; congruence. Qed.

Lemma length_roll_up {A} p d (zero : A) seen l : (length (roll_up p d zero seen l) <= length l)%nat.
Proof.
  revert seen. induction l as [|[k a] l IH]; intros seen; simpl; [lia|].
  destruct (common_prefix p d k) as [q|]; [case_bool_decide|]; simpl;
    [specialize (IH seen)|specialize (IH ({[q]} ∪ seen))|specialize (IH seen)]; lia.
Qed.

Lemma length_omap {A B} (f : A -> option B) l : (length (omap f l) <= length l)%nat.
Proof. induction l as [|a l IH]; simpl; [lia|]. unfold omap in IH. destruct (f a); simpl; lia. Qed.

(** ** The paginated object listing *)

Section ObjectPages.
Context `{Env, !GeneratorOk}.
Implicit Types req : ListObjectsRequest.

Definition object_page (s : Repository) (req : ListObjectsRequest) : outcome Err ListObjectsResult := (ListObjects req s).1.
Definition with_token (req : ListObjectsRequest) (tok : string) : ListObjectsRequest :=
  mkListObjectsRequest (lor_BucketID req) (lor_Prefix req) (lor_Delimiter req) tok (lor_MaxKeys req).
Definition next_object_page (req : ListObjectsRequest) (page : ListObjectsResult) : option ListObjectsRequest :=
  if lores_IsTruncated page then Some (with_token req (lores_NextContinuationToken page)) else None.

Context (s : Repository) (req : ListObjectsRequest).
Hypothesis s_reachable : reachable s.
Hypothesis bucket_given : lor_BucketID req <> "".
Hypothesis bucket_found : is_Some (bucketsByID s !! lor_BucketID req).

Lemma listed_key_own key h : lists_key s (lor_BucketID req) (lor_Prefix req) key h -> oh_Key h = key /\ key <> "".
Proof.
  intros (Hh & _ & _). destruct (reachable_obj_inv s s_reachable) as [_ [HV HH]].
  destruct (HH _ h ltac:(done) Hh) as (v & Hv & _ & (t & r & ->)). destruct (HV _ _ Hv) as (Hk & _ & _ & Hne).
  simpl. unfold version_key, key_version in Hk. simplify_eq/=. done.
Qed.

Lemma entry_named e : e ∈ listEntries s req -> name e <> "".
Proof.
  rewrite elem_of_listEntries by done. intros [(key & h & -> & Hl & _)|(p & key & h & -> & _ & Hp)].
  - apply (listed_key_own key h Hl).
  - by eapply common_prefix_named.
Qed.

Definition standing (k : nat) (req' : ListObjectsRequest) : Prop :=
  exists tok, req' = with_token req tok /\
    (k = 0%nat /\ tok = "" \/ exists j e, k = S j /\ listEntries s req !! j = Some e /\ tok = name e).
Definition shows_entries (page : ListObjectsResult) (l : list (entry ObjectHead)) : Prop :=
  lores_Contents page = entry_items l /\ lores_CommonPrefixes page = entry_prefixes l.

Abbreviation maxKeys := (go_limit (lor_MaxKeys req)).
Lemma go_limit_pos z : (0 < go_limit z)%nat.
Proof. unfold go_limit. destruct (Z.leb_spec z 0); lia. Qed.

Lemma object_page_at k req' :
  standing k req' -> exists page, object_page s req' = Ok page /\
  shows_entries page (take maxKeys (drop k (listEntries s req))) /\
  if (maxKeys <? length (drop k (listEntries s req)))%nat
  then exists req'', next_object_page req' page = Some req'' /\ standing (k + maxKeys) req''
  else next_object_page req' page = None.
Proof.
  intros (tok & -> & Htok). set (L := listEntries s req) in *.
  assert ((if tok =s "" then L else entriesAfter L tok) = drop k L) as Hrest.
  { destruct Htok as [[-> ->]|(j & e & -> & He & ->)]; [done|].
    destruct (String.eqb_spec (name e) "") as [E|_]; [|by eapply entriesAfter_exact].
    by apply list_elem_of_lookup_2, entry_named in He. }
  set (page := mkListObjectsResult (entry_items (take maxKeys (drop k L))) (entry_prefixes (take maxKeys (drop k L)))
      (truncated maxKeys (drop k L)) (match last_of maxKeys (drop k L) with Some e => name e | None => "" end)).
  exists page. split.
  { unfold object_page, ListObjects. cbn [with_token lor_BucketID lor_ContinuationToken lor_MaxKeys]. destruct (String.eqb_spec (lor_BucketID req) "") as [|_]; [done|].
    unfold st_bind at 1, lookup_or. destruct bucket_found as [b ->]. unfold st_bind, gets, st_ret. simpl.
    change (listEntries s (with_token req tok)) with L. by rewrite Hrest. }
  split; [done|]. unfold next_object_page. cbn [lores_IsTruncated page]. unfold truncated.
  destruct (Nat.ltb_spec maxKeys (length (drop k L))) as [Hlt|]; [|done].
  eexists. split; [reflexivity|]. exists (lores_NextContinuationToken page).
  pose proof (go_limit_pos (lor_MaxKeys req)) as Hpos.
  destruct (lookup_lt_is_Some_2 (drop k L) (maxKeys - 1) ltac:(lia)) as [e He].
  split; [done|]. right. exists (k + (maxKeys - 1))%nat, e.
  split; [lia|]. rewrite <- lookup_drop. split; [done|]. simpl. unfold last_of, truncated.
  by rewrite (proj2 (Nat.ltb_lt _ _) Hlt), He.
Qed.

(** The whole sequence of pages, against the entries. *)
Lemma object_pages_show fuel :
  lor_ContinuationToken req = "" -> (size (heads s) < fuel)%nat ->
  exists pages, follow (object_page s) next_object_page fuel req = Some (Ok pages) /\
    concat (map lores_Contents pages) = entry_items (listEntries s req) /\
    concat (map lores_CommonPrefixes pages) = entry_prefixes (listEntries s req).
Proof.
  intros Ht Hf.
  assert (length (listEntries s req) <= size (heads s))%nat as Hsz.
  { unfold listEntries. rewrite length_sort_by, length_roll_up. unfold listed_heads. rewrite length_omap.
    by rewrite length_map_to_list. }
  destruct (follow_complete (object_page s) next_object_page (listEntries s req) maxKeys standing shows_entries
              (go_limit_pos _) object_page_at fuel 0 req) as (pages & chunks & Hpg & Hsh & Hc); [|lia|lia|].
  { exists "". split; [rewrite <- Ht; by destruct req|by left]. }
  exists pages. split; [done|]. rewrite drop_0 in Hc. rewrite <- Hc, entry_items_concat, entry_prefixes_concat.
  split; f_equal; apply Forall2_map_eq; eapply Forall2_impl; [exact Hsh|by intros ?? []|exact Hsh|by intros ?? []].
Qed.

End ObjectPages.

(** C21: A client that lists a bucket page by page, following the continuation
    tokens, terminates and sees exactly the keys of the bucket that have the
    requested prefix, do not roll up and are not hidden by a delete marker, each
    once and in key order, and exactly the common prefixes of the other keys,
    each once and in order, whatever the page size. *)
Theorem list_objects_complete `{Env, !GeneratorOk} (s : Repository) (req : ListObjectsRequest) (fuel : nat) :
  reachable s -> lor_BucketID req <> "" -> is_Some (bucketsByID s !! lor_BucketID req) ->
  lor_ContinuationToken req = "" -> (size (heads s) < fuel)%nat ->
  exists pages, follow (object_page s) next_object_page fuel req = Some (Ok pages) /\
    let contents := concat (map lores_Contents pages) in
    let prefixes := concat (map lores_CommonPrefixes pages) in
    (forall h, h ∈ contents <-> exists key, lists_key s (lor_BucketID req) (lor_Prefix req) key h /\
       common_prefix (lor_Prefix req) (lor_Delimiter req) key = None) /\
    (forall p, p ∈ prefixes <-> exists key h, lists_key s (lor_BucketID req) (lor_Prefix req) key h /\
       common_prefix (lor_Prefix req) (lor_Delimiter req) key = Some p) /\
    StronglySorted (fun a b => str_ltb (oh_Key a) (oh_Key b) = true) contents /\
    StronglySorted (fun a b => str_ltb a b = true) prefixes.
Proof.
  intros Hr Hb Hf Ht Hfuel. destruct (object_pages_show s req Hr Hb Hf fuel Ht Hfuel) as (pages & Hp & Hc & Hx).
  exists pages. split; [done|]. cbv zeta. rewrite Hc, Hx. clear Hc Hx.
  pose proof (fun e => elem_of_listEntries s _ _ _ req eq_refl eq_refl eq_refl e) as Hin.
  assert (StronglySorted (fun a b => str_ltb (name a) (name b) = true) (listEntries s req)) as Hs.
  { apply StronglySorted_lookups. intros i j a b. by apply (listEntries_before s _ _ _ req eq_refl eq_refl eq_refl). }
  split_and!.
  - intros h. rewrite elem_of_entry_items. setoid_rewrite Hin. split.
    + intros (e & [(key & h' & -> & ? & ?)|(? & ? & ? & -> & _)] & Hpre & <-); [|done]. by exists key.
    + intros (key & Hl & Hc). exists (mk_entry key false h). split; [left; by exists key, h|done].
  - intros p. rewrite elem_of_entry_prefixes. setoid_rewrite Hin. split.
    + intros (e & [(? & ? & -> & _)|(q & key & h & -> & ? & ?)] & Hpre & <-); [done|]. by exists key, h.
    + intros (key & h & Hl & Hc). exists (mk_entry p true zero_ObjectHead). split; [right; by exists p, key, h|done].
  - apply (StronglySorted_select _ _ _ _ _ Hs).
    intros x y [(k1 & h1 & -> & L1 & _)|(? & ? & ? & -> & _)]%Hin [(k2 & h2 & -> & L2 & _)|(? & ? & ? & -> & _)]%Hin; try done.
    simpl. by rewrite (proj1 (listed_key_own s req Hr k1 h1 L1)), (proj1 (listed_key_own s req Hr k2 h2 L2)).
  - by apply (StronglySorted_select _ _ _ _ _ Hs).
Qed.

Definition ex_list : ListObjectsRequest := mkListObjectsRequest ex_bucket "" "" "" 1.

Lemma list_objects_complete_witness :
  exists pages, follow (object_page ex_state) next_object_page 10 ex_list = Some (Ok pages) /\
    forall h, h ∈ concat (map lores_Contents pages) <-> exists key, lists_key ex_state ex_bucket "" key h /\
       common_prefix "" "" key = None.
Proof.
  destruct (@list_objects_complete exEnv exEnv_ok ex_state ex_list 10) as (pages & H1 & H2 & _).
  - exact ex_reachable.
  - discriminate.
  - apply is_some_true. by_eval.
  - reflexivity.
  - apply Nat.ltb_lt. by_eval.
  - exists pages. split; [exact H1 | exact H2].
Defined.
