(* ===== verification/MultipartInv.v ===== *)
(** * MultipartInv: multipart uploads from creation to cleanup

    An upload is active until it is completed or aborted, and from then on only
    the bookkeeping of its part cleanup changes. While it is active its summary
    (part count, total size, highest part number) agrees with the recorded parts.
    Repeating the cleanup call removes the parts of a closed upload and nothing
    else. Completion records only advance. *)

From S2P Require Import Prelude GoLib Sha256 StorageTypes Model Requests Encoding Meta Manifest Repo RepoLogic.
From S2P Require Import RepoBuckets RepoObjects RepoMultipart RepoListing RepoOps RepoShared RepoAudit RepoCalls.
From S2P Require Import AuditChain ObjRules ObjInv RepoExample.
Open Scope string_scope.
Open Scope Z_scope.

(** ** Rules *)

Section Rules.
Context `{Env}.
Implicit Types s : Repository.

Lemma wp_upload_delta tenantID delta t Q s :
  (forall m, Q (Ok tt) (s <| tenantUsages := m |>)) -> wp (applyTenantActiveUploadDeltaLocked tenantID delta t) Q s.
Proof.
  intros HQ. pose proof (HQ (tenantUsages s)) as H0. replace (s <| tenantUsages := tenantUsages s |>) with s in H0
    by (by destruct s).
  unfold applyTenantActiveUploadDeltaLocked. wp_step. apply wp_gets, wp_modify. repeat case_match; auto.
Qed.

Lemma wp_upload_delta_bucket bucketID delta t Q s :
  (forall m, Q (Ok tt) (s <| tenantUsages := m |>)) ->
  wp (applyTenantActiveUploadDeltaForBucketLocked bucketID delta t) Q s.
Proof.
  intros HQ. unfold applyTenantActiveUploadDeltaForBucketLocked. apply wp_bind, wp_gets.
  apply wp_option_r; [intros b _; by apply wp_upload_delta|intros _]. apply wp_ret.
  pose proof (HQ (tenantUsages s)) as H0. by replace (s <| tenantUsages := tenantUsages s |>) with s in H0
    by (by destruct s).
Qed.

Lemma wp_getUpload req Q s :
  (forall u, uploads s !! upload_key req = Some u -> mur_Key req <> "" -> Q (Ok u) s) ->
  (forall e, Q (Fail e) s) -> wp (getUploadLocked req) Q s.
Proof.
  intros H1 H2. unfold getUploadLocked. apply wp_if; intros Ha; [apply H2|].
  apply wp_lookup_or; [|intros _; apply H2]. intros u Hu. apply H1; [done|].
  rewrite !orb_false_iff in Ha. by destruct Ha as [[_ Ha%String.eqb_neq] _].
Qed.

Lemma wp_getActiveUpload req Q s :
  (forall u, uploads s !! upload_key req = Some u -> mu_State u = MultipartUploadActive -> mur_Key req <> "" -> Q (Ok u) s) ->
  (forall e, Q (Fail e) s) -> wp (getActiveUploadLocked req) Q s.
Proof.
  intros H1 H2. unfold getActiveUploadLocked. apply wp_bind, wp_getUpload; [|intros e; apply H2].
  intros u Hu Hk. apply wp_if; intros Hs; [apply H2|]. apply wp_ret, H1; [done| |done].
  by apply String.eqb_eq, negb_false_iff.
Qed.

Lemma upload_id_free s bucketID id key :
  multipartUploadIDExistsLocked s bucketID id = false -> uploads s !! mk_uploadKey bucketID key id = None.
Proof.
  unfold multipartUploadIDExistsLocked. intros Hf. destruct (uploads s !! _) as [u|] eqn:Hu; [|done].
  apply elem_of_map_to_list, list_elem_of_In in Hu. exfalso. apply not_true_iff_false in Hf. apply Hf, existsb_exists.
  eexists. split; [exact Hu|]. simpl. by rewrite !String.eqb_refl.
Qed.

End Rules.

(** Runs a multipart operation; error branches leave the maps alone. *)
Ltac mwp :=
  repeat (first
    [ lazymatch goal with
      | |- wp (getUploadLocked _) _ _ => apply wp_getUpload; [intros ? ? ?|intros ?]
      | |- wp (getActiveUploadLocked _) _ _ => apply wp_getActiveUpload; [intros ? ? ? ?|intros ?]
      | |- wp (put_upload _ _) _ _ => apply wp_modify
      | |- wp (applyTenantActiveUploadDeltaLocked _ _ _) _ _ => apply wp_upload_delta; intros ?
      | |- wp (applyTenantActiveUploadDeltaForBucketLocked _ _ _) _ _ => apply wp_upload_delta_bucket; intros ?
      | |- wp (nextMultipartUploadIDLocked _) _ _ => unfold nextMultipartUploadIDLocked
      | |- wp (match _ with None => _ | Some _ => _ end) _ _ => apply wp_option_r; [intros ? ?|intros ?]
      end
    | wp_step ]).

(** ** What a call may do to an upload and to a completion record *)

(** An upload without its cleanup bookkeeping. *)
Definition sealed (u : MultipartUpload) : MultipartUpload :=
  u <| mu_PartsCleanupState := "" |> <| mu_PartsCleanupDeleted := 0 |> <| mu_PartsCleanupUpdatedAt := 0 |>
    <| mu_UpdatedAt := 0 |>.

(** What the creating request said. *)
Definition initiated (u : MultipartUpload) : MultipartUpload :=
  mkMultipartUpload (mu_UploadID u) (mu_BucketID u) (mu_Key u) (mu_ContentType u) (mu_StorageClass u)
    (mu_ServerSideEncryption u) (mu_UserMetadata u) (mu_Tags u) (mu_ObjectLockRetention u)
    (mu_ObjectLockLegalHold u) "" 0 0 0 0 "" "" 0 0 0 "" 0 0 (mu_CreatedAt u) 0.

Record upload_evolves (u u' : MultipartUpload) : Prop := {
  evolves_initiated : initiated u' = initiated u;
  evolves_closed : mu_State u <> MultipartUploadActive -> sealed u' = sealed u
}.

Definition completion_identity (c : MultipartCompletionRecord) : MultipartCompletionRecord :=
  c <| mcr_State := "" |> <| mcr_UpdatedAt := 0 |>.

Record completion_evolves (c c' : MultipartCompletionRecord) : Prop := {
  completion_same : completion_identity c' = completion_identity c;
  completion_rank : multipartCompletionStateRank (mcr_State c) <= multipartCompletionStateRank (mcr_State c')
}.

Definition keys_evolve {K A} `{Countable K} (R : A -> A -> Prop) (m m' : gmap K A) : Prop :=
  forall k a, m !! k = Some a -> exists a', m' !! k = Some a' /\ R a a'.

Definition multi_evolves (s s' : Repository) : Prop :=
  keys_evolve upload_evolves (uploads s) (uploads s') /\
  keys_evolve completion_evolves (completions s) (completions s').

Section Evolves.
Lemma sealed_state u u' : sealed u' = sealed u -> mu_State u' = mu_State u.
Proof. intros Heq. by apply (f_equal mu_State) in Heq. Qed.

#[export] Instance upload_evolves_refl : Reflexive upload_evolves.
Proof. intros u. by split. Qed.
#[export] Instance upload_evolves_trans : Transitive upload_evolves.
Proof.
  intros a b c [H1 H2] [H3 H4]. split; [congruence|]. intros Ha. specialize (H2 Ha).
  rewrite H4; [done|]. by rewrite (sealed_state _ _ H2).
Qed.
#[export] Instance completion_evolves_refl : Reflexive completion_evolves.
Proof. intros u. by split. Qed.
#[export] Instance completion_evolves_trans : Transitive completion_evolves.
Proof. intros a b c [H1 H2] [H3 H4]. split; [congruence|lia]. Qed.
#[export] Instance keys_evolve_refl {K A} `{Countable K} (R : A -> A -> Prop) `{!Reflexive R} :
  Reflexive (@keys_evolve K A _ _ R).
Proof. intros m k a Hk. by exists a. Qed.
#[export] Instance keys_evolve_trans {K A} `{Countable K} (R : A -> A -> Prop) `{!Transitive R} :
  Transitive (@keys_evolve K A _ _ R).
Proof.
  intros m1 m2 m3 H12 H23 k a Hk. destruct (H12 k a Hk) as (b & Hb & Hab). destruct (H23 k b Hb) as (c & Hc & Hbc).
  exists c. split; [done | by etrans].
Qed.
#[export] Instance multi_evolves_refl : Reflexive multi_evolves.
Proof. intros s. by split. Qed.
#[export] Instance multi_evolves_trans : Transitive multi_evolves.
Proof. intros a b c [H1 H2] [H3 H4]. split; by etrans. Qed.

Lemma keys_evolve_insert {K A} `{Countable K} (R : A -> A -> Prop) `{!Reflexive R} (m : gmap K A) k a :
  (forall b, m !! k = Some b -> R b a) -> keys_evolve R m (<[k := a]> m).
Proof.
  intros HR k' b Hb. destruct (decide (k' = k)) as [->|Hne].
  - exists a. rewrite lookup_insert_eq. auto.
  - exists b. by rewrite lookup_insert_ne.
Qed.
End Evolves.

Section MultiCalls.
Context `{Env, !GeneratorOk}.

(** Closes the branches that leave the uploads alone. *)
Ltac same_multi := solve [unfold multi_evolves; field_simpl; split; reflexivity].
(** Closes the goals of [multi_evolves] for an operation that writes one upload. *)
Ltac evolve_upload :=
  unfold multi_evolves; field_simpl; split; [|reflexivity];
  apply keys_evolve_insert; [tc_solve|]; intros b Hb; simplify_eq.

Lemma CreateMultipartUpload_evolves req : preserves multi_evolves (CreateMultipartUpload req).
Proof.
  intros s. unfold CreateMultipartUpload. apply wp_exec. mwp; try same_multi.
  unfold multi_evolves. field_simpl. split; [|reflexivity]. apply keys_evolve_insert; [tc_solve|].
  match goal with Hf : multipartUploadIDExistsLocked _ _ _ = false |- _ =>
    intros b Hb; pose proof (upload_id_free _ _ _ (cmu_Key req) Hf) as Hn; field_simpl_in Hn end. congruence.
Qed.

Lemma PutMultipartPart_evolves req : preserves multi_evolves (PutMultipartPart req).
Proof.
  intros s. unfold PutMultipartPart. apply wp_exec. mwp; try same_multi.
  evolve_upload. split; [|done]. unfold ApplyMultipartPartSummary. by repeat case_match.
Qed.

Lemma CompleteMultipartUpload_evolves req : preserves multi_evolves (CompleteMultipartUpload req).
Proof.
  intros s. unfold CompleteMultipartUpload. apply wp_exec. mwp; try same_multi.
  evolve_upload. split; [done|]. intros Ha. exfalso. apply Ha. by apply String.eqb_eq, negb_false_iff.
Qed.

Lemma AbortMultipartUpload_evolves req : preserves multi_evolves (AbortMultipartUpload req).
Proof.
  intros s. unfold AbortMultipartUpload. apply wp_exec. mwp; try same_multi.
  evolve_upload. split; [done|]. intros Ha. exfalso. apply Ha. by apply String.eqb_eq, negb_false_iff.
Qed.

Lemma CleanupMultipartUploadParts_evolves req : preserves multi_evolves (CleanupMultipartUploadParts req).
Proof.
  intros s. unfold CleanupMultipartUploadParts. apply wp_exec. mwp; try same_multi.
  evolve_upload. by split.
Qed.

Lemma Prepare_evolves req : preserves multi_evolves (PrepareMultipartCompletion req).
Proof.
  intros s. unfold PrepareMultipartCompletion. apply wp_exec. mwp; try same_multi.
  unfold multi_evolves. field_simpl. split; [reflexivity|]. apply keys_evolve_insert; [tc_solve|].
  intros b Hb. congruence.
Qed.

Lemma mark_evolves req state : preserves multi_evolves (markMultipartCompletionState req state).
Proof.
  intros s. unfold markMultipartCompletionState. apply wp_exec. mwp; try same_multi.
  unfold multi_evolves. field_simpl. split; [reflexivity|]. apply keys_evolve_insert; [tc_solve|].
  intros b Hb. simplify_eq. split; [done|]. field_simpl. unfold multipartCompletionStateAtLeast in *. lia.
Qed.

Definition multi_view (s : Repository) := (uploads s, parts s, completions s).

Lemma multi_evolves_calls c : preserves multi_evolves (run c).
Proof.
  assert (forall A (m : M A), frames multi_view m -> preserves multi_evolves m) as Hf.
  { intros A m Hm s. specialize (Hm s). unfold multi_view in Hm. injection Hm as Hu _ Hc. unfold multi_evolves.
    by rewrite Hu, Hc. }
  destruct c; cbn [run].
  all: walk ltac:(first
    [ apply CreateMultipartUpload_evolves | apply PutMultipartPart_evolves | apply CompleteMultipartUpload_evolves
    | apply AbortMultipartUpload_evolves | apply CleanupMultipartUploadParts_evolves | apply Prepare_evolves
    | apply mark_evolves | solve [apply Hf; frame] ]).
Qed.

Lemma run_all_evolves l s : multi_evolves s (run_all l s).
Proof.
  revert s. induction l as [|c l IH]; intros s; simpl; [reflexivity|].
  etrans; [apply (multi_evolves_calls c s)|apply IH].
Qed.

End MultiCalls.

(** ** The parts of an upload *)

Definition parts_of (P : gmap partKey MultipartPart) (k : uploadKey) : gmap partKey MultipartPart :=
  filter (fun kv => part_upload kv.1 = k) P.
Definition total_size (m : gmap partKey MultipartPart) : Z :=
  map_fold (fun _ p acc => mp_SizeBytes p + acc) 0 m.

Section Parts.
Implicit Types (P : gmap partKey MultipartPart) (k : uploadKey) (pk : partKey).

Lemma lookup_parts_of P k pk p : parts_of P k !! pk = Some p <-> P !! pk = Some p /\ part_upload pk = k.
Proof. apply map_lookup_filter_Some. Qed.

Lemma parts_of_insert P pk p : parts_of (<[pk := p]> P) (part_upload pk) = <[pk := p]> (parts_of P (part_upload pk)).
Proof. by apply map_filter_insert_True. Qed.

Lemma parts_of_insert_ne P pk p k : k <> part_upload pk -> parts_of (<[pk := p]> P) k = parts_of P k.
Proof. intros Hne. apply map_filter_insert_not'; simpl; [|intros p' Hp']; intros Heq; by apply Hne. Qed.

Lemma parts_of_delete_ne P keys k :
  (forall pk, pk ∈ keys -> part_upload pk <> k) -> parts_of (foldr delete P keys) k = parts_of P k.
Proof.
  induction keys as [|pk keys IH]; intros Hk; [done|]. simpl. rewrite <- IH by (intros; apply Hk; by right).
  apply map_eq. intros pk'. destruct (parts_of (foldr delete P keys) k !! pk') as [p|] eqn:E.
  - apply lookup_parts_of in E as [E1 E2]. apply lookup_parts_of. rewrite lookup_delete_ne; [done|].
    intros ->. by apply (Hk pk'); [left|].
  - apply eq_None_not_Some. intros [p [Hp Hu]%lookup_parts_of]. apply lookup_delete_Some in Hp as [_ Hp].
    assert (parts_of (foldr delete P keys) k !! pk' = Some p) by (by apply lookup_parts_of). congruence.
Qed.

Lemma total_size_insert_new m pk p : m !! pk = None -> total_size (<[pk := p]> m) = mp_SizeBytes p + total_size m.
Proof. intros Hn. unfold total_size. rewrite map_fold_insert_L; [done| |done]. intros. lia. Qed.

Lemma total_size_insert m pk p q :
  m !! pk = Some q -> total_size (<[pk := p]> m) = total_size m + (mp_SizeBytes p - mp_SizeBytes q).
Proof.
  intros Hq. rewrite <- (insert_delete_id m pk q Hq) at 2. rewrite <- insert_delete_eq.
  rewrite !total_size_insert_new by apply lookup_delete_eq. lia.
Qed.

Lemma int64_mod z : exists q, int64 z = z + q * 2 ^ 64.
Proof.
  unfold int64. exists (- ((z + 2 ^ 63) / 2 ^ 64)). pose proof (Z.div_mod (z + 2 ^ 63) (2 ^ 64) ltac:(lia)). lia.
Qed.

Lemma int64_shift z q : int64 (z + q * 2 ^ 64) = int64 z.
Proof. unfold int64. rewrite <- Z.add_assoc, (Z.add_comm (q * _)), Z.add_assoc, Z.mod_add by lia. done. Qed.

Lemma int64_add_l a b : int64 (int64 a + b) = int64 (a + b).
Proof. destruct (int64_mod a) as [q ->]. rewrite <- (int64_shift (a + b) q). f_equal. lia. Qed.

Lemma int64_add_r a b : int64 (a + int64 b) = int64 (a + b).
Proof. by rewrite Z.add_comm, int64_add_l, Z.add_comm. Qed.

Lemma elem_of_upload_parts s req pk p :
  (pk, p) ∈ upload_parts s req <-> parts_of (parts s) (upload_key req) !! pk = Some p.
Proof.
  unfold upload_parts, upload_key. rewrite list_elem_of_In, List.filter_In, <- list_elem_of_In, elem_of_map_to_list.
  rewrite lookup_parts_of, !andb_true_iff, !String.eqb_eq. destruct pk as [b k u n]. unfold part_upload. simpl.
  split; [intros (? & [-> ->] & ->); done | intros (? & [= -> -> ->]); done].
Qed.

Lemma upload_parts_perm s req : upload_parts s req ≡ₚ map_to_list (parts_of (parts s) (upload_key req)).
Proof.
  apply NoDup_Permutation; [|apply NoDup_map_to_list|].
  - apply NoDup_ListNoDup, List.NoDup_filter, NoDup_ListNoDup, NoDup_map_to_list.
  - intros [pk p]. rewrite elem_of_upload_parts. symmetry. apply elem_of_map_to_list.
Qed.

End Parts.

(** ** The invariant *)

Record summary_ok (u : MultipartUpload) (m : gmap partKey MultipartPart) : Prop := {
  summary_count : mu_PartCount u = Z.of_nat (size m);
  summary_size : mu_TotalPartSizeBytes u = int64 (total_size m);
  summary_bound : forall pk p, m !! pk = Some p -> pk_partNumber pk <= mu_MaxPartNumber u;
  summary_max : mu_MaxPartNumber u = 0 \/ exists pk p, m !! pk = Some p /\ pk_partNumber pk = mu_MaxPartNumber u
}.

Definition upload_ok (k : uploadKey) (u : MultipartUpload) : Prop :=
  uk_key k <> "" /\ uk_uploadID k <> "" /\ mk_uploadKey (mu_BucketID u) (mu_Key u) (mu_UploadID u) = k.
Definition part_ok (U : gmap uploadKey MultipartUpload) (pk : partKey) (p : MultipartPart) : Prop :=
  is_Some (U !! part_upload pk) /\ 1 <= pk_partNumber pk <= MaxMultipartParts /\ mp_PartNumber p = pk_partNumber pk.

Record multi_inv_of (U : gmap uploadKey MultipartUpload) (P : gmap partKey MultipartPart) : Prop := {
  mi_uploads : forall k u, U !! k = Some u -> upload_ok k u;
  mi_parts : forall pk p, P !! pk = Some p -> part_ok U pk p;
  mi_summary : forall k u, U !! k = Some u -> mu_State u = MultipartUploadActive -> summary_ok u (parts_of P k)
}.
Definition multi_inv (s : Repository) : Prop := multi_inv_of (uploads s) (parts s).

Section Summary.
Implicit Types (U : gmap uploadKey MultipartUpload) (P : gmap partKey MultipartPart).

Lemma parts_bounded U P k : (forall pk p, P !! pk = Some p -> part_ok U pk p) ->
  Z.of_nat (size (parts_of P k)) <= MaxMultipartParts.
Proof.
  intros HP. rewrite <- length_map_to_list, <- (length_fmap (fun kv : partKey * MultipartPart => pk_partNumber kv.1)).
  cut (length ((fun kv : partKey * MultipartPart => pk_partNumber kv.1) <$> map_to_list (parts_of P k)) <=
       length (seqZ 1 MaxMultipartParts))%nat; [rewrite length_seqZ; unfold MaxMultipartParts; lia|].
  apply submseteq_length, NoDup_submseteq.
  - apply NoDup_fmap_2_strong; [|apply NoDup_map_to_list].
    intros [[b1 k1 u1 n1] p1] [[b2 k2 u2 n2] p2] [H1 E1]%elem_of_map_to_list%lookup_parts_of [H2 E2]%elem_of_map_to_list%lookup_parts_of.
    unfold part_upload in *. simpl in *. intros ->. by simplify_eq.
  - intros n ([pk p] & -> & [Hp _]%elem_of_map_to_list%lookup_parts_of)%list_elem_of_fmap.
    destruct (HP _ _ Hp) as (_ & Hn & _). apply elem_of_seqZ. simpl. lia.
Qed.

Lemma summary_put u m part pk t :
  summary_ok u m -> mp_PartNumber part = pk_partNumber pk -> 1 <= pk_partNumber pk ->
  Z.of_nat (size m) <= MaxMultipartParts ->
  summary_ok (ApplyMultipartPartSummary u part (m !! pk) t) (<[pk := part]> m).
Proof.
  intros [Hc Hs Hb Hm] Hn H1 Hsz. unfold MaxMultipartParts in Hsz.
  set (u' := ApplyMultipartPartSummary u part (m !! pk) t).
  assert (mu_MaxPartNumber u' = Z.max (mu_MaxPartNumber u) (pk_partNumber pk)) as Emax.
  { unfold u', ApplyMultipartPartSummary. rewrite <- Hn. destruct (m !! pk); field_simpl;
      (case_match eqn:E; field_simpl; apply Z.ltb_lt in E || apply Z.ltb_ge in E; field_simpl; lia). }
  split.
  - unfold u', ApplyMultipartPartSummary. destruct (m !! pk) as [q|] eqn:E.
    + rewrite map_size_insert_Some by done. by case_match; field_simpl.
    + rewrite map_size_insert_None by done. case_match; field_simpl; rewrite int64_id; lia.
  - unfold u', ApplyMultipartPartSummary. destruct (m !! pk) as [q|] eqn:E.
    + rewrite (total_size_insert _ _ _ q) by done. case_match; field_simpl; by rewrite Hs, int64_add_l, int64_add_r.
    + rewrite total_size_insert_new by done. case_match; field_simpl; by rewrite Hs, int64_add_l, Z.add_comm.
  - intros pk' p'. rewrite Emax. intros [[<- _]|[_ Hl]]%lookup_insert_Some; [lia|]. specialize (Hb _ _ Hl). lia.
  - rewrite Emax. right. destruct (Z.le_ge_cases (mu_MaxPartNumber u) (pk_partNumber pk)).
    + exists pk, part. rewrite lookup_insert_eq. split; [done|lia].
    + destruct Hm as [Hz|(pk' & p' & Hp & He)]; [lia|].
      destruct (decide (pk' = pk)) as [->|Hne]; [exists pk, part; rewrite lookup_insert_eq; split; [done|lia]|].
      exists pk', p'. rewrite lookup_insert_ne by done. split; [done|lia].
Qed.

End Summary.

(** ** Every call keeps the invariant *)

Section InvCalls.
Context `{Env, !GeneratorOk}.

Implicit Types (U : gmap uploadKey MultipartUpload) (P : gmap partKey MultipartPart).

Lemma part_ok_insert U k u pk p : part_ok U pk p -> part_ok (<[k := u]> U) pk p.
Proof.
  intros (Hu & Hr). split; [|done]. destruct (decide (k = part_upload pk)) as [->|Hne];
    [rewrite lookup_insert_eq; by eexists | by rewrite lookup_insert_ne].
Qed.

Lemma multi_inv_create U P k u :
  multi_inv_of U P -> U !! k = None -> upload_ok k u ->
  mu_PartCount u = 0 -> mu_TotalPartSizeBytes u = 0 -> mu_MaxPartNumber u = 0 -> multi_inv_of (<[k := u]> U) P.
Proof.
  intros [HU HP HS] Hk Hok H1 H2 H3.
  assert (parts_of P k = ∅) as He.
  { apply map_eq. intros pk. rewrite lookup_empty. apply eq_None_not_Some. intros [p [Hp Hu]%lookup_parts_of].
    destruct (HP _ _ Hp) as [[u' Hu'] _]. congruence. }
  split.
  - intros k' u' [[<- <-]|[_ Hl]]%lookup_insert_Some; [done | by apply HU].
  - intros pk p Hp. by apply part_ok_insert, HP.
  - intros k' u' [[<- <-]|[Hne Hl]]%lookup_insert_Some Ha; [|by apply HS]. rewrite He.
    split; [done | done | intros ? ? Hl; by rewrite lookup_empty in Hl | by left].
Qed.

(** Writing an upload that is no longer active; its parts may go. *)
Lemma multi_inv_close U P k u u' keys :
  multi_inv_of U P -> U !! k = Some u -> initiated u' = initiated u -> mu_State u' <> MultipartUploadActive ->
  (forall pk, pk ∈ keys -> part_upload pk = k) -> multi_inv_of (<[k := u']> U) (foldr delete P keys).
Proof.
  intros [HU HP HS] Hk Hid Hna Hkeys. split.
  - intros k' w [[<- <-]|[_ Hl]]%lookup_insert_Some; [|by apply HU]. destruct (HU _ _ Hk) as (? & ? & Hkey).
    split; [done|]. split; [done|]. rewrite <- Hkey. f_equal;
      [by apply (f_equal mu_BucketID) in Hid|by apply (f_equal mu_Key) in Hid|by apply (f_equal mu_UploadID) in Hid].
  - intros pk p Hp. apply part_ok_insert, HP. clear -Hp. induction keys as [|x l IH]; [done|].
    simpl in Hp. apply lookup_delete_Some in Hp as [_ Hp]. by apply IH.
  - intros k' w [[<- <-]|[Hne Hl]]%lookup_insert_Some Ha; [done|].
    rewrite parts_of_delete_ne; [by apply HS|]. intros pk Hpk. by rewrite (Hkeys _ Hpk).
Qed.

Lemma multi_inv_put U P k u pk part t :
  multi_inv_of U P -> U !! k = Some u -> mu_State u = MultipartUploadActive -> part_upload pk = k ->
  1 <= pk_partNumber pk <= MaxMultipartParts -> mp_PartNumber part = pk_partNumber pk ->
  multi_inv_of (<[k := ApplyMultipartPartSummary u part (P !! pk) t]> U) (<[pk := part]> P).
Proof.
  intros [HU HP HS] Hk Ha Hpk Hn Hpn. split.
  - intros k' w [[<- <-]|[_ Hl]]%lookup_insert_Some; [|by apply HU]. destruct (HU _ _ Hk) as (? & ? & Hkey).
    split; [done|]. split; [done|]. rewrite <- Hkey. unfold ApplyMultipartPartSummary. by repeat case_match.
  - intros pk' p' [[<- <-]|[_ Hl]]%lookup_insert_Some; [|by apply part_ok_insert, HP].
    split; [|done]. rewrite Hpk, lookup_insert_eq. by eexists.
  - intros k' w [[<- <-]|[Hne Hl]]%lookup_insert_Some Hact.
    + rewrite <- Hpk, parts_of_insert.
      assert (parts_of P (part_upload pk) !! pk = P !! pk) as <-.
      { apply option_eq. intros p. rewrite lookup_parts_of. split; [by intros []|by intros ?]. }
      rewrite Hpk. apply summary_put; [by apply HS|done|lia|by eapply parts_bounded].
    + rewrite parts_of_insert_ne by congruence. by apply HS.
Qed.

Ltac same_inv Hs := solve [unfold multi_inv in *; field_simpl; exact Hs].

Lemma CreateMultipartUpload_inv req : preserves (keeps multi_inv) (CreateMultipartUpload req).
Proof.
  intros s Hs. unfold CreateMultipartUpload. apply wp_exec. mwp; try same_inv Hs.
  unfold multi_inv in *. field_simpl. apply multi_inv_create; try done.
  - match goal with Hf : multipartUploadIDExistsLocked _ _ _ = false |- _ =>
      pose proof (upload_id_free _ _ _ (cmu_Key req) Hf) as Hn; by field_simpl_in Hn end.
  - match goal with Hi : exists i, env_newID i _ = Some _ |- _ => destruct Hi as [i Hi] end.
    split; [by eapply arguments_named|]. split; [by eapply newID_nonempty|done].
Qed.

Lemma PutMultipartPart_inv req : preserves (keeps multi_inv) (PutMultipartPart req).
Proof.
  intros s Hs. unfold PutMultipartPart. apply wp_exec. mwp; try same_inv Hs.
  unfold multi_inv in *. field_simpl. apply multi_inv_put; try done. simpl.
  match goal with Ha : orb _ _ = false |- _ => rewrite !orb_false_iff in Ha; destruct Ha as [[_ Hlo] Hhi] end. lia.
Qed.

Lemma cleanup_keys s req limit pk :
  pk ∈ partKeysForCleanupLocked s req limit -> part_upload pk = upload_key req.
Proof.
  unfold partKeysForCleanupLocked. intros Hin.
  assert (pk ∈ (upload_parts s req).*1) as ([pk' p] & -> & Hp)%list_elem_of_fmap.
  { case_match; [apply subseteq_take in Hin|]; by rewrite elem_of_sort_by in Hin. }
  by apply elem_of_upload_parts, lookup_parts_of in Hp as [_ ?].
Qed.

Lemma CompleteMultipartUpload_inv req : preserves (keeps multi_inv) (CompleteMultipartUpload req).
Proof.
  intros s Hs. unfold CompleteMultipartUpload. apply wp_exec. mwp; try same_inv Hs.
  unfold multi_inv in *. field_simpl. apply (multi_inv_close _ _ _ u _ []); [done..|by intros pk Hpk%elem_of_nil].
Qed.

Lemma AbortMultipartUpload_inv req : preserves (keeps multi_inv) (AbortMultipartUpload req).
Proof.
  intros s Hs. unfold AbortMultipartUpload. apply wp_exec. mwp; try same_inv Hs.
  unfold multi_inv in *. field_simpl. apply (multi_inv_close _ _ _ u _ []); [done..|by intros pk Hpk%elem_of_nil].
Qed.

Lemma CleanupMultipartUploadParts_inv req : preserves (keeps multi_inv) (CleanupMultipartUploadParts req).
Proof.
  intros s Hs. unfold CleanupMultipartUploadParts. apply wp_exec. mwp; try same_inv Hs.
  unfold multi_inv in *. field_simpl. apply (multi_inv_close _ _ _ u); [done|done|done| |].
  - field_simpl. by apply String.eqb_neq.
  - intros pk Hpk. case_match; [apply subseteq_take in Hpk|]; by eapply cleanup_keys.
Qed.

Lemma multi_inv_calls c : preserves (keeps multi_inv) (run c).
Proof.
  assert (forall A (m : M A), frames (fun s => (uploads s, parts s)) m -> preserves (keeps multi_inv) m) as Hf.
  { intros A m. apply frames_keeps. unfold multi_inv. intros s s' Heq. by injection Heq as -> ->. }
  destruct c; cbn [run].
  all: walk ltac:(first
    [ apply CreateMultipartUpload_inv | apply PutMultipartPart_inv | apply CompleteMultipartUpload_inv
    | apply AbortMultipartUpload_inv | apply CleanupMultipartUploadParts_inv
    | solve [apply Hf; frame] ]).
Qed.

Lemma reachable_multi_inv s : reachable s -> multi_inv s.
Proof.
  apply (reachable_ind multi_inv); [|intros c s'; apply multi_inv_calls].
  split; intros ? ?; unfold NewWithClock; simpl; by rewrite lookup_empty.
Qed.

End InvCalls.
