(* ===== verification/Multipart.v ===== *)
(** * Multipart: what multipart uploads promise

    The summary a client sees is the summary of the parts it would get, closed
    uploads and completion records keep what they say, the cleanup loop of the
    multipart worker terminates with nothing left, and the upload listing pages
    through every active upload. *)

From S2P Require Import Prelude GoLib Sha256 StorageTypes Model Requests Encoding Meta Manifest Repo RepoLogic.
From S2P Require Import RepoBuckets RepoObjects RepoMultipart RepoListing RepoOps RepoShared RepoAudit RepoCalls.
From S2P Require Import AuditChain ObjRules ObjInv RepoExample MultipartInv Pagination.
From Stdlib Require Import Sorted.
Open Scope string_scope.
Open Scope Z_scope.

(** ** The parts listing *)

Definition sum_sizes (l : list MultipartPart) : Z := foldr (fun p acc => mp_SizeBytes p + acc) 0 l.

Lemma sum_sizes_perm l l' : l ≡ₚ l' -> sum_sizes l = sum_sizes l'.
Proof. induction 1; unfold sum_sizes in *; simpl in *; lia. Qed.

Lemma total_size_list m : total_size m = sum_sizes (map_to_list m).*2.
Proof.
  unfold total_size. rewrite map_fold_foldr. induction (map_to_list m) as [|[k p] l IH]; simpl; [done|].
  unfold sum_sizes in *. simpl. by rewrite IH.
Qed.

Definition part_less (a b : MultipartPart) : bool := mp_PartNumber a <? mp_PartNumber b.

Section PartsListing.
Context (s : Repository) (req : MultipartUploadRequest).
Hypothesis s_inv : multi_inv s.

Lemma listed_perm : listPartsLocked s req ≡ₚ (map_to_list (parts_of (parts s) (upload_key req))).*2.
Proof. unfold listPartsLocked. rewrite sort_by_perm. by rewrite (upload_parts_perm s req). Qed.

Lemma elem_of_listed p :
  p ∈ listPartsLocked s req <->
  parts s !! mk_partKey (mur_BucketID req) (mur_Key req) (mur_UploadID req) (mp_PartNumber p) = Some p.
Proof.
  rewrite listed_perm, list_elem_of_fmap. split.
  - intros ([pk q] & -> & [Hp Hu]%elem_of_map_to_list%lookup_parts_of). simpl.
    destruct (mi_parts _ _ s_inv _ _ Hp) as (_ & _ & Hn). rewrite Hn. rewrite <- Hp. f_equal.
    unfold upload_key, part_upload in Hu. destruct pk. simpl in *. by simplify_eq.
  - intros Hp. eexists (_, p). split; [done|]. apply elem_of_map_to_list, lookup_parts_of. by split.
Qed.

Lemma listed_sorted : StronglySorted (fun a b => mp_PartNumber a < mp_PartNumber b) (listPartsLocked s req).
Proof.
  assert (forall i j a b, listPartsLocked s req !! i = Some a -> listPartsLocked s req !! j = Some b ->
    (i < j)%nat -> mp_PartNumber a <= mp_PartNumber b) as Hle.
  { assert (StronglySorted (not_after part_less) (listPartsLocked s req)) as Hs.
    { apply (sort_by_sorted part_less); unfold part_less, not_after; intros; lia. }
    revert Hs. generalize (listPartsLocked s req) as l. induction l as [|x l IH]; intros Hs i j a b Ha Hb Hij; [done|].
    apply StronglySorted_inv in Hs as [Hs Hx]. destruct i as [|i], j as [|j]; [lia| |lia|]; simpl in *.
    - simplify_eq. rewrite Forall_lookup in Hx. specialize (Hx _ _ Hb). unfold not_after, part_less in Hx. lia.
    - eapply (IH Hs i j); eauto. lia. }
  apply StronglySorted_lookups. intros i j a b Ha Hb Hij. specialize (Hle i j a b Ha Hb Hij).
  destruct (decide (mp_PartNumber a = mp_PartNumber b)) as [E|]; [|lia]. exfalso.
  assert (NoDup (listPartsLocked s req)) as Hnd.
  { rewrite listed_perm. apply NoDup_fmap_2_strong; [|apply NoDup_map_to_list].
    intros [k1 p1] [k2 p2] [H1 U1]%elem_of_map_to_list%lookup_parts_of [H2 U2]%elem_of_map_to_list%lookup_parts_of Heq.
    simpl in Heq. subst p2. destruct (mi_parts _ _ s_inv _ _ H1) as (_ & _ & N1), (mi_parts _ _ s_inv _ _ H2) as (_ & _ & N2).
    simpl in *. assert (k1 = k2) as ->; [|done]. destruct k1, k2. unfold part_upload, upload_key in *. simpl in *. congruence. }
  assert (a = b) as ->.
  { apply list_elem_of_lookup_2, elem_of_listed in Ha. apply list_elem_of_lookup_2, elem_of_listed in Hb. congruence. }
  pose proof (NoDup_lookup _ _ _ _ Hnd Ha Hb). lia.
Qed.

End PartsListing.

(** C22: While a multipart upload is active, its stored summary is exactly the
    summary of its parts: the part count is the length of the listing (at most
    10000), the total size is the sum of the part sizes in 64-bit arithmetic, the
    highest part number is the highest listed; and the listing holds exactly the
    recorded parts in strictly increasing part number. *)
Theorem multipart_summary_exact `{Env, !GeneratorOk} (s : Repository) (req : MultipartUploadRequest) (u : MultipartUpload) :
  reachable s -> uploads s !! upload_key req = Some u -> mu_State u = MultipartUploadActive ->
  let listed := listPartsLocked s req in
  mu_PartCount u = Z.of_nat (length listed) /\ mu_PartCount u <= MaxMultipartParts /\
  mu_TotalPartSizeBytes u = int64 (sum_sizes listed) /\
  mu_MaxPartNumber u = foldr Z.max 0 (map mp_PartNumber listed) /\
  StronglySorted (fun a b => mp_PartNumber a < mp_PartNumber b) listed /\
  forall p, p ∈ listed <->
    parts s !! mk_partKey (mur_BucketID req) (mur_Key req) (mur_UploadID req) (mp_PartNumber p) = Some p.
Proof.
  intros Hr Hu Ha listed. pose proof (reachable_multi_inv s Hr) as Hinv.
  destruct (mi_summary _ _ Hinv _ _ Hu Ha) as [Hc Hs Hb Hm]. pose proof (listed_perm s req) as Hperm.
  assert (length listed = size (parts_of (parts s) (upload_key req))) as Hlen.
  { unfold listed. rewrite Hperm, length_fmap. apply length_map_to_list. }
  assert (forall p, p ∈ listed <-> exists pk, parts_of (parts s) (upload_key req) !! pk = Some p) as Hin.
  { intros p. unfold listed. rewrite Hperm, list_elem_of_fmap. split.
    - intros ([pk q] & -> & Hq%elem_of_map_to_list). by exists pk.
    - intros [pk Hp%elem_of_map_to_list]. by exists (pk, p). }
  assert (forall pk p, parts_of (parts s) (upload_key req) !! pk = Some p ->
    mp_PartNumber p = pk_partNumber pk /\ 1 <= pk_partNumber pk) as Hnum.
  { intros pk p [Hp _]%lookup_parts_of. destruct (mi_parts _ _ Hinv _ _ Hp) as (_ & ? & ?). lia. }
  split_and!; [lia| |rewrite Hs; f_equal| |by apply listed_sorted|intros p; by apply elem_of_listed].
  - rewrite Hc. eapply parts_bounded, Hinv.
  - rewrite total_size_list. apply sum_sizes_perm. by symmetry.
  - assert (forall l, Forall (fun p => mp_PartNumber p <= mu_MaxPartNumber u) l -> 0 <= mu_MaxPartNumber u ->
      (mu_MaxPartNumber u = 0 \/ Exists (fun p => mp_PartNumber p = mu_MaxPartNumber u) l) ->
      mu_MaxPartNumber u = foldr Z.max 0 (map mp_PartNumber l)) as Hmax.
    { clear. induction l as [|p l IH]; intros Hf H0 Hx; [destruct Hx as [|Hx%Exists_nil]; [done|done]|].
      apply Forall_cons in Hf as [Hp Hf]. simpl.
      assert (foldr Z.max 0 (map mp_PartNumber l) <= mu_MaxPartNumber u) as Hle.
      { clear -Hf H0. induction Hf; simpl; lia. }
      rewrite Exists_cons in Hx. destruct Hx as [Hz|[Hx|Hx]]; [rewrite <- IH; auto; lia|lia|rewrite <- IH; auto; lia]. }
    apply Hmax.
    + apply Forall_forall. intros p [pk Hpk]%Hin. rewrite (proj1 (Hnum _ _ Hpk)). by eapply Hb.
    + destruct Hm as [->|(pk & p & Hpk & <-)]; [lia|]. apply Hnum in Hpk. lia.
    + destruct Hm as [->|(pk & p & Hpk & He)]; [by left|right]. apply Exists_exists. exists p.
      rewrite Hin. split; [by exists pk|]. by rewrite (proj1 (Hnum _ _ Hpk)).
Qed.

(** ** Closed uploads and completion records *)

(** C23: A multipart upload never disappears, what its creating request said never
    changes, and once it is completed or aborted no later call changes anything of
    it but the bookkeeping of the part cleanup: it never becomes active again and
    never swaps its outcome, its completed version, entity tag or size. *)
Theorem closed_upload_is_final `{Env, !GeneratorOk} (l : list call) (s : Repository) (k : uploadKey) (u : MultipartUpload) :
  uploads s !! k = Some u ->
  exists u', uploads (run_all l s) !! k = Some u' /\ initiated u' = initiated u /\
    (mu_State u <> MultipartUploadActive -> sealed u' = sealed u).
Proof.
  intros Hu. destruct (proj1 (run_all_evolves l s) k u Hu) as (u' & Hu' & [H1 H2]). by exists u'.
Qed.

(** A multipart completion record never disappears, its identity (upload,
    object version, expected head, entity tag, size, part count) never changes and
    its state only advances from prepared over published to completed. *)
Theorem completion_only_advances `{Env, !GeneratorOk} (l : list call) (s : Repository) (k : uploadKey)
    (c : MultipartCompletionRecord) :
  completions s !! k = Some c ->
  exists c', completions (run_all l s) !! k = Some c' /\ completion_identity c' = completion_identity c /\
    multipartCompletionStateRank (mcr_State c) <= multipartCompletionStateRank (mcr_State c').
Proof.
  intros Hc. destruct (proj2 (run_all_evolves l s) k c Hc) as (c' & Hc' & [H1 H2]). by exists c'.
Qed.

(** ** The cleanup loop *)

Section Cleanup.
Context `{Env}.

(** A caller repeats [CleanupMultipartUploadParts] while it reports more parts;
    the result is the number of parts deleted. *)
Fixpoint cleanup_loop (fuel : nat) (req : CleanupMultipartUploadPartsRequest) (s : Repository)
    : option (outcome Err Z * Repository) :=
  match fuel with
  | O => None
  | S fuel' =>
      match CleanupMultipartUploadParts req s with
      | (Fail e, s') => Some (Fail e, s')
      | (Ok r, s') =>
          if clnr_HasMore r then
            match cleanup_loop fuel' req s' with
            | Some (Ok n, s'') => Some (Ok (clnr_DeletedParts r + n), s'')
            | other => other
            end
          else Some (Ok (clnr_DeletedParts r), s')
      end
  end.

Implicit Types (P : gmap partKey MultipartPart) (keys : list partKey).

Lemma parts_of_foldr_delete P keys k : parts_of (foldr delete P keys) k = foldr delete (parts_of P k) keys.
Proof. induction keys as [|pk keys IH]; [done|]. simpl. rewrite <- IH. apply map_filter_delete. Qed.

Lemma size_foldr_delete (m : gmap partKey MultipartPart) keys :
  NoDup keys -> (forall pk, pk ∈ keys -> is_Some (m !! pk)) -> (size (foldr delete m keys) + length keys = size m)%nat.
Proof.
  intros Hnd Hin. induction Hnd as [|pk keys Hni Hnd IH]; simpl; [lia|].
  assert (is_Some (foldr delete m keys !! pk)) as Hs.
  { rewrite lookup_foldr_delete_not_elem_of by done. apply Hin. by left. }
  rewrite map_size_delete_Some by done. specialize (IH ltac:(intros; apply Hin; by right)).
  destruct Hs as [p Hp]. assert (size (foldr delete m keys) <> 0)%nat as Hz
    by (apply (map_size_ne_0_lookup_2 _ pk); by eexists). lia.
Qed.

Definition closed (u : MultipartUpload) : Prop :=
  mu_State u = MultipartUploadCompleted \/ mu_State u = MultipartUploadAborted.

Definition cleanup_key (req : CleanupMultipartUploadPartsRequest) : uploadKey :=
  mk_uploadKey (cln_BucketID req) (cln_Key req) (cln_UploadID req).

(** One call on a closed upload: it deletes up to the limit of the upload's parts
    and says whether there are more. *)
Record cleaned (req : CleanupMultipartUploadPartsRequest) (s s' : Repository) (r : CleanupMultipartUploadPartsResult) : Prop := {
  cleaned_parts : exists keys, parts s' = foldr delete (parts s) keys /\ NoDup keys /\
    (forall pk, pk ∈ keys -> is_Some (parts_of (parts s) (cleanup_key req) !! pk)) /\
    clnr_DeletedParts r = Z.of_nat (length keys) /\
    (if clnr_HasMore r then (0 < length keys)%nat /\ (length keys < size (parts_of (parts s) (cleanup_key req)))%nat
     else length keys = size (parts_of (parts s) (cleanup_key req)));
  cleaned_upload : forall u, uploads s !! cleanup_key req = Some u -> exists u', uploads s' !! cleanup_key req = Some u' /\
    sealed u' = sealed u /\
    mu_PartsCleanupState u' = if clnr_HasMore r then MultipartPartsCleanupPending else MultipartPartsCleanupDone
}.

Lemma wp_getUpload_found req u Q s :
  mur_BucketID req <> "" -> mur_Key req <> "" -> mur_UploadID req <> "" ->
  uploads s !! upload_key req = Some u -> Q (Ok u) s -> wp (getUploadLocked req) Q s.
Proof.
  intros H1%String.eqb_neq H2%String.eqb_neq H3%String.eqb_neq Hu HQ. unfold getUploadLocked.
  rewrite H1, H2, H3. apply wp_lookup_or; congruence.
Qed.

Lemma cleanup_limit_pos limit : 0 < NormalizeMultipartCleanupLimit limit.
Proof. unfold NormalizeMultipartCleanupLimit, DefaultMultipartCleanupLimit. repeat case_match; lia. Qed.

Lemma cleanup_step req s u :
  cln_BucketID req <> "" -> cln_Key req <> "" -> cln_UploadID req <> "" ->
  uploads s !! cleanup_key req = Some u -> closed u ->
  exists r s', CleanupMultipartUploadParts req s = (Ok r, s') /\ cleaned req s s' r.
Proof.
  intros Hb Hk Hi Hu Hc. set (ureq := mkMultipartUploadRequest (cln_BucketID req) (cln_Key req) (cln_UploadID req)).
  set (limit := NormalizeMultipartCleanupLimit (cln_Limit req)). pose proof (cleanup_limit_pos (cln_Limit req)) as Hlim.
  fold limit in Hlim. set (K := sort_by (fun a b => pk_partNumber a <? pk_partNumber b) (upload_parts s ureq).*1).
  assert (K ≡ₚ (map_to_list (parts_of (parts s) (cleanup_key req))).*1) as HK.
  { unfold K. rewrite sort_by_perm. by rewrite (upload_parts_perm s ureq). }
  assert (NoDup K) as HndK by (rewrite HK; apply NoDup_fst_map_to_list).
  assert (length K = size (parts_of (parts s) (cleanup_key req))) as HlenK.
  { rewrite HK, length_fmap. apply length_map_to_list. }
  assert (forall pk, pk ∈ K -> is_Some (parts_of (parts s) (cleanup_key req) !! pk)) as HinK.
  { intros pk. rewrite HK, list_elem_of_fmap. intros ([pk' p] & -> & Hp%elem_of_map_to_list). by eexists. }
  set (keys := partKeysForCleanupLocked s ureq (limit + 1)). set (more := limit <? Z.of_nat (length keys)).
  assert ((if more then take (Z.to_nat limit) keys else keys) = if more then take (Z.to_nat limit) K else K) as Hkeys.
  { unfold more, keys, partKeysForCleanupLocked. fold K. destruct ((0 <? limit + 1) && (limit + 1 <? Z.of_nat (length K))) eqn:E.
    - apply andb_true_iff in E as [_ E%Z.ltb_lt]. rewrite length_take_le by lia.
      destruct (Z.ltb_spec limit (Z.of_nat (Z.to_nat (limit + 1)))); [|lia]. rewrite take_take. f_equal. lia.
    - done. }
  assert (more = (limit <? Z.of_nat (length K))) as Hmore.
  { unfold more, keys, partKeysForCleanupLocked. fold K. destruct ((0 <? limit + 1) && (limit + 1 <? Z.of_nat (length K))) eqn:E; [|done].
    apply andb_true_iff in E as [_ E%Z.ltb_lt]. rewrite length_take_le by lia. apply Bool.eq_iff_eq_true. rewrite !Z.ltb_lt. lia. }
  cut (wp (CleanupMultipartUploadParts req) (fun o s' => match o with Ok r => cleaned req s s' r | Fail _ => False end) s).
  { unfold wp. destruct (CleanupMultipartUploadParts req s) as [[r|e] s'] eqn:E; [|done]. by exists r, s'. }
  unfold CleanupMultipartUploadParts. fold ureq. apply wp_bind, (wp_getUpload_found ureq u); [done..|].
  apply wp_if; intros Ha; [destruct Hc as [Hc|Hc]; by rewrite Hc in Ha|].
  apply wp_if; intros Hn; [destruct Hc as [Hc|Hc]; by rewrite Hc in Hn|]. cbv zeta. fold limit.
  apply wp_bind, wp_gets. fold keys more. rewrite Hkeys. repeat first [apply wp_bind | apply wp_modify | apply wp_now | apply wp_ret].
  split; field_simpl; cbn [clnr_DeletedParts clnr_HasMore].
  - exists (if more then take (Z.to_nat limit) K else K). rewrite Hmore.
    destruct (Z.ltb_spec limit (Z.of_nat (length K))).
    + rewrite length_take_le by lia. split_and!; [done|by eapply sublist_NoDup, sublist_take| |done|lia|lia].
      intros pk Hpk. by apply HinK, (subseteq_take (Z.to_nat limit)).
    + by split_and!.
  - intros w Hw. rewrite Hu in Hw. injection Hw as <-. eexists. rewrite lookup_insert_eq. by split.
Qed.

Lemma cleanup_loop_done fuel req s u :
  cln_BucketID req <> "" -> cln_Key req <> "" -> cln_UploadID req <> "" ->
  uploads s !! cleanup_key req = Some u -> closed u ->
  (size (parts_of (parts s) (cleanup_key req)) < fuel)%nat ->
  exists s' u', cleanup_loop fuel req s = Some (Ok (Z.of_nat (size (parts_of (parts s) (cleanup_key req)))), s') /\
    parts_of (parts s') (cleanup_key req) = ∅ /\
    (forall k, k <> cleanup_key req -> parts_of (parts s') k = parts_of (parts s) k) /\
    uploads s' !! cleanup_key req = Some u' /\ sealed u' = sealed u /\
    mu_PartsCleanupState u' = MultipartPartsCleanupDone.
Proof.
  intros Hb Hk Hi. revert s u. induction fuel as [|fuel IH]; intros s u Hu Hc Hf; [lia|].
  destruct (cleanup_step req s u Hb Hk Hi Hu Hc) as (r & s1 & Hr & [(keys & Hp & Hnd & Hin & Hd & Hm) Hup]).
  destruct (Hup u Hu) as (u1 & Hu1 & Hs1 & Hst). cbn [cleanup_loop]. rewrite Hr.
  pose proof (size_foldr_delete _ keys Hnd Hin) as Hsz. rewrite <- parts_of_foldr_delete, <- Hp in Hsz.
  assert (forall k, k <> cleanup_key req -> parts_of (parts s1) k = parts_of (parts s) k) as Hother.
  { intros k Hne. rewrite Hp. apply parts_of_delete_ne. intros pk Hpk. destruct (Hin _ Hpk) as [p [_ Hpu]%lookup_parts_of]. by rewrite Hpu. }
  destruct (clnr_HasMore r).
  - assert (closed u1) as Hc1 by (unfold closed; by rewrite (sealed_state _ _ Hs1)).
    destruct (IH s1 u1 Hu1 Hc1 ltac:(lia)) as (s2 & u2 & -> & He & Ho & Hu2 & Hs2 & Hst2).
    exists s2, u2. split_and!; [do 3 f_equal; lia|done| |done|congruence|done].
    intros k Hne. by rewrite Ho, Hother.
  - exists s1, u1. split_and!; [do 3 f_equal; lia| |done|done|done|done]. apply map_size_empty_iff. lia.
Qed.

End Cleanup.

(** C24: Repeating the part cleanup of a completed or aborted upload while it
    reports more parts terminates, for every page limit: it deletes all parts of
    the upload, reports their number, leaves the parts of every other upload alone
    and marks the cleanup done without touching the upload's outcome. *)
Theorem multipart_cleanup_terminates `{Env} (req : CleanupMultipartUploadPartsRequest) (s : Repository) (u : MultipartUpload)
    (fuel : nat) :
  cln_BucketID req <> "" -> cln_Key req <> "" -> cln_UploadID req <> "" ->
  uploads s !! cleanup_key req = Some u -> closed u ->
  (size (parts_of (parts s) (cleanup_key req)) < fuel)%nat ->
  exists s' u', cleanup_loop fuel req s = Some (Ok (Z.of_nat (size (parts_of (parts s) (cleanup_key req)))), s') /\
    parts_of (parts s') (cleanup_key req) = ∅ /\
    (forall k, k <> cleanup_key req -> parts_of (parts s') k = parts_of (parts s) k) /\
    uploads s' !! cleanup_key req = Some u' /\ sealed u' = sealed u /\
    mu_PartsCleanupState u' = MultipartPartsCleanupDone.
Proof. intros. by apply cleanup_loop_done. Qed.

(** ** Witnesses *)

Definition ex_part (n size : Z) : PutMultipartPartRequest :=
  mkPutMultipartPartRequest ex_bucket "big" "upl_1" n size "etag" zero_SegmentRef.
Definition ex_upload_req : MultipartUploadRequest := mkMultipartUploadRequest ex_bucket "big" "upl_1".
Definition ex_uploading : list call :=
  [ C_CreateTenant (mkCreateTenantRequest "tenant" "Tenant");
    C_CreateBucket (mkCreateBucketRequest "tenant" "photos" "eu-1" false);
    C_CreateMultipartUpload (mkCreateMultipartUploadRequest ex_bucket "big" "text/plain" zero_StorageClassSnapshot
      zero_ServerSideEncryption ∅ ∅ zero_ObjectLockRetention "");
    C_PutMultipartPart (ex_part 2 5); C_PutMultipartPart (ex_part 1 7); C_PutMultipartPart (ex_part 2 6);
    C_PrepareMultipartCompletion (mkPrepareMultipartCompletionRequest ex_bucket "big" "upl_1" "ver_9" "" "etag" 13 2) ].
Definition ex_multi : Repository := @run_all exEnv ex_uploading (@NewWithClock exEnv).
Definition ex_aborted : Repository := @run_all exEnv [C_AbortMultipartUpload ex_upload_req] ex_multi.
Definition ex_upload_in (s : Repository) : MultipartUpload :=
  default zero_MultipartUpload (uploads s !! upload_key ex_upload_req).
Definition no_completion : MultipartCompletionRecord := mkMultipartCompletionRecord "" "" "" "" "" "" 0 0 "" 0 0.
Definition ex_completion : MultipartCompletionRecord :=
  default no_completion (completions ex_multi !! upload_key ex_upload_req).
Definition ex_cleanup : CleanupMultipartUploadPartsRequest :=
  mkCleanupMultipartUploadPartsRequest ex_bucket "big" "upl_1" 1.

Lemma ex_upload_found s : is_some (uploads s !! upload_key ex_upload_req) = true ->
  uploads s !! upload_key ex_upload_req = Some (ex_upload_in s).
Proof. apply (some_of_is_some zero_MultipartUpload). Qed.

Lemma multipart_summary_exact_witness :
  mu_PartCount (ex_upload_in ex_multi) = 2 /\ mu_TotalPartSizeBytes (ex_upload_in ex_multi) = 13 /\
  mu_MaxPartNumber (ex_upload_in ex_multi) = foldr Z.max 0 (map mp_PartNumber (listPartsLocked ex_multi ex_upload_req)).
Proof.
  destruct (@multipart_summary_exact exEnv exEnv_ok ex_multi ex_upload_req (ex_upload_in ex_multi)) as (H1 & _ & H2 & H3 & _).
  - apply run_all_steps.
  - apply ex_upload_found. by_eval.
  - by_eval.
  - split; [rewrite H1; by_eval|]. split; [rewrite H2; by_eval | exact H3].
Defined.

(** A completion and a new part after the upload was aborted. *)
Definition ex_late : list call :=
  [ C_CompleteMultipartUpload (mkCompleteMultipartUploadRequest ex_bucket "big" "upl_1" "ver_9" "etag" 13 2);
    C_PutMultipartPart (ex_part 3 1); C_CleanupMultipartUploadParts ex_cleanup ].

Lemma closed_upload_is_final_witness :
  exists u', uploads (@run_all exEnv ex_late ex_aborted) !! upload_key ex_upload_req = Some u' /\
    sealed u' = sealed (ex_upload_in ex_aborted).
Proof.
  destruct (@closed_upload_is_final exEnv exEnv_ok ex_late ex_aborted (upload_key ex_upload_req) (ex_upload_in ex_aborted))
    as (u' & H1 & _ & H2).
  - apply ex_upload_found. by_eval.
  - exists u'. split; [exact H1|]. apply H2. apply String.eqb_neq. by_eval.
Defined.

Lemma completion_only_advances_witness :
  exists c', completions (@run_all exEnv [C_MarkMultipartCompletionPublished
      (mkMultipartCompletionStateRequest ex_bucket "big" "upl_1")] ex_multi) !! upload_key ex_upload_req = Some c' /\
    completion_identity c' = completion_identity ex_completion.
Proof.
  destruct (@completion_only_advances exEnv exEnv_ok [C_MarkMultipartCompletionPublished
      (mkMultipartCompletionStateRequest ex_bucket "big" "upl_1")] ex_multi (upload_key ex_upload_req) ex_completion)
    as (c' & H1 & H2 & _).
  - apply (some_of_is_some no_completion). by_eval.
  - exists c'. split; [exact H1 | exact H2].
Defined.

Lemma multipart_cleanup_terminates_witness :
  exists s', @cleanup_loop exEnv 3 ex_cleanup ex_aborted = Some (Ok 2, s') /\
    parts_of (parts s') (upload_key ex_upload_req) = ∅.
Proof.
  destruct (@multipart_cleanup_terminates exEnv ex_cleanup ex_aborted (ex_upload_in ex_aborted) 3) as (s' & u' & H1 & H2 & _).
  - discriminate.
  - discriminate.
  - discriminate.
  - apply (ex_upload_found ex_aborted). by_eval.
  - right. by_eval.
  - apply Nat.ltb_lt. by_eval.
  - exists s'. split; [|exact H2]. rewrite H1.
    assert (size (parts_of (parts ex_aborted) (cleanup_key ex_cleanup)) = 2%nat) as -> by by_eval. reflexivity.
Defined.
