(* ===== verification/UploadPages.v ===== *)
(** * UploadPages: the paginated listing of active multipart uploads

    The counterpart of [Pagination] for [ListMultipartUploads], whose marker is a
    key and an upload identifier, because one key may have several uploads. *)

From S2P Require Import Prelude GoLib Sha256 StorageTypes Model Requests Encoding Meta Manifest Repo RepoLogic.
From S2P Require Import RepoMultipart RepoListing RepoCalls ObjInv RepoExample MultipartInv Pagination Multipart.
From Stdlib Require Import Sorted.
Open Scope string_scope.
Open Scope Z_scope.

Definition lists_upload (s : Repository) (bucketID reqPrefix key id : string) (u : MultipartUpload) : Prop :=
  uploads s !! mk_uploadKey bucketID key id = Some u /\ mu_State u = MultipartUploadActive /\ HasPrefix key reqPrefix = true.

Definition upload_tie (a b : entry (string * MultipartUpload)) : bool :=
  if negb (Bool.eqb (prefix a) (prefix b)) then prefix a else str_ltb (payload a).1 (payload b).1.

Section Uploads.
Context (s : Repository) (req : ListMultipartUploadsRequest).
Abbreviation b := (lmu_BucketID req).
Abbreviation p := (lmu_Prefix req).
Abbreviation d := (lmu_Delimiter req).
Abbreviation entries := (multipartUploadEntries s req).

Lemma elem_of_listed_uploads key id u : (key, (id, u)) ∈ listed_uploads s b p <-> lists_upload s b p key id u.
Proof.
  unfold listed_uploads, lists_upload. rewrite list_elem_of_omap. split.
  - intros ([[b' k i] u'] & Hin%elem_of_map_to_list & Heq). simpl in Heq.
    destruct (String.eqb_spec b' b) as [->|]; [|done]. destruct (String.eqb_spec (mu_State u') MultipartUploadActive); [|done].
    destruct (HasPrefix k p) eqn:Hp; [|done]. simpl in Heq. by simplify_eq.
  - intros (Hu & Hs & Hp). exists (mk_uploadKey b key id, u). rewrite elem_of_map_to_list.
    split; [done|]. simpl. by rewrite String.eqb_refl, Hs, Hp.
Qed.

Lemma NoDup_listed_uploads : NoDup (listed_uploads s b p).
Proof.
  apply NoDup_omap; [apply NoDup_map_to_list|]. intros [[b1 k1 i1] u1] [[b2 k2 i2] u2] z. simpl.
  destruct (String.eqb_spec b1 b) as [->|]; [|done]. destruct (String.eqb_spec b2 b) as [->|]; [|done]. simpl.
  repeat case_match; try done. intros. by simplify_eq.
Qed.

Lemma elem_of_entries e :
  e ∈ entries <->
  (exists key id u, e = mk_entry key false (id, u) /\ lists_upload s b p key id u /\ common_prefix p d key = None) \/
  (exists q key id u, e = mk_entry q true ("", zero_MultipartUpload) /\ lists_upload s b p key id u /\
     common_prefix p d key = Some q).
Proof.
  unfold multipartUploadEntries. rewrite elem_of_sort_by, elem_of_roll_up. split.
  - intros [(key & [id u] & -> & Hin%elem_of_listed_uploads & ?)|(q & key & [id u] & -> & _ & Hin%elem_of_listed_uploads & ?)];
      [left; by exists key, id, u | right; by exists q, key, id, u].
  - intros [(key & id & u & -> & ?%elem_of_listed_uploads & ?)|(q & key & id & u & -> & ?%elem_of_listed_uploads & ?)];
      [left; by exists key, (id, u) | right; exists q, key, (id, u)].
    split_and!; [done|apply not_elem_of_empty|done|done].
Qed.

(** Entries of one name are uploads of one key. *)
Lemma same_name x y :
  x ∈ entries -> y ∈ entries -> name x = name y -> x = y \/ (prefix x = false /\ prefix y = false /\ (payload x).1 <> (payload y).1).
Proof.
  unfold multipartUploadEntries. rewrite !elem_of_sort_by. intros Hx Hy Hn.
  destruct (roll_up_names p d ("", zero_MultipartUpload) (listed_uploads s b p) x y) as [?|(P1 & P2 & H1 & H2)]; try done.
  - intros key [id u] (_ & _ & Hp)%elem_of_listed_uploads. done.
  - by left.
  - destruct x as [nx px [ix ux]], y as [ny py [iy uy]]. simpl in *. apply elem_of_listed_uploads in H1 as [H1 _], H2 as [H2 _].
    destruct (decide (ix = iy)) as [->|Hne]; [left; by simplify_eq | by right].
Qed.

Lemma entries_before i j x y :
  entries !! i = Some x -> entries !! j = Some y -> (i < j)%nat ->
  str_ltb (name x) (name y) = true \/
  (name x = name y /\ prefix x = false /\ prefix y = false /\ str_ltb (payload x).1 (payload y).1 = true).
Proof.
  change entries with (sort_by (lex upload_tie) (roll_up p d ("", zero_MultipartUpload) ∅ (listed_uploads s b p))).
  intros Hx Hy Hij. assert (x ∈ entries /\ y ∈ entries) as [Hinx Hiny] by (by split; eapply list_elem_of_lookup_2).
  destruct (lex_before upload_tie) with (l := roll_up p d ("", zero_MultipartUpload) ∅ (listed_uploads s b p))
    (i := i) (j := j) (a := x) (b := y) as [?|[Hn Ht]]; try done.
  - intros [? [] ?] [? [] ?]; unfold upload_tie; simpl; try done; apply str_ltb_asym.
  - intros [? [] ?] [? [] ?] [? [] ?]; unfold upload_tie; simpl; try done; apply str_geb_trans.
  - apply NoDup_roll_up, NoDup_listed_uploads.
  - intros a c Ha Hc Hn Hac Hca. rewrite <- (elem_of_sort_by (lex upload_tie)) in Ha, Hc.
    destruct (same_name a c Ha Hc Hn) as [?|(P1 & P2 & Hne)]; [done|]. exfalso. apply Hne.
    unfold upload_tie in *. rewrite P1, P2 in *. simpl in *. by apply str_ltb_total.
  - by left.
  - right. destruct (same_name x y Hinx Hiny Hn) as [->|(P1 & P2 & _)].
    + exfalso. unfold upload_tie in Ht. rewrite Bool.eqb_reflx in Ht. simpl in Ht. by rewrite str_ltb_irrefl in Ht.
    + unfold upload_tie in Ht. rewrite P1, P2 in Ht. by split_and!.
Qed.

Hypothesis s_inv : multi_inv s.

Lemma upload_entry_named e : e ∈ entries -> name e <> "" /\ (prefix e = false -> (payload e).1 <> "").
Proof.
  rewrite elem_of_entries. intros [(key & id & u & -> & (Hu & _) & _)|(q & key & id & u & -> & _ & Hq)]; simpl.
  - by destruct (mi_uploads _ _ s_inv _ _ Hu) as (? & ? & _).
  - split; [by eapply common_prefix_named | done].
Qed.

Lemma multipartEntriesAfter_exact j e :
  entries !! j = Some e -> multipartEntriesAfter entries (name e) (payload e).1 = drop (S j) entries.
Proof.
  intros Hj. unfold multipartEntriesAfter. f_equal. apply search_exact; [by eapply lookup_lt_Some|].
  intros i [a Ha]%lookup_lt_is_Some. rewrite Ha. unfold upload_marker_pred. case_bool_decide as Hij.
  - destruct (entries_before j i e a Hj Ha Hij) as [Hlt|(Hn & Pe & _ & Hid)].
    + destruct (String.eqb_spec (name a) (name e)) as [E|_]; [by rewrite E, str_ltb_irrefl in Hlt|done].
    + rewrite Hn, String.eqb_refl. simpl. destruct (String.eqb_spec (payload e).1 "") as [E|_]; [|done].
      by apply list_elem_of_lookup_2, upload_entry_named in Hj as [_ ?%(fun f => f Pe)].
  - destruct (decide (i = j)) as [->|Hne].
    + simplify_eq. rewrite String.eqb_refl. simpl. case_match; apply str_ltb_irrefl.
    + destruct (entries_before i j a e Ha Hj ltac:(lia)) as [Hlt|(Hn & _ & _ & Hid)].
      * destruct (String.eqb_spec (name a) (name e)) as [E|_]; [by rewrite E, str_ltb_irrefl in Hlt|]. simpl. by apply str_ltb_asym.
      * rewrite Hn, String.eqb_refl. simpl. case_match; [apply str_ltb_irrefl | by apply str_ltb_asym].
Qed.

End Uploads.

(** ** Pages *)

Definition upload_page (s : Repository) (req : ListMultipartUploadsRequest) : outcome Err ListMultipartUploadsResult :=
  (ListMultipartUploads req s).1.
Definition with_markers (req : ListMultipartUploadsRequest) (key id : string) : ListMultipartUploadsRequest :=
  mkListMultipartUploadsRequest (lmu_BucketID req) (lmu_Prefix req) (lmu_Delimiter req) key id (lmu_MaxUploads req).
Definition next_upload_page (req : ListMultipartUploadsRequest) (page : ListMultipartUploadsResult)
    : option ListMultipartUploadsRequest :=
  if lmur_IsTruncated page then Some (with_markers req (lmur_NextKeyMarker page) (lmur_NextUploadIDMarker page)) else None.

Section UploadPages.
Context (s : Repository) (req : ListMultipartUploadsRequest).
Hypothesis s_inv : multi_inv s.
Hypothesis bucket_given : lmu_BucketID req <> "".
Hypothesis bucket_found : is_Some (bucketsByID s !! lmu_BucketID req).
Abbreviation entries := (multipartUploadEntries s req).
Abbreviation maxUploads := (go_limit (lmu_MaxUploads req)).

Definition upload_standing (k : nat) (req' : ListMultipartUploadsRequest) : Prop :=
  exists key id, req' = with_markers req key id /\
    (k = 0%nat /\ key = "" \/ exists j e, k = S j /\ entries !! j = Some e /\ key = name e /\ id = (payload e).1).
Definition shows_uploads (page : ListMultipartUploadsResult) (l : list (entry (string * MultipartUpload))) : Prop :=
  lmur_Uploads page = map snd (entry_items l) /\ lmur_CommonPrefixes page = entry_prefixes l.

Lemma upload_page_at k req' :
  upload_standing k req' -> exists page, upload_page s req' = Ok page /\
  shows_uploads page (take maxUploads (drop k entries)) /\
  if (maxUploads <? length (drop k entries))%nat
  then exists req'', next_upload_page req' page = Some req'' /\ upload_standing (k + maxUploads) req''
  else next_upload_page req' page = None.
Proof.
  intros (key & id & -> & Hm). set (L := entries) in *.
  assert ((if key =s "" then L else multipartEntriesAfter L key id) = drop k L) as Hrest.
  { destruct Hm as [[-> ->]|(j & e & -> & He & -> & ->)]; [done|].
    destruct (String.eqb_spec (name e) "") as [E|_]; [|by apply multipartEntriesAfter_exact].
    by apply list_elem_of_lookup_2, upload_entry_named in He as [? _]. }
  set (page := mkListMultipartUploadsResult (map snd (entry_items (take maxUploads (drop k L))))
      (entry_prefixes (take maxUploads (drop k L))) (truncated maxUploads (drop k L))
      (match last_of maxUploads (drop k L) with Some e => name e | None => "" end)
      (match last_of maxUploads (drop k L) with Some e => (payload e).1 | None => "" end)).
  exists page. split.
  { unfold upload_page, ListMultipartUploads. cbn [with_markers lmu_BucketID lmu_KeyMarker lmu_UploadIDMarker lmu_MaxUploads].
    destruct (String.eqb_spec (lmu_BucketID req) "") as [|_]; [done|].
    unfold st_bind at 1, lookup_or. destruct bucket_found as [b ->]. unfold st_bind, gets, st_ret. simpl.
    change (multipartUploadEntries s (with_markers req key id)) with L. by rewrite Hrest. }
  split; [done|]. unfold next_upload_page. cbn [lmur_IsTruncated page]. unfold truncated.
  destruct (Nat.ltb_spec maxUploads (length (drop k L))) as [Hlt|]; [|done].
  eexists. split; [reflexivity|]. exists (lmur_NextKeyMarker page), (lmur_NextUploadIDMarker page).
  pose proof (go_limit_pos (lmu_MaxUploads req)) as Hpos.
  destruct (lookup_lt_is_Some_2 (drop k L) (maxUploads - 1) ltac:(lia)) as [e He].
  split; [done|]. right. exists (k + (maxUploads - 1))%nat, e.
  split; [lia|]. rewrite <- lookup_drop. split; [done|]. simpl. unfold last_of, truncated.
  by rewrite (proj2 (Nat.ltb_lt _ _) Hlt), He.
Qed.

Lemma upload_pages_show fuel :
  lmu_KeyMarker req = "" -> (size (uploads s) < fuel)%nat ->
  exists pages, follow (upload_page s) next_upload_page fuel req = Some (Ok pages) /\
    concat (map lmur_Uploads pages) = map snd (entry_items entries) /\
    concat (map lmur_CommonPrefixes pages) = entry_prefixes entries.
Proof.
  intros Ht Hf.
  assert (length entries <= size (uploads s))%nat as Hsz.
  { unfold multipartUploadEntries. rewrite length_sort_by, length_roll_up. unfold listed_uploads. rewrite length_omap.
    by rewrite length_map_to_list. }
  destruct (follow_complete (upload_page s) next_upload_page entries maxUploads upload_standing shows_uploads
              (go_limit_pos _) upload_page_at fuel 0 req) as (pages & chunks & Hpg & Hsh & Hc); [|lia|lia|].
  { exists "", (lmu_UploadIDMarker req). split; [rewrite <- Ht; by destruct req|by left]. }
  exists pages. split; [done|]. rewrite drop_0 in Hc. rewrite <- Hc, entry_items_concat, entry_prefixes_concat, concat_map, map_map.
  split; f_equal; apply Forall2_map_eq; eapply Forall2_impl; [exact Hsh|by intros ?? []|exact Hsh|by intros ?? []].
Qed.

End UploadPages.

(** The listing order of uploads. *)
Definition upload_before (u v : MultipartUpload) : Prop :=
  str_ltb (mu_Key u) (mu_Key v) = true \/ (mu_Key u = mu_Key v /\ str_ltb (mu_UploadID u) (mu_UploadID v) = true).

(** C25: A client that pages through the multipart uploads of a bucket, following
    the key and upload markers, terminates and sees exactly the active uploads
    under the prefix whose keys do not roll up, each once, ordered by key and then
    by upload identifier, and exactly the common prefixes of the others. *)
Theorem list_uploads_complete `{Env, !GeneratorOk} (s : Repository) (req : ListMultipartUploadsRequest) (fuel : nat) :
  reachable s -> lmu_BucketID req <> "" -> is_Some (bucketsByID s !! lmu_BucketID req) ->
  lmu_KeyMarker req = "" -> (size (uploads s) < fuel)%nat ->
  exists pages, follow (upload_page s) next_upload_page fuel req = Some (Ok pages) /\
    let listed := concat (map lmur_Uploads pages) in
    let prefixes := concat (map lmur_CommonPrefixes pages) in
    (forall u, u ∈ listed <-> exists key id, lists_upload s (lmu_BucketID req) (lmu_Prefix req) key id u /\
       common_prefix (lmu_Prefix req) (lmu_Delimiter req) key = None) /\
    (forall q, q ∈ prefixes <-> exists key id u, lists_upload s (lmu_BucketID req) (lmu_Prefix req) key id u /\
       common_prefix (lmu_Prefix req) (lmu_Delimiter req) key = Some q) /\
    StronglySorted upload_before listed /\ StronglySorted (fun a b => str_ltb a b = true) prefixes.
Proof.
  intros Hr Hb Hf Ht Hfuel. pose proof (reachable_multi_inv s Hr) as Hinv.
  destruct (upload_pages_show s req Hinv Hb Hf fuel Ht Hfuel) as (pages & Hp & Hc & Hx).
  exists pages. split; [done|]. cbv zeta. rewrite Hc, Hx. clear Hc Hx.
  pose proof (elem_of_entries s req) as Hin. set (entries := multipartUploadEntries s req) in *.
  pose (before := fun a b : entry (string * MultipartUpload) => str_ltb (name a) (name b) = true \/
    (name a = name b /\ prefix a = false /\ prefix b = false /\ str_ltb (payload a).1 (payload b).1 = true)).
  assert (StronglySorted before entries) as Hs.
  { apply StronglySorted_lookups. intros i j a b. apply entries_before. }
  split_and!.
  - intros u. rewrite list_elem_of_fmap. setoid_rewrite elem_of_entry_items. setoid_rewrite Hin. split.
    + intros ([id u'] & -> & e & [(key & id' & w & -> & ? & ?)|(? & ? & ? & ? & -> & _)] & Hpre & Hpay); [|done].
      simpl in Hpay. simplify_eq. by exists key, id.
    + intros (key & id & Hl & Hc). exists (id, u). split; [done|]. exists (mk_entry key false (id, u)).
      split; [left; by exists key, id, u|done].
  - intros q. rewrite elem_of_entry_prefixes. setoid_rewrite Hin. split.
    + intros (e & [(? & ? & ? & -> & _)|(q' & key & id & u & -> & ? & ?)] & Hpre & <-); [done|]. by exists key, id, u.
    + intros (key & id & u & Hl & Hc). exists (mk_entry q true ("", zero_MultipartUpload)).
      split; [right; by exists q, key, id, u|done].
  - unfold entry_items. rewrite map_map. apply (StronglySorted_select _ _ _ _ _ Hs).
    intros x y [(k1 & i1 & u1 & -> & (L1 & _) & _)|(? & ? & ? & ? & -> & _)]%Hin [(k2 & i2 & u2 & -> & (L2 & _) & _)|(? & ? & ? & ? & -> & _)]%Hin; try done.
    destruct (mi_uploads _ _ Hinv _ _ L1) as (_ & _ & K1), (mi_uploads _ _ Hinv _ _ L2) as (_ & _ & K2).
    intros _ _. unfold before, upload_before. simpl. simplify_eq.
    intros [?|(? & _ & _ & ?)]; [by left | by right].
  - apply (StronglySorted_select _ _ _ _ _ Hs). intros x y _ _ Px _ [?|(_ & Px' & _)]; [done|congruence].
Qed.

Lemma list_uploads_complete_witness :
  exists pages, follow (upload_page ex_multi) next_upload_page 5 (mkListMultipartUploadsRequest ex_bucket "b" "/" "" "" 1)
      = Some (Ok pages) /\
    forall u, u ∈ concat (map lmur_Uploads pages) <-> exists key id, lists_upload ex_multi ex_bucket "b" key id u /\
       common_prefix "b" "/" key = None.
Proof.
  destruct (@list_uploads_complete exEnv exEnv_ok ex_multi (mkListMultipartUploadsRequest ex_bucket "b" "/" "" "" 1) 5)
    as (pages & H1 & H2 & _).
  - apply run_all_steps.
  - discriminate.
  - apply is_some_true. by_eval.
  - reflexivity.
  - apply Nat.ltb_lt. by_eval.
  - exists pages. split; [exact H1 | exact H2].
Defined.
