(* ===== verification/Leases.v ===== *)
(** * Leases: worker leases fence their holders

    A worker lease changes hands only after it expired, and every change of hands
    raises its generation, so a lease and its generation together name one holder
    ([AcquireWorkerLease], [ReleaseWorkerLease] of the repository and
    [BuildWorkerLease] of [src/internal/meta/worker.go]). Dedupe operation locks
    exclude other owners in the same way. *)

From S2P Require Import Prelude GoLib GoText Sha256 StorageTypes Model Requests Encoding Meta Manifest Repo RepoLogic.
From S2P Require Import RepoBuckets RepoObjects RepoMultipart RepoListing RepoOps RepoShared RepoAudit RepoCalls.
From S2P Require Import ObjInv RepoExample Worm.
From Stdlib Require Import Ascii.
Open Scope string_scope.
Open Scope Z_scope.

Lemma WorkerLeaseID_trim k s : WorkerLeaseID (TrimSpace k) (TrimSpace s) = WorkerLeaseID k s.
Proof. unfold WorkerLeaseID. by rewrite !TrimSpace_idem. Qed.

Lemma WorkerLeaseID_named k s : WorkerLeaseID k s <> "".
Proof.
  unfold WorkerLeaseID. intros Heq. apply (f_equal String.length) in Heq. rewrite !str_length_app in Heq. simpl in Heq. lia.
Qed.

(** ** Leases under calls *)

Definition bump (generation : Z) : Z := if uint64 (generation + 1) =? 0 then 1 else uint64 (generation + 1).

(** The call is by [owner] and about the lease [id]. *)
Definition by_holder (owner id : string) (c : call) : Prop :=
  match c with
  | C_AcquireWorkerLease req => TrimSpace (awl_OwnerID req) = owner /\ WorkerLeaseID (awl_WorkerKind req) (awl_ShardID req) = id
  | C_ReleaseWorkerLease req => TrimSpace (rwl_OwnerID req) = owner /\ WorkerLeaseID (rwl_WorkerKind req) (rwl_ShardID req) = id
  | _ => False
  end.

Section LeaseCalls.
Context `{Env}.
Implicit Types (s : Repository) (l : WorkerLease).

(** What one call does to a lease: nothing; or its holder renews or releases it;
    or it had expired when the call read the clock and changes hands. *)
Inductive lease_moves (c : call) (id : string) (n m : nat) : WorkerLease -> WorkerLease -> Prop :=
| lease_stays l : lease_moves c id n m l l
| lease_held l l' : by_holder (wl_OwnerID l) id c -> wl_OwnerID l' = wl_OwnerID l ->
    wl_Generation l' = wl_Generation l -> lease_moves c id n m l l'
| lease_taken l l' i : (n <= i < m)%nat -> wl_ExpiresAt l <= env_now i -> wl_Generation l' = bump (wl_Generation l) ->
    lease_moves c id n m l l'.

Definition lease_kept (c : call) (s s' : Repository) : Prop :=
  forall id l, workerLeases s !! id = Some l -> wl_LeaseID l <> "" ->
    exists l', workerLeases s' !! id = Some l' /\ wl_LeaseID l' <> "" /\
      lease_moves c id (clock_calls s) (clock_calls s') l l'.

Lemma BuildWorkerLease_ok existing req t lease :
  BuildWorkerLease existing req t = Ok lease ->
  wl_LeaseID lease = WorkerLeaseID (awl_WorkerKind req) (awl_ShardID req) /\
  wl_OwnerID lease = TrimSpace (awl_OwnerID req) /\
  (wl_LeaseID existing <> "" ->
    (wl_OwnerID existing = TrimSpace (awl_OwnerID req) /\ wl_Generation lease = wl_Generation existing) \/
    (wl_ExpiresAt existing <= t /\ wl_Generation lease = bump (wl_Generation existing))).
Proof.
  unfold BuildWorkerLease. repeat case_match; try done; intros [= <-]; simpl; rewrite WorkerLeaseID_trim;
    (split; [done|split; [done|]]); intros Hne; apply String.eqb_neq in Hne; rewrite Hne in *; simpl in *;
    destruct (String.eqb_spec (wl_OwnerID existing) (TrimSpace (awl_OwnerID req))); simpl in *; try (by left);
    right; (split; [lia|]); unfold bump.
  all: match goal with |- context [?a =? 0] => destruct (Z.eqb_spec a 0) end; done.
Qed.

Lemma AcquireWorkerLease_kept req s : lease_kept (C_AcquireWorkerLease req) s (st_exec (AcquireWorkerLease req) s).
Proof.
  unfold AcquireWorkerLease. apply wp_exec. set (id := WorkerLeaseID _ _).
  repeat wp_step; try (intros id' l Hl Hn; exists l; split; [done|split; [done|apply lease_stays]]).
  intros id' l Hl Hn. field_simpl.
  match goal with Hb : BuildWorkerLease _ _ _ = Ok ?x |- _ => destruct (BuildWorkerLease_ok _ _ _ _ Hb) as (Hid & Ho & Hg) end.
  destruct (decide (id' = id)) as [->|Hne].
  - rewrite Hid, lookup_insert_eq. eexists. split; [done|]. rewrite Hl in Hg. simpl in Hg. specialize (Hg Hn).
    split; [rewrite Hid; apply WorkerLeaseID_named|]. destruct Hg as [[Ho' Hg]|[He Hg]].
    + apply lease_held; [by split|congruence|done].
    + eapply lease_taken; [|exact He|done]. lia.
  - exists l. rewrite Hid, lookup_insert_ne by (by apply not_eq_sym). split; [done|split; [done|apply lease_stays]].
Qed.

Lemma ReleaseWorkerLease_kept req s : lease_kept (C_ReleaseWorkerLease req) s (st_exec (ReleaseWorkerLease req) s).
Proof.
  unfold ReleaseWorkerLease. apply wp_exec. cbv zeta. rewrite WorkerLeaseID_trim. set (id := WorkerLeaseID _ _).
  repeat wp_step; try (intros id' l Hl Hn; exists l; split; [done|split; [done|apply lease_stays]]).
  intros id' l Hl Hn. field_simpl.
  match goal with Ho : negb _ = false |- _ => apply negb_false_iff, String.eqb_eq in Ho as Hown end.
  destruct (decide (id' = id)) as [->|Hne].
  - rewrite lookup_insert_eq. eexists. split; [done|]. simplify_eq. field_simpl.
    split; [done|]. apply lease_held; [by split|done|done].
  - exists l. rewrite lookup_insert_ne by (by apply not_eq_sym). split; [done|split; [done|apply lease_stays]].
Qed.

(** *** The import *)

Lemma import_scan_ok {A K} `{EqDecision K} (id : A -> K) bad taken seen (l : list A) u :
  import_scan id bad taken seen l = Ok u -> forall a, a ∈ l -> bad a = false /\ taken (id a) = false.
Proof.
  revert seen. induction l as [|x l IH]; intros seen; simpl; [by intros _ a ?%elem_of_nil|].
  destruct (bad x) eqn:Hb; [done|]. case_bool_decide; [done|]. destruct (taken (id x)) eqn:Ht; [done|].
  intros Hl a [->|Ha]%elem_of_cons; [done | by eapply IH].
Qed.

Lemma lookup_insert_all_ne {A K} `{Countable K} (key : A -> K) (l : list A) (m : gmap K A) k :
  (forall a, a ∈ l -> key a <> k) -> insert_all key l m !! k = m !! k.
Proof.
  unfold insert_all. revert m. induction l as [|x l IH]; intros m Hk; simpl; [done|].
  rewrite IH by (intros; apply Hk; by right). apply lookup_insert_ne, Hk. by left.
Qed.

Lemma lookup_insert_all_Some {A K} `{Countable K} (key : A -> K) (l : list A) (m : gmap K A) k x :
  insert_all key l m !! k = Some x -> x ∈ l \/ m !! k = Some x.
Proof.
  unfold insert_all. revert m. induction l as [|a l IH]; intros m; simpl; [by right|].
  intros [Hx|[[_ <-]|[_ Hx]]%lookup_insert_Some]%IH; [left; by right|left; by left|by right].
Qed.

Lemma and_then_ok a b u : and_then a b = Ok u -> (exists v, a = Ok v) /\ b = Ok u.
Proof. destruct a; simpl; [by eauto|done]. Qed.

Lemma import_leases s req u :
  validateOperationalMetadataImportLocked s req = Ok u -> forall a, a ∈ iom_WorkerLeases req ->
  wl_LeaseID a <> "" /\ workerLeases s !! WorkerLeaseID (wl_WorkerKind a) (wl_ShardID a) = None.
Proof.
  unfold validateOperationalMetadataImportLocked. intros Hv.
  do 10 apply and_then_ok in Hv as [_ Hv]. apply and_then_ok in Hv as [[v Hv] _].
  intros a Ha. destruct (import_scan_ok _ _ _ _ _ _ Hv a Ha) as [Hb Ht].
  rewrite !orb_false_iff, negb_false_iff, String.eqb_eq in Hb. destruct Hb as [[[Hb _] _] Heq].
  rewrite Heq, WorkerLeaseID_trim in Ht. split; [|by apply is_some_false]. intros E. by rewrite E in Hb.
Qed.

Lemma Import_kept req s :
  lease_kept (C_ImportOperationalMetadata req) s (st_exec (ImportOperationalMetadata req) s).
Proof.
  unfold ImportOperationalMetadata. apply wp_exec.
  repeat wp_step; try (intros id' l Hl Hn; exists l; split; [done|split; [done|apply lease_stays]]).
  intros id l Hl Hn. exists l. split; [|split; [done|apply lease_stays]].
  unfold import_state. field_simpl. rewrite lookup_insert_all_ne; [done|].
  match goal with Hv : validateOperationalMetadataImportLocked _ _ = Ok _ |- _ => intros a' Ha'; destruct (import_leases _ _ _ Hv a' Ha') as [_ Hno] end.
  congruence.
Qed.

Definition lease_view (s : Repository) := workerLeases s.

Lemma lease_call c s : lease_kept c s (st_exec (run c) s).
Proof.
  assert (forall A (m : M A), frames lease_view m -> lease_kept c s (st_exec m s)) as Hf.
  { intros A m Hm id l Hl Hn. exists l. specialize (Hm s). unfold lease_view in Hm. rewrite Hm.
    split; [done|split; [done|apply lease_stays]]. }
  destruct c; cbn [run]; try (apply Hf; solve [frame]); rewrite exec_discard.
  - apply Import_kept.
  - apply AcquireWorkerLease_kept.
  - apply ReleaseWorkerLease_kept.
Qed.

(** Stored leases carry their identifier. *)
Definition leases_named (s : Repository) : Prop := forall id l, workerLeases s !! id = Some l -> wl_LeaseID l <> "".

Lemma leases_named_calls c : preserves (keeps leases_named) (run c).
Proof.
  assert (forall A (m : M A), frames lease_view m -> preserves (keeps leases_named) m) as Hf.
  { intros A m. apply frames_keeps. unfold leases_named, lease_view. intros s s' ->. done. }
  destruct c; cbn [run]; try (apply Hf; solve [frame]); intros s Hs; rewrite exec_discard.
  - unfold ImportOperationalMetadata. apply wp_exec. repeat wp_step; try exact Hs.
    intros id l. unfold import_state. field_simpl. intros [Hl|Hl]%lookup_insert_all_Some; [|by eapply Hs].
    match goal with Hv : validateOperationalMetadataImportLocked _ _ = Ok _ |- _ => by apply (import_leases _ _ _ Hv) in Hl as [? _] end.
  - unfold AcquireWorkerLease. apply wp_exec. repeat wp_step; try exact Hs.
    intros id l. field_simpl. intros [[_ <-]|[_ Hl]]%lookup_insert_Some; [|by eapply Hs].
    match goal with Hb : BuildWorkerLease _ _ _ = Ok _ |- _ => apply BuildWorkerLease_ok in Hb as [-> _] end.
    apply WorkerLeaseID_named.
  - unfold ReleaseWorkerLease. apply wp_exec. repeat wp_step; try exact Hs.
    intros id l. field_simpl. intros [[_ <-]|[_ Hl]]%lookup_insert_Some; [|by eapply Hs]. field_simpl. by eapply Hs.
Qed.

Lemma reachable_leases_named s : reachable s -> leases_named s.
Proof.
  apply (reachable_ind leases_named); [|intros c s'; apply leases_named_calls].
  intros id l. unfold NewWithClock. simpl. by rewrite lookup_empty.
Qed.

Lemma bump_small g : 0 <= g -> g + 1 < 2 ^ 64 -> bump g = g + 1.
Proof. intros H0 H1. unfold bump, uint64. rewrite Z.mod_small by lia. destruct (Z.eqb_spec (g + 1) 0); lia. Qed.

End LeaseCalls.

(** ** The theorems *)

Section LeaseTheorems.
Context `{Env}.

(** A worker lease fences its holder. However the repository is used, a lease
    is never lost, its generation never goes down, and it has another owner only
    under a higher generation: a lease identifier with a generation names one
    owner (generations are 64-bit, so fewer than 2^64 calls are assumed). *)
Theorem lease_generation_fences (calls : list call) (s : Repository) (id : string) (l : WorkerLease) :
  reachable s -> workerLeases s !! id = Some l ->
  0 <= wl_Generation l -> wl_Generation l + Z.of_nat (length calls) < 2 ^ 64 ->
  exists l', workerLeases (run_all calls s) !! id = Some l' /\ wl_Generation l <= wl_Generation l' /\
    (wl_Generation l' = wl_Generation l -> wl_OwnerID l' = wl_OwnerID l).
Proof.
  intros Hr Hl. assert (wl_LeaseID l <> "") as Hn by (by eapply reachable_leases_named). clear Hr.
  revert s l Hl Hn. induction calls as [|c calls IH]; intros s l Hl Hn H0 Hlen; simpl in *; [exists l; split_and!; [done|lia|done]|].
  destruct (lease_call c s id l Hl Hn) as (l1 & Hl1 & Hn1 & Hm).
  assert (0 <= wl_Generation l1 /\ wl_Generation l <= wl_Generation l1 <= wl_Generation l + 1 /\
    (wl_Generation l1 = wl_Generation l -> wl_OwnerID l1 = wl_OwnerID l)) as (G0 & G1 & G2).
  { destruct Hm as [|l l' _ Ho Hg|l l' i _ _ Hg]; [split_and!; auto; lia|split_and!; auto; lia|].
    rewrite bump_small in Hg by lia. split_and!; lia. }
  destruct (IH _ l1 Hl1 Hn1 G0 ltac:(lia)) as (l2 & Hl2 & G3 & G4). exists l2. split_and!; [done|lia|].
  intros Heq. rewrite G4 by lia. apply G2. lia.
Qed.

(** C26: A worker lease excludes everybody else. As long as the clock has not
    reached its expiry and its holder does not renew or release it, no sequence of
    calls changes the lease in any way. *)
Theorem lease_excludes_others (calls : list call) (s : Repository) (id : string) (l : WorkerLease) :
  reachable s -> workerLeases s !! id = Some l ->
  Forall (fun c => ~ by_holder (wl_OwnerID l) id c) calls ->
  (forall i, (clock_calls s <= i < clock_calls (run_all calls s))%nat -> env_now i < wl_ExpiresAt l) ->
  workerLeases (run_all calls s) !! id = Some l.
Proof.
  intros Hr Hl. assert (wl_LeaseID l <> "") as Hn by (by eapply reachable_leases_named). clear Hr.
  revert s Hl. induction calls as [|c calls IH]; intros s Hl Hc Ht; simpl in *; [done|].
  apply Forall_cons in Hc as [Hc Hcs]. destruct (lease_call c s id l Hl Hn) as (l1 & Hl1 & Hn1 & Hm).
  pose proof (clock_mono c s) as Hm1. unfold clock_grows in Hm1.
  pose proof (run_all_clock calls (st_exec (run c) s)) as Hm2.
  apply IH; [|done|intros i Hi; apply Ht; lia].
  inversion Hm as [|? ? Hh|? ? i Hi He]; subst; [done|done|]. specialize (Ht i ltac:(lia)). lia.
Qed.

End LeaseTheorems.

(** ** Dedupe operation locks *)

(** The call is by [owner] and about the lock [id]. *)
Definition by_lock_owner (owner id : string) (c : call) : Prop :=
  match c with
  | C_AcquireDedupeOperationLock req => TrimSpace (adl_OwnerID req) = owner /\ TrimSpace (adl_LockID req) = id
  | C_ReleaseDedupeOperationLock req => TrimSpace (rdl_OwnerID req) = owner /\ TrimSpace (rdl_LockID req) = id
  | _ => False
  end.

Section DedupeLocks.
Context `{Env}.

(** A call by somebody else leaves an unexpired lock as it is. *)
Lemma dedupe_lock_call c s id lock :
  dedupeLocks s !! id = Some lock -> ~ by_lock_owner (dol_OwnerID lock) id c ->
  (forall i, (clock_calls s <= i < clock_calls (st_exec (run c) s))%nat -> env_now i < dol_ExpiresAt lock) ->
  dedupeLocks (st_exec (run c) s) !! id = Some lock.
Proof.
  intros Hl Hc.
  set (P := fun s' : Repository => (forall i, (clock_calls s <= i < clock_calls s')%nat -> env_now i < dol_ExpiresAt lock) ->
    dedupeLocks s' !! id = Some lock). change (P (st_exec (run c) s)).
  assert (forall A (m : M A), frames dedupeLocks m -> P (st_exec m s)) as Hf.
  { intros A m Hm _. by rewrite (Hm s). }
  destruct c; cbn [run]; try (apply Hf; solve [frame]); rewrite exec_discard; simpl in Hc; apply wp_exec.
  - unfold AcquireDedupeOperationLock. repeat wp_step; try (by intros _).
    unfold P. field_simpl. intros Ht. destruct (decide (id = TrimSpace (adl_LockID req))) as [->|Hne]; [|by rewrite lookup_insert_ne].
    exfalso. specialize (Ht (clock_calls s) ltac:(lia)).
    match goal with Hb : andb _ _ = false |- _ => field_simpl_in Hb; rewrite Hl in Hb; apply andb_false_iff in Hb as [Hb|Hb] end; [lia|].
    match goal with Hb : negb _ = false |- _ => apply negb_false_iff, String.eqb_eq in Hb; by apply Hc end.
  - unfold ReleaseDedupeOperationLock. repeat wp_step; try (by intros _). unfold P. field_simpl. intros _.
    destruct (decide (id = TrimSpace (rdl_LockID req))) as [->|Hne]; [|by rewrite lookup_delete_ne].
    match goal with Ho : negb _ = false |- _ => apply negb_false_iff, String.eqb_eq in Ho end. simplify_eq. by exfalso; apply Hc.
Qed.

(** A dedupe operation lock excludes everybody else: until it expires, and
    unless its owner renews or releases it, no sequence of calls changes it. *)
Theorem dedupe_lock_excludes_others (calls : list call) (s : Repository) (id : string) (lock : DedupeOperationLock) :
  dedupeLocks s !! id = Some lock ->
  Forall (fun c => ~ by_lock_owner (dol_OwnerID lock) id c) calls ->
  (forall i, (clock_calls s <= i < clock_calls (run_all calls s))%nat -> env_now i < dol_ExpiresAt lock) ->
  dedupeLocks (run_all calls s) !! id = Some lock.
Proof.
  revert s. induction calls as [|c calls IH]; intros s Hl Hc Ht; simpl in *; [done|].
  apply Forall_cons in Hc as [Hc Hcs]. pose proof (clock_mono c s) as Hm1. unfold clock_grows in Hm1.
  pose proof (run_all_clock calls (st_exec (run c) s)) as Hm2.
  apply IH; [|done|intros i Hi; apply Ht; lia]. apply dedupe_lock_call; [done|done|]. intros i Hi. apply Ht. lia.
Qed.

End DedupeLocks.

(** ** Witnesses *)

Definition ex_lease_req (owner : string) : AcquireWorkerLeaseRequest := mkAcquireWorkerLeaseRequest "gc" "0" owner 100 "".
Definition ex_lock_req (owner : string) : AcquireDedupeOperationLockRequest :=
  mkAcquireDedupeOperationLockRequest "dedupe" owner 100.
Definition ex_leased : Repository :=
  @run_all exEnv [C_AcquireWorkerLease (ex_lease_req "w1"); C_AcquireDedupeOperationLock (ex_lock_req "w1")] (@NewWithClock exEnv).
Definition ex_rivals : list call :=
  [C_AcquireWorkerLease (ex_lease_req "w2"); C_ReleaseWorkerLease (mkReleaseWorkerLeaseRequest "gc" "0" "w2");
   C_AcquireDedupeOperationLock (ex_lock_req "w2")].
Definition ex_lease : WorkerLease := default zero_WorkerLease (workerLeases ex_leased !! "gc/0").
Definition no_lock : DedupeOperationLock := mkDedupeOperationLock "" "" 0 0 0.
Definition ex_lock : DedupeOperationLock := default no_lock (dedupeLocks ex_leased !! "dedupe").

Lemma ex_lease_found : workerLeases ex_leased !! "gc/0" = Some ex_lease.
Proof. apply (some_of_is_some zero_WorkerLease). by_eval. Qed.

(** The clock of the example stays below 100 during the rivals' calls. *)
Lemma ex_rivals_clock n : n = clock_calls (@run_all exEnv ex_rivals ex_leased) ->
  forall i, (clock_calls ex_leased <= i < n)%nat -> @env_now exEnv i < 50.
Proof.
  intros ->. assert (clock_calls (@run_all exEnv ex_rivals ex_leased) = 5%nat) as -> by by_eval.
  intros i Hi. change (@env_now exEnv i) with (Z.of_nat i + 1). lia.
Qed.

Lemma lease_generation_fences_witness :
  exists l', workerLeases (@run_all exEnv ex_rivals ex_leased) !! "gc/0" = Some l' /\
    wl_Generation ex_lease <= wl_Generation l'.
Proof.
  destruct (@lease_generation_fences exEnv ex_rivals ex_leased "gc/0" ex_lease) as (l' & H1 & H2 & _).
  - apply run_all_steps.
  - exact ex_lease_found.
  - apply Z.leb_le. by_eval.
  - apply Z.ltb_lt. by_eval.
  - exists l'. split; [exact H1 | exact H2].
Defined.

Lemma lease_excludes_others_witness : workerLeases (@run_all exEnv ex_rivals ex_leased) !! "gc/0" = Some ex_lease.
Proof.
  apply (@lease_excludes_others exEnv ex_rivals ex_leased "gc/0" ex_lease).
  - apply run_all_steps.
  - exact ex_lease_found.
  - assert (wl_OwnerID ex_lease = "w1") as -> by by_eval.
    repeat constructor; simpl; try tauto; intros [Ho _]; vm_compute in Ho; discriminate.
  - intros i Hi. pose proof (ex_rivals_clock _ eq_refl i Hi).
    assert (50 <= wl_ExpiresAt ex_lease) by (apply Z.leb_le; by_eval). lia.
Defined.

Lemma dedupe_lock_excludes_others_witness :
  dedupeLocks (@run_all exEnv ex_rivals ex_leased) !! "dedupe" = Some ex_lock.
Proof.
  apply (@dedupe_lock_excludes_others exEnv ex_rivals ex_leased "dedupe" ex_lock).
  - apply (some_of_is_some no_lock). by_eval.
  - assert (dol_OwnerID ex_lock = "w1") as -> by by_eval.
    repeat constructor; simpl; try tauto; intros [Ho _]; vm_compute in Ho; discriminate.
  - intros i Hi. pose proof (ex_rivals_clock _ eq_refl i Hi).
    assert (50 <= dol_ExpiresAt ex_lock) by (apply Z.leb_le; by_eval). lia.
Defined.
