(* ===== verification/ProtRefs.v ===== *)
(** * ProtRefs: protected references cover every locked version

    The repository keeps one [ProtectedRef] for each segment of a version that
    object lock protects; the garbage collector and the storage backends ask for
    them before they delete a segment. The invariant here says that none is
    missing: as long as the clock does not go back and no two references of the
    stored versions have the same SHA-256 identifier, every segment of every
    protected committed version has its reference, with the lock of the version. *)

From S2P Require Import Prelude GoLib Sha256 StorageTypes Model Requests Encoding Meta Manifest Repo RepoLogic.
From S2P Require Import RepoBuckets RepoObjects RepoMultipart RepoListing RepoOps RepoShared RepoAudit RepoCalls.
From S2P Require Import AuditChain ObjRules ObjInv RepoExample Worm.
Open Scope string_scope.
Open Scope Z_scope.

(** ** Identifiers of references *)

(** What a reference identifier is computed from: the version and the segment. *)
Definition ref_ids (V : gmap versionKey ObjectVersion) : list (versionKey * string * string) :=
  map_to_list V ≫= fun kv =>
    map (fun ref => (kv.1, sr_SegmentID ref, protectedRefID kv.2 ref)) (objectSegmentRefsFromVersion kv.2).

(** No two references of different versions or segments share an identifier. *)
Definition no_collision (V : gmap versionKey ObjectVersion) : bool :=
  let l := ref_ids V in
  forallb (fun x => forallb (fun y => implb (x.2 =s y.2) (bool_decide (x.1 = y.1))) l) l.

Lemma elem_of_ref_ids V k v ref :
  V !! k = Some v -> ref ∈ objectSegmentRefsFromVersion v -> (k, sr_SegmentID ref, protectedRefID v ref) ∈ ref_ids V.
Proof.
  intros Hv Hr. apply list_elem_of_bind. exists (k, v). split; [|by apply elem_of_map_to_list].
  apply list_elem_of_fmap. by exists ref.
Qed.

Lemma no_collision_spec V k1 v1 r1 k2 v2 r2 :
  no_collision V = true -> V !! k1 = Some v1 -> V !! k2 = Some v2 ->
  r1 ∈ objectSegmentRefsFromVersion v1 -> r2 ∈ objectSegmentRefsFromVersion v2 ->
  protectedRefID v1 r1 = protectedRefID v2 r2 -> k1 = k2 /\ sr_SegmentID r1 = sr_SegmentID r2.
Proof.
  intros Hn Hv1 Hv2 Hr1 Hr2 He. unfold no_collision in Hn. cbv zeta in Hn.
  pose proof (elem_of_ref_ids _ _ _ _ Hv1 Hr1) as H1. pose proof (elem_of_ref_ids _ _ _ _ Hv2 Hr2) as H2.
  rewrite forallb_forall in Hn. specialize (Hn _ (proj1 (list_elem_of_In _ _) H1)).
  rewrite forallb_forall in Hn. specialize (Hn _ (proj1 (list_elem_of_In _ _) H2)). simpl in Hn.
  rewrite He, String.eqb_refl in Hn. apply bool_decide_eq_true in Hn. by simplify_eq.
Qed.

(** ** The state of the references *)

Definition drop_refs (b k id : string) (R : gmap string ProtectedRef) : gmap string ProtectedRef :=
  filter (fun kv => ref_of_version b k id kv.2 = false) R.

Definition sync_refs (v : ObjectVersion) (t : Time) (R : gmap string ProtectedRef) : gmap string ProtectedRef :=
  let R := drop_refs (ov_BucketID v) (ov_Key v) (ov_VersionID v) R in
  if objectVersionProtectedByObjectLock v t false then add_protected_refs v t (objectSegmentRefsFromVersion v) R else R.

(** A reference to segment [ref] with the lock of version [v]. *)
Record guards (v : ObjectVersion) (ref : SegmentRef) (pr : ProtectedRef) : Prop := {
  guards_version : ref_of_version (ov_BucketID v) (ov_Key v) (ov_VersionID v) pr = true;
  guards_segment : pr_SegmentID pr = sr_SegmentID ref;
  guards_mode : pr_RetentionMode pr = olr_Mode (ov_ObjectLockRetention v);
  guards_until : pr_RetainUntilDate pr = olr_RetainUntilDate (ov_ObjectLockRetention v);
  guards_hold : pr_LegalHold pr = ov_ObjectLockLegalHold v
}.

Lemma guards_new v ref t : guards v ref (protectedRefFromVersion v ref t).
Proof. split; try reflexivity. unfold ref_of_version. simpl. by rewrite !String.eqb_refl. Qed.

(** The reference is active exactly as long as the version is protected. *)
Lemma guards_active v ref pr t :
  guards v ref pr -> objectVersionProtectedByObjectLock v t false = true -> protectedRefActive pr t = true.
Proof.
  intros [_ _ Hm Hu Hh]. unfold objectVersionProtectedByObjectLock, objectLockProtected, protectedRefActive.
  rewrite Hm, Hu, Hh. repeat case_match; try done. all: by rewrite negb_false_iff in *.
Qed.

Lemma lookup_add_protected_refs v t refs R id :
  add_protected_refs v t refs R !! id = R !! id \/
  exists ref, ref ∈ refs /\ sr_SegmentID ref <> "" /\ id = protectedRefID v ref /\
              add_protected_refs v t refs R !! id = Some (protectedRefFromVersion v ref t).
Proof.
  unfold add_protected_refs. revert R. induction refs as [|ref refs IH]; intros R; [by left|]. simpl.
  destruct (sr_SegmentID ref =s "") eqn:Hs.
  - destruct (IH R) as [->|(r & Hr & ?)]; [by left | right; exists r; split; [by right | done]].
  - apply String.eqb_neq in Hs. destruct (IH (<[protectedRefID v ref := protectedRefFromVersion v ref t]> R)) as [Heq|(r & Hr & ?)].
    + rewrite Heq. destruct (decide (id = protectedRefID v ref)) as [->|Hne].
      * right. exists ref. rewrite lookup_insert_eq. split_and!; [by left | done..].
      * left. by rewrite lookup_insert_ne.
    + right. exists r. split; [by right | done].
Qed.

(** Every named segment of [refs] has its reference afterwards. *)
Lemma add_protected_refs_has v t refs R ref :
  ref ∈ refs -> sr_SegmentID ref <> "" ->
  exists r, r ∈ refs /\ protectedRefID v r = protectedRefID v ref /\
            add_protected_refs v t refs R !! protectedRefID v ref = Some (protectedRefFromVersion v r t).
Proof.
  intros Hin Hs. revert R. induction refs as [|r refs IH]; intros R; [by apply not_elem_of_nil in Hin|].
  apply elem_of_cons in Hin as [<-|Hin].
  - unfold add_protected_refs. simpl. rewrite (proj2 (String.eqb_neq _ _) Hs).
    fold (add_protected_refs v t refs (<[protectedRefID v ref := protectedRefFromVersion v ref t]> R)).
    destruct (lookup_add_protected_refs v t refs (<[protectedRefID v ref := protectedRefFromVersion v ref t]> R) (protectedRefID v ref))
      as [Heq|(r & Hr & _ & Hid & Heq)].
    + exists ref. rewrite Heq, lookup_insert_eq. split_and!; [by left | done..].
    + exists r. split_and!; [by right | by symmetry | done].
  - unfold add_protected_refs. simpl. destruct (sr_SegmentID r =s ""); edestruct (IH Hin) as (r' & Hr' & ? & ?); exists r';
      split_and!; [by right | done | done | by right | done | done].
Qed.

Lemma lookup_drop_refs b k id R i pr :
  R !! i = Some pr -> ref_of_version b k id pr = false -> drop_refs b k id R !! i = Some pr.
Proof. intros. by apply map_lookup_filter_Some. Qed.

Section Coverage.
Context `{Env}.
Context (clock_advances : forall i j, (i <= j)%nat -> env_now i <= env_now j).
Implicit Types (V : gmap versionKey ObjectVersion) (R : gmap string ProtectedRef).

(** From the [n]-th clock reading on, a version is protected only while each of
    its segments has a reference. *)
Definition guarded R (n : nat) (v : ObjectVersion) : Prop :=
  ov_State v = ObjectVersionCommitted -> forall j ref, (n <= j)%nat ->
  objectVersionProtectedByObjectLock v (env_now j) false = true ->
  ref ∈ objectSegmentRefsFromVersion v -> sr_SegmentID ref <> "" ->
  exists pr, R !! protectedRefID v ref = Some pr /\ guards v ref pr.

Definition covered_but (hole : versionKey -> Prop) V R (n : nat) : Prop :=
  forall k v, V !! k = Some v -> ~ hole k -> guarded R n v.

Definition covered V R n : Prop := covered_but (fun _ => False) V R n.

Lemma covered_clock hole V R n m : (n <= m)%nat -> covered_but hole V R n -> covered_but hole V R m.
Proof. intros Hnm Hc k v Hv Hk Hst j ref Hj. apply (Hc k v Hv Hk Hst). lia. Qed.

Lemma covered_delete k V R n : covered V R n -> covered (delete k V) R n.
Proof. intros Hc i v Hv. apply lookup_delete_Some in Hv as [_ Hv]. by apply (Hc i). Qed.

Lemma covered_insert k v V R n : guarded R n v -> covered V R n -> covered (<[k := v]> V) R n.
Proof. intros Hg Hc i w Hw Hi. apply lookup_insert_Some in Hw as [[<- <-]|[_ Hw]]; [done | by apply (Hc i)]. Qed.

Lemma covered_insert_but k v V R n : covered V R n -> covered_but (eq k) (<[k := v]> V) R n.
Proof. intros Hc i w Hw Hi. apply lookup_insert_Some in Hw as [[<- <-]|[_ Hw]]; [by destruct Hi | apply (Hc i w Hw); tauto]. Qed.

(** References of a version that is not stored may go. *)
Lemma covered_drop hole V R n b k id :
  versions_ok V -> (forall v, V !! mk_versionKey b k id = Some v -> hole (mk_versionKey b k id)) ->
  covered_but hole V R n -> covered_but hole V (drop_refs b k id R) n.
Proof.
  intros HV Hno Hc i v Hv Hi Hst j ref Hj Hp Hr Hs. destruct (Hc i v Hv Hi Hst j ref Hj Hp Hr Hs) as (pr & Hpr & Hg).
  exists pr. split; [|done]. apply lookup_drop_refs; [done|]. apply not_true_iff_false. intros Hof. apply Hi.
  destruct (HV i v Hv) as [<- _]. pose proof (guards_version _ _ _ Hg) as Hgv. unfold ref_of_version in *.
  rewrite !andb_true_iff, !String.eqb_eq in *. destruct Hof as [[<- <-] <-], Hgv as [[H1 H2] H3].
  unfold version_key in *. rewrite <- H1, <- H2, <- H3 in *. by eapply Hno.
Qed.

(** Dropping the references of the zero version drops none. *)
Lemma covered_drop_zero hole V R n :
  versions_ok V -> covered_but hole V R n -> covered_but hole V (drop_refs "" "" "" R) n.
Proof.
  intros HV. apply covered_drop; [done|]. intros v Hv. destruct (HV _ _ Hv) as (Hk & _ & Hid & _).
  exfalso. apply Hid. by injection Hk.
Qed.

(** Protection ends for good when it ends by the clock. *)
Lemma unprotected_stays v i j :
  (i <= j)%nat -> objectVersionProtectedByObjectLock v (env_now i) false = false ->
  objectVersionProtectedByObjectLock v (env_now j) false = false.
Proof.
  intros Hij. pose proof (clock_advances i j Hij) as Ht. unfold objectVersionProtectedByObjectLock, objectLockProtected.
  repeat case_match; try done. all: rewrite ?negb_false_iff, ?negb_true_iff, ?Z.ltb_lt, ?Z.ltb_ge in *; lia.
Qed.

Lemma guarded_unprotected R n v i :
  (i <= n)%nat -> objectVersionProtectedByObjectLock v (env_now i) false = false -> guarded R n v.
Proof.
  intros Hi Hu _ j ref Hj Hp. rewrite (unprotected_stays v i j) in Hp; [done | lia | done].
Qed.

Lemma guarded_pending R n v : ov_State v <> ObjectVersionCommitted -> guarded R n v.
Proof. intros Hne Hc. done. Qed.

Lemma guarded_marker R n v : ov_DeleteMarker v = true -> guarded R n v.
Proof.
  intros Hd _ j ref _ Hp. unfold objectVersionProtectedByObjectLock, objectLockProtected in Hp. by rewrite Hd in Hp.
Qed.

(** The references of [v] are rebuilt, the others are still there. *)
Lemma covered_sync V R n k v i :
  versions_ok V -> no_collision V = true -> V !! k = Some v -> (i <= n)%nat ->
  covered_but (eq k) V R n -> covered V (sync_refs v (env_now i) R) n.
Proof.
  intros HV Hn Hv Hi Hc. unfold sync_refs. cbv zeta. pose proof (HV k v Hv) as [Hk _].
  set (R0 := drop_refs _ _ _ R).
  assert (covered_but (eq k) V R0 n) as Hc0.
  { apply covered_drop; [done| |done]. intros w Hw. by rewrite <- Hk. }
  destruct (objectVersionProtectedByObjectLock v (env_now i) false) eqn:Hp.
  - intros k' w Hw _ Hst j ref Hj Hpw Hr Hs. destruct (decide (k = k')) as [<-|Hne].
    + assert (w = v) as -> by congruence. destruct (add_protected_refs_has v (env_now i) _ R0 ref Hr Hs) as (r & Hr' & Hid & Hl).
      exists (protectedRefFromVersion v r (env_now i)). split; [done|].
      destruct (no_collision_spec V k v r k v ref Hn Hv Hv Hr' Hr Hid) as [_ Hseg].
      destruct (guards_new v r (env_now i)) as [? ? ? ? ?]. split; [done | by rewrite <- Hseg | done..].
    + destruct (Hc0 k' w Hw Hne Hst j ref Hj Hpw Hr Hs) as (pr & Hpr & Hg). exists pr. split; [|done].
      destruct (lookup_add_protected_refs v (env_now i) (objectSegmentRefsFromVersion v) R0 (protectedRefID w ref))
        as [->|(r & Hr' & _ & Hid & _)]; [done|].
      by destruct (no_collision_spec V k v r k' w ref Hn Hv Hw Hr' Hr (eq_sym Hid)).
  - intros k' w Hw _. destruct (decide (k = k')) as [<-|Hne]; [|by apply (Hc0 k')].
    assert (w = v) as -> by congruence. by apply (guarded_unprotected _ _ _ i).
Qed.

End Coverage.

(** ** Rules for the calls that write versions *)

Section Rules.
Context `{Env}.
Implicit Types s : Repository.

Lemma wp_sync_exact v t Q s :
  Q (Ok tt) (s <| protectedRefs := sync_refs v t (protectedRefs s) |>) -> wp (syncProtectedRefsForVersionLocked v t) Q s.
Proof.
  intros HQ. unfold syncProtectedRefsForVersionLocked. apply wp_bind, wp_modify. unfold sync_refs in HQ. cbv zeta in HQ.
  destruct (objectVersionProtectedByObjectLock v t false); simpl; [apply wp_modify | apply wp_ret]; exact HQ.
Qed.

Lemma wp_drop_refs_exact b k id Q s :
  Q (Ok tt) (s <| protectedRefs := drop_refs b k id (protectedRefs s) |>) ->
  wp (deleteProtectedRefsForVersionLocked b k id) Q s.
Proof. done. Qed.

(** States that agree on versions and references; the clock may have advanced. *)
Record same_refs (s s' : Repository) : Prop := {
  same_refs_versions : versions s' = versions s;
  same_refs_refs : protectedRefs s' = protectedRefs s;
  same_refs_heads : heads s' = heads s;
  same_refs_clock : (clock_calls s <= clock_calls s')%nat
}.

Lemma same_refs_append event s : same_refs s (appended event s).
Proof. split; try reflexivity. rewrite clock_appended. lia. Qed.

Lemma wp_append_refs event Q s :
  (forall s', same_refs s s' -> Q (Ok tt) s') -> wp (appendAuditEventLocked event) Q s.
Proof. intros HQ. apply wp_append, HQ, same_refs_append. Qed.

Lemma wp_governance_refs (protected : bool -> bool) bypass audit event Q s :
  (forall s', same_refs s s' -> Q (Ok tt) s') -> Q (Fail ErrObjectLocked) s ->
  wp (governance_gate protected bypass audit event) Q s.
Proof.
  intros H1 H2. apply wp_governance_gate; [|intros|done]; [|apply H1, same_refs_append]. intros _. by apply H1.
Qed.

(** Dropping the version a new one replaces drops its references only. *)
Lemma wp_drop_replaced_refs hole n bucket b k head vid Q s :
  versions_ok (versions s) -> covered_but hole (versions s) (protectedRefs s) n ->
  (forall V R, V = versions s \/ (exists id, id <> vid /\ V = delete (mk_versionKey b k id) (versions s)) ->
     versions_ok V -> covered_but hole V R n -> Q (Ok tt) (s <| versions := V |> <| protectedRefs := R |>)) ->
  wp (drop_replaced bucket b k head vid) Q s.
Proof.
  intros HV Hc HQ. assert (Hsame : forall R, s <| protectedRefs := R |> = s <| versions := versions s |> <| protectedRefs := R |>)
    by (intros; by destruct s).
  unfold drop_replaced. apply wp_if; intros Hb.
  2:{ apply wp_ret. replace s with (s <| protectedRefs := protectedRefs s |>) by (by destruct s). rewrite Hsame.
      apply HQ; [by left | done..]. }
  rewrite !andb_true_iff, !negb_true_iff, !String.eqb_neq in Hb. destruct Hb as [_ Hne]. apply wp_bind.
  apply wp_deleteVersionRecord; [intros _|intros old _ Hold]; apply wp_drop_refs_exact.
  - rewrite Hsame. apply HQ; [by left | done |]. by apply covered_drop_zero.
  - field_simpl. apply HQ; [right; by eexists | by apply versions_ok_delete |].
    apply covered_drop; [by apply versions_ok_delete | | ].
    + destruct (HV _ _ Hold) as [Hk _]. unfold version_key in Hk. rewrite Hk. intros v. by rewrite lookup_delete_eq.
    + intros i v Hv. apply lookup_delete_Some in Hv as [_ Hv]. by apply (Hc i).
Qed.

End Rules.

(** As [owp_step], with the rules that keep track of the references. *)
Ltac refs_step :=
  lazymatch goal with
  | |- wp (deleteProtectedRefsForVersionLocked _ _ _) _ _ => apply wp_drop_refs_exact
  | |- wp (syncProtectedRefsForVersionLocked _ _) _ _ => apply wp_sync_exact
  | |- wp (appendAuditEventLocked _) _ _ => apply wp_append_refs; intros ? ?
  | |- wp (governance_gate _ _ _ _) _ _ => apply wp_governance_refs; [intros ? ?|]
  | |- wp (drop_replaced _ _ _ _ _) _ _ => fail
  | |- _ => owp_step
  end.

Ltac use_same_refs :=
  repeat match goal with
         | E : same_refs ?s ?s' |- _ =>
             let E1 := fresh "Ev" in let E2 := fresh "Er" in let E3 := fresh "Eh" in let E4 := fresh "Ec" in
             destruct E as [E1 E2 E3 E4]; field_simpl_in E1; field_simpl_in E2; field_simpl_in E3; field_simpl_in E4;
             rewrite ?E1, ?E2, ?E3 in *
         end.

Ltac refs_simpl :=
  field_simpl; use_same_refs; field_simpl;
  repeat match goal with
         | E : protectedRefs ?x = protectedRefs _ |- context [protectedRefs ?x] => rewrite E
         | E : versions ?x = versions _ |- context [versions ?x] => rewrite E
         end.

(** The references covered the versions before; the clock went on. *)
Ltac later Hs := eapply covered_clock; [|exact Hs]; lia.

Section Calls.
Context `{Env, !GeneratorOk}.
Context (clock_advances : forall i j, (i <= j)%nat -> env_now i <= env_now j).

Definition refs_inv (s : Repository) : Prop := covered (versions s) (protectedRefs s) (clock_calls s).

(** What a call has to show: the references cover the versions it leaves behind. *)
Definition refs_kept {A} (m : M A) : Prop := forall s, head_inv s -> refs_inv s ->
  wp m (fun _ s' => versions_ok (versions s') -> no_collision (versions s') = true -> refs_inv s') s.

Definition refs_view (s : Repository) := (versions s, protectedRefs s).

Lemma refs_kept_frame {A} (m : M A) :
  frames refs_view m -> preserves clock_grows m -> refs_kept m.
Proof.
  intros Hf Hc s _ Hs _ _. unfold refs_inv in *. pose proof (Hf s) as He. pose proof (Hc s) as Hg. unfold clock_grows, st_exec in *.
  injection He as E1 E2. rewrite E1, E2. by eapply covered_clock.
Qed.

Lemma BeginPutObject_refs req : refs_kept (BeginPutObject req).
Proof.
  intros s Hi Hs. unfold BeginPutObject. unfold refs_inv in *. repeat refs_step; intros HV Hn; field_simpl;
    try later Hs.
  apply covered_insert; [by apply guarded_pending | later Hs].
Qed.

(** Storing a version and rebuilding its references. *)
Lemma covered_store V R n k v i :
  covered V R n -> versions_ok (<[k := v]> V) -> no_collision (<[k := v]> V) = true -> (i <= n)%nat ->
  covered (<[k := v]> V) (sync_refs v (env_now i) R) n.
Proof.
  intros Hc HV Hn Hi. eapply covered_sync; [done..|apply lookup_insert_eq|done|]. by apply covered_insert_but.
Qed.

Lemma CommitObjectVersion_refs req : refs_kept (CommitObjectVersion req).
Proof.
  intros s [HVs Hi] Hs. unfold CommitObjectVersion. unfold refs_inv in *. repeat refs_step; try (intros HV Hn; field_simpl; later Hs).
  set (k := mk_versionKey _ _ _) in *. set (v := a <| ov_State := _ |> <| ov_CommittedAt := _ |>) in *.
  pose proof (HVs k a ltac:(done)) as Hok. destruct Hok as (Hk & Hsort & Hid & Hkey).
  apply (wp_drop_replaced_refs (eq k) (S (clock_calls s))); field_simpl.
  - by apply versions_ok_insert.
  - apply covered_insert_but. later Hs.
  - intros V R HV' HVok Hc. repeat refs_step. intros HV Hn. field_simpl_in HV. field_simpl_in Hn. field_simpl.
    eapply covered_sync; [done..| |lia|done].
    destruct HV' as [->|(id & Hne & ->)]; [apply lookup_insert_eq|]. rewrite lookup_delete_ne; [apply lookup_insert_eq|].
    intros Heq. apply Hne. transitivity (vk_versionID k); [by rewrite <- Heq | by rewrite <- Hk].
Qed.

Lemma PutObjectVersion_refs req : refs_kept (PutObjectVersion req).
Proof.
  intros s [HVs Hi] Hs. unfold PutObjectVersion. unfold refs_inv in *. repeat refs_step; try (intros HV Hn; field_simpl; later Hs).
  apply (wp_drop_replaced_refs (fun _ => False) (S (clock_calls s))); field_simpl; [done | later Hs |].
  intros V R _ HVok Hc. repeat refs_step. intros HV Hn. field_simpl_in HV. field_simpl_in Hn. field_simpl.
  apply covered_store; [done..|lia].
Qed.

Lemma createDeleteMarker_refs req : refs_kept (createDeleteMarkerLocked req).
Proof.
  intros s [HVs Hi] Hs. unfold createDeleteMarkerLocked. unfold refs_inv in *. repeat refs_step; intros HV Hn; field_simpl; try later Hs.
  apply covered_insert; [by apply guarded_marker | later Hs].
Qed.

(** Removing a version with its references. *)
Lemma covered_remove V R n b k id v :
  versions_ok V -> V !! mk_versionKey b k id = Some v -> covered V R n ->
  covered (delete (mk_versionKey b k id) V) (drop_refs (ov_BucketID v) (ov_Key v) (ov_VersionID v) R) n.
Proof.
  intros HV Hv Hc. destruct (HV _ _ Hv) as [Hk _]. unfold version_key in Hk.
  apply covered_drop; [by apply versions_ok_delete | | by apply covered_delete].
  intros w. rewrite Hk. by rewrite lookup_delete_eq.
Qed.

Lemma deleteObjectVersion_refs req : refs_kept (deleteObjectVersionLocked req).
Proof.
  intros s [HVs Hi] Hs. unfold deleteObjectVersionLocked. unfold refs_inv in *.
  repeat refs_step; intros HV Hn; clear HV Hn; refs_simpl; try later Hs.
  all: apply covered_remove; [done..|later Hs].
Qed.

Lemma DeleteObject_refs req : refs_kept (DeleteObject req).
Proof.
  intros s Hi Hs. unfold DeleteObject. pose proof (deleteObjectVersion_refs req s Hi Hs) as Hdel.
  pose proof (createDeleteMarker_refs req s Hi Hs) as Hmark. destruct Hi as [HVs Hi].
  apply wp_if; intros _; [by repeat refs_step|]. cbv zeta. repeat (refs_step; try exact Hdel; try exact Hmark).
  all: intros HV Hn; clear HV Hn; unfold refs_inv in *; refs_simpl; try later Hs.
  - apply covered_drop_zero; [done | later Hs].
  - apply covered_remove; [done | state_simpl; congruence | later Hs].
Qed.

(** Tags say nothing about segments or locks. *)
Lemma guarded_tags R n v tags : guarded R n v -> guarded R n (v <| ov_Tags := tags |>).
Proof.
  intros Hg Hst j ref Hj Hp Hr Hs. destruct (Hg Hst j ref Hj Hp Hr Hs) as (pr & Hpr & [? ? ? ? ?]).
  exists pr. by split.
Qed.

Lemma PutObjectTags_refs req : refs_kept (PutObjectTags req).
Proof.
  intros s [HVs Hi] Hs. unfold PutObjectTags. unfold refs_inv in *.
  repeat refs_step; intros HV Hn; clear HV Hn; refs_simpl; try later Hs.
  all: apply covered_insert; [|done]; apply guarded_tags; state_simpl; eapply Hs; [eassumption|tauto].
Qed.

Lemma PutObjectRetention_refs req : refs_kept (PutObjectRetention req).
Proof.
  intros s [HVs Hi] Hs. unfold PutObjectRetention. unfold refs_inv in *.
  repeat refs_step; intros HV Hn; try (clear HV Hn; refs_simpl; later Hs).
  all: use_same_refs; field_simpl_in HV; field_simpl_in Hn; refs_simpl.
  all: apply covered_store; [later Hs | done.. | lia].
Qed.

Lemma PutObjectLegalHold_refs req : refs_kept (PutObjectLegalHold req).
Proof.
  intros s [HVs Hi] Hs. unfold PutObjectLegalHold. unfold refs_inv in *.
  repeat refs_step; intros HV Hn; try (clear HV Hn; refs_simpl; later Hs).
  all: use_same_refs; field_simpl_in HV; field_simpl_in Hn; refs_simpl.
  all: apply covered_store; [later Hs | done.. | lia].
Qed.

Lemma AttachObjectVersion_refs req : refs_kept (AttachObjectVersionToSharedObject req).
Proof.
  intros s [HVs Hi] Hs. unfold AttachObjectVersionToSharedObject. unfold refs_inv in *.
  repeat refs_step; intros HV Hn; clear HV Hn; refs_simpl; try later Hs.
  all: apply covered_insert; [|later Hs]; apply (guarded_unprotected clock_advances _ _ _ (clock_calls s)); [lia|]; assumption.
Qed.

Lemma PublishObjectVersionRefs_refs req : refs_kept (PublishObjectVersionRefs req).
Proof.
  intros s [HVs Hi] Hs. unfold PublishObjectVersionRefs. unfold refs_inv in *.
  repeat refs_step; intros HV Hn; clear HV Hn; refs_simpl; try later Hs.
  all: apply covered_insert; [|later Hs]; apply (guarded_unprotected clock_advances _ _ _ (clock_calls s)); [lia|]; assumption.
Qed.

Lemma refs_kept_calls c : refs_kept (run c).
Proof.
  assert (forall A (m : M A), refs_kept m -> refs_kept (discard m)) as Hd.
  { intros A m Hm s Hi Hs. unfold discard. apply wp_bind. eapply wp_mono; [by apply Hm|]. intros [] s' HQ; exact HQ. }
  pose proof (clock_mono c) as Hc. destruct c.
  all: first [ solve [apply Hd; first
    [ apply BeginPutObject_refs | apply CommitObjectVersion_refs | apply PutObjectVersion_refs | apply DeleteObject_refs
    | apply PutObjectTags_refs | apply PutObjectRetention_refs | apply PutObjectLegalHold_refs
    | apply AttachObjectVersion_refs | apply PublishObjectVersionRefs_refs ]]
    | apply refs_kept_frame; [cbn [run]; apply frames_discard; solve [frame] | exact Hc] ].
Qed.

(** The states a sequence of calls goes through. *)
Fixpoint trace (l : list call) (s : Repository) : list Repository :=
  match l with
  | [] => [s]
  | c :: l' => s :: trace l' (st_exec (run c) s)
  end.

Definition collision_free (l : list call) (s : Repository) : bool :=
  forallb (fun s' => no_collision (versions s')) (trace l s).

Lemma refs_inv_run l s :
  reachable s -> refs_inv s -> collision_free l s = true -> refs_inv (run_all l s).
Proof.
  revert s. induction l as [|c l IH]; intros s Hr Hs Hn; [done|]. unfold collision_free in *. simpl in *.
  apply andb_true_iff in Hn as [_ Hn]. apply IH; [by apply reachable_step| |done].
  pose proof (reachable_obj_inv _ Hr) as Hinv. pose proof (reachable_obj_inv _ (reachable_step c s Hr)) as [_ [HV _]].
  apply (refs_kept_calls c s); [apply Hinv | done | done |].
  destruct l; simpl in Hn; by apply andb_true_iff in Hn as [? _].
Qed.

Lemma refs_inv_new : refs_inv NewWithClock.
Proof. intros k v Hv. change ((∅ : gmap versionKey ObjectVersion) !! k = Some v) in Hv. by rewrite lookup_empty in Hv. Qed.

(** ** What a deletion gate sees *)

(** The query of the gates: one active reference to the segment. *)
Definition active_refs_of (segmentID : string) : ListProtectedRefsRequest :=
  mkListProtectedRefsRequest "" "" "" segmentID true 1.

(** A segment with an active reference is seen to be protected, whatever order the
    map of references is iterated in. *)
Lemma ListProtectedRefs_active order segmentID s pr i :
  (forall l, order l ≡ₚ l) -> segmentID <> "" -> protectedRefs s !! i = Some pr -> pr_SegmentID pr = segmentID ->
  protectedRefActive pr (env_now (clock_calls s)) = true ->
  exists ref refs, (ListProtectedRefs order (active_refs_of segmentID) s).1 = Ok (ref :: refs).
Proof.
  intros Ho Hne Hpr Hseg Ha. unfold ListProtectedRefs, st_bind, now, gets. simpl. field_simpl.
  set (l := List.filter _ _). assert (l <> []) as Hl.
  { assert (pr ∈ l) as Hin; [|intros Hnil; rewrite Hnil in Hin; by apply not_elem_of_nil in Hin].
    unfold l. apply list_elem_of_In, filter_In. split.
    - apply list_elem_of_In. rewrite Ho. unfold map_values. apply list_elem_of_fmap. exists (i, pr).
      split; [done | by apply elem_of_map_to_list].
    - unfold protected_ref_wanted, wants. simpl. rewrite Ha, Hseg, String.eqb_refl, !orb_true_r. done. }
  destruct l as [|x l]; [done|]. by exists x, [].
Qed.

(** A segment of a version that object lock protects at the next clock reading. *)
Lemma ListProtectedRefs_locked order s k v ref :
  (forall l, order l ≡ₚ l) -> refs_inv s -> versions s !! k = Some v -> ov_State v = ObjectVersionCommitted ->
  objectVersionProtectedByObjectLock v (env_now (clock_calls s)) false = true ->
  ref ∈ objectSegmentRefsFromVersion v -> sr_SegmentID ref <> "" ->
  exists r refs, (ListProtectedRefs order (active_refs_of (sr_SegmentID ref)) s).1 = Ok (r :: refs).
Proof.
  intros Ho Hs Hv Hc Hp Hr Hne. destruct (Hs k v Hv ltac:(tauto) Hc _ ref (le_n _) Hp Hr Hne) as (pr & Hpr & Hg).
  eapply ListProtectedRefs_active; [done..|apply Hg|]. by eapply guards_active.
Qed.

End Calls.
