(* ===== verification/Budget.v ===== *)
(** * Budget: the concurrency budget of the background workers

    [src/internal/workerscheduler/budget.go]. A budget counts the workers that run,
    in all, per tenant and per pool. [TryAcquire] hands out a release function that
    works once; the state machine below lets any number of workers acquire and call
    their release functions in any order, each call under the budget's mutex. *)

From S2P Require Import Prelude GoLib.
Open Scope string_scope.
Open Scope Z_scope.

Record BudgetConfig := mkBudgetConfig {
  MaxConcurrent : Z;
  MaxConcurrentPerTenant : Z;
  MaxConcurrentPerPool : Z
}.

Record BudgetScope := mkBudgetScope {
  bs_WorkerKind : string;
  bs_ShardID : string;
  bs_OwnerID : string;
  bs_TenantID : string;
  bs_PoolID : string
}.
#[export] Instance eta_BudgetScope : RecordEta BudgetScope := fun r =>
  mkBudgetScope (bs_WorkerKind r) (bs_ShardID r) (bs_OwnerID r) (bs_TenantID r) (bs_PoolID r).

Record Budget := mkBudget {
  bg_cfg : BudgetConfig;
  bg_inUse : Z;
  bg_tenants : gmap string Z;
  bg_pools : gmap string Z
}.
#[export] Instance eta_Budget : RecordEta Budget := fun b => mkBudget (bg_cfg b) (bg_inUse b) (bg_tenants b) (bg_pools b).

(** The nil budget is [None]. *)
Definition NewBudget (cfg : BudgetConfig) : option Budget :=
  if (MaxConcurrent cfg <=? 0) && (MaxConcurrentPerTenant cfg <=? 0) && (MaxConcurrentPerPool cfg <=? 0) then None
  else Some (mkBudget cfg 0 ∅ ∅).

(** A Go map read: zero for a missing key. *)
Definition counter (m : gmap string Z) (key : string) : Z := default 0 (m !! key).

Definition incrementCounter (m : gmap string Z) (key : string) : gmap string Z :=
  if negb (key =s "") then <[key := counter m key + 1]> m else m.

Definition decrementCounter (m : gmap string Z) (key : string) : gmap string Z :=
  if key =s "" then m
  else if counter m key <=? 1 then delete key m
  else <[key := counter m key - 1]> m.

(** The reason of a refusal, or the budget with the worker counted. *)
Definition Budget_TryAcquire (scope : BudgetScope) (b : Budget) : string + Budget :=
  let cfg := bg_cfg b in
  if (0 <? MaxConcurrent cfg) && (MaxConcurrent cfg <? bg_inUse b + 1) then inl "global_concurrency"
  else if negb (bs_TenantID scope =s "") && (0 <? MaxConcurrentPerTenant cfg)
       && (MaxConcurrentPerTenant cfg <? counter (bg_tenants b) (bs_TenantID scope) + 1) then inl "tenant_concurrency"
  else if negb (bs_PoolID scope =s "") && (0 <? MaxConcurrentPerPool cfg)
       && (MaxConcurrentPerPool cfg <? counter (bg_pools b) (bs_PoolID scope) + 1) then inl "pool_concurrency"
  else inr (b <| bg_inUse := bg_inUse b + 1 |> <| bg_tenants := incrementCounter (bg_tenants b) (bs_TenantID scope) |>
              <| bg_pools := incrementCounter (bg_pools b) (bs_PoolID scope) |>).

Definition Budget_release (scope : BudgetScope) (b : Budget) : Budget :=
  b <| bg_inUse := if 0 <? bg_inUse b then bg_inUse b - 1 else bg_inUse b |>
    <| bg_tenants := decrementCounter (bg_tenants b) (bs_TenantID scope) |>
    <| bg_pools := decrementCounter (bg_pools b) (bs_PoolID scope) |>.

(** [None] is Go's nil map. *)
Definition cloneCounterMap (m : gmap string Z) : option (gmap string Z) :=
  let out := filter (fun kv => 0 < kv.2) m in
  if decide (out = ∅) then None else Some out.

Record BudgetSnapshot := mkBudgetSnapshot {
  bss_MaxConcurrent : Z;
  bss_MaxConcurrentPerTenant : Z;
  bss_MaxConcurrentPerPool : Z;
  bss_InUse : Z;
  bss_InUseByTenant : option (gmap string Z);
  bss_InUseByPool : option (gmap string Z)
}.

Definition Budget_Snapshot (b : option Budget) : BudgetSnapshot :=
  match b with
  | None => mkBudgetSnapshot 0 0 0 0 None None
  | Some b => mkBudgetSnapshot (MaxConcurrent (bg_cfg b)) (MaxConcurrentPerTenant (bg_cfg b)) (MaxConcurrentPerPool (bg_cfg b))
                (bg_inUse b) (cloneCounterMap (bg_tenants b)) (cloneCounterMap (bg_pools b))
  end.

(** ** Workers

    A release function is the scope it captured and whether its [sync.Once] has fired. *)

Record token := mkToken {
  tk_scope : BudgetScope;
  tk_done : bool
}.

Record pool_state := mkPoolState {
  ps_budget : Budget;
  ps_tokens : list token
}.

Inductive budget_op :=
| Acquire (scope : BudgetScope)
| CallRelease (i : nat).

Definition budget_step (o : budget_op) (st : pool_state) : pool_state :=
  match o with
  | Acquire scope =>
      match Budget_TryAcquire scope (ps_budget st) with
      | inl _ => st
      | inr b => mkPoolState b (ps_tokens st ++ [mkToken scope false])%list
      end
  | CallRelease i =>
      match ps_tokens st !! i with
      | Some (mkToken scope false) =>
          mkPoolState (Budget_release scope (ps_budget st)) (<[i := mkToken scope true]> (ps_tokens st))
      | _ => st
      end
  end.

Definition budget_run (ops : list budget_op) (st : pool_state) : pool_state := foldl (fun st o => budget_step o st) st ops.

(** The workers that run, and those of them that [f] files under [key]. *)
Definition running (tokens : list token) : list BudgetScope :=
  map tk_scope (List.filter (fun t => negb (tk_done t)) tokens).
Definition filed (f : BudgetScope -> string) (key : string) (scopes : list BudgetScope) : Z :=
  Z.of_nat (length (List.filter (fun scope => f scope =s key) scopes)).

(** ** The invariant *)

(** A counter map counts the running workers, with no entry for those it does not know. *)
Definition counts (f : BudgetScope -> string) (m : gmap string Z) (scopes : list BudgetScope) : Prop :=
  forall key, m !! key = (let n := filed f key scopes in if (key =s "") || (n =? 0) then None else Some n).

Definition within (limit n : Z) : Prop := 0 < limit -> n <= limit.

Record budget_inv (st : pool_state) : Prop := {
  inv_inUse : bg_inUse (ps_budget st) = Z.of_nat (length (running (ps_tokens st)));
  inv_tenants : counts bs_TenantID (bg_tenants (ps_budget st)) (running (ps_tokens st));
  inv_pools : counts bs_PoolID (bg_pools (ps_budget st)) (running (ps_tokens st));
  inv_max : within (MaxConcurrent (bg_cfg (ps_budget st))) (Z.of_nat (length (running (ps_tokens st))));
  inv_max_tenant : forall t, t <> "" ->
    within (MaxConcurrentPerTenant (bg_cfg (ps_budget st))) (filed bs_TenantID t (running (ps_tokens st)));
  inv_max_pool : forall p, p <> "" ->
    within (MaxConcurrentPerPool (bg_cfg (ps_budget st))) (filed bs_PoolID p (running (ps_tokens st)))
}.

Lemma counter_counts f m scopes key : counts f m scopes -> key <> "" -> counter m key = filed f key scopes.
Proof.
  intros Hm Hne. unfold counter. rewrite (Hm key), (proj2 (String.eqb_neq _ _) Hne). cbn [orb].
  destruct (Z.eqb_spec (filed f key scopes) 0) as [->|]; done.
Qed.

Lemma filed_app f key l1 l2 : filed f key (l1 ++ l2)%list = filed f key l1 + filed f key l2.
Proof. unfold filed. rewrite List.filter_app, length_app. lia. Qed.

Lemma filed_one f key scope : filed f key [scope] = if f scope =s key then 1 else 0.
Proof. unfold filed. simpl. by destruct (f scope =s key). Qed.

Lemma running_app l t : running (l ++ [t])%list = (running l ++ running [t])%list.
Proof. unfold running. by rewrite List.filter_app, map_app. Qed.

(** Firing a release function takes one running worker out. *)
Lemma running_fire i tokens scope :
  tokens !! i = Some (mkToken scope false) ->
  exists l1 l2, running tokens = (l1 ++ scope :: l2)%list /\ running (<[i := mkToken scope true]> tokens) = (l1 ++ l2)%list.
Proof.
  intros Hi. exists (running (take i tokens)), (running (drop (S i) tokens)).
  assert (i < length tokens)%nat as Hlt by (by eapply lookup_lt_Some).
  rewrite insert_take_drop by done. rewrite <- (take_drop_middle tokens i _ Hi) at 1.
  unfold running. rewrite !List.filter_app, !map_app. done.
Qed.

Lemma filed_nonneg f key l : 0 <= filed f key l.
Proof. unfold filed. lia. Qed.

Lemma counts_increment f m scopes scope :
  counts f m scopes -> counts f (incrementCounter m (f scope)) (scopes ++ [scope])%list.
Proof.
  intros Hm key. rewrite filed_app, filed_one. cbv zeta. pose proof (filed_nonneg f key scopes) as Hpos. unfold incrementCounter.
  destruct (String.eqb_spec (f scope) "") as [He|Hne]; cbn [negb].
  - rewrite He. rewrite (Hm key). destruct (String.eqb_spec "" key) as [<-|Hk]; [done|]. rewrite Z.add_0_r. done.
  - destruct (String.eqb_spec (f scope) key) as [<-|Hk].
    + rewrite lookup_insert_eq, (counter_counts _ _ _ _ Hm Hne), (proj2 (String.eqb_neq _ _) Hne). cbn [orb].
      destruct (Z.eqb_spec (filed f (f scope) scopes + 1) 0); [lia|done].
    + rewrite lookup_insert_ne by done. rewrite (Hm key), Z.add_0_r. done.
Qed.

Lemma counts_decrement f m l1 l2 scope :
  counts f m (l1 ++ scope :: l2)%list -> counts f (decrementCounter m (f scope)) (l1 ++ l2)%list.
Proof.
  intros Hm key. pose proof (Hm key) as Hk. change (scope :: l2) with ([scope] ++ l2)%list in *.
  rewrite !filed_app, filed_one in *. cbv zeta in *. pose proof (filed_nonneg f key l1). pose proof (filed_nonneg f key l2).
  unfold decrementCounter. destruct (String.eqb_spec (f scope) "") as [He|Hne].
  - rewrite He in Hk. rewrite Hk. destruct (decide (key = "")) as [Hke|Hke]; [by rewrite Hke|].
    rewrite (proj2 (String.eqb_neq "" key)) by congruence. by rewrite Z.add_0_l.
  - pose proof (counter_counts _ _ _ _ Hm Hne) as Hc. rewrite !filed_app, filed_one, String.eqb_refl in Hc.
    destruct (String.eqb_spec (f scope) key) as [Heq|Hk']; [rewrite <- Heq in *|].
    + rewrite (proj2 (String.eqb_neq _ _) Hne) in *. cbn [orb] in *.
      destruct (Z.leb_spec (counter m (f scope)) 1).
      * rewrite lookup_delete_eq. destruct (Z.eqb_spec (filed f (f scope) l1 + filed f (f scope) l2) 0); [done|lia].
      * rewrite lookup_insert_eq. destruct (Z.eqb_spec (filed f (f scope) l1 + filed f (f scope) l2) 0); [lia|]. f_equal. lia.
    + rewrite Z.add_0_l in Hk. destruct (counter m (f scope) <=? 1); [rewrite lookup_delete_ne | rewrite lookup_insert_ne]; done.
Qed.

Lemma TryAcquire_inv scope st b :
  Budget_TryAcquire scope (ps_budget st) = inr b -> budget_inv st ->
  budget_inv (mkPoolState b (ps_tokens st ++ [mkToken scope false])%list).
Proof.
  intros Hacq [Hu Ht Hp Hm Hmt Hmp]. unfold Budget_TryAcquire in Hacq. cbv zeta in Hacq.
  destruct (_ && _) eqn:H1 in Hacq; [done|]. destruct (_ && _) eqn:H2 in Hacq; [done|]. destruct (_ && _) eqn:H3 in Hacq; [done|].
  injection Hacq as <-. rewrite andb_false_iff, !Z.ltb_ge in H1. rewrite !andb_false_iff, !negb_false_iff, !Z.ltb_ge, !String.eqb_eq in H2, H3.
  assert (forall f key limit m, counts f m (running (ps_tokens st)) -> key <> "" ->
    within limit (filed f key (running (ps_tokens st))) ->
    (f scope = "" \/ limit <= 0) \/ counter m (f scope) + 1 <= limit ->
    within limit (filed f key (running (ps_tokens st) ++ [scope])%list)) as Hin.
  { intros f key limit m Hcnt Hne Hw Hg Hpos. specialize (Hw Hpos). rewrite filed_app, filed_one.
    destruct (String.eqb_spec (f scope) key) as [Heq|]; [|lia]. rewrite Heq in Hg. rewrite (counter_counts _ _ _ _ Hcnt Hne) in Hg.
    destruct Hg as [[?|?]|?]; [done|lia|lia]. }
  assert (running (ps_tokens st ++ [mkToken scope false])%list = (running (ps_tokens st) ++ [scope])%list) as Hrun by apply running_app.
  split; cbn [ps_budget ps_tokens]; rewrite ?Hrun; field_simpl.
  - rewrite length_app, Hu. simpl. lia.
  - by apply counts_increment.
  - by apply counts_increment.
  - intros Hpos. specialize (Hm Hpos). rewrite length_app. simpl. lia.
  - intros t Hne. eapply Hin; [exact Ht|done|by apply Hmt|exact H2].
  - intros p Hne. eapply Hin; [exact Hp|done|by apply Hmp|exact H3].
Qed.

Lemma release_inv i scope st :
  ps_tokens st !! i = Some (mkToken scope false) -> budget_inv st ->
  budget_inv (mkPoolState (Budget_release scope (ps_budget st)) (<[i := mkToken scope true]> (ps_tokens st))).
Proof.
  intros Hi [Hu Ht Hp Hm Hmt Hmp]. destruct (running_fire _ _ _ Hi) as (l1 & l2 & Hr & Hr').
  assert (forall f key limit, within limit (filed f key (running (ps_tokens st))) -> within limit (filed f key (l1 ++ l2)%list)) as Hin.
  { intros f key limit Hw Hpos. specialize (Hw Hpos). rewrite Hr in Hw. change (scope :: l2) with ([scope] ++ l2)%list in Hw.
    rewrite !filed_app, filed_one in *. destruct (f scope =s key); lia. }
  rewrite Hr in Hu, Ht, Hp, Hm. rewrite length_app in Hu, Hm. simpl in Hu, Hm.
  split; cbn [ps_budget ps_tokens]; rewrite ?Hr'; unfold Budget_release; field_simpl.
  - rewrite Hu, length_app. destruct (Z.ltb_spec 0 (Z.of_nat (length l1 + S (length l2)))); lia.
  - by apply counts_decrement.
  - by apply counts_decrement.
  - intros Hpos. specialize (Hm Hpos). rewrite length_app. lia.
  - intros t Hne. by apply Hin, Hmt.
  - intros p Hne. by apply Hin, Hmp.
Qed.

Lemma budget_step_inv o st : budget_inv st -> budget_inv (budget_step o st).
Proof.
  intros Hst. destruct o as [scope|i]; simpl.
  - destruct (Budget_TryAcquire scope (ps_budget st)) eqn:Ha; [done | by apply TryAcquire_inv].
  - destruct (ps_tokens st !! i) as [[scope []]|] eqn:Hi; [done | by apply release_inv | done].
Qed.

Lemma budget_run_inv ops st : budget_inv st -> budget_inv (budget_run ops st).
Proof. revert st. induction ops as [|o ops IH]; intros st Hst; [done|]. by apply IH, budget_step_inv. Qed.

Lemma NewBudget_inv cfg b : NewBudget cfg = Some b -> budget_inv (mkPoolState b []) /\ bg_cfg b = cfg.
Proof.
  unfold NewBudget. destruct (_ && _); [done|]. intros [= <-]. split; [|done].
  split; cbn; try done; intros ?; cbn; unfold filed, within; simpl; rewrite ?orb_true_r; try done; lia.
Qed.

Lemma budget_step_cfg o st : bg_cfg (ps_budget (budget_step o st)) = bg_cfg (ps_budget st).
Proof.
  destruct o as [scope|i]; simpl.
  - destruct (Budget_TryAcquire scope (ps_budget st)) eqn:Ha; [done|]. unfold Budget_TryAcquire in Ha. cbv zeta in Ha.
    repeat case_match; try done. injection Ha as <-. by field_simpl.
  - by repeat case_match.
Qed.

Lemma budget_run_cfg ops st : bg_cfg (ps_budget (budget_run ops st)) = bg_cfg (ps_budget st).
Proof. revert st. induction ops as [|o ops IH]; intros st; [done|]. simpl. rewrite IH. apply budget_step_cfg. Qed.

(** C15: The worker budget holds its limits and counts exactly. Whatever workers acquire
    and release, in whatever order and however often they call their release functions,
    the counters are the numbers of running workers, in all, per tenant and per pool; a
    positive limit is never exceeded, no counter is negative, and a tenant or pool
    without running workers has no entry. *)
Theorem budget_bounds (cfg : BudgetConfig) (b : Budget) (ops : list budget_op) :
  NewBudget cfg = Some b ->
  let st := budget_run ops (mkPoolState b []) in
  let workers := running (ps_tokens st) in
  bg_inUse (ps_budget st) = Z.of_nat (length workers) /\
  (0 < MaxConcurrent cfg -> 0 <= bg_inUse (ps_budget st) <= MaxConcurrent cfg) /\
  (forall t, t <> "" -> counter (bg_tenants (ps_budget st)) t = filed bs_TenantID t workers /\
     (0 < MaxConcurrentPerTenant cfg -> 0 <= counter (bg_tenants (ps_budget st)) t <= MaxConcurrentPerTenant cfg)) /\
  (forall p, p <> "" -> counter (bg_pools (ps_budget st)) p = filed bs_PoolID p workers /\
     (0 < MaxConcurrentPerPool cfg -> 0 <= counter (bg_pools (ps_budget st)) p <= MaxConcurrentPerPool cfg)) /\
  (workers = [] -> ps_budget st = b).
Proof.
  intros Hb st workers. destruct (NewBudget_inv cfg b Hb) as [Hi Hcfg].
  pose proof (budget_run_cfg ops (mkPoolState b [])) as Hc. cbn [ps_budget] in Hc. rewrite Hcfg in Hc. fold st in Hc.
  destruct (budget_run_inv ops _ Hi) as [Hu Ht Hp Hm Hmt Hmp]. fold st in Hu, Ht, Hp, Hm, Hmt, Hmp. fold workers in Hu, Ht, Hp, Hm, Hmt, Hmp.
  rewrite Hc in Hm, Hmt, Hmp. split_and!; [done| | | |].
  - intros Hpos. specialize (Hm Hpos). lia.
  - intros t Hne. rewrite (counter_counts _ _ _ _ Ht Hne). split; [done|]. intros Hpos.
    specialize (Hmt t Hne Hpos). pose proof (filed_nonneg bs_TenantID t workers). lia.
  - intros p Hne. rewrite (counter_counts _ _ _ _ Hp Hne). split; [done|]. intros Hpos.
    specialize (Hmp p Hne Hpos). pose proof (filed_nonneg bs_PoolID p workers). lia.
  - intros Hnil. rewrite Hnil in Hu, Ht, Hp. destruct (ps_budget st) as [c n ts pls] eqn:Hst. simpl in *.
    unfold NewBudget in Hb. destruct (_ && _) in Hb; [done|]. injection Hb as <-.
    assert (forall f m, counts f m [] -> m = ∅) as Hempty.
    { intros f m Hcnt. apply map_eq. intros key. rewrite lookup_empty, (Hcnt key). cbv zeta. unfold filed. simpl. by rewrite orb_true_r. }
    rewrite (Hempty _ _ Ht), (Hempty _ _ Hp), Hu, Hc. done.
Qed.

Definition ex_scope (tenant : string) : BudgetScope := mkBudgetScope "gc" "all" "gw-1" tenant "pool".

Lemma budget_bounds_witness :
  let ops := [Acquire (ex_scope "t1"); Acquire (ex_scope "t1"); Acquire (ex_scope "t2"); Acquire (ex_scope "t3");
              CallRelease 0; CallRelease 0; Acquire (ex_scope "t1")] in
  let st := budget_run ops (mkPoolState (mkBudget (mkBudgetConfig 2 1 0) 0 ∅ ∅) []) in
  bg_inUse (ps_budget st) = 2 /\ counter (bg_tenants (ps_budget st)) "t1" = 1.
Proof.
  intros ops st. destruct (budget_bounds (mkBudgetConfig 2 1 0) (mkBudget (mkBudgetConfig 2 1 0) 0 ∅ ∅) ops) as (Hu & _ & Ht & _).
  - reflexivity.
  - split; [exact Hu|]. exact (proj1 (Ht "t1" ltac:(done))).
Defined.
