(* ===== verification/Segments.v ===== *)
(** * Segments: the segment-store interface and the world of the background workers

    [storage.SegmentStore] of [src/internal/storage/storage.go] as a class with its
    laws, and the world a background worker acts in: the metadata repository, the
    segment store, and everybody else who calls the repository meanwhile. Every
    repository method runs under the repository's mutex, so the other callers are
    any calls in between two of the worker's own ([others]). *)

From S2P Require Import Prelude GoLib StorageTypes Model Requests Meta Manifest Repo RepoLogic RepoCalls.
Open Scope string_scope.
Open Scope Z_scope.

(** ** The interface *)

Inductive StoreErr :=
| SegNotFound
| SegInvalidArgument
| SegInvalidRange
| SegUnavailable
| SegProtected
| SegOther
| SegPanic.

#[export] Instance StoreErr_eq_dec : EqDecision StoreErr.
Proof. solve_decision. Defined.

(** The request's reader is the text it yields. *)
Record PutSegmentRequest := mkPutSegmentRequest {
  put_Reader : string;
  put_SizeBytes : Z;
  put_StorageClass : StorageClassSnapshot
}.

Class SegmentStore (D : Type) := {
  PutSegment : PutSegmentRequest -> ST D StoreErr SegmentRef;
  GetSegment : SegmentRef -> Z -> Z -> D -> outcome StoreErr string;
  DeleteSegment : SegmentRef -> string -> ST D StoreErr unit
}.

(** What a store promises: a segment that was put reads back, whole or in ranges,
    whatever is put or deleted under other identifiers, and is gone once it was
    deleted. The envelope the gateway adds to a reference is nothing to the store. *)
Class SegmentStoreLaws (D : Type) `{SegmentStore D} := {
  segment_bytes : D -> SegmentRef -> option string;
  get_bytes d ref bytes : segment_bytes d ref = Some bytes -> GetSegment ref 0 0 d = Ok bytes;
  get_range d ref bytes off len :
    segment_bytes d ref = Some bytes -> 0 <= off -> 0 < len -> off + len <= str_len bytes -> str_len bytes < 2 ^ 63 ->
    GetSegment ref off len d = Ok (take_str (Z.to_nat len) (drop_str (Z.to_nat off) bytes));
  bytes_envelope d ref e : segment_bytes d (ref <| sr_Encryption := e |>) = segment_bytes d ref;
  put_bytes req d ref d' :
    0 <= put_SizeBytes req -> PutSegment req d = (Ok ref, d') -> segment_bytes d' ref = Some (put_Reader req);
  put_named req d ref d' :
    0 <= put_SizeBytes req -> PutSegment req d = (Ok ref, d') ->
    sr_SegmentID ref <> "" /\ sr_SizeBytes ref = str_len (put_Reader req);
  put_frame req d r d' ref' :
    PutSegment req d = (r, d') -> (forall ref, r = Ok ref -> sr_SegmentID ref <> sr_SegmentID ref') ->
    segment_bytes d' ref' = segment_bytes d ref';
  delete_frame ref reason d r d' ref' :
    DeleteSegment ref reason d = (r, d') -> sr_SegmentID ref <> sr_SegmentID ref' ->
    segment_bytes d' ref' = segment_bytes d ref';
  delete_gone ref reason d d' : DeleteSegment ref reason d = (Ok tt, d') -> segment_bytes d' ref = None
}.

(** ** The world of a worker *)

(** An error of the repository, of the store, a text of the worker's own, or the
    refusal of the worker budget. *)
Inductive WErr :=
| MetaErr (e : Err)
| SegErr (e : StoreErr)
| TextErr (text : string)
| Throttled (reason : string).

Record World (D : Type) := mkWorld {
  w_repo : Repository;
  w_store : D;
  w_log : list call;
  w_turn : nat
}.
Arguments mkWorld {D}.
Arguments w_repo {D}.
Arguments w_store {D}.
Arguments w_log {D}.
Arguments w_turn {D}.
#[export] Instance eta_World {D} : RecordEta (World D) := fun w =>
  mkWorld (w_repo w) (w_store w) (w_log w) (w_turn w).

Section Worker.
Context `{Env} {D : Type} `{SegmentStore D}.
Context (others : nat -> list call).

Definition W (A : Type) : Type := ST (World D) WErr A.

Definition meta_outcome {A} (r : res A) : outcome WErr A :=
  match r with Ok a => Ok a | Fail e => Fail (MetaErr e) end.
Definition seg_outcome {A} (r : outcome StoreErr A) : outcome WErr A :=
  match r with Ok a => Ok a | Fail e => Fail (SegErr e) end.

(** One repository call of the worker, after the calls of the others; the log
    keeps what was called, in order. *)
Definition meta_call {A} (c : call) (m : M A) : W A := fun w =>
  let s := run_all (others (w_turn w)) (w_repo w) in
  let p := m s in
  (meta_outcome p.1,
   w <| w_repo := p.2 |> <| w_log := (w_log w ++ others (w_turn w) ++ [c])%list |> <| w_turn := S (w_turn w) |>).

(** A method that only reads. *)
Definition meta_read {A} (m : M A) : W A := fun w =>
  let s := run_all (others (w_turn w)) (w_repo w) in
  let p := m s in
  (meta_outcome p.1,
   w <| w_repo := p.2 |> <| w_log := (w_log w ++ others (w_turn w))%list |> <| w_turn := S (w_turn w) |>).

Definition seg_call {A} (m : ST D StoreErr A) : W A := fun w =>
  let p := m (w_store w) in (seg_outcome p.1, w <| w_store := p.2 |>).

Definition seg_read {A} (f : D -> outcome StoreErr A) : W A := fun w => (seg_outcome (f (w_store w)), w).

(** The code's [if err := m(); err != nil]. *)
Definition attempt_of {A} (m : W A) : W (outcome WErr A) := fun w => let p := m w in (Ok p.1, p.2).

(** [time.Now().UTC()] of the worker, by the number of its repository calls. *)
Definition worker_now : W Time := fun w => (Ok (env_wall (w_turn w)), w).

(** ** The log says what the repository is *)

Definition logged (s : Repository) (w : World D) : Prop := w_repo w = run_all (w_log w) s.

(** The worker went through these calls from [w] to [w']. *)
Definition extends (w w' : World D) : Prop :=
  exists l, w_log w' = (w_log w ++ l)%list /\ w_repo w' = run_all l (w_repo w).

#[export] Instance extends_refl : Reflexive extends.
Proof. intros w. exists []. by rewrite app_nil_r. Qed.
#[export] Instance extends_trans : Transitive extends.
Proof.
  intros w1 w2 w3 (l1 & E1 & F1) (l2 & E2 & F2). exists (l1 ++ l2)%list.
  rewrite E2, F2, E1, F1, app_assoc. split; [done|]. unfold run_all. by rewrite foldl_app.
Qed.

Lemma meta_call_extends {A} c (m : M A) : run c = discard m -> preserves extends (meta_call c m).
Proof.
  intros Hc w. unfold st_exec, meta_call. cbv zeta. simpl. exists (others (w_turn w) ++ [c])%list. field_simpl.
  split; [done|]. unfold run_all. rewrite foldl_app. simpl. rewrite Hc, exec_discard. done.
Qed.

Lemma meta_read_extends {A} (m : M A) : (forall s, st_exec m s = s) -> preserves extends (meta_read m).
Proof.
  intros Hm w. unfold st_exec, meta_read. cbv zeta. simpl. exists (others (w_turn w)). field_simpl.
  split; [done|]. apply Hm.
Qed.

Lemma seg_call_extends {A} (m : ST D StoreErr A) : preserves extends (seg_call m).
Proof. intros w. exists []. by rewrite app_nil_r. Qed.

Lemma seg_read_extends {A} (f : D -> outcome StoreErr A) : preserves extends (seg_read f).
Proof. intros w. exists []. by rewrite app_nil_r. Qed.

Lemma attempt_preserves {A} (R : World D -> World D -> Prop) (m : W A) : preserves R m -> preserves R (attempt_of m).
Proof. intros Hm w. apply Hm. Qed.

Lemma worker_now_extends : preserves extends worker_now.
Proof. intros w. exists []. by rewrite app_nil_r. Qed.

End Worker.

#[export] Hint Resolve seg_call_extends seg_read_extends worker_now_extends : preserves.
#[export] Hint Extern 1 (preserves extends (meta_call _ _ _)) => apply meta_call_extends; reflexivity : preserves.
#[export] Hint Extern 1 (preserves extends (meta_read _ _)) => apply meta_read_extends; reflexivity : preserves.
