(* ===== verification/LocalStore.v ===== *)
(** * LocalStore: the local segment store

    [src/internal/storage/local/store.go]. A segment is one file under the
    store's directory, or a directory of erasure-coded shard files when its storage
    class asks for erasure coding. The Reed-Solomon library is the class
    [ReedSolomon] with its documented behaviour as laws. The file system is the map
    of what lies in the segments directory; its failures other than a missing file
    are not modelled, and segment identifiers are taken as file names. The
    store discharges the interface of [Segments]; erasure-coded segments survive the loss
    of as many shard files as there are parity shards. *)

From S2P Require Import Prelude GoLib Sha256 StorageTypes Model Segments.
From Stdlib Require Import Ascii.
Open Scope string_scope.
Open Scope Z_scope.

(** ** The Reed-Solomon library *)

Class ReedSolomon := {
  rs_New : nat -> nat -> bool;
  rs_Encode : nat -> nat -> list string -> list string;
  rs_Reconstruct : nat -> nat -> list (option string) -> option (list string);
  rs_Join : nat -> list string -> nat -> option string
}.

Definition concat_shards (shards : list string) : string := foldr String.append "" shards.

(** The shard list of a directory: each shard either is there or is missing. *)
Definition survives (all : list string) (read : list (option string)) : Prop :=
  Forall2 (fun shard r => r = Some shard \/ r = None) all read.
Definition missing (read : list (option string)) : nat := length (List.filter (fun r => match r with None => true | _ => false end) read).

Class ReedSolomonLaws `{ReedSolomon} := {
  rs_New_pos d p : rs_New d p = true -> (0 < d)%nat;
  rs_Encode_length d p data : length data = d -> length (rs_Encode d p data) = p;
  (** Reconstruct fills in the missing shards when at least [d] are there. *)
  rs_Reconstruct_spec d p size data read :
    rs_New d p = true -> length data = d -> Forall (fun x => String.length x = size) data ->
    survives (data ++ rs_Encode d p data)%list read -> (missing read <= p)%nat ->
    rs_Reconstruct d p read = Some (data ++ rs_Encode d p data)%list;
  (** Join writes the first bytes of the data shards. *)
  rs_Join_spec d shards n :
    (d <= length shards)%nat -> (n <= String.length (concat_shards (take d shards)))%nat ->
    rs_Join d shards n = Some (take_str n (concat_shards (take d shards)))
}.

(** ** State *)

Definition ecLayout : string := "local-ec-shards".

(** An entry of the segments directory. *)
Inductive node :=
| PlainFile (data : string)
| ShardDir (files : gmap string string).

Record LocalStore := mkLocalStore {
  ls_segments : gmap string node;
  ls_gcQueue : gmap string GCCandidate;
  ls_entropy : list ascii;
  ls_clock : list Time
}.
#[export] Instance eta_LocalStore : RecordEta LocalStore := fun s =>
  mkLocalStore (ls_segments s) (ls_gcQueue s) (ls_entropy s) (ls_clock s).

Definition L (A : Type) : Type := ST LocalStore StoreErr A.

Definition ls_now : L Time := fun s =>
  (Ok (match ls_clock s with t :: _ => t | [] => 0 end), s <| ls_clock := tail (ls_clock s) |>).

(** Sixteen random bytes in hexadecimal; the entropy source may run dry. *)
Definition newSegmentID : L string := fun s =>
  if (length (ls_entropy s) <? 16)%nat then (Fail SegOther, s)
  else (Ok (EncodeToString (take 16 (ls_entropy s))), s <| ls_entropy := drop 16 (ls_entropy s) |>).

(** ** Parameters of a storage class *)

Definition ParamRedundancyBackend : string := "redundancy_backend".
Definition ParamDataShards : string := "data_shards".
Definition ParamParityShards : string := "parity_shards".
Definition ParamProfileGeneration : string := "profile_generation".
Definition RedundancyErasureCode : string := "erasure-code".

Definition param (params : gmap string string) (key : string) : string := default "" (params !! key).

Definition all_digits (s : list ascii) : bool := forallb (byte_in 48 57) s.

(** [value, _ := strconv.Atoi(text)]: zero for a text that is no number, and the
    nearest [int] for one that is out of range. *)
Definition atoi_value (text : string) : Z :=
  let number digits := match digits with [] => 0 | _ => if all_digits digits then default 0 (parse_digits 0 digits) else 0 end in
  match String.list_ascii_of_string text with
  | [] => 0
  | c :: rest =>
      if byte_is 45 c then Z.max (- number rest) (- 2 ^ 63)
      else Z.min (number (if byte_is 43 c then rest else c :: rest)) (2 ^ 63 - 1)
  end.
Definition intParam (params : gmap string string) (key : string) : Z := atoi_value (param params key).

(** [value, _ := strconv.ParseUint(text, 10, 64)]. *)
Definition uintParam (params : gmap string string) (key : string) : Z :=
  match String.list_ascii_of_string (param params key) with
  | [] => 0
  | digits => if all_digits digits then Z.min (default 0 (parse_digits 0 digits)) (2 ^ 64 - 1) else 0
  end.

Definition isECStorageClass (snapshot : StorageClassSnapshot) : bool :=
  param (scs_Parameters snapshot) ParamRedundancyBackend =s RedundancyErasureCode.

Definition ecShardConfig (snapshot : StorageClassSnapshot) : outcome StoreErr (nat * nat) :=
  let dataShards := intParam (scs_Parameters snapshot) ParamDataShards in
  let parityShards := intParam (scs_Parameters snapshot) ParamParityShards in
  if (dataShards <=? 0) || (parityShards <=? 0) then Fail SegInvalidArgument
  else Ok (Z.to_nat dataShards, Z.to_nat parityShards).

Definition ecShardConfigFromRef (ref : SegmentRef) : outcome StoreErr (nat * nat) :=
  let dataShards := intParam (pls_Parameters (sr_Placement ref)) ParamDataShards in
  let parityShards := intParam (pls_Parameters (sr_Placement ref)) ParamParityShards in
  let dataShards := if dataShards <=? 0 then intParam (scs_Parameters (sr_StorageClass ref)) ParamDataShards else dataShards in
  let parityShards := if parityShards <=? 0 then intParam (scs_Parameters (sr_StorageClass ref)) ParamParityShards else parityShards in
  if (dataShards <=? 0) || (parityShards <=? 0) then Fail SegInvalidArgument
  else Ok (Z.to_nat dataShards, Z.to_nat parityShards).

Definition ceilDivInt (value divisor : Z) : Z :=
  if (divisor <=? 0) || (value <=? 0) then 0 else (value + divisor - 1) / divisor.

(** [fmt.Sprintf("shard-%05d", shardID)]. *)
Definition ecShardFile (shardID : nat) : string := "shard-" +:+ leftPadZeros 5 (Z.of_nat shardID).

Definition ecPlacementChunks (dataShards parityShards : nat) (size shardSize : Z) : list PlacementChunk :=
  map (fun shardID =>
    let data := (shardID <? dataShards)%nat in
    let logicalOffset := if data then uint64 (Z.of_nat shardID * shardSize) else 0 in
    let logicalSize := if data && (logicalOffset <? size) then Z.min shardSize (size - logicalOffset) else 0 in
    mkPlacementChunk logicalOffset logicalSize "" 0 shardSize "" (Z.of_nat shardID mod 2 ^ 32) 0
      (if data then "data" else "parity")) (seq 0 (dataShards + parityShards)).

Definition ec_parameters (dataShards parityShards : nat) (shardSize size : Z) : gmap string string :=
  <[ParamDataShards := Itoa (Z.of_nat dataShards)]> (<[ParamParityShards := Itoa (Z.of_nat parityShards)]>
    (<["shard_size_bytes" := Itoa shardSize]> (<["original_size_bytes" := Itoa size]> ∅))).

(** ** Plain segments *)

Definition placement_backend (class : StorageClassSnapshot) : string :=
  if scs_Backend class =s "" then "local" else scs_Backend class.

Definition putPlainSegment (req : PutSegmentRequest) : L SegmentRef :=
  let written := str_len (put_Reader req) in
  fail! SegInvalidArgument when negb (put_SizeBytes req =? 0) && negb (written =? put_SizeBytes req) ;
  let! segmentID := newSegmentID in
  let! there := (fun s => (Ok (ls_segments s !! segmentID), s)) in
  fail! SegOther when match there with Some (ShardDir _) => true | _ => false end ;
  st_modify (fun s => s <| ls_segments := <[segmentID := PlainFile (put_Reader req)]> (ls_segments s) |>) ;;!
  let! t := ls_now in
  let class := put_StorageClass req in
  st_ret (mkSegmentRef segmentID class
    (mkPlacementSnapshot (placement_backend class) "local-file" "" (scs_StorageClassID class) 0 0 ∅
       [mkPlacementChunk 0 written "" 0 written "" 0 0 "primary"])
    written (mkDigest "sha256" (sha256_hex (put_Reader req))) zero_EncryptionEnvelope t "").

(** What a reader of [data] from [off] on yields; a length of zero is no limit. *)
Definition read_range (data : string) (off length : Z) : outcome StoreErr string :=
  if str_len data <? off then Fail SegInvalidRange
  else
    let rest := drop_str (Z.to_nat off) data in
    Ok (if length =? 0 then rest else take_str (Z.to_nat (int64 length)) rest).

(** ** Erasure-coded segments *)

Definition zeros (n : nat) : string := repeat_str n (String Ascii.zero "").

(** The loop that reads the data shards: each is filled from the reader up to its
    logical length and padded with zero bytes; [None] when the reader ends early.
    The offsets of a payload that is held in memory do not overflow. *)
Fixpoint read_shards (count shardID : nat) (shardSize size : Z) (reader : string) : option (list string * string) :=
  match count with
  | O => Some ([], reader)
  | S count' =>
      let start := Z.of_nat shardID * shardSize in
      let logicalLength := Z.to_nat (if start <? size then Z.min shardSize (size - start) else 0) in
      if (String.length reader <? logicalLength)%nat then None
      else
        let shard := take_str logicalLength reader +:+ zeros (Z.to_nat shardSize - logicalLength) in
        '(shards, rest) ← read_shards count' (S shardID) shardSize size (drop_str logicalLength reader);
        Some (shard :: shards, rest)
  end.

Definition shard_files (shards : list string) : gmap string string :=
  list_to_map (imap (fun shardID shard => (ecShardFile shardID, shard)) shards).

Section Store.
Context `{ReedSolomon}.

Definition putECSegment (req : PutSegmentRequest) : L SegmentRef :=
  fail! SegInvalidArgument when put_SizeBytes req =? 0 ;
  fail! SegInvalidArgument when 2 ^ 63 - 1 <? put_SizeBytes req ;
  let size := put_SizeBytes req in
  let class := put_StorageClass req in
  let! config := st_lift (ecShardConfig class) in
  let dataShards := config.1 in
  let parityShards := config.2 in
  fail! SegInvalidArgument when negb (rs_New dataShards parityShards) ;
  let shardSize := Z.max (ceilDivInt size (Z.of_nat dataShards)) 1 in
  match read_shards dataShards 0 shardSize size (put_Reader req) with
  | None => st_fail SegInvalidArgument
  | Some (data, rest) =>
      fail! SegInvalidArgument when negb (rest =s "") ;
      let shards := (data ++ rs_Encode dataShards parityShards data)%list in
      let! segmentID := newSegmentID in
      let! there := (fun s => (Ok (ls_segments s !! segmentID), s)) in
      fail! SegOther when match there with Some _ => true | None => false end ;
      st_modify (fun s => s <| ls_segments := <[segmentID := ShardDir (shard_files shards)]> (ls_segments s) |>) ;;!
      let! t := ls_now in
      st_ret (mkSegmentRef segmentID class
        (mkPlacementSnapshot (placement_backend class) ecLayout RedundancyErasureCode (scs_StorageClassID class)
           (uintParam (scs_Parameters class) ParamProfileGeneration) shardSize
           (ec_parameters dataShards parityShards shardSize size)
           (ecPlacementChunks dataShards parityShards size shardSize))
        size (mkDigest "sha256" (sha256_hex (put_Reader req))) zero_EncryptionEnvelope t "")
  end.

Definition LocalStore_PutSegment (req : PutSegmentRequest) : L SegmentRef :=
  fail! SegInvalidArgument when scs_StorageClassID (put_StorageClass req) =s "" ;
  if isECStorageClass (put_StorageClass req) then putECSegment req else putPlainSegment req.

(** The shard files of a directory in order; one that is not there is missing. *)
Definition read_dir (files : gmap string string) (count : nat) : list (option string) :=
  map (fun shardID => files !! ecShardFile shardID) (seq 0 count).

Definition getECSegment (ref : SegmentRef) (off length : Z) (s : LocalStore) : outcome StoreErr string :=
  if sr_SizeBytes ref <? off then Fail SegInvalidRange
  else match ecShardConfigFromRef ref with
  | Fail e => Fail e
  | Ok (dataShards, parityShards) =>
      if negb (rs_New dataShards parityShards) then Fail SegInvalidArgument
      else match ls_segments s !! sr_SegmentID ref with
      | None => Fail SegNotFound
      | Some (PlainFile _) => Fail SegOther
      | Some (ShardDir files) =>
          match rs_Reconstruct dataShards parityShards (read_dir files (dataShards + parityShards)) with
          | None => Fail SegUnavailable
          | Some shards =>
              match rs_Join dataShards shards (Z.to_nat (int64 (sr_SizeBytes ref))) with
              | None => Fail SegUnavailable
              | Some data =>
                  let stop := if (0 <? length) && (uint64 (off + length) <? str_len data) then uint64 (off + length)
                              else str_len data in
                  if stop <? off then Fail SegPanic
                  else Ok (take_str (Z.to_nat (stop - off)) (drop_str (Z.to_nat off) data))
              end
          end
      end
  end.

Definition LocalStore_GetSegment (ref : SegmentRef) (off length : Z) (s : LocalStore) : outcome StoreErr string :=
  if sr_SegmentID ref =s "" then Fail SegInvalidArgument
  else if pls_Layout (sr_Placement ref) =s ecLayout then getECSegment ref off length s
  else match ls_segments s !! sr_SegmentID ref with
       | None => Fail SegNotFound
       | Some (ShardDir _) => Fail SegOther
       | Some (PlainFile data) => read_range data off length
       end.

Definition forget (segmentID : string) : L unit :=
  st_modify (fun s => s <| ls_segments := delete segmentID (ls_segments s) |>
                        <| ls_gcQueue := delete segmentID (ls_gcQueue s) |>).

Definition LocalStore_DeleteSegment (ref : SegmentRef) (_ : string) : L unit :=
  fail! SegInvalidArgument when sr_SegmentID ref =s "" ;
  if pls_Layout (sr_Placement ref) =s ecLayout then forget (sr_SegmentID ref)
  else
    let! there := (fun s => (Ok (ls_segments s !! sr_SegmentID ref), s)) in
    match there with
    | None => st_fail SegNotFound
    | Some (ShardDir _) => st_fail SegOther
    | Some (PlainFile _) => forget (sr_SegmentID ref)
    end.

Definition LocalStore_MarkOrphan (ref : SegmentRef) (reason : string) : L unit :=
  fail! SegInvalidArgument when sr_SegmentID ref =s "" ;
  let! there := (fun s => (Ok (ls_segments s !! sr_SegmentID ref), s)) in
  match there with
  | None => st_fail SegNotFound
  | Some _ =>
      let! t := ls_now in
      st_modify (fun s => s <| ls_gcQueue := <[sr_SegmentID ref := mkGCCandidate ref reason t]> (ls_gcQueue s) |>)
  end.

Definition LocalStore_ListGCCandidates (limit : Z) (s : LocalStore) : list GCCandidate :=
  let candidates := sort_by (fun a b => gcc_CreatedAt a <? gcc_CreatedAt b) (map_to_list (ls_gcQueue s)).*2 in
  if (0 <? limit) && (limit <? Z.of_nat (length candidates)) then take (Z.to_nat limit) candidates else candidates.

#[export] Instance LocalStore_store : SegmentStore LocalStore := {|
  PutSegment := LocalStore_PutSegment;
  GetSegment := LocalStore_GetSegment;
  DeleteSegment := LocalStore_DeleteSegment
|}.

End Store.

(** ** Splitting a payload into shards *)

Lemma length_zeros n : String.length (zeros n) = n.
Proof. unfold zeros. induction n as [|n IH]; cbn [repeat_str]; [done|]. by rewrite str_length_app, IH. Qed.

Lemma length_concat_shards l n :
  Forall (fun x => String.length x = n) l -> String.length (concat_shards l) = (length l * n)%nat.
Proof.
  induction 1 as [|x l Hx _ IH]; [done|]. unfold concat_shards in *. simpl.
  change (String.append x (foldr String.append "" l)) with (x +:+ foldr String.append "" l).
  rewrite str_length_app. lia.
Qed.

(** Reading the shards from [shardID] on takes the payload apart: the shards, put
    together, are the payload and its padding. *)
Lemma read_shards_spec count shardID shardSize size reader :
  0 < shardSize -> str_len reader = Z.max 0 (size - Z.of_nat shardID * shardSize) ->
  exists shards rest pad, read_shards count shardID shardSize size reader = Some (shards, rest) /\
    length shards = count /\ Forall (fun x => String.length x = Z.to_nat shardSize) shards /\
    str_len rest = Z.max 0 (size - Z.of_nat (shardID + count) * shardSize) /\
    concat_shards shards +:+ rest = reader +:+ pad.
Proof.
  intros Hss. revert shardID reader. induction count as [|count IH]; intros shardID reader Hlen.
  { exists [], reader, "". rewrite Nat.add_0_r, str_app_nil_r. split_and!; [done | done | constructor | done | done]. }
  cbn [read_shards]. set (start := Z.of_nat shardID * shardSize) in *.
  set (n := Z.to_nat (if start <? size then Z.min shardSize (size - start) else 0)).
  assert (Z.of_nat n = Z.min shardSize (str_len reader)) as Hn.
  { unfold n. rewrite Hlen. destruct (Z.ltb_spec start size); lia. }
  unfold str_len in *. destruct (Nat.ltb_spec (String.length reader) n) as [Hlt|_]; [lia|].
  destruct (IH (S shardID) (drop_str n reader)) as (shards & rest & pad & Hr & Hc & Hall & Hrest & Hcat).
  { rewrite length_drop_str. nia. }
  set (shard := take_str n reader +:+ zeros (Z.to_nat shardSize - n)).
  assert (exists pad', shard +:+ (concat_shards shards +:+ rest) = reader +:+ pad') as [pad' Hpad].
  { rewrite Hcat. unfold shard. rewrite <- !str_app_assoc. destruct (Z.to_nat shardSize - n)%nat eqn:Hz.
    - exists pad. change (zeros 0) with "". by rewrite str_nil_app, str_app_assoc, str_take_drop.
    - assert (drop_str n reader = "") as Hd by (apply str_length_0; rewrite length_drop_str; lia).
      pose proof (str_take_drop n reader) as Htd. rewrite Hd, str_app_nil_r in Htd. rewrite Hd, Htd. eauto. }
  exists (shard :: shards), rest, pad'. rewrite Hr. split; [reflexivity|]. split; [simpl; by rewrite Hc|]. split.
  { constructor; [|done]. unfold shard. rewrite str_length_app, length_take_str, length_zeros. lia. }
  split; [rewrite Hrest; f_equal; lia|]. by rewrite <- Hpad, str_app_assoc.
Qed.

(** *** Shard files *)

Lemma ecShardFile_inj i j : ecShardFile i = ecShardFile j -> i = j.
Proof. intros Heq%str_app_inj_l%leftPadZeros_inj; lia. Qed.

Lemma lookup_shard_files shards i : shard_files shards !! ecShardFile i = shards !! i.
Proof.
  unfold shard_files. set (l := imap _ shards).
  assert (Hl : forall j x, (ecShardFile j, x) ∈ l <-> shards !! j = Some x).
  { intros j x. unfold l. rewrite elem_of_lookup_imap. split.
    - intros (j' & y & Heq & Hy). pose proof (f_equal fst Heq) as Hj. pose proof (f_equal snd Heq) as Hx.
      simpl in Hj, Hx. apply ecShardFile_inj in Hj. by subst.
    - intros Hx. by exists j, x. }
  assert (NoDup l.*1) as Hnd.
  { unfold l. rewrite fmap_imap. apply NoDup_alt. intros a b f Ha Hb. rewrite list_lookup_imap_Some in Ha, Hb.
    destruct Ha as (? & _ & Ha), Hb as (? & _ & Hb). apply ecShardFile_inj. simpl in *. congruence. }
  destruct (shards !! i) as [x|] eqn:Hx.
  - apply elem_of_list_to_map; [done | by apply Hl].
  - destruct (list_to_map l !! ecShardFile i) as [y|] eqn:Hy; [|done].
    apply elem_of_list_to_map in Hy; [|done]. apply Hl in Hy. congruence.
Qed.

(** What survives of the shards after some files were lost. *)
Lemma read_dir_survives shards files :
  files ⊆ shard_files shards -> survives shards (read_dir files (length shards)).
Proof.
  intros Hsub. unfold survives, read_dir. apply Forall2_same_length_lookup_2; [by rewrite length_map, length_seq|].
  intros i x r Hx Hr. rewrite list_lookup_fmap in Hr. apply lookup_lt_Some in Hx as Hlt.
  rewrite (proj2 (lookup_seq 0 (length shards) i i)) in Hr by lia. simpl in Hr. simplify_eq.
  destruct (files !! ecShardFile i) as [y|] eqn:Hy; [|by right].
  left. apply (lookup_weaken _ _ _ _ Hy) in Hsub. rewrite lookup_shard_files in Hsub. congruence.
Qed.

Lemma read_dir_whole shards : missing (read_dir (shard_files shards) (length shards)) = 0%nat.
Proof.
  unfold missing, read_dir. assert (forall l, Forall (fun i => is_Some (shards !! i)) l ->
    length (List.filter (fun r : option string => match r with None => true | _ => false end)
              (map (fun i => shard_files shards !! ecShardFile i) l)) = 0%nat) as Hl.
  { induction 1 as [|i l [x Hx] _ IH]; [done|]. simpl. by rewrite lookup_shard_files, Hx. }
  apply Hl, Forall_forall. intros i Hi%elem_of_seq. apply lookup_lt_is_Some. lia.
Qed.

(** The loss of some shard files of a directory. *)
Definition lost_files (lost : list nat) (files : gmap string string) : gmap string string :=
  foldr (fun i => delete (ecShardFile i)) files lost.

Lemma lost_files_subseteq lost files : lost_files lost files ⊆ files.
Proof. induction lost as [|i lost IH]; simpl; [done|]. etransitivity; [apply delete_subseteq | done]. Qed.

Lemma lookup_lost_files lost files i : i ∉ lost -> lost_files lost files !! ecShardFile i = files !! ecShardFile i.
Proof.
  induction lost as [|j lost IH]; simpl; [done|]. intros [Hne Hin]%not_elem_of_cons.
  rewrite lookup_delete_ne; [by apply IH | intros Heq%ecShardFile_inj; congruence].
Qed.

Lemma missing_lost shards lost :
  (missing (read_dir (lost_files lost (shard_files shards)) (length shards)) <= length lost)%nat.
Proof.
  set (gone := fun i => lost_files lost (shard_files shards) !! ecShardFile i = None).
  assert (forall l, missing (map (fun i => lost_files lost (shard_files shards) !! ecShardFile i) l)
                    = length (filter gone l)) as Hcount.
  { unfold missing. induction l as [|i l IH]; [done|]. cbn [map List.filter]. rewrite filter_cons.
    destruct (decide (gone i)) as [Hi|Hi]; unfold gone in Hi; [rewrite Hi; simpl; congruence|].
    destruct (lost_files lost _ !! ecShardFile i); [simpl; congruence | done]. }
  unfold read_dir. rewrite Hcount. apply submseteq_length, NoDup_submseteq; [apply NoDup_filter, NoDup_seq|].
  intros i [Hgone Hi%elem_of_seq]%list_elem_of_filter. unfold gone in Hgone. destruct (decide (i ∈ lost)) as [|Hn]; [done|].
  rewrite (lookup_lost_files _ _ _ Hn), lookup_shard_files in Hgone. apply lookup_ge_None in Hgone. lia.
Qed.

Definition lose_shards (segmentID : string) (lost : list nat) (s : LocalStore) : LocalStore :=
  match ls_segments s !! segmentID with
  | Some (ShardDir files) => s <| ls_segments := <[segmentID := ShardDir (lost_files lost files)]> (ls_segments s) |>
  | _ => s
  end.

(** *** Sizes *)

Lemma read_shards_length count shardID shardSize size reader shards rest :
  0 < shardSize -> read_shards count shardID shardSize size reader = Some (shards, rest) ->
  str_len reader = str_len rest + (Z.max 0 (size - Z.of_nat shardID * shardSize)
                                   - Z.max 0 (size - Z.of_nat (shardID + count) * shardSize)).
Proof.
  intros Hss. unfold str_len. revert shardID reader shards. induction count as [|count IH]; intros shardID reader shards Hr.
  { simpl in Hr. simplify_eq. rewrite Nat.add_0_r. lia. }
  cbn [read_shards] in Hr. set (start := Z.of_nat shardID * shardSize) in *.
  set (n := Z.to_nat _) in *. destruct (Nat.ltb_spec (String.length reader) n) as [|Hge]; [done|].
  destruct (read_shards count _ _ _ _) as [[shards' rest']|] eqn:Hr'; [|done]. simpl in Hr. simplify_eq.
  apply IH in Hr'. rewrite length_drop_str in Hr'.
  assert (Z.of_nat n = Z.max 0 (size - start) - Z.max 0 (size - start - shardSize)) as Hn.
  { unfold n. destruct (Z.ltb_spec start size); lia. }
  replace (S shardID + count)%nat with (shardID + S count)%nat in Hr' by lia.
  replace (Z.of_nat (S shardID) * shardSize) with (start + shardSize) in Hr' by (unfold start; lia). lia.
Qed.

Lemma ceil_covers size d : 0 < size -> 0 < d -> size <= d * Z.max (ceilDivInt size d) 1.
Proof.
  intros Hs Hd. unfold ceilDivInt. destruct (Z.leb_spec d 0); [lia|]. destruct (Z.leb_spec size 0); [lia|]. simpl.
  pose proof (Z.div_mod (size + d - 1) d ltac:(lia)). pose proof (Z.mod_pos_bound (size + d - 1) d Hd). nia.
Qed.

(** *** Numbers in parameters *)

Lemma atoi_Itoa z : 0 <= z < 2 ^ 63 -> atoi_value (Itoa z) = z.
Proof.
  intros Hz. pose proof (parse_Itoa z ltac:(lia)) as Hp. unfold atoi_value.
  destruct (String.list_ascii_of_string (Itoa z)) as [|c rest] eqn:Hl; [simpl in Hp; simplify_eq; lia|].
  assert (forall x, x ∈ c :: rest -> byte_in 48 57 x = true) as Hd by (eapply parse_digits_all; exact Hp).
  assert (all_digits (c :: rest) = true) as Hall.
  { unfold all_digits. apply forallb_forall. intros x Hx. by apply Hd, list_elem_of_In. }
  pose proof (Hd c ltac:(by left)) as Hc. unfold byte_in, byte_is in *.
  rewrite andb_true_iff, !N.leb_le in Hc. destruct (N.eqb_spec (N_of_ascii c) 45); [lia|].
  destruct (N.eqb_spec (N_of_ascii c) 43); [lia|]. rewrite Hall, Hp. simpl. lia.
Qed.

Lemma ec_parameters_data d p shardSize size : param (ec_parameters d p shardSize size) ParamDataShards = Itoa (Z.of_nat d).
Proof. unfold param, ec_parameters. by rewrite lookup_insert_eq. Qed.

Lemma ec_parameters_parity d p shardSize size : param (ec_parameters d p shardSize size) ParamParityShards = Itoa (Z.of_nat p).
Proof. unfold param, ec_parameters. by rewrite lookup_insert_ne, lookup_insert_eq. Qed.

Lemma parse_digits_nonneg acc l : 0 <= acc -> 0 <= default 0 (parse_digits acc l).
Proof.
  revert acc. induction l as [|c l IH]; intros acc Ha; simpl; [done|].
  destruct (byte_in 48 57 c) eqn:Hc; [|done]. apply IH. unfold byte_in in Hc. rewrite andb_true_iff, !N.leb_le in Hc. lia.
Qed.

Lemma atoi_value_max text : atoi_value text < 2 ^ 63.
Proof.
  unfold atoi_value. destruct (String.list_ascii_of_string text) as [|c rest]; [lia|].
  destruct (byte_is 45 c); [|lia]. destruct rest as [|c' rest]; [lia|]. destruct (all_digits _); [|lia].
  pose proof (parse_digits_nonneg 0 (c' :: rest) ltac:(lia)). lia.
Qed.

(** ** The laws of the store *)

Section Laws.
Context `{ReedSolomonLaws}.

(** A new identifier is drawn and not empty. *)
Lemma newSegmentID_ok s id s' :
  newSegmentID s = (Ok id, s') -> id <> "" /\ ls_segments s' = ls_segments s.
Proof.
  unfold newSegmentID. destruct (Nat.ltb_spec (length (ls_entropy s)) 16) as [|Hge]; intros; simplify_eq. split; [|done].
  destruct (ls_entropy s) as [|c l]; [simpl in Hge; lia|]. simpl. intros Hnil. apply (f_equal String.length) in Hnil.
  rewrite str_length_app in Hnil. simpl in Hnil. lia.
Qed.

(** A successful put of an erasure-coded segment: the payload in padded shards. *)
Record ec_put (req : PutSegmentRequest) (s : LocalStore) (ref : SegmentRef) (s' : LocalStore) (d p : nat) (shards : list string) : Prop := {
  ec_config : ecShardConfigFromRef ref = Ok (d, p);
  ec_parity : Z.of_nat p = intParam (scs_Parameters (put_StorageClass req)) ParamParityShards;
  ec_new : rs_New d p = true;
  ec_count : length shards = d;
  ec_even : exists size, Forall (fun x => String.length x = size) shards;
  ec_payload : exists pad, concat_shards shards = put_Reader req +:+ pad;
  ec_size : sr_SizeBytes ref = str_len (put_Reader req);
  ec_bound : sr_SizeBytes ref < 2 ^ 63;
  ec_layout : pls_Layout (sr_Placement ref) = ecLayout;
  ec_named : sr_SegmentID ref <> "";
  ec_stored : ls_segments s' =
    <[sr_SegmentID ref := ShardDir (shard_files (shards ++ rs_Encode d p shards)%list)]> (ls_segments s)
}.

Lemma putEC_ok req s ref s' :
  0 <= put_SizeBytes req -> putECSegment req s = (Ok ref, s') -> exists d p shards, ec_put req s ref s' d p shards.
Proof.
  intros Hpos. unfold putECSegment. destruct (Z.eqb_spec (put_SizeBytes req) 0) as [|Hnz]; [done|].
  destruct (Z.ltb_spec (2 ^ 63 - 1) (put_SizeBytes req)) as [|Hmax]; [done|]. unfold st_bind at 1, st_lift, ecShardConfig.
  set (dz := intParam _ ParamDataShards). set (pz := intParam _ ParamParityShards).
  destruct (Z.leb_spec dz 0) as [|Hd]; [done|]. destruct (Z.leb_spec pz 0) as [|Hp]; [done|]. cbv [orb].
  cbn [fst snd]. set (d := Z.to_nat dz). set (p := Z.to_nat pz). destruct (rs_New d p) eqn:Hnew; [|done]. cbn [negb].
  set (ss := Z.max (ceilDivInt _ _) 1). pose proof (ceil_covers (put_SizeBytes req) (Z.of_nat d) ltac:(lia) ltac:(lia)) as Hcov. fold ss in Hcov.
  assert (0 < ss) as Hss by (unfold ss; lia).
  destruct (read_shards d 0 ss (put_SizeBytes req) (put_Reader req)) as [[shards rest]|] eqn:Hr; [|done].
  destruct (String.eqb_spec rest "") as [->|]; [|done]. cbn [negb].
  pose proof (read_shards_length _ _ _ _ _ _ _ Hss Hr) as Hlen. change (str_len "") with 0 in Hlen. rewrite Nat.add_0_l in Hlen.
  assert (str_len (put_Reader req) = put_SizeBytes req) as Hsize by nia.
  destruct (read_shards_spec d 0 ss (put_SizeBytes req) (put_Reader req) Hss) as (shards' & rest' & pad & Hr' & Hcnt & Hall & _ & Hcat); [lia|].
  rewrite Hr' in Hr. injection Hr as -> ->. rewrite str_app_nil_r in Hcat.
  unfold st_bind at 1. destruct (newSegmentID s) as [[id|] s1] eqn:Hid; [|done]. destruct (newSegmentID_ok _ _ _ Hid) as [Hne Hseg].
  unfold st_bind at 1. cbn beta iota zeta. destruct (ls_segments s1 !! id); [done|]. unfold st_bind, st_modify, ls_now, st_ret.
  intros [= <- <-]. field_simpl. exists d, p, shards.
  split; cbn [sr_SegmentID sr_SizeBytes sr_Placement pls_Layout pls_Parameters sr_StorageClass]; try done; [| lia | by eexists | by exists pad | lia |].
  2:{ field_simpl. by rewrite Hseg. }
  unfold ecShardConfigFromRef, intParam. cbn [sr_Placement pls_Parameters].
  rewrite ec_parameters_data, ec_parameters_parity.
  pose proof (atoi_value_max (param (scs_Parameters (put_StorageClass req)) ParamDataShards)).
  pose proof (atoi_value_max (param (scs_Parameters (put_StorageClass req)) ParamParityShards)).
  unfold dz, pz, intParam in *. rewrite !atoi_Itoa by lia.
  assert ((Z.of_nat d <=? 0) = false) as Ed by lia. assert ((Z.of_nat p <=? 0) = false) as Ep by lia.
  cbv zeta. rewrite Ed, Ep, ?Ed, ?Ep. cbn [orb]. by rewrite !Nat2Z.id.
Qed.

(** Reading an erasure-coded segment of which enough shard files are left. *)
Lemma getEC_ok req s ref s' d p shards files s2 off length :
  ec_put req s ref s' d p shards ->
  ls_segments s2 !! sr_SegmentID ref = Some (ShardDir files) ->
  files ⊆ shard_files (shards ++ rs_Encode d p shards)%list -> (missing (read_dir files (d + p)) <= p)%nat ->
  0 <= off <= str_len (put_Reader req) -> 0 <= length < 2 ^ 63 ->
  getECSegment ref off length s2 = read_range (put_Reader req) off length.
Proof.
  intros [Hcfg _ Hnew Hcnt [size Heven] [pad Hpay] Hsize Hmax _ _ _] Hs2 Hsub Hmiss Hoff Hlen.
  unfold getECSegment. rewrite Hsize. destruct (Z.ltb_spec (str_len (put_Reader req)) off); [lia|].
  rewrite Hcfg, Hnew, Hs2. cbn [negb]. set (all := (shards ++ rs_Encode d p shards)%list) in *.
  assert (List.length all = d + p)%nat as Hall.
  { unfold all. rewrite length_app, Hcnt, rs_Encode_length; done. }
  pose proof (read_dir_survives all files Hsub) as Hsurv. rewrite Hall in Hsurv.
  rewrite (rs_Reconstruct_spec d p size shards _ Hnew Hcnt Heven Hsurv Hmiss). fold all.
  assert (take d all = shards) as Htake by (unfold all; rewrite <- Hcnt; apply take_app_length).
  rewrite int64_id by (unfold str_len in *; lia). unfold str_len. rewrite Nat2Z.id.
  rewrite rs_Join_spec; rewrite ?Htake, ?Hpay, ?str_length_app; [|lia|lia]. rewrite take_str_app.
  unfold read_range, str_len. destruct (Z.ltb_spec (Z.of_nat (String.length (put_Reader req))) off); [unfold str_len in *; lia|].
  set (data := put_Reader req) in *. unfold str_len in *. unfold uint64. rewrite Z.mod_small by lia.
  destruct (Z.eqb_spec length 0) as [->|Hnz].
  - simpl. destruct (Z.ltb_spec (Z.of_nat (String.length data)) off); [lia|]. f_equal.
    replace (Z.to_nat (Z.of_nat (String.length data) - off)) with (String.length (drop_str (Z.to_nat off) data))
      by (rewrite length_drop_str; lia). apply take_str_whole.
  - rewrite (proj2 (Z.ltb_lt 0 length)) by lia. cbn [andb]. rewrite int64_id by lia.
    destruct (Z.ltb_spec (off + length) (Z.of_nat (String.length data))).
    + destruct (Z.ltb_spec (off + length) off); [lia|]. f_equal. f_equal. lia.
    + destruct (Z.ltb_spec (Z.of_nat (String.length data)) off); [lia|]. f_equal.
      rewrite !take_str_all; [done | rewrite length_drop_str; lia..].
Qed.

(** *** The interface *)

Lemma putPlain_ok req s ref s' :
  putPlainSegment req s = (Ok ref, s') ->
  sr_SegmentID ref <> "" /\ pls_Layout (sr_Placement ref) <> ecLayout /\ sr_SizeBytes ref = str_len (put_Reader req) /\
  ls_segments s' = <[sr_SegmentID ref := PlainFile (put_Reader req)]> (ls_segments s).
Proof.
  unfold putPlainSegment. destruct (_ && _); [done|]. unfold st_bind at 1.
  destruct (newSegmentID s) as [[id|] s1] eqn:Hid; [|done]. destruct (newSegmentID_ok _ _ _ Hid) as [Hne Hseg].
  unfold st_bind at 1. cbn beta iota zeta. destruct (match ls_segments s1 !! id with Some (ShardDir _) => true | _ => false end); [done|].
  unfold st_bind, st_modify, ls_now, st_ret. intros [= <- <-]. cbn [sr_SegmentID sr_Placement pls_Layout]. field_simpl. by rewrite Hseg.
Qed.

(** Whatever a put does to the directory, it does under the new identifier. *)
Lemma put_only req s r s' :
  LocalStore_PutSegment req s = (r, s') ->
  ls_segments s' = ls_segments s \/ exists ref n, r = Ok ref /\ ls_segments s' = <[sr_SegmentID ref := n]> (ls_segments s).
Proof.
  unfold LocalStore_PutSegment. destruct (_ =s ""); [intros [= <- <-]; by left|].
  destruct (isECStorageClass _).
  - unfold putECSegment. repeat first [destruct (_ =? 0); [intros [= <- <-]; by left|] | destruct (_ <? _); [intros [= <- <-]; by left|]].
    unfold st_bind at 1, st_lift. destruct (ecShardConfig _) as [[d p]|]; [|intros [= <- <-]; by left].
    cbn [fst snd]. destruct (rs_New d p); [|intros [= <- <-]; by left]. cbn [negb].
    destruct (read_shards _ _ _ _ _) as [[data rest]|]; [|intros [= <- <-]; by left].
    destruct (rest =s ""); [|intros [= <- <-]; by left]. cbn [negb].
    unfold st_bind at 1. destruct (newSegmentID s) as [[id|] s1] eqn:Hid.
    2:{ unfold newSegmentID in Hid. destruct (_ <? _)%nat; intros; simplify_eq; by left. }
    destruct (newSegmentID_ok _ _ _ Hid) as [_ Hseg].
    unfold st_bind at 1. cbn beta iota zeta. destruct (ls_segments s1 !! id); [intros [= <- <-]; left; congruence|].
    unfold st_bind, st_modify, ls_now, st_ret. intros [= <- <-]. right. eexists _, _. split; [done|].
    cbn [sr_SegmentID]. field_simpl. by rewrite Hseg.
  - destruct r as [ref|e].
    { intros (_ & _ & _ & Hs)%putPlain_ok. right. by eexists _, _. }
    unfold putPlainSegment. destruct (_ && _); [intros [= <- <-]; by left|]. unfold st_bind at 1.
    destruct (newSegmentID s) as [[id|] s1] eqn:Hid.
    2:{ unfold newSegmentID in Hid. destruct (_ <? _)%nat; intros; simplify_eq; by left. }
    destruct (newSegmentID_ok _ _ _ Hid) as [_ Hseg].
    unfold st_bind at 1. cbn beta iota zeta. destruct (match ls_segments s1 !! id with Some (ShardDir _) => true | _ => false end);
      [intros [= <- <-]; left; congruence|]. done.
Qed.

(** What a segment holds; of shards, no more than the reference says. *)
Definition local_bytes (s : LocalStore) (ref : SegmentRef) : option string :=
  match LocalStore_GetSegment ref 0 0 s with
  | Ok data => if negb (pls_Layout (sr_Placement ref) =s ecLayout) || (str_len data <=? sr_SizeBytes ref) then Some data else None
  | Fail _ => None
  end.

(** Reading looks at one entry of the directory. *)
Lemma GetSegment_local ref off length s s' :
  ls_segments s !! sr_SegmentID ref = ls_segments s' !! sr_SegmentID ref ->
  LocalStore_GetSegment ref off length s = LocalStore_GetSegment ref off length s'.
Proof. intros Heq. unfold LocalStore_GetSegment, getECSegment. by rewrite Heq. Qed.

Lemma read_whole data : read_range data 0 0 = Ok data.
Proof. unfold read_range, str_len. destruct (Z.ltb_spec (Z.of_nat (String.length data)) 0); [lia|]. by rewrite drop_str_0. Qed.

(** The shard files an erasure-coded put leaves behind. *)
Lemma ec_put_read req s ref s' d p shards lost s2 off length :
  ec_put req s ref s' d p shards ->
  ls_segments s2 !! sr_SegmentID ref = Some (ShardDir (lost_files lost (shard_files (shards ++ rs_Encode d p shards)%list))) ->
  (List.length lost <= p)%nat -> 0 <= off <= str_len (put_Reader req) -> 0 <= length < 2 ^ 63 ->
  LocalStore_GetSegment ref off length s2 = read_range (put_Reader req) off length.
Proof.
  intros Hput Hs2 Hlost Hoff Hlen. unfold LocalStore_GetSegment.
  rewrite (proj2 (String.eqb_neq _ _) (ec_named _ _ _ _ _ _ _ Hput)), (proj2 (String.eqb_eq _ _) (ec_layout _ _ _ _ _ _ _ Hput)).
  eapply getEC_ok; [exact Hput | exact Hs2 | apply lost_files_subseteq | | done..].
  etransitivity; [|exact Hlost]. etransitivity; [|apply (missing_lost (shards ++ rs_Encode d p shards)%list lost)].
  rewrite length_app, (ec_count _ _ _ _ _ _ _ Hput), rs_Encode_length; [done | apply Hput].
Qed.

Lemma local_put_bytes req s ref s' :
  0 <= put_SizeBytes req -> LocalStore_PutSegment req s = (Ok ref, s') ->
  local_bytes s' ref = Some (put_Reader req) /\ sr_SegmentID ref <> "" /\ sr_SizeBytes ref = str_len (put_Reader req).
Proof.
  intros Hpos. unfold LocalStore_PutSegment, local_bytes. destruct (_ =s ""); [done|]. destruct (isECStorageClass _).
  - intros (d & p & shards & Hput)%putEC_ok; [|done].
    rewrite (ec_put_read _ _ _ _ _ _ _ [] s' 0 0 Hput), read_whole; [| |simpl; lia|unfold str_len; lia|lia].
    { rewrite (ec_size _ _ _ _ _ _ _ Hput), Z.leb_refl, orb_true_r. split_and!; [done | apply Hput | done]. }
    rewrite (ec_stored _ _ _ _ _ _ _ Hput), lookup_insert_eq. done.
  - intros (Hne & Hlay & Hsize & Hseg)%putPlain_ok. unfold LocalStore_GetSegment.
    rewrite (proj2 (String.eqb_neq _ _) Hne), (proj2 (String.eqb_neq _ _) Hlay), Hseg, lookup_insert_eq, read_whole. done.
Qed.

(** A range of a segment that reads whole. *)
Lemma local_get_range s ref bytes off len :
  local_bytes s ref = Some bytes -> 0 <= off -> 0 < len -> off + len <= str_len bytes -> str_len bytes < 2 ^ 63 ->
  LocalStore_GetSegment ref off len s = Ok (take_str (Z.to_nat len) (drop_str (Z.to_nat off) bytes)).
Proof.
  unfold local_bytes. intros Hb Hoff Hlen Hin Hmax. destruct (LocalStore_GetSegment ref 0 0 s) as [data|] eqn:Hget; [|done].
  revert Hget Hb. unfold LocalStore_GetSegment. destruct (_ =s ""); [done|]. destruct (_ =s ecLayout); cbn [negb orb]; intros Hget Hb.
  - destruct (Z.leb_spec (str_len data) (sr_SizeBytes ref)) as [Hsize|]; simplify_eq. revert Hget. unfold getECSegment. destruct (Z.ltb_spec (sr_SizeBytes ref) 0), (Z.ltb_spec (sr_SizeBytes ref) off); try done; [lia..|].
    destruct (ecShardConfigFromRef ref) as [[d p]|]; [|done]. destruct (negb _); [done|].
    destruct (ls_segments s !! _) as [[|files]|]; [done| |done]. destruct (rs_Reconstruct _ _ _) as [shards|]; [|done].
    destruct (rs_Join _ _ _) as [data|]; [|done]. cbn [Z.ltb Z.compare andb].
    destruct (Z.ltb_spec (str_len data) 0); [unfold str_len in *; lia|].
    rewrite Z.sub_0_r, drop_str_0. unfold str_len at 1. rewrite Nat2Z.id, take_str_whole. intros [= ->].
    rewrite (proj2 (Z.ltb_lt 0 len)) by lia. cbn [andb]. unfold uint64. rewrite Z.mod_small by lia.
    destruct (Z.ltb_spec (off + len) (str_len bytes)).
    + destruct (Z.ltb_spec (off + len) off); [lia|]. do 2 f_equal. lia.
    + destruct (Z.ltb_spec (str_len bytes) off); [lia|]. do 2 f_equal. lia.
  - simplify_eq. revert Hget. destruct (ls_segments s !! _) as [[data|]|]; [|done..]. rewrite read_whole. intros [= ->]. unfold read_range.
    destruct (Z.ltb_spec (str_len bytes) off); [lia|]. destruct (Z.eqb_spec len 0); [lia|]. by rewrite int64_id by lia.
Qed.

Lemma local_delete ref reason s r s' :
  LocalStore_DeleteSegment ref reason s = (r, s') ->
  (exists e, r = Fail e /\ s' = s) \/ r = Ok tt /\ ls_segments s' = delete (sr_SegmentID ref) (ls_segments s).
Proof.
  unfold LocalStore_DeleteSegment, forget. destruct (_ =s ""); [intros [= <- <-]; eauto|].
  destruct (_ =s ecLayout).
  - intros [= <- <-]. right. by field_simpl.
  - unfold st_bind. destruct (ls_segments s !! sr_SegmentID ref) as [[]|]; intros [= <- <-]; eauto.
Qed.

#[export] Instance LocalStore_laws : SegmentStoreLaws LocalStore.
Proof.
  refine {| segment_bytes := local_bytes |}.
  - intros s ref bytes. unfold local_bytes. simpl. destruct (LocalStore_GetSegment ref 0 0 s); [|done].
    destruct (negb _ || _); intros; by simplify_eq.
  - exact local_get_range.
  - done.
  - intros req s ref s' Hpos Hput. by destruct (local_put_bytes _ _ _ _ Hpos Hput).
  - intros req s ref s' Hpos Hput. by destruct (local_put_bytes _ _ _ _ Hpos Hput) as [_ ?].
  - intros req s r s' ref' Hput Hne. unfold local_bytes. erewrite GetSegment_local; [done|].
    destruct (put_only _ _ _ _ Hput) as [->|(ref & n & -> & ->)]; [done|].
    rewrite lookup_insert_ne; [done | by apply Hne].
  - intros ref reason s r s' ref' Hdel Hne. unfold local_bytes. erewrite GetSegment_local; [done|].
    destruct (local_delete _ _ _ _ _ Hdel) as [(e & _ & ->)|[_ ->]]; [done|]. by rewrite lookup_delete_ne.
  - intros ref reason s s' Hdel. destruct (local_delete _ _ _ _ _ Hdel) as [(e & ? & _)|[_ Hseg]]; [done|].
    unfold local_bytes, LocalStore_GetSegment, getECSegment. rewrite Hseg, lookup_delete_eq.
    repeat (case_match; try done).
Defined.

(** C9: an erasure-coded segment stays readable, at every offset and
    length, when as many of its shard files are lost as the storage class has parity
    shards: [GetSegment] returns exactly the requested range of what was put. *)
Theorem ec_segment_survives_shard_loss req s ref s' lost off length :
  0 <= put_SizeBytes req -> isECStorageClass (put_StorageClass req) = true ->
  LocalStore_PutSegment req s = (Ok ref, s') ->
  Z.of_nat (List.length lost) <= intParam (scs_Parameters (put_StorageClass req)) ParamParityShards ->
  0 <= off <= str_len (put_Reader req) -> 0 <= length < 2 ^ 63 ->
  LocalStore_GetSegment ref off length (lose_shards (sr_SegmentID ref) lost s') = read_range (put_Reader req) off length.
Proof.
  intros Hpos Hec Hput Hlost. unfold LocalStore_PutSegment in Hput. destruct (_ =s ""); [done|]. rewrite Hec in Hput.
  destruct (putEC_ok _ _ _ _ Hpos Hput) as (d & p & shards & Hok). rewrite <- (ec_parity _ _ _ _ _ _ _ Hok) in Hlost.
  eapply (ec_put_read _ _ _ _ _ _ _ lost); [exact Hok| |lia]. unfold lose_shards. rewrite (ec_stored _ _ _ _ _ _ _ Hok), lookup_insert_eq.
  field_simpl. by rewrite lookup_insert_eq.
Qed.
End Laws.

(** ** A code with one parity shard

    Two data shards and their exclusive or: the smallest Reed-Solomon code, for which
    the laws hold. *)

Definition xor_ascii (a b : ascii) : ascii :=
  match a, b with
  | Ascii a0 a1 a2 a3 a4 a5 a6 a7, Ascii b0 b1 b2 b3 b4 b5 b6 b7 =>
      Ascii (xorb a0 b0) (xorb a1 b1) (xorb a2 b2) (xorb a3 b3) (xorb a4 b4) (xorb a5 b5) (xorb a6 b6) (xorb a7 b7)
  end.
Fixpoint xor_str (a b : string) : string :=
  match a, b with String x a', String y b' => String (xor_ascii x y) (xor_str a' b') | _, _ => "" end.

Lemma xor_str_self a b : String.length a = String.length b -> xor_str a (xor_str a b) = b /\ xor_str (xor_str a b) b = a.
Proof.
  revert b. induction a as [|x a IH]; intros [|y b] Hlen; try done. simpl in Hlen. cbn [xor_str]. destruct (IH b) as [-> ->]; [lia|].
  destruct x as [a0 a1 a2 a3 a4 a5 a6 a7], y as [b0 b1 b2 b3 b4 b5 b6 b7]. simpl.
  rewrite !xorb_assoc, !xorb_nilpotent, !xorb_false_r, <- !xorb_assoc, !xorb_nilpotent, !xorb_false_l. done.
Qed.

Definition xor_parity (data : list string) : string := match data with [a; b] => xor_str a b | _ => "" end.

#[export] Instance xor_code : ReedSolomon := {|
  rs_New d p := (d =? 2)%nat && (p =? 1)%nat;
  rs_Encode d p data := replicate p (xor_parity data);
  rs_Reconstruct d p read :=
    match read with
    | [Some a; Some b; _] => Some [a; b; xor_str a b]
    | [Some a; None; Some c] => Some [a; xor_str a c; c]
    | [None; Some b; Some c] => Some [xor_str c b; b; c]
    | _ => None
    end;
  rs_Join d shards n :=
    let data := concat_shards (take d shards) in
    if (d <=? length shards)%nat && (n <=? String.length data)%nat then Some (take_str n data) else None
|}.

#[export] Instance xor_code_laws : ReedSolomonLaws.
Proof.
  split.
  - intros d p Hnew. simpl in Hnew. rewrite andb_true_iff, !Nat.eqb_eq in Hnew. lia.
  - intros d p data _. apply length_replicate.
  - intros d p size data read Hnew Hlen Hall Hsurv Hmiss. simpl in Hnew. rewrite andb_true_iff, !Nat.eqb_eq in Hnew.
    destruct Hnew as [-> ->]. destruct data as [|a [|b [|? ?]]]; try done. simpl in Hsurv |- *.
    rewrite !Forall_cons in Hall. destruct Hall as (Ha & Hb & _). destruct (xor_str_self a b) as [E1 E2]; [congruence|].
    unfold survives in Hsurv. repeat match goal with H : Forall2 _ _ _ |- _ => inversion H; subst; clear H end.
    unfold missing in Hmiss.
    repeat match goal with H : ?r = Some _ \/ ?r = None |- _ => destruct H as [-> | ->] end; simpl in *; try lia; by rewrite ?E1, ?E2.
  - intros d shards n Hd Hn. simpl. by rewrite (proj2 (Nat.leb_le _ _) Hd), (proj2 (Nat.leb_le _ _) Hn).
Qed.

Definition ex_ec_request : PutSegmentRequest :=
  mkPutSegmentRequest "hello" 5 (zero_StorageClassSnapshot <| scs_StorageClassID := "ec" |>
    <| scs_Parameters := <[ParamRedundancyBackend := RedundancyErasureCode]> (<[ParamDataShards := "2"]> (<[ParamParityShards := "1"]> ∅)) |>).
Definition ex_store : LocalStore := mkLocalStore ∅ ∅ (replicate 64 Ascii.one) [].
Definition ok_or {E A} (d : A) (r : outcome E A) : A := match r with Ok a => a | Fail _ => d end.
Definition is_ok {E A} (r : outcome E A) : bool := match r with Ok _ => true | Fail _ => false end.
Definition ex_ec_ref : SegmentRef := ok_or zero_SegmentRef (LocalStore_PutSegment ex_ec_request ex_store).1.

Lemma ok_run {S E A} (m : ST S E A) s a : is_ok (m s).1 = true -> m s = (Ok (ok_or a (m s).1), (m s).2).
Proof. by destruct (m s) as [[] s']. Qed.

Lemma ec_segment_survives_shard_loss_witness :
  LocalStore_GetSegment ex_ec_ref 1 3
    (lose_shards (sr_SegmentID ex_ec_ref) [0%nat] (LocalStore_PutSegment ex_ec_request ex_store).2) = Ok "ell".
Proof.
  transitivity (read_range "hello" 1 3); [|reflexivity].
  apply (ec_segment_survives_shard_loss ex_ec_request ex_store).
  - vm_compute. done.
  - vm_compute. reflexivity.
  - apply (ok_run (LocalStore_PutSegment ex_ec_request)). vm_compute. reflexivity.
  - vm_compute. done.
  - vm_compute. done.
  - vm_compute. done.
Defined.
