(* ===== verification/WorkerSafety.v ===== *)
(** * WorkerSafety: what a background worker leaves alone

    The frame of the safety proofs of the background workers. A version in COMPLIANCE
    mode and one of its segments are fixed; [spares] relates two worlds between which
    the segment's bytes did not change, as long as the log of repository calls is
    [quiet] and the retention has not expired. The rules carry [spares] through a
    worker's code; what remains for each worker is to show that it deletes other segments only. *)

From S2P Require Import Prelude GoLib Sha256 StorageTypes Model Requests Encoding Meta Manifest Repo RepoLogic.
From S2P Require Import RepoBuckets RepoObjects RepoOps RepoShared RepoCalls ObjInv RepoExample Worm ProtRefs Segments.
Open Scope string_scope.
Open Scope Z_scope.

Lemma run_all_app `{Env} l1 l2 s : run_all (l1 ++ l2)%list s = run_all l2 (run_all l1 s).
Proof. unfold run_all. by rewrite foldl_app. Qed.

(** A demand on every state a log goes through. *)
Lemma forallb_trace_app `{Env} (f : Repository -> bool) l1 l2 s :
  forallb f (trace (l1 ++ l2)%list s) = true -> forallb f (trace l1 s) = true.
Proof.
  revert s. induction l1 as [|c l1 IH]; intros s; simpl.
  - destruct l2; simpl; rewrite ?andb_true_iff; tauto.
  - rewrite !andb_true_iff. intros [? ?]. split; [done | by apply IH].
Qed.

Lemma forallb_trace_last `{Env} (f : Repository -> bool) l s :
  forallb f (trace l s) = true -> f (run_all l s) = true.
Proof.
  revert s. induction l as [|c l IH]; intros s; simpl; rewrite andb_true_iff; [tauto|]. intros [_ Hl]. by apply IH.
Qed.

(** A demand on logs that a log's beginning meets when the log does. *)
Class PrefixClosed (quiet : list call -> bool) : Prop :=
  prefix_closed l1 l2 : quiet (l1 ++ l2)%list = true -> quiet l1 = true.

Section Spares.
Context `{Env, !GeneratorOk} {D : Type} `{SegmentStoreLaws D}.
Context (others : nat -> list call).

(** What is asked of the log, from the new repository on. *)
Context (quiet : list call -> bool) `{!PrefixClosed quiet}.

Context (l0 : list call) (k : versionKey) (v : ObjectVersion) (seg : SegmentRef).
Abbreviation s0 := (run_all l0 NewWithClock).

(** The world is where its log says, and the log starts with [l0]. *)
Definition from_start (w : World D) : Prop :=
  exists l, w_log w = (l0 ++ l)%list /\ w_repo w = run_all l s0.

(** Until here the log is quiet and the retention did not expire. *)
Definition calm (w : World D) : Prop :=
  quiet (w_log w) = true /\
  forall i, (clock_calls s0 <= i < clock_calls (w_repo w))%nat -> env_now i < retain_until v.

Definition spares (w w' : World D) : Prop :=
  extends w w' /\ (from_start w -> calm w' -> segment_bytes (w_store w') seg = segment_bytes (w_store w) seg).

Lemma from_start_extends w w' : extends w w' -> from_start w -> from_start w'.
Proof.
  intros (l2 & E2 & F2) (l1 & E1 & F1). exists (l1 ++ l2)%list. rewrite E2, F2, E1, F1, app_assoc, run_all_app. done.
Qed.

Lemma calm_before w w' : extends w w' -> calm w' -> calm w.
Proof.
  intros (l & El & Fl) [Hn Ht]. rewrite El in Hn. split; [by eapply prefix_closed|].
  intros i Hi. apply Ht. rewrite Fl. pose proof (run_all_clock l (w_repo w)). lia.
Qed.

#[export] Instance spares_refl : Reflexive spares.
Proof. intros w. split; [reflexivity | done]. Qed.
#[export] Instance spares_trans : Transitive spares.
Proof.
  intros w1 w2 w3 [E1 B1] [E2 B2]. split; [by etrans|]. intros Hs Hc. rewrite B2, B1; [done|done| | |done].
  - by eapply calm_before.
  - by eapply from_start_extends.
Qed.

(** Whatever leaves the store alone spares the segment. *)
Lemma spares_store {A} (m : W A) : preserves extends m -> frames w_store m -> preserves spares m.
Proof. intros He Hf w. split; [apply He|]. intros _ _. by rewrite (Hf w). Qed.

Lemma meta_call_spares {A} c (m : M A) : run c = discard m -> preserves spares (meta_call others c m).
Proof. intros Hc. apply spares_store; [by apply meta_call_extends | by intros w]. Qed.

Lemma meta_read_spares {A} (m : M A) : (forall s, st_exec m s = s) -> preserves spares (meta_read others m).
Proof. intros Hm. apply spares_store; [by apply meta_read_extends | by intros w]. Qed.

Lemma worker_now_spares : preserves spares worker_now.
Proof. apply spares_store; [apply worker_now_extends | by intros w]. Qed.

(** The locked version is still there after any further calls. *)
Lemma still_locked w l :
  locked_version k v s0 -> retention_mode v = ObjectLockModeCompliance ->
  from_start w -> calm (w <| w_repo := run_all l (w_repo w) |> <| w_log := (w_log w ++ l)%list |>) ->
  exists v', locked_version k v' (run_all l (w_repo w)) /\ content v' = content v /\ retain_until v <= retain_until v' /\
             retention_mode v' = ObjectLockModeCompliance.
Proof.
  intros Hlock Hcomp (l1 & E1 & F1) [Hn Ht]. rewrite F1, <- run_all_app.
  destruct (compliance_run (l1 ++ l)%list s0 k v) as (v' & ? & ? & ? & ?); [apply run_all_steps | done.. | | by exists v'].
  intros i Hi. apply Ht. rewrite F1, <- run_all_app. done.
Qed.

(** Deleting another segment. *)
Lemma delete_spares ref reason : sr_SegmentID ref <> sr_SegmentID seg -> preserves spares (seg_call (DeleteSegment ref reason)).
Proof.
  intros Hne w. split; [apply seg_call_extends|]. intros _ _. unfold seg_call, st_exec. cbv zeta.
  destruct (DeleteSegment ref reason (w_store w)) as [r d'] eqn:Hd. exact (delete_frame _ _ _ _ _ _ Hd Hne).
Qed.

(** What comes after [m] may rely on what [m] found in a calm world. *)
Lemma spares_after {A B} (m : W A) (f : A -> W B) w :
  preserves spares m -> (forall a, preserves extends (f a)) ->
  (from_start w -> calm (st_exec m w) -> forall a, (m w).1 = Ok a -> preserves spares (f a)) ->
  spares w (st_exec (st_bind m f) w).
Proof.
  intros Hm Hx Hf. pose proof (Hm w) as [Hmx Hmb]. unfold st_exec, st_bind in *.
  destruct (m w) as [[a|e] w1]; simpl in *; [|by split]. pose proof (Hx a w1) as Hx1. unfold st_exec in Hx1.
  split; [by etrans|]. intros Hs Hc. assert (calm w1) as Hc1 by (by eapply calm_before).
  destruct (Hf Hs Hc1 a eq_refl w1) as [_ Hb]. unfold st_exec in Hb.
  rewrite Hb; [by apply Hmb | by eapply from_start_extends | done].
Qed.

End Spares.

#[export] Hint Extern 1 (preserves (spares _ _ _ _) worker_now) => apply worker_now_spares : preserves.
#[export] Hint Extern 1 (preserves (spares _ _ _ _) (meta_call _ _ _)) => apply meta_call_spares; reflexivity : preserves.
#[export] Hint Extern 1 (preserves (spares _ _ _ _) (meta_read _ _)) => apply meta_read_spares; reflexivity : preserves.

(** Through the code of a worker that does not delete segments. *)
Ltac spare :=
  walk ltac:(idtac; lazymatch goal with |- preserves _ (attempt_of _) => apply attempt_preserves; spare end).
