(* ===== verification/Gc.v ===== *)
(** * Gc: the garbage collector of orphaned segments

    The worker of [src/internal/gc/worker.go] with the candidate queue of
    [src/internal/gc/metadata_orphans.go] and the deletion gate of
    [src/internal/gateway/gc.go], as [runGCScheduler] of
    [src/internal/gateway/server.go] wires them. A run lists candidates, asks the
    gate, deletes the segment and takes the candidate off the queue, while other
    callers use the repository. *)

From S2P Require Import Prelude GoLib Sha256 StorageTypes Model Requests Encoding Meta Manifest Repo RepoLogic.
From S2P Require Import RepoBuckets RepoObjects RepoOps RepoShared RepoCalls ObjInv RepoExample Worm ProtRefs Segments.
Open Scope string_scope.
Open Scope Z_scope.

(** ** Records *)

Definition AttemptDeleted : string := "deleted".
Definition AttemptSkipped : string := "skipped".
Definition AttemptRetryable : string := "retryable".

Record AttemptRecord := mkAttemptRecord {
  at_SegmentID : string;
  at_SharedObjectID : string;
  at_Reason : string;
  at_Status : string;
  at_Retryable : bool;
  at_Error : string
}.
#[export] Instance eta_AttemptRecord : RecordEta AttemptRecord := fun r =>
  mkAttemptRecord (at_SegmentID r) (at_SharedObjectID r) (at_Reason r) (at_Status r) (at_Retryable r) (at_Error r).

Record OperationRecord := mkOperationRecord {
  or_ResumeOfOperationID : string;
  or_Status : string;
  or_StartedAt : Time;
  or_FinishedAt : Time;
  or_Scanned : Z;
  or_Deleted : Z;
  or_Skipped : Z;
  or_Retryable : Z;
  or_Attempts : list AttemptRecord
}.
#[export] Instance eta_OperationRecord : RecordEta OperationRecord := fun r =>
  mkOperationRecord (or_ResumeOfOperationID r) (or_Status r) (or_StartedAt r) (or_FinishedAt r) (or_Scanned r)
    (or_Deleted r) (or_Skipped r) (or_Retryable r) (or_Attempts r).

(** Which collaborators the worker was given; an absent one is Go's nil. *)
Record GCWorker := mkGCWorker {
  gcw_Storage : bool;
  gcw_Orphans : bool;
  gcw_Admission : bool;
  gcw_OperationStore : bool;
  gcw_SharedObjectReleases : bool
}.

Definition statusForRecord (record : OperationRecord) (err : option WErr) : string :=
  match err with
  | Some _ => GCOperationFailed
  | None => if 0 <? or_Retryable record then GCOperationRetryPending else GCOperationSucceeded
  end.

Definition hasRetryableAttempt (attempts : list GCOperationAttempt) : bool :=
  existsb (fun attempt => gca_Retryable attempt || (gca_Status attempt =s GCOperationAttemptRetryable)) attempts.

Definition putGCOperationRequest (record : OperationRecord) : PutGCOperationRequest :=
  mkPutGCOperationRequest (or_ResumeOfOperationID record) (or_Status record) (or_StartedAt record) (or_FinishedAt record)
    (or_Scanned record) (or_Deleted record) (or_Skipped record) (or_Retryable record)
    (map (fun a => mkGCOperationAttempt (at_SegmentID a) (at_SharedObjectID a) (at_Reason a) (at_Status a)
                     (at_Retryable a) (at_Error a)) (or_Attempts record)).

(** The four ways an attempt ends. *)
Definition skip (attempt : AttemptRecord) (text : string) (record : OperationRecord) : OperationRecord :=
  record <| or_Skipped := or_Skipped record + 1 |>
    <| or_Attempts := (or_Attempts record ++ [attempt <| at_Status := AttemptSkipped |> <| at_Error := text |>])%list |>.
Definition retry (attempt : AttemptRecord) (text : string) (record : OperationRecord) : OperationRecord :=
  record <| or_Retryable := or_Retryable record + 1 |>
    <| or_Attempts := (or_Attempts record ++
         [attempt <| at_Status := AttemptRetryable |> <| at_Retryable := true |> <| at_Error := text |>])%list |>.
Definition deleted (attempt : AttemptRecord) (record : OperationRecord) : OperationRecord :=
  record <| or_Deleted := or_Deleted record + 1 |>
    <| or_Attempts := (or_Attempts record ++ [attempt <| at_Status := AttemptDeleted |>])%list |>.

Section Run.
Context `{Env} {D : Type} `{SegmentStore D}.
Context (others : nat -> list call) (order : list ProtectedRef -> list ProtectedRef) (error_text : WErr -> string).
Abbreviation W := (W (D := D)).
Abbreviation meta_call := (meta_call others).
Abbreviation meta_read := (meta_read others).

(** ** The candidate queue *)

Definition tracker_ListGCCandidates (limit : Z) : W (list GCCandidate) :=
  let! records := meta_read (ListGCCandidates (mkListGCCandidatesRequest limit)) in
  st_ret (map (fun r => mkGCCandidate (gcr_SegmentRef r) (gcr_Reason r) (gcr_CreatedAt r)) records).

Definition tracker_MarkOrphan (ref : SegmentRef) (reason : string) : W unit :=
  let req := mkPutGCCandidateRequest ref reason in
  meta_call (C_PutGCCandidate req) (PutGCCandidate req) ;;! st_ret tt.

Definition tracker_DeleteGCCandidate (ref : SegmentRef) : W unit :=
  let! r := attempt_of (meta_call (C_DeleteGCCandidate (sr_SegmentID ref)) (DeleteGCCandidate (sr_SegmentID ref))) in
  match r with
  | Fail (MetaErr ErrNotFound) => st_ret tt
  | _ => st_lift r
  end.

(** ** The gate *)

(** [admitProtectedRefSegmentDelete] and the closure of [runGCScheduler] around it:
    no error when no active protected reference names the segment. *)
Definition admitProtectedRefSegmentDelete (ref : SegmentRef) : W bool :=
  if sr_SegmentID ref =s "" then st_ret true
  else
    let req := active_refs_of (sr_SegmentID ref) in
    let! refs := meta_call (C_ListProtectedRefs order req) (ListProtectedRefs order req) in
    st_ret (length refs =? 0)%nat.

Definition gc_Admission (ref : SegmentRef) : W unit :=
  let! admitted := admitProtectedRefSegmentDelete ref in
  fail! (SegErr SegProtected) when negb admitted ;
  st_ret tt.

(** ** One run *)

Definition retryableOperationToResume : W string :=
  let! records := meta_read (ListGCOperations (mkListGCOperationsRequest 1)) in
  match records with
  | [] => st_ret ""
  | r :: _ =>
      if (gco_Status r =s GCOperationRetryPending) || (0 <? gco_Retryable r) || hasRetryableAttempt (gco_Attempts r)
      then st_ret (gco_OperationID r) else st_ret ""
  end.

(** Taking a collected candidate off the queue. *)
Definition acknowledge (ref : SegmentRef) (attempt : AttemptRecord) (record : OperationRecord) : W OperationRecord :=
  let! acked := attempt_of (tracker_DeleteGCCandidate ref) in
  match acked with
  | Fail err => st_ret (retry attempt (error_text err) record)
  | Ok _ => st_ret (deleted attempt record)
  end.

(** The body of the loop over the candidates. *)
Definition collect (worker : GCWorker) (candidate : GCCandidate) (record : OperationRecord) : W OperationRecord :=
  let record := record <| or_Scanned := or_Scanned record + 1 |> in
  let reason := if gcc_Reason candidate =s "" then DeleteReasonManualGC else gcc_Reason candidate in
  let ref := gcc_Ref candidate in
  let attempt := mkAttemptRecord (sr_SegmentID ref) (sr_SharedObjectID ref) reason "" false "" in
  let! admission := (if gcw_Admission worker then attempt_of (gc_Admission ref) else st_ret (Ok tt)) in
  match admission with
  | Fail err => st_ret (skip attempt (error_text err) record)
  | Ok _ =>
      if negb (sr_SharedObjectID ref =s "") then
        if negb (gcw_SharedObjectReleases worker)
        then st_ret (retry attempt "shared object release store is unavailable" record)
        else
          let req := mkPutSharedObjectReleaseRequest (sr_SharedObjectID ref) ref reason SharedObjectReleasePending in
          let! released := attempt_of (meta_call (C_PutSharedObjectRelease req) (PutSharedObjectRelease req)) in
          match released with
          | Fail err => st_ret (retry attempt (error_text err) record)
          | Ok _ => st_ret (skip attempt "shared object release pending" record)
          end
      else
        let! gone := attempt_of (seg_call (DeleteSegment ref reason)) in
        match gone with
        | Fail (SegErr SegNotFound) | Ok _ => acknowledge ref attempt record
        | Fail err => st_ret (retry attempt (error_text err) record)
        end
  end.

Fixpoint collect_all (worker : GCWorker) (candidates : list GCCandidate) (record : OperationRecord) : W OperationRecord :=
  match candidates with
  | [] => st_ret record
  | candidate :: rest => let! record := collect worker candidate record in collect_all worker rest record
  end.

(** The deferred function: the finishing time, and a status unless one is set. *)
Definition finish (record : OperationRecord) (err : option WErr) : W (OperationRecord * option WErr) :=
  let! t := worker_now in
  let record := record <| or_FinishedAt := t |> in
  st_ret (if or_Status record =s "" then record <| or_Status := statusForRecord record err |> else record, err).

(** [m], or the return of [record] with its error. *)
Definition or_finish {A} (record : OperationRecord) (m : W A) (k : A -> W (OperationRecord * option WErr))
    : W (OperationRecord * option WErr) :=
  let! r := attempt_of m in
  match r with Fail err => finish record (Some err) | Ok a => k a end.

Definition RunOnce (worker : GCWorker) (limit : Z) : W (OperationRecord * option WErr) :=
  let! started := worker_now in
  let record := mkOperationRecord "" "" started 0 0 0 0 0 [] in
  if negb (gcw_Storage worker) then finish record (Some (TextErr "segment store is required"))
  else if negb (gcw_Orphans worker) then finish record (Some (TextErr "orphan tracker is required"))
  else
    or_finish record (if gcw_OperationStore worker then retryableOperationToResume else st_ret "") (fun resumeOf =>
    let record := record <| or_ResumeOfOperationID := resumeOf |> in
    or_finish record (tracker_ListGCCandidates limit) (fun candidates =>
    let! record := collect_all worker candidates record in
    let! t := worker_now in
    let record := record <| or_FinishedAt := t |> in
    let record := record <| or_Status := statusForRecord record None |> in
    let req := putGCOperationRequest record in
    or_finish record (if gcw_OperationStore worker then meta_call (C_PutGCOperation req) (PutGCOperation req) ;;! st_ret tt
                      else st_ret tt) (fun _ =>
    finish record None))).

End Run.
