(* ===== verification/GcSafety.v ===== *)
(** * GcSafety: what the garbage collector may and does delete

    A run never deletes a segment of a version under compliance retention, whoever
    calls the repository meanwhile: the gate finds the protected reference that covers
    it. *)

From S2P Require Import Prelude GoLib Sha256 StorageTypes Model Requests Encoding Meta Manifest Repo RepoLogic.
From S2P Require Import RepoBuckets RepoObjects RepoOps RepoShared RepoCalls ObjInv RepoExample Worm ProtRefs Segments LocalStore WorkerSafety Gc.
Open Scope string_scope.
Open Scope Z_scope.

Section Safety.
Context `{Env, !GeneratorOk} {D : Type} `{SegmentStoreLaws D}.
Context (others : nat -> list call) (order : list ProtectedRef -> list ProtectedRef) (error_text : WErr -> string).
Context (clock_advances : forall i j, (i <= j)%nat -> env_now i <= env_now j).
Context (order_perm : forall l, order l ≡ₚ l).

Context (l0 : list call) (k : versionKey) (v : ObjectVersion) (seg : SegmentRef).
Abbreviation s0 := (run_all l0 NewWithClock).
Context (seg_locked : locked_version k v s0) (seg_compliance : retention_mode v = ObjectLockModeCompliance).
Context (seg_of : seg ∈ objectSegmentRefsFromVersion v) (seg_named : sr_SegmentID seg <> "").

Definition quiet_refs (l : list call) : bool := collision_free l NewWithClock.
Abbreviation from_start := (from_start (D := D) l0).
Abbreviation calm := (calm (D := D) quiet_refs l0 v).
Abbreviation spares := (spares (D := D) quiet_refs l0 v seg).

#[export] Instance quiet_refs_prefix : PrefixClosed quiet_refs.
Proof. intros l1 l2. apply forallb_trace_app. Qed.

Lemma still_covered w l :
  from_start w -> quiet_refs (w_log w ++ l)%list = true -> refs_inv (run_all l (w_repo w)).
Proof.
  intros (l1 & E1 & F1) Hn. rewrite F1, <- !run_all_app.
  apply refs_inv_run; [done | apply rtc_refl | apply refs_inv_new |]. by rewrite E1, <- app_assoc in Hn.
Qed.

(** The gate never admits the locked segment. *)
Lemma gate_closed ref w :
  from_start w -> calm (st_exec (gc_Admission others order ref) w) -> sr_SegmentID ref = sr_SegmentID seg ->
  is_ok (gc_Admission others order ref w).1 = false.
Proof.
  intros Hs Hc Heq. revert Hc. unfold gc_Admission, admitProtectedRefSegmentDelete, st_exec.
  rewrite Heq, (proj2 (String.eqb_neq _ _) seg_named). unfold st_bind, meta_call. cbv zeta.
  set (s := run_all _ _). set (q := active_refs_of _). set (p := ListProtectedRefs order q s).
  intros Hc. assert (exists r refs, p.1 = Ok (r :: refs)) as (r & refs & Hp).
  { assert (p.2 = s <| clock_calls := S (clock_calls s) |>) as Hp2 by reflexivity.
    assert (calm (w <| w_repo := s |> <| w_log := (w_log w ++ others (w_turn w))%list |>) /\ env_now (clock_calls s) < retain_until v)
      as [Hc' Hnow].
    { assert (calm (w <| w_repo := p.2 |> <| w_log := (w_log w ++ others (w_turn w) ++ [C_ListProtectedRefs order q])%list |>)) as [Hn Ht].
      { destruct p as [[[]|] ?]; exact Hc. }
      change (collision_free (w_log w ++ others (w_turn w) ++ [C_ListProtectedRefs order q])%list NewWithClock = true) in Hn.
      rewrite app_assoc in Hn.
      assert (forall i, (clock_calls s0 <= i < S (clock_calls s))%nat -> env_now i < retain_until v) as Ht' by exact Ht.
      assert (clock_calls s0 <= clock_calls s)%nat.
      { destruct Hs as (l & _ & F). unfold s. rewrite F, <- run_all_app. apply run_all_clock. }
      split; [|apply Ht'; lia]. split; [exact (forallb_trace_app _ _ _ _ Hn)|].
      intros i Hi. apply Ht'. change (clock_calls s0 <= i < clock_calls s)%nat in Hi. lia. }
    destruct (still_locked quiet_refs l0 k v w (others (w_turn w)) seg_locked seg_compliance Hs Hc') as (v' & [Hv Hst Hd _] & Hcon & Hu & Hm).
    pose proof (still_covered w (others (w_turn w)) Hs (proj1 Hc')) as Hinv. fold s in Hinv, Hv.
    apply (ListProtectedRefs_locked order s k v'); [done..| | |done].
    - apply held_any, held_compliance; [done|done|lia].
    - unfold objectSegmentRefsFromVersion in *. apply (f_equal ov_SegmentRef) in Hcon as E1. apply (f_equal ov_SegmentRefs) in Hcon as E2.
      unfold content in E1, E2. field_simpl_in E1. field_simpl_in E2. by rewrite E1, E2. }
  rewrite Hp. reflexivity.
Qed.

(** ** The run *)

Lemma gc_Admission_spares ref : preserves spares (gc_Admission others order ref).
Proof. spare. Qed.

Lemma acknowledge_spares ref attempt record : preserves spares (acknowledge others error_text ref attempt record).
Proof. spare. Qed.

Ltac grow :=
  walk ltac:(idtac; lazymatch goal with |- preserves _ (attempt_of _) => apply attempt_preserves; grow end).

Lemma collect_spares worker candidate record :
  gcw_Admission worker = true -> preserves spares (collect others order error_text worker candidate record).
Proof.
  intros Ha w. unfold collect. cbv zeta. rewrite Ha. set (ref := gcc_Ref candidate).
  apply (spares_after quiet_refs); [apply attempt_preserves, gc_Admission_spares | intros a; grow |].
  intros Hs Hc [[]|err] Hok; [|spare]. assert (sr_SegmentID ref <> sr_SegmentID seg) as Hne.
  { intros Heq. pose proof (gate_closed ref w Hs Hc Heq) as Hg. unfold attempt_of in Hok. injection Hok as Hok. by rewrite Hok in Hg. }
  pose proof (delete_spares quiet_refs l0 v seg ref) as Hdel. pose proof acknowledge_spares as Hack.
  walk ltac:(idtac; lazymatch goal with
    | |- preserves _ (attempt_of (seg_call _)) => by apply attempt_preserves, Hdel
    | |- preserves _ (attempt_of _) => apply attempt_preserves; spare
    | |- preserves _ (acknowledge _ _ _ _ _) => apply Hack
    end).
Qed.

Lemma collect_all_spares worker candidates record :
  gcw_Admission worker = true -> preserves spares (collect_all others order error_text worker candidates record).
Proof.
  intros Ha. revert record. induction candidates as [|c l IH]; intros record; cbn [collect_all]; [spare|].
  apply preserves_bind; [tc_solve | by apply collect_spares | intros; apply IH].
Qed.

Lemma RunOnce_spares worker limit :
  gcw_Admission worker = true -> preserves spares (RunOnce others order error_text worker limit).
Proof.
  intros Ha. pose proof (collect_all_spares worker) as Hall.
  walk ltac:(idtac; lazymatch goal with
    | |- preserves _ (collect_all _ _ _ _ _ _) => by apply Hall
    | |- preserves _ (attempt_of _) => apply attempt_preserves; spare
    end).
Qed.

End Safety.

(** ** A run over the example

    The segment of the locked object is on the queue, and somebody tries to delete
    the object before each step of the run. *)

Definition ex_segment : SegmentRef := zero_SegmentRef <| sr_SegmentID := "seg-1" |>.
Definition ex_history : list call := (ex_setup ++ [C_PutGCCandidate (mkPutGCCandidateRequest ex_segment "orphan")])%list.
Definition ex_intruder (_ : nat) : list call := [C_DeleteObject (mkDeleteObjectRequest ex_bucket "a" "ver_1" true ex_audit)].
Definition ex_disk : LocalStore := mkLocalStore {["seg-1" := PlainFile "data"]} ∅ [] [].
Definition ex_worker : GCWorker := mkGCWorker true true true true true.
Definition ex_gc_state : Repository := @run_all exEnv ex_history (@NewWithClock exEnv).
Definition ex_gc_version : ObjectVersion := default zero_ObjectVersion (versions ex_gc_state !! ex_key_a).

Lemma ex_history_locked : @locked_version ex_key_a ex_gc_version ex_gc_state.
Proof.
  split.
  - apply (some_of_is_some zero_ObjectVersion). by_eval.
  - by_eval.
  - by_eval.
  - exists (default zero_Bucket (bucketsByID ex_gc_state !! ex_bucket)).
    split; [apply (some_of_is_some zero_Bucket); by_eval | by_eval].
Qed.
