(* ===== verification/Lifecycle.v ===== *)
(** * Lifecycle: the lifecycle planner and its workers

    [src/internal/lifecycle/planner.go] and [src/internal/lifecycle/worker.go], over
    the world of [Segments]. The planner reads a bucket's rules, its versions and its
    uploads and writes down what is due; the expiration worker deletes the due
    versions and then their segments, the abort worker aborts the due uploads and
    deletes their parts' segments. *)

From S2P Require Import Prelude GoLib Sha256 StorageTypes Model Requests Encoding Meta Manifest Repo RepoLogic.
From S2P Require Import RepoBuckets RepoObjects RepoMultipart RepoListing RepoOps RepoShared RepoCalls Segments Gc.
Open Scope string_scope.
Open Scope Z_scope.

(** ** Plans *)

Inductive ActionKind :=
| ActionExpireCurrentObject
| ActionExpireDeleteMarker
| ActionExpireNoncurrentVersion
| ActionAbortIncompleteMultipart.

Inductive ActionStatus := ActionEligible | ActionBlocked.

Definition BlockReasonObjectLock : string := "object_lock".
Definition BlockReasonProtectedRef : string := "protected_ref".

Record PlanRequest := mkPlanRequest {
  pr_BucketID : string;
  pr_Now : Time;
  pr_MaxKeys : Z;
  pr_MaxUploads : Z
}.
#[export] Instance eta_PlanRequest : RecordEta PlanRequest := fun r =>
  mkPlanRequest (pr_BucketID r) (pr_Now r) (pr_MaxKeys r) (pr_MaxUploads r).

Record Action := mkAction {
  ac_Kind : ActionKind;
  ac_Status : ActionStatus;
  ac_BlockReason : string;
  ac_RuleID : string;
  ac_BucketID : string;
  ac_Key : string;
  ac_VersionID : string;
  ac_UploadID : string
}.
#[export] Instance eta_Action : RecordEta Action := fun a =>
  mkAction (ac_Kind a) (ac_Status a) (ac_BlockReason a) (ac_RuleID a) (ac_BucketID a) (ac_Key a) (ac_VersionID a) (ac_UploadID a).

Record Plan := mkPlan {
  plan_BucketID : string;
  plan_Actions : list Action
}.

(** [t.AddDate(0, 0, days)] of a time in UTC. *)
Definition AddDays (t : Time) (days : Z) : Time := t + days * (86400 * 1000000000).

Definition lifecycleRuleMatches (rule : LifecycleRule) (key : string) : bool :=
  (lr_Prefix rule =s "") || HasPrefix key (lr_Prefix rule).

Definition versionTime (version : ObjectVersion) : Time :=
  if negb (ov_CommittedAt version =? 0) then ov_CommittedAt version else ov_CreatedAt version.

Definition currentVersionExpired (rule : LifecycleRule) (version : ObjectVersion) (now : Time) : bool :=
  if le_ExpiredObjectDeleteMarker (lr_Expiration rule) then false
  else if 0 <? le_Days (lr_Expiration rule) then
    negb (AddDays now (- le_Days (lr_Expiration rule)) <? versionTime version)
  else if negb (le_Date (lr_Expiration rule) =? 0) then negb (now <? le_Date (lr_Expiration rule))
  else false.

Definition noncurrentVersionExpired (rule : LifecycleRule) (version : ObjectVersion) (now : Time) : bool :=
  let days := lnve_NoncurrentDays (lr_NoncurrentVersionExpiration rule) in
  if days <=? 0 then false else negb (AddDays now (- days) <? versionTime version).

Definition objectVersionProtected (version : ObjectVersion) (now : Time) : bool :=
  if ov_DeleteMarker version then false
  else if ov_ObjectLockLegalHold version =s ObjectLockLegalHoldOn then true
  else if olr_Mode (ov_ObjectLockRetention version) =s "" then false
  else if olr_RetainUntilDate (ov_ObjectLockRetention version) =? 0 then true
  else now <? olr_RetainUntilDate (ov_ObjectLockRetention version).

Definition planAbortIncompleteMultipart (rule : LifecycleRule) (uploads : list MultipartUpload) (now : Time) : list Action :=
  let threshold := AddDays now (- laimu_DaysAfterInitiation (lr_AbortIncompleteMultipartUpload rule)) in
  map (fun upload => mkAction ActionAbortIncompleteMultipart ActionEligible "" (lr_ID rule) (mu_BucketID upload)
                       (mu_Key upload) "" (mu_UploadID upload))
    (List.filter (fun upload => negb (threshold <? mu_CreatedAt upload)) uploads).

Definition plan_delete_markers (rule : LifecycleRule) (markers : list ObjectVersionEntry) : list Action :=
  map (fun entry => let version := ove_Version entry in
         mkAction ActionExpireDeleteMarker ActionEligible "" (lr_ID rule) (ov_BucketID version) (ov_Key version)
           (ov_VersionID version) "")
    (List.filter (fun entry => negb (negb (ove_IsLatest entry) || negb (lifecycleRuleMatches rule (ov_Key (ove_Version entry)))
                                 || negb (le_ExpiredObjectDeleteMarker (lr_Expiration rule)))) markers).

(** ** Workers *)

Record LifecycleWorker := mkLifecycleWorker {
  lw_Metadata : bool;
  lw_Storage : bool;
  lw_Orphans : bool
}.

Record AbortWorkerResult := mkAbortWorkerResult {
  ab_Planned : Z;
  ab_Aborted : Z;
  ab_Skipped : Z;
  ab_DeleteFailed : Z;
  ab_OrphansMarked : Z;
  ab_Failed : Z
}.
#[export] Instance eta_AbortWorkerResult : RecordEta AbortWorkerResult := fun r =>
  mkAbortWorkerResult (ab_Planned r) (ab_Aborted r) (ab_Skipped r) (ab_DeleteFailed r) (ab_OrphansMarked r) (ab_Failed r).

Record ExpirationWorkerResult := mkExpirationWorkerResult {
  ex_Planned : Z;
  ex_Deleted : Z;
  ex_Skipped : Z;
  ex_DeleteFailed : Z;
  ex_OrphansMarked : Z;
  ex_Failed : Z
}.
#[export] Instance eta_ExpirationWorkerResult : RecordEta ExpirationWorkerResult := fun r =>
  mkExpirationWorkerResult (ex_Planned r) (ex_Deleted r) (ex_Skipped r) (ex_DeleteFailed r) (ex_OrphansMarked r) (ex_Failed r).

Record WorkerResult := mkWorkerResult {
  wr_Expiration : ExpirationWorkerResult;
  wr_Abort : AbortWorkerResult;
  wr_Planned : Z;
  wr_Processed : Z;
  wr_Skipped : Z;
  wr_DeleteFailed : Z;
  wr_OrphansMarked : Z;
  wr_Failed : Z
}.
#[export] Instance eta_WorkerResult : RecordEta WorkerResult := fun r =>
  mkWorkerResult (wr_Expiration r) (wr_Abort r) (wr_Planned r) (wr_Processed r) (wr_Skipped r) (wr_DeleteFailed r)
    (wr_OrphansMarked r) (wr_Failed r).

Definition zero_ExpirationWorkerResult : ExpirationWorkerResult := mkExpirationWorkerResult 0 0 0 0 0 0.
Definition zero_AbortWorkerResult : AbortWorkerResult := mkAbortWorkerResult 0 0 0 0 0 0.
Definition zero_WorkerResult : WorkerResult :=
  mkWorkerResult zero_ExpirationWorkerResult zero_AbortWorkerResult 0 0 0 0 0 0.

Definition addExpiration (result : ExpirationWorkerResult) (r : WorkerResult) : WorkerResult :=
  r <| wr_Planned := wr_Planned r + ex_Planned result |> <| wr_Processed := wr_Processed r + ex_Deleted result |>
    <| wr_Skipped := wr_Skipped r + ex_Skipped result |> <| wr_DeleteFailed := wr_DeleteFailed r + ex_DeleteFailed result |>
    <| wr_OrphansMarked := wr_OrphansMarked r + ex_OrphansMarked result |> <| wr_Failed := wr_Failed r + ex_Failed result |>.

Definition addAbort (result : AbortWorkerResult) (r : WorkerResult) : WorkerResult :=
  r <| wr_Planned := wr_Planned r + ab_Planned result |> <| wr_Processed := wr_Processed r + ab_Aborted result |>
    <| wr_Skipped := wr_Skipped r + ab_Skipped result |> <| wr_DeleteFailed := wr_DeleteFailed r + ab_DeleteFailed result |>
    <| wr_OrphansMarked := wr_OrphansMarked r + ab_OrphansMarked result |> <| wr_Failed := wr_Failed r + ab_Failed result |>.

(** The zero audit context of a request that bypasses nothing. *)
Definition zero_AuditContext : AuditContext := mkAuditContext "" "" (mkAuditPrincipal "" "" "" "" [] [] "" "" "" "" false).

Definition versionSegmentRefs (version : ObjectVersion) : list SegmentRef :=
  match ov_SegmentRefs version with
  | _ :: _ => ov_SegmentRefs version
  | [] => if sr_SegmentID (ov_SegmentRef version) =s "" then [] else [ov_SegmentRef version]
  end.

Section Run.
Context `{Env} {D : Type} `{SegmentStore D}.
Context (others : nat -> list call) (order : list ProtectedRef -> list ProtectedRef).
Abbreviation W := (W (D := D)).
Abbreviation meta_call := (meta_call others).
Abbreviation meta_read := (meta_read others).

(** ** The planner *)

(** Any error of the reference listing blocks the action. *)
Definition guardedVersionAction (rule : LifecycleRule) (version : ObjectVersion) (kind : ActionKind) (now : Time) : W Action :=
  let action := mkAction kind ActionEligible "" (lr_ID rule) (ov_BucketID version) (ov_Key version) (ov_VersionID version) "" in
  if objectVersionProtected version now then
    st_ret (action <| ac_Status := ActionBlocked |> <| ac_BlockReason := BlockReasonObjectLock |>)
  else
    let req := mkListProtectedRefsRequest (ov_BucketID version) (ov_Key version) (ov_VersionID version) "" true 1 in
    let! refs := attempt_of (meta_call (C_ListProtectedRefs order req) (ListProtectedRefs order req)) in
    match refs with
    | Ok [] => st_ret action
    | _ => st_ret (action <| ac_Status := ActionBlocked |> <| ac_BlockReason := BlockReasonProtectedRef |>)
    end.

Fixpoint plan_versions (rule : LifecycleRule) (entries : list ObjectVersionEntry) (now : Time) : W (list Action) :=
  match entries with
  | [] => st_ret []
  | entry :: rest =>
      let version := ove_Version entry in
      let! here :=
        if negb (lifecycleRuleMatches rule (ov_Key version)) then st_ret []
        else if ove_IsLatest entry && currentVersionExpired rule version now then
          let! a := guardedVersionAction rule version ActionExpireCurrentObject now in st_ret [a]
        else if negb (ove_IsLatest entry) && noncurrentVersionExpired rule version now then
          let! a := guardedVersionAction rule version ActionExpireNoncurrentVersion now in st_ret [a]
        else st_ret [] in
      let! later := plan_versions rule rest now in
      st_ret (here ++ later)%list
  end.

Definition planVersionExpiration (rule : LifecycleRule) (versions : ListObjectVersionsResult) (now : Time) : W (list Action) :=
  let! actions := plan_versions rule (lovr_Versions versions) now in
  st_ret (actions ++ plan_delete_markers rule (lovr_DeleteMarkers versions))%list.

Fixpoint plan_rules (bucketID : string) (maxUploads : Z) (rules : list LifecycleRule) (versions : ListObjectVersionsResult)
    (now : Time) : W (list Action) :=
  match rules with
  | [] => st_ret []
  | rule :: rest =>
      let! here :=
        if negb (lr_Status rule =s LifecycleRuleEnabled) then st_ret []
        else
          let! expirations := planVersionExpiration rule versions now in
          if 0 <? laimu_DaysAfterInitiation (lr_AbortIncompleteMultipartUpload rule) then
            let! uploads := meta_read (ListMultipartUploads
              (mkListMultipartUploadsRequest bucketID (lr_Prefix rule) "" "" "" maxUploads)) in
            st_ret (expirations ++ planAbortIncompleteMultipart rule (lmur_Uploads uploads) now)%list
          else st_ret expirations in
      let! later := plan_rules bucketID maxUploads rest versions now in
      st_ret (here ++ later)%list
  end.

Definition BuildPlan (req : PlanRequest) : W Plan :=
  fail! (TextErr "bucket id is required") when pr_BucketID req =s "" ;
  let! now := if pr_Now req =? 0 then worker_now else st_ret (pr_Now req) in
  let maxKeys := if pr_MaxKeys req <=? 0 then 1000 else pr_MaxKeys req in
  let maxUploads := if pr_MaxUploads req <=? 0 then 1000 else pr_MaxUploads req in
  let! configuration := attempt_of (meta_read (GetBucketLifecycle (pr_BucketID req))) in
  match configuration with
  | Fail (MetaErr ErrNotFound) => st_ret (mkPlan (pr_BucketID req) [])
  | Fail err => st_fail err
  | Ok configuration =>
      let! versions := meta_read (ListObjectVersions (mkListObjectVersionsRequest (pr_BucketID req) "" "" "" "" maxKeys)) in
      let! actions := plan_rules (pr_BucketID req) maxUploads (blc_Rules configuration) versions now in
      st_ret (mkPlan (pr_BucketID req) actions)
  end.

(** ** The abort worker *)

(** [errors.Is(err, storage.ErrNotFound)]. *)
Definition deletion_failed {A} (r : outcome WErr A) : bool :=
  match r with Ok _ | Fail (SegErr SegNotFound) => false | Fail _ => true end.

Fixpoint abort_parts (worker : LifecycleWorker) (parts : list MultipartPart) (result : AbortWorkerResult) : W AbortWorkerResult :=
  match parts with
  | [] => st_ret result
  | part :: rest =>
      let ref := mp_SegmentRef part in
      let! gone := attempt_of (seg_call (DeleteSegment ref DeleteReasonMultipartAborted)) in
      let! result :=
        if deletion_failed gone then
          let result := result <| ab_DeleteFailed := ab_DeleteFailed result + 1 |> in
          if lw_Orphans worker && negb (sr_SegmentID ref =s "") then
            let! marked := attempt_of (tracker_MarkOrphan others ref DeleteReasonMultipartAborted) in
            match marked with
            | Ok _ => st_ret (result <| ab_OrphansMarked := ab_OrphansMarked result + 1 |>)
            | Fail _ => st_ret (result <| ab_Failed := ab_Failed result + 1 |>)
            end
          else st_ret (result <| ab_Failed := ab_Failed result + 1 |>)
        else st_ret result in
      abort_parts worker rest result
  end.

Definition abort_action (worker : LifecycleWorker) (action : Action) (result : AbortWorkerResult) : W AbortWorkerResult :=
  match ac_Kind action with
  | ActionAbortIncompleteMultipart =>
      let result := result <| ab_Planned := ab_Planned result + 1 |> in
      match ac_Status action with
      | ActionBlocked => st_ret (result <| ab_Skipped := ab_Skipped result + 1 |>)
      | ActionEligible =>
          if negb (lw_Storage worker) then st_ret (result <| ab_Failed := ab_Failed result + 1 |>)
          else
            let req := mkMultipartUploadRequest (ac_BucketID action) (ac_Key action) (ac_UploadID action) in
            let! parts := attempt_of (meta_call (C_AbortMultipartUpload req) (AbortMultipartUpload req)) in
            match parts with
            | Fail (MetaErr ErrNotFound) => st_ret (result <| ab_Skipped := ab_Skipped result + 1 |>)
            | Fail _ => st_ret (result <| ab_Failed := ab_Failed result + 1 |>)
            | Ok parts => abort_parts worker parts (result <| ab_Aborted := ab_Aborted result + 1 |>)
            end
      end
  | _ => st_ret result
  end.

Fixpoint abort_all (worker : LifecycleWorker) (actions : list Action) (result : AbortWorkerResult) : W AbortWorkerResult :=
  match actions with
  | [] => st_ret result
  | action :: rest => let! result := abort_action worker action result in abort_all worker rest result
  end.

Definition at_now (req : PlanRequest) : W PlanRequest :=
  if pr_Now req =? 0 then let! t := worker_now in st_ret (req <| pr_Now := t |>) else st_ret req.

(** Both workers return an empty result with the error of the plan. *)
Definition AbortWorker_RunOnce (worker : LifecycleWorker) (req : PlanRequest) : W AbortWorkerResult :=
  fail! (TextErr "metadata repository is required") when negb (lw_Metadata worker) ;
  let! req := at_now req in
  let! plan := BuildPlan req in
  abort_all worker (plan_Actions plan) zero_AbortWorkerResult.

(** ** The expiration worker *)

Fixpoint expire_segments (worker : LifecycleWorker) (refs : list SegmentRef) (result : ExpirationWorkerResult)
    : W ExpirationWorkerResult :=
  match refs with
  | [] => st_ret result
  | ref :: rest =>
      let! result :=
        if sr_SegmentID ref =s "" then st_ret result
        else if negb (lw_Storage worker) then st_ret (result <| ex_Failed := ex_Failed result + 1 |>)
        else
          let! gone := attempt_of (seg_call (DeleteSegment ref DeleteReasonManualGC)) in
          if deletion_failed gone then
            let result := result <| ex_DeleteFailed := ex_DeleteFailed result + 1 |> in
            if lw_Orphans worker then
              let! marked := attempt_of (tracker_MarkOrphan others ref DeleteReasonManualGC) in
              match marked with
              | Ok _ => st_ret (result <| ex_OrphansMarked := ex_OrphansMarked result + 1 |>)
              | Fail _ => st_ret (result <| ex_Failed := ex_Failed result + 1 |>)
              end
            else st_ret (result <| ex_Failed := ex_Failed result + 1 |>)
          else st_ret result in
      expire_segments worker rest result
  end.

Definition deleteDeletedVersionSegments (worker : LifecycleWorker) (version : ObjectVersion) (result : ExpirationWorkerResult)
    : W ExpirationWorkerResult :=
  if ov_DeleteMarker version then st_ret result else expire_segments worker (versionSegmentRefs version) result.

Definition expires (kind : ActionKind) : bool :=
  match kind with ActionAbortIncompleteMultipart => false | _ => true end.

Definition expire_request (action : Action) : DeleteObjectRequest :=
  mkDeleteObjectRequest (ac_BucketID action) (ac_Key action)
    (match ac_Kind action with ActionExpireCurrentObject => "" | _ => ac_VersionID action end) false zero_AuditContext.

Definition expire_action (worker : LifecycleWorker) (action : Action) (result : ExpirationWorkerResult) : W ExpirationWorkerResult :=
  if negb (expires (ac_Kind action)) then st_ret result
  else
    let result := result <| ex_Planned := ex_Planned result + 1 |> in
    match ac_Status action with
    | ActionBlocked => st_ret (result <| ex_Skipped := ex_Skipped result + 1 |>)
    | ActionEligible =>
        let req := expire_request action in
        let! deleted := attempt_of (meta_call (C_DeleteObject req) (DeleteObject req)) in
        match deleted with
        | Fail (MetaErr ErrNotFound) => st_ret (result <| ex_Skipped := ex_Skipped result + 1 |>)
        | Fail _ => st_ret (result <| ex_Failed := ex_Failed result + 1 |>)
        | Ok deleted => deleteDeletedVersionSegments worker (dr_DeletedVersion deleted) (result <| ex_Deleted := ex_Deleted result + 1 |>)
        end
    end.

Fixpoint expire_all (worker : LifecycleWorker) (actions : list Action) (result : ExpirationWorkerResult) : W ExpirationWorkerResult :=
  match actions with
  | [] => st_ret result
  | action :: rest => let! result := expire_action worker action result in expire_all worker rest result
  end.

Definition ExpirationWorker_RunOnce (worker : LifecycleWorker) (req : PlanRequest) : W ExpirationWorkerResult :=
  fail! (TextErr "metadata repository is required") when negb (lw_Metadata worker) ;
  let! req := at_now req in
  let! plan := BuildPlan req in
  expire_all worker (plan_Actions plan) zero_ExpirationWorkerResult.

(** ** Both *)

(** The result with the error, as the code returns them. *)
Definition LifecycleWorker_RunOnce (worker : LifecycleWorker) (req : PlanRequest) : W (WorkerResult * option WErr) :=
  if negb (lw_Metadata worker) then st_ret (zero_WorkerResult, Some (TextErr "metadata repository is required"))
  else
    let! req := at_now req in
    let! expiration := attempt_of (ExpirationWorker_RunOnce worker req) in
    match expiration with
    | Fail err => st_ret (addExpiration zero_ExpirationWorkerResult zero_WorkerResult, Some err)
    | Ok expiration =>
        let result := addExpiration expiration (zero_WorkerResult <| wr_Expiration := expiration |>) in
        let! abort := attempt_of (AbortWorker_RunOnce worker req) in
        match abort with
        | Fail err => st_ret (addAbort zero_AbortWorkerResult result, Some err)
        | Ok abort => st_ret (addAbort abort (result <| wr_Abort := abort |>), None)
        end
    end.

End Run.
