(* ===== verification/LifecycleSafety.v ===== *)
(** * LifecycleSafety: what the lifecycle workers leave alone

    A lifecycle run removes the segments of the versions it deleted and of the uploads
    it aborted, and none else; so the segments of a version under compliance retention
    stay, as long as no other version or open upload names them. *)

From S2P Require Import Prelude GoLib Sha256 StorageTypes Model Requests Encoding Meta Manifest Repo RepoLogic.
From S2P Require Import RepoBuckets RepoObjects RepoMultipart RepoListing RepoOps RepoShared RepoCalls ObjRules ObjInv RepoExample Worm.
From S2P Require Import ProtRefs Segments LocalStore WorkerSafety Gc Lifecycle.
Open Scope string_scope.
Open Scope Z_scope.

(** ** Deletions and aborts *)

Section Results.
Context `{Env}.

Definition names (id : string) (refs : list SegmentRef) : bool := existsb (fun ref => sr_SegmentID ref =s id) refs.

(** The version a deletion returns was in the repository and is no more, unless it
    is a delete marker or has no segments. *)
Definition removed (deleted : ObjectVersion) (s s' : Repository) : Prop :=
  ov_DeleteMarker deleted = true \/ versionSegmentRefs deleted = [] \/
  exists k, versions s !! k = Some deleted /\ versions s' !! k = None.

Lemma removed_delete k deleted (s s' : Repository) :
  versions s !! k = Some deleted -> versions s' = delete k (versions s) -> removed deleted s s'.
Proof. intros Hs Hs'. right. right. exists k. split; [done|]. by rewrite Hs', lookup_delete_eq. Qed.

Lemma DeleteObject_removed req s :
  wp (DeleteObject req) (fun o s' => forall r, o = Ok r -> removed (dr_DeletedVersion r) s s') s.
Proof.
  unfold DeleteObject. apply wp_if; intros _; [done|]. cbv zeta. apply wp_bind, wp_lookup_or; [intros b _|done].
  apply wp_if; intros _.
  - unfold deleteObjectVersionLocked. owp; intros r Hr; simplify_eq; field_simpl; eapply removed_delete; try eassumption.
    all: field_simpl; state_simpl; use_same; field_simpl; state_simpl; done.
  - apply wp_bind, wp_gets. apply wp_if; intros _.
    + apply wp_bind. destruct (heads s !! _); [apply wp_checkKMS; [|done]|apply wp_ret];
        unfold createDeleteMarkerLocked; owp; intros r Hr; simplify_eq; by left.
    + apply wp_option_r; [intros h Hh|intros _; apply wp_ret; intros r Hr; simplify_eq; right; by left].
      owp; intros r Hr; simplify_eq; field_simpl; [right; by left|]. state_simpl; use_same; state_simpl; field_simpl. eapply removed_delete; [eassumption|].
      field_simpl; state_simpl; use_same; field_simpl; state_simpl; done.
Qed.

(** The parts an abort returns are in the repository, of an upload that is not complete. *)
Definition open_upload (s : Repository) (pk : partKey) : bool :=
  match uploads s !! mk_uploadKey (pk_bucketID pk) (pk_key pk) (pk_uploadID pk) with
  | Some u => (mu_State u =s MultipartUploadActive) || (mu_State u =s MultipartUploadAborted)
  | None => false
  end.

Lemma listParts_elem s req part :
  part ∈ listPartsLocked s req ->
  exists pk, parts s !! pk = Some part /\ mk_uploadKey (pk_bucketID pk) (pk_key pk) (pk_uploadID pk) = upload_key req.
Proof.
  unfold listPartsLocked, upload_parts. rewrite elem_of_sort_by. intros ([pk p] & -> & Hin)%list_elem_of_fmap.
  apply list_elem_of_In, filter_In in Hin as [Hin Heq]. simpl in *. exists pk.
  split; [by apply elem_of_map_to_list, list_elem_of_In|]. rewrite !andb_true_iff, !String.eqb_eq in Heq.
  destruct Heq as [[-> ->] ->]. done.
Qed.

Lemma Abort_parts req s :
  wp (AbortMultipartUpload req) (fun o _ => forall l, o = Ok l -> forall part, part ∈ l ->
    exists pk, parts s !! pk = Some part /\ open_upload s pk = true) s.
Proof.
  assert (forall u part, uploads s !! upload_key req = Some u ->
    (mu_State u =s MultipartUploadActive) || (mu_State u =s MultipartUploadAborted) = true ->
    part ∈ listPartsLocked s req -> exists pk, parts s !! pk = Some part /\ open_upload s pk = true) as Hopen.
  { intros u part Hu Hst (pk & Hp & Hk)%listParts_elem. exists pk. split; [done|]. unfold open_upload. by rewrite Hk, Hu. }
  unfold AbortMultipartUpload, getUploadLocked. apply wp_bind, wp_if; intros _; [done|]. apply wp_lookup_or; [intros u Hu|done].
  apply wp_if; intros Hst.
  - apply wp_gets. intros l Hl part Hp. simplify_eq. eapply Hopen; [done| |done]. by rewrite Hst, orb_true_r.
  - apply wp_if; intros Hact; [done|]. apply negb_false_iff in Hact. apply wp_bind, wp_gets, wp_bind, wp_now.
    cbv zeta. unfold wp. repeat match goal with |- context [st_bind] => unfold st_bind at 1 end.
    destruct (put_upload _ _ _) as [[] s1]; [|done]. destruct (applyTenantActiveUploadDeltaForBucketLocked _ _ _ s1) as [[] s2]; [|done].
    intros l Hl part Hp. simpl in Hl. simplify_eq. eapply Hopen; [done| |done]. by rewrite Hact.
Qed.

Lemma GetBucketLifecycle_reads b s : st_exec (GetBucketLifecycle b) s = s.
Proof. revert s. change (frames (fun s => s) (GetBucketLifecycle b)). frame. Qed.
Lemma ListObjectVersions_reads req s : st_exec (ListObjectVersions req) s = s.
Proof. revert s. change (frames (fun s => s) (ListObjectVersions req)). frame. Qed.
Lemma ListMultipartUploads_reads req s : st_exec (ListMultipartUploads req) s = s.
Proof. revert s. change (frames (fun s => s) (ListMultipartUploads req)). frame. Qed.
End Results.

(** ** The run *)

Section Safety.
Context `{Env, !GeneratorOk} {D : Type} `{SegmentStoreLaws D}.
Context (others : nat -> list call) (order : list ProtectedRef -> list ProtectedRef).
Context (l0 : list call) (k : versionKey) (v : ObjectVersion) (seg : SegmentRef).
Abbreviation s0 := (run_all l0 NewWithClock).
Context (seg_locked : locked_version k v s0) (seg_compliance : retention_mode v = ObjectLockModeCompliance).

(** No version but the one at [k], and no open upload, names the segment. *)
Definition alone (s : Repository) : bool :=
  forallb (fun kv => bool_decide (kv.1 = k) || negb (names (sr_SegmentID seg) (versionSegmentRefs kv.2))) (map_to_list (versions s)) &&
  forallb (fun kv => negb (open_upload s kv.1 && (sr_SegmentID (mp_SegmentRef kv.2) =s sr_SegmentID seg))) (map_to_list (parts s)).

Definition unshared (l : list call) : bool := forallb alone (trace l NewWithClock).
#[export] Instance unshared_prefix : PrefixClosed unshared.
Proof. intros l1 l2. apply forallb_trace_app. Qed.

Abbreviation from_start := (from_start (D := D) l0).
Abbreviation calm := (calm (D := D) unshared l0 v).
Abbreviation spares := (spares (D := D) unshared l0 v seg).

Lemma alone_version s k' w :
  alone s = true -> versions s !! k' = Some w -> k' <> k -> Forall (fun ref => sr_SegmentID ref <> sr_SegmentID seg) (versionSegmentRefs w).
Proof.
  intros [Ha _]%andb_true_iff Hw Hne. rewrite forallb_forall in Ha.
  specialize (Ha (k', w)). simpl in Ha. rewrite bool_decide_false in Ha by done. simpl in Ha.
  rewrite negb_true_iff in Ha. apply Forall_forall. intros ref Hr Heq.
  assert (names (sr_SegmentID seg) (versionSegmentRefs w) = true) as Hn.
  { unfold names. apply existsb_exists. exists ref. split; [by apply list_elem_of_In | by apply String.eqb_eq]. }
  rewrite Ha in Hn; [done|]. by apply list_elem_of_In, elem_of_map_to_list.
Qed.

Lemma alone_part s pk part :
  alone s = true -> parts s !! pk = Some part -> open_upload s pk = true -> sr_SegmentID (mp_SegmentRef part) <> sr_SegmentID seg.
Proof.
  intros [_ Ha]%andb_true_iff Hp Ho Heq. rewrite forallb_forall in Ha. specialize (Ha (pk, part)). simpl in Ha.
  rewrite Ho, Heq, String.eqb_refl in Ha. discriminate Ha. by apply list_elem_of_In, elem_of_map_to_list.
Qed.

(** Before and after a call of the worker in a calm world. *)
Lemma calm_call {A} c (m : M A) w :
  run c = discard m -> from_start w -> calm (st_exec (meta_call others c m) w) ->
  let s := run_all (others (w_turn w)) (w_repo w) in
  alone s = true /\ exists v', versions (m s).2 !! k = Some v'.
Proof.
  intros Hc Hs Hcalm s. pose proof (meta_call_extends others c m Hc w) as Hx. split.
  - destruct Hcalm as [Hq _]. destruct Hs as (l & E & F).
    change (unshared (w_log w ++ others (w_turn w) ++ [c])%list = true) in Hq. rewrite app_assoc in Hq.
    apply prefix_closed in Hq. apply forallb_trace_last in Hq. unfold s. rewrite E in Hq. rewrite F.
    by rewrite !run_all_app in Hq.
  - destruct (still_locked unshared l0 k v w (others (w_turn w) ++ [c])%list) as (v' & [Hv _ _ _] & _); [done..| |].
    + destruct Hcalm as [Hq Ht]. split; [exact Hq|]. intros i Hi. apply Ht.
      rewrite run_all_app in Hi. simpl in Hi. rewrite Hc, exec_discard in Hi. exact Hi.
    + exists v'. rewrite run_all_app in Hv. simpl in Hv. rewrite Hc, exec_discard in Hv. exact Hv.
Qed.

Ltac grow :=
  walk ltac:(idtac; lazymatch goal with |- preserves _ (attempt_of _) => apply attempt_preserves; grow end).

Lemma expire_segments_spares worker refs result :
  Forall (fun ref => sr_SegmentID ref <> sr_SegmentID seg) refs -> preserves spares (expire_segments others worker refs result).
Proof.
  intros Hrefs. revert result. induction Hrefs as [|ref refs Hne _ IH]; intros result; cbn [expire_segments]; [spare|].
  apply preserves_bind; [tc_solve | | intros; apply IH].
  pose proof (delete_spares unshared l0 v seg ref) as Hdel.
  walk ltac:(idtac; lazymatch goal with
    | |- preserves _ (attempt_of (seg_call _)) => by apply attempt_preserves, Hdel
    | |- preserves _ (attempt_of _) => apply attempt_preserves; spare end).
Qed.

Lemma abort_parts_spares worker parts result :
  Forall (fun part => sr_SegmentID (mp_SegmentRef part) <> sr_SegmentID seg) parts ->
  preserves spares (abort_parts others worker parts result).
Proof.
  intros Hparts. revert result. induction Hparts as [|part parts Hne _ IH]; intros result; cbn [abort_parts]; [spare|].
  pose proof (delete_spares unshared l0 v seg (mp_SegmentRef part)) as Hdel.
  walk ltac:(idtac; lazymatch goal with
    | |- preserves _ (attempt_of (seg_call _)) => by apply attempt_preserves, Hdel
    | |- preserves _ (attempt_of _) => apply attempt_preserves; spare
    | |- preserves _ (abort_parts _ _ _ _) => apply IH end).
Qed.

Lemma expire_segments_grows worker refs result : preserves extends (expire_segments (D := D) others worker refs result).
Proof. revert result. induction refs as [|ref refs IH]; intros result; cbn [expire_segments]; [grow|]. apply preserves_bind; [tc_solve|grow|intros; apply IH]. Qed.
Lemma abort_parts_grows worker parts result : preserves extends (abort_parts (D := D) others worker parts result).
Proof. revert result. induction parts as [|p parts IH]; intros result; cbn [abort_parts]; [grow|]. apply preserves_bind; [tc_solve|grow|]. intros g. apply preserves_bind; [tc_solve|grow|intros; apply IH]. Qed.

Lemma expire_action_spares worker action result : preserves spares (expire_action others worker action result).
Proof.
  unfold expire_action. destruct (negb _); [spare|]. cbv zeta. destruct (ac_Status action); [|spare]. intros w.
  set (req := expire_request action).
  apply (spares_after unshared); [apply attempt_preserves; spare | |].
  { intros a. pose proof expire_segments_grows. unfold deleteDeletedVersionSegments. destruct a as [|[[]| | |]]; grow. }
  intros Hs Hc [deleted|err] Hok; [|spare].
  destruct (calm_call (C_DeleteObject req) (DeleteObject req) w eq_refl Hs Hc) as [Ha [v' Hv']].
  set (s := run_all (others (w_turn w)) (w_repo w)) in *.
  assert ((DeleteObject req s).1 = Ok deleted) as Hd.
  { unfold attempt_of, meta_call in Hok. cbv zeta in Hok. fold s in Hok. destruct (DeleteObject req s) as [[]]; simpl in *; congruence. }
  pose proof (DeleteObject_removed req s deleted Hd) as Hrem. unfold deleteDeletedVersionSegments.
  destruct (ov_DeleteMarker _) eqn:Hdm; [spare|]. apply expire_segments_spares.
  destruct Hrem as [?|[->|(k' & Hk & Hgone)]]; [congruence | done |].
  eapply alone_version; [done..|]. intros ->. congruence.
Qed.

Lemma abort_action_spares worker action result : preserves spares (abort_action others worker action result).
Proof.
  unfold abort_action. destruct (ac_Kind action); [spare..|]. cbv zeta. destruct (ac_Status action); [|spare].
  destruct (negb _); [spare|]. intros w. set (req := mkMultipartUploadRequest _ _ _).
  apply (spares_after unshared); [apply attempt_preserves; spare | |].
  { intros a. pose proof abort_parts_grows. destruct a as [|[[]| | |]]; grow. }
  intros Hs Hc [parts|err] Hok; [|spare].
  destruct (calm_call (C_AbortMultipartUpload req) (AbortMultipartUpload req) w eq_refl Hs Hc) as [Ha _].
  set (s := run_all (others (w_turn w)) (w_repo w)) in *.
  assert ((AbortMultipartUpload req s).1 = Ok parts) as Hd.
  { unfold attempt_of, meta_call in Hok. cbv zeta in Hok. fold s in Hok. destruct (AbortMultipartUpload req s) as [[]]; simpl in *; congruence. }
  apply abort_parts_spares, Forall_forall. intros part Hpart.
  destruct (Abort_parts req s parts Hd part Hpart) as (pk & Hp & Ho). by eapply alone_part.
Qed.

(** *** Planning deletes nothing *)

Lemma plan_versions_spares rule entries now : preserves spares (plan_versions others order rule entries now).
Proof.
  induction entries as [|entry entries IH]; cbn [plan_versions]; cbv zeta; [spare|].
  apply preserves_bind; [tc_solve|spare|intros here]. apply preserves_bind; [tc_solve|apply IH|intros; spare].
Qed.

Lemma plan_rules_spares bucketID maxUploads rules listed now :
  preserves spares (plan_rules others order bucketID maxUploads rules listed now).
Proof.
  induction rules as [|rule rules IH]; cbn [plan_rules]; [spare|].
  apply preserves_bind; [tc_solve| |intros here; apply preserves_bind; [tc_solve|apply IH|intros; spare]].
  destruct (negb _); [spare|]. apply preserves_bind; [tc_solve| |intros expirations].
  { apply preserves_bind; [tc_solve|apply plan_versions_spares|intros; spare]. }
  destruct (0 <? _); [|spare]. apply preserves_bind; [tc_solve| |intros; spare].
  apply meta_read_spares, ListMultipartUploads_reads.
Qed.

Lemma BuildPlan_spares req : preserves spares (BuildPlan others order req).
Proof.
  walk ltac:(idtac; lazymatch goal with
    | |- preserves _ (attempt_of _) => apply attempt_preserves, meta_read_spares, GetBucketLifecycle_reads
    | |- preserves _ (Segments.meta_read _ _) => apply meta_read_spares, ListObjectVersions_reads
    | |- preserves _ (plan_rules _ _ _ _ _ _ _) => apply plan_rules_spares end).
Qed.

Lemma expire_all_spares worker actions result : preserves spares (expire_all others worker actions result).
Proof.
  revert result. induction actions as [|a l IH]; intros result; cbn [expire_all]; [spare|].
  apply preserves_bind; [tc_solve | apply expire_action_spares | intros; apply IH].
Qed.

Lemma abort_all_spares worker actions result : preserves spares (abort_all others worker actions result).
Proof.
  revert result. induction actions as [|a l IH]; intros result; cbn [abort_all]; [spare|].
  apply preserves_bind; [tc_solve | apply abort_action_spares | intros; apply IH].
Qed.

Lemma LifecycleWorker_spares worker req : preserves spares (LifecycleWorker_RunOnce others order worker req).
Proof.
  walk ltac:(idtac; lazymatch goal with
    | |- preserves _ (attempt_of _) => apply attempt_preserves;
        walk ltac:(idtac; lazymatch goal with
          | |- preserves _ (BuildPlan _ _ _) => apply BuildPlan_spares
          | |- preserves _ (expire_all _ _ _ _) => apply expire_all_spares
          | |- preserves _ (abort_all _ _ _ _) => apply abort_all_spares end) end).
Qed.

End Safety.

(** ** A run over an example

    A locked object and an object with two versions, under a rule that is due for all
    of them. *)

Definition ex_put_segment (key segment : string) (retention : ObjectLockRetention) : BeginPutObjectRequest :=
  mkBeginPutObjectRequest ex_bucket key 4 "etag" "text/plain" zero_StorageClassSnapshot zero_ServerSideEncryption
    (zero_SegmentRef <| sr_SegmentID := segment |>) [] ∅ ∅ retention "".
Definition ex_rule : LifecycleRule :=
  mkLifecycleRule "rule" LifecycleRuleEnabled "" (mkLifecycleExpiration 1 0 false) (mkLifecycleNoncurrentVersionExpiration 1)
    (mkLifecycleAbortIncompleteMultipartUpload 1).
Definition ex_lifecycle_history : list call :=
  [ C_CreateTenant (mkCreateTenantRequest "tenant" "Tenant");
    C_CreateBucket (mkCreateBucketRequest "tenant" "photos" "eu-1" true);
    C_PutObjectVersion (ex_put_segment "a" "seg-a" (mkObjectLockRetention ObjectLockModeCompliance 1000000));
    C_PutObjectVersion (ex_put_segment "b" "seg-b1" zero_ObjectLockRetention);
    C_PutObjectVersion (ex_put_segment "b" "seg-b2" zero_ObjectLockRetention);
    C_PutBucketLifecycle (mkBucketLifecycleRequest ex_bucket (mkBucketLifecycleConfiguration [ex_rule]) ex_audit) ].
Definition ex_lifecycle_disk : LocalStore :=
  mkLocalStore (<["seg-a" := PlainFile "aaaa"]> (<["seg-b1" := PlainFile "bbbb"]> (<["seg-b2" := PlainFile "cccc"]> ∅))) ∅ [] [].
Definition ex_due : PlanRequest := mkPlanRequest ex_bucket (10 * 86400 * 1000000000) 0 0.
Definition ex_lifecycle_state : Repository := @run_all exEnv ex_lifecycle_history (@NewWithClock exEnv).
Definition ex_lifecycle_version : ObjectVersion := default zero_ObjectVersion (versions ex_lifecycle_state !! ex_key_a).
Lemma ex_lifecycle_locked : @locked_version ex_key_a ex_lifecycle_version ex_lifecycle_state.
Proof.
  split; [apply (some_of_is_some zero_ObjectVersion); by_eval | by_eval | by_eval |].
  exists (default zero_Bucket (bucketsByID ex_lifecycle_state !! ex_bucket)).
  split; [apply (some_of_is_some zero_Bucket); by_eval | by_eval].
Qed.
