(* ===== verification/Schedulers.v ===== *)
(** * Schedulers: running the background workers under a lease

    [src/internal/workerscheduler/scheduler.go], the scheduler of the garbage collector
    ([src/internal/gc/scheduler.go]) and that of the lifecycle worker
    ([src/internal/lifecycle/scheduler.go]). A runner checks the operator's control record and the budget,
    takes the lease of its shard, runs the work and records the operation; a
    scheduler turns the outcome into its status counters. The ticker loops around
    [RunOnce] and the logging are not modelled. *)

From S2P Require Import Prelude GoLib Sha256 StorageTypes Model Requests Encoding Meta Manifest Repo RepoLogic.
From S2P Require Import RepoBuckets RepoObjects RepoOps RepoShared RepoCalls ObjInv RepoExample Worm ProtRefs Budget Segments LocalStore.
From S2P Require Import WorkerSafety Gc GcSafety Lifecycle LifecycleSafety Leases.
Open Scope string_scope.
Open Scope Z_scope.

(** ** The runner *)

(** The budget is shared with the other workers: what the runner finds at its turn. *)
Record Runner := mkRunner {
  rn_WorkerKind : string;
  rn_ShardID : string;
  rn_OwnerID : string;
  rn_TTL : Z;
  rn_HoldLease : bool;
  rn_Budget : nat -> option Budget;
  rn_BudgetScope : BudgetScope
}.
#[export] Instance eta_Runner : RecordEta Runner := fun r =>
  mkRunner (rn_WorkerKind r) (rn_ShardID r) (rn_OwnerID r) (rn_TTL r) (rn_HoldLease r) (rn_Budget r)
    (rn_BudgetScope r).

Record Result := mkResult {
  rs_Status : string;
  rs_Cursor : string;
  rs_Scanned : Z;
  rs_Processed : Z;
  rs_Skipped : Z;
  rs_Retryable : Z;
  rs_LastError : string
}.
#[export] Instance eta_Result : RecordEta Result := fun r =>
  mkResult (rs_Status r) (rs_Cursor r) (rs_Scanned r) (rs_Processed r) (rs_Skipped r) (rs_Retryable r)
    (rs_LastError r).

Definition WorkerOperationSucceeded : string := "succeeded".
Definition WorkerOperationRetryPending : string := "retry_pending".
Definition WorkerOperationFailed : string := "failed".
Definition zero_WorkerOperationRecord : WorkerOperationRecord := mkWorkerOperationRecord "" "" "" "" "" "" "" 0 0 0 0 "" 0 0 0.

Definition budgetScope (r : Runner) : BudgetScope :=
  let scope := rn_BudgetScope r in
  mkBudgetScope (if bs_WorkerKind scope =s "" then rn_WorkerKind r else bs_WorkerKind scope)
    (if bs_ShardID scope =s "" then rn_ShardID r else bs_ShardID scope)
    (if bs_OwnerID scope =s "" then rn_OwnerID r else bs_OwnerID scope) (bs_TenantID scope) (bs_PoolID scope).

(** A nil budget admits everybody. *)
Definition TryAcquire (b : option Budget) (scope : BudgetScope) : option string :=
  match b with
  | None => None
  | Some b => match Budget_TryAcquire scope b with inl reason => Some reason | inr _ => None end
  end.

Definition is_meta (e : Err) (err : WErr) : bool := match err with MetaErr e' => bool_decide (e' = e) | _ => false end.
Definition is_throttled (err : WErr) : bool := match err with Throttled _ => true | _ => false end.

Definition operation_status (result : Result) (workErr : option WErr) : string :=
  if rs_Status result =s "" then
    match workErr with
    | None => WorkerOperationSucceeded
    | Some _ => if 0 <? rs_Retryable result then WorkerOperationRetryPending else WorkerOperationFailed
    end
  else rs_Status result.

Section Run.
Context `{Env} {D : Type} `{SegmentStore D}.
Context (others : nat -> list call) (error_text : WErr -> string).
Abbreviation W := (W (D := D)).
Abbreviation meta_call := (meta_call others).
Abbreviation meta_read := (meta_read others).

(** The work closure assigns a variable of its creator, of type [X], besides the
    result and the error it returns. *)
Definition WorkFunc (X : Type) : Type := WorkerLease -> W (X * (Result * option WErr)).

Definition checkControl (r : Runner) : W unit :=
  let! control := attempt_of (meta_read (GetWorkerControl (mkGetWorkerControlRequest (rn_WorkerKind r) (rn_ShardID r)))) in
  match control with
  | Fail (MetaErr ErrNotFound) => st_ret tt
  | Fail err => st_fail err
  | Ok control =>
      let state := NormalizeWorkerControlState (wcr_State control) in
      if state =s "paused" then st_fail (MetaErr ErrWorkerPaused)
      else if state =s "canceled" then st_fail (MetaErr ErrWorkerCanceled)
      else st_ret tt
  end.

Definition turn : W nat := fun w => (Ok (w_turn w), w).

(** The deferred release of the lease, whose error is dropped. *)
Definition release_lease (r : Runner) : W unit :=
  if rn_HoldLease r then st_ret tt
  else
    let req := mkReleaseWorkerLeaseRequest (rn_WorkerKind r) (rn_ShardID r) (rn_OwnerID r) in
    attempt_of (meta_call (C_ReleaseWorkerLease req) (ReleaseWorkerLease req)) ;;! st_ret tt.

(** The variable of the closure, which is [x] when the work did not run, and the
    record and the error as the code returns them. *)
Definition Runner_RunOnce {X} (r : Runner) (cursor : string) (x : X) (work : WorkFunc X)
    : W (X * (WorkerOperationRecord * option WErr)) :=
  let refused err := st_ret (x, (zero_WorkerOperationRecord, Some err)) in
  let! control := attempt_of (checkControl r) in
  match control with
  | Fail err => refused err
  | Ok _ =>
      let! t := turn in
      match TryAcquire (rn_Budget r t) (budgetScope r) with
      | Some reason => refused (Throttled reason)
      | None =>
          let ttl := if rn_TTL r <=? 0 then 30 * 1000000000 else rn_TTL r in
          let! now := worker_now in
          let req := mkAcquireWorkerLeaseRequest (rn_WorkerKind r) (rn_ShardID r) (rn_OwnerID r) ttl cursor in
          let! lease := attempt_of (meta_call (C_AcquireWorkerLease req) (AcquireWorkerLease req)) in
          match lease with
          | Fail err => refused err
          | Ok lease =>
              let! worked := work lease in
              let result := worked.2.1 in
              let workErr := worked.2.2 in
              let lastError := if rs_LastError result =s "" then
                                 match workErr with Some err => error_text err | None => "" end
                               else rs_LastError result in
              let! finished := worker_now in
              let put := mkPutWorkerOperationRequest (rn_WorkerKind r) (rn_ShardID r) (rn_OwnerID r) (wl_LeaseID lease)
                (operation_status result workErr) (rs_Cursor result) (rs_Scanned result) (rs_Processed result)
                (rs_Skipped result) (rs_Retryable result) lastError now finished in
              let! record := attempt_of (meta_call (C_PutWorkerOperation put) (PutWorkerOperation put)) in
              release_lease r ;;!
              match record with
              | Fail putErr => st_ret (worked.1, (zero_WorkerOperationRecord, Some putErr))
              | Ok record => st_ret (worked.1, (record, workErr))
              end
          end
      end
  end.

End Run.

(** ** The scheduler of the garbage collector *)

Record GcSchedulerConfig := mkGcSchedulerConfig {
  gsc_WorkerKind : string;
  gsc_ShardID : string;
  gsc_OwnerID : string;
  gsc_LeaseTTL : Z;
  gsc_Interval : Z;
  gsc_Limit : Z
}.
#[export] Instance eta_GcSchedulerConfig : RecordEta GcSchedulerConfig := fun r =>
  mkGcSchedulerConfig (gsc_WorkerKind r) (gsc_ShardID r) (gsc_OwnerID r) (gsc_LeaseTTL r) (gsc_Interval r)
    (gsc_Limit r).

(** [SchedulerStatusSnapshot]; the durations are in their printed form. *)
Record GcSchedulerStatus := mkGcSchedulerStatus {
  gst_Enabled : bool;
  gst_WorkerKind : string;
  gst_ShardID : string;
  gst_OwnerID : string;
  gst_Interval : string;
  gst_LeaseTTL : string;
  gst_Limit : Z;
  gst_Runs : Z;
  gst_Successes : Z;
  gst_Skipped : Z;
  gst_Errors : Z;
  gst_LastStartedAt : Time;
  gst_LastFinishedAt : Time;
  gst_LastOperationID : string;
  gst_LastOperationStatus : string;
  gst_LastSkipped : bool;
  gst_LastSkipReason : string;
  gst_LastError : string;
  gst_LastScanned : Z;
  gst_LastDeleted : Z;
  gst_LastRetryable : Z
}.
#[export] Instance eta_GcSchedulerStatus : RecordEta GcSchedulerStatus := fun r =>
  mkGcSchedulerStatus (gst_Enabled r) (gst_WorkerKind r) (gst_ShardID r) (gst_OwnerID r) (gst_Interval r)
    (gst_LeaseTTL r) (gst_Limit r) (gst_Runs r) (gst_Successes r) (gst_Skipped r) (gst_Errors r)
    (gst_LastStartedAt r) (gst_LastFinishedAt r) (gst_LastOperationID r) (gst_LastOperationStatus r)
    (gst_LastSkipped r) (gst_LastSkipReason r) (gst_LastError r) (gst_LastScanned r) (gst_LastDeleted r)
    (gst_LastRetryable r).

Record GcSchedulerResult := mkGcSchedulerResult {
  gsr_WorkerOperation : WorkerOperationRecord;
  gsr_GCOperation : OperationRecord;
  gsr_Skipped : bool;
  gsr_SkipReason : string
}.
#[export] Instance eta_GcSchedulerResult : RecordEta GcSchedulerResult := fun r =>
  mkGcSchedulerResult (gsr_WorkerOperation r) (gsr_GCOperation r) (gsr_Skipped r) (gsr_SkipReason r).

Definition zero_OperationRecord : OperationRecord := mkOperationRecord "" "" 0 0 0 0 0 0 [].
Definition zero_GcSchedulerResult : GcSchedulerResult := mkGcSchedulerResult zero_WorkerOperationRecord zero_OperationRecord false "".

Definition gc_normalizeSchedulerConfig (cfg : GcSchedulerConfig) : outcome WErr GcSchedulerConfig :=
  let cfg := if gsc_WorkerKind cfg =s "" then cfg <| gsc_WorkerKind := "gc" |> else cfg in
  let cfg := if gsc_ShardID cfg =s "" then cfg <| gsc_ShardID := "orphans" |> else cfg in
  if gsc_OwnerID cfg =s "" then Fail (TextErr "gc scheduler owner id is required")
  else if gsc_LeaseTTL cfg <=? 0 then Fail (TextErr "gc scheduler lease ttl must be positive")
  else if gsc_Interval cfg <=? 0 then Fail (TextErr "gc scheduler interval must be positive")
  else if gsc_Limit cfg <? 0 then Fail (TextErr "gc scheduler limit cannot be negative")
  else Ok cfg.

Definition workerStatusFromGCStatus (status : string) : string :=
  if status =s GCOperationSucceeded then WorkerOperationSucceeded
  else if status =s GCOperationRetryPending then WorkerOperationRetryPending
  else if status =s GCOperationFailed then WorkerOperationFailed
  else "".

Definition firstRetryableAttemptError (attempts : list AttemptRecord) : string :=
  match List.find (fun attempt => at_Retryable attempt || (at_Status attempt =s AttemptRetryable)) attempts with
  | Some attempt => at_Error attempt
  | None => ""
  end.

Definition schedulerResultFromGCRecord (error_text : WErr -> string) (record : OperationRecord) (err : option WErr) : Result :=
  let status := workerStatusFromGCStatus (or_Status record) in
  let result status lastError := mkResult status "" (or_Scanned record) (or_Deleted record) (or_Skipped record) (or_Retryable record) lastError in
  match err with
  | Some err => result (if status =s "" then WorkerOperationFailed else status) (error_text err)
  | None => result status (firstRetryableAttemptError (or_Attempts record))
  end.

(** What the errors of a runner that did not run mean to a scheduler. *)
Definition skip_reason (err : WErr) : option string :=
  if is_meta ErrCASConflict err then Some "lease_held"
  else if is_meta ErrWorkerPaused err then Some "paused"
  else if is_meta ErrWorkerCanceled err then Some "canceled"
  else if is_throttled err then Some "throttled"
  else None.

Section GcScheduler.
Context `{Env} {D : Type} `{SegmentStore D}.
Context (others : nat -> list call) (order : list ProtectedRef -> list ProtectedRef) (error_text : WErr -> string).
(** [time.Duration.String] and the scheduler's clock. *)
Context (duration_string : Z -> string) (clock : nat -> Time).
Abbreviation W := (W (D := D)).

Definition gc_Configure (enabled : bool) (cfg : GcSchedulerConfig) (st : GcSchedulerStatus) : GcSchedulerStatus :=
  st <| gst_Enabled := enabled |> <| gst_WorkerKind := gsc_WorkerKind cfg |> <| gst_ShardID := gsc_ShardID cfg |>
     <| gst_OwnerID := gsc_OwnerID cfg |> <| gst_Interval := duration_string (gsc_Interval cfg) |>
     <| gst_LeaseTTL := duration_string (gsc_LeaseTTL cfg) |> <| gst_Limit := gsc_Limit cfg |>.

Definition gc_observeStart (startedAt : Time) (st : GcSchedulerStatus) : GcSchedulerStatus :=
  st <| gst_Runs := uint64 (gst_Runs st + 1) |> <| gst_LastStartedAt := startedAt |> <| gst_LastFinishedAt := 0 |>
     <| gst_LastSkipped := false |> <| gst_LastSkipReason := "" |> <| gst_LastError := "" |>.

Definition gc_observeFinish (result : GcSchedulerResult) (err : option WErr) (finishedAt : Time) (st : GcSchedulerStatus)
    : GcSchedulerStatus :=
  let st := st <| gst_LastFinishedAt := finishedAt |> <| gst_LastOperationID := wor_OperationID (gsr_WorkerOperation result) |>
    <| gst_LastOperationStatus := wor_Status (gsr_WorkerOperation result) |> <| gst_LastSkipped := gsr_Skipped result |>
    <| gst_LastSkipReason := gsr_SkipReason result |> <| gst_LastScanned := or_Scanned (gsr_GCOperation result) |>
    <| gst_LastDeleted := or_Deleted (gsr_GCOperation result) |> <| gst_LastRetryable := or_Retryable (gsr_GCOperation result) |>
    <| gst_LastError := wor_LastError (gsr_WorkerOperation result) |> in
  match err with
  | Some err => st <| gst_Errors := uint64 (gst_Errors st + 1) |> <| gst_LastError := error_text err |>
  | None => if gsr_Skipped result then st <| gst_Skipped := uint64 (gst_Skipped st + 1) |>
            else st <| gst_Successes := uint64 (gst_Successes st + 1) |>
  end.

(** [now()] of the scheduler, by the number of repository calls. *)
Definition scheduler_now : W Time := fun w => (Ok (clock (w_turn w)), w).

(** The whole of [RunOnce], with the status before and after. *)
Definition GcScheduler_RunOnce (worker : GCWorker) (cfg : GcSchedulerConfig) (budget : nat -> option Budget) (scope : BudgetScope)
    (st : GcSchedulerStatus) : W (GcSchedulerStatus * (GcSchedulerResult * option WErr)) :=
  match gc_normalizeSchedulerConfig cfg with
  | Fail err => st_ret (st, (zero_GcSchedulerResult, Some err))
  | Ok cfg =>
      let st := gc_Configure true cfg st in
      let! started := scheduler_now in
      let st := gc_observeStart started st in
      let runner := mkRunner (gsc_WorkerKind cfg) (gsc_ShardID cfg) (gsc_OwnerID cfg) (gsc_LeaseTTL cfg) true budget scope in
      let! ran := Runner_RunOnce others error_text runner "" zero_OperationRecord (fun _ =>
        let! run := RunOnce others order error_text worker (gsc_Limit cfg) in
        st_ret (run.1, (schedulerResultFromGCRecord error_text run.1 run.2, run.2))) in
      let record := ran.1 in
      let operation := ran.2.1 in
      let! finished := scheduler_now in
      let return_ result err := st_ret (gc_observeFinish result err finished st, (result, err)) in
      match ran.2.2 with
      | None => return_ (mkGcSchedulerResult operation record false "") None
      | Some err =>
          match skip_reason err with
          | Some reason => return_ (mkGcSchedulerResult zero_WorkerOperationRecord zero_OperationRecord true reason) None
          | None => return_ (mkGcSchedulerResult operation record false "") (Some err)
          end
      end
  end.
End GcScheduler.

(** ** The scheduler of the lifecycle worker *)

Record LifecycleSchedulerConfig := mkLifecycleSchedulerConfig {
  lsc_WorkerKind : string;
  lsc_ShardID : string;
  lsc_OwnerID : string;
  lsc_BucketID : string;
  lsc_LeaseTTL : Z;
  lsc_Interval : Z;
  lsc_MaxKeys : Z;
  lsc_MaxUploads : Z
}.
#[export] Instance eta_LifecycleSchedulerConfig : RecordEta LifecycleSchedulerConfig := fun r =>
  mkLifecycleSchedulerConfig (lsc_WorkerKind r) (lsc_ShardID r) (lsc_OwnerID r) (lsc_BucketID r) (lsc_LeaseTTL
    r) (lsc_Interval r) (lsc_MaxKeys r) (lsc_MaxUploads r).

(** [SchedulerStatusSnapshot] of the lifecycle scheduler. *)
Record LifecycleSchedulerStatus := mkLifecycleSchedulerStatus {
  lst_Enabled : bool;
  lst_WorkerKind : string;
  lst_ShardID : string;
  lst_OwnerID : string;
  lst_BucketID : string;
  lst_Interval : string;
  lst_LeaseTTL : string;
  lst_MaxKeys : Z;
  lst_MaxUploads : Z;
  lst_Runs : Z;
  lst_Successes : Z;
  lst_Skipped : Z;
  lst_Errors : Z;
  lst_LastStartedAt : Time;
  lst_LastFinishedAt : Time;
  lst_LastOperationID : string;
  lst_LastOperationStatus : string;
  lst_LastSkipped : bool;
  lst_LastSkipReason : string;
  lst_LastError : string;
  lst_LastPlanned : Z;
  lst_LastProcessed : Z;
  lst_LastActionSkipped : Z;
  lst_LastRetryable : Z
}.
#[export] Instance eta_LifecycleSchedulerStatus : RecordEta LifecycleSchedulerStatus := fun r =>
  mkLifecycleSchedulerStatus (lst_Enabled r) (lst_WorkerKind r) (lst_ShardID r) (lst_OwnerID r) (lst_BucketID
    r) (lst_Interval r) (lst_LeaseTTL r) (lst_MaxKeys r) (lst_MaxUploads r) (lst_Runs r) (lst_Successes r)
    (lst_Skipped r) (lst_Errors r) (lst_LastStartedAt r) (lst_LastFinishedAt r) (lst_LastOperationID r)
    (lst_LastOperationStatus r) (lst_LastSkipped r) (lst_LastSkipReason r) (lst_LastError r) (lst_LastPlanned
    r) (lst_LastProcessed r) (lst_LastActionSkipped r) (lst_LastRetryable r).

Record LifecycleSchedulerResult := mkLifecycleSchedulerResult {
  lsr_WorkerOperation : WorkerOperationRecord;
  lsr_LifecycleWorker : WorkerResult;
  lsr_Skipped : bool;
  lsr_SkipReason : string
}.
#[export] Instance eta_LifecycleSchedulerResult : RecordEta LifecycleSchedulerResult := fun r =>
  mkLifecycleSchedulerResult (lsr_WorkerOperation r) (lsr_LifecycleWorker r) (lsr_Skipped r) (lsr_SkipReason
    r).

Definition zero_LifecycleSchedulerResult : LifecycleSchedulerResult :=
  mkLifecycleSchedulerResult zero_WorkerOperationRecord zero_WorkerResult false "".

Definition lifecycle_normalizeSchedulerConfig (cfg : LifecycleSchedulerConfig) : outcome WErr LifecycleSchedulerConfig :=
  let cfg := if lsc_WorkerKind cfg =s "" then cfg <| lsc_WorkerKind := "lifecycle" |> else cfg in
  let cfg := if lsc_ShardID cfg =s "" then cfg <| lsc_ShardID := "buckets" |> else cfg in
  if lsc_OwnerID cfg =s "" then Fail (TextErr "lifecycle scheduler owner id is required")
  else if lsc_BucketID cfg =s "" then Fail (TextErr "lifecycle scheduler bucket id is required")
  else if lsc_LeaseTTL cfg <=? 0 then Fail (TextErr "lifecycle scheduler lease ttl must be positive")
  else if lsc_Interval cfg <=? 0 then Fail (TextErr "lifecycle scheduler interval must be positive")
  else if lsc_MaxKeys cfg <? 0 then Fail (TextErr "lifecycle scheduler max keys cannot be negative")
  else if lsc_MaxUploads cfg <? 0 then Fail (TextErr "lifecycle scheduler max uploads cannot be negative")
  else Ok cfg.

Definition lifecycleRetryable (result : WorkerResult) : Z := wr_DeleteFailed result + wr_Failed result.

Definition schedulerResultFromLifecycle (error_text : WErr -> string) (result : WorkerResult) (cursor : string) (err : option WErr) : Result :=
  let retryable := lifecycleRetryable result in
  let status := if 0 <? retryable then WorkerOperationRetryPending else WorkerOperationSucceeded in
  let lastError := if 0 <? retryable then "lifecycle worker completed with retryable failures" else "" in
  let made status lastError := mkResult status cursor (wr_Planned result) (wr_Processed result) (wr_Skipped result) retryable lastError in
  match err with
  | Some err => made (if 0 <? retryable then WorkerOperationRetryPending else WorkerOperationFailed) (error_text err)
  | None => made status lastError
  end.

Section LifecycleScheduler.
Context `{Env} {D : Type} `{SegmentStore D}.
Context (others : nat -> list call) (order : list ProtectedRef -> list ProtectedRef) (error_text : WErr -> string).
Context (duration_string : Z -> string) (clock : nat -> Time).
Abbreviation W := (W (D := D)).

Definition lifecycle_Configure (enabled : bool) (cfg : LifecycleSchedulerConfig) (st : LifecycleSchedulerStatus) : LifecycleSchedulerStatus :=
  st <| lst_Enabled := enabled |> <| lst_WorkerKind := lsc_WorkerKind cfg |> <| lst_ShardID := lsc_ShardID cfg |>
     <| lst_OwnerID := lsc_OwnerID cfg |> <| lst_BucketID := lsc_BucketID cfg |>
     <| lst_Interval := duration_string (lsc_Interval cfg) |> <| lst_LeaseTTL := duration_string (lsc_LeaseTTL cfg) |>
     <| lst_MaxKeys := lsc_MaxKeys cfg |> <| lst_MaxUploads := lsc_MaxUploads cfg |>.

Definition lifecycle_observeStart (startedAt : Time) (st : LifecycleSchedulerStatus) : LifecycleSchedulerStatus :=
  st <| lst_Runs := uint64 (lst_Runs st + 1) |> <| lst_LastStartedAt := startedAt |> <| lst_LastFinishedAt := 0 |>
     <| lst_LastSkipped := false |> <| lst_LastSkipReason := "" |> <| lst_LastError := "" |>.

Definition lifecycle_observeFinish (result : LifecycleSchedulerResult) (err : option WErr) (finishedAt : Time)
    (st : LifecycleSchedulerStatus) : LifecycleSchedulerStatus :=
  let worked := lsr_LifecycleWorker result in
  let st := st <| lst_LastFinishedAt := finishedAt |> <| lst_LastOperationID := wor_OperationID (lsr_WorkerOperation result) |>
    <| lst_LastOperationStatus := wor_Status (lsr_WorkerOperation result) |> <| lst_LastSkipped := lsr_Skipped result |>
    <| lst_LastSkipReason := lsr_SkipReason result |> <| lst_LastPlanned := wr_Planned worked |>
    <| lst_LastProcessed := wr_Processed worked |> <| lst_LastActionSkipped := wr_Skipped worked |>
    <| lst_LastRetryable := lifecycleRetryable worked |> <| lst_LastError := wor_LastError (lsr_WorkerOperation result) |> in
  match err with
  | Some err => st <| lst_Errors := uint64 (lst_Errors st + 1) |> <| lst_LastError := error_text err |>
  | None => if lsr_Skipped result then st <| lst_Skipped := uint64 (lst_Skipped st + 1) |>
            else st <| lst_Successes := uint64 (lst_Successes st + 1) |>
  end.

Definition LifecycleScheduler_RunOnce (worker : LifecycleWorker) (cfg : LifecycleSchedulerConfig) (budget : nat -> option Budget)
    (scope : BudgetScope) (st : LifecycleSchedulerStatus)
    : W (LifecycleSchedulerStatus * (LifecycleSchedulerResult * option WErr)) :=
  match lifecycle_normalizeSchedulerConfig cfg with
  | Fail err => st_ret (st, (zero_LifecycleSchedulerResult, Some err))
  | Ok cfg =>
      let st := lifecycle_Configure true cfg st in
      let! started := scheduler_now clock in
      let st := lifecycle_observeStart started st in
      let runner := mkRunner (lsc_WorkerKind cfg) (lsc_ShardID cfg) (lsc_OwnerID cfg) (lsc_LeaseTTL cfg) true budget scope in
      let! ran := Runner_RunOnce others error_text runner (lsc_BucketID cfg) zero_WorkerResult (fun _ =>
        let! t := scheduler_now clock in
        let! run := LifecycleWorker_RunOnce others order worker
                      (mkPlanRequest (lsc_BucketID cfg) t (lsc_MaxKeys cfg) (lsc_MaxUploads cfg)) in
        st_ret (run.1, (schedulerResultFromLifecycle error_text run.1 (lsc_BucketID cfg) run.2, run.2))) in
      let worked := ran.1 in
      let operation := ran.2.1 in
      let! finished := scheduler_now clock in
      let return_ result err := st_ret (lifecycle_observeFinish result err finished st, (result, err)) in
      match ran.2.2 with
      | None => return_ (mkLifecycleSchedulerResult operation worked false "") None
      | Some err =>
          match skip_reason err with
          | Some reason => return_ (mkLifecycleSchedulerResult zero_WorkerOperationRecord zero_WorkerResult true reason) None
          | None => return_ (mkLifecycleSchedulerResult operation worked false "") (Some err)
          end
      end
  end.
End LifecycleScheduler.

(** ** Work is done under the lease *)

(** The lease of the runner's shard is this one, is the runner's, and has not expired
    at the last reading of the repository's clock. *)
Definition holds_lease `{Env} {D} (r : Runner) (lease : WorkerLease) (w : World D) : Prop :=
  workerLeases (w_repo w) !! WorkerLeaseID (rn_WorkerKind r) (rn_ShardID r) = Some lease /\
  wl_OwnerID lease = TrimSpace (rn_OwnerID r) /\
  exists i, clock_calls (w_repo w) = S i /\ env_now i < wl_ExpiresAt lease.

Section Guards.
Context `{Env} {D : Type} `{SegmentStore D}.
Context (others : nat -> list call) (error_text : WErr -> string).

Lemma BuildWorkerLease_expiry existing req t lease : BuildWorkerLease existing req t = Ok lease -> t < wl_ExpiresAt lease.
Proof.
  unfold BuildWorkerLease. destruct (_ || _ || _); [done|]. destruct (Z.leb_spec (awl_TTL req) 0); [done|].
  destruct (_ && _ && _); [done|]. intros [= <-]. simpl. lia.
Qed.

Lemma acquired_lease r ttl cursor (w : World D) lease w' :
  let req := mkAcquireWorkerLeaseRequest (rn_WorkerKind r) (rn_ShardID r) (rn_OwnerID r) ttl cursor in
  attempt_of (meta_call others (C_AcquireWorkerLease req) (AcquireWorkerLease req)) w = (Ok (Ok lease), w') ->
  holds_lease r lease w'.
Proof.
  intros req. unfold attempt_of, meta_call. cbv zeta. set (s := run_all _ _).
  unfold AcquireWorkerLease. cbv zeta.
  unfold st_bind, gets, now, st_lift, st_modify, st_ret. cbn [fst snd].
  destruct (BuildWorkerLease _ req _) as [lease'|] eqn:Hb; cbn [meta_outcome fst snd]; intros Heq; [|done].
  injection Heq as <- <-. destruct (BuildWorkerLease_ok _ _ _ _ Hb) as (Hid & Ho & _). split; [|split; [done|]].
  - change (<[wl_LeaseID lease' := lease']> (workerLeases s) !! WorkerLeaseID (rn_WorkerKind r) (rn_ShardID r) = Some lease').
    rewrite Hid. apply lookup_insert_eq.
  - exists (clock_calls s). split; [done|]. by eapply BuildWorkerLease_expiry.
Qed.

(** Two works that do the same wherever the lease is held give the same run. *)
Lemma bind_agree {S E A B} (m : ST S E A) (f g : A -> ST S E B) s :
  (forall a s', m s = (Ok a, s') -> f a s' = g a s') -> st_bind m f s = st_bind m g s.
Proof. intros Hfg. unfold st_bind. destruct (m s) as [[a|] s'] eqn:Hm; [by apply Hfg | done]. Qed.

Lemma Runner_agree {X} r cursor (x : X) (f g : WorkFunc X) (w : World D) :
  (forall lease w', holds_lease r lease w' -> f lease w' = g lease w') ->
  Runner_RunOnce others error_text r cursor x f w = Runner_RunOnce others error_text r cursor x g w.
Proof.
  intros Hfg. unfold Runner_RunOnce. cbv zeta. apply bind_agree. intros [|] w1 _; [|done].
  apply bind_agree. intros t w2 _. destruct (TryAcquire _ _); [done|]. apply bind_agree. intros now w3 _.
  apply bind_agree. intros [lease|] w4 Hl; [|done]. unfold st_bind at 1. symmetry. unfold st_bind at 1.
  by rewrite (Hfg lease w4 (acquired_lease _ _ _ _ _ _ Hl)).
Qed.

Lemma Runner_paused {X} r cursor (x : X) (f : WorkFunc X) (w : World D) control :
  TrimSpace (rn_WorkerKind r) <> "" -> TrimSpace (rn_ShardID r) <> "" ->
  workerControls (run_all (others (w_turn w)) (w_repo w)) !! WorkerLeaseID (rn_WorkerKind r) (rn_ShardID r) = Some control ->
  NormalizeWorkerControlState (wcr_State control) = "paused" ->
  let w' := st_exec (Runner_RunOnce others error_text r cursor x f) w in
  (Runner_RunOnce others error_text r cursor x f w).1 = Ok (x, (zero_WorkerOperationRecord, Some (MetaErr ErrWorkerPaused))) /\
  w_store w' = w_store w /\ w_repo w' = run_all (others (w_turn w)) (w_repo w).
Proof.
  intros Hk Hs Hc Hp. unfold Runner_RunOnce, checkControl, attempt_of, meta_read, GetWorkerControl, st_exec.
  cbv zeta. cbn [gwc_WorkerKind gwc_ShardID].
  rewrite (proj2 (String.eqb_neq _ _) Hk), (proj2 (String.eqb_neq _ _) Hs), WorkerLeaseID_trim. cbn [orb].
  unfold st_bind, lookup_or. rewrite Hc. cbn [meta_outcome fst snd]. rewrite Hp. done.
Qed.
End Guards.


(** ** The schedulers spare locked segments *)

Section Lift.
Context `{Env, !GeneratorOk} {D : Type} `{SegmentStoreLaws D}.
Context (others : nat -> list call) (order : list ProtectedRef -> list ProtectedRef) (error_text : WErr -> string).
Context (duration_string : Z -> string) (clock : nat -> Time).
Context (quiet : list call -> bool) `{!PrefixClosed quiet} (l0 : list call) (v : ObjectVersion) (seg : SegmentRef).
Abbreviation spares := (spares (D := D) quiet l0 v seg).

Lemma GetWorkerControl_reads req s : st_exec (GetWorkerControl req) s = s.
Proof. revert s. change (frames (fun s => s) (GetWorkerControl req)). frame. Qed.

Lemma turn_spares : preserves spares turn.
Proof. apply spares_store; [intros w; exists []; by rewrite app_nil_r | by intros w]. Qed.
Lemma scheduler_now_spares : preserves spares (scheduler_now clock).
Proof. apply spares_store; [intros w; exists []; by rewrite app_nil_r | by intros w]. Qed.

Lemma Runner_spares {X} r cursor (x : X) (work : WorkFunc X) :
  (forall lease, preserves spares (work lease)) -> preserves spares (Runner_RunOnce others error_text r cursor x work).
Proof.
  intros Hwork. walk ltac:(idtac; lazymatch goal with
    | |- preserves _ (attempt_of (checkControl _ _)) => apply attempt_preserves;
        walk ltac:(idtac; apply attempt_preserves, meta_read_spares, GetWorkerControl_reads)
    | |- preserves _ (attempt_of _) => apply attempt_preserves; spare
    | |- preserves _ turn => apply turn_spares
    | |- preserves _ (work _) => apply Hwork end).
Qed.

Lemma GcScheduler_spares worker cfg budget scope st :
  (forall limit, preserves spares (RunOnce others order error_text worker limit)) ->
  preserves spares (GcScheduler_RunOnce others order error_text duration_string clock worker cfg budget scope st).
Proof.
  intros Hrun. unfold GcScheduler_RunOnce. destruct (gc_normalizeSchedulerConfig cfg) as [c|]; [|spare]. cbv zeta.
  apply preserves_bind; [tc_solve|apply scheduler_now_spares|intros started].
  apply preserves_bind; [tc_solve| |intros ran; apply preserves_bind; [tc_solve|apply scheduler_now_spares|intros finished; spare]].
  apply Runner_spares. intros _. apply preserves_bind; [tc_solve|apply Hrun|intros; spare].
Qed.

Lemma LifecycleScheduler_spares worker cfg budget scope st :
  (forall req, preserves spares (LifecycleWorker_RunOnce others order worker req)) ->
  preserves spares (LifecycleScheduler_RunOnce others order error_text duration_string clock worker cfg budget scope st).
Proof.
  intros Hrun. unfold LifecycleScheduler_RunOnce. destruct (lifecycle_normalizeSchedulerConfig cfg) as [c|]; [|spare]. cbv zeta.
  apply preserves_bind; [tc_solve|apply scheduler_now_spares|intros started].
  apply preserves_bind; [tc_solve| |intros ran; apply preserves_bind; [tc_solve|apply scheduler_now_spares|intros finished; spare]].
  apply Runner_spares. intros _. apply preserves_bind; [tc_solve|apply scheduler_now_spares|intros t].
  apply preserves_bind; [tc_solve|apply Hrun|intros; spare].
Qed.
End Lift.

(** C7: The garbage collector never deletes a locked segment. Take any history of
    repository calls, a committed version in COMPLIANCE mode in a lock-enabled
    bucket, one of its segments, and a run of the collector's scheduler with the deletion gate,
    on any segment store, while any other calls reach the repository between the
    steps of the run. If the clock does not go back and stays before the
    retain-until date, and no two of the references stored on the way have the same
    SHA-256 identifier, the segment's bytes are what they were. *)
Theorem gc_spares_locked_segments `{Env, !GeneratorOk} {D} `{SegmentStoreLaws D} (others : nat -> list call)
    (order : list ProtectedRef -> list ProtectedRef) (error_text : WErr -> string) (duration_string : Z -> string)
    (clock : nat -> Time) (worker : GCWorker) (cfg : GcSchedulerConfig) (budget : nat -> option Budget) (scope : BudgetScope)
    (status : GcSchedulerStatus) (history : list call) (d : D) (k : versionKey) (v : ObjectVersion) (ref : SegmentRef) :
  let s := run_all history NewWithClock in
  let w := st_exec (GcScheduler_RunOnce others order error_text duration_string clock worker cfg budget scope status)
             (mkWorld s d history 0%nat) in
  (forall i j, (i <= j)%nat -> env_now i <= env_now j) -> (forall l, order l ≡ₚ l) ->
  gcw_Admission worker = true ->
  locked_version k v s -> retention_mode v = ObjectLockModeCompliance ->
  ref ∈ objectSegmentRefsFromVersion v -> sr_SegmentID ref <> "" ->
  collision_free (w_log w) NewWithClock = true ->
  (forall i, (clock_calls s <= i < clock_calls (w_repo w))%nat -> env_now i < retain_until v) ->
  segment_bytes (w_store w) ref = segment_bytes d ref.
Proof.
  intros s w Hclock Horder Ha Hl Hm Hr Hne Hn Ht.
  destruct (GcScheduler_spares others order error_text duration_string clock quiet_refs history v ref worker cfg budget scope status
    (fun limit => RunOnce_spares others order error_text Hclock Horder history k v ref Hl Hm Hr Hne worker limit Ha)
    (mkWorld s d history 0%nat)) as [_ Hb]. apply Hb; [|by split]. exists []. by rewrite app_nil_r.
Qed.


(** ** Witnesses *)

Definition no_status : GcSchedulerStatus := mkGcSchedulerStatus false "" "" "" "" "" 0 0 0 0 0 0 0 "" "" false "" "" 0 0 0.
Definition no_lifecycle_status : LifecycleSchedulerStatus :=
  mkLifecycleSchedulerStatus false "" "" "" "" "" "" 0 0 0 0 0 0 0 0 "" "" false "" "" 0 0 0 0.
Definition ex_gc_config : GcSchedulerConfig := mkGcSchedulerConfig "" "" "gw-1" 1000 1000 10.
Definition ex_lifecycle_config : LifecycleSchedulerConfig := mkLifecycleSchedulerConfig "" "" "gw-1" ex_bucket 1000 1000 0 0.
Definition no_scope : BudgetScope := mkBudgetScope "" "" "" "" "".
Abbreviation ex_gc_run :=
  (st_exec (@GcScheduler_RunOnce exEnv LocalStore LocalStore_store ex_intruder (fun l => l) (fun _ => "error") Itoa Z.of_nat
     ex_worker ex_gc_config (fun _ => None) no_scope no_status)
    (mkWorld (@run_all exEnv ex_history (@NewWithClock exEnv)) ex_disk ex_history 0%nat)).
Abbreviation ex_lifecycle_run :=
  (st_exec (@LifecycleScheduler_RunOnce exEnv LocalStore LocalStore_store (fun _ => []) (fun l => l) (fun _ => "error") Itoa
     (fun _ => pr_Now ex_due) (mkLifecycleWorker true true true) ex_lifecycle_config (fun _ => None) no_scope no_lifecycle_status)
    (mkWorld (@run_all exEnv ex_lifecycle_history (@NewWithClock exEnv)) ex_lifecycle_disk ex_lifecycle_history 0%nat)).

(** The queue has the locked segment; the run is recorded. *)
Lemma gc_spares_locked_segments_witness :
  is_some (gcCandidates (@run_all exEnv ex_history (@NewWithClock exEnv)) !! "seg-1") = true /\
  length (workerOps (w_repo ex_gc_run)) = 1%nat /\
  segment_bytes (w_store ex_gc_run) ex_segment = Some "data".
Proof.
  split; [vm_compute; reflexivity|]. split; [vm_compute; reflexivity|].
  transitivity (segment_bytes ex_disk ex_segment); [|vm_compute; reflexivity].
  apply (@gc_spares_locked_segments exEnv exEnv_ok LocalStore LocalStore_store LocalStore_laws ex_intruder (fun l => l)
    (fun _ => "error") Itoa Z.of_nat ex_worker ex_gc_config (fun _ => None) no_scope no_status ex_history ex_disk ex_key_a ex_gc_version).
  - intros i j Hij. simpl. lia.
  - done.
  - reflexivity.
  - exact ex_history_locked.
  - vm_compute. reflexivity.
  - assert (objectSegmentRefsFromVersion ex_gc_version = [ex_segment]) as -> by (vm_compute; reflexivity). by left.
  - done.
  - vm_compute. reflexivity.
  - assert (clock_calls (w_repo ex_gc_run) < 100)%nat as Hc by (apply (bool_decide_unpack _); vm_compute; reflexivity).
    assert (retain_until ex_gc_version = 1000000) as -> by (vm_compute; reflexivity).
    intros i Hi. change (@env_now exEnv i) with (Z.of_nat i + 1). lia.
Defined.


(** A work function that would delete a segment without a lease is never seen to. *)
Definition ex_runner : Runner := mkRunner "gc" "all" "gw-1" 1000 true (fun _ => None) no_scope.
Definition careful (lease : WorkerLease) : W (D := LocalStore) (unit * (Result * option WErr)) := fun w =>
  if is_some (workerLeases (w_repo w) !! WorkerLeaseID "gc" "all") then (Ok (tt, (mkResult "" "" 0 0 0 0 "", None)), w)
  else (Fail (TextErr "no lease"), (seg_call (DeleteSegment ex_segment "") w).2).
Definition plain (lease : WorkerLease) : W (D := LocalStore) (unit * (Result * option WErr)) :=
  st_ret (tt, (mkResult "" "" 0 0 0 0 "", None)).
Definition ex_gc_world : World LocalStore :=
  mkWorld (@run_all exEnv ex_history (@NewWithClock exEnv)) ex_disk ex_history 0%nat.

