(* ===== verification/Keyspace.v ===== *)
(** * Keyspace: the key encoding of the KV metadata repository

    [src/internal/meta/keyspace/keyspace.go]: every record has one string key, a
    path whose variable segments are percent-escaped. The builders are one
    definition each. The theorems say that escaping is reversible and keeps the
    separator out, and that two records never share a key: a key determines its
    family and its arguments. *)

From S2P Require Import Prelude GoLib.
From Stdlib Require Import Ascii.
Open Scope string_scope.

(** ** Escaping *)

Definition isSafe (c : ascii) : bool :=
  byte_in 65 90 c || byte_in 97 122 c || byte_in 48 57 c ||
  byte_is 45 c || byte_is 95 c || byte_is 46 c || byte_is 126 c.

(** One digit of [strings.ToUpper(hex.EncodeToString(...))]. *)
Definition upper_hex_digit (n : N) : ascii := ascii_of_N (if (n <? 10)%N then 48 + n else 55 + n)%N.

Definition percent : ascii := "%".
Definition slash : ascii := "/".

Fixpoint escape (value : string) : string :=
  match value with
  | "" => ""
  | String c rest =>
      if isSafe c then String c (escape rest)
      else String percent (String (upper_hex_digit (N_of_ascii c / 16))
             (String (upper_hex_digit (N_of_ascii c mod 16)) (escape rest)))
  end.

Definition EscapeObjectKey (key : string) : string := escape key.
Definition EscapePathSegment (segment : string) : string := escape segment.

(** One digit of [hex.DecodeString]; both cases are accepted. *)
Definition from_hex_digit (c : ascii) : option N :=
  if byte_in 48 57 c then Some (N_of_ascii c - 48)%N
  else if byte_in 97 102 c then Some (N_of_ascii c - 87)%N
  else if byte_in 65 70 c then Some (N_of_ascii c - 55)%N
  else None.

(** [None] is the error (a truncated escape or a digit that is not hexadecimal). *)
Fixpoint unescape (value : string) : option string :=
  match value with
  | "" => Some ""
  | String c rest =>
      if negb (Ascii.eqb c percent) then String c <$> unescape rest
      else match rest with
           | String h (String l rest') =>
               high ← from_hex_digit h; low ← from_hex_digit l;
               String (ascii_of_N (high * 16 + low)) <$> unescape rest'
           | _ => None
           end
  end.

Definition UnescapeObjectKey (encoded : string) : option string := unescape encoded.

Definition leftPadInt (value : Z) (width : nat) : string :=
  let text := Itoa value in
  if (width <=? String.length text)%nat then text
  else repeat_str (width - String.length text) "0" +:+ text.

(** ** The key builders *)

Definition key_prefix : string := "/namros/v1".

Definition MetadataSchemaKey : string := key_prefix +:+ "/system/schema".
Definition TenantKey (tenantID : string) : string := key_prefix +:+ "/tenants/" +:+ EscapePathSegment tenantID.
Definition TenantQuotaKey (tenantID : string) : string :=
  key_prefix +:+ "/tenants/" +:+ EscapePathSegment tenantID +:+ "/quota".
Definition TenantUsageKey (tenantID : string) : string :=
  key_prefix +:+ "/tenants/" +:+ EscapePathSegment tenantID +:+ "/usage".
Definition AccessKeyKey (accessKeyID : string) : string := key_prefix +:+ "/access-keys/" +:+ EscapePathSegment accessKeyID.
Definition KMSKeyKey (keyID : string) : string := key_prefix +:+ "/kms/keys/" +:+ EscapePathSegment keyID.
Definition ComplianceProfileAttachmentKey (profileID : string) : string :=
  key_prefix +:+ "/compliance/profile-attachments/" +:+ EscapePathSegment profileID.
Definition BucketByNameKey (name : string) : string := key_prefix +:+ "/buckets/by-name/" +:+ EscapePathSegment name.
Definition BucketByIDKey (bucketID : string) : string := key_prefix +:+ "/buckets/by-id/" +:+ EscapePathSegment bucketID.
Definition BucketQuotaKey (bucketID : string) : string :=
  key_prefix +:+ "/buckets/" +:+ EscapePathSegment bucketID +:+ "/quota".
Definition ObjectHeadKey (bucketID key : string) : string :=
  key_prefix +:+ "/buckets/" +:+ EscapePathSegment bucketID +:+ "/objects/" +:+ EscapeObjectKey key +:+ "/head".
Definition ObjectVersionKey (bucketID key versionSortKey : string) : string :=
  key_prefix +:+ "/buckets/" +:+ EscapePathSegment bucketID +:+ "/versions/" +:+ EscapeObjectKey key +:+ "/" +:+
  EscapePathSegment versionSortKey.
Definition ObjectVersionByIDKey (bucketID versionID : string) : string :=
  key_prefix +:+ "/buckets/" +:+ EscapePathSegment bucketID +:+ "/versions-by-id/" +:+ EscapePathSegment versionID.
Definition ObjectManifestChunkKey (bucketID versionID : string) (chunkNumber : Z) : string :=
  let base := key_prefix +:+ "/buckets/" +:+ EscapePathSegment bucketID +:+ "/object-manifests/" +:+
              EscapePathSegment versionID +:+ "/chunks/" in
  if (chunkNumber <=? 0)%Z then base else base +:+ leftPadInt chunkNumber 6.
Definition ListObjectKey (bucketID key : string) : string :=
  key_prefix +:+ "/buckets/" +:+ EscapePathSegment bucketID +:+ "/list/" +:+ EscapeObjectKey key.
Definition MultipartUploadKey (bucketID uploadID : string) : string :=
  key_prefix +:+ "/buckets/" +:+ EscapePathSegment bucketID +:+ "/multipart/" +:+ EscapePathSegment uploadID +:+ "/state".
Definition MultipartCompletionKey (bucketID uploadID : string) : string :=
  key_prefix +:+ "/buckets/" +:+ EscapePathSegment bucketID +:+ "/multipart/" +:+ EscapePathSegment uploadID +:+ "/completion".
Definition MultipartUploadByKeyKey (bucketID key uploadID : string) : string :=
  key_prefix +:+ "/buckets/" +:+ EscapePathSegment bucketID +:+ "/multipart-by-key/" +:+ EscapeObjectKey key +:+ "/" +:+
  EscapePathSegment uploadID.
Definition MultipartPartKey (bucketID uploadID : string) (partNumber : Z) : string :=
  key_prefix +:+ "/buckets/" +:+ EscapePathSegment bucketID +:+ "/multipart/" +:+ EscapePathSegment uploadID +:+ "/parts/" +:+
  leftPadInt partNumber 5.
Definition IdempotencyKey (scope idempotencyKey : string) : string :=
  key_prefix +:+ "/idempotency/" +:+ EscapePathSegment scope +:+ "/" +:+ EscapePathSegment idempotencyKey.
Definition GCOrphanKey (timeBucket objectID : string) : string :=
  key_prefix +:+ "/gc/orphans/" +:+ EscapePathSegment timeBucket +:+ "/" +:+ EscapePathSegment objectID.
Definition GCCandidateKey (segmentID : string) : string :=
  let base := key_prefix +:+ "/gc/candidates/" in
  if segmentID =s "" then base else base +:+ EscapePathSegment segmentID.
Definition GCOperationKey (operationID : string) : string :=
  key_prefix +:+ "/gc/operations/" +:+ EscapePathSegment operationID.
Definition DedupeOperationKey (operationID : string) : string :=
  key_prefix +:+ "/dedupe/operations/" +:+ EscapePathSegment operationID.
Definition DedupeOperationLockKey (lockID : string) : string :=
  key_prefix +:+ "/dedupe/operation-locks/" +:+ EscapePathSegment lockID.
Definition SharedObjectReleasePrefix (sharedObjectID : string) : string :=
  let base := key_prefix +:+ "/gc/shared-object-releases/" in
  if sharedObjectID =s "" then base else base +:+ EscapePathSegment sharedObjectID +:+ "/".
Definition SharedObjectReleaseKey (sharedObjectID segmentID : string) : string :=
  SharedObjectReleasePrefix sharedObjectID +:+ EscapePathSegment segmentID.
Definition SharedObjectPrefix : string := key_prefix +:+ "/dedupe/shared-objects/".
Definition SharedObjectKey (sharedObjectID : string) : string := SharedObjectPrefix +:+ EscapePathSegment sharedObjectID.
Definition SharedObjectRefPrefix (sharedObjectID : string) : string :=
  let base := key_prefix +:+ "/dedupe/shared-object-refs/" in
  if sharedObjectID =s "" then base else base +:+ EscapePathSegment sharedObjectID +:+ "/".
Definition SharedObjectRefKey (sharedObjectID bucketID key versionID : string) : string :=
  SharedObjectRefPrefix sharedObjectID +:+ EscapePathSegment bucketID +:+ "/" +:+ EscapeObjectKey key +:+ "/" +:+
  EscapePathSegment versionID.
Definition VolumePoolKey (poolID : string) : string :=
  let base := key_prefix +:+ "/storage/volume-pools/" in
  if poolID =s "" then base else base +:+ EscapePathSegment poolID.
Definition VolumeDrainOperationKey (operationID : string) : string :=
  let base := key_prefix +:+ "/storage/volume-drain/operations/" in
  if operationID =s "" then base else base +:+ EscapePathSegment operationID.
Definition MetadataMigrationOperationKey (operationID : string) : string :=
  let base := key_prefix +:+ "/metadata/migrations/operations/" in
  if operationID =s "" then base else base +:+ EscapePathSegment operationID.
Definition WorkerLeaseKey (workerKind shardID : string) : string :=
  let base := key_prefix +:+ "/workers/leases/" in
  if workerKind =s "" then base
  else
    let kind := base +:+ EscapePathSegment workerKind +:+ "/" in
    if shardID =s "" then kind else kind +:+ EscapePathSegment shardID.
Definition WorkerOperationKey (operationID : string) : string :=
  key_prefix +:+ "/workers/operations/" +:+ EscapePathSegment operationID.
Definition WorkerControlKey (workerKind shardID : string) : string :=
  let base := key_prefix +:+ "/workers/control/" in
  if workerKind =s "" then base
  else
    let kind := base +:+ EscapePathSegment workerKind +:+ "/" in
    if shardID =s "" then kind else kind +:+ EscapePathSegment shardID.
Definition AuditEventKey (eventID : string) : string := key_prefix +:+ "/audit/events/" +:+ EscapePathSegment eventID.
Definition AuditHeadKey : string := key_prefix +:+ "/audit/head".
Definition ProtectedRefByVersionKey (bucketID key versionID refID : string) : string :=
  key_prefix +:+ "/buckets/" +:+ EscapePathSegment bucketID +:+ "/protected-refs/by-version/" +:+ EscapeObjectKey key +:+ "/" +:+
  EscapePathSegment versionID +:+ "/" +:+ EscapePathSegment refID.
Definition ProtectedRefBySegmentKey (segmentID refID : string) : string :=
  key_prefix +:+ "/protected-refs/by-segment/" +:+ EscapePathSegment segmentID +:+ "/" +:+ EscapePathSegment refID.
(** [sequenceKey] of [src/internal/meta/kvrepo/repository.go]. *)
Definition sequenceKey (name : string) : string := "/namros/v1/sequences/" +:+ EscapePathSegment name.

(** ** Escaping is reversible *)

Lemma hex_digits c :
  from_hex_digit (upper_hex_digit (N_of_ascii c / 16)) = Some (N_of_ascii c / 16)%N /\
  from_hex_digit (upper_hex_digit (N_of_ascii c mod 16)) = Some (N_of_ascii c mod 16)%N /\
  ascii_of_N (N_of_ascii c / 16 * 16 + N_of_ascii c mod 16) = c.
Proof. destruct c as [[] [] [] [] [] [] [] []]; vm_compute; auto. Qed.

Lemma safe_not_special c : isSafe c = true -> c <> percent /\ c <> slash.
Proof. intros Hc. by split; intros ->. Qed.

Lemma unescape_escape s : unescape (escape s) = Some s.
Proof.
  induction s as [|c s IH]; [done|]. simpl. destruct (isSafe c) eqn:Hs.
  - destruct (safe_not_special c Hs) as [Hp _]. apply Ascii.eqb_neq in Hp. simpl. by rewrite Hp, IH.
  - destruct (hex_digits c) as (H1 & H2 & H3). simpl. rewrite H1, H2. simpl. by rewrite IH, H3.
Qed.

Lemma escape_inj a b : escape a = escape b -> a = b.
Proof. intros Heq. apply (f_equal unescape) in Heq. rewrite !unescape_escape in Heq. by simplify_eq. Qed.

(** ** Segments of a key *)

Fixpoint no_slash (s : string) : bool :=
  match s with "" => true | String c rest => negb (Ascii.eqb c slash) && no_slash rest end.

Fixpoint split_slash (s : string) : list string :=
  match s with
  | "" => [""]
  | String c rest =>
      if Ascii.eqb c slash then "" :: split_slash rest
      else match split_slash rest with
           | h :: t => String c h :: t
           | [] => [String c ""]
           end
  end.

Lemma escape_no_slash s : no_slash (escape s) = true.
Proof.
  induction s as [|c s IH]; [done|]. simpl. destruct (isSafe c) eqn:Hs; simpl.
  - destruct (safe_not_special c Hs) as [_ Hn]. apply Ascii.eqb_neq in Hn. by rewrite Hn, IH.
  - rewrite IH. clear. destruct c as [[] [] [] [] [] [] [] []]; reflexivity.
Qed.

Lemma split_single s : no_slash s = true -> split_slash s = [s].
Proof.
  induction s as [|c s IH]; [done|]. simpl. intros [Hc Hs]%andb_true_iff.
  apply negb_true_iff in Hc. by rewrite Hc, IH.
Qed.

Lemma split_cons a b : no_slash a = true -> split_slash (a +:+ String slash b) = a :: split_slash b.
Proof.
  induction a as [|c a IH]; [done|]. rewrite str_app_cons. cbn [no_slash split_slash].
  intros [Hc Ha]%andb_true_iff. apply negb_true_iff in Hc. by rewrite Hc, IH.
Qed.

Lemma digits_no_slash s :
  (forall c, c ∈ String.list_ascii_of_string s -> byte_in 48 57 c = true) -> no_slash s = true.
Proof.
  induction s as [|c s IH]; [done|]. simpl. intros Hd. rewrite IH by (intros; apply Hd; by right).
  specialize (Hd c ltac:(by left)). destruct (Ascii.eqb_spec c slash) as [->|]; [by vm_compute in Hd|done].
Qed.

(** ** Padded numbers *)

Lemma parse_leftPadInt z w : (0 <= z)%Z -> parse_digits 0 (String.list_ascii_of_string (leftPadInt z w)) = Some z.
Proof.
  intros Hz. unfold leftPadInt. case_match; [by apply parse_Itoa|].
  generalize (w - String.length (Itoa z))%nat as n. induction n as [|n IH]; [by apply parse_Itoa|].
  cbn [repeat_str]. by rewrite <- str_app_assoc, str_app_cons.
Qed.

Lemma leftPadInt_inj a b w : (0 <= a)%Z -> (0 <= b)%Z -> leftPadInt a w = leftPadInt b w -> a = b.
Proof.
  intros Ha Hb Heq. pose proof (parse_leftPadInt a w Ha) as Pa. rewrite Heq, parse_leftPadInt in Pa by done. by simplify_eq.
Qed.

Lemma leftPadInt_no_slash z w : (0 <= z)%Z -> no_slash (leftPadInt z w) = true.
Proof. intros Hz. apply digits_no_slash. eapply parse_digits_all, parse_leftPadInt, Hz. Qed.

(** ** Records and their keys *)

(** One constructor per record family of the store, with the arguments of its key. *)
Inductive entity :=
| MetadataSchemaOf
| TenantOf (tenantID : string)
| TenantQuotaOf (tenantID : string)
| TenantUsageOf (tenantID : string)
| AccessKeyOf (accessKeyID : string)
| KMSKeyOf (keyID : string)
| ComplianceProfileAttachmentOf (profileID : string)
| BucketByNameOf (name : string)
| BucketByIDOf (bucketID : string)
| BucketQuotaOf (bucketID : string)
| ObjectHeadOf (bucketID : string) (key : string)
| ObjectVersionOf (bucketID : string) (key : string) (versionSortKey : string)
| ObjectVersionByIDOf (bucketID : string) (versionID : string)
| ObjectManifestChunkOf (bucketID : string) (versionID : string) (chunkNumber : Z)
| ListObjectOf (bucketID : string) (key : string)
| MultipartUploadOf (bucketID : string) (uploadID : string)
| MultipartCompletionOf (bucketID : string) (uploadID : string)
| MultipartUploadByKeyOf (bucketID : string) (key : string) (uploadID : string)
| MultipartPartOf (bucketID : string) (uploadID : string) (partNumber : Z)
| IdempotencyOf (scope : string) (idempotencyKey : string)
| GCOrphanOf (timeBucket : string) (objectID : string)
| GCCandidateOf (segmentID : string)
| GCOperationOf (operationID : string)
| DedupeOperationOf (operationID : string)
| DedupeOperationLockOf (lockID : string)
| SharedObjectReleaseOf (sharedObjectID : string) (segmentID : string)
| SharedObjectOf (sharedObjectID : string)
| SharedObjectRefOf (sharedObjectID : string) (bucketID : string) (key : string) (versionID : string)
| VolumePoolOf (poolID : string)
| VolumeDrainOperationOf (operationID : string)
| MetadataMigrationOperationOf (operationID : string)
| WorkerLeaseOf (workerKind : string) (shardID : string)
| WorkerOperationOf (operationID : string)
| WorkerControlOf (workerKind : string) (shardID : string)
| AuditEventOf (eventID : string)
| AuditHeadOf
| ProtectedRefByVersionOf (bucketID : string) (key : string) (versionID : string) (refID : string)
| ProtectedRefBySegmentOf (segmentID : string) (refID : string)
| SequenceOf (name : string).

Definition key_of (e : entity) : string :=
  match e with
  | MetadataSchemaOf => MetadataSchemaKey
  | TenantOf tenantID => TenantKey tenantID
  | TenantQuotaOf tenantID => TenantQuotaKey tenantID
  | TenantUsageOf tenantID => TenantUsageKey tenantID
  | AccessKeyOf accessKeyID => AccessKeyKey accessKeyID
  | KMSKeyOf keyID => KMSKeyKey keyID
  | ComplianceProfileAttachmentOf profileID => ComplianceProfileAttachmentKey profileID
  | BucketByNameOf name => BucketByNameKey name
  | BucketByIDOf bucketID => BucketByIDKey bucketID
  | BucketQuotaOf bucketID => BucketQuotaKey bucketID
  | ObjectHeadOf bucketID key => ObjectHeadKey bucketID key
  | ObjectVersionOf bucketID key versionSortKey => ObjectVersionKey bucketID key versionSortKey
  | ObjectVersionByIDOf bucketID versionID => ObjectVersionByIDKey bucketID versionID
  | ObjectManifestChunkOf bucketID versionID chunkNumber => ObjectManifestChunkKey bucketID versionID chunkNumber
  | ListObjectOf bucketID key => ListObjectKey bucketID key
  | MultipartUploadOf bucketID uploadID => MultipartUploadKey bucketID uploadID
  | MultipartCompletionOf bucketID uploadID => MultipartCompletionKey bucketID uploadID
  | MultipartUploadByKeyOf bucketID key uploadID => MultipartUploadByKeyKey bucketID key uploadID
  | MultipartPartOf bucketID uploadID partNumber => MultipartPartKey bucketID uploadID partNumber
  | IdempotencyOf scope idempotencyKey => IdempotencyKey scope idempotencyKey
  | GCOrphanOf timeBucket objectID => GCOrphanKey timeBucket objectID
  | GCCandidateOf segmentID => GCCandidateKey segmentID
  | GCOperationOf operationID => GCOperationKey operationID
  | DedupeOperationOf operationID => DedupeOperationKey operationID
  | DedupeOperationLockOf lockID => DedupeOperationLockKey lockID
  | SharedObjectReleaseOf sharedObjectID segmentID => SharedObjectReleaseKey sharedObjectID segmentID
  | SharedObjectOf sharedObjectID => SharedObjectKey sharedObjectID
  | SharedObjectRefOf sharedObjectID bucketID key versionID => SharedObjectRefKey sharedObjectID bucketID key versionID
  | VolumePoolOf poolID => VolumePoolKey poolID
  | VolumeDrainOperationOf operationID => VolumeDrainOperationKey operationID
  | MetadataMigrationOperationOf operationID => MetadataMigrationOperationKey operationID
  | WorkerLeaseOf workerKind shardID => WorkerLeaseKey workerKind shardID
  | WorkerOperationOf operationID => WorkerOperationKey operationID
  | WorkerControlOf workerKind shardID => WorkerControlKey workerKind shardID
  | AuditEventOf eventID => AuditEventKey eventID
  | AuditHeadOf => AuditHeadKey
  | ProtectedRefByVersionOf bucketID key versionID refID => ProtectedRefByVersionKey bucketID key versionID refID
  | ProtectedRefBySegmentOf segmentID refID => ProtectedRefBySegmentKey segmentID refID
  | SequenceOf name => sequenceKey name
  end.

(** The segments of a key: literals and escaped or padded arguments. *)
Definition segments (e : entity) : list string :=
  match e with
  | MetadataSchemaOf => ["system"; "schema"]
  | TenantOf tenantID => ["tenants"; escape tenantID]
  | TenantQuotaOf tenantID => ["tenants"; escape tenantID; "quota"]
  | TenantUsageOf tenantID => ["tenants"; escape tenantID; "usage"]
  | AccessKeyOf accessKeyID => ["access-keys"; escape accessKeyID]
  | KMSKeyOf keyID => ["kms"; "keys"; escape keyID]
  | ComplianceProfileAttachmentOf profileID => ["compliance"; "profile-attachments"; escape profileID]
  | BucketByNameOf name => ["buckets"; "by-name"; escape name]
  | BucketByIDOf bucketID => ["buckets"; "by-id"; escape bucketID]
  | BucketQuotaOf bucketID => ["buckets"; escape bucketID; "quota"]
  | ObjectHeadOf bucketID key => ["buckets"; escape bucketID; "objects"; escape key; "head"]
  | ObjectVersionOf bucketID key versionSortKey => ["buckets"; escape bucketID; "versions"; escape key; escape versionSortKey]
  | ObjectVersionByIDOf bucketID versionID => ["buckets"; escape bucketID; "versions-by-id"; escape versionID]
  | ObjectManifestChunkOf bucketID versionID chunkNumber => ["buckets"; escape bucketID; "object-manifests"; escape versionID; "chunks"; leftPadInt chunkNumber 6]
  | ListObjectOf bucketID key => ["buckets"; escape bucketID; "list"; escape key]
  | MultipartUploadOf bucketID uploadID => ["buckets"; escape bucketID; "multipart"; escape uploadID; "state"]
  | MultipartCompletionOf bucketID uploadID => ["buckets"; escape bucketID; "multipart"; escape uploadID; "completion"]
  | MultipartUploadByKeyOf bucketID key uploadID => ["buckets"; escape bucketID; "multipart-by-key"; escape key; escape uploadID]
  | MultipartPartOf bucketID uploadID partNumber => ["buckets"; escape bucketID; "multipart"; escape uploadID; "parts"; leftPadInt partNumber 5]
  | IdempotencyOf scope idempotencyKey => ["idempotency"; escape scope; escape idempotencyKey]
  | GCOrphanOf timeBucket objectID => ["gc"; "orphans"; escape timeBucket; escape objectID]
  | GCCandidateOf segmentID => ["gc"; "candidates"; escape segmentID]
  | GCOperationOf operationID => ["gc"; "operations"; escape operationID]
  | DedupeOperationOf operationID => ["dedupe"; "operations"; escape operationID]
  | DedupeOperationLockOf lockID => ["dedupe"; "operation-locks"; escape lockID]
  | SharedObjectReleaseOf sharedObjectID segmentID => ["gc"; "shared-object-releases"; escape sharedObjectID; escape segmentID]
  | SharedObjectOf sharedObjectID => ["dedupe"; "shared-objects"; escape sharedObjectID]
  | SharedObjectRefOf sharedObjectID bucketID key versionID => ["dedupe"; "shared-object-refs"; escape sharedObjectID; escape bucketID; escape key; escape versionID]
  | VolumePoolOf poolID => ["storage"; "volume-pools"; escape poolID]
  | VolumeDrainOperationOf operationID => ["storage"; "volume-drain"; "operations"; escape operationID]
  | MetadataMigrationOperationOf operationID => ["metadata"; "migrations"; "operations"; escape operationID]
  | WorkerLeaseOf workerKind shardID => ["workers"; "leases"; escape workerKind; escape shardID]
  | WorkerOperationOf operationID => ["workers"; "operations"; escape operationID]
  | WorkerControlOf workerKind shardID => ["workers"; "control"; escape workerKind; escape shardID]
  | AuditEventOf eventID => ["audit"; "events"; escape eventID]
  | AuditHeadOf => ["audit"; "head"]
  | ProtectedRefByVersionOf bucketID key versionID refID => ["buckets"; escape bucketID; "protected-refs"; "by-version"; escape key; escape versionID; escape refID]
  | ProtectedRefBySegmentOf segmentID refID => ["protected-refs"; "by-segment"; escape segmentID; escape refID]
  | SequenceOf name => ["sequences"; escape name]
  end.

(** What the callers guarantee of the arguments: the two reserved words of the
    bucket directory are no bucket ids, the optional arguments of the builders
    that also build scan prefixes are given, and the numbers are positive. *)
Definition entity_ok (e : entity) : bool :=
  match e with
  | BucketQuotaOf b => negb (b =s "by-name") && negb (b =s "by-id")
  | ObjectManifestChunkOf _ _ n => (0 <? n)%Z
  | MultipartPartOf _ _ n => (0 <=? n)%Z
  | SharedObjectReleaseOf s _ | SharedObjectRefOf s _ _ _ => negb (s =s "")
  | WorkerLeaseOf kind _ | WorkerControlOf kind _ => negb (kind =s "")
  | _ => true
  end.

Fixpoint join_slash (l : list string) : string :=
  match l with
  | [] => ""
  | [s] => s
  | s :: rest => s +:+ String slash (join_slash rest)
  end.

Lemma split_join l : l <> [] -> Forall (fun s => no_slash s = true) l -> split_slash (join_slash l) = l.
Proof.
  induction l as [|s l IH]; [done|]. intros _ [Hs Hl]%Forall_cons. destruct l as [|s' l].
  - by apply split_single.
  - cbn [join_slash]. rewrite split_cons by done. f_equal. by apply IH.
Qed.

(** Normal form of a concatenation with literal parts. *)
Ltac str_norm := repeat first [rewrite str_app_cons | rewrite str_nil_app | rewrite <- str_app_assoc].

Create HintDb keys.
#[export] Hint Unfold key_prefix EscapeObjectKey EscapePathSegment
  MetadataSchemaKey TenantKey TenantQuotaKey TenantUsageKey AccessKeyKey KMSKeyKey
  ComplianceProfileAttachmentKey BucketByNameKey BucketByIDKey BucketQuotaKey ObjectHeadKey ObjectVersionKey
  ObjectVersionByIDKey ObjectManifestChunkKey ListObjectKey MultipartUploadKey MultipartCompletionKey
  MultipartUploadByKeyKey MultipartPartKey IdempotencyKey GCOrphanKey GCCandidateKey GCOperationKey
  DedupeOperationKey DedupeOperationLockKey SharedObjectReleasePrefix SharedObjectReleaseKey
  SharedObjectPrefix SharedObjectKey SharedObjectRefPrefix SharedObjectRefKey VolumePoolKey
  VolumeDrainOperationKey MetadataMigrationOperationKey WorkerLeaseKey WorkerOperationKey WorkerControlKey
  AuditEventKey AuditHeadKey ProtectedRefByVersionKey ProtectedRefBySegmentKey sequenceKey : keys.

Lemma key_of_join e : entity_ok e = true -> key_of e = join_slash ("" :: "namros" :: "v1" :: segments e).
Proof.
  destruct e; cbn [entity_ok key_of segments join_slash]; intros Hok;
    autounfold with keys; rewrite ?andb_true_iff, ?negb_true_iff in Hok;
    repeat case_match; rewrite ?String.eqb_eq, ?Z.leb_le in *; simplify_eq; str_norm; try done; try lia.
Qed.

Lemma segments_no_slash e : entity_ok e = true -> Forall (fun s => no_slash s = true) ("" :: "namros" :: "v1" :: segments e).
Proof.
  destruct e; simpl; intros Hok; repeat constructor; try apply escape_no_slash; apply leftPadInt_no_slash; lia.
Qed.

Lemma split_key e : entity_ok e = true -> split_slash (key_of e) = "" :: "namros" :: "v1" :: segments e.
Proof. intros Hok. rewrite key_of_join by done. apply split_join; [done | by apply segments_no_slash]. Qed.

(** A fixed word is its own escape. *)
Lemma escape_word w s : escape w = w -> escape s = w -> s = w.
Proof. intros Hw Hs. apply escape_inj. by rewrite Hw. Qed.

Lemma segments_inj e e' : entity_ok e = true -> entity_ok e' = true -> segments e = segments e' -> e = e'.
Proof.
  intros He He' Heq. destruct e, e'; simpl in Heq; try discriminate Heq; try reflexivity; injection Heq as Heq;
    repeat match goal with
    | H : escape _ = escape _ |- _ => apply escape_inj in H
    | H : leftPadInt _ _ = leftPadInt _ _ |- _ => apply leftPadInt_inj in H; [|simpl in *; lia..]
    end; try (by subst).
  all: match goal with
       | H : ?w = escape ?b |- _ => apply eq_sym, (escape_word w b) in H; [by subst | done]
       | H : escape ?b = ?w |- _ => apply (escape_word w b) in H; [by subst | done]
       end.
Qed.

(** ** Scans

    The repository lists a family by a key prefix that ends in the separator. *)

Lemma split_nonempty s : split_slash s <> [].
Proof. destruct s as [|c s]; [done|]. simpl. repeat case_match; done. Qed.

Lemma split_slash_inv s x l : l <> [] -> split_slash s = x :: l -> exists t, s = x +:+ String slash t /\ split_slash t = l.
Proof.
  revert x. induction s as [|c s IH]; intros x Hl; simpl; [intros; by simplify_eq|].
  destruct (Ascii.eqb_spec c slash) as [->|Hc]; [intros; simplify_eq; by exists s|].
  destruct (split_slash s) as [|h t] eqn:Hs; intros; simplify_eq.
  destruct (IH h Hl eq_refl) as (u & -> & Hu). exists u. by rewrite str_app_cons.
Qed.

Lemma prefix_split (p : list string) s :
  Forall (fun x => no_slash x = true) p ->
  HasPrefix s (join_slash (app p [""])) = true <-> exists rest, rest <> [] /\ split_slash s = app p rest.
Proof.
  revert s. induction p as [|x p IH]; intros s Hp; cbn [app].
  { split; [intros _; exists (split_slash s); split; [apply split_nonempty | done] | by destruct s]. }
  apply Forall_cons in Hp as [Hx Hp]. assert (join_slash (x :: app p [""]) = x +:+ String slash (join_slash (app p [""]))) as ->
    by (by destruct p). unfold HasPrefix. rewrite prefix_spec. split.
  - intros [t ->]. rewrite <- str_app_assoc, str_app_cons, split_cons by done.
    destruct (proj1 (IH (join_slash (app p [""]) +:+ t) Hp)) as (rest & Hr & ->); [|by exists rest].
    apply prefix_spec. by exists t.
  - intros (rest & Hr & Hs). apply split_slash_inv in Hs as (t & -> & Ht); [|by destruct p].
    destruct (proj1 (prefix_spec _ _) (proj2 (IH t Hp) (ex_intro _ rest (conj Hr Ht)))) as [u ->].
    exists u. by rewrite <- str_app_assoc, str_app_cons.
Qed.

(** The record a key under a scan prefix belongs to. *)
Lemma scan_split e p :
  entity_ok e = true -> Forall (fun x => no_slash x = true) p ->
  HasPrefix (key_of e) (join_slash (app p [""])) = true <-> exists rest, rest <> [] /\ "" :: "namros" :: "v1" :: segments e = app p rest.
Proof. intros He Hp. by rewrite prefix_split, split_key. Qed.

Lemma key_of_inj e e' : entity_ok e = true -> entity_ok e' = true -> key_of e = key_of e' -> e = e'.
Proof.
  intros He He' Heq. apply segments_inj; [done..|]. apply (f_equal split_slash) in Heq.
  rewrite !split_key in Heq by done. by simplify_eq.
Qed.

(** C27: Two records never share a key: for every pair of records whose arguments the
    callers guarantee ([entity_ok]: no bucket is called by a reserved word of the
    bucket directory, no missing worker kind or shared object, chunk numbers are
    positive and part numbers not negative), equal keys mean the same family with
    the same arguments. Tenant, bucket, object key, version and upload texts are
    arbitrary byte strings, separators and percent signs included. *)
Theorem keys_never_collide e e' :
  entity_ok e = true -> entity_ok e' = true -> key_of e = key_of e' -> e = e'.
Proof. apply key_of_inj. Qed.

Lemma keys_never_collide_witness :
  exists e e', (key_of e = key_of e' -> e = e') /\ e = ObjectHeadOf "bkt_1" "a/b%2F" /\ e' = ObjectVersionOf "bkt_1" "a" "b".
Proof.
  exists (ObjectHeadOf "bkt_1" "a/b%2F"), (ObjectVersionOf "bkt_1" "a" "b").
  split; [apply keys_never_collide; reflexivity | split; reflexivity].
Defined.

Definition list_scan (bucketID : string) : list string := [""; "namros"; "v1"; "buckets"; escape bucketID; "list"].

Lemma list_scan_no_slash bucketID : Forall (fun x => no_slash x = true) (list_scan bucketID).
Proof. repeat constructor. apply escape_no_slash. Qed.

Lemma list_scan_prefix bucketID : ListObjectKey bucketID "" = join_slash (app (list_scan bucketID) [""]).
Proof. autounfold with keys. cbn [list_scan app join_slash]. str_norm. done. Qed.

Lemma ListObjectKey_app bucketID key : ListObjectKey bucketID key = ListObjectKey bucketID "" +:+ escape key.
Proof. autounfold with keys. str_norm. done. Qed.

(** The scan the repository lists a bucket with, over the keys that start with
    [ListObject bucketID ""], meets the listing entries of that bucket and no other
    record, of this bucket or of another one: a key under that prefix is the
    listing key of some object of the bucket, and unescaping what follows the
    prefix gives the object's key back. *)
Theorem list_scan_exact bucketID e :
  entity_ok e = true ->
  HasPrefix (key_of e) (ListObjectKey bucketID "") = true <->
  exists key, e = ListObjectOf bucketID key /\
              UnescapeObjectKey (TrimPrefix (key_of e) (ListObjectKey bucketID "")) = Some key.
Proof.
  intros He. rewrite list_scan_prefix, scan_split by (done || apply list_scan_no_slash). rewrite <- list_scan_prefix. split.
  - intros (rest & Hne & Heq). destruct e; simpl in Heq; simplify_eq; try by destruct rest.
    match goal with H : escape _ = escape _ |- _ => apply escape_inj in H as -> end.
    eexists. split; [done|]. cbn [key_of]. by rewrite ListObjectKey_app, TrimPrefix_app, unescape_escape.
  - intros (key & -> & _). by exists [escape key].
Qed.

Lemma list_scan_exact_witness :
  exists e, (HasPrefix (key_of e) (ListObjectKey "bkt_1" "") = true <->
             exists key, e = ListObjectOf "bkt_1" key /\
                         UnescapeObjectKey (TrimPrefix (key_of e) (ListObjectKey "bkt_1" "")) = Some key) /\
            e = ListObjectOf "bkt_1" "photos/2024 summer.jpg".
Proof.
  exists (ListObjectOf "bkt_1" "photos/2024 summer.jpg"). split; [apply list_scan_exact; reflexivity | reflexivity].
Defined.
