(* ===== verification/IdGen.v ===== *)
(** * IdGen: the identifier generators

    [src/internal/meta/id/id.go]. [ProcessGenerator] numbers buckets, versions and
    uploads: [<kind>_<time>_<generator>_<sequence>_<entropy>], the time and the
    sequence in base 36 at a fixed width. The retry loop of [NewID] releases the
    lock between two readings of the clock, so the unit of interleaving is one
    round of the loop under the lock ([attempt]); a run is any list of rounds, of
    any number of callers. The theorems: identifiers never repeat and, within one
    kind, grow in string order; the loop returns as soon as the clock moves on;
    the generator meets the interface [GeneratorOk] of the metadata repository. *)

From S2P Require Import Prelude GoLib Repo ObjInv.
From Stdlib Require Import Ascii.
Open Scope string_scope.
Open Scope Z_scope.

Definition timeWidth : nat := 13.
Definition generatorWidth : nat := 10.
Definition sequenceWidth : nat := 4.
Definition entropyWidth : nat := 6.
Definition maxSequence : Z := 36 * 36 * 36 * 36 - 1.

Definition base36Alphabet : string := "0123456789abcdefghijklmnopqrstuvwxyz".
Definition crockfordAlphabet : string := "0123456789abcdefghjkmnpqrstvwxyz".

(** [s[i]] for an index in range. *)
Definition byte_at (s : string) (i : nat) : ascii := default zero (String.get i s).

Definition Valid (k : string) : bool := (k =s KindBucket) || (k =s KindVersion) || (k =s KindUpload).

(** [entropy] is what the entropy reader will deliver, byte by byte; a reader
    that ends makes [io.ReadFull] fail. *)
Record ProcessGenerator := mkProcessGenerator {
  entropy : list N;
  generatorID : string;
  lastUnixNano : Z;
  sequence : Z
}.
#[export] Instance ProcessGenerator_eta : RecordEta ProcessGenerator := fun r =>
  mkProcessGenerator (entropy r) (generatorID r) (lastUnixNano r) (sequence r).

Definition randomCrockford (reader : list N) (width : nat) : option string * list N :=
  if (length reader <? width)%nat then (None, [])
  else (Some (String.string_of_list_ascii
               (map (fun value => byte_at crockfordAlphabet (N.to_nat (N.land value 31))) (take width reader))),
        drop width reader).

Fixpoint formatBase36 (value : Z) (width : nat) : string :=
  match width with
  | O => ""
  | S width' => formatBase36 (value / 36) width' +:+ String (byte_at base36Alphabet (Z.to_nat (value mod 36))) ""
  end.

Definition validToken (value : string) (width : nat) (alphabet : string) : bool :=
  (String.length value =? width)%nat &&
  forallb (fun char => is_some (Index alphabet (String char ""))) (String.list_ascii_of_string value).

Definition NewProcessGenerator (reader : list N) (GeneratorID : string) : option ProcessGenerator :=
  let generatorID := TrimSpace (ToLower GeneratorID) in
  '(generatorID, reader) ←
    (if generatorID =s "" then
       match randomCrockford reader generatorWidth with
       | (Some token, rest) => Some (token, rest)
       | (None, _) => None
       end
     else Some (generatorID, reader));
  if negb (validToken generatorID generatorWidth crockfordAlphabet) then None
  else Some (mkProcessGenerator reader generatorID 0 0).

(** ** One round of the loop *)

Inductive round :=
| Numbered (timestamp sequence : Z)
| Again
| ClockBeforeEpoch.

Definition next_round (now : Z) (g : ProcessGenerator) : round * ProcessGenerator :=
  if now <? 0 then (ClockBeforeEpoch, g)
  else
    let timestamp := uint64 now in
    if lastUnixNano g <? timestamp then
      (Numbered timestamp 0, g <| lastUnixNano := timestamp |> <| sequence := 0 |>)
    else if (timestamp =? lastUnixNano g) && (sequence g <? maxSequence) then
      let s := uint64 (sequence g + 1) in
      (Numbered timestamp s, g <| sequence := s |>)
    else (Again, g).

(** The loop over the readings of the clock; [None] when the readings end first. *)
Fixpoint nextTimestampAndSequenceLocked (readings : list Z) (g : ProcessGenerator) :
    option (round * ProcessGenerator) :=
  match readings with
  | [] => None
  | now :: readings' =>
      match next_round now g with
      | (Again, g') => nextTimestampAndSequenceLocked readings' g'
      | (r, g') => Some (r, g')
      end
  end.

Inductive idError := InvalidKind | InvalidClock | NoEntropy.

Definition Sprintf_id (kind : string) (timestamp : Z) (gen : string) (seq : Z) (ent : string) : string :=
  kind +:+ "_" +:+ formatBase36 timestamp timeWidth +:+ "_" +:+ gen +:+ "_" +:+ formatBase36 seq sequenceWidth +:+ "_" +:+ ent.

(** What follows the numbering, still under the lock. *)
Definition finish_id (kind : string) (r : round) (g : ProcessGenerator) : outcome idError string * ProcessGenerator :=
  match r with
  | Numbered timestamp s =>
      match randomCrockford (entropy g) entropyWidth with
      | (Some ent, rest) => (Ok (Sprintf_id kind timestamp (generatorID g) s ent), g <| entropy := rest |>)
      | (None, rest) => (Fail NoEntropy, g <| entropy := rest |>)
      end
  | _ => (Fail InvalidClock, g)
  end.

(** [NewID] of one caller with no other caller in between. *)
Definition ProcessGenerator_NewID (kind : string) (readings : list Z) (g : ProcessGenerator) :
    option (outcome idError string * ProcessGenerator) :=
  if negb (Valid kind) then Some (Fail InvalidKind, g)
  else '(r, g') ← nextTimestampAndSequenceLocked readings g; Some (finish_id kind r g').

(** ** Interleaved callers *)

(** One round of some caller of [NewID] for a kind, with its reading of the
    clock; [None] when the round makes the caller wait. *)
Definition attempt (kind : string) (now : Z) (g : ProcessGenerator) : option (outcome idError string) * ProcessGenerator :=
  if negb (Valid kind) then (Some (Fail InvalidKind), g)
  else match next_round now g with
       | (Again, g') => (None, g')
       | (r, g') => let '(o, g'') := finish_id kind r g' in (Some o, g'')
       end.

Fixpoint attempts (l : list (string * Z)) (g : ProcessGenerator) : list (string * string) * ProcessGenerator :=
  match l with
  | [] => ([], g)
  | (kind, now) :: l' =>
      let '(o, g') := attempt kind now g in
      let '(ids, g'') := attempts l' g' in
      (match o with Some (Ok id) => (kind, id) :: ids | _ => ids end, g'')
  end.

(** ** The deterministic generator *)

Record DeterministicGenerator := mkDeterministicGenerator {
  values : gmap string (list string);
  next : gmap string nat
}.

Definition NewDeterministicGenerator (vs : gmap string (list string)) : DeterministicGenerator :=
  mkDeterministicGenerator vs ∅.

(** [None] is the error: an invalid kind or no identifier left. *)
Definition DeterministicGenerator_NewID (kind : string) (g : DeterministicGenerator) : option string * DeterministicGenerator :=
  if negb (Valid kind) then (None, g)
  else
    let index := default O (next g !! kind) in
    let ids := default [] (values g !! kind) in
    match ids !! index with
    | None => (None, g)
    | Some id => (Some id, mkDeterministicGenerator (values g) (<[kind := S index]> (next g)))
    end.

(** ** Fixed-width base 36 keeps the order *)

Lemma str_ltb_app_l (a b x y : string) :
  String.length a = String.length b -> str_ltb a b = true -> str_ltb (a +:+ x) (b +:+ y) = true.
Proof.
  revert b. induction a as [|c a IH]; intros [|d b] Hl Hlt; simpl in Hl; try done.
  rewrite !str_app_cons. simpl in *. case_match; [|done]. apply IH; [lia|done].
Qed.

Lemma str_ltb_app_same (p x y : string) : str_ltb x y = true -> str_ltb (p +:+ x) (p +:+ y) = true.
Proof. intros Hlt. induction p as [|c p IH]; [done|]. rewrite !str_app_cons. simpl. by rewrite Ascii.eqb_refl. Qed.

Lemma formatBase36_length v w : String.length (formatBase36 v w) = w.
Proof. revert v. induction w as [|w IH]; intros v; [done|]. simpl. rewrite str_length_app, IH. simpl. lia. Qed.

Definition digits_ordered (a b : nat) : bool :=
  negb (a <? b)%nat || ascii_ltb (byte_at base36Alphabet a) (byte_at base36Alphabet b).

Lemma base36_digits_ordered a b :
  0 <= a < 36 -> 0 <= b < 36 -> a < b ->
  str_ltb (String (byte_at base36Alphabet (Z.to_nat a)) "") (String (byte_at base36Alphabet (Z.to_nat b)) "") = true.
Proof.
  intros Ha Hb Hab.
  assert (forallb (fun i => forallb (digits_ordered i) (seq 0 36)) (seq 0 36) = true) as Hall by done.
  rewrite forallb_forall in Hall. specialize (Hall (Z.to_nat a) ltac:(apply in_seq; lia)).
  rewrite forallb_forall in Hall. specialize (Hall (Z.to_nat b) ltac:(apply in_seq; lia)).
  unfold digits_ordered in Hall. destruct (Nat.ltb_spec (Z.to_nat a) (Z.to_nat b)); [|lia]. simpl in Hall. simpl.
  destruct (Ascii.eqb_spec (byte_at base36Alphabet (Z.to_nat a)) (byte_at base36Alphabet (Z.to_nat b))) as [Heq|]; [|done].
  rewrite Heq in Hall. unfold ascii_ltb in Hall. by rewrite N.ltb_irrefl in Hall.
Qed.

Lemma formatBase36_mono w a b :
  0 <= a -> a < b -> b < 36 ^ Z.of_nat w -> str_ltb (formatBase36 a w) (formatBase36 b w) = true.
Proof.
  revert a b. induction w as [|w IH]; intros a b Ha Hab Hb; [simpl in Hb; lia|].
  rewrite Nat2Z.inj_succ, Z.pow_succ_r in Hb by lia.
  pose proof (Z.div_mod a 36 ltac:(lia)). pose proof (Z.div_mod b 36 ltac:(lia)).
  pose proof (Z.mod_pos_bound a 36 ltac:(lia)). pose proof (Z.mod_pos_bound b 36 ltac:(lia)).
  cbn [formatBase36]. destruct (decide (a / 36 = b / 36)) as [Heq|Hne].
  - rewrite Heq. apply str_ltb_app_same, base36_digits_ordered; lia.
  - apply str_ltb_app_l; [by rewrite !formatBase36_length|]. apply IH; [lia..|]. apply Z.div_lt_upper_bound; lia.
Qed.

(** ** Numbers grow, and identifiers with them *)

Definition numbered_before (a b : Z * Z) : Prop := a.1 < b.1 \/ a.1 = b.1 /\ a.2 < b.2.

Definition number_ok (a : Z * Z) : Prop := 0 <= a.1 < 2 ^ 64 /\ 0 <= a.2 <= maxSequence.

Definition last_number (g : ProcessGenerator) : Z * Z := (lastUnixNano g, sequence g).

Lemma numbered_before_trans a b c : numbered_before a b -> numbered_before b c -> numbered_before a c.
Proof. unfold numbered_before. lia. Qed.

Lemma Sprintf_id_mono kind gen a b ent ent' :
  number_ok a -> number_ok b -> numbered_before a b ->
  str_ltb (Sprintf_id kind a.1 gen a.2 ent) (Sprintf_id kind b.1 gen b.2 ent') = true.
Proof.
  intros [Ha1 Ha2] [Hb1 Hb2] Hlt. unfold Sprintf_id. do 2 apply str_ltb_app_same. destruct Hlt as [Hlt|[-> Hlt]].
  - apply str_ltb_app_l; [by rewrite !formatBase36_length|]. apply formatBase36_mono; [lia..|].
    change (36 ^ Z.of_nat timeWidth) with 170581728179578208256. lia.
  - do 4 apply str_ltb_app_same. apply str_ltb_app_l; [by rewrite !formatBase36_length|].
    apply formatBase36_mono; [lia..|]. change (36 ^ Z.of_nat sequenceWidth) with (maxSequence + 1). lia.
Qed.

Lemma Sprintf_id_kind k k' t s t' s' gen gen' ent ent' :
  Valid k = true -> Valid k' = true -> Sprintf_id k t gen s ent = Sprintf_id k' t' gen' s' ent' -> k = k'.
Proof.
  unfold Valid, Sprintf_id. rewrite !orb_true_iff, !String.eqb_eq.
  intros [[->| ->]| ->] [[->| ->]| ->]; rewrite ?str_app_cons; intros; by simplify_eq.
Qed.

Lemma next_round_spec now g r g' :
  number_ok (last_number g) -> now < 2 ^ 63 -> next_round now g = (r, g') ->
  number_ok (last_number g') /\ generatorID g' = generatorID g /\ entropy g' = entropy g /\
  match r with
  | Numbered t s => last_number g' = (t, s) /\ numbered_before (last_number g) (t, s)
  | _ => g' = g
  end.
Proof.
  unfold next_round, number_ok, last_number, numbered_before, uint64. intros [Ht Hs] Hn.
  destruct (Z.ltb_spec now 0); [intros; by simplify_eq|]. rewrite (Z.mod_small now) by lia.
  destruct (Z.ltb_spec (lastUnixNano g) now).
  { intros; simplify_eq. simpl. unfold maxSequence. repeat split; simpl; lia. }
  destruct (_ && _) eqn:Hb; [|intros; by simplify_eq]. apply andb_true_iff in Hb as [He%Z.eqb_eq Hlt%Z.ltb_lt].
  unfold maxSequence in *. intros; simplify_eq. simpl in *. rewrite Z.mod_small by lia. repeat split; simpl; lia.
Qed.

Lemma finish_id_frame kind r g o g' :
  finish_id kind r g = (o, g') -> last_number g' = last_number g /\ generatorID g' = generatorID g.
Proof. unfold finish_id. repeat case_match; intros; by simplify_eq. Qed.

(** The identifier was numbered after the state [g]. *)
Definition issued_after (g : ProcessGenerator) (p : string * string) : Prop :=
  exists n ent, p.2 = Sprintf_id p.1 n.1 (generatorID g) n.2 ent /\ Valid p.1 = true /\
                number_ok n /\ numbered_before (last_number g) n.

Definition id_before (p q : string * string) : Prop :=
  p.2 <> q.2 /\ (p.1 = q.1 -> str_ltb p.2 q.2 = true).

Lemma attempt_spec kind now g o g' :
  number_ok (last_number g) -> now < 2 ^ 63 -> attempt kind now g = (o, g') ->
  number_ok (last_number g') /\ generatorID g' = generatorID g /\
  (last_number g' = last_number g \/ numbered_before (last_number g) (last_number g')) /\
  forall id, o = Some (Ok id) -> exists ent, id = Sprintf_id kind (last_number g').1 (generatorID g) (last_number g').2 ent /\
    Valid kind = true /\ numbered_before (last_number g) (last_number g').
Proof.
  intros Hg Hn. unfold attempt. destruct (Valid kind) eqn:Hk; simpl; [|naive_solver].
  destruct (next_round now g) as [r g1] eqn:Hr. pose proof (next_round_spec _ _ _ _ Hg Hn Hr) as (H1 & H2 & H3 & H4).
  destruct r as [t s| |]; simpl; [|naive_solver..].
  destruct H4 as [H4 H5].
  destruct (randomCrockford (entropy g1) entropyWidth) as [[ent|] rest]; intros; simplify_eq;
    (split; [exact H1 | split; [exact H2 | split; [right; exact (eq_ind_r _ H5 H4) |]]]).
  - intros id [= <-]. exists ent. field_simpl. rewrite H2. split_and!; [|done|exact (eq_ind_r _ H5 H4)].
    by injection H4 as -> ->.
  - by intros.
Qed.

Lemma attempts_spec l g :
  number_ok (last_number g) -> Forall (fun p => p.2 < 2 ^ 63) l ->
  Forall (issued_after g) (attempts l g).1 /\ StronglySorted id_before (attempts l g).1.
Proof.
  revert g. induction l as [|[kind now] l IH]; intros g Hg Hl; simpl; [by repeat constructor|].
  apply Forall_cons in Hl as [Hn Hl]. destruct (attempt kind now g) as [o g1] eqn:Ha.
  pose proof (attempt_spec _ _ _ _ _ Hg Hn Ha) as (Hg1 & Hid & Hlt & Hnew).
  specialize (IH g1 Hg1 Hl). destruct (attempts l g1) as [ids g2]. destruct IH as [Hall Hsort].
  assert (Forall (issued_after g) ids) as Hall'.
  { eapply Forall_impl; [exact Hall|]. intros p (n & ent & Hp & Hv & Hok & Hb). exists n, ent.
    rewrite Hp, Hid. split; [reflexivity|]. do 2 (split; [assumption|]). destruct Hlt as [<-|Hlt]; [done | by eapply numbered_before_trans]. }
  destruct o as [[id|]|]; [|by split..]. destruct (Hnew id eq_refl) as (ent & -> & Hv & Hb). split.
  - constructor; [|exact Hall']. exists (last_number g1), ent. exact (conj eq_refl (conj Hv (conj Hg1 Hb))).
  - constructor; [exact Hsort|]. eapply Forall_impl; [exact Hall|]. intros [k id] (n & ent' & Hp & Hv' & Hok & Hb').
    simpl in Hp, Hv'. subst id. rewrite Hid. split; cbn [fst snd].
    + intros Heq. pose proof (Sprintf_id_kind _ _ _ _ _ _ _ _ _ _ Hv Hv' Heq) as <-.
      pose proof (Sprintf_id_mono kind (generatorID g) _ _ ent ent' Hg1 Hok Hb') as Hl'.
      rewrite Heq, str_ltb_irrefl in Hl'. discriminate Hl'.
    + intros <-. exact (Sprintf_id_mono kind (generatorID g) _ _ ent ent' Hg1 Hok Hb').
Qed.

Lemma NewProcessGenerator_ok reader name g : NewProcessGenerator reader name = Some g -> number_ok (last_number g).
Proof.
  unfold NewProcessGenerator, number_ok, last_number, maxSequence. intros Hg.
  destruct (if _ =s _ then _ else _) as [[token rest]|]; [|done]. simpl in Hg. case_match; simplify_eq. simpl. lia.
Qed.

(** C34: The identifiers a process generator hands out never repeat, and those of one
    kind grow in string order, in the order they were issued: for every starting
    entropy and generator name, and every interleaving of the rounds of the retry
    loops of any number of callers, whatever the clock reads (it may stand still
    or go back). *)
Theorem identifiers_never_repeat reader name g (l : list (string * Z)) :
  NewProcessGenerator reader name = Some g ->
  Forall (fun p => p.2 < 2 ^ 63) l ->
  StronglySorted id_before (attempts l g).1.
Proof. intros Hg Hl. apply attempts_spec; [by eapply NewProcessGenerator_ok | done]. Qed.

Definition ex_entropy : list N := repeat 7%N 64.

Definition ex_generator : ProcessGenerator := mkProcessGenerator ex_entropy "gen0000001" 0 0.

Definition ex_attempts : list (string * Z) := [(KindBucket, 1000); (KindVersion, 1000); (KindVersion, 999); (KindVersion, 1000)].

Lemma identifiers_never_repeat_witness :
  StronglySorted id_before (attempts ex_attempts ex_generator).1 /\
  map snd (attempts ex_attempts ex_generator).1 =
    ["bkt_00000000000rs_gen0000001_0000_777777"; "ver_00000000000rs_gen0000001_0001_777777";
     "ver_00000000000rs_gen0000001_0002_777777"].
Proof.
  split; [|vm_compute; reflexivity].
  apply (identifiers_never_repeat ex_entropy "Gen0000001"); [vm_compute; reflexivity | repeat constructor].
Defined.

(** ** The loop ends when the clock moves on *)

Lemma next_round_advances now g : lastUnixNano g < now -> 0 <= lastUnixNano g -> now < 2 ^ 63 ->
  exists g', next_round now g = (Numbered now 0, g').
Proof.
  intros H1 H0 H2. unfold next_round, uint64. destruct (Z.ltb_spec now 0); [lia|]. rewrite Z.mod_small by lia.
  destruct (Z.ltb_spec (lastUnixNano g) now); [eauto | lia].
Qed.

Lemma next_round_again now g g' : next_round now g = (Again, g') -> g' = g.
Proof. unfold next_round. repeat case_match; intros; by simplify_eq. Qed.

(** C35: [NewID] returns. As soon as the clock has read a time later than the last
    one used, the retry loop has ended, whatever was read before: the call has
    its identifier, or the error of a clock before 1970 or of an entropy source
    that ran dry. A clock that stands still does not block it either, until the
    36^4 numbers of that nanosecond are used up. *)
Theorem NewID_returns kind readings now g :
  number_ok (last_number g) -> now < 2 ^ 63 ->
  lastUnixNano g < now \/ now = lastUnixNano g /\ sequence g < maxSequence ->
  is_some (ProcessGenerator_NewID kind (readings ++ [now])%list g) = true.
Proof.
  intros Hok Hnow Hadv. unfold ProcessGenerator_NewID. destruct (Valid kind); [|done]. simpl.
  assert (is_some (nextTimestampAndSequenceLocked (readings ++ [now])%list g) = true) as Hsome.
  { induction readings as [|r rs IH]; simpl.
    - unfold next_round. destruct Hok as [Hl Hs]. simpl in *. unfold uint64.
      destruct (Z.ltb_spec now 0); [done|]. rewrite Z.mod_small by lia.
      destruct (Z.ltb_spec (lastUnixNano g) now); [done|]. destruct Hadv as [?|[-> Hlt]]; [lia|].
      by rewrite Z.eqb_refl, (proj2 (Z.ltb_lt _ _) Hlt).
    - destruct (next_round r g) as [[] g'] eqn:Hr; [done| |done]. by apply next_round_again in Hr as ->. }
  destruct (nextTimestampAndSequenceLocked _ g) as [[r g']|]; done.
Qed.

Lemma NewID_returns_witness :
  is_some (ProcessGenerator_NewID KindUpload ([5; 3; 9] ++ [1001])%list
             (mkProcessGenerator ex_entropy "gen0000001" 1000 maxSequence)) = true.
Proof. apply NewID_returns; [split; vm_compute; split; congruence | reflexivity | left; reflexivity]. Defined.

(** ** The interface of the metadata repository *)

(** The environment of a repository whose [i]-th identifier is the one a
    generator issues after [i] earlier rounds of its own kind. *)
Section Interface.
Context (clock wall : nat -> Time) (rounds : nat -> list (string * Z)) (reading : nat -> Z) (g : ProcessGenerator).

Definition generator_env : Env := {|
  env_now := clock;
  env_wall := wall;
  env_newID i kind :=
    match (attempt kind (reading i) (attempts (rounds i) g).2).1 with
    | Some (Ok id) => Some id
    | _ => None
    end
|}.

#[export] Instance generator_env_ok : @GeneratorOk generator_env.
Proof.
  intros i kind id. simpl. unfold attempt. destruct (Valid kind) eqn:Hk; [|done]. cbn [negb].
  destruct (next_round _ _) as [[t s| |] g1]; cbn [finish_id]; [|done..].
  destruct (randomCrockford _ _) as [[ent|] rest]; [|done]. cbn [fst]. intros [= <-] Hnil.
  apply (f_equal String.length) in Hnil. unfold Sprintf_id in Hnil. rewrite !str_length_app in Hnil. simpl in Hnil. lia.
Qed.
End Interface.
