(* ===== verification/KvStore.v ===== *)
(** * KvStore: the key-value stores under the KV metadata repository

    The KV repository reads and writes through the interface [ReadWriter] of
    [src/internal/meta/kvrepo/repository.go]. It has two implementations, over the
    Pebble engine ([src/internal/meta/pebble/store.go]) and over the TiKV client
    ([src/internal/meta/tikv/kv.go], optionally confined to a keyspace by
    [src/internal/meta/tikv/prefix.go]).

    The engines are not part of the program: [Engine] is their interface and
    [EngineLaws] the documented behaviour the program relies on (point reads and
    writes, and iteration in byte order between bounds). [ReadWriterLaws] is what
    the repository needs: that a store behaves like the finite map [rw_view] and
    lists like the reference [list_ref] and [list_range_ref]. Each implementation
    is a definition, with the proof that it meets the interface. *)

From S2P Require Import Prelude GoLib.
From Stdlib Require Import Ascii Sorted.
Open Scope string_scope.
Open Scope Z_scope.

Definition str_lt (a b : string) : Prop := str_ltb a b = true.

(** ** Byte ranges *)

Definition byte_ff (c : ascii) : bool := byte_is 255 c.

(** The loop from the last byte: cut trailing 0xff bytes, add one to the last
    byte that is left; [""] when none is. *)
Fixpoint range_end_rev (r : list ascii) : list ascii :=
  match r with
  | [] => []
  | c :: r' => if negb (byte_ff c) then ascii_of_N (N_of_ascii c + 1) :: r' else range_end_rev r'
  end.

Definition prefixRangeEndString (prefix : string) : string :=
  String.string_of_list_ascii (rev (range_end_rev (rev (String.list_ascii_of_string prefix)))).

(** [prefixUpperBound] of the Pebble store and [prefixRangeEnd] of the TiKV one
    are the same loop; [nil] is [""]. *)
Definition prefixUpperBound (prefix : string) : string := prefixRangeEndString prefix.
Definition prefixRangeEnd (prefix : string) : string := prefixRangeEndString prefix.

(** The key followed by a zero byte. *)
Definition nextLexicographicKey (key : string) : string := key +:+ String Ascii.zero "".

(** ** The engines *)

(** [engine_iter d lower upper start]: the keys an iterator over [d] with these
    bounds ([""] is no bound) yields from [SeekGE(start)] on. *)
Class Engine (D V : Type) := {
  engine_get : D -> string -> option V;
  engine_set : D -> string -> V -> D;
  engine_delete : D -> string -> D;
  engine_iter : D -> string -> string -> string -> list string
}.

Class EngineLaws {D V : Type} (eng : Engine D V) := {
  engine_view : D -> gmap string V;
  engine_get_spec : forall d k, engine_get d k = engine_view d !! k;
  engine_set_spec : forall d k v, engine_view (engine_set d k v) = <[k := v]> (engine_view d);
  engine_delete_spec : forall d k, engine_view (engine_delete d k) = delete k (engine_view d);
  engine_iter_sorted : forall d lower upper start, StronglySorted str_lt (engine_iter d lower upper start);
  engine_iter_elem : forall d lower upper start k,
    k ∈ engine_iter d lower upper start <->
    is_Some (engine_view d !! k) /\ str_ltb k start = false /\ (lower = "" \/ str_ltb k lower = false) /\
    (upper = "" \/ str_ltb k upper = true)
}.

(** ** The interface of the repository *)

Class ReadWriter (D V : Type) := {
  Get : D -> string -> option V;
  Set_ : D -> string -> V -> D;
  Delete : D -> string -> D;
  List_ : D -> string -> string -> Z -> list string * string;
  ListRange : D -> string -> string -> string -> Z -> list string * string
}.

Definition in_range (start end_ cursor k : string) : bool :=
  negb (str_ltb k start) && ((end_ =s "") || str_ltb k end_) && ((cursor =s "") || str_ltb cursor k).

Definition sorted_keys {V} (m : gmap string V) : list string := sort_by str_ltb (map fst (map_to_list m)).

(** At most [limit] keys (128 when the limit is not positive), and the last of
    them when the page is full. *)
Definition kv_limit (limit : Z) : nat := Z.to_nat (if limit <=? 0 then 128 else limit).
Definition kv_page (n : nat) (l : list string) : list string * string :=
  (take n l, if (n <=? length l)%nat then default "" (last (take n l)) else "").

Definition list_range_ref {V} (m : gmap string V) (start end_ cursor : string) (limit : Z) : list string * string :=
  kv_page (kv_limit limit) (List.filter (in_range start end_ cursor) (sorted_keys m)).

Definition list_ref {V} (m : gmap string V) (prefix cursor : string) (limit : Z) : list string * string :=
  kv_page (kv_limit limit)
    (List.filter (fun k => HasPrefix k prefix && ((cursor =s "") || str_ltb cursor k)) (sorted_keys m)).

Class ReadWriterLaws {D V : Type} (rw : ReadWriter D V) := {
  rw_view : D -> gmap string V;
  Get_spec : forall d k, Get d k = rw_view d !! k;
  Set_spec : forall d k v, rw_view (Set_ d k v) = <[k := v]> (rw_view d);
  Delete_spec : forall d k, rw_view (Delete d k) = delete k (rw_view d);
  List_spec : forall d prefix cursor limit, List_ d prefix cursor limit = list_ref (rw_view d) prefix cursor limit;
  ListRange_spec : forall d start end_ cursor limit,
    ListRange d start end_ cursor limit = list_range_ref (rw_view d) start end_ cursor limit
}.

(** ** Transactions *)

(** [RunInTransaction]: the function works on a batch over the store; the batch is
    committed when it returns no error and dropped otherwise. *)
Definition RunInTransaction {D E A} (fn : ST D E A) : ST D E A := fun d =>
  match fn d with
  | (Ok a, d') => (Ok a, d')
  | (Fail e, _) => (Fail e, d)
  end.

(** ** The listing loop of both stores *)

(** [n] is the room left in the page. *)
Fixpoint collect_keys (end_ prefixFilter : string) (n : nat) (iter : list string) : list string * string :=
  match iter with
  | [] => ([], "")
  | key :: iter' =>
      if negb (end_ =s "") && negb (str_ltb key end_) then ([], "")
      else if negb (prefixFilter =s "") && negb (HasPrefix key prefixFilter) then ([], "")
      else if (n <=? 1)%nat then ([key], key)
      else let '(keys, next) := collect_keys end_ prefixFilter (n - 1) iter' in (key :: keys, next)
  end.

(** The key the iteration starts from; [None] when the listing is empty without
    iterating. *)
Definition start_key (start end_ cursor : string) : option string :=
  if negb (end_ =s "") && negb (str_ltb start end_) then None
  else if negb (cursor =s "") && ((start =s "") || negb (str_ltb cursor start)) && ((end_ =s "") || str_ltb cursor end_)
  then Some (nextLexicographicKey cursor)
  else if negb (cursor =s "") && negb (end_ =s "") && negb (str_ltb cursor end_) then None
  else Some start.

Section Stores.
Context {D V : Type} `{Engine D V}.

(** *** Pebble *)

Definition pebble_listRange (d : D) (start end_ cursor : string) (limit : Z) (prefixFilter : string) : list string * string :=
  match start_key start end_ cursor with
  | None => ([], "")
  | Some startKey => collect_keys end_ prefixFilter (kv_limit limit) (engine_iter d start end_ startKey)
  end.

Definition pebbleTx : ReadWriter D V := {|
  Get := engine_get;
  Set_ := engine_set;
  Delete := engine_delete;
  List_ d prefix cursor limit := pebble_listRange d prefix (prefixUpperBound prefix) cursor limit prefix;
  ListRange d start end_ cursor limit := pebble_listRange d start end_ cursor limit ""
|}.

(** *** TiKV: the client's iterator takes the first key and the end only *)

Definition tikv_listRange (d : D) (start end_ cursor : string) (limit : Z) (prefixFilter : string) : list string * string :=
  match start_key start end_ cursor with
  | None => ([], "")
  | Some startKey => collect_keys end_ prefixFilter (kv_limit limit) (engine_iter d "" end_ startKey)
  end.

Definition txnReadWriter : ReadWriter D V := {|
  Get := engine_get;
  Set_ := engine_set;
  Delete := engine_delete;
  List_ d prefix cursor limit := tikv_listRange d prefix (prefixRangeEnd prefix) cursor limit prefix;
  ListRange d start end_ cursor limit := tikv_listRange d start end_ cursor limit ""
|}.
End Stores.

(** *** A keyspace of a TiKV store *)

Section Prefixed.
Context {D V : Type} (base : ReadWriter D V) (prefix : string).

Definition prefixed (key : string) : string := prefix +:+ key.
Definition prefixed_cursor (cursor : string) : string := if negb (cursor =s "") then prefixed cursor else "".
Definition unprefixed_page (p : list string * string) : list string * string :=
  (map (fun key => TrimPrefix key prefix) p.1, if negb (p.2 =s "") then TrimPrefix p.2 prefix else p.2).

Definition prefixedTxn : ReadWriter D V := {|
  Get d key := Get d (prefixed key);
  Set_ d key value := Set_ d (prefixed key) value;
  Delete d key := Delete d (prefixed key);
  List_ d p cursor limit := unprefixed_page (List_ d (prefixed p) (prefixed_cursor cursor) limit);
  ListRange d start end_ cursor limit :=
    let prefixedEnd := if negb (end_ =s "") then prefixed end_ else prefixRangeEnd prefix in
    unprefixed_page (ListRange d (prefixed start) prefixedEnd (prefixed_cursor cursor) limit)
|}.
End Prefixed.

(** [strings.Trim(s, "/")]. *)
Fixpoint trim_slash_left (s : list ascii) : list ascii :=
  match s with
  | c :: s' => if Ascii.eqb c "/" then trim_slash_left s' else s
  | [] => []
  end.
Definition trim_slashes (s : string) : string :=
  String.string_of_list_ascii
    (rev (trim_slash_left (rev (trim_slash_left (String.list_ascii_of_string s))))).

Definition newPrefixedKV {D V} (base : ReadWriter D V) (keyspace : string) : ReadWriter D V :=
  let keyspace := trim_slashes (TrimSpace keyspace) in
  if keyspace =s "" then base else prefixedTxn base ("keyspaces/" +:+ keyspace +:+ "/").

(** ** The keys between a prefix and its range end *)

Lemma range_end_rev_snoc r c :
  range_end_rev (r ++ [c])%list =
  match range_end_rev r with
  | [] => if byte_ff c then [] else [ascii_of_N (N_of_ascii c + 1)]
  | e => (e ++ [c])%list
  end.
Proof.
  induction r as [|d r IH]; simpl; [by destruct (byte_ff c)|]. destruct (byte_ff d); simpl; [|done]. apply IH.
Qed.

Lemma prefixRangeEndString_cons c p :
  prefixRangeEndString (String c p) =
  match prefixRangeEndString p with
  | "" => if byte_ff c then "" else String (ascii_of_N (N_of_ascii c + 1)) ""
  | e => String c e
  end.
Proof.
  unfold prefixRangeEndString. cbn [String.list_ascii_of_string rev]. rewrite range_end_rev_snoc.
  destruct (range_end_rev (rev (String.list_ascii_of_string p))) as [|a l]; [by destruct (byte_ff c)|].
  rewrite rev_app_distr. cbn [rev app String.string_of_list_ascii]. destruct (rev l ++ [a])%list eqn:Hl; [|done].
  by destruct (rev l).
Qed.

Lemma ascii_succ c : byte_ff c = false -> N_of_ascii (ascii_of_N (N_of_ascii c + 1)) = (N_of_ascii c + 1)%N.
Proof.
  unfold byte_ff, byte_is. intros Hc%N.eqb_neq. pose proof (N_ascii_bounded c). apply N_ascii_embedding. lia.
Qed.

(** The keys with a prefix are the keys from the prefix up to its range end. *)
Lemma prefix_range p k :
  HasPrefix k p = negb (str_ltb k p) && ((prefixRangeEndString p =s "") || str_ltb k (prefixRangeEndString p)).
Proof.
  revert k. induction p as [|c p IH]; intros k; [by destruct k|]. rewrite prefixRangeEndString_cons.
  destruct k as [|d k]; [done|]. unfold HasPrefix in *. simpl. destruct (ascii_dec c d) as [<-|Hne].
  - rewrite Ascii.eqb_refl, IH. destruct (prefixRangeEndString p) as [|e l] eqn:Hp; simpl.
    + rewrite !andb_true_r. destruct (byte_ff c) eqn:Hff; simpl; [by rewrite andb_true_r|].
      assert (Ascii.eqb c (ascii_of_N (N_of_ascii c + 1)) = false) as ->.
      { apply Ascii.eqb_neq. intros Heq. apply (f_equal N_of_ascii) in Heq. rewrite ascii_succ in Heq by done. lia. }
      unfold ascii_ltb. rewrite ascii_succ by done. assert ((N_of_ascii c <? N_of_ascii c + 1)%N = true) as -> by (apply N.ltb_lt; lia).
      by rewrite andb_true_r.
    + by rewrite Ascii.eqb_refl.
  - assert (Ascii.eqb d c = false) as -> by (apply Ascii.eqb_neq; congruence).
    destruct (ascii_ltb d c) eqn:Hlt; [done|]. assert (N_of_ascii c < N_of_ascii d)%N as Hgt.
    { unfold ascii_ltb in Hlt. apply N.ltb_ge in Hlt. destruct (N.eq_dec (N_of_ascii c) (N_of_ascii d)) as [Heq|]; [|lia].
      apply (f_equal ascii_of_N) in Heq. by rewrite !ascii_N_embedding in Heq. }
    simpl. symmetry. destruct (prefixRangeEndString p) as [|e l] eqn:Hp.
    + destruct (byte_ff c) eqn:Hff.
      { unfold byte_ff, byte_is in Hff. apply N.eqb_eq in Hff. pose proof (N_ascii_bounded d). lia. }
      simpl. destruct (Ascii.eqb_spec d (ascii_of_N (N_of_ascii c + 1))); [by destruct k|].
      unfold ascii_ltb. rewrite ascii_succ by done. apply N.ltb_ge. lia.
    + simpl. destruct (Ascii.eqb_spec d c); [done|]. unfold ascii_ltb. apply N.ltb_ge. lia.
Qed.

Lemma nextLexicographicKey_spec c k : str_ltb k (nextLexicographicKey c) = negb (str_ltb c k).
Proof.
  unfold nextLexicographicKey. revert k. induction c as [|x c IH]; intros [|y k]; try done.
  - rewrite str_nil_app. simpl. destruct (Ascii.eqb_spec y Ascii.zero) as [->|Hy]; [by destruct k|].
    unfold ascii_ltb. apply N.ltb_ge. simpl. lia.
  - rewrite str_app_cons. simpl. destruct (Ascii.eqb_spec y x) as [->|Hne].
    + by rewrite Ascii.eqb_refl, IH.
    + assert (Ascii.eqb x y = false) as -> by (apply Ascii.eqb_neq; congruence).
      unfold ascii_ltb. assert (N_of_ascii x <> N_of_ascii y) as Hn.
      { intros Heq. apply (f_equal ascii_of_N) in Heq. rewrite !ascii_N_embedding in Heq. congruence. }
      destruct (N.ltb_spec (N_of_ascii y) (N_of_ascii x)), (N.ltb_spec (N_of_ascii x) (N_of_ascii y)); try done; lia.
Qed.

(** ** Strictly sorted lists of keys *)

Lemma str_lt_sorted_ext l1 l2 :
  StronglySorted str_lt l1 -> StronglySorted str_lt l2 -> (forall k, k ∈ l1 <-> k ∈ l2) -> l1 = l2.
Proof.
  assert (Hnd : forall l, StronglySorted str_lt l -> NoDup l).
  { induction 1 as [|k l Hl IH Hk]; constructor; [|done]. rewrite Forall_forall in Hk. intros Hin.
    specialize (Hk k Hin). unfold str_lt in Hk. by rewrite str_ltb_irrefl in Hk. }
  intros H1 H2 Heq. apply (StronglySorted_unique_strong str_lt); [|done..|].
  - intros a b _ _ Hab Hba. unfold str_lt in *. by rewrite (str_ltb_asym _ _ Hab) in Hba.
  - apply NoDup_Permutation; auto.
Qed.

Lemma sorted_keys_sorted {V} (m : gmap string V) : StronglySorted str_lt (sorted_keys m).
Proof.
  assert (NoDup (sorted_keys m)) as Hnd.
  { unfold sorted_keys. rewrite sort_by_perm. apply NoDup_fst_map_to_list. }
  pose proof (sort_by_sorted str_ltb str_ltb_asym str_geb_trans (map fst (map_to_list m))) as Hs.
  change (sort_by _ _) with (sorted_keys m) in Hs. revert Hnd. induction Hs as [|k l Hl IH Hk]; [constructor|].
  intros [Hni Hnd]%NoDup_cons. constructor; [by apply IH|]. rewrite Forall_forall in *. intros x Hx.
  specialize (Hk x Hx). unfold not_after in Hk. unfold str_lt. destruct (str_ltb k x) eqn:Hkx; [done|].
  by rewrite (str_ltb_total _ _ Hkx Hk) in Hni.
Qed.

Lemma elem_of_sorted_keys {V} (m : gmap string V) k : k ∈ sorted_keys m <-> is_Some (m !! k).
Proof.
  unfold sorted_keys. rewrite elem_of_sort_by, list_elem_of_fmap. split.
  - intros ([k' v] & -> & Hv%elem_of_map_to_list). by exists v.
  - intros [v Hv]. exists (k, v). by rewrite elem_of_map_to_list.
Qed.

Lemma elem_of_list_filter_bool {A} (f : A -> bool) (l : list A) x : x ∈ List.filter f l <-> f x = true /\ x ∈ l.
Proof. rewrite !list_elem_of_In, filter_In. tauto. Qed.

Lemma filter_sorted {A} (R : A -> A -> Prop) (f : A -> bool) l : StronglySorted R l -> StronglySorted R (List.filter f l).
Proof.
  induction 1 as [|x l Hl IH Hx]; simpl; [constructor|]. destruct (f x); [|done]. constructor; [done|].
  rewrite Forall_forall in *. intros y [_ Hy]%elem_of_list_filter_bool. auto.
Qed.

(** ** The implementations meet the interface *)

Lemma kv_limit_pos limit : (0 < kv_limit limit)%nat.
Proof. unfold kv_limit. destruct (Z.leb_spec limit 0); lia. Qed.

(** The loop takes a page when neither of its two stops applies. *)
Lemma collect_keys_page end_ prefixFilter n iter :
  (0 < n)%nat ->
  Forall (fun k => (end_ = "" \/ str_ltb k end_ = true) /\ (prefixFilter = "" \/ HasPrefix k prefixFilter = true)) iter ->
  collect_keys end_ prefixFilter n iter = kv_page n iter.
Proof.
  unfold kv_page. revert n. induction iter as [|k iter IH]; intros n Hn Hall; simpl; [destruct n; [lia | done]|].
  apply Forall_cons in Hall as [[He Hp] Hall].
  assert (negb (end_ =s "") && negb (str_ltb k end_) = false) as ->.
  { destruct He as [->| ->]; [done | by rewrite andb_false_r]. }
  assert (negb (prefixFilter =s "") && negb (HasPrefix k prefixFilter) = false) as ->.
  { destruct Hp as [->| ->]; [done | by rewrite andb_false_r]. }
  destruct n as [|[|n]]; [lia|done|]. cbn [Nat.leb Nat.sub]. rewrite IH by (done || lia).
  cbn [take length Nat.leb]. destruct (n <=? length iter)%nat eqn:Hl; [|by destruct iter, n].
  destruct iter as [|k' iter]; [by destruct n|]. by destruct n.
Qed.

(** What the listing loop iterates over, as a filter of the sorted keys. *)
Lemma start_key_spec start end_ cursor k :
  match start_key start end_ cursor with
  | None => in_range start end_ cursor k = false
  | Some sk => in_range start end_ cursor k =
               negb (str_ltb k sk) && (negb (str_ltb k start)) && ((end_ =s "") || str_ltb k end_)
  end.
Proof.
  unfold start_key, in_range. destruct (String.eqb_spec end_ "") as [->|He]; simpl.
  - destruct (String.eqb_spec cursor "") as [->|Hc]; simpl; [by rewrite !andb_true_r, andb_diag|].
    rewrite andb_true_r. destruct (str_ltb cursor start) eqn:Hcs; simpl.
    + destruct (String.eqb_spec start "") as [->|Hs]; [by destruct cursor|]. simpl. rewrite !andb_true_r, andb_diag.
      destruct (str_ltb k start) eqn:Hk; [done|]. simpl. destruct (str_ltb cursor k) eqn:Hck; [done|].
      by rewrite (str_geb_trans _ _ _ Hk Hck) in Hcs.
    + rewrite orb_true_r, nextLexicographicKey_spec, negb_involutive, !andb_true_r. apply andb_comm.
  - destruct (str_ltb start end_) eqn:Hse; simpl.
    2: { destruct (str_ltb k start) eqn:Hk; [done|]. simpl. by rewrite (str_geb_trans _ _ _ Hse Hk). }
    destruct (String.eqb_spec cursor "") as [->|Hc]; simpl; [by rewrite !andb_true_r, andb_diag|].
    destruct (str_ltb cursor end_) eqn:Hce; simpl; [rewrite andb_true_r|rewrite andb_false_r].
    + destruct (str_ltb cursor start) eqn:Hcs; simpl.
      * destruct (String.eqb_spec start "") as [->|Hs]; [by destruct cursor|]. simpl. rewrite andb_diag.
        destruct (str_ltb k start) eqn:Hk; [done|]. simpl. destruct (str_ltb cursor k) eqn:Hck; [by rewrite andb_true_r|].
        by rewrite (str_geb_trans _ _ _ Hk Hck) in Hcs.
      * rewrite orb_true_r, nextLexicographicKey_spec, negb_involutive.
        destruct (str_ltb cursor k), (str_ltb k start), (str_ltb k end_); done.
    + destruct (str_ltb cursor k) eqn:Hck; [|by rewrite !andb_false_r].
      destruct (str_ltb k end_) eqn:Hke; [|by rewrite andb_false_r]. by rewrite (str_ltb_trans _ _ _ Hck Hke) in Hce.
Qed.

Section Laws.
Context {D V : Type} `{EngL : EngineLaws D V}.

Lemma iter_filter d lower end_ start cursor sk :
  (lower = "" \/ lower = start) -> start_key start end_ cursor = Some sk ->
  (forall k, in_range start end_ cursor k = true -> str_ltb k lower = false) ->
  (lower = "" -> forall k, str_ltb k sk = false -> str_ltb k start = false) ->
  engine_iter d lower end_ sk = List.filter (in_range start end_ cursor) (sorted_keys (engine_view d)).
Proof.
  intros Hlow Hsk Hin Hlow'. apply str_lt_sorted_ext; [apply engine_iter_sorted | apply filter_sorted, sorted_keys_sorted|].
  intros k. rewrite engine_iter_elem, elem_of_list_filter_bool, elem_of_sorted_keys.
  pose proof (start_key_spec start end_ cursor k) as Hk. rewrite Hsk in Hk. rewrite Hk.
  rewrite !andb_true_iff, !negb_true_iff, orb_true_iff, String.eqb_eq. assert (start = "" -> str_ltb k start = false) by (intros ->; by destruct k).
  destruct Hlow as [->| ->]; [|tauto]. specialize (Hlow' eq_refl k). tauto.
Qed.

(** A listing range starts at or after [start], so the lower bound changes nothing. *)
Lemma start_key_ge start end_ cursor sk k :
  start_key start end_ cursor = Some sk -> str_ltb k sk = false -> str_ltb k start = false.
Proof.
  unfold start_key. case_match; [done|]. destruct (_ && _ && _) eqn:Hb.
  - intros [= <-]. rewrite nextLexicographicKey_spec, negb_false_iff. intros Hck.
    apply andb_true_iff in Hb as [[_ Hb]%andb_true_iff _]. apply orb_true_iff in Hb as [->%String.eqb_eq|Hb%negb_true_iff].
    { by destruct k. }
    destruct (str_ltb k start) eqn:Hks; [|done]. by rewrite (str_ltb_trans _ _ _ Hck Hks) in Hb.
  - case_match; [done|]. by intros [= <-].
Qed.

Lemma in_range_end start end_ cursor k : in_range start end_ cursor k = true -> end_ = "" \/ str_ltb k end_ = true.
Proof. unfold in_range. rewrite !andb_true_iff, orb_true_iff, String.eqb_eq. tauto. Qed.

Lemma filter_none {A} (f : A -> bool) l : (forall x, f x = false) -> List.filter f l = [].
Proof. intros Hf. induction l as [|x l IH]; simpl; [done|]. by rewrite Hf. Qed.

(** Both listing loops, with and without the filter of [List]. *)
Lemma listRange_ref d lower start end_ cursor limit prefixFilter :
  lower = "" \/ lower = start ->
  (forall k, in_range start end_ cursor k = true -> prefixFilter = "" \/ HasPrefix k prefixFilter = true) ->
  match start_key start end_ cursor with
  | None => ([], "")
  | Some sk => collect_keys end_ prefixFilter (kv_limit limit) (engine_iter d lower end_ sk)
  end = list_range_ref (engine_view d) start end_ cursor limit.
Proof.
  intros Hlow Hpre. unfold list_range_ref. destruct (start_key start end_ cursor) as [sk|] eqn:Hsk.
  - rewrite (iter_filter d lower end_ start cursor sk Hlow Hsk).
    + apply collect_keys_page; [apply kv_limit_pos|]. apply Forall_forall.
      intros k [Hk _]%elem_of_list_filter_bool. split; [by eapply in_range_end | by apply Hpre].
    + intros k. unfold in_range. rewrite !andb_true_iff, negb_true_iff. destruct Hlow as [->| ->]; [by destruct k | tauto].
    + intros _ k. by apply (start_key_ge start end_ cursor).
  - rewrite filter_none; [by destruct (kv_limit limit) eqn:Hl; [pose proof (kv_limit_pos limit); lia|]|].
    intros k. pose proof (start_key_spec start end_ cursor k) as Hk. by rewrite Hsk in Hk.
Qed.

Lemma list_ref_range {W} (m : gmap string W) prefix cursor limit :
  list_range_ref m prefix (prefixRangeEndString prefix) cursor limit = list_ref m prefix cursor limit.
Proof.
  unfold list_range_ref, list_ref. f_equal. apply filter_ext. intros k. unfold in_range. by rewrite <- prefix_range.
Qed.

Lemma in_range_prefix prefix cursor k :
  in_range prefix (prefixRangeEndString prefix) cursor k = true -> prefix = "" \/ HasPrefix k prefix = true.
Proof. unfold in_range. rewrite <- prefix_range, andb_true_iff. tauto. Qed.

#[export] Instance pebbleTx_laws : ReadWriterLaws (pebbleTx (D := D) (V := V)).
Proof.
  refine {| rw_view := engine_view |}.
  - apply engine_get_spec.
  - apply engine_set_spec.
  - apply engine_delete_spec.
  - intros. rewrite <- list_ref_range. apply listRange_ref; [by right|]. apply in_range_prefix.
  - intros. apply listRange_ref; [by right | by left].
Defined.

#[export] Instance txnReadWriter_laws : ReadWriterLaws (txnReadWriter (D := D) (V := V)).
Proof.
  refine {| rw_view := engine_view |}.
  - apply engine_get_spec.
  - apply engine_set_spec.
  - apply engine_delete_spec.
  - intros. rewrite <- list_ref_range. apply listRange_ref; [by left|]. apply in_range_prefix.
  - intros. apply listRange_ref; [by left | by left].
Defined.
End Laws.

(** ** A keyspace is a store of its own *)

Lemma str_ltb_prefixed p a b : str_ltb (p +:+ a) (p +:+ b) = str_ltb a b.
Proof. induction p as [|c p IH]; [done|]. rewrite !str_app_cons. simpl. by rewrite Ascii.eqb_refl. Qed.

Lemma HasPrefix_app p a : HasPrefix (p +:+ a) p = true.
Proof. apply prefix_spec. by exists a. Qed.

Lemma HasPrefix_prefixed p a b : HasPrefix (p +:+ a) (p +:+ b) = HasPrefix a b.
Proof.
  unfold HasPrefix. induction p as [|c p IH]; [done|]. rewrite !str_app_cons. simpl. by destruct (ascii_dec c c).
Qed.

Lemma TrimPrefix_inv p k : HasPrefix k p = true -> k = p +:+ TrimPrefix k p.
Proof. intros [t ->]%prefix_spec. by rewrite TrimPrefix_app. Qed.

Lemma TrimPrefix_nil p : TrimPrefix "" p = "".
Proof. unfold TrimPrefix. case_match; [|done]. by destruct (String.length p). Qed.

Section Keyspace.
Context {V : Type} (p : string).
Implicit Type m : gmap string V.

(** The keys of a keyspace without their prefix. *)
Definition keyspace_view m : gmap string V :=
  list_to_map (omap (fun kv => if HasPrefix kv.1 p then Some (TrimPrefix kv.1 p, kv.2) else None) (map_to_list m)).

Lemma lookup_keyspace_view m k : keyspace_view m !! k = m !! (p +:+ k).
Proof.
  unfold keyspace_view. set (l := omap _ _).
  assert (Hl : forall k v, (k, v) ∈ l <-> m !! (p +:+ k) = Some v).
  { intros k' v. unfold l. rewrite list_elem_of_omap. split.
    - intros ([k1 v1] & Hin%elem_of_map_to_list & Hf). simpl in Hf. destruct (HasPrefix k1 p) eqn:Hp; [|done].
      simplify_eq. by rewrite <- TrimPrefix_inv.
    - intros Hv. exists (p +:+ k', v). rewrite elem_of_map_to_list. split; [done|]. simpl.
      by rewrite HasPrefix_app, TrimPrefix_app. }
  assert (Hfun : forall v v', (k, v) ∈ l -> (k, v') ∈ l -> v = v') by (intros v v'; rewrite !Hl; congruence).
  destruct (m !! (p +:+ k)) as [v|] eqn:Hv.
  - apply elem_of_list_to_map_1'; [|by apply Hl]. intros v' Hv'. by rewrite Hl, Hv in Hv'; simplify_eq.
  - apply not_elem_of_list_to_map_1. intros ([k' v'] & -> & Hin%Hl)%list_elem_of_fmap. simpl in Hv. congruence.
Qed.

Lemma keyspace_view_insert m k v : keyspace_view (<[p +:+ k := v]> m) = <[k := v]> (keyspace_view m).
Proof.
  apply map_eq. intros k'. rewrite lookup_keyspace_view. destruct (decide (k = k')) as [->|Hne].
  - by rewrite !lookup_insert_eq.
  - rewrite !lookup_insert_ne, lookup_keyspace_view; [done|done|]. intros Heq. by apply str_app_inj_l in Heq.
Qed.

Lemma keyspace_view_delete m k : keyspace_view (delete (p +:+ k) m) = delete k (keyspace_view m).
Proof.
  apply map_eq. intros k'. rewrite lookup_keyspace_view. destruct (decide (k = k')) as [->|Hne].
  - by rewrite !lookup_delete_eq.
  - rewrite !lookup_delete_ne, lookup_keyspace_view; [done|done|]. intros Heq. by apply str_app_inj_l in Heq.
Qed.

(** A selection of the store's keys that stays inside the keyspace is a
    selection of the keyspace's keys. *)
Lemma keyspace_filter m (f g : string -> bool) :
  (forall k, f k = true -> HasPrefix k p = true) -> (forall k, f (p +:+ k) = g k) ->
  map (fun k => TrimPrefix k p) (List.filter f (sorted_keys m)) = List.filter g (sorted_keys (keyspace_view m)).
Proof.
  intros Hf Hg. apply str_lt_sorted_ext.
  - pose proof (filter_sorted str_lt f _ (sorted_keys_sorted m)) as Hs.
    assert (Forall (fun k => HasPrefix k p = true) (List.filter f (sorted_keys m))) as Hall.
    { apply Forall_forall. intros k [Hk _]%elem_of_list_filter_bool. auto. }
    induction Hs as [|k l Hl IH Hk]; simpl; [constructor|]. apply Forall_cons in Hall as [Hkp Hall].
    constructor; [by apply IH|]. rewrite Forall_map. rewrite Forall_forall in *. intros x Hx. unfold str_lt.
    rewrite <- (str_ltb_prefixed p), <- !TrimPrefix_inv by auto. by apply Hk.
  - apply filter_sorted, sorted_keys_sorted.
  - intros k. rewrite list_elem_of_fmap, elem_of_list_filter_bool, elem_of_sorted_keys, lookup_keyspace_view, <- Hg.
    setoid_rewrite elem_of_list_filter_bool. setoid_rewrite elem_of_sorted_keys. split.
    + intros (k' & -> & Hk' & Hv). by rewrite <- TrimPrefix_inv by auto.
    + intros [Hk Hv]. exists (p +:+ k). by rewrite TrimPrefix_app.
Qed.

Lemma last_map {A B} (f : A -> B) (l : list A) : last (map f l) = f <$> last l.
Proof. induction l as [|x [|y l] IH]; [done..|]. exact IH. Qed.

Lemma unprefixed_kv_page n l : unprefixed_page p (kv_page n l) = kv_page n (map (fun k => TrimPrefix k p) l).
Proof.
  unfold unprefixed_page, kv_page. cbn [fst snd]. rewrite length_map, firstn_map. f_equal.
  assert (forall s, (if negb (s =s "") then TrimPrefix s p else s) = TrimPrefix s p) as ->.
  { intros s. destruct (String.eqb_spec s "") as [->|]; [by rewrite TrimPrefix_nil | done]. }
  destruct (n <=? length l)%nat; [|by rewrite TrimPrefix_nil].
  rewrite last_map. destruct (last (take n l)); simpl; [done | by rewrite TrimPrefix_nil].
Qed.

Lemma prefixed_cursor_after cursor k :
  (prefixed_cursor p cursor =s "") || str_ltb (prefixed_cursor p cursor) (p +:+ k) = (cursor =s "") || str_ltb cursor k.
Proof.
  unfold prefixed_cursor, prefixed. destruct (String.eqb_spec cursor "") as [->|Hc]; simpl; [done|].
  rewrite str_ltb_prefixed. destruct (String.eqb_spec (p +:+ cursor) "") as [Hn|]; [|done].
  destruct p; [by rewrite str_nil_app in Hn | by rewrite str_app_cons in Hn].
Qed.

(** Nothing before the range end of a prefix and after the prefix is outside. *)
Lemma prefixed_range_end end_ k :
  str_ltb k p = false -> end_ <> "" -> str_ltb k (p +:+ end_) = true -> HasPrefix k p = true.
Proof.
  intros Hk He Hlt. rewrite prefix_range, Hk. simpl.
  pose proof (HasPrefix_app p end_) as Hp. rewrite prefix_range in Hp. apply andb_true_iff in Hp as [_ Hp].
  apply orb_true_iff in Hp as [->|Hp]; [done|]. rewrite (str_ltb_trans _ _ _ Hlt Hp). apply orb_true_r.
Qed.

Lemma prefix_not_after a : str_ltb (p +:+ a) p = false.
Proof. pose proof (HasPrefix_app p a) as Hp. rewrite prefix_range in Hp. by apply andb_true_iff in Hp as [?%negb_true_iff _]. Qed.
End Keyspace.

#[export] Instance prefixedTxn_laws {D V} (base : ReadWriter D V) `{!ReadWriterLaws base} (p : string) :
  ReadWriterLaws (prefixedTxn base p).
Proof.
  refine {| rw_view := fun d => keyspace_view p (rw_view d) |}.
  - intros d k. simpl. by rewrite Get_spec, lookup_keyspace_view.
  - intros d k v. simpl. by rewrite Set_spec, <- keyspace_view_insert.
  - intros d k. simpl. by rewrite Delete_spec, <- keyspace_view_delete.
  - intros d q cursor limit. simpl. rewrite List_spec. unfold list_ref. rewrite unprefixed_kv_page. f_equal.
    apply keyspace_filter.
    + intros k [Hk _]%andb_true_iff. apply prefix_spec in Hk as [t ->]. unfold prefixed.
      rewrite <- str_app_assoc. apply HasPrefix_app.
    + intros k. unfold prefixed at 1. by rewrite HasPrefix_prefixed, prefixed_cursor_after.
  - intros d start end_ cursor limit. simpl. rewrite ListRange_spec. unfold list_range_ref.
    rewrite unprefixed_kv_page. f_equal. apply keyspace_filter.
    + intros k. unfold in_range. rewrite !andb_true_iff, negb_true_iff. intros [[Hs He] _].
      pose proof (str_geb_trans _ _ _ (prefix_not_after p start) Hs) as Hk.
      destruct (String.eqb_spec end_ "") as [->|Hne]; simpl in He.
      * rewrite prefix_range, Hk. done.
      * apply (prefixed_range_end p end_ k Hk Hne). apply orb_true_iff in He as [He%String.eqb_eq|He]; [|done].
        unfold prefixed in He. destruct p; [by rewrite str_nil_app in He | by rewrite str_app_cons in He].
    + intros k. unfold in_range. rewrite prefixed_cursor_after. unfold prefixed. rewrite str_ltb_prefixed. do 2 f_equal.
      destruct (String.eqb_spec end_ "") as [->|Hne]; simpl.
      * pose proof (HasPrefix_app p k) as Hp. rewrite prefix_range in Hp. unfold prefixRangeEnd.
        by apply andb_true_iff in Hp as [_ ->].
      * rewrite str_ltb_prefixed. destruct (String.eqb_spec (p +:+ end_) "") as [He|]; [|done].
        destruct p; [by rewrite str_nil_app in He | by rewrite str_app_cons in He].
Defined.

(** ** An engine that meets the laws: a finite map *)

#[export] Instance map_engine {V} : Engine (gmap string V) V := {|
  engine_get d k := d !! k;
  engine_set d k v := <[k := v]> d;
  engine_delete d k := delete k d;
  engine_iter d lower upper start :=
    List.filter (fun k => negb (str_ltb k start) && ((lower =s "") || negb (str_ltb k lower)) && ((upper =s "") || str_ltb k upper))
      (sorted_keys d)
|}.

#[export] Instance map_engine_laws {V} : EngineLaws (map_engine (V := V)).
Proof.
  refine {| engine_view := fun d => d |}; try done.
  - intros. apply filter_sorted, sorted_keys_sorted.
  - intros d lower upper start k. simpl. rewrite elem_of_list_filter_bool, elem_of_sorted_keys.
    rewrite !andb_true_iff, !orb_true_iff, !negb_true_iff, !String.eqb_eq. tauto.
Defined.

(** ** What the repository is promised *)

(** C33: Every store the repository can be opened on lists like a sorted map: over an
    engine with the documented behaviour, the Pebble transaction, the TiKV
    transaction, and the TiKV transaction confined to a keyspace return from
    [ListRange] exactly the first [limit] keys of the range, in byte order, after
    the cursor (128 when no limit is given), and the last of them as cursor when
    the page is full. The three listings are the same function of what the store
    holds, and a keyspace sees its own keys only. *)
Theorem stores_list_alike {D V} (eng : Engine D V) {Laws : EngineLaws eng} (d : D) (p start end_ cursor : string) (limit : Z) :
  @ListRange D V pebbleTx d start end_ cursor limit = list_range_ref (engine_view d) start end_ cursor limit /\
  @ListRange D V txnReadWriter d start end_ cursor limit = list_range_ref (engine_view d) start end_ cursor limit /\
  @ListRange D V (prefixedTxn txnReadWriter p) d start end_ cursor limit =
    list_range_ref (keyspace_view p (engine_view d)) start end_ cursor limit.
Proof.
  split_and!; [apply (@ListRange_spec _ _ _ pebbleTx_laws) | apply (@ListRange_spec _ _ _ txnReadWriter_laws)
              | apply (@ListRange_spec _ _ _ (@prefixedTxn_laws _ _ _ txnReadWriter_laws p))].
Qed.

Definition ex_store : gmap string nat := list_to_map [("keyspaces/a/x/1", 1%nat); ("keyspaces/a/x/2", 2%nat); ("keyspaces/b/x/3", 3%nat); ("y", 4%nat)].

Lemma stores_list_alike_witness :
  @ListRange _ _ (prefixedTxn txnReadWriter "keyspaces/a/") ex_store "x/" "" "" 1 =
    list_range_ref (keyspace_view "keyspaces/a/" (engine_view ex_store)) "x/" "" "" 1 /\
  @ListRange _ _ (prefixedTxn txnReadWriter "keyspaces/a/") ex_store "x/" "" "" 1 = (["x/1"], "x/1").
Proof. split; [apply (stores_list_alike map_engine) | vm_compute; reflexivity]. Defined.
