(* ===== verification/KvRepo.v ===== *)
(** * KvRepo: records and primitives of the KV metadata repository

    [src/internal/meta/kvrepo/repository.go] keeps every record as JSON under its
    key ([Keyspace]) in a transactional store ([KvStore]). The state here is what
    every store with the laws [ReadWriterLaws] holds, a finite map from keys to
    records, with the counters of the clock and the identifier generator.

    A value is the record it decodes to. [json.Marshal] replaces bytes that are not
    UTF-8 by U+FFFD, so a text read back may differ from the one written; the
    object key, the one text of a record that callers match on, is stored through
    [json_text]. The other texts are kept as they are.

    Scans read a prefix page by page. They are written as the loops of the source,
    with fuel one more than the number of records, which the lemmas show to be
    enough. *)

From S2P Require Import Prelude GoLib GoText Sha256 StorageTypes Model Requests Encoding Meta Manifest Repo Keyspace KvStore.
From Stdlib Require Import Ascii.
Open Scope string_scope.
Open Scope Z_scope.

(** ** Texts in JSON *)

Definition replacement_char : list ascii := [ascii_of_N 239; ascii_of_N 191; ascii_of_N 189].

(** The bytes of a text after [json.Marshal] and [json.Unmarshal]. *)
Fixpoint json_bytes (skip : nat) (s : list ascii) : list ascii :=
  match s with
  | [] => []
  | c :: s' =>
      match skip with
      | S k => c :: json_bytes k s'
      | O =>
          if byte_in 0 127 c then c :: json_bytes 0 s'
          else match utf8_width s with
               | Some w => c :: json_bytes (w - 1) s'
               | None => (replacement_char ++ json_bytes 0 s')%list
               end
      end
  end.

Definition json_text (s : string) : string :=
  String.string_of_list_ascii (json_bytes 0 (String.list_ascii_of_string s)).

(** ** Records *)

(** [src/internal/meta/model/model.go] lines 628-644. *)
Record ObjectHeadEntry := mkObjectHeadEntry {
  ohe_BucketID : string;
  ohe_Key : string;
  ohe_VersionID : string;
  ohe_Revision : Z;
  ohe_SizeBytes : Z;
  ohe_ETag : string;
  ohe_ContentType : string;
  ohe_StorageClass : StorageClassSnapshot;
  ohe_ServerSideEncryption : ServerSideEncryption;
  ohe_UserMetadata : gmap string string;
  ohe_Tags : gmap string string;
  ohe_ObjectLockRetention : ObjectLockRetention;
  ohe_ObjectLockLegalHold : string;
  ohe_LastModified : Time;
  ohe_DeleteMarker : bool
}.
#[export] Instance eta_ObjectHeadEntry : RecordEta ObjectHeadEntry := fun r => mkObjectHeadEntry
  (ohe_BucketID r) (ohe_Key r) (ohe_VersionID r) (ohe_Revision r) (ohe_SizeBytes r) (ohe_ETag r) (ohe_ContentType r)
  (ohe_StorageClass r) (ohe_ServerSideEncryption r) (ohe_UserMetadata r) (ohe_Tags r) (ohe_ObjectLockRetention r)
  (ohe_ObjectLockLegalHold r) (ohe_LastModified r) (ohe_DeleteMarker r).

(** [src/internal/meta/model/model.go] lines 646-657. *)
Record ObjectListEntry := mkObjectListEntry {
  ole_BucketID : string;
  ole_Key : string;
  ole_VersionID : string;
  ole_Revision : Z;
  ole_SizeBytes : Z;
  ole_ETag : string;
  ole_ContentType : string;
  ole_StorageClass : StorageClassSnapshot;
  ole_LastModified : Time;
  ole_DeleteMarker : bool
}.
#[export] Instance eta_ObjectListEntry : RecordEta ObjectListEntry := fun r => mkObjectListEntry
  (ole_BucketID r) (ole_Key r) (ole_VersionID r) (ole_Revision r) (ole_SizeBytes r) (ole_ETag r) (ole_ContentType r)
  (ole_StorageClass r) (ole_LastModified r) (ole_DeleteMarker r).

Record objectVersionIndexRecord := mk_objectVersionIndexRecord {
  ovi_Key : string;
  ovi_VersionSortKey : string
}.
#[export] Instance eta_objectVersionIndexRecord : RecordEta objectVersionIndexRecord := fun r =>
  mk_objectVersionIndexRecord (ovi_Key r) (ovi_VersionSortKey r).

(** The record types stored under the keys of the modelled operations. *)
Inductive kvalue :=
| V_BucketID (bucketID : string)
| V_Bucket (bucket : Bucket)
| V_Head (entry : ObjectHeadEntry)
| V_List (entry : ObjectListEntry)
| V_Version (version : ObjectVersion)
| V_VersionIndex (record : objectVersionIndexRecord)
| V_Chunk (chunk : ObjectManifestChunk)
| V_ProtectedRef (ref : ProtectedRef)
| V_KMSKey (key : KMSKeyRecord)
| V_Sequence (value : Z)
| V_AuditEvent (event : AuditEvent)
| V_AuditHead (lastHash : string)
| V_Schema (record : MetadataSchemaRecord)
| V_Tenant (tenant : Tenant)
| V_TenantQuota (quota : TenantQuota)
| V_TenantUsage (usage : TenantUsage)
| V_AccessKey (key : AccessKey)
| V_Profile (profile : ComplianceProfileAttachment)
| V_BucketQuota (quota : BucketQuota)
| V_Upload (upload : MultipartUpload)
| V_UploadIndex (uploadID : string)
| V_Completion (record : MultipartCompletionRecord)
| V_Part (part : MultipartPart)
| V_GCCandidate (record : GCCandidateRecord)
| V_VolumePool (pool : VolumePool)
| V_WorkerLease (lease : WorkerLease)
| V_WorkerControl (record : WorkerControlRecord)
| V_GCOperation (record : GCOperationRecord)
| V_DedupeOperation (record : DedupeOperationRecord)
| V_DedupeLock (lock : DedupeOperationLock)
| V_Release (release : SharedObjectRelease)
| V_DrainOperation (record : VolumeDrainOperationRecord)
| V_WorkerOperation (record : WorkerOperationRecord)
| V_MigrationOperation (record : MetadataMigrationOperationRecord).

Definition as_BucketID (v : kvalue) : option string := if v is V_BucketID x then Some x else None.
Definition as_Bucket (v : kvalue) : option Bucket := if v is V_Bucket x then Some x else None.
Definition as_Head (v : kvalue) : option ObjectHeadEntry := if v is V_Head x then Some x else None.
Definition as_List (v : kvalue) : option ObjectListEntry := if v is V_List x then Some x else None.
Definition as_Version (v : kvalue) : option ObjectVersion := if v is V_Version x then Some x else None.
Definition as_VersionIndex (v : kvalue) : option objectVersionIndexRecord := if v is V_VersionIndex x then Some x else None.
Definition as_Chunk (v : kvalue) : option ObjectManifestChunk := if v is V_Chunk x then Some x else None.
Definition as_ProtectedRef (v : kvalue) : option ProtectedRef := if v is V_ProtectedRef x then Some x else None.
Definition as_KMSKey (v : kvalue) : option KMSKeyRecord := if v is V_KMSKey x then Some x else None.
Definition as_Sequence (v : kvalue) : option Z := if v is V_Sequence x then Some x else None.
Definition as_AuditHead (v : kvalue) : option string := if v is V_AuditHead x then Some x else None.
Definition as_Schema (v : kvalue) : option MetadataSchemaRecord := if v is V_Schema x then Some x else None.
Definition as_Tenant (v : kvalue) : option Tenant := if v is V_Tenant x then Some x else None.
Definition as_TenantQuota (v : kvalue) : option TenantQuota := if v is V_TenantQuota x then Some x else None.
Definition as_TenantUsage (v : kvalue) : option TenantUsage := if v is V_TenantUsage x then Some x else None.
Definition as_AccessKey (v : kvalue) : option AccessKey := if v is V_AccessKey x then Some x else None.
Definition as_Profile (v : kvalue) : option ComplianceProfileAttachment := if v is V_Profile x then Some x else None.
Definition as_BucketQuota (v : kvalue) : option BucketQuota := if v is V_BucketQuota x then Some x else None.
Definition as_Upload (v : kvalue) : option MultipartUpload := if v is V_Upload x then Some x else None.
Definition as_UploadIndex (v : kvalue) : option string := if v is V_UploadIndex x then Some x else None.
Definition as_Completion (v : kvalue) : option MultipartCompletionRecord := if v is V_Completion x then Some x else None.
Definition as_Part (v : kvalue) : option MultipartPart := if v is V_Part x then Some x else None.
Definition as_GCCandidate (v : kvalue) : option GCCandidateRecord := if v is V_GCCandidate x then Some x else None.
Definition as_VolumePool (v : kvalue) : option VolumePool := if v is V_VolumePool x then Some x else None.
Definition as_WorkerLease (v : kvalue) : option WorkerLease := if v is V_WorkerLease x then Some x else None.
Definition as_WorkerControl (v : kvalue) : option WorkerControlRecord := if v is V_WorkerControl x then Some x else None.
Definition as_GCOperation (v : kvalue) : option GCOperationRecord := if v is V_GCOperation x then Some x else None.
Definition as_DedupeOperation (v : kvalue) : option DedupeOperationRecord := if v is V_DedupeOperation x then Some x else None.
Definition as_DedupeLock (v : kvalue) : option DedupeOperationLock := if v is V_DedupeLock x then Some x else None.
Definition as_Release (v : kvalue) : option SharedObjectRelease := if v is V_Release x then Some x else None.
Definition as_DrainOperation (v : kvalue) : option VolumeDrainOperationRecord := if v is V_DrainOperation x then Some x else None.
Definition as_WorkerOperation (v : kvalue) : option WorkerOperationRecord := if v is V_WorkerOperation x then Some x else None.
Definition as_MigrationOperation (v : kvalue) : option MetadataMigrationOperationRecord := if v is V_MigrationOperation x then Some x else None.
Definition as_AuditEvent (v : kvalue) : option AuditEvent := if v is V_AuditEvent x then Some x else None.

(** What a record decodes to once encoded. *)
Definition through_json (v : kvalue) : kvalue :=
  match v with
  | V_Head e => V_Head (e <| ohe_Key := json_text (ohe_Key e) |>)
  | V_List e => V_List (e <| ole_Key := json_text (ole_Key e) |>)
  | V_Version x => V_Version (x <| ov_Key := json_text (ov_Key x) |>)
  | V_VersionIndex r => V_VersionIndex (r <| ovi_Key := json_text (ovi_Key r) |>)
  | V_Upload u => V_Upload (u <| mu_Key := json_text (mu_Key u) |>)
  | V_Completion r => V_Completion (r <| mcr_Key := json_text (mcr_Key r) |>)
  | _ => v
  end.

(** ** The repository *)

Record KvRepository := mkKvRepository {
  kv_db : gmap string kvalue;
  kv_clock_calls : nat;
  kv_id_calls : nat
}.
#[export] Instance eta_KvRepository : RecordEta KvRepository := fun r =>
  mkKvRepository (kv_db r) (kv_clock_calls r) (kv_id_calls r).

Definition KM (A : Type) : Type := ST KvRepository Err A.

(** [r.run]: the store is put back when the function fails; the clock and the
    generator have moved on. *)
Definition run {A} (fn : KM A) : KM A := fun s =>
  match fn s with
  | (Ok a, s') => (Ok a, s')
  | (Fail e, s') => (Fail e, s' <| kv_db := kv_db s |>)
  end.

Definition tx_Set (key : string) (v : kvalue) : KM unit := st_modify (fun s => s <| kv_db := <[key := v]> (kv_db s) |>).
Definition tx_Delete (key : string) : KM unit := st_modify (fun s => s <| kv_db := delete key (kv_db s) |>).
Definition kgets {A} (f : KvRepository -> A) : KM A := fun s => (Ok (f s), s).

Definition decode {T} (as_T : kvalue -> option T) (v : kvalue) : outcome Err T :=
  match as_T v with Some x => Ok x | None => Fail ErrOther end.

Definition getJSON {T} (as_T : kvalue -> option T) (key : string) : KM (option T) := fun s =>
  (match kv_db s !! key with
   | None => Ok None
   | Some v => match decode as_T v with Ok x => Ok (Some x) | Fail e => Fail e end
   end, s).

Definition setJSON (key : string) (v : kvalue) : KM unit := tx_Set key (through_json v).

(** A record that must exist. *)
Definition require {T} (e : Err) (m : KM (option T)) : KM T :=
  let! found := m in match found with Some x => st_ret x | None => st_fail e end.

Section Repository.
Context `{Env}.

Definition kv_now : KM Time := fun s => (Ok (env_now (kv_clock_calls s)), s <| kv_clock_calls := S (kv_clock_calls s) |>).

Definition kv_NewID (kind : string) : KM string := fun s =>
  (match env_newID (kv_id_calls s) kind with Some id => Ok id | None => Fail ErrUnavailable end,
   s <| kv_id_calls := S (kv_id_calls s) |>).

(** The retry loops over identifiers whose record is already there. *)
Fixpoint kv_fresh_id {T} (attempts : nat) (kind : string) (as_T : kvalue -> option T) (key : string -> string) : KM string :=
  match attempts with
  | O => st_fail ErrUnavailable
  | S attempts' =>
      let! id := kv_NewID kind in
      let! taken := getJSON as_T (key id) in
      if is_some taken then kv_fresh_id attempts' kind as_T key else st_ret id
  end.

Definition nextObjectVersionID (bucketID key : string) : KM string :=
  kv_fresh_id idCollisionRetryLimit KindVersion as_Version (ObjectVersionKey bucketID key).
End Repository.

(** ** Key prefixes *)

Definition bucketByIDPrefix : string := BucketByIDKey "".
Definition objectHeadPrefix (bucketID : string) : string := TrimSuffix (ObjectHeadKey bucketID "") "/head".
Definition listPrefix (bucketID : string) : string := ListObjectKey bucketID "".
Definition versionPrefix (bucketID objectKey : string) : string := ObjectVersionKey bucketID objectKey "".
Definition versionsBucketPrefix (bucketID : string) : string :=
  "/namros/v1/buckets/" +:+ EscapePathSegment bucketID +:+ "/versions/".
Definition versionListPrefix (bucketID objectKeyPrefix : string) : string :=
  versionsBucketPrefix bucketID +:+ EscapeObjectKey objectKeyPrefix.
Definition protectedRefVersionPrefix (bucketID key versionID : string) : string :=
  ProtectedRefByVersionKey bucketID key versionID "".

(** ** Scans *)

(** The pages of [tx.List(prefix, cursor, limit)] from a cursor on. *)
Fixpoint scan_pages {V} (fuel : nat) (db : gmap string V) (prefix cursor : string) (limit : Z) : list string :=
  match fuel with
  | O => []
  | S fuel' =>
      let '(keys, next) := list_ref db prefix cursor limit in
      if next =s "" then keys else (keys ++ scan_pages fuel' db prefix next limit)%list
  end.

Definition scan_fuel {V} (db : gmap string V) : nat := S (size db).

(** What [scanRaw] does with the keys of a scan: [fn] sees each record in turn and
    says whether to stop ([errStopScan]). *)
Fixpoint visit {T A} (as_T : kvalue -> option T) (fn : A -> string -> T -> A * bool) (db : gmap string kvalue)
    (keys : list string) (acc : A) : outcome Err A :=
  match keys with
  | [] => Ok acc
  | key :: keys' =>
      match db !! key with
      | None => visit as_T fn db keys' acc
      | Some v =>
          match decode as_T v with
          | Fail e => Fail e
          | Ok x => let '(acc', stop) := fn acc key x in if (stop : bool) then Ok acc' else visit as_T fn db keys' acc'
          end
      end
  end.

Definition scanJSONWithKey {T A} (as_T : kvalue -> option T) (prefix : string) (fn : A -> string -> T -> A * bool) (acc : A) : KM A :=
  let! db := kgets kv_db in
  st_lift (visit as_T fn db (scan_pages (scan_fuel db) db prefix "" 128) acc).

Definition scanJSON {T A} (as_T : kvalue -> option T) (prefix : string) (fn : A -> T -> A * bool) (acc : A) : KM A :=
  scanJSONWithKey as_T prefix (fun acc _ x => fn acc x) acc.

Fixpoint each {A B} (f : A -> KM B) (l : list A) : KM unit :=
  match l with
  | [] => st_ret tt
  | x :: l' => f x ;;! each f l'
  end.

(** The loops that delete while they list: [step] handles one key of a page. *)
Fixpoint delete_pages (fuel : nat) (prefix cursor : string) (limit : Z) (step : string -> KM unit) : KM unit :=
  match fuel with
  | O => st_ret tt
  | S fuel' =>
      let! p := kgets (fun s => list_ref (kv_db s) prefix cursor limit) in
      each step p.1 ;;!
      if p.2 =s "" then st_ret tt else delete_pages fuel' prefix p.2 limit step
  end.
