(* ===== verification/KvObjects.v ===== *)
(** * KvObjects: bucket and object operations of the KV metadata repository

    The methods of [src/internal/meta/kvrepo/repository.go] that write object heads,
    versions, listing entries and manifest chunks, with their helpers; each method
    is one transaction ([run]). *)

From S2P Require Import Prelude GoLib Sha256 StorageTypes Model Requests Encoding Meta Manifest Repo Keyspace KvStore KvRepo.
Open Scope string_scope.
Open Scope Z_scope.

(** ** Heads and listing entries *)

Definition headEntryFromHead (head : ObjectHead) : ObjectHeadEntry :=
  mkObjectHeadEntry (oh_BucketID head) (oh_Key head) (oh_VersionID head) (oh_Revision head) (oh_SizeBytes head)
    (oh_ETag head) (oh_ContentType head) (oh_StorageClass head) (oh_ServerSideEncryption head)
    (oh_UserMetadata head) (oh_Tags head) (oh_ObjectLockRetention head) (oh_ObjectLockLegalHold head)
    (oh_LastModified head) (oh_DeleteMarker head).

Definition headFromHeadEntry (entry : ObjectHeadEntry) : ObjectHead :=
  mkObjectHead (ohe_BucketID entry) (ohe_Key entry) (ohe_VersionID entry) (ohe_Revision entry) (ohe_SizeBytes entry)
    (ohe_ETag entry) (ohe_ContentType entry) (ohe_StorageClass entry) (ohe_ServerSideEncryption entry)
    zero_SegmentRef [] zero_ObjectManifestDescriptor (ohe_UserMetadata entry) (ohe_Tags entry)
    (ohe_ObjectLockRetention entry) (ohe_ObjectLockLegalHold entry) (ohe_LastModified entry) (ohe_DeleteMarker entry).

Definition listEntryFromHead (head : ObjectHead) : ObjectListEntry :=
  mkObjectListEntry (oh_BucketID head) (oh_Key head) (oh_VersionID head) (oh_Revision head) (oh_SizeBytes head)
    (oh_ETag head) (oh_ContentType head) (oh_StorageClass head) (oh_LastModified head) (oh_DeleteMarker head).

Definition headFromListEntry (entry : ObjectListEntry) : ObjectHead :=
  zero_ObjectHead <| oh_BucketID := ole_BucketID entry |> <| oh_Key := ole_Key entry |>
    <| oh_VersionID := ole_VersionID entry |> <| oh_Revision := ole_Revision entry |>
    <| oh_SizeBytes := ole_SizeBytes entry |> <| oh_ETag := ole_ETag entry |>
    <| oh_ContentType := ole_ContentType entry |> <| oh_StorageClass := ole_StorageClass entry |>
    <| oh_LastModified := ole_LastModified entry |> <| oh_DeleteMarker := ole_DeleteMarker entry |>.

Definition getObjectHead (bucketID objectKey : string) : KM (option ObjectHead) :=
  let! entry := getJSON as_Head (ObjectHeadKey bucketID objectKey) in
  st_ret (headFromHeadEntry <$> entry).

Definition setObjectHead (head : ObjectHead) : KM ObjectHead :=
  let! previous := getObjectHead (oh_BucketID head) (oh_Key head) in
  let head := head <| oh_Revision := nextObjectHeadRevision previous |> in
  setJSON (ObjectHeadKey (oh_BucketID head) (oh_Key head)) (V_Head (headEntryFromHead head)) ;;!
  st_ret head.

Definition setListObject (head : ObjectHead) : KM unit :=
  if oh_DeleteMarker head then tx_Delete (ListObjectKey (oh_BucketID head) (oh_Key head))
  else setJSON (ListObjectKey (oh_BucketID head) (oh_Key head)) (V_List (listEntryFromHead head)).

(** ** Versions and their manifests *)

Definition get_chunk (db : gmap string kvalue) (k : string * string * Z) : option ObjectManifestChunk :=
  db !! ObjectManifestChunkKey k.1.1 k.1.2 k.2 ≫= as_Chunk.

Definition hydrateVersion (version : ObjectVersion) : KM ObjectVersion :=
  let! db := kgets kv_db in st_lift (hydrateObjectVersionManifest (get_chunk db) version).

Definition deleteManifestChunks (bucketID versionID : string) : KM unit :=
  if (bucketID =s "") || (versionID =s "") then st_ret tt
  else
    let! db := kgets kv_db in
    delete_pages (scan_fuel db) (ObjectManifestChunkKey bucketID versionID 0) "" 128 tx_Delete.

(** The planner always returns ([plan_total]), so the missing case is not taken. *)
Definition planStorage (version : ObjectVersion) : outcome Err ObjectVersionManifestPlan :=
  match PlanObjectVersionManifestStorage version with
  | Some r => r
  | None => Fail ErrOther
  end.

Definition setObjectVersion (version : ObjectVersion) : KM unit :=
  let! plan := st_lift (planStorage version) in
  (if (omd_Encoding (ov_Manifest version) =s ObjectManifestEncodingChunked) || negb (Nat.eqb (length (plan_Chunks plan)) 0)
   then deleteManifestChunks (ov_BucketID version) (ov_VersionID version) else st_ret tt) ;;!
  each (fun chunk => setJSON (ObjectManifestChunkKey (omc_BucketID chunk) (omc_VersionID chunk) (omc_ChunkNumber chunk))
                       (V_Chunk chunk)) (plan_Chunks plan) ;;!
  let stored := plan_StoredVersion plan in
  setJSON (ObjectVersionKey (ov_BucketID stored) (ov_Key stored) (ov_VersionSortKey stored)) (V_Version stored) ;;!
  setJSON (ObjectVersionByIDKey (ov_BucketID stored) (ov_VersionID stored))
    (V_VersionIndex (mk_objectVersionIndexRecord (ov_Key stored) (ov_VersionSortKey stored))).

Definition deleteObjectVersionRecord (versionKey : string) (version : ObjectVersion) : KM unit :=
  (if negb (ov_BucketID version =s "") && negb (ov_VersionID version =s "") then
     tx_Delete (ObjectVersionByIDKey (ov_BucketID version) (ov_VersionID version)) ;;!
     deleteManifestChunks (ov_BucketID version) (ov_VersionID version)
   else st_ret tt) ;;!
  if versionKey =s "" then st_ret tt else tx_Delete versionKey.

(** The record of a version and its key: by the locator, or by a scan of the
    object's versions that writes the locator. *)
Definition findVersionByID (bucketID objectKey versionID : string) : KM (option (string * ObjectVersion)) :=
  if versionID =s "" then st_ret None
  else
    let! locator := getJSON as_VersionIndex (ObjectVersionByIDKey bucketID versionID) in
    match locator with
    | Some locator =>
        if negb (ovi_Key locator =s objectKey) || (ovi_VersionSortKey locator =s "") then st_ret None
        else
          let versionKey := ObjectVersionKey bucketID (ovi_Key locator) (ovi_VersionSortKey locator) in
          let! found := getJSON as_Version versionKey in
          match found with
          | None => st_ret None
          | Some version =>
              if negb (ov_VersionID version =s versionID) || negb (ov_Key version =s objectKey) then st_ret None
              else let! version := hydrateVersion version in st_ret (Some (versionKey, version))
          end
    | None =>
        let! found := scanJSONWithKey as_Version (versionPrefix bucketID objectKey)
          (fun acc key version => if negb (ov_VersionID version =s versionID) then (acc, false) else (Some (key, version), true)) None in
        match found with
        | None => st_ret None
        | Some (foundKey, found) =>
            (if negb (ov_VersionID found =s "") && negb (ov_VersionSortKey found =s "")
             then setJSON (ObjectVersionByIDKey (ov_BucketID found) (ov_VersionID found))
                    (V_VersionIndex (mk_objectVersionIndexRecord (ov_Key found) (ov_VersionSortKey found)))
             else st_ret tt) ;;!
            let! found := hydrateVersion found in st_ret (Some (foundKey, found))
        end
    end.

Definition hydrateHeadManifest (head : ObjectHead) : KM ObjectHead :=
  if oh_DeleteMarker head || (oh_VersionID head =s "") || negb (sr_SegmentID (oh_SegmentRef head) =s "")
     || negb (Nat.eqb (length (oh_SegmentRefs head)) 0)
  then st_ret head
  else
    let! found := findVersionByID (oh_BucketID head) (oh_Key head) (oh_VersionID head) in
    match found with
    | None => st_ret head
    | Some (_, version) =>
        st_ret (head <| oh_SegmentRef := ov_SegmentRef version |> <| oh_SegmentRefs := ov_SegmentRefs version |>)
    end.

Definition latestCommittedVersion (bucketID objectKey skipVersionID : string) : KM (option ObjectVersion) :=
  let! latest := scanJSON as_Version (versionPrefix bucketID objectKey)
    (fun latest version =>
       (if negb (ov_State version =s ObjectVersionCommitted) || (ov_VersionID version =s skipVersionID) then latest
        else if (ov_VersionID latest =s "") || str_ltb (ov_VersionSortKey latest) (ov_VersionSortKey version) then version
        else latest, false)) zero_ObjectVersion in
  if ov_VersionID latest =s "" then st_ret None
  else let! latest := hydrateVersion latest in st_ret (Some latest).

(** ** Protected references *)

Definition deleteProtectedRefsForVersion (bucketID key versionID : string) : KM unit :=
  let! db := kgets kv_db in
  delete_pages (scan_fuel db) (protectedRefVersionPrefix bucketID key versionID) "" 1000 (fun versionKey =>
    let! ref := getJSON as_ProtectedRef versionKey in
    match ref with
    | Some ref => tx_Delete (ProtectedRefBySegmentKey (pr_SegmentID ref) (pr_RefID ref))
    | None => st_ret tt
    end ;;!
    tx_Delete versionKey).

Definition syncProtectedRefsForVersion (version : ObjectVersion) (now : Time) : KM unit :=
  deleteProtectedRefsForVersion (ov_BucketID version) (ov_Key version) (ov_VersionID version) ;;!
  if negb (objectVersionProtectedByObjectLock version now false) then st_ret tt
  else each (fun segmentRef =>
    if sr_SegmentID segmentRef =s "" then st_ret tt
    else
      let ref := protectedRefFromVersion version segmentRef now in
      setJSON (ProtectedRefByVersionKey (pr_BucketID ref) (pr_Key ref) (pr_VersionID ref) (pr_RefID ref)) (V_ProtectedRef ref) ;;!
      setJSON (ProtectedRefBySegmentKey (pr_SegmentID ref) (pr_RefID ref)) (V_ProtectedRef ref))
    (objectSegmentRefsFromVersion version).

Section Objects.
Context `{Env}.

(** ** The audit chain *)

Definition sequenceAudit : string := "audit".

Definition reserveSequences (name : string) (count : Z) : KM Z :=
  fail! ErrInvalidArgument when count <=? 0 ;
  let! record := getJSON as_Sequence (sequenceKey name) in
  let value := default 0 record in
  setJSON (sequenceKey name) (V_Sequence (int64 (value + count))) ;;!
  st_ret (int64 (value + 1)).

Definition nextSequence (name : string) : KM Z := reserveSequences name 1.

Definition appendAuditEvent (event : AuditEvent) : KM unit :=
  let! seq := nextSequence sequenceAudit in
  let! head := getJSON as_AuditHead AuditHeadKey in
  let! t := kv_now in
  let event := sealed_event event seq (default "" head) t in
  setJSON (AuditEventKey (ae_EventID event)) (V_AuditEvent event) ;;!
  setJSON AuditHeadKey (V_AuditHead (ae_EventHash event)).

Definition kv_governance_gate (protected : bool -> bool) (bypass : bool) (audit : AuditContext) (event : AuditEvent) : KM unit :=
  if protected false then
    fail! ErrObjectLocked when protected true || negb bypass || negb (validGovernanceBypassAudit audit) ;
    appendAuditEvent event
  else st_ret tt.

(** ** Buckets *)

Definition CreateBucket (req : CreateBucketRequest) : KM Bucket :=
  fail! ErrInvalidArgument when (cb_TenantID req =s "") || (cb_Name req =s "") || (cb_Region req =s "") ;
  run (
    let! named := getJSON as_BucketID (BucketByNameKey (cb_Name req)) in
    fail! ErrAlreadyExists when is_some named ;
    let! bucketID := kv_fresh_id idCollisionRetryLimit KindBucket as_Bucket BucketByIDKey in
    let! t := kv_now in
    let bucket := zero_Bucket <| bk_BucketID := bucketID |> <| bk_TenantID := cb_TenantID req |>
      <| bk_Name := cb_Name req |> <| bk_Region := cb_Region req |> <| bk_CreatedAt := t |> in
    let bucket := if cb_ObjectLockEnabled req
      then bucket <| bk_ObjectLock := mkBucketObjectLockConfiguration true zero_BucketObjectLockDefaultRetention |>
                  <| bk_VersioningState := BucketVersioningEnabled |>
      else bucket in
    setJSON (BucketByIDKey (bk_BucketID bucket)) (V_Bucket bucket) ;;!
    setJSON (BucketByNameKey (bk_Name bucket)) (V_BucketID (bk_BucketID bucket)) ;;!
    st_ret bucket).

Definition GetBucketByName (name : string) : KM Bucket :=
  run (
    let! bucketID := require ErrNotFound (getJSON as_BucketID (BucketByNameKey name)) in
    require ErrNotFound (getJSON as_Bucket (BucketByIDKey bucketID))).

Definition PutBucketVersioning (req : PutBucketVersioningRequest) : KM Bucket :=
  fail! ErrInvalidArgument when (pbv_BucketID req =s "") ;
  fail! ErrInvalidArgument when negb ((pbv_State req =s BucketVersioningEnabled) || (pbv_State req =s BucketVersioningSuspended)) ;
  run (
    let! bucket := require ErrNotFound (getJSON as_Bucket (BucketByIDKey (pbv_BucketID req))) in
    fail! ErrInvalidArgument when bolc_Enabled (bk_ObjectLock bucket) && negb (pbv_State req =s BucketVersioningEnabled) ;
    let bucket := bucket <| bk_VersioningState := pbv_State req |> in
    setJSON (BucketByIDKey (bk_BucketID bucket)) (V_Bucket bucket) ;;!
    st_ret bucket).

Definition DeleteBucket (bucketID : string) : KM unit :=
  run (
    let! bucket := require ErrNotFound (getJSON as_Bucket (BucketByIDKey bucketID)) in
    let! empty := scanJSON as_Head (objectHeadPrefix bucketID) (fun _ _ => (false, true)) true in
    let! empty := (if empty then
      scanJSON as_Version (versionsBucketPrefix bucketID)
        (fun empty version => if ov_State version =s ObjectVersionCommitted then (false, true) else (empty, false)) true
      else st_ret false) in
    fail! ErrBucketNotEmpty when negb empty ;
    tx_Delete (BucketByIDKey bucketID) ;;!
    tx_Delete (BucketQuotaKey bucketID) ;;!
    tx_Delete (BucketByNameKey (bk_Name bucket))).

(** ** Writing objects *)

Definition version_of_put (req : BeginPutObjectRequest) (versionID : string) (segmentRefs : list SegmentRef)
    (state : string) (createdAt committedAt : Time) : ObjectVersion :=
  mkObjectVersion (bpo_BucketID req) (bpo_Key req) versionID versionID (bpo_SizeBytes req)
    (bpo_ETag req) (bpo_ContentType req) (bpo_StorageClass req) (bpo_ServerSideEncryption req)
    (firstSegmentRef segmentRefs) segmentRefs zero_ObjectManifestDescriptor (bpo_UserMetadata req)
    (bpo_Tags req) (bpo_ObjectLockRetention req) (bpo_ObjectLockLegalHold req) state createdAt committedAt false.

Definition BeginPutObject (req : BeginPutObjectRequest) : KM PendingObjectVersion :=
  fail! ErrInvalidArgument when (bpo_BucketID req =s "") || (bpo_Key req =s "") ;
  st_lift (validateObjectLockState (bpo_ObjectLockRetention req) (bpo_ObjectLockLegalHold req)) ;;!
  let segmentRefs := normalizeSegmentRefs (bpo_SegmentRef req) (bpo_SegmentRefs req) in
  st_lift (ValidateObjectManifestScale segmentRefs) ;;!
  run (
    require ErrNotFound (getJSON as_Bucket (BucketByIDKey (bpo_BucketID req))) ;;!
    let! found := getObjectHead (bpo_BucketID req) (bpo_Key req) in
    let! currentHead := match found with
                        | Some head => hydrateHeadManifest head
                        | None => st_ret zero_ObjectHead
                        end in
    let! versionID := nextObjectVersionID (bpo_BucketID req) (bpo_Key req) in
    let! t := kv_now in
    let version := version_of_put req versionID segmentRefs ObjectVersionPending t 0 in
    setObjectVersion version ;;!
    st_ret (mkPendingObjectVersion version (oh_VersionID currentHead) currentHead (is_some found))).

(** The version a non-versioned bucket's head pointed at goes away when a new
    one replaces it. *)
Definition dropReplacedVersion (bucket : Bucket) (bucketID key : string) (currentHead : ObjectHead) (versionID : string) : KM unit :=
  if negb (bk_VersioningState bucket =s BucketVersioningEnabled) && negb (oh_VersionID currentHead =s "")
     && negb (oh_VersionID currentHead =s versionID)
  then
    let! old := findVersionByID bucketID key (oh_VersionID currentHead) in
    match old with
    | Some (oldKey, oldVersion) =>
        deleteProtectedRefsForVersion (ov_BucketID oldVersion) (ov_Key oldVersion) (ov_VersionID oldVersion) ;;!
        deleteObjectVersionRecord oldKey oldVersion
    | None => st_ret tt
    end
  else st_ret tt.

(** The tail both publishing methods share: version, head, listing entry,
    protected references, then the replaced version. *)
Definition publishVersion (bucket : Bucket) (bucketID key : string) (currentHead : ObjectHead) (version : ObjectVersion) (t : Time) : KM ObjectHead :=
  setObjectVersion version ;;!
  let! head := setObjectHead (headFromVersion version t) in
  setListObject head ;;!
  syncProtectedRefsForVersion version t ;;!
  dropReplacedVersion bucket bucketID key currentHead (ov_VersionID version) ;;!
  st_ret head.

(** [head, err = hydrateHeadManifest(...); return nil]: the error is dropped and
    the zero head returned. *)
Definition hydrateHeadOrZero (head : ObjectHead) : KM ObjectHead := fun s =>
  match hydrateHeadManifest head s with
  | (Ok head', s') => (Ok head', s')
  | (Fail _, s') => (Ok zero_ObjectHead, s')
  end.

Definition CommitObjectVersion (req : CommitObjectVersionRequest) : KM ObjectHead :=
  fail! ErrInvalidArgument when (cov_BucketID req =s "") || (cov_Key req =s "") || (cov_VersionID req =s "") ;
  run (
    let! bucket := require ErrNotFound (getJSON as_Bucket (BucketByIDKey (cov_BucketID req))) in
    let! found := getObjectHead (cov_BucketID req) (cov_Key req) in
    let currentHead := default zero_ObjectHead found in
    fail! ErrCASConflict when negb (oh_VersionID currentHead =s cov_ExpectedHeadVersionID req) ;
    let! located := require ErrNotFound (findVersionByID (cov_BucketID req) (cov_Key req) (cov_VersionID req)) in
    let version := located.2 in
    if ov_State version =s ObjectVersionCommitted then hydrateHeadOrZero currentHead
    else
      let! t := kv_now in
      let version := version <| ov_State := ObjectVersionCommitted |> <| ov_CommittedAt := t |> in
      publishVersion bucket (cov_BucketID req) (cov_Key req) currentHead version t).

Definition PutObjectVersion (req : BeginPutObjectRequest) : KM PutObjectVersionResult :=
  fail! ErrInvalidArgument when (bpo_BucketID req =s "") || (bpo_Key req =s "") ;
  st_lift (validateObjectLockState (bpo_ObjectLockRetention req) (bpo_ObjectLockLegalHold req)) ;;!
  let segmentRefs := normalizeSegmentRefs (bpo_SegmentRef req) (bpo_SegmentRefs req) in
  st_lift (ValidateObjectManifestScale segmentRefs) ;;!
  run (
    let! bucket := require ErrNotFound (getJSON as_Bucket (BucketByIDKey (bpo_BucketID req))) in
    let! found := getObjectHead (bpo_BucketID req) (bpo_Key req) in
    let! currentHead := match found with
                        | Some head => hydrateHeadManifest head
                        | None => st_ret zero_ObjectHead
                        end in
    let! versionID := nextObjectVersionID (bpo_BucketID req) (bpo_Key req) in
    let! t := kv_now in
    let version := version_of_put req versionID segmentRefs ObjectVersionCommitted t t in
    let! head := publishVersion bucket (bpo_BucketID req) (bpo_Key req) currentHead version t in
    st_ret (mkPutObjectVersionResult head currentHead (is_some found))).

(** ** Reading objects *)

Definition GetObjectHead (bucketID objectKey : string) : KM ObjectHead :=
  run (let! got := require ErrNotFound (getObjectHead bucketID objectKey) in hydrateHeadOrZero got).

Definition GetObjectVersion (bucketID objectKey versionID : string) : KM ObjectVersion :=
  run (let! located := require ErrNotFound (findVersionByID bucketID objectKey versionID) in st_ret located.2).

(** ** Deleting objects *)

Definition checkDeleteKMSAdmission (e : ServerSideEncryption) : KM unit :=
  if negb (sse_Algorithm e =s ServerSideEncryptionAWSKMS) then st_ret tt
  else
    let keyID := TrimSpace (sse_KeyID e) in
    if keyID =s "" then st_ret tt
    else
      let! key := getJSON as_KMSKey (KMSKeyKey keyID) in
      match key with
      | None => st_ret tt
      | Some key => if KMSKeyAllowsDelete (kms_State key) then st_ret tt else st_fail ErrKMSKeyUnavailable
      end.

Definition createDeleteMarker (req : DeleteObjectRequest) : KM DeleteResult :=
  let! versionID := nextObjectVersionID (dor_BucketID req) (dor_Key req) in
  let! t := kv_now in
  let version := zero_ObjectVersion <| ov_BucketID := dor_BucketID req |> <| ov_Key := dor_Key req |>
    <| ov_VersionID := versionID |> <| ov_VersionSortKey := versionID |> <| ov_State := ObjectVersionCommitted |>
    <| ov_CreatedAt := t |> <| ov_CommittedAt := t |> <| ov_DeleteMarker := true |> in
  setObjectVersion version ;;!
  setObjectHead (headFromVersion version t) ;;!
  tx_Delete (ListObjectKey (dor_BucketID req) (dor_Key req)) ;;!
  st_ret (mkDeleteResult true versionID true version).

(** The head after its version was deleted: the newest version left, or none. *)
Definition promoteLatest (bucketID key versionID : string) : KM unit :=
  let! promoted := latestCommittedVersion bucketID key versionID in
  match promoted with
  | Some promoted =>
      let! promotedHead := setObjectHead (headFromVersion promoted (ov_CommittedAt promoted)) in
      if ov_DeleteMarker promoted then tx_Delete (ListObjectKey bucketID key) else setListObject promotedHead
  | None =>
      tx_Delete (ObjectHeadKey bucketID key) ;;!
      tx_Delete (ListObjectKey bucketID key)
  end.

Definition deleteObjectVersion (req : DeleteObjectRequest) (t : Time) : KM DeleteResult :=
  let! located := require ErrNotFound (findVersionByID (dor_BucketID req) (dor_Key req) (dor_VersionID req)) in
  let versionKey := located.1 in
  let deleted := located.2 in
  checkDeleteKMSAdmission (ov_ServerSideEncryption deleted) ;;!
  kv_governance_gate (objectVersionProtectedByObjectLock deleted t) (dor_BypassGovernanceRetention req) (dor_BypassAudit req)
    (governanceBypassAuditEvent req AuditActionGovernanceBypassDeleteObject (ov_VersionID deleted)
       (<["target" := "object_version"]> ∅)) ;;!
  deleteObjectVersionRecord versionKey deleted ;;!
  deleteProtectedRefsForVersion (ov_BucketID deleted) (ov_Key deleted) (ov_VersionID deleted) ;;!
  let! head := getObjectHead (dor_BucketID req) (dor_Key req) in
  (if match head with Some h => oh_VersionID h =s dor_VersionID req | None => false end
   then promoteLatest (dor_BucketID req) (dor_Key req) (dor_VersionID req) else st_ret tt) ;;!
  st_ret (mkDeleteResult true (ov_VersionID deleted) (ov_DeleteMarker deleted) deleted).

Definition DeleteObject (req : DeleteObjectRequest) : KM DeleteResult :=
  fail! ErrInvalidArgument when (dor_BucketID req =s "") || (dor_Key req =s "") ;
  run (
    let! bucket := require ErrNotFound (getJSON as_Bucket (BucketByIDKey (dor_BucketID req))) in
    if negb (dor_VersionID req =s "") then (let! t := kv_now in deleteObjectVersion req t)
    else
      let! found := getObjectHead (dor_BucketID req) (dor_Key req) in
      if bk_VersioningState bucket =s BucketVersioningEnabled then
        match found with
        | Some head => checkDeleteKMSAdmission (oh_ServerSideEncryption head)
        | None => st_ret tt
        end ;;!
        createDeleteMarker req
      else match found with
      | None => st_ret (mkDeleteResult false "" false zero_ObjectVersion)
      | Some head =>
          checkDeleteKMSAdmission (oh_ServerSideEncryption head) ;;!
          let! t := kv_now in
          kv_governance_gate (objectHeadProtectedByObjectLock head t) (dor_BypassGovernanceRetention req) (dor_BypassAudit req)
            (governanceBypassAuditEvent req AuditActionGovernanceBypassDeleteObject (oh_VersionID head)
               (<["target" := "object_head"]> ∅)) ;;!
          tx_Delete (ObjectHeadKey (dor_BucketID req) (dor_Key req)) ;;!
          tx_Delete (ListObjectKey (dor_BucketID req) (dor_Key req)) ;;!
          let! located := findVersionByID (dor_BucketID req) (dor_Key req) (oh_VersionID head) in
          match located with
          | Some (versionKey, deleted) =>
              deleteProtectedRefsForVersion (ov_BucketID deleted) (ov_Key deleted) (ov_VersionID deleted) ;;!
              deleteObjectVersionRecord versionKey deleted ;;!
              st_ret (mkDeleteResult true (oh_VersionID head) false deleted)
          | None => st_ret (mkDeleteResult true (oh_VersionID head) false zero_ObjectVersion)
          end
      end).

(** ** Tags, retention and legal hold *)

Definition GetObjectTags (req : ObjectTagsRequest) : KM (gmap string string) :=
  fail! ErrInvalidArgument when (otr_BucketID req =s "") || (otr_Key req =s "") ;
  run (
    if negb (otr_VersionID req =s "") then
      let! located := require ErrNotFound (findVersionByID (otr_BucketID req) (otr_Key req) (otr_VersionID req)) in
      fail! ErrNotFound when negb (ov_State located.2 =s ObjectVersionCommitted) ;
      st_ret (ov_Tags located.2)
    else
      let! head := require ErrNotFound (getObjectHead (otr_BucketID req) (otr_Key req)) in
      st_ret (oh_Tags head)).

Definition PutObjectTags (req : ObjectTagsRequest) : KM unit :=
  fail! ErrInvalidArgument when (otr_BucketID req =s "") || (otr_Key req =s "") ;
  let tags := otr_Tags req in
  run (
    if negb (otr_VersionID req =s "") then
      let! located := require ErrNotFound (findVersionByID (otr_BucketID req) (otr_Key req) (otr_VersionID req)) in
      fail! ErrNotFound when negb (ov_State located.2 =s ObjectVersionCommitted) ;
      setObjectVersion (located.2 <| ov_Tags := tags |>) ;;!
      let! head := getObjectHead (otr_BucketID req) (otr_Key req) in
      match head with
      | Some head =>
          if oh_VersionID head =s otr_VersionID req then
            let! head := setObjectHead (head <| oh_Tags := tags |>) in setListObject head
          else st_ret tt
      | None => st_ret tt
      end
    else
      let! head := require ErrNotFound (getObjectHead (otr_BucketID req) (otr_Key req)) in
      let! head := setObjectHead (head <| oh_Tags := tags |>) in
      setListObject head ;;!
      if oh_VersionID head =s "" then st_ret tt
      else
        let! located := findVersionByID (otr_BucketID req) (otr_Key req) (oh_VersionID head) in
        match located with
        | Some (_, version) => setObjectVersion (version <| ov_Tags := tags |>)
        | None => st_ret tt
        end).

Definition DeleteObjectTags (req : ObjectTagsRequest) : KM unit := PutObjectTags (req <| otr_Tags := ∅ |>).

Definition objectLockTarget (bucketID objectKey versionID : string) : KM (string * ObjectVersion) :=
  let! versionID :=
    (if versionID =s "" then
       let! head := require ErrNotFound (getObjectHead bucketID objectKey) in
       fail! ErrNotFound when oh_DeleteMarker head ;
       st_ret (oh_VersionID head)
     else st_ret versionID) in
  let! located := require ErrNotFound (findVersionByID bucketID objectKey versionID) in
  fail! ErrNotFound when negb (ov_State located.2 =s ObjectVersionCommitted) || ov_DeleteMarker located.2 ;
  st_ret located.

Definition updateHeadObjectLock (version : ObjectVersion) : KM unit :=
  let! head := getObjectHead (ov_BucketID version) (ov_Key version) in
  match head with
  | None => st_ret tt
  | Some head =>
      if negb (oh_VersionID head =s ov_VersionID version) then st_ret tt
      else
        let! head := setObjectHead (head <| oh_ObjectLockRetention := ov_ObjectLockRetention version |>
                                         <| oh_ObjectLockLegalHold := ov_ObjectLockLegalHold version |>) in
        if oh_DeleteMarker head then tx_Delete (ListObjectKey (ov_BucketID version) (ov_Key version))
        else setListObject head
  end.

Definition GetObjectRetention (req : ObjectRetentionRequest) : KM ObjectLockRetention :=
  fail! ErrInvalidArgument when (orr_BucketID req =s "") || (orr_Key req =s "") ;
  run (let! target := objectLockTarget (orr_BucketID req) (orr_Key req) (orr_VersionID req) in
       st_ret (ov_ObjectLockRetention target.2)).

Definition PutObjectRetention (req : ObjectRetentionRequest) : KM unit :=
  fail! ErrInvalidArgument when (orr_BucketID req =s "") || (orr_Key req =s "") ;
  st_lift (validateObjectLockState (orr_Retention req) "") ;;!
  let! t := kv_now in
  fail! ErrInvalidArgument when negb (t <? olr_RetainUntilDate (orr_Retention req)) ;
  run (
    let! target := objectLockTarget (orr_BucketID req) (orr_Key req) (orr_VersionID req) in
    let version := target.2 in
    let previous := ov_ObjectLockRetention version in
    kv_governance_gate (retentionUpdateBlocked previous (orr_Retention req) t)
      (orr_BypassGovernanceRetention req) (orr_BypassAudit req)
      (governanceBypassAuditEvent
         (mkDeleteObjectRequest (orr_BucketID req) (orr_Key req) (ov_VersionID version) false (orr_BypassAudit req))
         AuditActionGovernanceBypassPutObjectRetention (ov_VersionID version)
         (<["current_mode" := olr_Mode previous]>
          (<["current_retain_until" := RFC3339Nano (olr_RetainUntilDate previous)]>
           (<["next_mode" := olr_Mode (orr_Retention req)]>
            (<["next_retain_until" := RFC3339Nano (olr_RetainUntilDate (orr_Retention req))]> ∅))))) ;;!
    let version := version <| ov_ObjectLockRetention := orr_Retention req |> in
    setObjectVersion version ;;!
    updateHeadObjectLock version ;;!
    syncProtectedRefsForVersion version t ;;!
    appendAuditEvent (transitionAuditEvent (orr_Audit req) AuditActionPutObjectRetention
      (orr_BucketID req) (orr_Key req) (ov_VersionID version)
      (<["previous_mode" := olr_Mode previous]>
       (<["previous_retain_until" := formatAuditTime (olr_RetainUntilDate previous)]>
        (<["next_mode" := olr_Mode (orr_Retention req)]>
         (<["next_retain_until" := formatAuditTime (olr_RetainUntilDate (orr_Retention req))]> ∅)))))).

Definition GetObjectLegalHold (req : ObjectLegalHoldRequest) : KM string :=
  fail! ErrInvalidArgument when (olh_BucketID req =s "") || (olh_Key req =s "") ;
  run (let! target := objectLockTarget (olh_BucketID req) (olh_Key req) (olh_VersionID req) in
       st_ret (ov_ObjectLockLegalHold target.2)).

Definition PutObjectLegalHold (req : ObjectLegalHoldRequest) : KM unit :=
  fail! ErrInvalidArgument when (olh_BucketID req =s "") || (olh_Key req =s "") ;
  fail! ErrInvalidArgument when negb ((olh_LegalHold req =s ObjectLockLegalHoldOn) || (olh_LegalHold req =s ObjectLockLegalHoldOff)) ;
  run (
    let! target := objectLockTarget (olh_BucketID req) (olh_Key req) (olh_VersionID req) in
    let previous := ov_ObjectLockLegalHold target.2 in
    let version := target.2 <| ov_ObjectLockLegalHold := olh_LegalHold req |> in
    setObjectVersion version ;;!
    updateHeadObjectLock version ;;!
    let! t := kv_now in
    syncProtectedRefsForVersion version t ;;!
    appendAuditEvent (transitionAuditEvent (olh_Audit req) AuditActionPutObjectLegalHold
      (olh_BucketID req) (olh_Key req) (ov_VersionID version)
      (<["previous_legal_hold" := previous]> (<["next_legal_hold" := olh_LegalHold req]> ∅)))).
End Objects.
