(* ===== verification/KvMeta.v ===== *)
(** * KvMeta: tenants, keys, profiles and bucket configurations of the KV repository

    The methods of [src/internal/meta/kvrepo/repository.go] from [GetMetadataSchema]
    to [GetBucketObjectLock] that are not in [KvObjects]; each is one transaction. *)

From S2P Require Import Prelude GoLib Sha256 StorageTypes Model Requests Encoding Meta Manifest Repo RepoBuckets Keyspace KvStore KvRepo KvObjects.
Open Scope string_scope.
Open Scope Z_scope.

Section Methods.
Context `{Env}.

(** [time.Now().UTC()] as read by a record builder. *)
Definition kv_wall : KM Time := kgets (fun s => env_wall (kv_clock_calls s)).

(** ** Schema record, tenants, quotas and usage *)

Definition GetMetadataSchema : KM MetadataSchemaRecord := run (require ErrNotFound (getJSON as_Schema MetadataSchemaKey)).

Definition PutMetadataSchema (req : PutMetadataSchemaRequest) : KM MetadataSchemaRecord :=
  run (
    let! existing := getJSON as_Schema MetadataSchemaKey in
    let! t := kv_now in
    let! record := st_lift (MetadataSchemaRecordFromRequest req t (default zero_MetadataSchemaRecord existing)) in
    setJSON MetadataSchemaKey (V_Schema record) ;;!
    st_ret record).

Definition CreateTenant (req : CreateTenantRequest) : KM Tenant :=
  fail! ErrInvalidArgument when ct_TenantID req =s "" ;
  run (
    let! existing := getJSON as_Tenant (TenantKey (ct_TenantID req)) in
    fail! ErrAlreadyExists when is_some existing ;
    let! t := kv_now in
    let tenant := mkTenant (ct_TenantID req) (ct_DisplayName req) t in
    setJSON (TenantKey (tn_TenantID tenant)) (V_Tenant tenant) ;;!
    st_ret tenant).

Definition getTenant (tenantID : string) : KM Tenant := require ErrNotFound (getJSON as_Tenant (TenantKey tenantID)).
Definition GetTenant (tenantID : string) : KM Tenant := run (getTenant tenantID).

Definition PutTenantQuota (req : TenantQuotaRequest) : KM TenantQuota :=
  run (
    getTenant (tqr_TenantID req) ;;!
    let! existing := getJSON as_TenantQuota (TenantQuotaKey (tqr_TenantID req)) in
    let! t := kv_now in
    let! w := kv_wall in
    let! quota := st_lift (BuildTenantQuota w (default zero_TenantQuota existing) req t) in
    setJSON (TenantQuotaKey (tqr_TenantID req)) (V_TenantQuota quota) ;;!
    st_ret quota).

Definition GetTenantQuota (tenantID : string) : KM TenantQuota :=
  run (getTenant tenantID ;;! require ErrNotFound (getJSON as_TenantQuota (TenantQuotaKey tenantID))).

Definition DeleteTenantQuota (tenantID : string) : KM unit :=
  run (
    getTenant tenantID ;;!
    require ErrNotFound (getJSON as_TenantQuota (TenantQuotaKey tenantID)) ;;!
    tx_Delete (TenantQuotaKey tenantID)).

Definition PutTenantUsage (req : TenantUsageRequest) : KM TenantUsage :=
  run (
    getTenant (tur_TenantID req) ;;!
    let! existing := getJSON as_TenantUsage (TenantUsageKey (tur_TenantID req)) in
    let! t := kv_now in
    let! w := kv_wall in
    let! usage := st_lift (BuildTenantUsage w (default zero_TenantUsage existing) req t) in
    setJSON (TenantUsageKey (tur_TenantID req)) (V_TenantUsage usage) ;;!
    st_ret usage).

Definition GetTenantUsage (tenantID : string) : KM TenantUsage :=
  run (getTenant tenantID ;;! require ErrNotFound (getJSON as_TenantUsage (TenantUsageKey tenantID))).

(** *** The counter of active uploads *)

Definition enforceTenantActiveUploadQuota (tenantID : string) : KM unit :=
  if tenantID =s "" then st_ret tt
  else
    let! quota := getJSON as_TenantQuota (TenantQuotaKey tenantID) in
    match quota with
    | None => st_ret tt
    | Some quota =>
        if tq_MaxActiveUploads quota <=? 0 then st_ret tt
        else
          let! usage := getJSON as_TenantUsage (TenantUsageKey tenantID) in
          let activeUploads := match usage with Some usage => tu_ActiveUploads usage | None => 0 end in
          if tq_MaxActiveUploads quota <=? activeUploads then st_fail ErrQuotaExceeded else st_ret tt
    end.

Definition applyTenantActiveUploadDelta (tenantID : string) (delta : Z) (now : Time) : KM unit :=
  if tenantID =s "" then st_ret tt
  else
    let! tenant := getJSON as_Tenant (TenantKey tenantID) in
    match tenant with
    | None => st_ret tt
    | Some _ =>
        let! existing := getJSON as_TenantUsage (TenantUsageKey tenantID) in
        let! w := kv_wall in
        let! usage := st_lift (ApplyTenantActiveUploadDelta w (default zero_TenantUsage existing) tenantID delta now) in
        setJSON (TenantUsageKey tenantID) (V_TenantUsage usage)
    end.

Definition applyTenantActiveUploadDeltaForBucket (bucketID : string) (delta : Z) (now : Time) : KM unit :=
  let! bucket := getJSON as_Bucket (BucketByIDKey bucketID) in
  match bucket with
  | None => st_ret tt
  | Some bucket => applyTenantActiveUploadDelta (bk_TenantID bucket) delta now
  end.

(** ** Access keys, encryption keys, compliance profiles *)

Definition PutAccessKey (req : PutAccessKeyRequest) : KM AccessKey :=
  fail! ErrInvalidArgument when (pak_TenantID req =s "") || (pak_AccessKeyID req =s "") || (pak_SecretHash req =s "") ;
  let status := if pak_Status req =s "" then AccessKeyActive else pak_Status req in
  let! t := kv_now in
  let accessKey := mkAccessKey (pak_TenantID req) (pak_AccessKeyID req) (pak_SecretHash req) status (pak_Permissions req) t in
  run (setJSON (AccessKeyKey (ak_AccessKeyID accessKey)) (V_AccessKey accessKey)) ;;!
  st_ret accessKey.

Definition GetAccessKey (accessKeyID : string) : KM AccessKey :=
  run (require ErrNotFound (getJSON as_AccessKey (AccessKeyKey accessKeyID))).

Definition PutKMSKey (req : PutKMSKeyRequest) : KM KMSKeyRecord :=
  let keyID := TrimSpace (pkk_KeyID req) in
  fail! ErrInvalidArgument when keyID =s "" ;
  let! t := kv_now in
  run (
    let! existing := getJSON as_KMSKey (KMSKeyKey keyID) in
    let record := match existing with
                  | Some record => record
                  | None => zero_KMSKeyRecord <| kms_KeyID := keyID |> <| kms_CreatedAt := t |>
                  end in
    let record := record <| kms_KeyVersion := TrimSpace (pkk_KeyVersion req) |>
      <| kms_State := NormalizeKMSKeyState (pkk_State req) |> <| kms_UpdatedAt := t |> in
    setJSON (KMSKeyKey (kms_KeyID record)) (V_KMSKey record) ;;!
    st_ret record).

Definition GetKMSKey (keyID : string) : KM KMSKeyRecord :=
  run (require ErrNotFound (getJSON as_KMSKey (KMSKeyKey (TrimSpace keyID)))).

Definition validateComplianceProfileAttachmentRequest (req : PutComplianceProfileAttachmentRequest) : res unit :=
  if TrimSpace (pcp_ProfileID req) =s "" then Fail ErrInvalidArgument
  else if (TrimSpace (pcp_Regulation req) =s "") || (TrimSpace (pcp_RecordClass req) =s "") then Fail ErrInvalidArgument
  else if negb (isValidObjectLockMode (pcp_RetentionMode req)) then Fail ErrInvalidArgument
  else if (pcp_RetentionDays req <? 0) || (pcp_RetentionYears req <? 0) then Fail ErrInvalidArgument
  else if (pcp_RetentionDays req <=? 0) && (pcp_RetentionYears req <=? 0) then Fail ErrInvalidArgument
  else if (0 <? pcp_RetentionDays req) && (0 <? pcp_RetentionYears req) then Fail ErrInvalidArgument
  else Ok tt.

Definition PutComplianceProfileAttachment (req : PutComplianceProfileAttachmentRequest) : KM ComplianceProfileAttachment :=
  st_lift (validateComplianceProfileAttachmentRequest req) ;;!
  let profileID := TrimSpace (pcp_ProfileID req) in
  let! t := kv_now in
  run (
    let! existing := getJSON as_Profile (ComplianceProfileAttachmentKey profileID) in
    let record := match existing with
                  | Some record => record
                  | None => zero_ComplianceProfileAttachment <| cpa_ProfileID := profileID |> <| cpa_CreatedAt := t |>
                  end in
    let record := mkComplianceProfileAttachment (cpa_ProfileID record) (TrimSpace (pcp_Regulation req))
      (TrimSpace (pcp_RecordClass req)) (TrimSpace (pcp_BucketID req)) (TrimSpace (pcp_Prefix req))
      (TrimSpace (pcp_ObjectClass req)) (pcp_RetentionMode req) (pcp_RetentionDays req)
      (pcp_RetentionYears req) (TrimSpace (pcp_LegalHoldPolicy req))
      (TrimSpace (pcp_GovernanceBypassPolicy req)) (TrimSpace (pcp_EvidenceExportPolicy req))
      (cpa_CreatedAt record) t in
    setJSON (ComplianceProfileAttachmentKey (cpa_ProfileID record)) (V_Profile record) ;;!
    st_ret record).

(** ** Bucket configurations *)

Definition getBucket (bucketID : string) : KM Bucket := require ErrNotFound (getJSON as_Bucket (BucketByIDKey bucketID)).

(** Reads a bucket, changes it and writes it back under its identifier. *)
Definition updateBucket (bucketID : string) (f : Bucket -> Bucket) : KM Bucket :=
  let! bucket := getBucket bucketID in
  let bucket := f bucket in
  setJSON (BucketByIDKey (bk_BucketID bucket)) (V_Bucket bucket) ;;!
  st_ret bucket.

Definition PutBucketCORS (req : BucketCORSRequest) : KM Bucket :=
  fail! ErrInvalidArgument when bcr_BucketID req =s "" ;
  run (updateBucket (bcr_BucketID req) (fun b => b <| bk_CORSRules := bcr_Rules req |>)).

Definition GetBucketCORS (bucketID : string) : KM (list CORSRule) :=
  run (let! bucket := getBucket bucketID in st_ret (bk_CORSRules bucket)).

Definition DeleteBucketCORS (bucketID : string) : KM Bucket :=
  run (updateBucket bucketID (fun b => b <| bk_CORSRules := [] |>)).

Definition PutBucketLifecycle (req : BucketLifecycleRequest) : KM Bucket :=
  fail! ErrInvalidArgument when blr_BucketID req =s "" ;
  st_lift (validateBucketLifecycleConfiguration (blr_Configuration req)) ;;!
  run (
    let! bucket := updateBucket (blr_BucketID req) (fun b => b <| bk_Lifecycle := blr_Configuration req |>) in
    appendAuditEvent (transitionAuditEvent (blr_Audit req) AuditActionPutBucketLifecycle
      (bk_BucketID bucket) "" "" (<["rule_count" := Itoa (Z.of_nat (length (blc_Rules (blr_Configuration req))))]> ∅)) ;;!
    st_ret bucket).

Definition GetBucketLifecycle (bucketID : string) : KM BucketLifecycleConfiguration :=
  run (
    let! bucket := getBucket bucketID in
    fail! ErrNotFound when (length (blc_Rules (bk_Lifecycle bucket)) =? 0)%nat ;
    st_ret (bk_Lifecycle bucket)).

Definition DeleteBucketLifecycle (bucketID : string) (audit : AuditContext) : KM Bucket :=
  run (
    let! bucket := updateBucket bucketID (fun b => b <| bk_Lifecycle := zero_BucketLifecycleConfiguration |>) in
    appendAuditEvent (transitionAuditEvent audit AuditActionDeleteBucketLifecycle (bk_BucketID bucket) "" "" ∅) ;;!
    st_ret bucket).

Definition PutBucketEncryption (req : BucketEncryptionRequest) : KM Bucket :=
  fail! ErrInvalidArgument when ber_BucketID req =s "" ;
  st_lift (ValidateBucketEncryption (ber_Encryption req)) ;;!
  run (
    let! bucket := updateBucket (ber_BucketID req) (fun b => b <| bk_DefaultEncryption := ber_Encryption req |>) in
    appendAuditEvent (transitionAuditEvent (ber_Audit req) AuditActionPutBucketEncryption
      (bk_BucketID bucket) "" "" (<["algorithm" := sse_Algorithm (ber_Encryption req)]>
        (<["key_id" := sse_KeyID (ber_Encryption req)]> ∅))) ;;!
    st_ret bucket).

Definition GetBucketEncryption (bucketID : string) : KM ServerSideEncryption :=
  run (
    let! bucket := getBucket bucketID in
    fail! ErrNotFound when sse_Algorithm (bk_DefaultEncryption bucket) =s "" ;
    st_ret (bk_DefaultEncryption bucket)).

Definition DeleteBucketEncryption (bucketID : string) (audit : AuditContext) : KM Bucket :=
  run (
    let! bucket := updateBucket bucketID (fun b => b <| bk_DefaultEncryption := zero_ServerSideEncryption |>) in
    appendAuditEvent (transitionAuditEvent audit AuditActionDeleteBucketEncryption (bk_BucketID bucket) "" "" ∅) ;;!
    st_ret bucket).

Definition PutBucketQuota (req : BucketQuotaRequest) : KM BucketQuota :=
  run (
    getBucket (bqr_BucketID req) ;;!
    let! existing := getJSON as_BucketQuota (BucketQuotaKey (bqr_BucketID req)) in
    let! t := kv_now in
    let! w := kv_wall in
    let! quota := st_lift (BuildBucketQuota w (default zero_BucketQuota existing) req t) in
    setJSON (BucketQuotaKey (bqr_BucketID req)) (V_BucketQuota quota) ;;!
    st_ret quota).

Definition GetBucketQuota (bucketID : string) : KM BucketQuota :=
  run (getBucket bucketID ;;! require ErrNotFound (getJSON as_BucketQuota (BucketQuotaKey bucketID))).

Definition DeleteBucketQuota (bucketID : string) : KM unit :=
  run (
    getBucket bucketID ;;!
    require ErrNotFound (getJSON as_BucketQuota (BucketQuotaKey bucketID)) ;;!
    tx_Delete (BucketQuotaKey bucketID)).

Definition PutBucketPolicy (req : BucketPolicyRequest) : KM Bucket :=
  fail! ErrInvalidArgument when bpr_BucketID req =s "" ;
  fail! ErrInvalidArgument when (length (pd_Statements (bpr_Policy req)) =? 0)%nat ;
  run (
    let! bucket := updateBucket (bpr_BucketID req) (fun b => b <| bk_Policy := bpr_Policy req |>) in
    appendAuditEvent (transitionAuditEvent (bpr_Audit req) AuditActionPutBucketPolicy (bk_BucketID bucket) "" ""
      (<["statement_count" := Itoa (Z.of_nat (length (pd_Statements (bpr_Policy req))))]> ∅)) ;;!
    st_ret bucket).

Definition GetBucketPolicy (bucketID : string) : KM PolicyDocument :=
  run (
    let! bucket := getBucket bucketID in
    fail! ErrNotFound when (length (pd_Statements (bk_Policy bucket)) =? 0)%nat ;
    st_ret (bk_Policy bucket)).

Definition DeleteBucketPolicy (bucketID : string) (audit : AuditContext) : KM Bucket :=
  run (
    let! bucket := updateBucket bucketID (fun b => b <| bk_Policy := zero_PolicyDocument |>) in
    appendAuditEvent (transitionAuditEvent audit AuditActionDeleteBucketPolicy (bk_BucketID bucket) "" "" ∅) ;;!
    st_ret bucket).

Definition PutBucketObjectLock (req : BucketObjectLockRequest) : KM Bucket :=
  fail! ErrInvalidArgument when bolr_BucketID req =s "" ;
  st_lift (validateBucketObjectLockConfiguration (bolr_Configuration req)) ;;!
  run (
    let! bucket := updateBucket (bolr_BucketID req) (fun b => b <| bk_ObjectLock := bolr_Configuration req |>
                     <| bk_VersioningState := BucketVersioningEnabled |>) in
    appendAuditEvent (transitionAuditEvent (bolr_Audit req) AuditActionPutBucketObjectLock
      (bk_BucketID bucket) "" "" (bucketObjectLockAuditDetails (bolr_Configuration req))) ;;!
    st_ret bucket).

Definition GetBucketObjectLock (bucketID : string) : KM BucketObjectLockConfiguration :=
  run (let! bucket := getBucket bucketID in st_ret (bk_ObjectLock bucket)).

Definition ListBuckets (tenantID : string) : KM (list Bucket) :=
  let! buckets := run (scanJSON as_Bucket bucketByIDPrefix
    (fun buckets bucket => (if (tenantID =s "") || (bk_TenantID bucket =s tenantID) then (buckets ++ [bucket])%list else buckets, false)) []) in
  st_ret (sort_by (fun a b => str_ltb (bk_Name a) (bk_Name b)) buckets).
End Methods.
