(* ===== verification/KvMultipart.v ===== *)
(** * KvMultipart: multipart uploads of the KV metadata repository

    The methods of [src/internal/meta/kvrepo/repository.go] from
    [CreateMultipartUpload] to [CleanupMultipartUploadParts]. The state of an upload
    is kept under its bucket and identifier, an active upload also in an index by
    object key; the parts are records of their own. *)

From S2P Require Import Prelude GoLib GoText Sha256 StorageTypes Model Requests Encoding Meta Manifest Repo RepoMultipart RepoListing.
From S2P Require Import Keyspace KvStore KvRepo KvObjects KvMeta.
Open Scope string_scope.
Open Scope Z_scope.

Definition multipartUploadListPrefix (bucketID objectKeyPrefix : string) : string :=
  "/namros/v1/buckets/" +:+ EscapePathSegment bucketID +:+ "/multipart-by-key/" +:+ EscapeObjectKey objectKeyPrefix.
Definition partPrefix (bucketID uploadID : string) : string := TrimSuffix (MultipartPartKey bucketID uploadID 0) "00000".

(** ** Uploads and parts *)

Definition setMultipartUpload (upload : MultipartUpload) : KM unit :=
  setJSON (MultipartUploadKey (mu_BucketID upload) (mu_UploadID upload)) (V_Upload upload) ;;!
  let indexKey := MultipartUploadByKeyKey (mu_BucketID upload) (mu_Key upload) (mu_UploadID upload) in
  if negb (mu_State upload =s MultipartUploadActive) then tx_Delete indexKey
  else setJSON indexKey (V_UploadIndex (mu_UploadID upload)).

Definition getUpload (req : MultipartUploadRequest) : KM MultipartUpload :=
  fail! ErrInvalidArgument when (mur_BucketID req =s "") || (mur_Key req =s "") || (mur_UploadID req =s "") ;
  let! upload := require ErrNotFound (getJSON as_Upload (MultipartUploadKey (mur_BucketID req) (mur_UploadID req))) in
  fail! ErrNotFound when negb (mu_Key upload =s mur_Key req) ;
  st_ret upload.

Definition getActiveUpload (req : MultipartUploadRequest) : KM MultipartUpload :=
  let! upload := getUpload req in
  fail! ErrNotFound when negb (mu_State upload =s MultipartUploadActive) ;
  st_ret upload.

Definition listParts (req : MultipartUploadRequest) : KM (list MultipartPart) :=
  let! parts := scanJSON as_Part (partPrefix (mur_BucketID req) (mur_UploadID req)) (fun parts part => ((parts ++ [part])%list, false)) [] in
  st_ret (sort_by (fun a b => mp_PartNumber a <? mp_PartNumber b) parts).

Definition partKeysForCleanup (req : MultipartUploadRequest) (limit : Z) : KM (list string * bool) :=
  let! keys := kgets (fun s => (list_ref (kv_db s) (partPrefix (mur_BucketID req) (mur_UploadID req)) "" (limit + 1)).1) in
  if limit <? Z.of_nat (length keys) then st_ret (take (Z.to_nat limit) keys, true) else st_ret (keys, false).

Section Multipart.
Context `{Env}.

Definition nextMultipartUploadID (bucketID : string) : KM string :=
  kv_fresh_id idCollisionRetryLimit KindUpload as_Upload (MultipartUploadKey bucketID).

Definition CreateMultipartUpload (req : CreateMultipartUploadRequest) : KM MultipartUpload :=
  fail! ErrInvalidArgument when (cmu_BucketID req =s "") || (cmu_Key req =s "") ;
  st_lift (validateObjectLockState (cmu_ObjectLockRetention req) (cmu_ObjectLockLegalHold req)) ;;!
  run (
    let! bucket := getBucket (cmu_BucketID req) in
    enforceTenantActiveUploadQuota (bk_TenantID bucket) ;;!
    let! uploadID := nextMultipartUploadID (cmu_BucketID req) in
    let! t := kv_now in
    let upload := zero_MultipartUpload <| mu_UploadID := uploadID |> <| mu_BucketID := cmu_BucketID req |>
      <| mu_Key := cmu_Key req |> <| mu_ContentType := cmu_ContentType req |>
      <| mu_StorageClass := cmu_StorageClass req |>
      <| mu_ServerSideEncryption := cmu_ServerSideEncryption req |>
      <| mu_UserMetadata := cmu_UserMetadata req |> <| mu_Tags := cmu_Tags req |>
      <| mu_ObjectLockRetention := cmu_ObjectLockRetention req |>
      <| mu_ObjectLockLegalHold := cmu_ObjectLockLegalHold req |>
      <| mu_State := MultipartUploadActive |> <| mu_CreatedAt := t |> <| mu_UpdatedAt := t |> in
    setMultipartUpload upload ;;!
    applyTenantActiveUploadDelta (bk_TenantID bucket) 1 t ;;!
    st_ret upload).

Definition GetMultipartUpload (req : MultipartUploadRequest) : KM MultipartUpload := run (getUpload req).

Definition PutMultipartPart (req : PutMultipartPartRequest) : KM (MultipartPart * option MultipartPart) :=
  fail! ErrInvalidArgument when (pmp_BucketID req =s "") || (pmp_Key req =s "") || (pmp_UploadID req =s "")
    || (pmp_PartNumber req <? 1) || (MaxMultipartParts <? pmp_PartNumber req) ;
  run (
    let! upload := getActiveUpload (mkMultipartUploadRequest (pmp_BucketID req) (pmp_Key req) (pmp_UploadID req)) in
    let key := MultipartPartKey (pmp_BucketID req) (pmp_UploadID req) (pmp_PartNumber req) in
    let! previous := getJSON as_Part key in
    let! t := kv_now in
    let part := mkMultipartPart (pmp_UploadID req) (pmp_PartNumber req) (pmp_SizeBytes req) (pmp_ETag req)
      (pmp_SegmentRef req) (match previous with Some old => mp_CreatedAt old | None => t end) t in
    setJSON key (V_Part part) ;;!
    setMultipartUpload (ApplyMultipartPartSummary upload part previous t) ;;!
    st_ret (part, previous)).

Definition ListMultipartParts (req : MultipartUploadRequest) : KM (list MultipartPart) :=
  run (getActiveUpload req ;;! listParts req).

(** The loop over the part numbers asked for. *)
Fixpoint get_parts (bucketID uploadID : string) (numbers : list Z) : KM (list MultipartPart) :=
  match numbers with
  | [] => st_ret []
  | n :: rest =>
      let! part := getJSON as_Part (MultipartPartKey bucketID uploadID n) in
      let! parts := get_parts bucketID uploadID rest in
      st_ret (match part with Some p => p :: parts | None => parts end)
  end.

Definition GetMultipartParts (req : GetMultipartPartsRequest) : KM (list MultipartPart) :=
  fail! ErrInvalidArgument when (gmp_BucketID req =s "") || (gmp_Key req =s "") || (gmp_UploadID req =s "") ;
  st_lift (ValidateMultipartPartNumberSelection (gmp_PartNumbers req)) ;;!
  run (
    getActiveUpload (mkMultipartUploadRequest (gmp_BucketID req) (gmp_Key req) (gmp_UploadID req)) ;;!
    get_parts (gmp_BucketID req) (gmp_UploadID req) (gmp_PartNumbers req)).

(** ** Completions *)

Definition getCompletion (bucketID key uploadID : string) : KM MultipartCompletionRecord :=
  let! got := require ErrNotFound (getJSON as_Completion (MultipartCompletionKey bucketID uploadID)) in
  fail! ErrNotFound when negb (mcr_Key got =s key) ;
  st_ret got.

Definition GetMultipartCompletion (req : MultipartUploadRequest) : KM MultipartCompletionRecord :=
  run (getCompletion (mur_BucketID req) (mur_Key req) (mur_UploadID req)).

Definition PrepareMultipartCompletion (req : PrepareMultipartCompletionRequest) : KM MultipartCompletionRecord :=
  fail! ErrInvalidArgument when (pmc_BucketID req =s "") || (pmc_Key req =s "") || (pmc_UploadID req =s "")
    || (pmc_ObjectVersionID req =s "") || (pmc_ETag req =s "") || (pmc_PartCount req <? 1) ;
  run (
    let key := MultipartCompletionKey (pmc_BucketID req) (pmc_UploadID req) in
    let! found := getJSON as_Completion key in
    match found with
    | Some existing =>
        fail! ErrCASConflict when negb (multipartCompletionMatches existing req) ;
        st_ret existing
    | None =>
        let! upload := getUpload (mkMultipartUploadRequest (pmc_BucketID req) (pmc_Key req) (pmc_UploadID req)) in
        fail! ErrNotFound when negb (mu_State upload =s MultipartUploadActive) ;
        let! t := kv_now in
        let record := mkMultipartCompletionRecord (pmc_BucketID req) (pmc_Key req) (pmc_UploadID req)
          (pmc_ObjectVersionID req) (pmc_ExpectedHeadVersionID req) (pmc_ETag req) (pmc_SizeBytes req)
          (pmc_PartCount req) MultipartCompletionPrepared t t in
        setJSON key (V_Completion record) ;;!
        st_ret record
    end).

Definition markMultipartCompletionState (req : MultipartCompletionStateRequest) (state : string) : KM MultipartCompletionRecord :=
  run (
    let! got := getCompletion (mcs_BucketID req) (mcs_Key req) (mcs_UploadID req) in
    if multipartCompletionStateAtLeast (mcr_State got) state then st_ret got
    else
      let! t := kv_now in
      let got := got <| mcr_State := state |> <| mcr_UpdatedAt := t |> in
      setJSON (MultipartCompletionKey (mcs_BucketID req) (mcs_UploadID req)) (V_Completion got) ;;!
      st_ret got).

Definition MarkMultipartCompletionPublished (req : MultipartCompletionStateRequest) : KM MultipartCompletionRecord :=
  markMultipartCompletionState req MultipartCompletionPublished.
Definition MarkMultipartCompletionCompleted (req : MultipartCompletionStateRequest) : KM MultipartCompletionRecord :=
  markMultipartCompletionState req MultipartCompletionCompleted.

(** ** Closing an upload *)

Definition CompleteMultipartUpload (req : CompleteMultipartUploadRequest) : KM MultipartUpload :=
  fail! ErrInvalidArgument when (cmp_ObjectVersionID req =s "") || (cmp_ETag req =s "") ;
  run (
    let! got := getUpload (mkMultipartUploadRequest (cmp_BucketID req) (cmp_Key req) (cmp_UploadID req)) in
    if mu_State got =s MultipartUploadCompleted then st_ret got
    else
      fail! ErrNotFound when negb (mu_State got =s MultipartUploadActive) ;
      st_lift (ValidateCompletedMultipartPartCount (cmp_PartCount req)) ;;!
      let! t := kv_now in
      let got := got <| mu_State := MultipartUploadCompleted |>
        <| mu_CompletedVersionID := cmp_ObjectVersionID req |> <| mu_CompletedETag := cmp_ETag req |>
        <| mu_CompletedSizeBytes := cmp_SizeBytes req |> <| mu_CompletedPartCount := cmp_PartCount req |>
        <| mu_CompletedAt := t |> <| mu_PartsCleanupState := MultipartPartsCleanupPending |>
        <| mu_PartsCleanupDeleted := 0 |> <| mu_PartsCleanupUpdatedAt := t |> <| mu_UpdatedAt := t |> in
      setMultipartUpload got ;;!
      applyTenantActiveUploadDeltaForBucket (mu_BucketID got) (-1) t ;;!
      st_ret got).

Definition AbortMultipartUpload (req : MultipartUploadRequest) : KM (list MultipartPart) :=
  run (
    let! upload := getUpload req in
    if mu_State upload =s MultipartUploadAborted then listParts req
    else
      fail! ErrNotFound when negb (mu_State upload =s MultipartUploadActive) ;
      let! parts := listParts req in
      let! t := kv_now in
      let upload := upload <| mu_State := MultipartUploadAborted |>
        <| mu_PartsCleanupState := MultipartPartsCleanupPending |> <| mu_PartsCleanupDeleted := 0 |>
        <| mu_PartsCleanupUpdatedAt := t |> <| mu_UpdatedAt := t |> in
      setMultipartUpload upload ;;!
      applyTenantActiveUploadDeltaForBucket (mu_BucketID upload) (-1) t ;;!
      st_ret parts).

Definition CleanupMultipartUploadParts (req : CleanupMultipartUploadPartsRequest) : KM CleanupMultipartUploadPartsResult :=
  let uploadReq := mkMultipartUploadRequest (cln_BucketID req) (cln_Key req) (cln_UploadID req) in
  let limit := NormalizeMultipartCleanupLimit (cln_Limit req) in
  run (
    let! upload := getUpload uploadReq in
    fail! ErrInvalidArgument when mu_State upload =s MultipartUploadActive ;
    fail! ErrNotFound when negb ((mu_State upload =s MultipartUploadCompleted) || (mu_State upload =s MultipartUploadAborted)) ;
    let! found := partKeysForCleanup uploadReq limit in
    let '(keys, hasMore) := found in
    each tx_Delete keys ;;!
    let! t := kv_now in
    let upload := upload <| mu_PartsCleanupDeleted := int64 (mu_PartsCleanupDeleted upload + Z.of_nat (length keys)) |>
      <| mu_PartsCleanupUpdatedAt := t |> <| mu_UpdatedAt := t |>
      <| mu_PartsCleanupState := if hasMore : bool then MultipartPartsCleanupPending else MultipartPartsCleanupDone |> in
    setMultipartUpload upload ;;!
    st_ret (mkCleanupMultipartUploadPartsResult upload (Z.of_nat (length keys)) hasMore)).
End Multipart.
