(* ===== verification/KvOps.v ===== *)
(** * KvOps: operational records of the KV metadata repository

    The methods of [src/internal/meta/kvrepo/repository.go] from [ListAuditEvents] to
    [GetWorkerControl] that keep audit events, collection candidates, operation logs,
    dedupe locks, shared-object releases, volume pools, worker leases and controls, and
    the listings of KMS keys and compliance profiles. *)

From S2P Require Import Prelude GoLib Sha256 StorageTypes Model Requests Encoding Meta Manifest Repo RepoBuckets RepoOps RepoAudit.
From S2P Require Import Keyspace KvStore KvRepo KvObjects.
Open Scope string_scope.
Open Scope Z_scope.

Definition sequenceMetadataMigration : string := "metadata-migration-operation".
Definition sequenceGCOperation : string := "gc-operation".
Definition sequenceDedupeOperation : string := "dedupe-operation".
Definition sequenceWorkerOperation : string := "worker-operation".
Definition sequenceVolumeDrain : string := "volume-drain-operation".

(** ** Listings *)

(** The loop over the pages of a prefix: every record that [keep] wants, in key order. *)
Definition scan_records {T} (as_T : kvalue -> option T) (prefix : string) (keep : T -> bool) : KM (list T) :=
  scanJSON as_T prefix (fun acc x => (if keep x then (acc ++ [x])%list else acc, false)) [].

(** The same, stopped at [limit] records. *)
Definition scan_first {T} (as_T : kvalue -> option T) (prefix : string) (keep : T -> bool) (limit : nat) : KM (list T) :=
  scanJSON as_T prefix (fun acc x =>
    if keep x then let acc := (acc ++ [x])%list in (acc, (limit <=? length acc)%nat) else (acc, false)) [].

(** Newest first: the identifiers carry a sequence number of twenty digits. *)
Definition by_newest {T} (id : T -> string) (a b : T) : bool := str_ltb (id b) (id a).

Section Ops.
Context `{Env}.

Definition ListKMSKeys (req : ListKMSKeysRequest) : KM (list KMSKeyRecord) :=
  let! records := run (scan_first as_KMSKey (KMSKeyKey "") (fun _ => true) (go_limit (lkk_Limit req))) in
  st_ret (sort_by (fun a b => str_ltb (kms_KeyID a) (kms_KeyID b)) records).

Definition ListComplianceProfileAttachments (req : ListComplianceProfileAttachmentsRequest) : KM (list ComplianceProfileAttachment) :=
  let! records := run (scan_first as_Profile (ComplianceProfileAttachmentKey "")
    (fun r => wants (TrimSpace (lcp_BucketID req)) (cpa_BucketID r)) (go_limit (lcp_Limit req))) in
  st_ret (sort_by (fun a b => str_ltb (cpa_ProfileID a) (cpa_ProfileID b)) records).

(** ** Audit events *)

Definition audit_wanted (req : ListAuditEventsRequest) (e : AuditEvent) : bool :=
  wants (lae_BucketID req) (ae_BucketID e) && wants (lae_Key req) (ae_Key e) && wants (lae_Action req) (ae_Action e).

(** The size of a page does not matter: the scan goes on until the limit is reached. *)
Definition ListAuditEvents (req : ListAuditEventsRequest) : KM (list AuditEvent) :=
  run (scan_first as_AuditEvent (AuditEventKey "") (audit_wanted req) (go_limit (lae_Limit req))).

Definition PutAdminAuditEvent (req : PutAdminAuditEventRequest) : KM AuditEvent :=
  fail! ErrInvalidArgument when pae_Action req =s "" ;
  run (
    let! sequence := nextSequence sequenceAudit in
    let! head := getJSON as_AuditHead AuditHeadKey in
    let! t := kv_now in
    let event := sealed_event (transitionAuditEvent (pae_Audit req) (pae_Action req) (pae_BucketID req) (pae_Key req)
      (pae_VersionID req) (pae_Details req)) sequence (default "" head) t in
    setJSON (AuditEventKey (ae_EventID event)) (V_AuditEvent event) ;;!
    setJSON AuditHeadKey (V_AuditHead (ae_EventHash event)) ;;!
    st_ret event).

(** The loop over the events of a batch, from the sequence number reserved and the last hash. *)
Fixpoint put_events (l : list PutAdminAuditEventRequest) (sequence : Z) (head : string) (t : Time) : KM (list AuditEvent * string) :=
  match l with
  | [] => st_ret ([], head)
  | req :: l' =>
      let event := sealed_event (transitionAuditEvent (pae_Audit req) (pae_Action req) (pae_BucketID req) (pae_Key req)
        (pae_VersionID req) (pae_Details req)) sequence head t in
      setJSON (AuditEventKey (ae_EventID event)) (V_AuditEvent event) ;;!
      let! rest := put_events l' (int64 (sequence + 1)) (ae_EventHash event) t in
      st_ret (event :: rest.1, rest.2)
  end.

Definition PutAdminAuditEvents (req : PutAdminAuditEventsRequest) : KM (list AuditEvent) :=
  match paes_Events req with
  | [] => st_ret []
  | events =>
      fail! ErrInvalidArgument when existsb (fun e => pae_Action e =s "") events ;
      run (
        let! sequence := reserveSequences sequenceAudit (Z.of_nat (length events)) in
        let! head := getJSON as_AuditHead AuditHeadKey in
        let! t := kv_now in
        let! done_ := put_events events sequence (default "" head) t in
        setJSON AuditHeadKey (V_AuditHead done_.2) ;;!
        st_ret done_.1)
  end.

(** ** Collection candidates and operations *)

Definition PutGCCandidate (req : PutGCCandidateRequest) : KM GCCandidateRecord :=
  let segmentID := TrimSpace (sr_SegmentID (pgc_SegmentRef req)) in
  run (
    let! existing := getJSON as_GCCandidate (GCCandidateKey segmentID) in
    let! t := kv_now in
    let! record := st_lift (BuildGCCandidate (default zero_GCCandidateRecord existing) req t) in
    setJSON (GCCandidateKey (gcr_SegmentID record)) (V_GCCandidate record) ;;!
    st_ret record).

Definition ListGCCandidates (req : ListGCCandidatesRequest) : KM (list GCCandidateRecord) :=
  let! records := run (scan_records as_GCCandidate (GCCandidateKey "") (fun _ => true)) in
  st_ret (take (go_limit (lgc_Limit req)) (sort_by gc_candidate_less records)).

Definition DeleteGCCandidate (segmentID : string) : KM unit :=
  let segmentID := TrimSpace segmentID in
  fail! ErrInvalidArgument when segmentID =s "" ;
  run (
    require ErrNotFound (getJSON as_GCCandidate (GCCandidateKey segmentID)) ;;!
    tx_Delete (GCCandidateKey segmentID)).

Definition PutGCOperation (req : PutGCOperationRequest) : KM GCOperationRecord :=
  run (
    let! sequence := nextSequence sequenceGCOperation in
    let! t := kv_now in
    let record := mkGCOperationRecord ("gc-" +:+ leftPadZeros 20 sequence) (pgo_ResumeOfOperationID req)
      (normalizeOperationStatus (pgo_Status req) (pgo_Retryable req)) (pgo_StartedAt req) (pgo_FinishedAt req)
      (pgo_Scanned req) (pgo_Deleted req) (pgo_Skipped req) (pgo_Retryable req) (pgo_Attempts req) t in
    setJSON (GCOperationKey (gco_OperationID record)) (V_GCOperation record) ;;!
    st_ret record).

Definition ListGCOperations (req : ListGCOperationsRequest) : KM (list GCOperationRecord) :=
  let! records := run (scan_records as_GCOperation (GCOperationKey "") (fun _ => true)) in
  st_ret (take (go_limit (lgo_Limit req)) (sort_by (by_newest gco_OperationID) records)).

(** ** Dedupe operations and locks *)

Definition PutDedupeOperation (req : PutDedupeOperationRequest) : KM DedupeOperationRecord :=
  run (
    let! sequence := nextSequence sequenceDedupeOperation in
    let! t := kv_now in
    let record := mkDedupeOperationRecord ("dedupe-" +:+ leftPadZeros 20 sequence) (pdo_ResumeOfOperationID req)
      (normalizeOperationStatus (pdo_Status req) (pdo_Retryable req)) (pdo_StartedAt req) (pdo_FinishedAt req)
      (pdo_Scanned req) (pdo_Acked req) (pdo_Skipped req) (pdo_Retryable req) (pdo_Attempts req) t in
    setJSON (DedupeOperationKey (dop_OperationID record)) (V_DedupeOperation record) ;;!
    st_ret record).

Definition ListDedupeOperations (req : ListDedupeOperationsRequest) : KM (list DedupeOperationRecord) :=
  let! records := run (scan_records as_DedupeOperation (DedupeOperationKey "") (fun _ => true)) in
  st_ret (take (go_limit (ldo_Limit req)) (sort_by (by_newest dop_OperationID) records)).

Definition AcquireDedupeOperationLock (req : AcquireDedupeOperationLockRequest) : KM DedupeOperationLock :=
  let lockID := TrimSpace (adl_LockID req) in
  let ownerID := TrimSpace (adl_OwnerID req) in
  fail! ErrInvalidArgument when (lockID =s "") || (ownerID =s "") ;
  fail! ErrInvalidArgument when adl_TTL req <=? 0 ;
  run (
    let! t := kv_now in
    let! found := getJSON as_DedupeLock (DedupeOperationLockKey lockID) in
    let held := match found with Some existing => t <? dol_ExpiresAt existing | None => false end in
    let mine := match found with Some existing => dol_OwnerID existing =s ownerID | None => false end in
    fail! ErrCASConflict when held && negb mine ;
    let acquiredAt := match found with
                      | Some existing => if mine && held then dol_AcquiredAt existing else t
                      | None => t
                      end in
    let lock := mkDedupeOperationLock lockID ownerID acquiredAt t (t + adl_TTL req) in
    setJSON (DedupeOperationLockKey lockID) (V_DedupeLock lock) ;;!
    st_ret lock).

Definition ReleaseDedupeOperationLock (req : ReleaseDedupeOperationLockRequest) : KM unit :=
  let lockID := TrimSpace (rdl_LockID req) in
  let ownerID := TrimSpace (rdl_OwnerID req) in
  fail! ErrInvalidArgument when (lockID =s "") || (ownerID =s "") ;
  run (
    let! existing := require ErrNotFound (getJSON as_DedupeLock (DedupeOperationLockKey lockID)) in
    fail! ErrCASConflict when negb (dol_OwnerID existing =s ownerID) ;
    tx_Delete (DedupeOperationLockKey lockID)).

(** ** Shared-object releases *)

Definition PutSharedObjectRelease (req : PutSharedObjectReleaseRequest) : KM SharedObjectRelease :=
  let sharedObjectID := TrimSpace (psr_SharedObjectID req) in
  fail! ErrInvalidArgument when sharedObjectID =s "" ;
  let segmentID := TrimSpace (sr_SegmentID (psr_SegmentRef req)) in
  fail! ErrInvalidArgument when segmentID =s "" ;
  let status := if psr_Status req =s "" then SharedObjectReleasePending else psr_Status req in
  run (
    let key := SharedObjectReleaseKey sharedObjectID segmentID in
    let! existing := getJSON as_Release key in
    let! t := kv_now in
    let found := default zero_SharedObjectRelease existing in
    let release := if srl_ReleaseID found =s ""
      then found <| srl_ReleaseID := sharedObjectReleaseID sharedObjectID segmentID |>
             <| srl_SharedObjectID := sharedObjectID |> <| srl_SegmentID := segmentID |> <| srl_CreatedAt := t |>
      else found in
    let release := release <| srl_SegmentRef := (psr_SegmentRef req) <| sr_SharedObjectID := sharedObjectID |> |>
      <| srl_Reason := if psr_Reason req =s "" then DeleteReasonManualGC else psr_Reason req |>
      <| srl_Status := status |> <| srl_UpdatedAt := t |> in
    setJSON key (V_Release release) ;;!
    st_ret release).

Definition ListSharedObjectReleases (req : ListSharedObjectReleasesRequest) : KM (list SharedObjectRelease) :=
  let! releases := run (scan_records as_Release (SharedObjectReleasePrefix (lsr_SharedObjectID req)) (fun r => wants (lsr_Status req) (srl_Status r))) in
  st_ret (take (go_limit (lsr_Limit req)) (sort_by (fun a b => str_ltb (srl_ReleaseID a) (srl_ReleaseID b)) releases)).

(** ** Volume pools and drain operations *)

Definition PutVolumePool (req : PutVolumePoolRequest) : KM VolumePool :=
  let poolID := TrimSpace (pvp_PoolID req) in
  fail! ErrInvalidArgument when poolID =s "" ;
  run (
    let! existing := getJSON as_VolumePool (VolumePoolKey poolID) in
    let! t := kv_now in
    let! pool := st_lift (BuildVolumePool (default zero_VolumePool existing) req t) in
    setJSON (VolumePoolKey poolID) (V_VolumePool pool) ;;!
    st_ret pool).

Definition GetVolumePool (poolID : string) : KM VolumePool :=
  let poolID := TrimSpace poolID in
  fail! ErrInvalidArgument when poolID =s "" ;
  run (require ErrNotFound (getJSON as_VolumePool (VolumePoolKey poolID))).

Definition ListVolumePools (req : ListVolumePoolsRequest) : KM (list VolumePool) :=
  let! pools := run (scan_records as_VolumePool (VolumePoolKey "") (fun _ => true)) in
  st_ret (take (go_limit (lvp_Limit req)) (sort_by (fun a b => str_ltb (vp_PoolID a) (vp_PoolID b)) pools)).

Definition PutVolumeDrainOperation (req : PutVolumeDrainOperationRequest) : KM VolumeDrainOperationRecord :=
  run (
    let! sequence := nextSequence sequenceVolumeDrain in
    let! t := kv_now in
    let! record := st_lift (BuildVolumeDrainOperation ("drain-" +:+ leftPadZeros 20 sequence) req t) in
    setJSON (VolumeDrainOperationKey (vdor_OperationID record)) (V_DrainOperation record) ;;!
    st_ret (CloneVolumeDrainOperationRecord record)).

Definition ListVolumeDrainOperations (req : ListVolumeDrainOperationsRequest) : KM (list VolumeDrainOperationRecord) :=
  let! records := run (scan_records as_DrainOperation (VolumeDrainOperationKey "") (fun r =>
    wants (lvd_SourceVolumeID req) (vdor_SourceVolumeID r) && wants (lvd_TargetVolumeID req) (vdor_TargetVolumeID r) && wants (lvd_Status req) (vdor_Status r))) in
  st_ret (take (go_limit (lvd_Limit req)) (sort_by (by_newest vdor_OperationID) (map CloneVolumeDrainOperationRecord records))).

(** ** Worker leases, operations and controls *)

Definition AcquireWorkerLease (req : AcquireWorkerLeaseRequest) : KM WorkerLease :=
  let workerKind := TrimSpace (awl_WorkerKind req) in
  let shardID := TrimSpace (awl_ShardID req) in
  let leaseID := WorkerLeaseID workerKind shardID in
  run (
    let key := WorkerLeaseKey workerKind shardID in
    let! existing := getJSON as_WorkerLease key in
    let! t := kv_now in
    let! lease := st_lift (BuildWorkerLease (default zero_WorkerLease existing) req t) in
    fail! ErrInvalidArgument when negb (wl_LeaseID lease =s leaseID) ;
    setJSON key (V_WorkerLease lease) ;;!
    st_ret lease).

Definition ReleaseWorkerLease (req : ReleaseWorkerLeaseRequest) : KM unit :=
  let workerKind := TrimSpace (rwl_WorkerKind req) in
  let shardID := TrimSpace (rwl_ShardID req) in
  let ownerID := TrimSpace (rwl_OwnerID req) in
  fail! ErrInvalidArgument when (workerKind =s "") || (shardID =s "") || (ownerID =s "") ;
  run (
    let key := WorkerLeaseKey workerKind shardID in
    let! existing := require ErrNotFound (getJSON as_WorkerLease key) in
    fail! ErrCASConflict when negb (wl_OwnerID existing =s ownerID) ;
    let! t := kv_now in
    setJSON key (V_WorkerLease (existing <| wl_UpdatedAt := t |> <| wl_ExpiresAt := t |>))).

Definition ListWorkerLeases (req : ListWorkerLeasesRequest) : KM (list WorkerLease) :=
  let workerKind := TrimSpace (lwl_WorkerKind req) in
  let shardID := TrimSpace (lwl_ShardID req) in
  let! leases := run (scan_records as_WorkerLease (WorkerLeaseKey workerKind "")
    (fun l => wants workerKind (wl_WorkerKind l) && wants shardID (wl_ShardID l))) in
  st_ret (take (go_limit (lwl_Limit req)) (sort_by (fun a b => str_ltb (wl_LeaseID a) (wl_LeaseID b)) leases)).

Definition PutWorkerOperation (req : PutWorkerOperationRequest) : KM WorkerOperationRecord :=
  let workerKind := TrimSpace (pwo_WorkerKind req) in
  let shardID := TrimSpace (pwo_ShardID req) in
  let ownerID := TrimSpace (pwo_OwnerID req) in
  fail! ErrInvalidArgument when (workerKind =s "") || (shardID =s "") || (ownerID =s "") ;
  run (
    let! sequence := nextSequence sequenceWorkerOperation in
    let! t := kv_now in
    let record := mkWorkerOperationRecord ("worker-op-" +:+ leftPadZeros 20 sequence) workerKind shardID ownerID
      (pwo_LeaseID req) (NormalizeWorkerOperationStatus (pwo_Status req) (pwo_Retryable req))
      (TrimSpace (pwo_Cursor req)) (pwo_Scanned req) (pwo_Processed req) (pwo_Skipped req)
      (pwo_Retryable req) (pwo_LastError req) (pwo_StartedAt req) (pwo_FinishedAt req) t in
    setJSON (WorkerOperationKey (wor_OperationID record)) (V_WorkerOperation record) ;;!
    st_ret record).

Definition ListWorkerOperations (req : ListWorkerOperationsRequest) : KM (list WorkerOperationRecord) :=
  let! records := run (scan_records as_WorkerOperation (WorkerOperationKey "") (fun r =>
    wants (lwo_WorkerKind req) (wor_WorkerKind r) && wants (lwo_ShardID req) (wor_ShardID r) && wants (lwo_Status req) (wor_Status r))) in
  st_ret (take (go_limit (lwo_Limit req)) (sort_by (by_newest wor_OperationID) records)).

Definition PutMetadataMigrationOperation (req : PutMetadataMigrationOperationRequest) : KM MetadataMigrationOperationRecord :=
  run (
    let! sequence := nextSequence sequenceMetadataMigration in
    let! t := kv_now in
    let! record := st_lift (BuildMetadataMigrationOperation ("metadata-migration-" +:+ leftPadZeros 20 sequence) req t) in
    setJSON (MetadataMigrationOperationKey (mmor_OperationID record)) (V_MigrationOperation record) ;;!
    st_ret (CloneMetadataMigrationOperationRecord record)).

Definition ListMetadataMigrationOperations (req : ListMetadataMigrationOperationsRequest) : KM (list MetadataMigrationOperationRecord) :=
  let! records := run (scan_records as_MigrationOperation (MetadataMigrationOperationKey "") (fun r => wants (lmm_Status req) (mmor_Status r))) in
  st_ret (take (go_limit (lmm_Limit req)) (sort_by (by_newest mmor_OperationID) (map CloneMetadataMigrationOperationRecord records))).

(** The record that exists is looked up under the names as given, the new one is
    stored under the trimmed names. *)
Definition PutWorkerControl (req : PutWorkerControlRequest) : KM WorkerControlRecord :=
  run (
    let! existing := getJSON as_WorkerControl (WorkerControlKey (pwc_WorkerKind req) (pwc_ShardID req)) in
    let! t := kv_now in
    let! record := st_lift (BuildWorkerControl (default zero_WorkerControlRecord existing) req t) in
    setJSON (WorkerControlKey (wcr_WorkerKind record) (wcr_ShardID record)) (V_WorkerControl record) ;;!
    st_ret record).

Definition GetWorkerControl (req : GetWorkerControlRequest) : KM WorkerControlRecord :=
  let workerKind := TrimSpace (gwc_WorkerKind req) in
  let shardID := TrimSpace (gwc_ShardID req) in
  fail! ErrInvalidArgument when (workerKind =s "") || (shardID =s "") ;
  run (require ErrNotFound (getJSON as_WorkerControl (WorkerControlKey workerKind shardID))).
End Ops.
