(* ===== verification/KvInv.v ===== *)
(** * KvInv: the invariant of the KV metadata repository

    Every record sits under a key of its own family and decodes as that family's
    type ([db_wf]), and the listing index of a bucket is exactly the image of its
    object heads ([index_ok]). Every operation preserves both, whatever it returns;
    a failed transaction leaves the store as it was. Object keys are assumed to be
    UTF-8 texts ([utf8]); the last section of [KvListing] shows what happens to
    others. *)

From S2P Require Import Prelude GoLib GoText Sha256 StorageTypes Model Requests Encoding Meta Manifest Repo.
From S2P Require Import Keyspace KvStore KvRepo KvObjects.
Open Scope string_scope.
Open Scope Z_scope.

(** ** Scans reach everything *)

Lemma elem_of_take_weaken {A} (x : A) n l : x ∈ take n l -> x ∈ l.
Proof. intros (i & Hi & _)%elem_of_take. by eapply list_elem_of_lookup_2. Qed.

Lemma str_lt_trans a b c : str_lt a b -> str_lt b c -> str_lt a c.
Proof. apply str_ltb_trans. Qed.

(** What lies after the last key of a full page is what the page left. *)
Lemma page_rest (l : list string) n k :
  StronglySorted str_lt l -> last (take n l) = Some k -> (n <= length l)%nat ->
  List.filter (fun x => str_ltb k x) l = drop n l.
Proof.
  intros Hs Hlast Hn. apply last_Some in Hlast as [l' Hl'].
  rewrite <- (take_drop n l) at 1. rewrite List.filter_app.
  assert (Hs' : StronglySorted str_lt (take n l ++ drop n l)%list) by (by rewrite take_drop).
  rewrite Hl' in *. clear Hl'. rewrite <- app_assoc in Hs'.
  rewrite (List.filter_app _ l' [k]).
  assert (forall a b : list string, StronglySorted str_lt (a ++ b)%list ->
            Forall (fun x => Forall (str_lt x) b) a /\ StronglySorted str_lt b) as Happ.
  { induction a as [|x a IH]; intros b Hab; [by split|]. simpl in Hab. apply StronglySorted_inv in Hab as [Hab Hx].
    destruct (IH b Hab) as [H1 H2]. apply Forall_app in Hx as [_ Hx]. split; [by constructor | done]. }
  destruct (Happ l' ([k] ++ drop n l)%list Hs') as [Hl' Hk]. simpl in Hk. apply StronglySorted_inv in Hk as [_ Hk].
  assert (List.filter (fun x => str_ltb k x) l' = []) as ->.
  { clear -Hl'. induction Hl' as [|x l' Hx _ IH]; [done|]. simpl. apply Forall_cons in Hx as [Hx _].
    unfold str_lt in Hx. by rewrite (str_ltb_asym _ _ Hx). }
  simpl. rewrite str_ltb_irrefl. simpl. clear -Hk. induction Hk as [|x d Hx _ IH]; [done|]. simpl.
  unfold str_lt in Hx. by rewrite Hx, IH.
Qed.

Definition after (cursor k : string) : bool := (cursor =s "") || str_ltb cursor k.

Lemma filter_and {A} (f g : A -> bool) l : List.filter (fun x => f x && g x) l = List.filter g (List.filter f l).
Proof.
  induction l as [|x l IH]; [done|]. simpl. destruct (f x); simpl; [|done]. destruct (g x); by rewrite IH.
Qed.

Lemma list_ref_page {V} (m : gmap string V) prefix cursor limit :
  list_ref m prefix cursor limit = kv_page (kv_limit limit) (List.filter (after cursor) (List.filter (fun k => HasPrefix k prefix) (sorted_keys m))).
Proof. unfold list_ref. by rewrite filter_and. Qed.

(** The next page starts where the previous one ended. *)
Lemma kv_page_next (l : list string) n cursor :
  (0 < n)%nat -> StronglySorted str_lt l ->
  forall next, (kv_page n (List.filter (after cursor) l)).2 = next -> next <> "" ->
  List.filter (after next) l = drop n (List.filter (after cursor) l) /\ (n <= length (List.filter (after cursor) l))%nat.
Proof.
  intros Hn Hs next. unfold kv_page. cbn [snd]. destruct (Nat.leb_spec n (length (List.filter (after cursor) l))) as [Hle|]; [|by intros <-].
  intros Hnext Hne. set (lc := List.filter (after cursor) l) in *. split; [|done].
  destruct (last (take n lc)) as [k|] eqn:Hk; [|by simpl in Hnext; subst]. simpl in Hnext. subst k.
  rewrite <- (page_rest lc n next); [|by apply filter_sorted | done | done]. unfold lc.
  rewrite <- filter_and. apply filter_ext_in. intros x Hx. unfold after at 1. destruct (String.eqb_spec next ""); [done|]. simpl.
  destruct (str_ltb next x) eqn:Hnx; [|by rewrite andb_false_r]. rewrite andb_true_r. symmetry.
  unfold after. destruct (String.eqb_spec cursor ""); [done|]. simpl.
  assert (next ∈ lc) as Hin. { eapply elem_of_take_weaken. apply last_Some in Hk as [l' ->]. set_solver. }
  apply elem_of_list_filter_bool in Hin as [Hc _]. unfold after in Hc.
  destruct (String.eqb_spec cursor ""); [done|]. simpl in Hc. by eapply str_ltb_trans.
Qed.

Lemma scan_pages_from {V} (m : gmap string V) prefix limit fuel cursor :
  let l := List.filter (fun k => HasPrefix k prefix) (sorted_keys m) in
  prefix <> "" -> (length (List.filter (after cursor) l) < fuel)%nat ->
  scan_pages fuel m prefix cursor limit = List.filter (after cursor) l.
Proof.
  intros l Hpre. revert cursor. induction fuel as [|fuel IH]; intros cursor Hf; [lia|]. cbn [scan_pages].
  rewrite list_ref_page. fold l. pose proof (kv_limit_pos limit) as Hn.
  assert (Hs : StronglySorted str_lt l) by apply filter_sorted, sorted_keys_sorted.
  destruct (kv_page (kv_limit limit) (List.filter (after cursor) l)) as [keys next] eqn:Hp.
  assert (keys = take (kv_limit limit) (List.filter (after cursor) l)) as -> by (by unfold kv_page in Hp; simplify_eq).
  destruct (String.eqb_spec next "") as [->|Hne].
  - apply take_ge. unfold kv_page in Hp. simplify_eq. destruct (Nat.leb_spec (kv_limit limit) (length (List.filter (after cursor) l))) as [Hle|]; [|lia].
    destruct (last (take (kv_limit limit) (List.filter (after cursor) l))) as [k|] eqn:Hk; simpl in *.
    + subst k. apply last_Some in Hk as [l' Hk]. exfalso. apply Hpre.
      assert ("" ∈ List.filter (after cursor) l) as Hin by (eapply elem_of_take_weaken; rewrite Hk; set_solver).
      apply elem_of_list_filter_bool in Hin as [_ [Hin _]%elem_of_list_filter_bool]. by destruct prefix.
    + apply last_None in Hk. rewrite <- length_zero_iff_nil, length_take in Hk. lia.
  - destruct (kv_page_next l _ cursor Hn Hs next) as [Hnext Hle]; [by rewrite Hp | done|].
    rewrite IH, Hnext; [apply take_drop|]. rewrite Hnext, length_drop. lia.
Qed.

Lemma length_filter_le {A} (f : A -> bool) l : (length (List.filter f l) <= length l)%nat.
Proof. induction l as [|x l IH]; simpl; [lia|]. destruct (f x); simpl; lia. Qed.

Lemma length_sorted_keys {V} (m : gmap string V) : length (sorted_keys m) = size m.
Proof. unfold sorted_keys. by rewrite length_sort_by, length_map, length_map_to_list. Qed.

(** A scan with the fuel of the repository visits every key with the prefix. *)
Lemma scan_all {V} (m : gmap string V) prefix limit :
  prefix <> "" ->
  scan_pages (scan_fuel m) m prefix "" limit = List.filter (fun k => HasPrefix k prefix) (sorted_keys m).
Proof.
  intros Hp. rewrite scan_pages_from; [| done |].
  - generalize (List.filter (fun k => HasPrefix k prefix) (sorted_keys m)). intros l. by induction l as [|x l IH]; [done|]; simpl; rewrite IH.
  - unfold scan_fuel. rewrite <- length_sorted_keys. do 2 (eapply Nat.le_lt_trans; [apply length_filter_le|]). lia.
Qed.

(** ** Well-formed stores *)

Abbreviation kvdb := (gmap string kvalue).

Definition utf8 (s : string) : Prop := json_text s = s.

(** The type of the record under a key, and the fields that repeat the key. *)
Definition typed (e : entity) (v : kvalue) : Prop :=
  match e, v with
  | BucketByNameOf _, V_BucketID _ => True
  | BucketByIDOf id, V_Bucket b => bk_BucketID b = id
  | ObjectHeadOf b k, V_Head x => ohe_BucketID x = b /\ ohe_Key x = k /\ utf8 k
  | ListObjectOf b k, V_List x => ole_BucketID x = b /\ ole_Key x = k
  | ObjectVersionOf b k sk, V_Version x => ov_BucketID x = b /\ ov_Key x = k /\ ov_VersionSortKey x = sk /\ utf8 k
  | ObjectVersionByIDOf _ _, V_VersionIndex _ => True
  | ObjectManifestChunkOf _ _ _, V_Chunk _ => True
  | ProtectedRefByVersionOf _ _ _ _, V_ProtectedRef _ => True
  | ProtectedRefBySegmentOf _ _, V_ProtectedRef _ => True
  | KMSKeyOf id, V_KMSKey x => kms_KeyID x = id /\ id <> ""
  | SequenceOf _, V_Sequence _ => True
  | AuditEventOf _, V_AuditEvent _ => True
  | AuditHeadOf, V_AuditHead _ => True
  | MetadataSchemaOf, V_Schema _ => True
  | TenantOf id, V_Tenant x => tn_TenantID x = id
  | TenantQuotaOf id, V_TenantQuota x => tq_TenantID x = id
  | TenantUsageOf id, V_TenantUsage x => tu_TenantID x = id
  | AccessKeyOf id, V_AccessKey x => ak_AccessKeyID x = id
  | ComplianceProfileAttachmentOf id, V_Profile x => cpa_ProfileID x = id /\ id <> ""
  | BucketQuotaOf _, V_BucketQuota _ => True
  | MultipartUploadOf b u, V_Upload x => mu_BucketID x = b /\ mu_UploadID x = u /\ utf8 (mu_Key x)
  | MultipartUploadByKeyOf _ _ u, V_UploadIndex u' => u' = u
  | MultipartCompletionOf b u, V_Completion x => mcr_BucketID x = b /\ mcr_UploadID x = u /\ utf8 (mcr_Key x)
  | MultipartPartOf _ u n, V_Part x => mp_UploadID x = u /\ mp_PartNumber x = n
  | GCCandidateOf id, V_GCCandidate x => gcr_SegmentID x = id
  | VolumePoolOf id, V_VolumePool x => vp_PoolID x = id
  | WorkerLeaseOf kind shard, V_WorkerLease x => wl_LeaseID x = WorkerLeaseID kind shard /\ wl_WorkerKind x = kind /\ wl_ShardID x = shard
  | WorkerControlOf kind shard, V_WorkerControl x => wcr_WorkerKind x = kind /\ wcr_ShardID x = shard
  | GCOperationOf id, V_GCOperation x => gco_OperationID x = id
  | DedupeOperationOf id, V_DedupeOperation x => dop_OperationID x = id
  | DedupeOperationLockOf id, V_DedupeLock x => dol_LockID x = id
  | SharedObjectReleaseOf id segment, V_Release x => srl_SharedObjectID x = id /\ srl_SegmentID x = segment /\ srl_ReleaseID x <> ""
  | VolumeDrainOperationOf id, V_DrainOperation x => vdor_OperationID x = id
  | WorkerOperationOf id, V_WorkerOperation x => wor_OperationID x = id
  | MetadataMigrationOperationOf id, V_MigrationOperation x => mmor_OperationID x = id
  | _, _ => False
  end.

Definition db_wf (db : kvdb) : Prop :=
  forall k v, db !! k = Some v -> exists e, k = key_of e /\ entity_ok e = true /\ typed e v.

(** The listing entry an object head asks for. *)
Definition index_entry (head : option kvalue) : option kvalue :=
  match head with
  | Some (V_Head e) => if ohe_DeleteMarker e then None else Some (V_List (listEntryFromHead (headFromHeadEntry e)))
  | _ => None
  end.

Definition index_at (db : kvdb) (b k : string) : Prop :=
  db !! ListObjectKey b k = index_entry (db !! ObjectHeadKey b k).

Definition kv_ok (db : kvdb) : Prop := db_wf db /\ forall b k, index_at db b k.

Lemma wf_lookup db e v : db_wf db -> entity_ok e = true -> db !! key_of e = Some v -> typed e v.
Proof. intros Hwf He (e' & Heq & He' & Ht)%Hwf. apply key_of_inj in Heq; [|done..]. by subst. Qed.

Lemma db_wf_insert db e v : db_wf db -> entity_ok e = true -> typed e v -> db_wf (<[key_of e := v]> db).
Proof. intros Hwf He Ht k v' [[<- <-]|[_ Hv]]%lookup_insert_Some; [by exists e | by apply Hwf]. Qed.

Lemma db_wf_delete db k : db_wf db -> db_wf (delete k db).
Proof. intros Hwf k' v [_ Hv]%lookup_delete_Some. by apply Hwf. Qed.

(** A write that is no head and no listing entry leaves the index alone. *)
Definition indexed (e : entity) : bool :=
  match e with ObjectHeadOf _ _ | ListObjectOf _ _ => true | _ => false end.

Lemma not_indexed e b k :
  entity_ok e = true -> indexed e = false -> key_of e <> ObjectHeadKey b k /\ key_of e <> ListObjectKey b k.
Proof.
  intros He Hi. split; intros Heq;
    [change (ObjectHeadKey b k) with (key_of (ObjectHeadOf b k)) in Heq | change (ListObjectKey b k) with (key_of (ListObjectOf b k)) in Heq];
    apply key_of_inj in Heq; try done; by subst.
Qed.

Lemma kv_ok_insert db e v :
  kv_ok db -> entity_ok e = true -> indexed e = false -> typed e v -> kv_ok (<[key_of e := v]> db).
Proof.
  intros [Hwf Hix] He Hi Ht. split; [by apply db_wf_insert|]. intros b k. unfold index_at.
  destruct (not_indexed e b k He Hi) as [H1 H2]. rewrite !lookup_insert_ne by done. apply Hix.
Qed.

Lemma kv_ok_delete db e : kv_ok db -> entity_ok e = true -> indexed e = false -> kv_ok (delete (key_of e) db).
Proof.
  intros [Hwf Hix] He Hi. split; [by apply db_wf_delete|]. intros b k. unfold index_at.
  destruct (not_indexed e b k He Hi) as [H1 H2]. rewrite !lookup_delete_ne by done. apply Hix.
Qed.

(** ** Triples on the store

    [ktriple P m Q]: from a store in [P], [m] ends in a store in [Q], or it fails
    with an error other than a decoding error and leaves the invariant true. *)

Definition ktriple {A} (P : kvdb -> Prop) (m : KM A) (Q : A -> kvdb -> Prop) : Prop :=
  forall s, P (kv_db s) ->
  match m s with
  | (Ok a, s') => Q a (kv_db s')
  | (Fail e, s') => e <> ErrOther /\ kv_ok (kv_db s')
  end.

Section Triples.
Implicit Types P : kvdb -> Prop.

Lemma kt_bind {A B} P (m : KM A) (f : A -> KM B) R Q :
  ktriple P m R -> (forall a, ktriple (R a) (f a) Q) -> ktriple P (st_bind m f) Q.
Proof.
  intros Hm Hf s Hs. unfold st_bind. specialize (Hm s Hs). destruct (m s) as [[a|e] s']; [by apply Hf | done].
Qed.

Lemma kt_ret {A} P (a : A) (Q : A -> kvdb -> Prop) : (forall db, P db -> Q a db) -> ktriple P (st_ret a) Q.
Proof. intros HQ s Hs. by apply HQ. Qed.

Lemma kt_fail {A} e (Q : A -> kvdb -> Prop) : e <> ErrOther -> ktriple kv_ok (st_fail e) Q.
Proof. by intros He s Hs. Qed.

Lemma kt_lift {A} (o : outcome Err A) (Q : A -> kvdb -> Prop) :
  o <> Fail ErrOther -> (forall a db, o = Ok a -> kv_ok db -> Q a db) -> ktriple kv_ok (st_lift o) Q.
Proof. intros Ho HQ s Hs. unfold st_lift. destruct o as [a|e]; [by apply HQ | split; [congruence | done]]. Qed.

Lemma kt_conseq {A} P P' (m : KM A) (Q Q' : A -> kvdb -> Prop) :
  ktriple P' m Q' -> (forall db, P db -> P' db) -> (forall a db, Q' a db -> Q a db) -> ktriple P m Q.
Proof. intros Hm HP HQ s Hs. specialize (Hm s (HP _ Hs)). destruct (m s) as [[a|e] s']; auto. Qed.

Lemma kt_pure {A} P (phi : Prop) (m : KM A) Q : (phi -> ktriple P m Q) -> ktriple (fun db => phi /\ P db) m Q.
Proof. intros Hm s [Hphi Hs]. by apply Hm. Qed.

Lemma kt_kgets {A} P (f : KvRepository -> A) : (forall s n m, f (s <| kv_clock_calls := n |> <| kv_id_calls := m |>) = f s) ->
  ktriple P (kgets f) (fun a db => P db /\ a = f (mkKvRepository db 0 0)).
Proof. intros Hf s Hs. simpl. split; [done|]. rewrite <- (Hf s 0%nat 0%nat). by destruct s. Qed.

Lemma kt_modify P f (Q : unit -> kvdb -> Prop) :
  (forall s, P (kv_db s) -> Q tt (kv_db (f s))) -> ktriple P (st_modify f) Q.
Proof. intros HQ s Hs. by apply HQ. Qed.

End Triples.

(** Operations that keep the invariant. *)
Definition keeps_ok {A} (m : KM A) (R : A -> Prop) : Prop := ktriple kv_ok m (fun a db => kv_ok db /\ R a).
Definition any {A} (_ : A) : Prop := True.

Lemma ko_bind {A B} (m : KM A) (f : A -> KM B) R Q :
  keeps_ok m R -> (forall a, R a -> keeps_ok (f a) Q) -> keeps_ok (st_bind m f) Q.
Proof.
  intros Hm Hf. eapply kt_bind; [exact Hm|]. intros a s [Hok HR]. by apply (Hf a HR).
Qed.

Lemma ko_ret {A} (a : A) (R : A -> Prop) : R a -> keeps_ok (st_ret a) R.
Proof. intros HR. apply kt_ret. by split. Qed.

Lemma ko_fail {A} e (R : A -> Prop) : e <> ErrOther -> keeps_ok (st_fail e) R.
Proof. apply kt_fail. Qed.

Lemma ko_if {A} (c : bool) (m1 m2 : KM A) R :
  (c = true -> keeps_ok m1 R) -> (c = false -> keeps_ok m2 R) -> keeps_ok (if c then m1 else m2) R.
Proof. destruct c; auto. Qed.

Lemma ko_weaken {A} (m : KM A) (R R' : A -> Prop) : keeps_ok m R -> (forall a, R a -> R' a) -> keeps_ok m R'.
Proof. intros Hm HR. eapply kt_conseq; [exact Hm | done|]. intros a db [? ?]. split; auto. Qed.

Lemma ko_lift {A} (o : outcome Err A) (R : A -> Prop) :
  o <> Fail ErrOther -> (forall a, o = Ok a -> R a) -> keeps_ok (st_lift o) R.
Proof. intros Ho HR. apply kt_lift; [done|]. intros. split; auto. Qed.

(** Reading a record: its type is the one the code decodes. *)
Lemma ko_getJSON {T} (as_T : kvalue -> option T) e (R : T -> Prop) :
  entity_ok e = true -> (forall v, typed e v -> exists x, as_T v = Some x /\ R x) ->
  keeps_ok (getJSON as_T (key_of e)) (fun o => forall x, o = Some x -> R x).
Proof.
  intros He HT s Hs. unfold getJSON, decode. destruct (kv_db s !! key_of e) as [v|] eqn:Hv; [|by split].
  destruct (HT v) as (x & -> & Hx); [by eapply wf_lookup; [apply Hs|..]|]. split; [done|]. intros. by simplify_eq.
Qed.

Lemma ko_setJSON e v :
  entity_ok e = true -> indexed e = false -> typed e (through_json v) -> keeps_ok (setJSON (key_of e) v) any.
Proof. intros He Hi Ht. apply kt_modify. intros s Hs. split; [|done]. by apply kv_ok_insert. Qed.

Lemma ko_delete e : entity_ok e = true -> indexed e = false -> keeps_ok (tx_Delete (key_of e)) any.
Proof. intros He Hi. apply kt_modify. intros s Hs. split; [|done]. by apply kv_ok_delete. Qed.

Lemma ko_require {T} e (m : KM (option T)) (R : T -> Prop) :
  e <> ErrOther -> keeps_ok m (fun o => forall x, o = Some x -> R x) -> keeps_ok (require e m) R.
Proof.
  intros He Hm. eapply ko_bind; [exact Hm|]. intros [x|] Hx; [apply ko_ret; by apply Hx | by apply ko_fail].
Qed.

Lemma ko_each {A B} (f : A -> KM B) (l : list A) :
  (forall x, x ∈ l -> keeps_ok (f x) any) -> keeps_ok (each f l) any.
Proof.
  induction l as [|x l IH]; intros Hf; [by apply ko_ret|]. eapply ko_bind; [apply Hf; by left|].
  intros _ _. apply IH. intros y Hy. apply Hf. by right.
Qed.

(** ** Scans of one family *)

Definition under (prefix : string) (e : entity) : Prop := entity_ok e = true /\ HasPrefix (key_of e) prefix = true.

Lemma ko_delete_pages fuel prefix cursor limit step :
  (forall e, under prefix e -> keeps_ok (step (key_of e)) any) ->
  keeps_ok (delete_pages fuel prefix cursor limit step) any.
Proof.
  intros Hstep. revert cursor. induction fuel as [|fuel IH]; intros cursor; [by apply ko_ret|]. cbn [delete_pages].
  eapply (ko_bind _ _ (fun p => Forall (fun k => exists e, k = key_of e /\ under prefix e) p.1)).
  - intros s Hs. split; [done|]. apply Forall_forall. intros k Hk. rewrite list_ref_page in Hk. unfold kv_page in Hk. cbn [fst] in Hk.
    apply elem_of_take_weaken, elem_of_list_filter_bool in Hk as [_ Hk].
    apply elem_of_list_filter_bool in Hk as [Hp [v Hv]%elem_of_sorted_keys].
    destruct Hs as [Hwf _]. destruct (Hwf k v Hv) as (e & -> & He & _). by exists e.
  - intros [keys next] Hkeys. simpl in *. eapply ko_bind.
    + apply ko_each. intros k Hk. rewrite Forall_forall in Hkeys. destruct (Hkeys k Hk) as (e & -> & He). by apply Hstep.
    + intros _ _. apply ko_if; intros _; [by apply ko_ret | apply IH].
Qed.

Lemma ko_scan {T A} (as_T : kvalue -> option T) prefix (fn : A -> string -> T -> A * bool) (acc : A) (R : A -> Prop) :
  prefix <> "" -> R acc ->
  (forall e v, under prefix e -> typed e v ->
     exists x, as_T v = Some x /\ forall acc, R acc -> R (fn acc (key_of e) x).1) ->
  keeps_ok (scanJSONWithKey as_T prefix fn acc) R.
Proof.
  intros Hne Hacc Hfn s Hs. unfold scanJSONWithKey, st_bind, kgets, st_lift. rewrite scan_all by done.
  set (db := kv_db s) in *.
  assert (Hkeys : forall k, k ∈ List.filter (fun k => HasPrefix k prefix) (sorted_keys db) -> HasPrefix k prefix = true).
  { intros k Hk. by apply elem_of_list_filter_bool in Hk as [Hk _]. }
  revert acc Hacc Hkeys. generalize (List.filter (fun k => HasPrefix k prefix) (sorted_keys db)). intros l.
  induction l as [|k l IH]; intros acc Hacc Hkeys; simpl; [by split|].
  destruct (db !! k) as [v|] eqn:Hv; [|apply IH; [done | intros; apply Hkeys; by right]].
  destruct (proj1 Hs k v Hv) as (e & -> & He & Ht).
  destruct (Hfn e v) as (x & Hx & Hx'); [by split; [|apply Hkeys; left] | done|].
  unfold decode. rewrite Hx. specialize (Hx' acc Hacc). destruct (fn acc (key_of e) x) as [acc' [|]]; [by split|].
  apply IH; [done|]. intros. apply Hkeys. by right.
Qed.

Lemma under_segments prefix p e :
  prefix = join_slash (app p [""]) -> Forall (fun x => no_slash x = true) p -> under prefix e ->
  exists rest, rest <> [] /\ "" :: "namros" :: "v1" :: segments e = app p rest.
Proof. intros -> Hp [He Hpre]. by apply scan_split. Qed.

Ltac prefix_segments p :=
  match goal with
  | |- under ?prefix ?e -> _ =>
      let Hu := fresh "Hu" in
      intros Hu; assert (prefix = join_slash (app p [""])) as Hp by (autounfold with keys; cbn [app join_slash]; str_norm; done);
      destruct (under_segments _ p e Hp ltac:(repeat constructor; apply escape_no_slash) Hu) as (rest & Hrest & Hseg);
      clear Hp; destruct e; simpl in Hseg; simplify_eq; try (by destruct rest);
      repeat match goal with H : escape _ = escape _ |- _ => apply escape_inj in H; subst end
  end.

Lemma under_versions b k e : under (versionPrefix b k) e -> exists sk, e = ObjectVersionOf b k sk.
Proof.
  unfold versionPrefix. prefix_segments [""; "namros"; "v1"; "buckets"; escape b; "versions"; escape k]. eauto.
Qed.

Lemma under_bucket_versions b e : under (versionsBucketPrefix b) e -> exists k sk, e = ObjectVersionOf b k sk.
Proof.
  unfold versionsBucketPrefix. prefix_segments [""; "namros"; "v1"; "buckets"; escape b; "versions"]. eauto.
Qed.

Lemma under_chunks b v e : under (ObjectManifestChunkKey b v 0) e -> exists n, e = ObjectManifestChunkOf b v n.
Proof.
  prefix_segments [""; "namros"; "v1"; "buckets"; escape b; "object-manifests"; escape v; "chunks"]. eauto.
Qed.

Lemma under_refs b k v e : under (protectedRefVersionPrefix b k v) e -> exists r, e = ProtectedRefByVersionOf b k v r.
Proof.
  unfold protectedRefVersionPrefix.
  prefix_segments [""; "namros"; "v1"; "buckets"; escape b; "protected-refs"; "by-version"; escape k; escape v]. eauto.
Qed.

Lemma objectHeadPrefix_eq b : objectHeadPrefix b = "/namros/v1/buckets/" +:+ escape b +:+ "/objects/".
Proof.
  unfold objectHeadPrefix. assert (ObjectHeadKey b "" = ("/namros/v1/buckets/" +:+ escape b +:+ "/objects/") +:+ "/head") as ->.
  { autounfold with keys. cbn [escape]. str_norm. done. }
  apply TrimSuffix_app.
Qed.

Lemma under_heads b e : under (objectHeadPrefix b) e -> exists k, e = ObjectHeadOf b k.
Proof. rewrite objectHeadPrefix_eq. prefix_segments [""; "namros"; "v1"; "buckets"; escape b; "objects"]. eauto. Qed.

(** ** The helpers keep the invariant *)

(** The value under a key of a known family. *)
Ltac typed_cases :=
  let v := fresh "v" in intros v; destruct v; simpl; intros; try contradiction; eexists; split; [reflexivity|].

Lemma ko_deleteManifestChunks b v : keeps_ok (deleteManifestChunks b v) any.
Proof.
  unfold deleteManifestChunks. apply ko_if; intros _; [by apply ko_ret|].
  eapply (ko_bind _ _ any); [intros s Hs; by split|]. intros db _. apply ko_delete_pages.
  intros e He. destruct (under_chunks b v e He) as [n ->]. apply ko_delete; [apply He | done].
Qed.

Lemma ko_deleteProtectedRefs b k v : keeps_ok (deleteProtectedRefsForVersion b k v) any.
Proof.
  unfold deleteProtectedRefsForVersion.
  eapply (ko_bind _ _ any); [intros s Hs; by split|]. intros db _. apply ko_delete_pages.
  intros e He. destruct (under_refs b k v e He) as [r ->].
  eapply (ko_bind _ _ (fun o => forall x, o = Some x -> any x)); [apply ko_getJSON; [done|]; by typed_cases|].
  intros ref _. eapply (ko_bind _ _ any); [|intros; by apply ko_delete].
  destruct ref as [ref|]; [|by apply ko_ret]. by apply (ko_delete (ProtectedRefBySegmentOf _ _)).
Qed.

Lemma ko_syncProtectedRefs version t : keeps_ok (syncProtectedRefsForVersion version t) any.
Proof.
  unfold syncProtectedRefsForVersion. eapply ko_bind; [apply ko_deleteProtectedRefs|]. intros _ _.
  apply ko_if; intros _; [by apply ko_ret|]. apply ko_each. intros ref _. apply ko_if; intros _; [by apply ko_ret|].
  eapply ko_bind; [by apply (ko_setJSON (ProtectedRefByVersionOf _ _ _ _))|]. intros _ _.
  by apply (ko_setJSON (ProtectedRefBySegmentOf _ _)).
Qed.

(** A version the code writes has a key that survives JSON. *)
Definition version_utf8 (v : ObjectVersion) : Prop := utf8 (ov_Key v).

Lemma encoded_size_error j : encoded_size j <> Fail ErrOther.
Proof. unfold encoded_size. by destruct (marshal j). Qed.

Lemma fit_chunk_error fuel v number refs size : fit_chunk fuel v number refs size <> Some (Fail ErrOther).
Proof.
  revert size. induction fuel as [|fuel IH]; intros size; [done|]. cbn [fit_chunk].
  unfold objectManifestChunkValueBytes. destruct (encoded_size _) eqn:He; [|intros [= ->]; by apply encoded_size_error in He].
  case_match; [done|]. case_match; [done | apply IH].
Qed.

Lemma build_chunks_error fuel v number refs : build_chunks fuel v number refs <> Some (Fail ErrOther).
Proof.
  revert number refs. induction fuel as [|fuel IH]; intros number refs; destruct refs as [|ref refs]; try done.
  cbn [build_chunks]. set (l := ref :: refs).
  destruct (fit_chunk _ _ _ _ _) as [[[chunk size]|e]|] eqn:He; [|intros [= ->]; by apply fit_chunk_error in He|done].
  specialize (IH (number + 1) (drop size l)). destruct (build_chunks fuel _ _ _) as [[|]|]; done.
Qed.

Lemma plan_error v : PlanObjectVersionManifestStorage v <> Some (Fail ErrOther).
Proof.
  unfold PlanObjectVersionManifestStorage, ValidateObjectManifestScale. destruct (MaxObjectManifestSegmentRefs <? _); [done|].
  unfold objectVersionEncodedValue. destruct (encoded_size _) eqn:H1; [|intros [= ->]; by apply encoded_size_error in H1].
  case_match; [done|]. destruct (objectVersionSegmentRefs v) as [|ref refs]; [done|].
  destruct (buildObjectManifestChunks v (ref :: refs)) as [[chunks|e]|] eqn:Hb; [|intros [= ->]; by apply build_chunks_error in Hb|done].
  match goal with |- context [encoded_size ?j] => pose proof (encoded_size_error j) as H2; destruct (encoded_size j) end;
    [by case_match | congruence].
Qed.

Lemma chunk_layout_numbers v number refs chunks :
  chunk_layout v number refs chunks -> 0 < number -> Forall (fun c => 0 < omc_ChunkNumber c) chunks.
Proof. induction 1 as [|number front rest chunks bytes _ _ _ _ IH]; intros Hn; constructor; [done|]. apply IH. lia. Qed.

Lemma planStorage_ok version :
  planStorage version <> Fail ErrOther /\
  forall plan, planStorage version = Ok plan ->
    ov_BucketID (plan_StoredVersion plan) = ov_BucketID version /\ ov_Key (plan_StoredVersion plan) = ov_Key version /\
    ov_VersionID (plan_StoredVersion plan) = ov_VersionID version /\
    Forall (fun c => 0 < omc_ChunkNumber c) (plan_Chunks plan).
Proof.
  unfold planStorage. pose proof (plan_error version) as He. destruct (plan_total version) as [r Hr]. rewrite Hr in He |- *.
  split; [intros ->; done|]. intros plan ->. destruct (plan_cases version plan Hr) as [_ [(_ & -> & ->)|(_ & _ & Hlay & ->)]].
  - by repeat split.
  - do 3 (split; [done|]). by eapply chunk_layout_numbers.
Qed.

Lemma ko_setObjectVersion version : version_utf8 version -> keeps_ok (setObjectVersion version) any.
Proof.
  intros Hu. unfold setObjectVersion. destruct (planStorage_ok version) as [Hne Hplan].
  eapply (ko_bind _ _ (fun plan => planStorage version = Ok plan)); [by apply ko_lift|]. intros plan Hp.
  destruct (Hplan plan Hp) as (HB & HK & HV & Hchunks).
  eapply (ko_bind _ _ any); [apply ko_if; intros _; [apply ko_deleteManifestChunks | by apply ko_ret]|]. intros _ _.
  eapply (ko_bind _ _ any).
  { apply ko_each. intros chunk Hc. rewrite Forall_forall in Hchunks. specialize (Hchunks chunk Hc).
    apply (ko_setJSON (ObjectManifestChunkOf _ _ _)); [simpl; lia | done | done]. }
  intros _ _. eapply (ko_bind _ _ any); [|intros _ _; by apply (ko_setJSON (ObjectVersionByIDOf _ _))].
  apply (ko_setJSON (ObjectVersionOf _ _ _)); [done | done|]. simpl. unfold version_utf8, utf8 in *. by rewrite HK, Hu.
Qed.

(** A located version is stored under its own key, and decodes. *)
Definition located_ok (bucketID objectKey : string) (l : string * ObjectVersion) : Prop :=
  ov_BucketID l.2 = bucketID /\ ov_Key l.2 = objectKey /\ version_utf8 l.2 /\
  exists sk, l.1 = ObjectVersionKey bucketID objectKey sk.

Lemma hydrate_fields get v v' : hydrateObjectVersionManifest get v = Ok v' ->
  ov_BucketID v' = ov_BucketID v /\ ov_Key v' = ov_Key v /\ ov_DeleteMarker v' = ov_DeleteMarker v /\ ov_VersionID v' = ov_VersionID v.
Proof.
  unfold hydrateObjectVersionManifest. repeat case_match; intros; by simplify_eq.
Qed.

Lemma collect_chunks_error get v n count : collect_chunks get v n count <> Fail ErrOther.
Proof.
  revert n. induction count as [|count IH]; intros n; [done|]. simpl. destruct (get _); [|done]. case_match; [done|].
  specialize (IH (n + 1)). destruct (collect_chunks get v (n + 1) count); [done|]. congruence.
Qed.

Lemma hydrate_error get v : hydrateObjectVersionManifest get v <> Fail ErrOther.
Proof.
  unfold hydrateObjectVersionManifest. case_match; [done|]. case_match; [done|].
  pose proof (collect_chunks_error get v 1 (Z.to_nat (omd_ChunkCount (ov_Manifest v)))).
  destruct (collect_chunks _ _ _ _); [by case_match | congruence].
Qed.

Lemma ko_hydrateVersion v :
  keeps_ok (hydrateVersion v) (fun v' => ov_BucketID v' = ov_BucketID v /\ ov_Key v' = ov_Key v /\
                                         ov_DeleteMarker v' = ov_DeleteMarker v /\ ov_VersionID v' = ov_VersionID v).
Proof.
  eapply (ko_bind _ _ any); [intros s Hs; by split|]. intros db _. apply ko_lift; [apply hydrate_error | apply hydrate_fields].
Qed.

Lemma ko_findVersionByID b k versionID :
  keeps_ok (findVersionByID b k versionID) (fun o => forall l, o = Some l -> located_ok b k l).
Proof.
  unfold findVersionByID. apply ko_if; intros _; [by apply ko_ret|].
  eapply (ko_bind _ _ (fun o => forall x, o = Some x -> any x)).
  { apply (ko_getJSON _ (ObjectVersionByIDOf _ _)); [done|]. by typed_cases. }
  intros [locator|] _.
  - apply ko_if; intros Hl; [by apply ko_ret|]. apply orb_false_iff in Hl as [Hk _]. apply negb_false_iff, String.eqb_eq in Hk.
    rewrite Hk. eapply (ko_bind _ _ (fun o => forall x, o = Some x -> ov_BucketID x = b /\ ov_Key x = k /\ utf8 k)).
    { apply (ko_getJSON _ (ObjectVersionOf _ _ _)); [done|]. typed_cases. tauto. }
    intros [version|] Hv; [|by apply ko_ret]. destruct (Hv version eq_refl) as (HB & HK & Hu).
    apply ko_if; intros _; [by apply ko_ret|]. eapply ko_bind; [apply ko_hydrateVersion|].
    intros v' (HB' & HK' & _). apply ko_ret. intros l [= <-]. unfold located_ok, version_utf8. simpl.
    rewrite HB', HK', HB, HK. eauto.
  - eapply (ko_bind _ _ (fun o : option (string * ObjectVersion) => forall l, o = Some l -> located_ok b k l)).
    { apply ko_scan; [done | done|]. intros e v He Ht. destruct (under_versions b k e He) as [sk ->].
      destruct v; simpl in Ht; try contradiction. eexists. split; [reflexivity|]. intros acc Hacc.
      case_match; [done|]. intros l [= <-]. destruct Ht as (HB & HK & _ & Hu). unfold located_ok, version_utf8. simpl.
      rewrite HB, HK. eauto. }
    intros [[foundKey found]|] Hf; [|by apply ko_ret]. specialize (Hf _ eq_refl).
    eapply (ko_bind _ _ any); [apply ko_if; intros _; [by apply (ko_setJSON (ObjectVersionByIDOf _ _)) | by apply ko_ret]|].
    intros _ _. eapply ko_bind; [apply ko_hydrateVersion|]. intros v' (HB' & HK' & _). apply ko_ret. intros l [= <-].
    destruct Hf as (HB & HK & Hu & Hsk). unfold located_ok, version_utf8 in *. simpl in *. rewrite HB', HK'. auto.
Qed.

(** ** A head and its listing entry *)

Lemma head_key_inj b k b' k' : ObjectHeadKey b k = ObjectHeadKey b' k' -> (b, k) = (b', k').
Proof. intros Heq. by apply (key_of_inj (ObjectHeadOf b k) (ObjectHeadOf b' k')) in Heq as [= -> ->]. Qed.
Lemma list_key_inj b k b' k' : ListObjectKey b k = ListObjectKey b' k' -> (b, k) = (b', k').
Proof. intros Heq. by apply (key_of_inj (ListObjectOf b k) (ListObjectOf b' k')) in Heq as [= -> ->]. Qed.
Lemma head_list_ne b k b' k' : ObjectHeadKey b k <> ListObjectKey b' k'.
Proof. intros Heq. by apply (key_of_inj (ObjectHeadOf b k) (ListObjectOf b' k')) in Heq. Qed.

Definition index_but (b k : string) (db : kvdb) : Prop := forall b' k', (b', k') <> (b, k) -> index_at db b' k'.

(** Between the two writes: the head is in place, its listing entry is still the
    old one. *)
Definition head_written (b k : string) (h : ObjectHead) (db : kvdb) : Prop :=
  db_wf db /\ index_but b k db /\ oh_BucketID h = b /\ oh_Key h = k /\ utf8 k /\
  db !! ObjectHeadKey b k = Some (V_Head (headEntryFromHead h)).

Lemma index_but_head b k db v : (forall b k, index_at db b k) -> index_but b k (<[ObjectHeadKey b k := v]> db).
Proof.
  intros Hix b' k' Hne. unfold index_at. rewrite !lookup_insert_ne; [apply Hix | | by apply head_list_ne].
  intros Heq. by apply head_key_inj in Heq.
Qed.

Lemma kv_ok_set_list db b k (o : option kvalue) :
  db_wf db -> index_but b k db -> o = index_entry (db !! ObjectHeadKey b k) ->
  (forall v, o = Some v -> typed (ListObjectOf b k) v) ->
  kv_ok (match o with Some v => <[ListObjectKey b k := v]> db | None => delete (ListObjectKey b k) db end).
Proof.
  intros Hwf Hix Ho Ht. split.
  - destruct o as [v|]; [apply (db_wf_insert _ (ListObjectOf b k)); auto | by apply db_wf_delete].
  - intros b' k'. unfold index_at. pose proof (head_list_ne b' k' b k) as Hhl.
    destruct (decide ((b', k') = (b, k))) as [[= -> ->]|Hne].
    + destruct o; [rewrite lookup_insert_eq, lookup_insert_ne by done | rewrite lookup_delete_eq, lookup_delete_ne by done]; done.
    + assert (ListObjectKey b k <> ListObjectKey b' k') by (intros Heq; by apply list_key_inj in Heq).
      specialize (Hix b' k' Hne). unfold index_at in Hix.
      destruct o; [rewrite !lookup_insert_ne by done | rewrite !lookup_delete_ne by done]; done.
Qed.

Lemma headEntry_through_json h : utf8 (oh_Key h) -> through_json (V_Head (headEntryFromHead h)) = V_Head (headEntryFromHead h).
Proof. unfold utf8. intros Hu. simpl. destruct h. simpl in *. unfold setter, headEntryFromHead. simpl. by rewrite Hu. Qed.

Lemma listEntry_through_json h : utf8 (oh_Key h) -> through_json (V_List (listEntryFromHead h)) = V_List (listEntryFromHead h).
Proof. unfold utf8. intros Hu. simpl. destruct h. simpl in *. unfold setter, listEntryFromHead. simpl. by rewrite Hu. Qed.

Lemma kt_getObjectHead b k :
  keeps_ok (getObjectHead b k) (fun o => forall h, o = Some h -> oh_BucketID h = b /\ oh_Key h = k /\ utf8 k).
Proof.
  unfold getObjectHead. eapply (ko_bind _ _ (fun o => forall x, o = Some x -> ohe_BucketID x = b /\ ohe_Key x = k /\ utf8 k)).
  { apply (ko_getJSON _ (ObjectHeadOf _ _)); [done|]. typed_cases. tauto. }
  intros [x|] Hx; apply ko_ret; [|done]. intros h [= <-]. by apply Hx.
Qed.

Lemma kt_setObjectHead head :
  utf8 (oh_Key head) ->
  ktriple kv_ok (setObjectHead head)
    (fun h db => head_written (oh_BucketID head) (oh_Key head) h db /\ oh_DeleteMarker h = oh_DeleteMarker head).
Proof.
  intros Hu. unfold setObjectHead. eapply kt_bind; [apply kt_getObjectHead|]. intros previous.
  set (h := head <| oh_Revision := _ |>). assert (oh_BucketID h = oh_BucketID head /\ oh_Key h = oh_Key head) as [HB HK] by done.
  eapply (kt_bind _ _ _ (fun _ db => head_written (oh_BucketID head) (oh_Key head) h db)).
  - apply kt_modify. intros s [[Hwf Hix] _]. rewrite headEntry_through_json by done. rewrite HB, HK.
    split_and!; [|by apply index_but_head|done..|by simpl; rewrite lookup_insert_eq].
    by apply (db_wf_insert _ (ObjectHeadOf _ _)).
  - intros _. apply kt_ret. done.
Qed.

Lemma kt_setListObject b k h : ktriple (head_written b k h) (setListObject h) (fun _ => kv_ok).
Proof.
  intros s (Hwf & Hix & HB & HK & Hu & Hh). unfold setListObject. destruct (oh_DeleteMarker h) eqn:Hd;
    [|unfold setJSON; rewrite listEntry_through_json by (by rewrite HK)]; simpl; rewrite HB, HK.
  - apply (kv_ok_set_list _ b k None); [done | done | by rewrite Hh; simpl; rewrite Hd | done].
  - apply (kv_ok_set_list _ b k (Some _)); [done | done| |].
    + rewrite Hh. cbn [index_entry ohe_DeleteMarker headEntryFromHead]. by rewrite Hd.
    + intros v [= <-]. by split.
Qed.

Lemma kt_deleteListObject b k h :
  oh_DeleteMarker h = true -> ktriple (head_written b k h) (tx_Delete (ListObjectKey b k)) (fun _ => kv_ok).
Proof.
  intros Hd s (Hwf & Hix & HB & HK & Hu & Hh). simpl. apply (kv_ok_set_list _ b k None); [done | done | | done].
  rewrite Hh. simpl. by rewrite Hd.
Qed.

(** The head is written, then its listing entry, then the rest. *)
Lemma ko_head_and_list {A} head (rest : ObjectHead -> KM A) R :
  utf8 (oh_Key head) -> (forall h, keeps_ok (rest h) R) ->
  keeps_ok (let! h := setObjectHead head in setListObject h ;;! rest h) R.
Proof.
  intros Hu Hrest. eapply kt_bind; [by apply kt_setObjectHead|]. intros h.
  eapply (kt_bind _ _ _ (fun _ => kv_ok)); [|intros _; apply Hrest]. eapply kt_conseq; [apply kt_setListObject | by intros db [? _] | done].
Qed.

Lemma ko_head_and_list_end head :
  utf8 (oh_Key head) -> keeps_ok (let! h := setObjectHead head in setListObject h) any.
Proof.
  intros Hu. eapply kt_bind; [by apply kt_setObjectHead|]. intros h.
  eapply kt_conseq; [apply kt_setListObject | by intros db [? _] | by intros].
Qed.

(** Both are deleted. *)
Lemma ko_delete_head_and_list {A} b k (rest : KM A) R :
  keeps_ok rest R -> keeps_ok (tx_Delete (ObjectHeadKey b k) ;;! tx_Delete (ListObjectKey b k) ;;! rest) R.
Proof.
  intros Hrest. eapply (kt_bind _ _ _ (fun _ db => db_wf db /\ index_but b k db /\ db !! ObjectHeadKey b k = None)).
  { apply kt_modify. intros s [Hwf Hix]. simpl. split_and!; [by apply db_wf_delete| |by rewrite lookup_delete_eq].
    intros b' k' Hne. unfold index_at. rewrite !lookup_delete_ne; [apply Hix | | by apply head_list_ne].
    intros Heq. by apply head_key_inj in Heq. }
  intros _. eapply (kt_bind _ _ _ (fun _ => kv_ok)); [|intros _; exact Hrest].
  intros s (Hwf & Hix & Hh). simpl. apply (kv_ok_set_list _ b k None); [done | done | by rewrite Hh | done].
Qed.

(** ** The remaining helpers *)

Create HintDb kv.
#[export] Hint Resolve ko_findVersionByID kt_getObjectHead ko_hydrateVersion ko_deleteManifestChunks ko_deleteProtectedRefs
  ko_syncProtectedRefs : kv.

(** Runs one step: a known helper before a bind, or a test. *)
Ltac ko_step :=
  lazymatch goal with
  | |- keeps_ok (st_ret _) _ => apply ko_ret; try done
  | |- keeps_ok (st_fail _) _ => apply ko_fail; done
  | |- keeps_ok (if _ then _ else _) _ => apply ko_if; intros ?
  | |- keeps_ok (st_bind _ _) _ => eapply ko_bind; [solve [eauto with kv]|]; intros ? ?
  | |- keeps_ok (require _ _) _ => eapply ko_require; [done|]; eauto with kv
  end.

Lemma ko_kv_now `{Env} : keeps_ok kv_now any.
Proof. intros s Hs. by split. Qed.

Lemma ko_validate r h : keeps_ok (st_lift (validateObjectLockState r h)) any.
Proof. apply ko_lift; [|done]. unfold validateObjectLockState. repeat case_match; done. Qed.

Lemma ko_scale l : keeps_ok (st_lift (ValidateObjectManifestScale l)) any.
Proof. apply ko_lift; [|done]. unfold ValidateObjectManifestScale. by case_match. Qed.

Lemma ko_fresh_id `{Env} {T} attempts kind (as_T : kvalue -> option T) key (fam : string -> entity) :
  (forall id, key id = key_of (fam id) /\ entity_ok (fam id) = true /\ forall v, typed (fam id) v -> exists x, as_T v = Some x) ->
  keeps_ok (kv_fresh_id attempts kind as_T key) any.
Proof.
  intros Hfam. induction attempts as [|attempts IH]; [by apply ko_fail|]. cbn [kv_fresh_id].
  eapply (ko_bind _ _ any); [intros s Hs; unfold kv_NewID; by destruct (env_newID _ _)|]. intros id _.
  destruct (Hfam id) as (-> & He & Ht). eapply (ko_bind _ _ (fun o => forall x, o = Some x -> any x)).
  { apply ko_getJSON; [done|]. intros v Hv. destruct (Ht v Hv) as [x Hx]. by exists x. }
  intros taken _. by apply ko_if; intros _; [|apply ko_ret].
Qed.

Lemma ko_nextObjectVersionID `{Env} b k : keeps_ok (nextObjectVersionID b k) any.
Proof.
  apply (ko_fresh_id _ _ _ _ (ObjectVersionOf b k)). intros id. split_and!; [done..|]. intros [] Ht; simpl in Ht; try contradiction. eauto.
Qed.

Lemma ko_getBucket b e :
  e <> ErrOther -> keeps_ok (require e (getJSON as_Bucket (BucketByIDKey b))) (fun x => bk_BucketID x = b).
Proof. intros He. apply ko_require; [done|]. apply (ko_getJSON _ (BucketByIDOf b)); [done|]. by typed_cases. Qed.

Lemma ko_appendAuditEvent `{Env} event : keeps_ok (appendAuditEvent event) any.
Proof.
  unfold appendAuditEvent, nextSequence, reserveSequences. eapply (ko_bind _ _ any).
  { apply ko_if; intros _; [by apply ko_fail|]. eapply (ko_bind _ _ (fun o => forall x, o = Some x -> any x)).
    { apply (ko_getJSON _ (SequenceOf _)); [done|]. by typed_cases. }
    intros r _. eapply (ko_bind _ _ any); [by apply (ko_setJSON (SequenceOf _))|]. intros. by apply ko_ret. }
  intros seq _. eapply (ko_bind _ _ (fun o => forall x, o = Some x -> any x)).
  { apply (ko_getJSON _ AuditHeadOf); [done|]. by typed_cases. }
  intros head _. eapply ko_bind; [apply ko_kv_now|]. intros t _.
  eapply (ko_bind _ _ any); [by apply (ko_setJSON (AuditEventOf _))|]. intros _ _. by apply (ko_setJSON AuditHeadOf).
Qed.

#[export] Hint Resolve ko_kv_now ko_validate ko_scale ko_nextObjectVersionID ko_appendAuditEvent : kv.

Lemma ko_governance_gate `{Env} p bypass audit event : keeps_ok (kv_governance_gate p bypass audit event) any.
Proof. unfold kv_governance_gate. repeat ko_step. auto with kv. Qed.

Lemma ko_checkKMS e : keeps_ok (checkDeleteKMSAdmission e) any.
Proof.
  unfold checkDeleteKMSAdmission. ko_step; [ko_step|]. cbv zeta. ko_step; [ko_step|].
  eapply (ko_bind _ _ (fun o => forall x, o = Some x -> any x)).
  { apply (ko_getJSON _ (KMSKeyOf _)); [done|]. by typed_cases. }
  intros [key|] _; repeat ko_step.
Qed.

Lemma ko_deleteObjectVersionRecord b k located :
  located_ok b k located -> keeps_ok (deleteObjectVersionRecord located.1 located.2) any.
Proof.
  intros (_ & _ & _ & sk & ->). unfold deleteObjectVersionRecord. eapply (ko_bind _ _ any).
  - apply ko_if; intros _; [|by apply ko_ret]. eapply (ko_bind _ _ any); [by apply (ko_delete (ObjectVersionByIDOf _ _))|]. auto with kv.
  - intros _ _. apply ko_if; intros _; [by apply ko_ret|]. by apply (ko_delete (ObjectVersionOf _ _ _)).
Qed.

Lemma ko_hydrateHeadManifest head :
  keeps_ok (hydrateHeadManifest head) (fun h => oh_BucketID h = oh_BucketID head /\ oh_Key h = oh_Key head).
Proof. unfold hydrateHeadManifest. repeat ko_step. destruct a as [[]|]; by apply ko_ret. Qed.

Lemma ko_latestCommittedVersion b k skip :
  keeps_ok (latestCommittedVersion b k skip)
    (fun o => forall v, o = Some v -> ov_BucketID v = b /\ ov_Key v = k /\ version_utf8 v).
Proof.
  unfold latestCommittedVersion, scanJSON.
  eapply (ko_bind _ _ (fun v => ov_VersionID v <> "" -> ov_BucketID v = b /\ ov_Key v = k /\ version_utf8 v)).
  { apply ko_scan; [done | done|]. intros e v He Ht. destruct (under_versions b k e He) as [sk ->].
    destruct v; simpl in Ht; try contradiction. rename version into x. exists x. split; [reflexivity|]. intros acc Hacc. simpl.
    repeat case_match; try done. destruct Ht as (? & ? & _ & Hu). unfold version_utf8. subst. auto. }
  intros v Hv. apply ko_if; intros Hne; [by apply ko_ret|]. apply String.eqb_neq in Hne. destruct (Hv Hne) as (HB & HK & Hu).
  eapply ko_bind; [apply ko_hydrateVersion|]. intros v' (HB' & HK' & _). apply ko_ret. intros ? [= <-].
  unfold version_utf8 in *. by rewrite HB', HK', HB, HK in *.
Qed.

#[export] Hint Resolve ko_governance_gate ko_checkKMS ko_hydrateHeadManifest ko_latestCommittedVersion
  ko_deleteObjectVersionRecord ko_setObjectVersion : kv.

(** ** The operations *)

Section Operations.
Context `{Env}.

Lemma ko_dropReplaced bucket b k currentHead versionID : keeps_ok (dropReplacedVersion bucket b k currentHead versionID) any.
Proof.
  unfold dropReplacedVersion. ko_step; [|ko_step]. ko_step. destruct a as [located|]; [|ko_step].
  pose proof (H1 located eq_refl) as Hl. destruct located as [oldKey old]. ko_step.
  apply (ko_deleteObjectVersionRecord b k (oldKey, old) Hl).
Qed.

Lemma ko_publishVersion bucket b k currentHead version t :
  version_utf8 version -> keeps_ok (publishVersion bucket b k currentHead version t) any.
Proof.
  intros Hu. unfold publishVersion. ko_step. apply ko_head_and_list; [exact Hu|]. intros h. ko_step.
  eapply ko_bind; [apply ko_dropReplaced|]. intros _ _. by apply ko_ret.
Qed.
End Operations.

(** ** Whole methods: the invariant after success and after failure *)

Definition op_ok {A} (m : KM A) : Prop :=
  forall s, kv_ok (kv_db s) -> kv_ok (kv_db (st_exec m s)) /\ (m s).1 <> Fail ErrOther.

Lemma op_ok_run {A} (fn : KM A) R : keeps_ok fn R -> op_ok (run fn).
Proof.
  intros Hfn s Hs. specialize (Hfn s Hs). unfold st_exec, run. destruct (fn s) as [[a|e] s']; simpl.
  - by destruct Hfn.
  - destruct Hfn. split; [done | congruence].
Qed.

Lemma op_ok_fail {A} e : e <> ErrOther -> op_ok (st_fail e : KM A).
Proof. intros He s Hs. split; [done | simpl; congruence]. Qed.

Lemma op_ok_if {A} (c : bool) (m1 m2 : KM A) : op_ok m1 -> op_ok m2 -> op_ok (if c then m1 else m2).
Proof. by destruct c. Qed.

Lemma op_ok_bind {A B} (m : KM A) (f : A -> KM B) : op_ok m -> (forall a, op_ok (f a)) -> op_ok (st_bind m f).
Proof.
  intros Hm Hf s Hs. destruct (Hm s Hs) as [H1 H2]. unfold st_exec, st_bind in *.
  destruct (m s) as [[a|e] s']; [by apply Hf | simpl in *; split; [done|congruence]].
Qed.

Lemma op_ok_ret {A} (a : A) : op_ok (st_ret a : KM A).
Proof. by intros s Hs. Qed.

Lemma op_ok_lift {A} (o : outcome Err A) : o <> Fail ErrOther -> op_ok (st_lift o : KM A).
Proof. by intros Ho s Hs. Qed.

Lemma op_ok_validate r h : op_ok (st_lift (validateObjectLockState r h)).
Proof. apply op_ok_lift. unfold validateObjectLockState. repeat case_match; done. Qed.

Lemma op_ok_scale l : op_ok (st_lift (ValidateObjectManifestScale l)).
Proof. apply op_ok_lift. unfold ValidateObjectManifestScale. by case_match. Qed.

#[export] Hint Resolve op_ok_validate op_ok_scale : kv.

Ltac op_step :=
  lazymatch goal with
  | |- op_ok (if _ then _ else _) => apply op_ok_if; [by apply op_ok_fail|]
  | |- op_ok (st_bind _ _) => apply op_ok_bind; [solve [auto with kv]|]; intros ?; cbv zeta
  | |- op_ok (run _) => eapply (op_ok_run _ any)
  end.

Section Methods.
Context `{Env}.

Lemma op_ok_now : op_ok kv_now.
Proof. by intros s Hs. Qed.
Hint Resolve op_ok_now : kv.

Lemma kv_CreateBucket_ok req : op_ok (CreateBucket req).
Proof.
  unfold CreateBucket. repeat op_step. eapply (ko_bind _ _ (fun o => forall x, o = Some x -> any x)).
  { apply (ko_getJSON _ (BucketByNameOf _)); [done|]. by typed_cases. }
  intros named _. ko_step; [by ko_step|]. eapply (ko_bind _ _ any).
  { apply (ko_fresh_id _ _ _ _ BucketByIDOf). intros id. split_and!; [done..|].
    intros [] Ht; simpl in Ht; try contradiction. eauto. }
  intros bucketID _. ko_step. cbv zeta. set (bucket := if _ : bool then _ else _).
  eapply (ko_bind _ _ any); [by apply (ko_setJSON (BucketByIDOf _))|]. intros _ _.
  eapply (ko_bind _ _ any); [by apply (ko_setJSON (BucketByNameOf _))|]. intros _ _. by apply ko_ret.
Qed.

Lemma GetBucketByName_ok name : op_ok (GetBucketByName name).
Proof.
  unfold GetBucketByName. op_step. eapply (ko_bind _ _ any).
  { apply ko_require; [done|]. apply (ko_getJSON _ (BucketByNameOf _)); [done|]. by typed_cases. }
  intros b _. eapply ko_weaken; [by apply ko_getBucket | done].
Qed.

Lemma kv_PutBucketVersioning_ok req : op_ok (PutBucketVersioning req).
Proof.
  unfold PutBucketVersioning. repeat op_step. eapply ko_bind; [by apply ko_getBucket|]. intros bucket Hb. ko_step; [by ko_step|].
  cbv zeta. eapply (ko_bind _ _ any); [by apply (ko_setJSON (BucketByIDOf _))|]. intros _ _. by apply ko_ret.
Qed.

(** The quota key of a bucket that were called like a directory of buckets would
    be a bucket's name or identifier; it still is no part of the index. *)
Lemma ko_delete_quota b : keeps_ok (tx_Delete (BucketQuotaKey b)) any.
Proof.
  destruct (entity_ok (BucketQuotaOf b)) eqn:Hok; [by apply (ko_delete (BucketQuotaOf b))|].
  simpl in Hok. apply andb_false_iff in Hok as [Hb|Hb]; apply negb_false_iff, String.eqb_eq in Hb; subst b.
  - by apply (ko_delete (BucketByNameOf "quota")).
  - by apply (ko_delete (BucketByIDOf "quota")).
Qed.

Lemma kv_DeleteBucket_ok b : op_ok (DeleteBucket b).
Proof.
  unfold DeleteBucket, scanJSON. op_step. eapply ko_bind; [by apply ko_getBucket|]. intros bucket Hb.
  eapply (ko_bind _ _ any).
  { apply ko_scan; [by rewrite objectHeadPrefix_eq | done|]. intros e v He Ht. destruct (under_heads b e He) as [k ->].
    destruct v; simpl in Ht; try contradiction. by eexists. }
  intros empty _. eapply (ko_bind _ _ any).
  { apply ko_if; intros _; [|by apply ko_ret]. apply ko_scan; [done | done|]. intros e v He Ht.
    destruct (under_bucket_versions b e He) as (k & sk & ->). destruct v; simpl in Ht; try contradiction. by eexists. }
  intros empty' _. ko_step; [by ko_step|].
  eapply (ko_bind _ _ any); [by apply (ko_delete (BucketByIDOf _))|]. intros _ _.
  eapply (ko_bind _ _ any); [|intros _ _; by apply (ko_delete (BucketByNameOf _))].
  apply ko_delete_quota.
Qed.

Lemma kv_BeginPutObject_ok req : utf8 (bpo_Key req) -> op_ok (BeginPutObject req).
Proof.
  intros Hu. unfold BeginPutObject. repeat op_step. eapply ko_bind; [by apply ko_getBucket|]. intros _ _.
  ko_step. eapply (ko_bind _ _ any).
  { destruct a1; [|by apply ko_ret]. eapply ko_weaken; [apply ko_hydrateHeadManifest | done]. }
  intros currentHead _. do 2 ko_step. cbv zeta. eapply (ko_bind _ _ any); [by apply ko_setObjectVersion|]. intros. by apply ko_ret.
Qed.

(** The error of a hydration is dropped; the store keeps the invariant. *)
Lemma ko_hydrateHeadOrZero head : keeps_ok (hydrateHeadOrZero head) any.
Proof.
  intros s Hs. pose proof (ko_hydrateHeadManifest head s Hs) as Hh. unfold hydrateHeadOrZero.
  destruct (hydrateHeadManifest head s) as [[h|e] s']; by destruct Hh.
Qed.

Lemma kv_PutObjectVersion_ok req : utf8 (bpo_Key req) -> op_ok (PutObjectVersion req).
Proof.
  intros Hu. unfold PutObjectVersion. repeat op_step. eapply ko_bind; [by apply ko_getBucket|]. intros bucket _.
  ko_step. eapply (ko_bind _ _ any).
  { destruct a1; [|by apply ko_ret]. eapply ko_weaken; [apply ko_hydrateHeadManifest | done]. }
  intros currentHead _. do 2 ko_step. cbv zeta. eapply (ko_bind _ _ any); [by apply ko_publishVersion|]. intros. by apply ko_ret.
Qed.

Lemma kv_CommitObjectVersion_ok req : op_ok (CommitObjectVersion req).
Proof.
  unfold CommitObjectVersion. repeat op_step. eapply ko_bind; [by apply ko_getBucket|]. intros bucket _.
  ko_step. cbv zeta. ko_step; [by ko_step|].
  eapply (ko_bind _ _ (fun l => located_ok (cov_BucketID req) (cov_Key req) l)); [repeat ko_step|]. intros located Hl.
  ko_step; [apply ko_hydrateHeadOrZero|]. ko_step. apply ko_publishVersion. apply Hl.
Qed.

Lemma ko_getHead b k :
  keeps_ok (require ErrNotFound (getObjectHead b k)) (fun h => oh_BucketID h = b /\ oh_Key h = k /\ utf8 k).
Proof. by apply ko_require; [|apply kt_getObjectHead]. Qed.

Lemma GetObjectHead_ok b k : op_ok (GetObjectHead b k).
Proof.
  unfold GetObjectHead. op_step. eapply (ko_bind _ _ any); [|intros; apply ko_hydrateHeadOrZero].
  eapply ko_weaken; [apply ko_getHead | done].
Qed.

Lemma ko_locate b k v : keeps_ok (require ErrNotFound (findVersionByID b k v)) (located_ok b k).
Proof. by apply ko_require; [|apply ko_findVersionByID]. Qed.

Lemma GetObjectVersion_ok b k v : op_ok (GetObjectVersion b k v).
Proof. unfold GetObjectVersion. op_step. eapply ko_bind; [apply ko_locate|]. intros. by apply ko_ret. Qed.

Lemma ko_createDeleteMarker req : utf8 (dor_Key req) -> keeps_ok (createDeleteMarker req) any.
Proof.
  intros Hu. unfold createDeleteMarker. do 2 ko_step. cbv zeta.
  eapply (ko_bind _ _ any); [by apply ko_setObjectVersion|]. intros _ _.
  eapply kt_bind; [by apply kt_setObjectHead|]. intros h.
  eapply (kt_bind _ _ _ (fun _ => kv_ok)); [|intros _; by apply ko_ret].
  intros s [Hw Hd]. by apply (kt_deleteListObject _ _ h).
Qed.

Lemma ko_promoteLatest b k v : keeps_ok (promoteLatest b k v) any.
Proof.
  unfold promoteLatest. ko_step. destruct a as [p|]; [destruct (H0 p eq_refl) as (HB & HK & Hu)|].
  - eapply kt_bind; [by apply kt_setObjectHead|]. intros h. simpl. rewrite HB, HK. destruct (ov_DeleteMarker p) eqn:Hd.
    + intros s [Hw Hdm]. pose proof (kt_deleteListObject _ _ h Hdm s Hw). done.
    + intros s [Hw _]. pose proof (kt_setListObject _ _ h s Hw) as Ht. destruct (setListObject h s) as [[u|e] s']; [by split | done].
  - assert (keeps_ok (tx_Delete (ObjectHeadKey b k);;! tx_Delete (ListObjectKey b k);;! st_ret tt) any) as Hk
      by (apply ko_delete_head_and_list; by apply ko_ret).
    intros s Hs. by apply (Hk s Hs).
Qed.

Lemma ko_deleteObjectVersion req t : keeps_ok (deleteObjectVersion req t) any.
Proof.
  unfold deleteObjectVersion. eapply ko_bind; [apply ko_locate|]. intros located Hl. cbv zeta. do 5 ko_step.
  eapply (ko_bind _ _ any); [|intros; by apply ko_ret]. apply ko_if; intros _; [apply ko_promoteLatest | by apply ko_ret].
Qed.

Lemma kv_DeleteObject_ok req : utf8 (dor_Key req) -> op_ok (DeleteObject req).
Proof.
  intros Hu. unfold DeleteObject. repeat op_step. eapply ko_bind; [by apply ko_getBucket|]. intros bucket _.
  ko_step; [ko_step; apply ko_deleteObjectVersion|]. ko_step. ko_step.
  - eapply (ko_bind _ _ any); [destruct a; [auto with kv | by apply ko_ret]|]. intros _ _. by apply ko_createDeleteMarker.
  - destruct a as [head|]; [|by apply ko_ret]. do 3 ko_step. apply ko_delete_head_and_list. ko_step.
    destruct a2 as [located|]; [|by apply ko_ret]. destruct located as [versionKey deleted]. ko_step.
    eapply (ko_bind _ _ any); [|intros; by apply ko_ret].
    match goal with Hl : forall l, _ = Some l -> _ |- _ =>
      apply (ko_deleteObjectVersionRecord _ _ (versionKey, deleted) (Hl _ eq_refl)) end.
Qed.

Lemma GetObjectTags_ok req : op_ok (GetObjectTags req).
Proof.
  unfold GetObjectTags. repeat op_step. apply ko_if; intros _.
  - eapply ko_bind; [apply ko_locate|]. intros. repeat ko_step.
  - eapply ko_bind; [apply ko_getHead|]. intros. by apply ko_ret.
Qed.

Lemma kv_PutObjectTags_ok req : op_ok (PutObjectTags req).
Proof.
  unfold PutObjectTags. op_step. cbv zeta. op_step. apply ko_if; intros _.
  - eapply ko_bind; [apply ko_locate|]. intros located Hl. ko_step; [by ko_step|].
    eapply (ko_bind _ _ any); [apply ko_setObjectVersion; apply Hl|]. intros _ _. ko_step.
    destruct a as [head|]; [|by apply ko_ret]. destruct (H1 head eq_refl) as (HB & HK & Hu).
    ko_step; [|by ko_step]. apply ko_head_and_list_end. simpl. by rewrite HK.
  - eapply ko_bind; [apply ko_getHead|]. intros head (HB & HK & Hu). apply ko_head_and_list; [simpl; by rewrite HK|].
    intros h. ko_step; [by ko_step|]. ko_step. destruct a as [[versionKey version]|]; [|by apply ko_ret].
    apply ko_setObjectVersion. match goal with Hl : forall l, _ = Some l -> _ |- _ => apply (Hl _ eq_refl) end.
Qed.

Lemma DeleteObjectTags_ok req : op_ok (DeleteObjectTags req).
Proof. apply kv_PutObjectTags_ok. Qed.

Lemma ko_objectLockTarget b k v : keeps_ok (objectLockTarget b k v) (located_ok b k).
Proof.
  unfold objectLockTarget. eapply (ko_bind _ _ any).
  { apply ko_if; intros _; [|by apply ko_ret]. eapply ko_bind; [apply ko_getHead|]. intros. repeat ko_step. }
  intros v' _. eapply ko_bind; [apply ko_locate|]. intros located Hl. ko_step; [by ko_step|]. by apply ko_ret.
Qed.

Lemma ko_updateHeadObjectLock version : keeps_ok (updateHeadObjectLock version) any.
Proof.
  unfold updateHeadObjectLock. ko_step. destruct a as [head|]; [|by apply ko_ret]. destruct (H0 head eq_refl) as (HB & HK & Hu).
  ko_step; [by ko_step|]. eapply kt_bind; [apply kt_setObjectHead; simpl; by rewrite HK|]. intros h. simpl. rewrite HB, HK.
  destruct (oh_DeleteMarker h) eqn:Hd.
  - intros s [Hw _]. pose proof (kt_deleteListObject _ _ h Hd s Hw). done.
  - intros s [Hw _]. pose proof (kt_setListObject _ _ h s Hw) as Ht. destruct (setListObject h s) as [[u|e] s']; [by split | done].
Qed.
Hint Resolve ko_updateHeadObjectLock ko_objectLockTarget : kv.

Lemma GetObjectRetention_ok req : op_ok (GetObjectRetention req).
Proof. unfold GetObjectRetention. repeat op_step. ko_step. by apply ko_ret. Qed.

Lemma GetObjectLegalHold_ok req : op_ok (GetObjectLegalHold req).
Proof. unfold GetObjectLegalHold. repeat op_step. ko_step. by apply ko_ret. Qed.

Lemma kv_PutObjectRetention_ok req : op_ok (PutObjectRetention req).
Proof.
  unfold PutObjectRetention. repeat op_step. ko_step. cbv zeta. ko_step.
  eapply (ko_bind _ _ any).
  { apply ko_setObjectVersion. match goal with Hl : located_ok _ _ _ |- _ => apply Hl end. }
  intros _ _. do 2 ko_step. auto with kv.
Qed.

Lemma kv_PutObjectLegalHold_ok req : op_ok (PutObjectLegalHold req).
Proof.
  unfold PutObjectLegalHold. repeat op_step. ko_step. cbv zeta. eapply (ko_bind _ _ any).
  { apply ko_setObjectVersion. match goal with Hl : located_ok _ _ _ |- _ => apply Hl end. }
  intros _ _. do 3 ko_step. auto with kv.
Qed.
End Methods.
