(* ===== verification/KvMetaInv.v ===== *)
(** * KvMetaInv: the administrative, multipart and operational methods keep the invariant

    The methods of [KvMeta], [KvMultipart] and [KvOps] preserve [kv_ok] and never fail to
    decode a record; at the end, sequences of calls of the whole repository. *)

From S2P Require Import Prelude GoLib GoText Sha256 StorageTypes Model Requests Encoding Meta Manifest Repo RepoBuckets RepoMultipart.
From S2P Require Import RepoOps Keyspace KvStore KvRepo KvObjects KvMeta KvMultipart KvOps KvInv.
Open Scope string_scope.
Open Scope Z_scope.

(** ** Reads and writes by family *)

(** What was read is typed as the family of its key says. *)
Definition read_from {T} (as_T : kvalue -> option T) (e : entity) (o : option T) : Prop :=
  forall x, o = Some x -> exists v, as_T v = Some x /\ typed e v.

Lemma ko_family {T} (as_T : kvalue -> option T) e :
  entity_ok e = true -> (forall v, typed e v -> is_Some (as_T v)) -> keeps_ok (getJSON as_T (key_of e)) (read_from as_T e).
Proof.
  intros He HT. apply (ko_getJSON _ _ (fun x => exists v, as_T v = Some x /\ typed e v)); [done|].
  intros v Hv. destruct (HT v Hv) as [x Hx]. eauto.
Qed.

(** The family of a key builder. *)
Ltac family k :=
  lazymatch k with
  | MetadataSchemaKey => constr:(MetadataSchemaOf)
  | TenantKey ?x => constr:(TenantOf x)
  | TenantQuotaKey ?x => constr:(TenantQuotaOf x)
  | TenantUsageKey ?x => constr:(TenantUsageOf x)
  | AccessKeyKey ?x => constr:(AccessKeyOf x)
  | KMSKeyKey ?x => constr:(KMSKeyOf x)
  | ComplianceProfileAttachmentKey ?x => constr:(ComplianceProfileAttachmentOf x)
  | BucketByIDKey ?x => constr:(BucketByIDOf x)
  | BucketQuotaKey ?x => constr:(BucketQuotaOf x)
  | MultipartUploadKey ?b ?u => constr:(MultipartUploadOf b u)
  | MultipartUploadByKeyKey ?b ?k ?u => constr:(MultipartUploadByKeyOf b k u)
  | MultipartCompletionKey ?b ?u => constr:(MultipartCompletionOf b u)
  | MultipartPartKey ?b ?u ?n => constr:(MultipartPartOf b u n)
  | AuditEventKey ?x => constr:(AuditEventOf x)
  | AuditHeadKey => constr:(AuditHeadOf)
  | sequenceKey ?x => constr:(SequenceOf x)
  | GCCandidateKey ?x => constr:(GCCandidateOf x)
  | GCOperationKey ?x => constr:(GCOperationOf x)
  | DedupeOperationKey ?x => constr:(DedupeOperationOf x)
  | DedupeOperationLockKey ?x => constr:(DedupeOperationLockOf x)
  | SharedObjectReleaseKey ?x ?y => constr:(SharedObjectReleaseOf x y)
  | VolumePoolKey ?x => constr:(VolumePoolOf x)
  | VolumeDrainOperationKey ?x => constr:(VolumeDrainOperationOf x)
  | MetadataMigrationOperationKey ?x => constr:(MetadataMigrationOperationOf x)
  | WorkerLeaseKey ?x ?y => constr:(WorkerLeaseOf x y)
  | WorkerOperationKey ?x => constr:(WorkerOperationOf x)
  | WorkerControlKey ?x ?y => constr:(WorkerControlOf x y)
  end.

Ltac read_family := let v := fresh in intros v; destruct v; simpl; intros; try contradiction; eexists; reflexivity.

(** One step of a transaction; what is left are the type of a written record and
    tests that depend on what was read. *)
Ltac ko_tx :=
  cbv zeta;
  lazymatch goal with
  | |- keeps_ok (getJSON _ ?k) _ => let e := family k in
      first [apply (ko_family _ e) | eapply ko_weaken; [apply (ko_family _ e)|by intros]]; [try done | read_family]
  | |- keeps_ok (setJSON ?k _) _ => let e := family k in apply (ko_setJSON e); [try done | done | try done]
  | |- keeps_ok (tx_Delete ?k) _ => let e := family k in apply (ko_delete e); [try done | done]
  | |- keeps_ok (require _ _) _ => apply ko_require; [done|]
  | |- keeps_ok (st_ret _) _ => apply ko_ret; try done
  | |- keeps_ok (st_fail _) _ => apply ko_fail; done
  | |- keeps_ok (if _ then _ else _) _ => apply ko_if; intros ?
  | |- keeps_ok (st_bind _ _) _ => eapply ko_bind; [solve [eauto with kv] || ko_tx | intros ? ?]
  | |- keeps_ok _ _ => solve [eauto with kv]
  end.

(** What a read of a record says about it. *)
Ltac read_record :=
  match goal with
  | Hr : read_from _ _ ?o |- _ => destruct o; [destruct (Hr _ eq_refl) as ([] & ? & ?); simpl in *; simplify_eq; try contradiction|]
  end.

Section Methods.
Context `{Env}.

Lemma ko_kv_wall : keeps_ok kv_wall any.
Proof. intros s Hs. by split. Qed.
Hint Resolve ko_kv_wall : kv.

Lemma ko_getTenant id : keeps_ok (getTenant id) any.
Proof.
  unfold getTenant. apply ko_require; [done|]. eapply ko_weaken; [ko_tx | done].
Qed.
Hint Resolve ko_getTenant : kv.

Lemma ko_bucket id : keeps_ok (getBucket id) (fun b => bk_BucketID b = id).
Proof. by apply ko_getBucket. Qed.
Hint Resolve ko_bucket : kv.

Lemma ko_updateBucket id f : (forall b, bk_BucketID (f b) = bk_BucketID b) -> keeps_ok (updateBucket id f) any.
Proof. intros Hf. unfold updateBucket. repeat ko_tx. Qed.
Hint Extern 1 (keeps_ok (updateBucket _ _) _) => apply ko_updateBucket; by intros : kv.

(** Validations and builders do not fail with a decoding error. *)
Ltac pure_fails d := let Heq := fresh in unfold d; cbv zeta; intros Heq; repeat case_match; done.

Lemma build_quota_pure w e req t : BuildTenantQuota w e req t <> Fail ErrOther.
Proof. pure_fails BuildTenantQuota. Qed.
Lemma build_usage_pure w e req t : BuildTenantUsage w e req t <> Fail ErrOther.
Proof. pure_fails BuildTenantUsage. Qed.
Lemma build_bucket_quota_pure w e req t : BuildBucketQuota w e req t <> Fail ErrOther.
Proof. pure_fails BuildBucketQuota. Qed.
Lemma upload_delta_pure w e id d t : ApplyTenantActiveUploadDelta w e id d t <> Fail ErrOther.
Proof. pure_fails ApplyTenantActiveUploadDelta. Qed.
Lemma schema_pure req t e : MetadataSchemaRecordFromRequest req t e <> Fail ErrOther.
Proof.
  unfold MetadataSchemaRecordFromRequest. cbv zeta. destruct (ValidateMetadataSchemaRecord _) as [|e'] eqn:Hv; [done|].
  intros [= ->]. revert Hv. unfold ValidateMetadataSchemaRecord. repeat case_match; done.
Qed.
Lemma profile_pure req : validateComplianceProfileAttachmentRequest req <> Fail ErrOther.
Proof. pure_fails validateComplianceProfileAttachmentRequest. Qed.
Lemma lifecycle_pure c : validateBucketLifecycleConfiguration c <> Fail ErrOther.
Proof. pure_fails validateBucketLifecycleConfiguration. Qed.
Lemma encryption_pure c : ValidateBucketEncryption c <> Fail ErrOther.
Proof. pure_fails ValidateBucketEncryption. Qed.
Lemma bucket_lock_pure c : validateBucketObjectLockConfiguration c <> Fail ErrOther.
Proof. pure_fails validateBucketObjectLockConfiguration. Qed.
Lemma part_count_pure n : ValidateCompletedMultipartPartCount n <> Fail ErrOther.
Proof. pure_fails ValidateCompletedMultipartPartCount. Qed.
Lemma part_selection_pure l : ValidateMultipartPartNumberSelection l <> Fail ErrOther.
Proof.
  unfold ValidateMultipartPartNumberSelection. destruct (_ || _); [done|]. generalize (@nil Z).
  induction l as [|n l IH]; intros seen; [done|]. cbn [check_part_numbers]. case_match; [done|]. case_match; [done | apply IH].
Qed.

Lemma build_quota_id w e req t q : BuildTenantQuota w e req t = Ok q -> tq_TenantID q = tqr_TenantID req.
Proof. unfold BuildTenantQuota. repeat case_match; intros; by simplify_eq. Qed.
Lemma build_usage_id w e req t q : BuildTenantUsage w e req t = Ok q -> tu_TenantID q = tur_TenantID req.
Proof. unfold BuildTenantUsage. repeat case_match; intros; by simplify_eq. Qed.
Lemma upload_delta_id w e id d t q : ApplyTenantActiveUploadDelta w e id d t = Ok q -> tu_TenantID q = id.
Proof. unfold ApplyTenantActiveUploadDelta. repeat case_match; intros; by simplify_eq. Qed.

Hint Resolve build_quota_pure build_usage_pure build_bucket_quota_pure upload_delta_pure schema_pure profile_pure
  lifecycle_pure encryption_pure bucket_lock_pure part_count_pure part_selection_pure : kv.

Lemma ko_builder {A} (o : outcome Err A) : o <> Fail ErrOther -> keeps_ok (st_lift o) (fun a => o = Ok a).
Proof. intros Ho. by apply ko_lift. Qed.
Hint Resolve ko_builder : kv.
Lemma op_ok_builder {A} (o : outcome Err A) : o <> Fail ErrOther -> op_ok (st_lift o).
Proof. apply op_ok_lift. Qed.
Hint Resolve op_ok_builder op_ok_now : kv.

(** ** The methods of [KvMeta] *)

Ltac meta_op := cbv zeta; repeat op_step; repeat ko_tx.

Lemma GetMetadataSchema_ok : op_ok GetMetadataSchema.
Proof. unfold GetMetadataSchema. meta_op. Qed.
Lemma PutMetadataSchema_ok req : op_ok (PutMetadataSchema req).
Proof. unfold PutMetadataSchema. meta_op. Qed.
Lemma CreateTenant_ok req : op_ok (CreateTenant req).
Proof. unfold CreateTenant. meta_op. Qed.
Lemma GetTenant_ok id : op_ok (GetTenant id).
Proof. unfold GetTenant. meta_op. Qed.

Lemma PutTenantQuota_ok req : op_ok (PutTenantQuota req).
Proof. unfold PutTenantQuota. meta_op. simpl in *. eauto using build_quota_id. Qed.
Lemma GetTenantQuota_ok id : op_ok (GetTenantQuota id).
Proof. unfold GetTenantQuota. meta_op. Qed.
Lemma DeleteTenantQuota_ok id : op_ok (DeleteTenantQuota id).
Proof. unfold DeleteTenantQuota. meta_op. Qed.
Lemma PutTenantUsage_ok req : op_ok (PutTenantUsage req).
Proof. unfold PutTenantUsage. meta_op. simpl in *. eauto using build_usage_id. Qed.
Lemma GetTenantUsage_ok id : op_ok (GetTenantUsage id).
Proof. unfold GetTenantUsage. meta_op. Qed.
Lemma PutAccessKey_ok req : op_ok (PutAccessKey req).
Proof.
  unfold PutAccessKey. do 2 op_step. apply op_ok_bind; [op_step; ko_tx | intros; apply op_ok_ret].
Qed.
Lemma GetAccessKey_ok id : op_ok (GetAccessKey id).
Proof. unfold GetAccessKey. meta_op. Qed.
Lemma PutKMSKey_ok req : op_ok (PutKMSKey req).
Proof.
  unfold PutKMSKey. cbv zeta. destruct (String.eqb_spec (TrimSpace (pkk_KeyID req)) ""); [by apply op_ok_fail|]. meta_op.
  read_record; destruct_and?; (split; [reflexivity|]; simpl; field_simpl; congruence).
Qed.
Lemma GetKMSKey_ok id : op_ok (GetKMSKey id).
Proof. unfold GetKMSKey. meta_op. Qed.
Lemma PutComplianceProfileAttachment_ok req : op_ok (PutComplianceProfileAttachment req).
Proof.
  unfold PutComplianceProfileAttachment. destruct (validateComplianceProfileAttachmentRequest req) as [[]|e] eqn:Hv.
  2:{ intros s Hs. split; [done|]. cbn. intros [= ->]. by apply profile_pure in Hv. }
  assert (TrimSpace (pcp_ProfileID req) <> "") as Hid.
  { intros Hid. unfold validateComplianceProfileAttachmentRequest in Hv. by rewrite Hid in Hv. }
  meta_op. read_record; destruct_and?; (split; [reflexivity|]; simpl; field_simpl; congruence).
Qed.
Lemma PutBucketCORS_ok req : op_ok (PutBucketCORS req).
Proof. unfold PutBucketCORS. meta_op. Qed.
Lemma GetBucketCORS_ok id : op_ok (GetBucketCORS id).
Proof. unfold GetBucketCORS. meta_op. Qed.
Lemma DeleteBucketCORS_ok id : op_ok (DeleteBucketCORS id).
Proof. unfold DeleteBucketCORS. meta_op. Qed.
Lemma PutBucketLifecycle_ok req : op_ok (PutBucketLifecycle req).
Proof. unfold PutBucketLifecycle. meta_op. Qed.
Lemma GetBucketLifecycle_ok id : op_ok (GetBucketLifecycle id).
Proof. unfold GetBucketLifecycle. meta_op. Qed.
Lemma DeleteBucketLifecycle_ok id audit : op_ok (DeleteBucketLifecycle id audit).
Proof. unfold DeleteBucketLifecycle. meta_op. Qed.
Lemma PutBucketEncryption_ok req : op_ok (PutBucketEncryption req).
Proof. unfold PutBucketEncryption. meta_op. Qed.
Lemma GetBucketEncryption_ok id : op_ok (GetBucketEncryption id).
Proof. unfold GetBucketEncryption. meta_op. Qed.
Lemma DeleteBucketEncryption_ok id audit : op_ok (DeleteBucketEncryption id audit).
Proof. unfold DeleteBucketEncryption. meta_op. Qed.
Lemma PutBucketPolicy_ok req : op_ok (PutBucketPolicy req).
Proof. unfold PutBucketPolicy. meta_op. Qed.
Lemma GetBucketPolicy_ok id : op_ok (GetBucketPolicy id).
Proof. unfold GetBucketPolicy. meta_op. Qed.
Lemma DeleteBucketPolicy_ok id audit : op_ok (DeleteBucketPolicy id audit).
Proof. unfold DeleteBucketPolicy. meta_op. Qed.
Lemma PutBucketObjectLock_ok req : op_ok (PutBucketObjectLock req).
Proof. unfold PutBucketObjectLock. meta_op. Qed.
Lemma GetBucketObjectLock_ok id : op_ok (GetBucketObjectLock id).
Proof. unfold GetBucketObjectLock. meta_op. Qed.

(** The two words of the bucket directory are no bucket identifiers. *)
Lemma PutBucketQuota_ok req : entity_ok (BucketQuotaOf (bqr_BucketID req)) = true -> op_ok (PutBucketQuota req).
Proof. intros Hq. unfold PutBucketQuota. meta_op. Qed.
Lemma GetBucketQuota_ok id : entity_ok (BucketQuotaOf id) = true -> op_ok (GetBucketQuota id).
Proof. intros Hq. unfold GetBucketQuota. meta_op. Qed.
Lemma DeleteBucketQuota_ok id : entity_ok (BucketQuotaOf id) = true -> op_ok (DeleteBucketQuota id).
Proof. intros Hq. unfold DeleteBucketQuota. meta_op. Qed.

(** ** Multipart uploads *)

Lemma ko_enforce id : keeps_ok (enforceTenantActiveUploadQuota id) any.
Proof. unfold enforceTenantActiveUploadQuota. repeat (ko_tx || case_match). Qed.

Lemma ko_applyDelta id delta t : keeps_ok (applyTenantActiveUploadDelta id delta t) any.
Proof.
  unfold applyTenantActiveUploadDelta. repeat (ko_tx || case_match). simpl in *. eauto using upload_delta_id.
Qed.

Lemma ko_applyDeltaForBucket b delta t : keeps_ok (applyTenantActiveUploadDeltaForBucket b delta t) any.
Proof. unfold applyTenantActiveUploadDeltaForBucket. repeat (ko_tx || case_match). apply ko_applyDelta. Qed.

Lemma ko_nextUploadID b : keeps_ok (nextMultipartUploadID b) any.
Proof.
  apply (ko_fresh_id _ _ _ _ (MultipartUploadOf b)). intros id. split_and!; [done..|]. read_family.
Qed.
Hint Resolve ko_enforce ko_applyDelta ko_applyDeltaForBucket ko_nextUploadID : kv.

Definition upload_texts (upload : MultipartUpload) : Prop := utf8 (mu_Key upload).

Lemma ko_setUpload upload : upload_texts upload -> keeps_ok (setMultipartUpload upload) any.
Proof. intros Hu. unfold setMultipartUpload. repeat ko_tx. simpl. unfold upload_texts, utf8 in *. by rewrite !Hu. Qed.

Lemma ko_getUpload req :
  keeps_ok (getUpload req) (fun u => mu_BucketID u = mur_BucketID req /\ mu_UploadID u = mur_UploadID req /\ mu_Key u = mur_Key req /\ upload_texts u).
Proof.
  unfold getUpload. repeat ko_tx. destruct H1 as ([] & ? & Ht); simpl in *; simplify_eq; try contradiction.
  destruct Ht as (? & ? & ?). apply negb_false_iff, String.eqb_eq in H2. by split_and!.
Qed.
Hint Resolve ko_getUpload : kv.

Lemma ko_getActiveUpload req :
  keeps_ok (getActiveUpload req) (fun u => mu_BucketID u = mur_BucketID req /\ mu_UploadID u = mur_UploadID req /\ mu_Key u = mur_Key req /\ upload_texts u).
Proof. unfold getActiveUpload. repeat ko_tx. Qed.
Hint Resolve ko_getActiveUpload ko_setUpload : kv.

Lemma CreateMultipartUpload_ok req : utf8 (cmu_Key req) -> op_ok (CreateMultipartUpload req).
Proof. intros Hu. unfold CreateMultipartUpload. meta_op. Qed.
Lemma GetMultipartUpload_ok req : op_ok (GetMultipartUpload req).
Proof. unfold GetMultipartUpload. op_step. eapply ko_weaken; [apply ko_getUpload | done]. Qed.

Lemma summary_texts upload part previous t : upload_texts upload -> upload_texts (ApplyMultipartPartSummary upload part previous t).
Proof. unfold upload_texts, ApplyMultipartPartSummary. by destruct previous; simpl; case_match. Qed.

Lemma PutMultipartPart_ok req : op_ok (PutMultipartPart req).
Proof.
  unfold PutMultipartPart. destruct (_ || (MaxMultipartParts <? _)) eqn:Hargs; [by apply op_ok_fail|].
  assert ((0 <=? pmp_PartNumber req) = true) as Hn by lia. op_step.
  eapply ko_bind; [apply ko_getActiveUpload|]. intros upload (_ & _ & _ & Hu). repeat ko_tx. eapply ko_bind; [by apply ko_setUpload, summary_texts|].
  intros. ko_tx.
Qed.

Lemma partPrefix_eq b u : partPrefix b u = join_slash ["" ; "namros"; "v1"; "buckets"; escape b; "multipart"; escape u; "parts"; ""].
Proof.
  unfold partPrefix. assert (MultipartPartKey b u 0 = join_slash ["" ; "namros"; "v1"; "buckets"; escape b; "multipart"; escape u; "parts"; ""] +:+ "00000") as ->.
  { autounfold with keys. cbn [join_slash]. str_norm. done. }
  apply TrimSuffix_app.
Qed.

Lemma under_parts b u e : under (partPrefix b u) e -> exists n, e = MultipartPartOf b u n.
Proof.
  rewrite partPrefix_eq. prefix_segments [""; "namros"; "v1"; "buckets"; escape b; "multipart"; escape u; "parts"]. eauto.
Qed.

Lemma ko_listParts req : keeps_ok (listParts req) any.
Proof.
  unfold listParts. eapply (ko_bind _ _ any); [|intros; by apply ko_ret]. apply ko_scan; [by rewrite partPrefix_eq | done|].
  intros e v He Ht. destruct (under_parts _ _ e He) as [n ->]. destruct v; simpl in Ht; try contradiction. by eexists.
Qed.
Hint Resolve ko_listParts : kv.

Lemma ListMultipartParts_ok req : op_ok (ListMultipartParts req).
Proof. unfold ListMultipartParts. meta_op. Qed.

Lemma ko_get_parts b u l : Forall (fun n => 0 <= n) l -> keeps_ok (get_parts b u l) any.
Proof.
  induction 1 as [|n l Hn Hl IH]; [by apply ko_ret|]. cbn [get_parts]. assert ((0 <=? n) = true) by lia.
  eapply ko_bind; [ko_tx|]. intros part _. eapply ko_bind; [exact IH|]. intros. ko_tx.
Qed.

Lemma selected_parts l : ValidateMultipartPartNumberSelection l = Ok tt -> Forall (fun n => 0 <= n) l.
Proof.
  unfold ValidateMultipartPartNumberSelection. destruct (_ || _); [done|]. generalize (@nil Z).
  induction l as [|n l IH]; intros seen; [by constructor|]. cbn [check_part_numbers]. destruct (_ || _) eqn:Hn; [done|].
  case_bool_decide; [done|]. intros Hl. constructor; [lia | by eapply IH].
Qed.

Lemma GetMultipartParts_ok req : op_ok (GetMultipartParts req).
Proof.
  unfold GetMultipartParts. op_step. destruct (ValidateMultipartPartNumberSelection (gmp_PartNumbers req)) as [[]|e] eqn:Hv.
  - apply op_ok_bind; [by apply op_ok_lift|]. intros []. op_step. eapply ko_bind; [apply ko_getActiveUpload|]. intros.
    by apply ko_get_parts, selected_parts.
  - intros s Hs. split; [done|]. cbn. intros [= ->]. by apply part_selection_pure in Hv.
Qed.

Definition completion_texts (r : MultipartCompletionRecord) : Prop := utf8 (mcr_Key r).

Lemma ko_getCompletion b k u :
  keeps_ok (getCompletion b k u) (fun r => mcr_BucketID r = b /\ mcr_UploadID r = u /\ completion_texts r).
Proof.
  unfold getCompletion. repeat ko_tx. destruct H0 as ([] & ? & Ht); simpl in *; simplify_eq; try contradiction. done.
Qed.

Lemma ko_setCompletion b u r : mcr_BucketID r = b -> mcr_UploadID r = u -> completion_texts r -> keeps_ok (setJSON (MultipartCompletionKey b u) (V_Completion r)) any.
Proof. intros ? ? Hr. ko_tx. simpl. unfold completion_texts, utf8 in *. by rewrite !Hr. Qed.

Lemma GetMultipartCompletion_ok req : op_ok (GetMultipartCompletion req).
Proof. unfold GetMultipartCompletion. op_step. eapply ko_weaken; [apply ko_getCompletion | done]. Qed.

Lemma PrepareMultipartCompletion_ok req : op_ok (PrepareMultipartCompletion req).
Proof.
  unfold PrepareMultipartCompletion. repeat op_step. ko_tx. case_match; [repeat ko_tx|].
  eapply ko_bind; [apply ko_getUpload|]. intros upload (_ & _ & Hk & Hu). ko_tx; [ko_tx|]. ko_tx. cbv zeta.
  eapply ko_bind; [apply ko_setCompletion; try done|intros; ko_tx]. unfold completion_texts, upload_texts in *. simpl in *. by rewrite <- Hk.
Qed.

Lemma mark_ok req state : op_ok (markMultipartCompletionState req state).
Proof.
  unfold markMultipartCompletionState. op_step. eapply ko_bind; [apply ko_getCompletion|]. intros r (? & ? & ?). ko_tx; [ko_tx|]. ko_tx.
  eapply ko_bind; [by apply ko_setCompletion|intros; ko_tx].
Qed.

Lemma CompleteMultipartUpload_ok req : op_ok (CompleteMultipartUpload req).
Proof. unfold CompleteMultipartUpload. repeat op_step. eapply ko_bind; [apply ko_getUpload|]. intros upload (_ & _ & _ & Hu). repeat ko_tx. Qed.
Lemma AbortMultipartUpload_ok req : op_ok (AbortMultipartUpload req).
Proof. unfold AbortMultipartUpload. repeat op_step. eapply ko_bind; [apply ko_getUpload|]. intros upload (_ & _ & _ & Hu). repeat ko_tx. Qed.

Lemma ko_cleanup_keys req limit :
  keeps_ok (partKeysForCleanup req limit) (fun p => Forall (fun k => exists n, k = MultipartPartKey (mur_BucketID req) (mur_UploadID req) n /\ 0 <= n) p.1).
Proof.
  unfold partKeysForCleanup. eapply (ko_bind _ _ (Forall _)); [|intros keys Hkeys; apply ko_if; intros _; apply ko_ret; [by apply Forall_take | done]].
  intros s Hs. split; [done|]. apply Forall_forall. intros k Hk. rewrite list_ref_page in Hk. unfold kv_page in Hk. cbn [fst] in Hk.
  apply elem_of_take_weaken, elem_of_list_filter_bool in Hk as [_ Hk].
  apply elem_of_list_filter_bool in Hk as [Hp [v Hv]%elem_of_sorted_keys].
  destruct Hs as [Hwf _]. destruct (Hwf k v Hv) as (e & -> & He & _). destruct (under_parts _ _ e (conj He Hp)) as [n ->].
  exists n. split; [done|]. simpl in He. lia.
Qed.

Lemma CleanupMultipartUploadParts_ok req : op_ok (CleanupMultipartUploadParts req).
Proof.
  unfold CleanupMultipartUploadParts. cbv zeta. op_step. eapply ko_bind; [apply ko_getUpload|]. intros upload (_ & _ & _ & Hu).
  do 2 (ko_tx; [ko_tx|]). eapply ko_bind; [apply ko_cleanup_keys|]. intros [keys hasMore] Hkeys. cbn [fst] in Hkeys.
  eapply (ko_bind _ _ any); [|intros; repeat ko_tx]. apply ko_each. intros k Hk. rewrite Forall_forall in Hkeys.
  destruct (Hkeys k Hk) as (n & -> & Hn). assert ((0 <=? n) = true) by lia. ko_tx.
Qed.
End Methods.

(** ** Operational records *)

Section OpsInv.
Context `{Env}.

Hint Resolve ko_builder op_ok_builder op_ok_now : kv.
Ltac ops_op := cbv zeta; repeat op_step; repeat ko_tx.

(** The prefixes of the listings. *)
Lemma under_kms e : under (KMSKeyKey "") e -> exists id, e = KMSKeyOf id.
Proof. prefix_segments [""; "namros"; "v1"; "kms"; "keys"]. eauto. Qed.
Lemma under_profiles e : under (ComplianceProfileAttachmentKey "") e -> exists id, e = ComplianceProfileAttachmentOf id.
Proof. prefix_segments [""; "namros"; "v1"; "compliance"; "profile-attachments"]. eauto. Qed.
Lemma under_audit e : under (AuditEventKey "") e -> exists id, e = AuditEventOf id.
Proof. prefix_segments [""; "namros"; "v1"; "audit"; "events"]. eauto. Qed.
Lemma under_candidates e : under (GCCandidateKey "") e -> exists id, e = GCCandidateOf id.
Proof. prefix_segments [""; "namros"; "v1"; "gc"; "candidates"]. eauto. Qed.
Lemma under_gc_operations e : under (GCOperationKey "") e -> exists id, e = GCOperationOf id.
Proof. prefix_segments [""; "namros"; "v1"; "gc"; "operations"]. eauto. Qed.
Lemma under_dedupe_operations e : under (DedupeOperationKey "") e -> exists id, e = DedupeOperationOf id.
Proof. prefix_segments [""; "namros"; "v1"; "dedupe"; "operations"]. eauto. Qed.
Lemma under_pools e : under (VolumePoolKey "") e -> exists id, e = VolumePoolOf id.
Proof. prefix_segments [""; "namros"; "v1"; "storage"; "volume-pools"]. eauto. Qed.
Lemma under_drains e : under (VolumeDrainOperationKey "") e -> exists id, e = VolumeDrainOperationOf id.
Proof. prefix_segments [""; "namros"; "v1"; "storage"; "volume-drain"; "operations"]. eauto. Qed.
Lemma under_migrations e : under (MetadataMigrationOperationKey "") e -> exists id, e = MetadataMigrationOperationOf id.
Proof. prefix_segments [""; "namros"; "v1"; "metadata"; "migrations"; "operations"]. eauto. Qed.
Lemma under_worker_operations e : under (WorkerOperationKey "") e -> exists id, e = WorkerOperationOf id.
Proof. prefix_segments [""; "namros"; "v1"; "workers"; "operations"]. eauto. Qed.
Lemma under_releases id e : under (SharedObjectReleasePrefix id) e -> exists id' segment, e = SharedObjectReleaseOf id' segment.
Proof.
  unfold SharedObjectReleasePrefix. destruct (String.eqb_spec id "") as [->|Hne].
  - prefix_segments [""; "namros"; "v1"; "gc"; "shared-object-releases"]. eauto.
  - prefix_segments [""; "namros"; "v1"; "gc"; "shared-object-releases"; escape id]. eauto.
Qed.
Lemma under_leases kind e : under (WorkerLeaseKey kind "") e -> exists kind' shard, e = WorkerLeaseOf kind' shard.
Proof.
  unfold WorkerLeaseKey. destruct (String.eqb_spec kind "") as [->|Hne].
  - prefix_segments [""; "namros"; "v1"; "workers"; "leases"]. eauto.
  - cbn [String.eqb]. prefix_segments [""; "namros"; "v1"; "workers"; "leases"; escape kind]. eauto.
Qed.

(** A listing reads records of one family. *)
Lemma ko_scan_records {T} (as_T : kvalue -> option T) prefix keep :
  prefix <> "" -> (forall e v, under prefix e -> typed e v -> is_Some (as_T v)) -> keeps_ok (scan_records as_T prefix keep) any.
Proof. intros Hne HT. apply ko_scan; [done..|]. intros e v He Ht. destruct (HT e v He Ht) as [x Hx]. by exists x. Qed.
Lemma ko_scan_first {T} (as_T : kvalue -> option T) prefix keep limit :
  prefix <> "" -> (forall e v, under prefix e -> typed e v -> is_Some (as_T v)) -> keeps_ok (scan_first as_T prefix keep limit) any.
Proof. intros Hne HT. apply ko_scan; [done..|]. intros e v He Ht. destruct (HT e v He Ht) as [x Hx]. by exists x. Qed.

Ltac listing lem := first [apply ko_scan_records | apply ko_scan_first];
  [unfold SharedObjectReleasePrefix, WorkerLeaseKey; repeat case_match; done
  | let e := fresh in let v := fresh in let He := fresh in let Ht := fresh in
    intros e v He Ht; apply lem in He; first [destruct He as (? & ? & ->) | destruct He as [? ->]]; destruct v; simpl in Ht; try contradiction; eexists; reflexivity].
Ltac lists lem := apply op_ok_bind; [op_step; listing lem | intros; apply op_ok_ret].

Lemma ListKMSKeys_ok req : op_ok (KvOps.ListKMSKeys req).
Proof. unfold KvOps.ListKMSKeys. lists under_kms. Qed.
Lemma ListComplianceProfileAttachments_ok req : op_ok (KvOps.ListComplianceProfileAttachments req).
Proof. unfold KvOps.ListComplianceProfileAttachments. lists under_profiles. Qed.
Lemma ListAuditEvents_ok req : op_ok (KvOps.ListAuditEvents req).
Proof. unfold KvOps.ListAuditEvents. op_step. listing under_audit. Qed.
Lemma ListGCCandidates_ok req : op_ok (KvOps.ListGCCandidates req).
Proof. unfold KvOps.ListGCCandidates. lists under_candidates. Qed.
Lemma ListGCOperations_ok req : op_ok (KvOps.ListGCOperations req).
Proof. unfold KvOps.ListGCOperations. lists under_gc_operations. Qed.
Lemma ListDedupeOperations_ok req : op_ok (KvOps.ListDedupeOperations req).
Proof. unfold KvOps.ListDedupeOperations. lists under_dedupe_operations. Qed.
Lemma ListSharedObjectReleases_ok req : op_ok (KvOps.ListSharedObjectReleases req).
Proof. unfold KvOps.ListSharedObjectReleases. lists under_releases. Qed.
Lemma ListVolumePools_ok req : op_ok (KvOps.ListVolumePools req).
Proof. unfold KvOps.ListVolumePools. lists under_pools. Qed.
Lemma ListVolumeDrainOperations_ok req : op_ok (KvOps.ListVolumeDrainOperations req).
Proof. unfold KvOps.ListVolumeDrainOperations. lists under_drains. Qed.
Lemma ListWorkerLeases_ok req : op_ok (KvOps.ListWorkerLeases req).
Proof. unfold KvOps.ListWorkerLeases. cbv zeta. lists under_leases. Qed.
Lemma ListWorkerOperations_ok req : op_ok (KvOps.ListWorkerOperations req).
Proof. unfold KvOps.ListWorkerOperations. lists under_worker_operations. Qed.
Lemma ListMetadataMigrationOperations_ok req : op_ok (KvOps.ListMetadataMigrationOperations req).
Proof. unfold KvOps.ListMetadataMigrationOperations. lists under_migrations. Qed.

(** Sequences and the batch of audit events. *)
Lemma ko_reserve name count : keeps_ok (reserveSequences name count) any.
Proof. unfold reserveSequences. repeat ko_tx. Qed.
Lemma ko_nextSequence name : keeps_ok (nextSequence name) any.
Proof. apply ko_reserve. Qed.
Hint Resolve ko_reserve ko_nextSequence : kv.
Lemma ko_put_events l : forall sequence head t, keeps_ok (put_events l sequence head t) any.
Proof. induction l as [|req l IH]; intros sequence head t; cbn [put_events]; [by apply ko_ret|]. cbv zeta. repeat ko_tx. Qed.
Hint Resolve ko_put_events : kv.
Lemma PutAdminAuditEvent_ok req : op_ok (KvOps.PutAdminAuditEvent req).
Proof. unfold KvOps.PutAdminAuditEvent. ops_op. Qed.
Lemma PutAdminAuditEvents_ok req : op_ok (KvOps.PutAdminAuditEvents req).
Proof. unfold KvOps.PutAdminAuditEvents. destruct (paes_Events req); [apply op_ok_ret | ops_op]. Qed.

(** The builders fail with errors of their own only, and keep the identifiers given. *)
Lemma normalize_member_pure m : normalizeVolumePoolMember m <> Fail ErrOther.
Proof. unfold normalizeVolumePoolMember, NormalizeVolumePoolState. repeat case_match; congruence. Qed.
Lemma normalize_members_pure seen l : normalizeVolumePoolMembers seen l <> Fail ErrOther.
Proof.
  revert seen. induction l as [|m l IH]; intros seen; [done|]. cbn [normalizeVolumePoolMembers].
  repeat (case_match; try congruence). intros [= ->]. by eapply normalize_member_pure.
Qed.
Lemma build_pool_pure e req t : BuildVolumePool e req t <> Fail ErrOther.
Proof.
  unfold BuildVolumePool, NormalizeVolumePoolMembers. pose proof (normalize_members_pure [] (pvp_Members req)).
  repeat (case_match; try congruence).
Qed.
Lemma build_candidate_pure e req t : BuildGCCandidate e req t <> Fail ErrOther.
Proof. unfold BuildGCCandidate. repeat case_match; congruence. Qed.
Lemma build_lease_pure e req t : BuildWorkerLease e req t <> Fail ErrOther.
Proof. unfold BuildWorkerLease. repeat case_match; congruence. Qed.
Lemma build_control_pure e req t : BuildWorkerControl e req t <> Fail ErrOther.
Proof. unfold BuildWorkerControl. repeat case_match; congruence. Qed.
Lemma build_drain_pure id req t : BuildVolumeDrainOperation id req t <> Fail ErrOther.
Proof. unfold BuildVolumeDrainOperation. repeat case_match; congruence. Qed.
Lemma build_migration_pure id req t : BuildMetadataMigrationOperation id req t <> Fail ErrOther.
Proof. unfold BuildMetadataMigrationOperation. repeat case_match; congruence. Qed.
Hint Resolve build_pool_pure build_candidate_pure build_lease_pure build_control_pure build_drain_pure build_migration_pure : kv.

Lemma build_pool_id e req t p : BuildVolumePool e req t = Ok p -> vp_PoolID p = TrimSpace (pvp_PoolID req).
Proof. unfold BuildVolumePool. repeat case_match; intros; by simplify_eq. Qed.
Lemma build_lease_id e req t l : BuildWorkerLease e req t = Ok l ->
  wl_LeaseID l = WorkerLeaseID (TrimSpace (awl_WorkerKind req)) (TrimSpace (awl_ShardID req)) /\
  wl_WorkerKind l = TrimSpace (awl_WorkerKind req) /\ wl_ShardID l = TrimSpace (awl_ShardID req) /\ TrimSpace (awl_WorkerKind req) <> "".
Proof.
  unfold BuildWorkerLease. destruct (_ || _ || _) eqn:Hg; [done|]. rewrite !orb_false_iff in Hg. destruct Hg as [[Hk%String.eqb_neq _] _].
  repeat case_match; intros; by simplify_eq.
Qed.
Lemma build_control_kind e req t r : BuildWorkerControl e req t = Ok r -> wcr_WorkerKind r <> "".
Proof.
  unfold BuildWorkerControl. destruct (_ || _) eqn:Hg; [done|]. rewrite orb_false_iff in Hg. destruct Hg as [Hk%String.eqb_neq _].
  repeat case_match; intros; by simplify_eq.
Qed.

(** The bare prefix of the leases and of the controls is not the key of a record. *)
Lemma ko_read_bare {T} (as_T : kvalue -> option T) k : (forall e, entity_ok e = true -> key_of e <> k) -> keeps_ok (getJSON as_T k) any.
Proof.
  intros Hk s Hs. unfold getJSON. destruct (kv_db s !! k) as [v|] eqn:Hv; [|by split]. exfalso.
  destruct Hs as [Hwf _]. destruct (Hwf k v Hv) as (e & -> & He & _). by apply (Hk e).
Qed.
Ltac bare := intros He Hk; apply (f_equal split_slash) in Hk; rewrite split_key in Hk by done; match type of He with entity_ok ?e = _ => destruct e; discriminate Hk end.
Lemma bare_leases e : entity_ok e = true -> key_of e <> WorkerLeaseKey "" "".
Proof. bare. Qed.
Lemma bare_controls e : entity_ok e = true -> key_of e <> WorkerControlKey "" "".
Proof. bare. Qed.

Lemma ko_read_lease kind shard : keeps_ok (getJSON as_WorkerLease (WorkerLeaseKey kind shard)) any.
Proof.
  destruct (String.eqb_spec kind "") as [->|Hne]; [apply ko_read_bare, bare_leases|].
  eapply ko_weaken; [apply (ko_family _ (WorkerLeaseOf kind shard)); [by apply negb_true_iff, String.eqb_neq | read_family] | done].
Qed.
Lemma ko_read_control kind shard : keeps_ok (getJSON as_WorkerControl (WorkerControlKey kind shard)) any.
Proof.
  destruct (String.eqb_spec kind "") as [->|Hne]; [apply ko_read_bare, bare_controls|].
  eapply ko_weaken; [apply (ko_family _ (WorkerControlOf kind shard)); [by apply negb_true_iff, String.eqb_neq | read_family] | done].
Qed.
Lemma kind_ok (kind : string) : kind <> "" -> negb (kind =s "") = true.
Proof. intros Hk. by apply negb_true_iff, String.eqb_neq. Qed.

Lemma PutGCCandidate_ok req : op_ok (KvOps.PutGCCandidate req).
Proof. unfold KvOps.PutGCCandidate. ops_op. Qed.
Lemma DeleteGCCandidate_ok id : op_ok (KvOps.DeleteGCCandidate id).
Proof. unfold KvOps.DeleteGCCandidate. ops_op. Qed.
Lemma PutGCOperation_ok req : op_ok (KvOps.PutGCOperation req).
Proof. unfold KvOps.PutGCOperation. ops_op. Qed.
Lemma PutDedupeOperation_ok req : op_ok (KvOps.PutDedupeOperation req).
Proof. unfold KvOps.PutDedupeOperation. ops_op. Qed.
Lemma AcquireDedupeOperationLock_ok req : op_ok (KvOps.AcquireDedupeOperationLock req).
Proof. unfold KvOps.AcquireDedupeOperationLock. ops_op. Qed.
Lemma ReleaseDedupeOperationLock_ok req : op_ok (KvOps.ReleaseDedupeOperationLock req).
Proof. unfold KvOps.ReleaseDedupeOperationLock. ops_op. Qed.
Lemma release_id_nonempty a b : sharedObjectReleaseID a b <> "".
Proof. by destruct a. Qed.
Lemma PutSharedObjectRelease_ok req : op_ok (KvOps.PutSharedObjectRelease req).
Proof.
  unfold KvOps.PutSharedObjectRelease. cbv zeta. destruct (String.eqb_spec (TrimSpace (psr_SharedObjectID req)) "") as [|Hne]; [by apply op_ok_fail|].
  apply kind_ok in Hne. ops_op. pose proof release_id_nonempty.
  read_record; destruct_and?; simpl; try case_match; field_simpl; by split_and!.
Qed.
Lemma PutVolumePool_ok req : op_ok (KvOps.PutVolumePool req).
Proof. unfold KvOps.PutVolumePool. ops_op. simpl in *. by eapply build_pool_id. Qed.
Lemma GetVolumePool_ok id : op_ok (KvOps.GetVolumePool id).
Proof. unfold KvOps.GetVolumePool. ops_op. Qed.
Lemma PutVolumeDrainOperation_ok req : op_ok (KvOps.PutVolumeDrainOperation req).
Proof. unfold KvOps.PutVolumeDrainOperation. ops_op. Qed.
Lemma PutWorkerOperation_ok req : op_ok (KvOps.PutWorkerOperation req).
Proof. unfold KvOps.PutWorkerOperation. ops_op. Qed.
Lemma PutMetadataMigrationOperation_ok req : op_ok (KvOps.PutMetadataMigrationOperation req).
Proof. unfold KvOps.PutMetadataMigrationOperation. ops_op. Qed.
Lemma AcquireWorkerLease_ok req : op_ok (KvOps.AcquireWorkerLease req).
Proof.
  unfold KvOps.AcquireWorkerLease. cbv zeta. op_step. eapply ko_bind; [apply ko_read_lease|]. intros existing _.
  eapply ko_bind; [eauto with kv|]; intros t _. eapply ko_bind; [eauto with kv|]; intros lease Hl. apply build_lease_id in Hl as (Hid & Hk & Hs & Hne).
  apply kind_ok in Hne. repeat ko_tx.
Qed.
Lemma ReleaseWorkerLease_ok req : op_ok (KvOps.ReleaseWorkerLease req).
Proof.
  unfold KvOps.ReleaseWorkerLease. cbv zeta. destruct (_ || _ || _) eqn:Hg; [by apply op_ok_fail|]. rewrite !orb_false_iff in Hg. destruct Hg as [[Hk%String.eqb_neq _] _].
  apply kind_ok in Hk. ops_op. match goal with Hr : _ a |- _ => destruct Hr as ([] & ? & ?) end; simplify_eq/=; try contradiction. done.
Qed.
Lemma PutWorkerControl_ok req : op_ok (KvOps.PutWorkerControl req).
Proof.
  unfold KvOps.PutWorkerControl. op_step. eapply ko_bind; [apply ko_read_control|]. intros existing _.
  eapply ko_bind; [eauto with kv|]; intros t _. eapply ko_bind; [eauto with kv|]; intros record Hr. apply build_control_kind, kind_ok in Hr. repeat ko_tx.
Qed.
Lemma GetWorkerControl_ok req : op_ok (KvOps.GetWorkerControl req).
Proof.
  unfold KvOps.GetWorkerControl. cbv zeta. op_step; op_step. apply ko_require; [done|]. eapply ko_weaken; [apply ko_read_control|done].
Qed.
End OpsInv.

(** ** Runs *)

Inductive kv_call :=
| K_CreateBucket (req : CreateBucketRequest)
| K_GetBucketByName (name : string)
| K_PutBucketVersioning (req : PutBucketVersioningRequest)
| K_DeleteBucket (bucketID : string)
| K_BeginPutObject (req : BeginPutObjectRequest)
| K_CommitObjectVersion (req : CommitObjectVersionRequest)
| K_PutObjectVersion (req : BeginPutObjectRequest)
| K_GetObjectHead (bucketID key : string)
| K_GetObjectVersion (bucketID key versionID : string)
| K_DeleteObject (req : DeleteObjectRequest)
| K_GetObjectTags (req : ObjectTagsRequest)
| K_PutObjectTags (req : ObjectTagsRequest)
| K_DeleteObjectTags (req : ObjectTagsRequest)
| K_GetObjectRetention (req : ObjectRetentionRequest)
| K_PutObjectRetention (req : ObjectRetentionRequest)
| K_GetObjectLegalHold (req : ObjectLegalHoldRequest)
| K_PutObjectLegalHold (req : ObjectLegalHoldRequest)
| K_GetMetadataSchema
| K_PutMetadataSchema (req : PutMetadataSchemaRequest)
| K_CreateTenant (req : CreateTenantRequest)
| K_GetTenant (tenantID : string)
| K_PutTenantQuota (req : TenantQuotaRequest)
| K_GetTenantQuota (tenantID : string)
| K_DeleteTenantQuota (tenantID : string)
| K_PutTenantUsage (req : TenantUsageRequest)
| K_GetTenantUsage (tenantID : string)
| K_PutAccessKey (req : PutAccessKeyRequest)
| K_GetAccessKey (accessKeyID : string)
| K_PutKMSKey (req : PutKMSKeyRequest)
| K_GetKMSKey (keyID : string)
| K_PutComplianceProfileAttachment (req : PutComplianceProfileAttachmentRequest)
| K_PutBucketCORS (req : BucketCORSRequest)
| K_GetBucketCORS (bucketID : string)
| K_DeleteBucketCORS (bucketID : string)
| K_PutBucketLifecycle (req : BucketLifecycleRequest)
| K_GetBucketLifecycle (bucketID : string)
| K_DeleteBucketLifecycle (bucketID : string) (audit : AuditContext)
| K_PutBucketEncryption (req : BucketEncryptionRequest)
| K_GetBucketEncryption (bucketID : string)
| K_DeleteBucketEncryption (bucketID : string) (audit : AuditContext)
| K_PutBucketQuota (req : BucketQuotaRequest)
| K_GetBucketQuota (bucketID : string)
| K_DeleteBucketQuota (bucketID : string)
| K_PutBucketPolicy (req : BucketPolicyRequest)
| K_GetBucketPolicy (bucketID : string)
| K_DeleteBucketPolicy (bucketID : string) (audit : AuditContext)
| K_PutBucketObjectLock (req : BucketObjectLockRequest)
| K_GetBucketObjectLock (bucketID : string)
| K_CreateMultipartUpload (req : CreateMultipartUploadRequest)
| K_GetMultipartUpload (req : MultipartUploadRequest)
| K_PutMultipartPart (req : PutMultipartPartRequest)
| K_ListMultipartParts (req : MultipartUploadRequest)
| K_GetMultipartParts (req : GetMultipartPartsRequest)
| K_GetMultipartCompletion (req : MultipartUploadRequest)
| K_PrepareMultipartCompletion (req : PrepareMultipartCompletionRequest)
| K_MarkMultipartCompletionPublished (req : MultipartCompletionStateRequest)
| K_MarkMultipartCompletionCompleted (req : MultipartCompletionStateRequest)
| K_CompleteMultipartUpload (req : CompleteMultipartUploadRequest)
| K_AbortMultipartUpload (req : MultipartUploadRequest)
| K_CleanupMultipartUploadParts (req : CleanupMultipartUploadPartsRequest)
| K_ListKMSKeys (req : ListKMSKeysRequest)
| K_ListComplianceProfileAttachments (req : ListComplianceProfileAttachmentsRequest)
| K_ListAuditEvents (req : ListAuditEventsRequest)
| K_PutAdminAuditEvent (req : PutAdminAuditEventRequest)
| K_PutAdminAuditEvents (req : PutAdminAuditEventsRequest)
| K_PutGCCandidate (req : PutGCCandidateRequest)
| K_ListGCCandidates (req : ListGCCandidatesRequest)
| K_DeleteGCCandidate (segmentID : string)
| K_PutGCOperation (req : PutGCOperationRequest)
| K_ListGCOperations (req : ListGCOperationsRequest)
| K_PutDedupeOperation (req : PutDedupeOperationRequest)
| K_ListDedupeOperations (req : ListDedupeOperationsRequest)
| K_AcquireDedupeOperationLock (req : AcquireDedupeOperationLockRequest)
| K_ReleaseDedupeOperationLock (req : ReleaseDedupeOperationLockRequest)
| K_PutSharedObjectRelease (req : PutSharedObjectReleaseRequest)
| K_ListSharedObjectReleases (req : ListSharedObjectReleasesRequest)
| K_PutVolumePool (req : PutVolumePoolRequest)
| K_GetVolumePool (poolID : string)
| K_ListVolumePools (req : ListVolumePoolsRequest)
| K_PutVolumeDrainOperation (req : PutVolumeDrainOperationRequest)
| K_ListVolumeDrainOperations (req : ListVolumeDrainOperationsRequest)
| K_AcquireWorkerLease (req : AcquireWorkerLeaseRequest)
| K_ReleaseWorkerLease (req : ReleaseWorkerLeaseRequest)
| K_ListWorkerLeases (req : ListWorkerLeasesRequest)
| K_PutWorkerOperation (req : PutWorkerOperationRequest)
| K_ListWorkerOperations (req : ListWorkerOperationsRequest)
| K_PutMetadataMigrationOperation (req : PutMetadataMigrationOperationRequest)
| K_ListMetadataMigrationOperations (req : ListMetadataMigrationOperationsRequest)
| K_PutWorkerControl (req : PutWorkerControlRequest)
| K_GetWorkerControl (req : GetWorkerControlRequest).

Section Runs.
Context `{Env}.

(** A call without its result. *)
Definition kv_perform (c : kv_call) : KM unit :=
  match c with
  | K_CreateBucket req => CreateBucket req ;;! st_ret tt
  | K_GetBucketByName name => GetBucketByName name ;;! st_ret tt
  | K_PutBucketVersioning req => PutBucketVersioning req ;;! st_ret tt
  | K_DeleteBucket bucketID => DeleteBucket bucketID ;;! st_ret tt
  | K_BeginPutObject req => BeginPutObject req ;;! st_ret tt
  | K_CommitObjectVersion req => CommitObjectVersion req ;;! st_ret tt
  | K_PutObjectVersion req => PutObjectVersion req ;;! st_ret tt
  | K_GetObjectHead b k => GetObjectHead b k ;;! st_ret tt
  | K_GetObjectVersion b k v => GetObjectVersion b k v ;;! st_ret tt
  | K_DeleteObject req => DeleteObject req ;;! st_ret tt
  | K_GetObjectTags req => GetObjectTags req ;;! st_ret tt
  | K_PutObjectTags req => PutObjectTags req
  | K_DeleteObjectTags req => DeleteObjectTags req
  | K_GetObjectRetention req => GetObjectRetention req ;;! st_ret tt
  | K_PutObjectRetention req => PutObjectRetention req
  | K_GetObjectLegalHold req => GetObjectLegalHold req ;;! st_ret tt
  | K_PutObjectLegalHold req => PutObjectLegalHold req
  | K_GetMetadataSchema => GetMetadataSchema ;;! st_ret tt
  | K_PutMetadataSchema req => PutMetadataSchema req ;;! st_ret tt
  | K_CreateTenant req => CreateTenant req ;;! st_ret tt
  | K_GetTenant tenantID => GetTenant tenantID ;;! st_ret tt
  | K_PutTenantQuota req => PutTenantQuota req ;;! st_ret tt
  | K_GetTenantQuota tenantID => GetTenantQuota tenantID ;;! st_ret tt
  | K_DeleteTenantQuota tenantID => DeleteTenantQuota tenantID
  | K_PutTenantUsage req => PutTenantUsage req ;;! st_ret tt
  | K_GetTenantUsage tenantID => GetTenantUsage tenantID ;;! st_ret tt
  | K_PutAccessKey req => PutAccessKey req ;;! st_ret tt
  | K_GetAccessKey accessKeyID => GetAccessKey accessKeyID ;;! st_ret tt
  | K_PutKMSKey req => PutKMSKey req ;;! st_ret tt
  | K_GetKMSKey keyID => GetKMSKey keyID ;;! st_ret tt
  | K_PutComplianceProfileAttachment req => PutComplianceProfileAttachment req ;;! st_ret tt
  | K_PutBucketCORS req => PutBucketCORS req ;;! st_ret tt
  | K_GetBucketCORS bucketID => GetBucketCORS bucketID ;;! st_ret tt
  | K_DeleteBucketCORS bucketID => DeleteBucketCORS bucketID ;;! st_ret tt
  | K_PutBucketLifecycle req => PutBucketLifecycle req ;;! st_ret tt
  | K_GetBucketLifecycle bucketID => GetBucketLifecycle bucketID ;;! st_ret tt
  | K_DeleteBucketLifecycle bucketID audit => DeleteBucketLifecycle bucketID audit ;;! st_ret tt
  | K_PutBucketEncryption req => PutBucketEncryption req ;;! st_ret tt
  | K_GetBucketEncryption bucketID => GetBucketEncryption bucketID ;;! st_ret tt
  | K_DeleteBucketEncryption bucketID audit => DeleteBucketEncryption bucketID audit ;;! st_ret tt
  | K_PutBucketQuota req => PutBucketQuota req ;;! st_ret tt
  | K_GetBucketQuota bucketID => GetBucketQuota bucketID ;;! st_ret tt
  | K_DeleteBucketQuota bucketID => DeleteBucketQuota bucketID
  | K_PutBucketPolicy req => PutBucketPolicy req ;;! st_ret tt
  | K_GetBucketPolicy bucketID => GetBucketPolicy bucketID ;;! st_ret tt
  | K_DeleteBucketPolicy bucketID audit => DeleteBucketPolicy bucketID audit ;;! st_ret tt
  | K_PutBucketObjectLock req => PutBucketObjectLock req ;;! st_ret tt
  | K_GetBucketObjectLock bucketID => GetBucketObjectLock bucketID ;;! st_ret tt
  | K_CreateMultipartUpload req => CreateMultipartUpload req ;;! st_ret tt
  | K_GetMultipartUpload req => GetMultipartUpload req ;;! st_ret tt
  | K_PutMultipartPart req => PutMultipartPart req ;;! st_ret tt
  | K_ListMultipartParts req => ListMultipartParts req ;;! st_ret tt
  | K_GetMultipartParts req => GetMultipartParts req ;;! st_ret tt
  | K_GetMultipartCompletion req => GetMultipartCompletion req ;;! st_ret tt
  | K_PrepareMultipartCompletion req => PrepareMultipartCompletion req ;;! st_ret tt
  | K_MarkMultipartCompletionPublished req => MarkMultipartCompletionPublished req ;;! st_ret tt
  | K_MarkMultipartCompletionCompleted req => MarkMultipartCompletionCompleted req ;;! st_ret tt
  | K_CompleteMultipartUpload req => CompleteMultipartUpload req ;;! st_ret tt
  | K_AbortMultipartUpload req => AbortMultipartUpload req ;;! st_ret tt
  | K_CleanupMultipartUploadParts req => CleanupMultipartUploadParts req ;;! st_ret tt
  | K_ListKMSKeys req => KvOps.ListKMSKeys req ;;! st_ret tt
  | K_ListComplianceProfileAttachments req => KvOps.ListComplianceProfileAttachments req ;;! st_ret tt
  | K_ListAuditEvents req => KvOps.ListAuditEvents req ;;! st_ret tt
  | K_PutAdminAuditEvent req => KvOps.PutAdminAuditEvent req ;;! st_ret tt
  | K_PutAdminAuditEvents req => KvOps.PutAdminAuditEvents req ;;! st_ret tt
  | K_PutGCCandidate req => KvOps.PutGCCandidate req ;;! st_ret tt
  | K_ListGCCandidates req => KvOps.ListGCCandidates req ;;! st_ret tt
  | K_DeleteGCCandidate segmentID => KvOps.DeleteGCCandidate segmentID
  | K_PutGCOperation req => KvOps.PutGCOperation req ;;! st_ret tt
  | K_ListGCOperations req => KvOps.ListGCOperations req ;;! st_ret tt
  | K_PutDedupeOperation req => KvOps.PutDedupeOperation req ;;! st_ret tt
  | K_ListDedupeOperations req => KvOps.ListDedupeOperations req ;;! st_ret tt
  | K_AcquireDedupeOperationLock req => KvOps.AcquireDedupeOperationLock req ;;! st_ret tt
  | K_ReleaseDedupeOperationLock req => KvOps.ReleaseDedupeOperationLock req
  | K_PutSharedObjectRelease req => KvOps.PutSharedObjectRelease req ;;! st_ret tt
  | K_ListSharedObjectReleases req => KvOps.ListSharedObjectReleases req ;;! st_ret tt
  | K_PutVolumePool req => KvOps.PutVolumePool req ;;! st_ret tt
  | K_GetVolumePool poolID => KvOps.GetVolumePool poolID ;;! st_ret tt
  | K_ListVolumePools req => KvOps.ListVolumePools req ;;! st_ret tt
  | K_PutVolumeDrainOperation req => KvOps.PutVolumeDrainOperation req ;;! st_ret tt
  | K_ListVolumeDrainOperations req => KvOps.ListVolumeDrainOperations req ;;! st_ret tt
  | K_AcquireWorkerLease req => KvOps.AcquireWorkerLease req ;;! st_ret tt
  | K_ReleaseWorkerLease req => KvOps.ReleaseWorkerLease req
  | K_ListWorkerLeases req => KvOps.ListWorkerLeases req ;;! st_ret tt
  | K_PutWorkerOperation req => KvOps.PutWorkerOperation req ;;! st_ret tt
  | K_ListWorkerOperations req => KvOps.ListWorkerOperations req ;;! st_ret tt
  | K_PutMetadataMigrationOperation req => KvOps.PutMetadataMigrationOperation req ;;! st_ret tt
  | K_ListMetadataMigrationOperations req => KvOps.ListMetadataMigrationOperations req ;;! st_ret tt
  | K_PutWorkerControl req => KvOps.PutWorkerControl req ;;! st_ret tt
  | K_GetWorkerControl req => KvOps.GetWorkerControl req ;;! st_ret tt
  end.

(** The object key a call writes is a UTF-8 text, and the bucket of a quota is not
    called by a reserved word of the bucket directory. *)
Definition call_admissible (c : kv_call) : Prop :=
  match c with
  | K_BeginPutObject req | K_PutObjectVersion req => utf8 (bpo_Key req)
  | K_DeleteObject req => utf8 (dor_Key req)
  | K_PutBucketQuota req => entity_ok (BucketQuotaOf (bqr_BucketID req)) = true
  | K_GetBucketQuota bucketID => entity_ok (BucketQuotaOf bucketID) = true
  | K_DeleteBucketQuota bucketID => entity_ok (BucketQuotaOf bucketID) = true
  | K_CreateMultipartUpload req => utf8 (cmu_Key req)
  | _ => True
  end.

Definition kv_empty : KvRepository := mkKvRepository ∅ 0 0.

Definition kv_run (l : list kv_call) (s : KvRepository) : KvRepository := foldl (fun s c => st_exec (kv_perform c) s) s l.

Lemma op_ok_unit {A} (m : KM A) : op_ok m -> op_ok (m ;;! st_ret tt).
Proof. intros Hm. apply op_ok_bind; [done|]. intros. apply op_ok_ret. Qed.

Lemma kv_perform_ok c : call_admissible c -> op_ok (kv_perform c).
Proof.
  intros Hu. destruct c; cbn [kv_perform call_admissible] in *; try apply op_ok_unit;
    [by apply kv_CreateBucket_ok | by apply GetBucketByName_ok | by apply kv_PutBucketVersioning_ok |
     by apply kv_DeleteBucket_ok | by apply kv_BeginPutObject_ok | by apply kv_CommitObjectVersion_ok |
     by apply kv_PutObjectVersion_ok | by apply GetObjectHead_ok | by apply GetObjectVersion_ok | by apply kv_DeleteObject_ok |
     by apply GetObjectTags_ok | by apply kv_PutObjectTags_ok | by apply DeleteObjectTags_ok | by apply GetObjectRetention_ok |
     by apply kv_PutObjectRetention_ok | by apply GetObjectLegalHold_ok | by apply kv_PutObjectLegalHold_ok |
     by apply GetMetadataSchema_ok | by apply PutMetadataSchema_ok | by apply CreateTenant_ok | by apply GetTenant_ok |
     by apply PutTenantQuota_ok | by apply GetTenantQuota_ok | by apply DeleteTenantQuota_ok | by apply PutTenantUsage_ok |
     by apply GetTenantUsage_ok | by apply PutAccessKey_ok | by apply GetAccessKey_ok | by apply PutKMSKey_ok |
     by apply GetKMSKey_ok | by apply PutComplianceProfileAttachment_ok | by apply PutBucketCORS_ok | by apply GetBucketCORS_ok |
     by apply DeleteBucketCORS_ok | by apply PutBucketLifecycle_ok | by apply GetBucketLifecycle_ok |
     by apply DeleteBucketLifecycle_ok | by apply PutBucketEncryption_ok | by apply GetBucketEncryption_ok |
     by apply DeleteBucketEncryption_ok | by apply PutBucketQuota_ok | by apply GetBucketQuota_ok |
     by apply DeleteBucketQuota_ok | by apply PutBucketPolicy_ok | by apply GetBucketPolicy_ok | by apply DeleteBucketPolicy_ok |
     by apply PutBucketObjectLock_ok | by apply GetBucketObjectLock_ok | by apply CreateMultipartUpload_ok |
     by apply GetMultipartUpload_ok | by apply PutMultipartPart_ok | by apply ListMultipartParts_ok |
     by apply GetMultipartParts_ok | by apply GetMultipartCompletion_ok | by apply PrepareMultipartCompletion_ok |
     by apply mark_ok | by apply mark_ok | by apply CompleteMultipartUpload_ok | by apply AbortMultipartUpload_ok |
     by apply CleanupMultipartUploadParts_ok |
     by apply ListKMSKeys_ok | by apply ListComplianceProfileAttachments_ok | by apply ListAuditEvents_ok |
     by apply PutAdminAuditEvent_ok | by apply PutAdminAuditEvents_ok | by apply PutGCCandidate_ok | by apply ListGCCandidates_ok |
     by apply DeleteGCCandidate_ok | by apply PutGCOperation_ok | by apply ListGCOperations_ok | by apply PutDedupeOperation_ok |
     by apply ListDedupeOperations_ok | by apply AcquireDedupeOperationLock_ok | by apply ReleaseDedupeOperationLock_ok |
     by apply PutSharedObjectRelease_ok | by apply ListSharedObjectReleases_ok | by apply PutVolumePool_ok | by apply GetVolumePool_ok |
     by apply ListVolumePools_ok | by apply PutVolumeDrainOperation_ok | by apply ListVolumeDrainOperations_ok |
     by apply AcquireWorkerLease_ok | by apply ReleaseWorkerLease_ok | by apply ListWorkerLeases_ok | by apply PutWorkerOperation_ok |
     by apply ListWorkerOperations_ok | by apply PutMetadataMigrationOperation_ok | by apply ListMetadataMigrationOperations_ok |
     by apply PutWorkerControl_ok | by apply GetWorkerControl_ok].
Qed.

Lemma kv_empty_ok : kv_ok (kv_db kv_empty).
Proof. by split; [intros k v Hv | intros b k]. Qed.

Lemma kv_run_ok l s : Forall call_admissible l -> kv_ok (kv_db s) -> kv_ok (kv_db (kv_run l s)).
Proof.
  revert s. induction l as [|c l IH]; intros s Hl Hs; [done|]. apply Forall_cons in Hl as [Hc Hl].
  apply IH; [done|]. by apply kv_perform_ok.
Qed.
End Runs.
