(* ===== verification/KvRefines.v ===== *)
(** * KvRefines: the KV repository refines the memory repository

    The administrative and multipart methods of the two repositories return the same
    results on every sequence of calls. The relation [core] ties a state of the
    memory repository to a store: a record is under its key exactly when the map
    of its family holds it. Uploads, completions and parts are filed under the
    upload identifier alone in the store, and under the object key as well in
    memory. *)

From S2P Require Import Prelude GoLib GoText Sha256 StorageTypes Model Requests Encoding Meta Manifest.
From S2P Require Import Repo RepoBuckets RepoMultipart.
From S2P Require Import Keyspace KvStore KvRepo KvObjects KvMeta KvMultipart KvInv KvMetaInv.
Open Scope string_scope.
Open Scope Z_scope.

#[export] Instance entity_eq_dec : EqDecision entity.
Proof. solve_decision. Defined.

(** ** The relation *)

(** The record the store has of an entity. *)
Definition stored (db : kvdb) (e : entity) : option kvalue := db !! key_of e.

(** Worker kinds without a slash, and names without space around them: the memory
    repository joins the kind and the shard by a slash. *)
Definition plain (kind shard : string) : bool := no_slash kind && (TrimSpace kind =s kind) && (TrimSpace shard =s shard).

(** The families whose records the two repositories file alike. *)
Definition image (s : Repository) (e : entity) : option (option kvalue) :=
  match e with
  | TenantOf id => Some (V_Tenant <$> tenants s !! id)
  | TenantQuotaOf id => Some (V_TenantQuota <$> tenantQuotas s !! id)
  | TenantUsageOf id => Some (V_TenantUsage <$> tenantUsages s !! id)
  | AccessKeyOf id => Some (V_AccessKey <$> accessKeys s !! id)
  | KMSKeyOf id => Some (V_KMSKey <$> kmsKeys s !! id)
  | ComplianceProfileAttachmentOf id => Some (V_Profile <$> profiles s !! id)
  | BucketByNameOf name => Some (V_BucketID <$> bucketNameToID s !! name)
  | BucketByIDOf id => Some (V_Bucket <$> bucketsByID s !! id)
  | BucketQuotaOf id => Some (V_BucketQuota <$> bucketQuotas s !! id)
  | GCCandidateOf id => Some (V_GCCandidate <$> gcCandidates s !! id)
  | DedupeOperationLockOf id => Some (V_DedupeLock <$> dedupeLocks s !! id)
  | SharedObjectReleaseOf id segment => Some (V_Release <$> sharedReleases s !! mk_sharedObjectReleaseKey id segment)
  | VolumePoolOf id => Some (V_VolumePool <$> volumePools s !! id)
  | WorkerLeaseOf kind shard => if plain kind shard then Some (V_WorkerLease <$> workerLeases s !! WorkerLeaseID kind shard) else None
  | WorkerControlOf kind shard => if plain kind shard then Some (V_WorkerControl <$> workerControls s !! WorkerLeaseID kind shard) else None
  | _ => None
  end.

Record core (s : Repository) (t : KvRepository) : Prop := mkCore {
  co_clock : kv_clock_calls t = clock_calls s;
  co_ids : kv_id_calls t = id_calls s;
  co_image : forall e v, entity_ok e = true -> image s e = Some v -> stored (kv_db t) e = v;
  co_audit_seq : stored (kv_db t) (SequenceOf "audit") = Some (V_Sequence (nextAuditID s)) \/
    (stored (kv_db t) (SequenceOf "audit") = None /\ nextAuditID s = 0);
  co_audit_head : stored (kv_db t) AuditHeadOf = Some (V_AuditHead (auditHeadHash s)) \/
    (stored (kv_db t) AuditHeadOf = None /\ auditHeadHash s = "");
  co_upload_to : forall b k u up, uploads s !! mk_uploadKey b k u = Some up ->
    stored (kv_db t) (MultipartUploadOf b u) = Some (V_Upload up) /\ mu_Key up = k;
  co_upload_from : forall b u up, stored (kv_db t) (MultipartUploadOf b u) = Some (V_Upload up) ->
    uploads s !! mk_uploadKey b (mu_Key up) u = Some up;
  co_completion_to : forall b k u r, completions s !! mk_uploadKey b k u = Some r ->
    stored (kv_db t) (MultipartCompletionOf b u) = Some (V_Completion r) /\ mcr_Key r = k /\ is_Some (uploads s !! mk_uploadKey b k u);
  co_completion_from : forall b u r, stored (kv_db t) (MultipartCompletionOf b u) = Some (V_Completion r) ->
    completions s !! mk_uploadKey b (mcr_Key r) u = Some r;
  co_part_to : forall b k u n p, parts s !! mk_partKey b k u n = Some p ->
    stored (kv_db t) (MultipartPartOf b u n) = Some (V_Part p) /\ 1 <= n <= MaxMultipartParts /\ is_Some (uploads s !! mk_uploadKey b k u);
  co_part_from : forall b u n p, 0 <= n -> stored (kv_db t) (MultipartPartOf b u n) = Some (V_Part p) ->
    exists k, parts s !! mk_partKey b k u n = Some p;
  co_names : forall name id, bucketNameToID s !! name = Some id -> is_Some (bucketsByID s !! id)
}.

(** ** Writes *)

Lemma stored_insert db e e' v : entity_ok e = true -> entity_ok e' = true ->
  stored (<[key_of e := v]> db) e' = if decide (e = e') then Some v else stored db e'.
Proof.
  intros He He'. unfold stored. case_decide as Heq; [subst; by rewrite lookup_insert_eq|].
  rewrite lookup_insert_ne; [done|]. intros Hk. by apply key_of_inj in Hk.
Qed.
Lemma stored_delete db e e' : entity_ok e = true -> entity_ok e' = true ->
  stored (delete (key_of e) db) e' = if decide (e = e') then None else stored db e'.
Proof.
  intros He He'. unfold stored. case_decide as Heq; [subst; by rewrite lookup_delete_eq|].
  rewrite lookup_delete_ne; [done|]. intros Hk. by apply key_of_inj in Hk.
Qed.

(** A write of a family filed alike: [v] is the record written or [None]. *)
Definition written (db : kvdb) (e : entity) (v : option kvalue) : kvdb :=
  match v with Some v => <[key_of e := v]> db | None => delete (key_of e) db end.
Lemma stored_written db e e' v : entity_ok e = true -> entity_ok e' = true ->
  stored (written db e v) e' = if decide (e = e') then v else stored db e'.
Proof. intros He He'. destruct v; [by apply stored_insert | by apply stored_delete]. Qed.

Lemma core_image_write s t s' t' e v :
  core s t -> entity_ok e = true -> image s' e = Some v -> kv_db t' = written (kv_db t) e v ->
  (forall e', e' <> e -> image s' e' = image s e') ->
  uploads s' = uploads s -> completions s' = completions s -> parts s' = parts s ->
  nextAuditID s' = nextAuditID s -> auditHeadHash s' = auditHeadHash s ->
  kv_clock_calls t' = clock_calls s' -> kv_id_calls t' = id_calls s' ->
  (forall name id, bucketNameToID s' !! name = Some id -> is_Some (bucketsByID s' !! id)) -> core s' t'.
Proof.
  intros [C1 C2 C3 C4 C5 C6 C7 C8 C9 C10 C11 C12] He Hv Hdb Hother Hu Hc Hp Hseq Hhead Hclock Hids Hnames.
  split; rewrite ?Hdb, ?Hu, ?Hc, ?Hp, ?Hseq, ?Hhead; try done.
  - intros e' v' He' Hv'. rewrite stored_written by done. case_decide; [congruence|]. apply C3; [done|]. by rewrite <- Hother.
  - rewrite stored_written by done. case_decide; [by subst | done].
  - rewrite stored_written by done. case_decide; [by subst | done].
  - intros b k u up Hup. rewrite stored_written by done. case_decide; [by subst | eauto].
  - intros b u up. rewrite stored_written by done. case_decide; [by subst | eauto].
  - intros b k u up Hup. rewrite stored_written by done. case_decide; [by subst | eauto].
  - intros b u up. rewrite stored_written by done. case_decide; [by subst | eauto].
  - intros b k u n p Hup. destruct (C10 _ _ _ _ _ Hup) as (H1 & H2 & H3). rewrite stored_written; [case_decide; [by subst | eauto] | done | simpl; lia].
  - intros b u n p Hn. rewrite stored_written; [case_decide; [by subst | eauto] | done | simpl; lia].
Qed.

(** A write the relation does not look at. *)
Definition unrelated (e : entity) : bool :=
  match e with AuditEventOf _ | MultipartUploadByKeyOf _ _ _ => true | _ => false end.

Lemma core_unrelated s t e v : core s t -> unrelated e = true -> entity_ok e = true -> core s (t <| kv_db := written (kv_db t) e v |>).
Proof.
  intros [C1 C2 C3 C4 C5 C6 C7 C8 C9 C10 C11 C12] Hu He. destruct e; try discriminate Hu;
  (split; field_simpl; try done;
   [intros e' v' He' Hv'; rewrite stored_written by done; case_decide; [by subst | eauto]
   | rewrite stored_written by done; case_decide; done
   | rewrite stored_written by done; case_decide; done
   | intros; rewrite stored_written by done; case_decide; [done | eauto]
   | intros ? ? ?; rewrite stored_written by done; case_decide; [done | eauto]
   | intros; rewrite stored_written by done; case_decide; [done | eauto]
   | intros ? ? ?; rewrite stored_written by done; case_decide; [done | eauto]
   | intros ? ? ? n ? Hp; destruct (C10 _ _ _ _ _ Hp) as (? & ? & ?); rewrite stored_written; [case_decide; [done | eauto] | done | simpl; lia]
   | intros ? ? ? ? ?; rewrite stored_written; [case_decide; [done | eauto] | done | simpl; lia]]).
Qed.

(** Readings of the clock and identifiers drawn. *)
Lemma core_ticks s t n i : core s t -> core (s <| clock_calls := n |> <| id_calls := i |>) (t <| kv_clock_calls := n |> <| kv_id_calls := i |>).
Proof.
  intros [C1 C2 C3 C4 C5 C6 C7 C8 C9 C10 C11 C12]. by split.
Qed.

(** ** Simulation of one method *)

Definition agree {A} (x : outcome Err A * Repository) (y : outcome Err A * KvRepository) : Prop :=
  match x, y with
  | (Ok a, s), (Ok b, t) => a = b /\ core s t
  | (Fail e, s), (Fail e', t) => e = e' /\ (e = ErrUnavailable \/ core s t)
  | _, _ => False
  end.

Definition sim {A} (m : M A) (k : KM A) : Prop := forall s t, kv_ok (kv_db t) -> core s t -> agree (m s) (k t).

(** Runs the two monads. *)
Ltac exec :=
  cbv beta iota zeta delta [st_bind st_ret st_fail st_lift st_modify st_exec lookup_or gets now wall kgets run require getJSON
    kv_now kv_wall setJSON tx_Set tx_Delete through_json is_some getTenant getBucket update_bucket updateBucket].

(** ** Reads *)

Section Reads.
Context (s : Repository) (t : KvRepository) (Hc : core s t).
Lemma look_tenant id : kv_db t !! TenantKey id = V_Tenant <$> tenants s !! id.
Proof. by apply (co_image s t Hc (TenantOf id)). Qed.
Lemma look_tenant_quota id : kv_db t !! TenantQuotaKey id = V_TenantQuota <$> tenantQuotas s !! id.
Proof. by apply (co_image s t Hc (TenantQuotaOf id)). Qed.
Lemma look_tenant_usage id : kv_db t !! TenantUsageKey id = V_TenantUsage <$> tenantUsages s !! id.
Proof. by apply (co_image s t Hc (TenantUsageOf id)). Qed.
Lemma look_access_key id : kv_db t !! AccessKeyKey id = V_AccessKey <$> accessKeys s !! id.
Proof. by apply (co_image s t Hc (AccessKeyOf id)). Qed.
Lemma look_kms id : kv_db t !! KMSKeyKey id = V_KMSKey <$> kmsKeys s !! id.
Proof. by apply (co_image s t Hc (KMSKeyOf id)). Qed.
Lemma look_profile id : kv_db t !! ComplianceProfileAttachmentKey id = V_Profile <$> profiles s !! id.
Proof. by apply (co_image s t Hc (ComplianceProfileAttachmentOf id)). Qed.
Lemma look_name id : kv_db t !! BucketByNameKey id = V_BucketID <$> bucketNameToID s !! id.
Proof. by apply (co_image s t Hc (BucketByNameOf id)). Qed.
Lemma look_bucket id : kv_db t !! BucketByIDKey id = V_Bucket <$> bucketsByID s !! id.
Proof. by apply (co_image s t Hc (BucketByIDOf id)). Qed.
Lemma look_bucket_quota id : entity_ok (BucketQuotaOf id) = true -> kv_db t !! BucketQuotaKey id = V_BucketQuota <$> bucketQuotas s !! id.
Proof. intros He. by apply (co_image s t Hc (BucketQuotaOf id)). Qed.
End Reads.

Ltac reads := cbn [fmap option_fmap option_map decode as_Tenant as_TenantQuota as_TenantUsage as_AccessKey as_KMSKey as_Profile as_BucketID as_Bucket as_BucketQuota].
Ltac look Hc :=
  reads; field_simpl; rewrite ?(look_tenant _ _ Hc), ?(look_tenant_quota _ _ Hc), ?(look_tenant_usage _ _ Hc), ?(look_access_key _ _ Hc), ?(look_kms _ _ Hc), ?(look_profile _ _ Hc), ?(look_name _ _ Hc), ?(look_bucket _ _ Hc);
  reads; field_simpl; rewrite ?(co_clock _ _ Hc), ?(co_ids _ _ Hc).

(** The relation after the same readings, and after a write of one family. *)
Ltac same Hc := let C := fresh in pose proof Hc as C; destruct C; split; first [assumption | reflexivity].
Ltac fails Hc := split; [reflexivity | right; same Hc].

Lemma core_put s t s' t' e v :
  core s t -> entity_ok e = true -> image s' e = Some (Some v) -> kv_db t' = <[key_of e := v]> (kv_db t) ->
  (forall e', e' <> e -> image s' e' = image s e') ->
  uploads s' = uploads s -> completions s' = completions s -> parts s' = parts s ->
  nextAuditID s' = nextAuditID s -> auditHeadHash s' = auditHeadHash s ->
  kv_clock_calls t' = clock_calls s' -> kv_id_calls t' = id_calls s' ->
  (forall name id, bucketNameToID s' !! name = Some id -> is_Some (bucketsByID s' !! id)) -> core s' t'.
Proof. intros. by eapply (core_image_write s t s' t' e (Some v)). Qed.
Lemma core_remove s t s' t' e :
  core s t -> entity_ok e = true -> image s' e = Some None -> kv_db t' = delete (key_of e) (kv_db t) ->
  (forall e', e' <> e -> image s' e' = image s e') ->
  uploads s' = uploads s -> completions s' = completions s -> parts s' = parts s ->
  nextAuditID s' = nextAuditID s -> auditHeadHash s' = auditHeadHash s ->
  kv_clock_calls t' = clock_calls s' -> kv_id_calls t' = id_calls s' ->
  (forall name id, bucketNameToID s' !! name = Some id -> is_Some (bucketsByID s' !! id)) -> core s' t'.
Proof. intros. by eapply (core_image_write s t s' t' e None). Qed.

(** Names keep pointing at buckets when a bucket is written. *)
Lemma names_insert s t id b : core s t ->
  forall name id', bucketNameToID s !! name = Some id' -> is_Some (<[id := b]> (bucketsByID s) !! id').
Proof. intros Hc name id' Hn. destruct (decide (id = id')) as [->|Hne]; [by rewrite lookup_insert_eq|]. rewrite lookup_insert_ne by done. by eapply co_names. Qed.

Ltac image_frame :=
  let e := fresh "e" in intros e ?; destruct e; cbn [image]; field_simpl; try reflexivity;
  rewrite ?lookup_insert_ne, ?lookup_delete_ne by congruence; reflexivity.
Ltac writes Hc e := eapply (core_put _ _ _ _ e);
  [exact Hc | try done | cbn [image]; field_simpl; rewrite lookup_insert_eq; reflexivity | reflexivity | image_frame | reflexivity..| | |];
  first [exact (co_names _ _ Hc) | field_simpl; rewrite ?(co_clock _ _ Hc), ?(co_ids _ _ Hc); try reflexivity].
Ltac removes Hc e := eapply (core_remove _ _ _ _ e);
  [exact Hc | try done | cbn [image]; field_simpl; rewrite lookup_delete_eq; reflexivity | reflexivity | image_frame | reflexivity..| | |];
  first [exact (co_names _ _ Hc) | field_simpl; rewrite ?(co_clock _ _ Hc), ?(co_ids _ _ Hc); try reflexivity].

(** One case distinction of the two runs: a record, a test, a builder. *)
Ltac cases Hc :=
  look Hc;
  lazymatch goal with
  | |- agree (Fail _, _) (Fail _, _) => fails Hc
  | |- agree (Ok _, _) (Ok _, _) => split; [try reflexivity|]
  | |- context [match ?m !! ?k with _ => _ end] => destruct (m !! k) eqn:?
  | |- context [_ <$> ?m !! ?k] => destruct (m !! k) eqn:?
  | |- context [if ?c then _ else _] => destruct c eqn:?
  | |- agree (match ?o with _ => _ end) _ => destruct o eqn:?
  | |- agree (match ?o with _ => _ end, _) _ => destruct o eqn:?
  end.
Ltac sims := let s := fresh "s" in let t := fresh "t" in let Hok := fresh "Hok" in let Hc := fresh "Hc" in
  intros s t Hok Hc; exec; repeat cases Hc; try (same Hc).

Section Methods.
Context `{Env}.

Lemma sim_CreateTenant req : sim (RepoBuckets.CreateTenant req) (CreateTenant req).
Proof. unfold RepoBuckets.CreateTenant, CreateTenant. sims; writes Hc (TenantOf (ct_TenantID req)). Qed.
Lemma sim_GetTenant id : sim (RepoBuckets.GetTenant id) (GetTenant id).
Proof. unfold RepoBuckets.GetTenant, GetTenant. sims. Qed.
Ltac built lem := match goal with Hb : _ = Ok _ |- _ => rewrite ?(lem _ _ _ _ _ Hb) end.
Lemma sim_PutTenantQuota req : sim (RepoBuckets.PutTenantQuota req) (PutTenantQuota req).
Proof.
  unfold RepoBuckets.PutTenantQuota, PutTenantQuota. sims; built build_quota_id; writes Hc (TenantQuotaOf (tqr_TenantID req)).
Qed.
Lemma sim_GetTenantQuota id : sim (RepoBuckets.GetTenantQuota id) (GetTenantQuota id).
Proof. unfold RepoBuckets.GetTenantQuota, GetTenantQuota. sims. Qed.
Lemma sim_DeleteTenantQuota id : sim (RepoBuckets.DeleteTenantQuota id) (DeleteTenantQuota id).
Proof. unfold RepoBuckets.DeleteTenantQuota, DeleteTenantQuota. sims; removes Hc (TenantQuotaOf id). Qed.
Lemma sim_PutTenantUsage req : sim (RepoBuckets.PutTenantUsage req) (PutTenantUsage req).
Proof.
  unfold RepoBuckets.PutTenantUsage, PutTenantUsage. sims; built build_usage_id; writes Hc (TenantUsageOf (tur_TenantID req)).
Qed.
Lemma sim_GetTenantUsage id : sim (RepoBuckets.GetTenantUsage id) (GetTenantUsage id).
Proof. unfold RepoBuckets.GetTenantUsage, GetTenantUsage. sims. Qed.
Lemma sim_PutAccessKey req : sim (RepoBuckets.PutAccessKey req) (PutAccessKey req).
Proof. unfold RepoBuckets.PutAccessKey, PutAccessKey. sims; writes Hc (AccessKeyOf (pak_AccessKeyID req)). Qed.
Lemma sim_GetAccessKey id : sim (RepoBuckets.GetAccessKey id) (GetAccessKey id).
Proof. unfold RepoBuckets.GetAccessKey, GetAccessKey. sims. Qed.
Lemma sim_GetKMSKey id : sim (RepoBuckets.GetKMSKey id) (GetKMSKey id).
Proof. unfold RepoBuckets.GetKMSKey, GetKMSKey. sims. Qed.
Lemma sim_GetBucketCORS id : sim (RepoBuckets.GetBucketCORS id) (GetBucketCORS id).
Proof. unfold RepoBuckets.GetBucketCORS, GetBucketCORS. sims. Qed.
Lemma sim_GetBucketLifecycle id : sim (RepoBuckets.GetBucketLifecycle id) (GetBucketLifecycle id).
Proof. unfold RepoBuckets.GetBucketLifecycle, GetBucketLifecycle. sims. Qed.
Lemma sim_GetBucketEncryption id : sim (RepoBuckets.GetBucketEncryption id) (GetBucketEncryption id).
Proof. unfold RepoBuckets.GetBucketEncryption, GetBucketEncryption. sims. Qed.
Lemma sim_GetBucketPolicy id : sim (RepoBuckets.GetBucketPolicy id) (GetBucketPolicy id).
Proof. unfold RepoBuckets.GetBucketPolicy, GetBucketPolicy. sims. Qed.
Lemma sim_GetBucketObjectLock id : sim (RepoBuckets.GetBucketObjectLock id) (GetBucketObjectLock id).
Proof. unfold RepoBuckets.GetBucketObjectLock, GetBucketObjectLock. sims. Qed.

(** What the store has of an entity is typed. *)
Lemma typed_of s t e v x : kv_ok (kv_db t) -> core s t -> entity_ok e = true -> image s e = Some (Some v) -> x = v -> typed e x.
Proof. intros [Hwf _] Hc He Hi ->. apply (wf_lookup (kv_db t)); [done..|]. by apply (co_image s t Hc). Qed.

Lemma sim_PutKMSKey req : sim (RepoBuckets.PutKMSKey req) (PutKMSKey req).
Proof.
  unfold RepoBuckets.PutKMSKey, PutKMSKey. intros s t Hok Hc. exec. cases Hc; [cases Hc|]. look Hc.
  destruct (kmsKeys s !! TrimSpace (pkk_KeyID req)) as [k|] eqn:Hk.
  - destruct (typed_of s t (KMSKeyOf (TrimSpace (pkk_KeyID req))) (V_KMSKey k) _ Hok Hc eq_refl ltac:(by cbn [image]; rewrite Hk) eq_refl) as [Hid Hne].
    cbn [default from_option id]. rewrite Hid. apply String.eqb_neq in Hne. rewrite Hne. look Hc. rewrite Hid. cases Hc. writes Hc (KMSKeyOf (TrimSpace (pkk_KeyID req))).
  - cbn [default from_option id]. change (kms_KeyID zero_KMSKeyRecord =s "") with true. look Hc. cases Hc. writes Hc (KMSKeyOf (TrimSpace (pkk_KeyID req))).
Qed.

(** ** The audit chain *)

Lemma core_audit s t t' id hash ev eid event :
  core s t ->
  kv_db t' = <[AuditHeadKey := V_AuditHead hash]> (<[AuditEventKey eid := V_AuditEvent event]> (<[sequenceKey "audit" := V_Sequence id]> (kv_db t))) ->
  kv_clock_calls t' = S (clock_calls s) -> kv_id_calls t' = kv_id_calls t ->
  core (s <| nextAuditID := id |> <| clock_calls := S (clock_calls s) |> <| auditHeadHash := hash |> <| auditEvents := ev |>) t'.
Proof.
  intros [C1 C2 C3 C4 C5 C6 C7 C8 C9 C10 C11 C12] Hdb Hclock Hids.
  change (kv_db t' = <[key_of AuditHeadOf := V_AuditHead hash]> (<[key_of (AuditEventOf eid) := V_AuditEvent event]>
    (<[key_of (SequenceOf "audit") := V_Sequence id]> (kv_db t)))) in Hdb.
  assert (forall e, entity_ok e = true -> e <> AuditHeadOf -> e <> AuditEventOf eid -> e <> SequenceOf "audit" ->
    stored (kv_db t') e = stored (kv_db t) e) as Hst.
  { intros e He Hn1 Hn2 Hn3. rewrite Hdb, !stored_insert by done. by rewrite !decide_False. }
  split; field_simpl; try done; try congruence.
  - intros e v He Hv. rewrite Hst; [by apply C3 | done | by intros ->..].
  - left. rewrite Hdb, !stored_insert by done. by repeat case_decide.
  - left. rewrite Hdb, stored_insert by done. by case_decide.
  - intros. rewrite Hst by done. eauto.
  - intros ? ? ?. rewrite Hst by done. eauto.
  - intros. rewrite Hst by done. eauto.
  - intros ? ? ?. rewrite Hst by done. eauto.
  - intros b k u n' p Hp. destruct (C10 _ _ _ _ _ Hp) as (? & ? & ?). rewrite Hst; [eauto | simpl; lia | done..].
  - intros b u n' p Hn'. rewrite Hst; [eauto | simpl; lia | done..].
Qed.

Lemma read_sequence s t : core s t -> exists o, getJSON as_Sequence (sequenceKey "audit") t = (Ok o, t) /\ default 0 o = nextAuditID s.
Proof.
  intros Hc. unfold getJSON. change (kv_db t !! sequenceKey "audit") with (stored (kv_db t) (SequenceOf "audit")).
  destruct (co_audit_seq s t Hc) as [->|[-> Hz]]; eexists; by split.
Qed.
Lemma read_audit_head s t v : core s t -> exists o, getJSON as_AuditHead AuditHeadKey (t <| kv_db := <[sequenceKey "audit" := v]> (kv_db t) |>)
    = (Ok o, t <| kv_db := <[sequenceKey "audit" := v]> (kv_db t) |>) /\ default "" o = auditHeadHash s.
Proof.
  intros Hc. unfold getJSON. field_simpl. rewrite lookup_insert_ne by (intros E; by apply (key_of_inj (SequenceOf "audit") AuditHeadOf) in E).
  change (kv_db t !! AuditHeadKey) with (stored (kv_db t) AuditHeadOf).
  destruct (co_audit_head s t Hc) as [->|[-> Hz]]; eexists; by split.
Qed.

Lemma sim_audit s t event : core s t ->
  exists s' t', appendAuditEventLocked event s = (Ok tt, s') /\ appendAuditEvent event t = (Ok tt, t') /\ core s' t'.
Proof.
  intros Hc. unfold appendAuditEventLocked, appendAuditEvent, nextSequence, reserveSequences, sequenceAudit. change (1 <=? 0) with false. cbv iota.
  destruct (read_sequence s t Hc) as (o & Eo & Ho). unfold st_bind. rewrite Eo. unfold st_modify, st_ret, setJSON at 1, tx_Set, st_modify.
  cbn [through_json]. rewrite Ho. destruct (read_audit_head s t (V_Sequence (int64 (nextAuditID s + 1))) Hc) as (h & Eh & Hh). rewrite Eh, Hh.
  unfold now, kv_now, setJSON, tx_Set, st_modify. field_simpl. cbn [through_json]. eexists _, _. split; [reflexivity|]. split; [reflexivity|].
  rewrite (co_clock s t Hc). eapply core_audit; [exact Hc|..]; reflexivity.
Qed.

(** A method that changes a bucket and appends an audit event. *)
Lemma sim_update_bucket (f : Bucket -> Bucket) id : (forall b, bk_BucketID (f b) = bk_BucketID b) -> sim (update_bucket id f) (run (updateBucket id f)).
Proof.
  intros Hf s t Hok Hc. exec. cases Hc; [|cases Hc]. cases Hc. rewrite Hf.
  destruct (typed_of s t (BucketByIDOf id) (V_Bucket b) _ Hok Hc eq_refl ltac:(cbn [image]; by rewrite Heqo) eq_refl).
  writes Hc (BucketByIDOf (bk_BucketID b)). by eapply names_insert.
Qed.

Lemma sim_guard {A} (c : bool) e (m : M A) (k : KM A) : sim m k -> sim (if c then st_fail e else m) (if c then st_fail e else k).
Proof. intros Hs. destruct c; [|done]. intros s t Hok Hc. fails Hc. Qed.
Lemma sim_lift {A B} (o : outcome Err B) (m : B -> M A) (k : B -> KM A) : (forall b, sim (m b) (k b)) -> sim (st_bind (st_lift o) m) (st_bind (st_lift o) k).
Proof. intros Hs s t Hok Hc. unfold st_bind, st_lift. destruct o; [by apply Hs | fails Hc]. Qed.

Lemma sim_bucket_audit (f : Bucket -> Bucket) (ev : Bucket -> AuditEvent) id : (forall b, bk_BucketID (f b) = bk_BucketID b) ->
  sim (let! b := update_bucket id f in appendAuditEventLocked (ev b) ;;! st_ret b)
      (run (let! b := updateBucket id f in appendAuditEvent (ev b) ;;! st_ret b)).
Proof.
  intros Hf s t Hok Hc. pose proof (sim_update_bucket f id Hf s t Hok Hc) as Hu. unfold run, st_bind in *.
  destruct (update_bucket id f s) as [[b|e] s1], (updateBucket id f t) as [[b'|e'] t1]; simpl in Hu; try contradiction; [|exact Hu].
  destruct Hu as [<- Hu]. destruct (sim_audit s1 t1 (ev b) Hu) as (s2 & t2 & -> & -> & Hc2). by split.
Qed.

Ltac sim_bucket := repeat first [apply sim_guard | apply sim_lift; intros ?]; first [by apply sim_bucket_audit | by apply sim_update_bucket].
Lemma sim_PutBucketCORS req : sim (RepoBuckets.PutBucketCORS req) (PutBucketCORS req).
Proof. unfold RepoBuckets.PutBucketCORS, PutBucketCORS. sim_bucket. Qed.
Lemma sim_DeleteBucketCORS id : sim (RepoBuckets.DeleteBucketCORS id) (DeleteBucketCORS id).
Proof. unfold RepoBuckets.DeleteBucketCORS, DeleteBucketCORS. sim_bucket. Qed.
Lemma sim_PutBucketLifecycle req : sim (RepoBuckets.PutBucketLifecycle req) (PutBucketLifecycle req).
Proof. unfold RepoBuckets.PutBucketLifecycle, PutBucketLifecycle. sim_bucket. Qed.
Lemma sim_DeleteBucketLifecycle id audit : sim (RepoBuckets.DeleteBucketLifecycle id audit) (DeleteBucketLifecycle id audit).
Proof. unfold RepoBuckets.DeleteBucketLifecycle, DeleteBucketLifecycle. sim_bucket. Qed.
Lemma sim_PutBucketEncryption req : sim (RepoBuckets.PutBucketEncryption req) (PutBucketEncryption req).
Proof. unfold RepoBuckets.PutBucketEncryption, PutBucketEncryption. sim_bucket. Qed.
Lemma sim_DeleteBucketEncryption id audit : sim (RepoBuckets.DeleteBucketEncryption id audit) (DeleteBucketEncryption id audit).
Proof. unfold RepoBuckets.DeleteBucketEncryption, DeleteBucketEncryption. sim_bucket. Qed.
Lemma sim_PutBucketPolicy req : sim (RepoBuckets.PutBucketPolicy req) (PutBucketPolicy req).
Proof. unfold RepoBuckets.PutBucketPolicy, PutBucketPolicy. sim_bucket. Qed.
Lemma sim_DeleteBucketPolicy id audit : sim (RepoBuckets.DeleteBucketPolicy id audit) (DeleteBucketPolicy id audit).
Proof. unfold RepoBuckets.DeleteBucketPolicy, DeleteBucketPolicy. sim_bucket. Qed.
Lemma sim_PutBucketObjectLock req : sim (RepoBuckets.PutBucketObjectLock req) (PutBucketObjectLock req).
Proof. unfold RepoBuckets.PutBucketObjectLock, PutBucketObjectLock. sim_bucket. Qed.

Lemma sim_PutBucketVersioning req : sim (RepoBuckets.PutBucketVersioning req) (PutBucketVersioning req).
Proof.
  intros s t Hok Hc. unfold RepoBuckets.PutBucketVersioning, PutBucketVersioning. rewrite negb_orb. exec. do 2 (cases Hc; [cases Hc|]).
  cases Hc; [|cases Hc]. look Hc. cases Hc; [cases Hc|]. look Hc. rewrite Heqo. cases Hc.
  destruct (typed_of s t (BucketByIDOf (pbv_BucketID req)) (V_Bucket b) _ Hok Hc eq_refl ltac:(cbn [image]; by rewrite Heqo) eq_refl).
  writes Hc (BucketByIDOf (bk_BucketID b)). by eapply names_insert.
Qed.

(** ** Bucket quotas *)

Definition quota_ok (id : string) : Prop := entity_ok (BucketQuotaOf id) = true.
Lemma sim_PutBucketQuota req : quota_ok (bqr_BucketID req) -> sim (RepoBuckets.PutBucketQuota req) (PutBucketQuota req).
Proof.
  intros Hq s t Hok Hc. unfold RepoBuckets.PutBucketQuota, PutBucketQuota. exec. cases Hc; [|cases Hc]. look Hc. rewrite (look_bucket_quota s t Hc _ Hq).
  repeat cases Hc; assert (bq_BucketID a = bqr_BucketID req) as -> by (unfold BuildBucketQuota in *; repeat case_match; by simplify_eq);
    writes Hc (BucketQuotaOf (bqr_BucketID req)).
Qed.
Lemma sim_GetBucketQuota id : quota_ok id -> sim (RepoBuckets.GetBucketQuota id) (GetBucketQuota id).
Proof.
  intros Hq s t Hok Hc. unfold RepoBuckets.GetBucketQuota, GetBucketQuota. exec. cases Hc; [|cases Hc]. look Hc. rewrite (look_bucket_quota s t Hc _ Hq).
  repeat cases Hc. same Hc.
Qed.
Lemma sim_DeleteBucketQuota id : quota_ok id -> sim (RepoBuckets.DeleteBucketQuota id) (DeleteBucketQuota id).
Proof.
  intros Hq s t Hok Hc. unfold RepoBuckets.DeleteBucketQuota, DeleteBucketQuota. exec. cases Hc; [|cases Hc]. look Hc. rewrite (look_bucket_quota s t Hc _ Hq).
  repeat cases Hc. removes Hc (BucketQuotaOf id).
Qed.

(** ** Creating and finding buckets *)

Lemma sim_GetBucketByName name : sim (RepoBuckets.GetBucketByName name) (GetBucketByName name).
Proof.
  intros s t Hok Hc. unfold RepoBuckets.GetBucketByName, GetBucketByName. exec. cases Hc; [|cases Hc]. look Hc.
  destruct (co_names s t Hc _ _ Heqo) as [b Hb]. rewrite Hb. repeat cases Hc. same Hc.
Qed.

Lemma sim_fresh {T} n kind (taken : Repository -> string -> bool) (as_T : kvalue -> option T) key s t :
  kv_id_calls t = id_calls s -> (forall id i, taken (s <| id_calls := i |>) id = taken s id) ->
  (forall id, exists o, (match kv_db t !! key id with None => Ok None | Some v => match decode as_T v with Ok x => Ok (Some x) | Fail e => Fail e end end) = Ok o /\ is_some o = taken s id) ->
  exists i r, fresh_id n kind taken s = (r, s <| id_calls := i |>) /\ kv_fresh_id n kind as_T key t = (r, t <| kv_id_calls := i |>) /\
    match r with Ok id => taken s id = false | Fail e => e = ErrUnavailable end.
Proof.
  intros Hids Htaken Hread.
  assert (forall i0, exists i r, fresh_id n kind taken (s <| id_calls := i0 |>) = (r, s <| id_calls := i |>) /\
    kv_fresh_id n kind as_T key (t <| kv_id_calls := i0 |>) = (r, t <| kv_id_calls := i |>) /\
    match r with Ok id => taken s id = false | Fail e => e = ErrUnavailable end) as Hall.
  { induction n as [|n IH]; intros i0; [by eexists _, _|]. cbn [fresh_id kv_fresh_id]. unfold st_bind, NewID, kv_NewID, gets, getJSON. field_simpl.
    change (s <| id_calls := i0 |> <| id_calls := S i0 |>) with (s <| id_calls := S i0 |>).
    change (t <| kv_id_calls := i0 |> <| kv_id_calls := S i0 |>) with (t <| kv_id_calls := S i0 |>).
    destruct (env_newID i0 kind) as [id|]; [|by eexists _, _]. destruct (Hread id) as (o & -> & Ho). rewrite Htaken, <- Ho.
    destruct (is_some o) eqn:Hsome; [apply IH|]. eexists _, _. split; [reflexivity|]. split; [reflexivity|]. simpl. congruence. }
  assert (s <| id_calls := id_calls s |> = s) as Es by (by destruct s).
  assert (t <| kv_id_calls := id_calls s |> = t) as Et by (rewrite <- Hids; by destruct t).
  specialize (Hall (id_calls s)). by rewrite Es, Et in Hall.
Qed.

Lemma core_ids s t i : core s t -> core (s <| id_calls := i |>) (t <| kv_id_calls := i |>).
Proof. intros []. by split. Qed.

Lemma core_new_bucket s t i n a name bk : core s t ->
  core (s <| id_calls := i |> <| clock_calls := n |> <| bucketsByID := <[a := bk]> (bucketsByID s) |> <| bucketNameToID := <[name := a]> (bucketNameToID s) |>)
       (t <| kv_id_calls := i |> <| kv_clock_calls := n |> <| kv_db := <[BucketByIDKey a := V_Bucket bk]> (kv_db t) |>
          <| kv_db := <[BucketByNameKey name := V_BucketID a]> (<[BucketByIDKey a := V_Bucket bk]> (kv_db t)) |>).
Proof.
  intros Hc. assert (core (s <| id_calls := i |> <| clock_calls := n |> <| bucketsByID := <[a := bk]> (bucketsByID s) |>)
    (t <| kv_id_calls := i |> <| kv_clock_calls := n |> <| kv_db := <[BucketByIDKey a := V_Bucket bk]> (kv_db t) |>)) as Hc1.
  { writes Hc (BucketByIDOf a). by eapply names_insert. }
  writes Hc1 (BucketByNameOf name). intros nm id [[<- <-]|[_ Hnm]]%lookup_insert_Some; [by rewrite lookup_insert_eq | by eapply names_insert].
Qed.

Lemma sim_CreateBucket req : sim (RepoBuckets.CreateBucket req) (CreateBucket req).
Proof.
  unfold RepoBuckets.CreateBucket, CreateBucket. apply sim_guard. intros s t Hok Hc.
  destruct (sim_fresh idCollisionRetryLimit KindBucket (fun s id => is_some (bucketsByID s !! id)) as_Bucket BucketByIDKey s t (co_ids s t Hc)) as (i & r & E1 & E2 & Hr).
  { done. } { intros id. rewrite (look_bucket s t Hc). destruct (bucketsByID s !! id); by eexists. }
  unfold is_some in E1. exec. look Hc. destruct (bucketNameToID s !! cb_Name req) eqn:Hn; look Hc; [fails Hc|]. rewrite E1, E2.
  destruct r as [a|e]; [|split; [done | by left]]. destruct (cb_ObjectLockEnabled req); field_simpl; rewrite ?(co_clock s t Hc);
    (split; [reflexivity | by apply core_new_bucket]).
Qed.

Lemma sim_PutComplianceProfileAttachment req : sim (RepoBuckets.PutComplianceProfileAttachment req) (PutComplianceProfileAttachment req).
Proof.
  intros s t Hok Hc. unfold RepoBuckets.PutComplianceProfileAttachment, PutComplianceProfileAttachment, validateComplianceProfileAttachmentRequest, isValidObjectLockMode.
  exec. repeat match goal with |- agree ((if ?c then _ else _) _) _ => destruct c; [fails Hc|] end. look Hc. destruct (profiles s !! TrimSpace (pcp_ProfileID req)) as [k|] eqn:Hk.
  - destruct (typed_of s t (ComplianceProfileAttachmentOf (TrimSpace (pcp_ProfileID req))) (V_Profile k) _ Hok Hc eq_refl ltac:(by cbn [image]; rewrite Hk) eq_refl) as [Hid Hne].
    cbn [default from_option id]. rewrite Hid. apply String.eqb_neq in Hne. rewrite Hne. look Hc. rewrite Hid. cases Hc.
    writes Hc (ComplianceProfileAttachmentOf (TrimSpace (pcp_ProfileID req))).
  - cbn [default from_option id]. change (cpa_ProfileID zero_ComplianceProfileAttachment =s "") with true. look Hc. cases Hc.
    writes Hc (ComplianceProfileAttachmentOf (TrimSpace (pcp_ProfileID req))).
Qed.
End Methods.
