(* ===== verification/KvMultipartRefines.v ===== *)
(** * KvMultipartRefines: multipart uploads of the KV repository refine those in memory

    The multipart methods simulate those of the memory repository under the relation
    of [KvRefines]. Parts are listed by a scan of their key prefix; part numbers are
    padded to five digits, so the scan meets them in numeric order. *)

From S2P Require Import Prelude GoLib GoText Sha256 StorageTypes Model Requests Encoding Meta Manifest.
From S2P Require Import Repo RepoBuckets RepoMultipart MultipartInv Multipart.
From S2P Require Import Keyspace KvStore KvRepo KvObjects KvMeta KvMultipart KvInv KvMetaInv KvRefines.
From Stdlib Require Import Sorted Ascii.
Open Scope string_scope.
Open Scope Z_scope.

(** ** Part numbers in key order *)

Lemma parse_digits_bounds l acc z : 0 <= acc -> parse_digits acc l = Some z ->
  acc * 10 ^ Z.of_nat (length l) <= z < (acc + 1) * 10 ^ Z.of_nat (length l).
Proof.
  revert acc. induction l as [|c l IH]; intros acc Hacc; cbn [parse_digits length]; [intros [= <-]; lia|].
  destruct (byte_in 48 57 c) eqn:Hc; [|done]. unfold byte_in in Hc. apply andb_true_iff in Hc as [H1%N.leb_le H2%N.leb_le].
  intros Hp. apply IH in Hp; [|lia]. rewrite Nat2Z.inj_succ, Z.pow_succ_r by lia. nia.
Qed.

Lemma digits_ordered l1 l2 acc z1 z2 : 0 <= acc -> length l1 = length l2 ->
  parse_digits acc l1 = Some z1 -> parse_digits acc l2 = Some z2 -> z1 < z2 ->
  str_ltb (String.string_of_list_ascii l1) (String.string_of_list_ascii l2) = true.
Proof.
  revert l2 acc. induction l1 as [|c l1 IH]; intros [|d l2] acc Hacc Hlen; cbn [parse_digits length] in *; try lia; [intros; simplify_eq; lia|].
  destruct (byte_in 48 57 c) eqn:Hc, (byte_in 48 57 d) eqn:Hd; try done. intros P1 P2 Hlt. cbn [String.string_of_list_ascii str_ltb].
  destruct (Ascii.eqb_spec c d) as [->|Hne].
  - eapply (IH l2 (acc * 10 + (Z.of_N (N_of_ascii d) - 48))); [|lia|done..].
    unfold byte_in in Hd. apply andb_true_iff in Hd as [H1%N.leb_le _]. lia.
  - unfold byte_in in Hc, Hd. apply andb_true_iff in Hc as [C1%N.leb_le C2%N.leb_le], Hd as [D1%N.leb_le D2%N.leb_le].
    apply parse_digits_bounds in P1, P2; try lia. unfold ascii_ltb. apply N.ltb_lt.
    assert (N_of_ascii c <> N_of_ascii d) as Hnn by (intros E; apply Hne; by rewrite <- (ascii_N_embedding c), E, ascii_N_embedding).
    assert (length l1 = length l2) as Hl by lia. rewrite Hl in P1. assert (0 < 10 ^ Z.of_nat (length l2)) by (apply Z.pow_pos_nonneg; lia). nia.
Qed.

Lemma leftPadInt_length z w : (String.length (Itoa z) <= w)%nat -> String.length (leftPadInt z w) = w.
Proof.
  intros Hw. unfold leftPadInt. destruct (Nat.leb_spec w (String.length (Itoa z))); [lia|].
  rewrite str_length_app. assert (forall n, String.length (repeat_str n "0") = n) as -> by (induction n as [|n IH]; [done|]; cbn [repeat_str]; rewrite str_length_app, IH; done). lia.
Qed.

(** Part numbers have at most five digits. *)
Definition part_range : list Z := map Z.of_nat (seq 0 (Z.to_nat 10001)).
Lemma part_digits : forallb (fun z => (String.length (Itoa z) <=? 5)%nat) part_range = true.
Proof. vm_compute. reflexivity. Qed.

Lemma part_number_digits n : 0 <= n <= MaxMultipartParts -> String.length (leftPadInt n 5) = 5%nat.
Proof.
  intros Hn. apply leftPadInt_length. pose proof part_digits as Hall. rewrite forallb_forall in Hall. apply Nat.leb_le, Hall.
  unfold part_range. rewrite in_map_iff. exists (Z.to_nat n). rewrite in_seq. unfold MaxMultipartParts in Hn. lia.
Qed.

Lemma part_key_prefix b u n : MultipartPartKey b u n = partPrefix b u +:+ leftPadInt n 5.
Proof. rewrite partPrefix_eq. autounfold with keys. cbn [join_slash]. str_norm. done. Qed.

Lemma part_key_order b u m n : 0 <= m <= MaxMultipartParts -> 0 <= n <= MaxMultipartParts -> m < n ->
  str_lt (MultipartPartKey b u m) (MultipartPartKey b u n).
Proof.
  intros Hm Hn Hlt. rewrite !part_key_prefix. unfold str_lt. rewrite str_ltb_prefixed.
  rewrite <- (String.string_of_list_ascii_of_string (leftPadInt m 5)), <- (String.string_of_list_ascii_of_string (leftPadInt n 5)).
  eapply (digits_ordered _ _ 0); [lia| |apply parse_leftPadInt; lia|apply parse_leftPadInt; lia|done].
  assert (forall s, length (String.list_ascii_of_string s) = String.length s) as Hl by (induction s as [|c s IH]; simpl; congruence).
  rewrite !Hl, !part_number_digits by lia. done.
Qed.

(** ** Uploads *)

Section Uploads.
Context (s : Repository) (t : KvRepository) (Hc : core s t).

Lemma upload_unique b k k' u : is_Some (uploads s !! mk_uploadKey b k u) -> is_Some (uploads s !! mk_uploadKey b k' u) -> k = k'.
Proof.
  intros [up H1] [up' H2]. apply (co_upload_to s t Hc) in H1 as [E1 <-], H2 as [E2 <-]. by simplify_eq.
Qed.

(** Both repositories find the same upload or none. *)
Lemma sim_getUpload req : kv_ok (kv_db t) ->
  exists r, getUploadLocked req s = (r, s) /\ getUpload req t = (r, t) /\
    match r with
    | Ok up => uploads s !! upload_key req = Some up /\ mu_BucketID up = mur_BucketID req /\ mu_UploadID up = mur_UploadID req /\
        mu_Key up = mur_Key req /\ utf8 (mu_Key up)
    | Fail e => e <> ErrUnavailable
    end.
Proof.
  intros [Hwf _]. unfold getUploadLocked, getUpload. destruct (_ || _); [by eexists|]. unfold lookup_or, require, getJSON, st_bind, st_ret, st_fail.
  change (kv_db t !! MultipartUploadKey (mur_BucketID req) (mur_UploadID req)) with (stored (kv_db t) (MultipartUploadOf (mur_BucketID req) (mur_UploadID req))).
  destruct (uploads s !! upload_key req) as [up|] eqn:Hup.
  - destruct (co_upload_to s t Hc _ _ _ _ Hup) as [E Hk]. pose proof (wf_lookup _ (MultipartUploadOf (mur_BucketID req) (mur_UploadID req)) _ Hwf eq_refl E) as (HB & HU & Hutf).
    rewrite E. cbn. rewrite Hk, String.eqb_refl. cbn. eexists. by split_and!.
  - destruct (stored (kv_db t) _) as [v|] eqn:Hv; [|by eexists]. pose proof (wf_lookup _ (MultipartUploadOf (mur_BucketID req) (mur_UploadID req)) _ Hwf eq_refl Hv) as Ht.
    destruct v; simpl in Ht; try contradiction. rename upload into up. cbn.
    destruct (String.eqb_spec (mu_Key up) (mur_Key req)) as [Hk|]; cbn; [|by eexists].
    apply (co_upload_from s t Hc) in Hv. rewrite Hk in Hv. unfold upload_key in Hup. congruence.
Qed.

(** The relation after an upload was written under its own key. *)
Lemma core_set_upload b k u up : mu_BucketID up = b -> mu_Key up = k -> mu_UploadID up = u -> utf8 k ->
  (forall k', is_Some (uploads s !! mk_uploadKey b k' u) -> k' = k) ->
  exists db, setMultipartUpload up t = (Ok tt, t <| kv_db := db |>) /\
    core (s <| uploads := <[mk_uploadKey b k u := up]> (uploads s) |>) (t <| kv_db := db |>).
Proof.
  intros HB HK HU Hutf Huniq. set (db1 := <[MultipartUploadKey b u := V_Upload up]> (kv_db t)).
  assert (core (s <| uploads := <[mk_uploadKey b k u := up]> (uploads s) |>) (t <| kv_db := db1 |>)) as Hc1.
  { destruct Hc as [C1 C2 C3 C4 C5 C6 C7 C8 C9 C10 C11 C12].
    assert (forall e, entity_ok e = true -> stored db1 e = if decide (MultipartUploadOf b u = e) then Some (V_Upload up) else stored (kv_db t) e) as Hst
      by (intros e He; by apply (stored_insert _ (MultipartUploadOf b u))).
    split; field_simpl; try done.
    - intros e v He Hv. rewrite Hst by done. case_decide; [by subst e|]. by apply C3.
    - by rewrite Hst, decide_False.
    - by rewrite Hst, decide_False.
    - intros b' k' u' up' [[[= <- <- <-] <-]|[Hne Hup]]%lookup_insert_Some; rewrite Hst by done.
      + by rewrite decide_True.
      + case_decide as Heq; [|by apply C6]. injection Heq as <- <-. exfalso. apply Hne. by rewrite (Huniq k') by done.
    - intros b' u' up'. rewrite Hst by done. case_decide as Heq.
      + injection Heq as <- <-. intros [= <-]. by rewrite HK, lookup_insert_eq.
      + intros Hup. rewrite lookup_insert_ne; [by apply C7 | congruence].
    - intros b' k' u' r Hr. destruct (C8 _ _ _ _ Hr) as (E & Hk & Hs). rewrite Hst by done. rewrite decide_False by done. split_and!; try done.
      by apply lookup_insert_is_Some'; right.
    - intros b' u' r. rewrite Hst, decide_False by done. apply C9.
    - intros b' k' u' n p Hp. destruct (C10 _ _ _ _ _ Hp) as (E & Hn & Hs). rewrite Hst by (simpl; lia). rewrite decide_False by done. split_and!; try done; try lia.
      by apply lookup_insert_is_Some'; right.
    - intros b' u' n p Hn. rewrite Hst by (simpl; lia). rewrite decide_False by done. by apply C11. }
  unfold setMultipartUpload, setJSON, tx_Set, tx_Delete, st_bind, st_modify. cbn [through_json]. rewrite HB, HU, HK, Hutf.
  assert (up <| mu_Key := k |> = up) as -> by (rewrite <- HK; by destruct up). fold db1.
  destruct (negb _); (eexists; split; [reflexivity|]); field_simpl.
  - by apply (core_unrelated _ _ (MultipartUploadByKeyOf b k u) None Hc1).
  - by apply (core_unrelated _ _ (MultipartUploadByKeyOf b k u) (Some (V_UploadIndex u)) Hc1).
Qed.

(** The relation after a part was written. *)
Lemma core_put_part b k u n p : is_Some (uploads s !! mk_uploadKey b k u) -> 1 <= n <= MaxMultipartParts ->
  core (s <| parts := <[mk_partKey b k u n := p]> (parts s) |>) (t <| kv_db := <[MultipartPartKey b u n := V_Part p]> (kv_db t) |>).
Proof.
  intros Hup Hn. change (MultipartPartKey b u n) with (key_of (MultipartPartOf b u n)).
  pose proof Hc as [C1 C2 C3 C4 C5 C6 C7 C8 C9 C10 C11 C12].
  assert (forall e, entity_ok e = true -> e <> MultipartPartOf b u n -> stored (<[key_of (MultipartPartOf b u n) := V_Part p]> (kv_db t)) e = stored (kv_db t) e) as Hst
    by (intros e He Hne; rewrite stored_insert; [by rewrite decide_False | simpl; lia | done]).
  split; field_simpl; try done.
  - intros e v He Hv. rewrite Hst; [by apply C3 | done | by intros ->].
  - by rewrite Hst.
  - by rewrite Hst.
  - intros b' k' u' up' Hup'. rewrite Hst by done. by apply C6.
  - intros b' u' up'. rewrite Hst by done. apply C7.
  - intros b' k' u' r Hr. rewrite Hst by done. by apply C8.
  - intros b' u' r. rewrite Hst by done. apply C9.
  - intros b' k' u' n' p' [[[= <- <- <- <-] <-]|[Hne Hp]]%lookup_insert_Some.
    + rewrite stored_insert by (simpl; lia). by rewrite decide_True.
    + destruct (C10 _ _ _ _ _ Hp) as (E & Hn' & Hs). rewrite Hst; [done | simpl; lia|]. intros [= -> -> ->].
      by rewrite (upload_unique b k k' u) in Hne.
  - intros b' u' n' p' Hn'. rewrite stored_insert by (simpl; lia). case_decide as Heq.
    + injection Heq as <- <- <-. intros [= <-]. exists k. by rewrite lookup_insert_eq.
    + intros Hp. destruct (C11 _ _ _ _ Hn' Hp) as [k' Hk']. exists k'. rewrite lookup_insert_ne by congruence. done.
Qed.

(** The relation after a completion record was written. *)
Lemma core_put_completion b k u r : is_Some (uploads s !! mk_uploadKey b k u) -> mcr_Key r = k ->
  core (s <| completions := <[mk_uploadKey b k u := r]> (completions s) |>) (t <| kv_db := <[MultipartCompletionKey b u := V_Completion r]> (kv_db t) |>).
Proof.
  intros Hup Hk. change (MultipartCompletionKey b u) with (key_of (MultipartCompletionOf b u)).
  pose proof Hc as [C1 C2 C3 C4 C5 C6 C7 C8 C9 C10 C11 C12].
  assert (forall e, entity_ok e = true -> e <> MultipartCompletionOf b u -> stored (<[key_of (MultipartCompletionOf b u) := V_Completion r]> (kv_db t)) e = stored (kv_db t) e) as Hst
    by (intros e He Hne; rewrite stored_insert by done; by rewrite decide_False).
  split; field_simpl; try done.
  - intros e v He Hv. rewrite Hst; [by apply C3 | done | by intros ->].
  - by rewrite Hst.
  - by rewrite Hst.
  - intros b' k' u' up' Hup'. rewrite Hst by done. by apply C6.
  - intros b' u' up'. rewrite Hst by done. apply C7.
  - intros b' k' u' r' [[[= <- <- <-] <-]|[Hne Hr]]%lookup_insert_Some.
    + rewrite stored_insert by done. by rewrite decide_True.
    + destruct (C8 _ _ _ _ Hr) as (E & Hk' & Hs). rewrite Hst; [done..|]. intros [= -> ->]. by rewrite (upload_unique b k k' u) in Hne.
  - intros b' u' r'. rewrite stored_insert by done. case_decide as Heq.
    + injection Heq as <- <-. intros [= <-]. by rewrite Hk, lookup_insert_eq.
    + intros Hr. rewrite lookup_insert_ne; [by apply C9 | congruence].
  - intros b' k' u' n p Hp. destruct (C10 _ _ _ _ _ Hp) as (E & Hn & Hs). rewrite Hst; [done | simpl; lia | done].
  - intros b' u' n p Hn. rewrite Hst; [by apply C11 | simpl; lia | done].
Qed.

Lemma core_delete_part b k u n : is_Some (uploads s !! mk_uploadKey b k u) -> 0 <= n ->
  core (s <| parts := delete (mk_partKey b k u n) (parts s) |>) (t <| kv_db := delete (MultipartPartKey b u n) (kv_db t) |>).
Proof.
  intros Hup Hn. change (MultipartPartKey b u n) with (key_of (MultipartPartOf b u n)).
  pose proof Hc as [C1 C2 C3 C4 C5 C6 C7 C8 C9 C10 C11 C12].
  assert (forall e, entity_ok e = true -> e <> MultipartPartOf b u n -> stored (delete (key_of (MultipartPartOf b u n)) (kv_db t)) e = stored (kv_db t) e) as Hst
    by (intros e He Hne; rewrite stored_delete; [by rewrite decide_False | simpl; lia | done]).
  split; field_simpl; try done.
  - intros e v He Hv. rewrite Hst; [by apply C3 | done | by intros ->].
  - by rewrite Hst.
  - by rewrite Hst.
  - intros b' k' u' up' Hup'. rewrite Hst by done. by apply C6.
  - intros b' u' up'. rewrite Hst by done. apply C7.
  - intros b' k' u' r Hr. rewrite Hst by done. by apply C8.
  - intros b' u' r. rewrite Hst by done. apply C9.
  - intros b' k' u' n' p' [Hne Hp]%lookup_delete_Some.
    destruct (C10 _ _ _ _ _ Hp) as (E & Hn' & Hs). rewrite Hst; [done | simpl; lia|]. intros [= -> -> ->]. by rewrite (upload_unique b k k' u) in Hne.
  - intros b' u' n' p' Hn'. rewrite stored_delete by (simpl; lia). case_decide as Heq; [done|].
    intros Hp. destruct (C11 _ _ _ _ Hn' Hp) as [k' Hk']. exists k'. rewrite lookup_delete_ne by congruence. done.
Qed.

(** A part read from the store is the one in memory. *)
Lemma look_part b k u n : is_Some (uploads s !! mk_uploadKey b k u) -> 0 <= n -> kv_ok (kv_db t) ->
  kv_db t !! MultipartPartKey b u n = V_Part <$> parts s !! mk_partKey b k u n.
Proof.
  intros Hup Hn [Hwf _]. change (kv_db t !! MultipartPartKey b u n) with (stored (kv_db t) (MultipartPartOf b u n)).
  destruct (parts s !! mk_partKey b k u n) as [p|] eqn:Hp; [by apply (co_part_to s t Hc) in Hp as [-> _]|].
  destruct (stored (kv_db t) (MultipartPartOf b u n)) as [v|] eqn:Hv; [|done]. exfalso.
  pose proof (wf_lookup _ (MultipartPartOf b u n) _ Hwf ltac:(simpl; lia) Hv) as Ht. destruct v; simpl in Ht; try contradiction.
  destruct (co_part_from s t Hc _ _ _ _ Hn Hv) as [k' Hk']. destruct (co_part_to s t Hc _ _ _ _ _ Hk') as (_ & _ & Hup').
  rewrite (upload_unique b k k' u Hup Hup') in Hp. congruence.
Qed.

(** ** The parts of an upload

    A scan of the prefix of an upload meets its parts by increasing number. *)
Section Scan.
Context (req : MultipartUploadRequest) (Hup : is_Some (uploads s !! upload_key req)) (Hok : kv_ok (kv_db t)).

Definition numbers (keys : list partKey) : list partKey := sort_by (fun a b => pk_partNumber a <? pk_partNumber b) keys.
Definition part_of_key (pk : partKey) : string := MultipartPartKey (mur_BucketID req) (mur_UploadID req) (pk_partNumber pk).

Lemma upload_part_key pk : pk ∈ (upload_parts s req).*1 ->
  exists p, pk = mk_partKey (mur_BucketID req) (mur_Key req) (mur_UploadID req) (pk_partNumber pk) /\ (pk, p) ∈ upload_parts s req /\
    parts s !! pk = Some p /\ 1 <= pk_partNumber pk <= MaxMultipartParts /\ mp_PartNumber p = pk_partNumber pk /\
    kv_db t !! part_of_key pk = Some (V_Part p).
Proof.
  intros ([pk' p] & -> & Hin)%list_elem_of_fmap. exists p. pose proof Hin as [Hp Hu]%elem_of_upload_parts%lookup_parts_of.
  destruct pk' as [b k u n]. unfold part_upload, upload_key in Hu. simpl in Hu. injection Hu as -> -> ->. cbn [fst pk_partNumber].
  destruct (co_part_to s t Hc _ _ _ _ _ Hp) as (E & Hn & _). split_and!; try done; try lia.
  destruct Hok as [Hwf _]. by pose proof (wf_lookup _ (MultipartPartOf _ _ n) _ Hwf ltac:(simpl; lia) E) as [_ ?].
Qed.

Lemma numbers_sorted l : (forall pk, pk ∈ l -> pk ∈ (upload_parts s req).*1) -> NoDup l -> StronglySorted str_lt (map part_of_key (numbers l)).
Proof.
  intros Hl Hnd. unfold numbers. pose proof (sort_by_sorted (fun a b => pk_partNumber a <? pk_partNumber b)
    ltac:(intros ? ?; rewrite Z.ltb_lt, Z.ltb_ge; lia) ltac:(unfold not_after; intros ? ? ?; rewrite !Z.ltb_ge; lia) l) as Hs.
  set (l' := sort_by _ l) in *. assert (forall pk, pk ∈ l' -> pk ∈ (upload_parts s req).*1) as Hl' by (intros pk; unfold l'; rewrite elem_of_sort_by; apply Hl).
  assert (NoDup l') as Hnd' by (unfold l'; by rewrite sort_by_perm). clearbody l'. clear Hl Hnd.
  induction Hs as [|x l' Hs IH Hx]; [constructor|]. simpl.
  constructor; [apply IH; [intros pk Hpk; apply Hl'; by right | by apply NoDup_cons in Hnd' as [_ ?]]|].
  apply Forall_forall. intros y (pk & <- & Hpk)%list_elem_of_In%in_map_iff. apply list_elem_of_In in Hpk.
  destruct (upload_part_key x) as (_ & Ex & _ & _ & Hnx & _); [apply Hl'; by left|].
  destruct (upload_part_key pk) as (_ & Epk & _ & _ & Hnpk & _); [apply Hl'; by right|].
  apply part_key_order; [lia..|]. pose proof (proj1 (Forall_forall _ _) Hx pk Hpk) as Hx'. unfold not_after in Hx'. apply Z.ltb_ge in Hx'.
  apply NoDup_cons in Hnd' as [Hnot _]. assert (pk_partNumber x <> pk_partNumber pk) by (intros E; apply Hnot; rewrite Ex, E, <- Epk; done). lia.
Qed.

Lemma upload_parts_keys_NoDup : NoDup (upload_parts s req).*1.
Proof. rewrite (upload_parts_perm s req). apply NoDup_fst_map_to_list. Qed.

Lemma part_scan :
  List.filter (fun k => HasPrefix k (partPrefix (mur_BucketID req) (mur_UploadID req))) (sorted_keys (kv_db t)) =
  map part_of_key (numbers (upload_parts s req).*1).
Proof.
  apply str_lt_sorted_ext; [apply filter_sorted, sorted_keys_sorted | apply numbers_sorted; [done | apply upload_parts_keys_NoDup]|].
  intros k. rewrite elem_of_list_filter_bool, elem_of_sorted_keys, list_elem_of_In, in_map_iff. split.
  - intros [Hpre [v Hv]]. destruct Hok as [Hwf _]. destruct (Hwf k v Hv) as (e & -> & He & Ht). destruct (under_parts _ _ e (conj He Hpre)) as [n ->].
    destruct v; simpl in Ht; try contradiction. simpl in He. destruct (co_part_from s t Hc _ _ _ _ ltac:(apply Z.leb_le; exact He) Hv) as [k' Hk'].
    destruct (co_part_to s t Hc _ _ _ _ _ Hk') as (_ & _ & Hup'). rewrite <- (upload_unique _ _ _ _ Hup Hup') in Hk'.
    exists (mk_partKey (mur_BucketID req) (mur_Key req) (mur_UploadID req) n). split; [done|]. apply list_elem_of_In. unfold numbers. rewrite elem_of_sort_by.
    apply list_elem_of_fmap. eexists (_, _). split; [reflexivity|]. apply elem_of_upload_parts, lookup_parts_of. by split.
  - intros (pk & <- & Hpk). apply list_elem_of_In in Hpk. unfold numbers in Hpk. rewrite elem_of_sort_by in Hpk.
    destruct (upload_part_key pk Hpk) as (p & _ & _ & _ & _ & _ & Hp). split; [|by eexists]. unfold part_of_key. rewrite part_key_prefix. apply HasPrefix_app.
Qed.

Lemma visit_parts l acc : (forall pk, pk ∈ l -> pk ∈ (upload_parts s req).*1) ->
  visit as_Part (fun acc _ part => ((acc ++ [part])%list, false)) (kv_db t) (map part_of_key l) acc = Ok (acc ++ omap (fun pk => parts s !! pk) l)%list.
Proof.
  revert acc. induction l as [|pk l IH]; intros acc Hl; [by rewrite app_nil_r|]. cbn [map visit].
  destruct (upload_part_key pk) as (p & _ & _ & Hp & _ & _ & ->); [apply Hl; by left|]. cbn [decode as_Part omap list_omap]. rewrite Hp.
  cbv iota beta. rewrite IH by (intros pk' Hpk'; apply Hl; by right). by rewrite <- app_assoc.
Qed.

Lemma upload_parts_values l : (forall kv, kv ∈ l -> kv ∈ upload_parts s req) -> omap (fun pk => parts s !! pk) l.*1 = l.*2.
Proof.
  induction l as [|[pk p] l IH]; intros Hl; [done|]. cbn. assert (parts s !! pk = Some p) as ->.
  { assert ((pk, p) ∈ upload_parts s req) as Hin by (apply Hl; by left). by apply elem_of_upload_parts, lookup_parts_of in Hin as [? _]. }
  f_equal. apply IH. intros kv Hkv. apply Hl. by right.
Qed.

Lemma list_parts_eq : listParts req t = (Ok (listPartsLocked s req), t).
Proof.
  unfold listParts, scanJSON, scanJSONWithKey, st_bind, kgets, st_lift. rewrite scan_all by (by rewrite partPrefix_eq). rewrite part_scan, visit_parts.
  2: { intros pk. unfold numbers. by rewrite elem_of_sort_by. }
  unfold st_ret, listPartsLocked. do 2 f_equal. rewrite app_nil_l. rewrite <- (upload_parts_values (upload_parts s req)) by done.
  apply sort_by_perm_eq.
  - intros ? ?; rewrite Z.ltb_lt, Z.ltb_ge; lia.
  - unfold not_after; intros ? ? ?; rewrite !Z.ltb_ge; lia.
  - intros x y (pk1 & H1 & E1)%list_elem_of_omap (pk2 & H2 & E2)%list_elem_of_omap. unfold not_after, numbers in *. rewrite !Z.ltb_ge. rewrite elem_of_sort_by in H1, H2.
    destruct (upload_part_key pk1 H1) as (p1 & K1 & _ & P1 & _ & N1 & _), (upload_part_key pk2 H2) as (p2 & K2 & _ & P2 & _ & N2 & _).
    intros L1 L2. assert (pk1 = pk2) as ->; [rewrite K1, K2; f_equal; simplify_eq; lia | congruence].
  - apply omap_Permutation. unfold numbers. apply sort_by_perm.
Qed.
End Scan.
End Uploads.

(** ** The counter of active uploads *)

Section Methods.
Context `{Env}.

Lemma sim_applyDelta s t tenantID delta now : kv_ok (kv_db t) -> core s t ->
  exists s' t', applyTenantActiveUploadDeltaLocked tenantID delta now s = (Ok tt, s') /\
    applyTenantActiveUploadDelta tenantID delta now t = (Ok tt, t') /\ core s' t'.
Proof.
  intros Hok Hc. unfold applyTenantActiveUploadDeltaLocked, applyTenantActiveUploadDelta. exec.
  destruct (tenantID =s "") eqn:Hid; [by eexists _, _|]. look Hc. destruct (tenants s !! tenantID); look Hc; cbn [negb]; [|by eexists _, _].
  destruct (tenantUsages s !! tenantID) as [u|] eqn:Hu; look Hc; cbn [default from_option id].
  - pose proof (typed_of s t (TenantUsageOf tenantID) (V_TenantUsage u) _ Hok Hc eq_refl ltac:(by cbn [image]; rewrite Hu) eq_refl) as Ht. simpl in Ht.
    unfold ApplyTenantActiveUploadDelta. rewrite Hid, Ht, String.eqb_refl, andb_false_r. cbv iota zeta. eexists _, _. split; [reflexivity|]. split; [reflexivity|].
    writes Hc (TenantUsageOf tenantID).
  - unfold ApplyTenantActiveUploadDelta. rewrite Hid. change (tu_TenantID zero_TenantUsage =s "") with true. cbn [negb andb]. cbv iota zeta.
    eexists _, _. split; [reflexivity|]. split; [reflexivity|]. writes Hc (TenantUsageOf tenantID).
Qed.

Lemma sim_applyDeltaForBucket s t b delta now : kv_ok (kv_db t) -> core s t ->
  exists s' t', applyTenantActiveUploadDeltaForBucketLocked b delta now s = (Ok tt, s') /\
    applyTenantActiveUploadDeltaForBucket b delta now t = (Ok tt, t') /\ core s' t'.
Proof.
  intros Hok Hc. unfold applyTenantActiveUploadDeltaForBucketLocked, applyTenantActiveUploadDeltaForBucket, st_bind, gets, getJSON.
  rewrite (look_bucket s t Hc). destruct (bucketsByID s !! b); cbn; [by apply sim_applyDelta | by eexists _, _].
Qed.

Lemma sim_enforce s t tenantID : core s t ->
  enforceTenantActiveUploadQuota tenantID t = (checkTenantActiveUploadQuotaLocked s tenantID, t).
Proof.
  intros Hc. unfold enforceTenantActiveUploadQuota, checkTenantActiveUploadQuotaLocked. exec. destruct (tenantID =s ""); [done|]. look Hc.
  destruct (tenantQuotas s !! tenantID) as [q|]; look Hc; [|done]. destruct (_ <=? 0); [done|]. look Hc.
  destruct (tenantUsages s !! tenantID) as [u|]; look Hc; cbn [default from_option id]; [by destruct (_ <=? _)|].
  change (tu_ActiveUploads zero_TenantUsage) with 0. by destruct (_ <=? _).
Qed.

(** The store after a transaction that keeps the invariant. *)
Lemma keeps_ok_after {A} (m : KM A) R t a t' : keeps_ok m R -> kv_ok (kv_db t) -> m t = (Ok a, t') -> kv_ok (kv_db t').
Proof. intros Hm Hok E. specialize (Hm t Hok). rewrite E in Hm. apply Hm. Qed.

Lemma existing_upload_id s t b id : core s t -> kv_ok (kv_db t) ->
  exists o, (match kv_db t !! MultipartUploadKey b id with None => Ok None | Some v => match decode as_Upload v with Ok x => Ok (Some x) | Fail e => Fail e end end) = Ok o /\
    is_some o = multipartUploadIDExistsLocked s b id.
Proof.
  intros Hc [Hwf _]. change (kv_db t !! MultipartUploadKey b id) with (stored (kv_db t) (MultipartUploadOf b id)).
  destruct (stored (kv_db t) (MultipartUploadOf b id)) as [v|] eqn:Hv.
  - pose proof (wf_lookup _ (MultipartUploadOf b id) _ Hwf eq_refl Hv) as Ht. destruct v; simpl in Ht; try contradiction.
    eexists. split; [reflexivity|]. symmetry. apply (co_upload_from s t Hc) in Hv. unfold multipartUploadIDExistsLocked.
    apply existsb_exists. eexists. split; [apply list_elem_of_In, elem_of_map_to_list; exact Hv|]. simpl. by rewrite !String.eqb_refl.
  - eexists. split; [reflexivity|]. symmetry. apply not_true_iff_false. unfold multipartUploadIDExistsLocked. rewrite existsb_exists.
    intros ([[b' k u] up] & Hin & Heq). apply list_elem_of_In, elem_of_map_to_list in Hin. simpl in Heq.
    apply andb_true_iff in Heq as [->%String.eqb_eq ->%String.eqb_eq]. apply (co_upload_to s t Hc) in Hin as [E _]. by rewrite E in Hv.
Qed.

Lemma fresh_upload s b id k : multipartUploadIDExistsLocked s b id = false -> uploads s !! mk_uploadKey b k id = None.
Proof.
  intros Hf. destruct (uploads s !! mk_uploadKey b k id) as [up|] eqn:Hup; [|done]. exfalso. revert Hf. apply not_false_iff_true.
  unfold multipartUploadIDExistsLocked. apply existsb_exists. eexists. split; [apply list_elem_of_In, elem_of_map_to_list; exact Hup|].
  simpl. by rewrite !String.eqb_refl.
Qed.

(** An upload written and its counter adjusted, on both sides. *)
Lemma sim_store_upload s t b k u up tenantID delta now : core s t -> kv_ok (kv_db t) ->
  mu_BucketID up = b -> mu_Key up = k -> mu_UploadID up = u -> utf8 k ->
  (forall k', is_Some (uploads s !! mk_uploadKey b k' u) -> k' = k) ->
  exists s' t1 t', applyTenantActiveUploadDeltaLocked tenantID delta now (s <| uploads := <[mk_uploadKey b k u := up]> (uploads s) |>) = (Ok tt, s') /\
    setMultipartUpload up t = (Ok tt, t1) /\ applyTenantActiveUploadDelta tenantID delta now t1 = (Ok tt, t') /\ core s' t'.
Proof.
  intros Hc Hok HB HK HU Hutf Huniq. destruct (core_set_upload s t Hc b k u up HB HK HU Hutf Huniq) as (db & E & Hc1).
  assert (kv_ok (kv_db (t <| kv_db := db |>))) as Hok1.
  { eapply keeps_ok_after; [apply ko_setUpload|exact Hok|exact E]. unfold upload_texts. congruence. }
  destruct (sim_applyDelta _ _ tenantID delta now Hok1 Hc1) as (s' & t' & E1 & E2 & Hc2). by eexists s', _, t'.
Qed.

Lemma sim_CreateMultipartUpload req : utf8 (cmu_Key req) -> sim (RepoMultipart.CreateMultipartUpload req) (CreateMultipartUpload req).
Proof.
  intros Hutf. unfold RepoMultipart.CreateMultipartUpload, CreateMultipartUpload. apply sim_guard, sim_lift. intros _ s t Hok Hc.
  exec. look Hc. destruct (bucketsByID s !! cmu_BucketID req) as [bucket|] eqn:Hb; look Hc; [|fails Hc].
  rewrite (sim_enforce s t _ Hc). destruct (checkTenantActiveUploadQuotaLocked s (bk_TenantID bucket)) as [[]|e]; [|fails Hc].
  unfold nextMultipartUploadIDLocked, nextMultipartUploadID.
  destruct (sim_fresh idCollisionRetryLimit KindUpload (fun s id => multipartUploadIDExistsLocked s (cmu_BucketID req) id) as_Upload (MultipartUploadKey (cmu_BucketID req))
    (s <| clock_calls := S (clock_calls s) |>) t) as (i & r & E1 & E2 & Hr); [exact (co_ids s t Hc) | done | intros id; exact (existing_upload_id s t _ id Hc Hok)|].
  rewrite E1, E2. destruct r as [id|e]; [|split; [done | by left]]. field_simpl. rewrite (co_clock s t Hc).
  unfold put_upload, st_modify. set (up := _ <| mu_UpdatedAt := _ |>).
  assert (core (s <| clock_calls := S (clock_calls s) |> <| id_calls := i |>) (t <| kv_id_calls := i |> <| kv_clock_calls := S (clock_calls s) |>)) as Hc1
    by exact (core_ticks s t _ i Hc).
  destruct (sim_store_upload _ _ (cmu_BucketID req) (cmu_Key req) id up (bk_TenantID bucket) 1 (env_now (clock_calls s)) Hc1 Hok eq_refl eq_refl eq_refl Hutf) as (s' & t1 & t' & F1 & F2 & F3 & Hc2).
  { intros k' Hk'. exfalso. revert Hk'. field_simpl. rewrite (fresh_upload s _ _ _ Hr). by intros []. }
  field_simpl_in F1. field_simpl. rewrite F1, F2. cbv iota. rewrite F3. by split.
Qed.

Lemma sim_GetMultipartUpload req : sim (RepoMultipart.GetMultipartUpload req) (GetMultipartUpload req).
Proof.
  intros s t Hok Hc. unfold RepoMultipart.GetMultipartUpload, GetMultipartUpload, run. destruct (sim_getUpload s t Hc req Hok) as (r & -> & -> & Hr).
  destruct r; [by split | fails Hc].
Qed.

(** The same for an upload that must be active. *)
Lemma sim_getActiveUpload s t req : kv_ok (kv_db t) -> core s t ->
  exists r, getActiveUploadLocked req s = (r, s) /\ getActiveUpload req t = (r, t) /\
    match r with
    | Ok up => uploads s !! upload_key req = Some up /\ mu_BucketID up = mur_BucketID req /\ mu_UploadID up = mur_UploadID req /\
        mu_Key up = mur_Key req /\ utf8 (mu_Key up)
    | Fail e => e <> ErrUnavailable
    end.
Proof.
  intros Hok Hc. unfold getActiveUploadLocked, getActiveUpload, st_bind. destruct (sim_getUpload s t Hc req Hok) as (r & -> & -> & Hr).
  destruct r as [up|e]; [|by eexists]. destruct (negb _); by eexists.
Qed.

(** An upload stored again under its own key. *)
Lemma sim_update_upload s t req up up' : core s t -> kv_ok (kv_db t) -> uploads s !! upload_key req = Some up ->
  mu_BucketID up' = mur_BucketID req -> mu_Key up' = mur_Key req -> mu_UploadID up' = mur_UploadID req -> utf8 (mur_Key req) ->
  exists t1, setMultipartUpload up' t = (Ok tt, t1) /\ core (s <| uploads := <[upload_key req := up']> (uploads s) |>) t1 /\ kv_ok (kv_db t1).
Proof.
  intros Hc Hok Hup HB HK HU Hutf. destruct (core_set_upload s t Hc _ _ _ up' HB HK HU Hutf) as (db & E & Hc1).
  { intros k' Hk'. symmetry. by eapply (upload_unique s t Hc); [eexists; exact Hup|]. }
  eexists. split; [exact E|]. split; [done|]. eapply keeps_ok_after; [apply ko_setUpload | exact Hok | exact E]. unfold upload_texts. congruence.
Qed.

Lemma core_clock s t n : core s t -> core (s <| clock_calls := n |>) (t <| kv_clock_calls := n |>).
Proof. intros []. by split. Qed.

Lemma summary_keys up p prev t :
  mu_BucketID (ApplyMultipartPartSummary up p prev t) = mu_BucketID up /\ mu_Key (ApplyMultipartPartSummary up p prev t) = mu_Key up /\
  mu_UploadID (ApplyMultipartPartSummary up p prev t) = mu_UploadID up.
Proof. unfold ApplyMultipartPartSummary. by destruct prev; simpl; case_match. Qed.

Lemma sim_store_part s t req up p prev c now : core s t -> kv_ok (kv_db t) -> uploads s !! upload_key req = Some up ->
  mu_BucketID up = mur_BucketID req -> mu_Key up = mur_Key req -> mu_UploadID up = mur_UploadID req -> utf8 (mu_Key up) ->
  mp_UploadID p = mur_UploadID req -> 1 <= mp_PartNumber p <= MaxMultipartParts ->
  exists t1, setMultipartUpload (ApplyMultipartPartSummary up p prev now)
      (t <| kv_clock_calls := c |> <| kv_db := <[MultipartPartKey (mur_BucketID req) (mur_UploadID req) (mp_PartNumber p) := V_Part p]> (kv_db t) |>) = (Ok tt, t1) /\
    core (s <| clock_calls := c |> <| parts := <[mk_partKey (mur_BucketID req) (mur_Key req) (mur_UploadID req) (mp_PartNumber p) := p]> (parts s) |>
            <| uploads := <[upload_key req := ApplyMultipartPartSummary up p prev now]> (uploads s) |>) t1.
Proof.
  intros Hc Hok Hup HB HK HU Hutf Hid Hn.
  pose proof (core_put_part _ _ (core_clock s t c Hc) (mur_BucketID req) (mur_Key req) (mur_UploadID req) (mp_PartNumber p) p ltac:(by eexists) Hn) as Hc1.
  destruct (summary_keys up p prev now) as (SB & SK & SU).
  destruct (sim_update_upload _ _ req up (ApplyMultipartPartSummary up p prev now) Hc1) as (t1 & E & Hc2 & _); [|done|congruence..|by eexists].
  field_simpl. apply (kv_ok_insert _ (MultipartPartOf (mur_BucketID req) (mur_UploadID req) (mp_PartNumber p))); [done|simpl; lia|done|by split].
Qed.

Lemma sim_PutMultipartPart req : sim (RepoMultipart.PutMultipartPart req) (PutMultipartPart req).
Proof.
  unfold RepoMultipart.PutMultipartPart, PutMultipartPart. intros s t Hok Hc. set (ureq := mkMultipartUploadRequest _ _ _).
  destruct (_ || _) eqn:Hg; [fails Hc|]. apply orb_false_iff in Hg as [Hg H2%Z.ltb_ge]. apply orb_false_iff in Hg as [_ H1%Z.ltb_ge].
  unfold run, st_bind. destruct (sim_getActiveUpload s t ureq Hok Hc) as (r & -> & -> & Hr). destruct r as [up|e]; [|fails Hc].
  destruct Hr as (Hup & HB & HU & HK & Hutf). exec. rewrite (look_part s t Hc (pmp_BucketID req) (pmp_Key req)); [|by eexists|lia|done].
  set (prev := parts s !! _). destruct prev as [old|] eqn:Hprev; cbn [fmap option_fmap option_map decode as_Part]; field_simpl; rewrite (co_clock s t Hc); set (part := mkMultipartPart _ _ _ _ _ _ _).
  all: edestruct (sim_store_part s t ureq up part) as (t1 & E1 & Hc1); [done..|]; rewrite E1; split; [done|]; exact Hc1.
Qed.

Lemma sim_ListMultipartParts req : sim (RepoMultipart.ListMultipartParts req) (ListMultipartParts req).
Proof.
  intros s t Hok Hc. unfold RepoMultipart.ListMultipartParts, ListMultipartParts, run, st_bind, gets.
  destruct (sim_getActiveUpload s t req Hok Hc) as (r & -> & -> & Hr). destruct r as [up|e]; [|fails Hc].
  destruct Hr as (Hup & _). rewrite (list_parts_eq s t Hc req) by (done || by eexists). by split.
Qed.

Lemma sim_get_parts s t b k u l : core s t -> kv_ok (kv_db t) -> is_Some (uploads s !! mk_uploadKey b k u) -> Forall (fun n => 0 <= n) l ->
  get_parts b u l t = (Ok (omap (fun n => parts s !! mk_partKey b k u n) l), t).
Proof.
  intros Hc Hok Hup. induction 1 as [|n l Hn Hl IH]; [done|]. cbn [get_parts]. unfold st_bind at 1, getJSON.
  rewrite (look_part s t Hc b k u n) by done. unfold st_bind. destruct (parts s !! mk_partKey b k u n) as [p|] eqn:Hp; cbn [fmap option_fmap option_map decode as_Part];
    rewrite IH; cbn; by rewrite Hp.
Qed.

Lemma sim_GetMultipartParts req : sim (RepoMultipart.GetMultipartParts req) (GetMultipartParts req).
Proof.
  unfold RepoMultipart.GetMultipartParts, GetMultipartParts. apply sim_guard. intros s t Hok Hc. unfold run, st_bind at 1 3, st_lift, gets.
  destruct (ValidateMultipartPartNumberSelection (gmp_PartNumbers req)) as [[]|e] eqn:Hv; [|fails Hc]. unfold st_bind.
  destruct (sim_getActiveUpload s t (mkMultipartUploadRequest (gmp_BucketID req) (gmp_Key req) (gmp_UploadID req)) Hok Hc) as (r & -> & -> & Hr).
  destruct r as [up|e]; [|fails Hc]. destruct Hr as (Hup & _).
  rewrite (sim_get_parts s t _ (gmp_Key req)); [by split | done | done | by eexists | by apply selected_parts].
Qed.

(** ** Completions *)

Lemma look_completion s t b k u : core s t -> kv_ok (kv_db t) ->
  match completions s !! mk_uploadKey b k u with
  | Some r => kv_db t !! MultipartCompletionKey b u = Some (V_Completion r) /\ mcr_Key r = k /\ mcr_BucketID r = b /\ mcr_UploadID r = u /\ utf8 k
  | None => kv_db t !! MultipartCompletionKey b u = None \/
      exists r, kv_db t !! MultipartCompletionKey b u = Some (V_Completion r) /\ mcr_Key r <> k
  end.
Proof.
  intros Hc [Hwf _]. change (kv_db t !! MultipartCompletionKey b u) with (stored (kv_db t) (MultipartCompletionOf b u)).
  destruct (completions s !! mk_uploadKey b k u) as [r|] eqn:Hr.
  - destruct (co_completion_to s t Hc _ _ _ _ Hr) as (E & <- & _). destruct (wf_lookup _ (MultipartCompletionOf b u) _ Hwf eq_refl E) as (? & ? & ?). by rewrite E.
  - destruct (stored (kv_db t) (MultipartCompletionOf b u)) as [v|] eqn:Hv; [|by left]. right.
    pose proof (wf_lookup _ (MultipartCompletionOf b u) _ Hwf eq_refl Hv) as Ht. destruct v; simpl in Ht; try contradiction.
    eexists. split; [reflexivity|]. intros <-. apply (co_completion_from s t Hc) in Hv. congruence.
Qed.

Lemma sim_getCompletion s t b k u : core s t -> kv_ok (kv_db t) ->
  getCompletion b k u t = (match completions s !! mk_uploadKey b k u with Some r => Ok r | None => Fail ErrNotFound end, t).
Proof.
  intros Hc Hok. unfold getCompletion, require, getJSON, st_bind. pose proof (look_completion s t b k u Hc Hok) as Hl.
  destruct (completions s !! mk_uploadKey b k u) as [r|].
  - destruct Hl as (-> & <- & _). cbn. by rewrite String.eqb_refl.
  - destruct Hl as [->|(r & -> & Hne)]; [done|]. cbn. apply String.eqb_neq in Hne. by rewrite Hne.
Qed.

Lemma sim_GetMultipartCompletion req : sim (RepoMultipart.GetMultipartCompletion req) (GetMultipartCompletion req).
Proof.
  intros s t Hok Hc. unfold RepoMultipart.GetMultipartCompletion, GetMultipartCompletion, run, lookup_or, upload_key. rewrite (sim_getCompletion s t) by done.
  destruct (completions s !! _); [by split | fails Hc].
Qed.

(** The two repositories differ on one answer: a completion asked for under another
    key than the one it was prepared with is not found in memory, and a conflict in
    the store. *)
Lemma sim_PrepareMultipartCompletion req s t : kv_ok (kv_db t) -> core s t ->
  agree (RepoMultipart.PrepareMultipartCompletion req s) (PrepareMultipartCompletion req t) \/
  (RepoMultipart.PrepareMultipartCompletion req s = (Fail ErrNotFound, s) /\ PrepareMultipartCompletion req t = (Fail ErrCASConflict, t)).
Proof.
  intros Hok Hc. unfold RepoMultipart.PrepareMultipartCompletion, PrepareMultipartCompletion. destruct (_ || _) eqn:Hg; [left; fails Hc|].
  exec. pose proof (look_completion s t (pmc_BucketID req) (pmc_Key req) (pmc_UploadID req) Hc Hok) as Hl.
  destruct (completions s !! _) as [r|] eqn:Hr.
  - left. destruct Hl as (-> & _). cbn [decode as_Completion]. destruct (negb _); [fails Hc | by split].
  - set (ureq := mkMultipartUploadRequest _ _ _). destruct (sim_getUpload s t Hc ureq Hok) as (o & E1 & E2 & Ho).
    destruct Hl as [->|(r & Er & Hne)].
    + left. rewrite E1, E2. destruct o as [up|e]; [|fails Hc]. destruct (negb _); [fails Hc|]. destruct Ho as (Hup & _ & _ & HK & Hutf). rewrite HK in Hutf.
      field_simpl. cbn [mcr_Key]. change (mur_Key ureq) with (pmc_Key req) in Hutf. rewrite (co_clock s t Hc). split; [done|].
      rewrite Hutf. apply (core_put_completion _ _ (core_clock s t (S (clock_calls s)) Hc)); [by eexists | done].
    + rewrite Er. cbn [decode as_Completion]. assert (multipartCompletionMatches r req = false) as ->.
      { unfold multipartCompletionMatches. apply String.eqb_neq in Hne. rewrite Hne. by rewrite andb_false_r. }
      right. split; [|by destruct t]. rewrite E1. destruct o as [up|e].
      * exfalso. destruct Ho as (Hup & _). destruct (co_completion_to s t Hc _ _ _ _ (co_completion_from s t Hc _ _ _ Er)) as (_ & _ & Hs).
        apply Hne. by apply (upload_unique s t Hc _ _ _ _ Hs); eexists.
      * unfold getUploadLocked in E1. change (mur_BucketID ureq) with (pmc_BucketID req) in E1. change (mur_Key ureq) with (pmc_Key req) in E1.
        change (mur_UploadID ureq) with (pmc_UploadID req) in E1. rewrite !orb_false_iff in Hg. destruct Hg as (((((G1 & G2) & G3) & _) & _) & _).
        rewrite G1, G2, G3 in E1. cbn [orb] in E1. unfold lookup_or in E1. destruct (uploads s !! upload_key ureq); by simplify_eq.
Qed.

Lemma sim_mark req state : sim (RepoMultipart.markMultipartCompletionState req state) (markMultipartCompletionState req state).
Proof.
  intros s t Hok Hc. unfold RepoMultipart.markMultipartCompletionState, markMultipartCompletionState. exec. rewrite (sim_getCompletion s t) by done.
  pose proof (look_completion s t (mcs_BucketID req) (mcs_Key req) (mcs_UploadID req) Hc Hok) as Hl.
  destruct (completions s !! _) as [r|] eqn:Hr; [|fails Hc]. destruct (multipartCompletionStateAtLeast _ _); [by split|].
  destruct Hl as (_ & HK & _ & _ & Hutf). field_simpl. rewrite HK, Hutf, (co_clock s t Hc). split; [done|].
  destruct (co_completion_to s t Hc _ _ _ _ Hr) as (_ & _ & Hs).
  assert (forall x, mcr_Key x = mcs_Key req -> x <| mcr_Key := mcs_Key req |> = x) as -> by (intros [] <-; done); [|by field_simpl].
  apply (core_put_completion _ _ (core_clock s t (S (clock_calls s)) Hc)); [done | by field_simpl].
Qed.
Lemma sim_MarkMultipartCompletionPublished req : sim (RepoMultipart.MarkMultipartCompletionPublished req) (MarkMultipartCompletionPublished req).
Proof. apply sim_mark. Qed.
Lemma sim_MarkMultipartCompletionCompleted req : sim (RepoMultipart.MarkMultipartCompletionCompleted req) (MarkMultipartCompletionCompleted req).
Proof. apply sim_mark. Qed.

(** ** Closing an upload *)

(** The upload stored in its final state and the counter of its tenant lowered. *)
Lemma sim_close s t req up up' c now : core s t -> kv_ok (kv_db t) -> uploads s !! upload_key req = Some up ->
  mu_BucketID up' = mur_BucketID req -> mu_Key up' = mur_Key req -> mu_UploadID up' = mur_UploadID req -> utf8 (mur_Key req) ->
  exists s' t1 t', applyTenantActiveUploadDeltaForBucketLocked (mur_BucketID req) (-1) now
      (s <| clock_calls := c |> <| uploads := <[upload_key req := up']> (uploads s) |>) = (Ok tt, s') /\
    setMultipartUpload up' (t <| kv_clock_calls := c |>) = (Ok tt, t1) /\
    applyTenantActiveUploadDeltaForBucket (mur_BucketID req) (-1) now t1 = (Ok tt, t') /\ core s' t'.
Proof.
  intros Hc Hok Hup HB HK HU Hutf.
  destruct (sim_update_upload _ _ req up up' (core_clock s t c Hc) Hok Hup HB HK HU Hutf) as (t1 & E & Hc1 & Hok1).
  destruct (sim_applyDeltaForBucket _ _ (mur_BucketID req) (-1) now Hok1 Hc1) as (s' & t' & E1 & E2 & Hc2). by eexists s', t1, t'.
Qed.

Ltac close_with Hc Hok Hup req up :=
  match goal with |- context [setMultipartUpload ?up'] =>
    match type of Hc with core ?s ?t => edestruct (sim_close s t req up up' (S (clock_calls s)) (env_now (clock_calls s)) Hc Hok Hup) as (s' & t1 & t' & F1 & F2 & F3 & Hc2);
    [field_simpl; assumption || congruence.. |] end;
    unfold put_upload, st_modify; field_simpl end.

Lemma sim_CompleteMultipartUpload req : sim (RepoMultipart.CompleteMultipartUpload req) (CompleteMultipartUpload req).
Proof.
  unfold RepoMultipart.CompleteMultipartUpload, CompleteMultipartUpload. apply sim_guard. intros s t Hok Hc. exec. set (ureq := mkMultipartUploadRequest _ _ _).
  destruct (sim_getUpload s t Hc ureq Hok) as (o & -> & -> & Ho). destruct o as [up|e]; [|fails Hc]. destruct Ho as (Hup & HB & HU & HK & Hutf).
  destruct (mu_State up =s MultipartUploadCompleted); [by split|]. destruct (negb _); [fails Hc|]. destruct (ValidateCompletedMultipartPartCount _); [|fails Hc].
  field_simpl. rewrite (co_clock s t Hc). close_with Hc Hok Hup ureq up. field_simpl_in F1. rewrite HB.
  change (cmp_BucketID req) with (mur_BucketID ureq). rewrite F1, F2. cbv iota. rewrite F3. by split.
Qed.

Lemma sim_AbortMultipartUpload req : sim (RepoMultipart.AbortMultipartUpload req) (AbortMultipartUpload req).
Proof.
  unfold RepoMultipart.AbortMultipartUpload, AbortMultipartUpload. intros s t Hok Hc. exec.
  destruct (sim_getUpload s t Hc req Hok) as (o & -> & -> & Ho). destruct o as [up|e]; [|fails Hc]. destruct Ho as (Hup & HB & HU & HK & Hutf).
  pose proof (list_parts_eq s t Hc req ltac:(by eexists) Hok) as El.
  destruct (mu_State up =s MultipartUploadAborted); [rewrite El; by split|]. destruct (negb _); [fails Hc|]. rewrite El.
  field_simpl. rewrite (co_clock s t Hc). close_with Hc Hok Hup req up. field_simpl_in F1. rewrite HB, F1, F2. cbv iota. rewrite F3. by split.
Qed.


Lemma foldr_delete_first (P : gmap partKey MultipartPart) x l : foldr delete (delete x P) l = delete x (foldr delete P l).
Proof. induction l as [|y l IH]; [done|]. simpl. by rewrite IH, delete_delete. Qed.

Lemma sim_delete_parts req l s t : core s t -> kv_ok (kv_db t) -> is_Some (uploads s !! upload_key req) ->
  (forall pk, pk ∈ l -> pk = mk_partKey (mur_BucketID req) (mur_Key req) (mur_UploadID req) (pk_partNumber pk) /\ 0 <= pk_partNumber pk) ->
  exists t', each tx_Delete (map (part_of_key req) l) t = (Ok tt, t') /\ core (s <| parts := foldr delete (parts s) l |>) t' /\ kv_ok (kv_db t').
Proof.
  revert s t. induction l as [|pk l IH]; intros s t Hc Hok Hup Hl.
  - exists t. split_and!; [done| |done]. cbn [foldr]. by destruct s.
  - destruct (Hl pk) as [Epk Hn]; [by left|].
    destruct (IH (s <| parts := delete pk (parts s) |>) (t <| kv_db := delete (part_of_key req pk) (kv_db t) |>)) as (t' & E & Hc' & Hok').
    { rewrite Epk at 1. by apply core_delete_part. }
    { apply (kv_ok_delete _ (MultipartPartOf _ _ (pk_partNumber pk))); [done | simpl; lia | done]. }
    { done. } { intros pk' Hpk'. apply Hl. by right. }
    exists t'. split_and!; [exact E| |done]. field_simpl_in Hc'. rewrite foldr_delete_first in Hc'. exact Hc'.
Qed.

(** The keys to delete are those of the first parts in numeric order. *)
Lemma sim_cleanup_keys s t req limit : core s t -> kv_ok (kv_db t) -> is_Some (uploads s !! upload_key req) -> 0 < limit ->
  let keys := partKeysForCleanupLocked s req (limit + 1) in
  let more := limit <? Z.of_nat (length keys) in
  partKeysForCleanup req limit t = (Ok (map (part_of_key req) (if more then take (Z.to_nat limit) keys else keys), more), t) /\
  forall pk, pk ∈ keys -> pk = mk_partKey (mur_BucketID req) (mur_Key req) (mur_UploadID req) (pk_partNumber pk) /\ 0 <= pk_partNumber pk.
Proof.
  intros Hc Hok Hup Hl keys more.
  assert (keys = take (Z.to_nat (limit + 1)) (numbers (upload_parts s req).*1)) as Hkeys.
  { unfold keys, partKeysForCleanupLocked, numbers. destruct (Z.ltb_spec 0 (limit + 1)) as [_|]; [|lia]. cbn [andb].
    destruct (Z.ltb_spec (limit + 1) (Z.of_nat (length (sort_by (fun a b => pk_partNumber a <? pk_partNumber b) (upload_parts s req).*1)))) as [|Hge]; [done|].
    rewrite take_ge; [done | lia]. }
  split.
  - unfold partKeysForCleanup, st_bind, kgets. rewrite list_ref_page, (part_scan s t Hc req Hup Hok). unfold kv_page. cbn [fst]. unfold after. cbn [orb].
    assert (forall (A : Type) (l : list A), List.filter (fun _ => true) l = l) as -> by (induction l as [|x l IH]; [done|]; simpl; by rewrite IH).
    assert (kv_limit (limit + 1) = Z.to_nat (limit + 1)) as -> by (unfold kv_limit; destruct (Z.leb_spec (limit + 1) 0); [lia | done]).
    rewrite firstn_map, <- Hkeys, length_map. fold more. destruct more; [by rewrite firstn_map | done].
  - intros pk Hpk. rewrite Hkeys in Hpk. apply elem_of_take_weaken in Hpk. unfold numbers in Hpk. rewrite elem_of_sort_by in Hpk.
    destruct (upload_part_key s t Hc req Hok pk Hpk) as (p & E & _ & _ & Hn & _). split; [done | lia].
Qed.

Lemma sim_CleanupMultipartUploadParts req : sim (RepoMultipart.CleanupMultipartUploadParts req) (CleanupMultipartUploadParts req).
Proof.
  unfold RepoMultipart.CleanupMultipartUploadParts, CleanupMultipartUploadParts. intros s t Hok Hc. cbv zeta. set (ureq := mkMultipartUploadRequest _ _ _).
  cbv beta iota zeta delta [st_bind st_ret st_fail st_modify gets now run kv_now].
  destruct (sim_getUpload s t Hc ureq Hok) as (o & -> & -> & Ho). destruct o as [up|e]; [|fails Hc]. destruct Ho as (Hup & HB & HU & HK & Hutf).
  destruct (mu_State up =s MultipartUploadActive); [fails Hc|]. destruct (negb _); [fails Hc|].
  set (limit := NormalizeMultipartCleanupLimit (cln_Limit req)).
  destruct (sim_cleanup_keys s t ureq limit Hc Hok ltac:(by eexists) (cleanup_limit_pos _)) as [E Hkeys]. rewrite E. clear E.
  set (keys := partKeysForCleanupLocked s ureq (limit + 1)) in *. set (more := limit <? Z.of_nat (length keys)). set (gone := if more then take (Z.to_nat limit) keys else keys).
  destruct (sim_delete_parts ureq gone s t Hc Hok ltac:(by eexists)) as (t1 & E1 & Hc1 & Hok1).
  { intros pk Hpk. apply Hkeys. unfold gone in Hpk. destruct more; [by apply elem_of_take_weaken in Hpk | done]. }
  cbv iota. rewrite E1. rewrite length_map. field_simpl. rewrite (co_clock _ _ Hc1). field_simpl. unfold put_upload, st_modify.
  match goal with |- context [setMultipartUpload ?up'] =>
    destruct (sim_update_upload _ _ ureq up up' (core_clock _ t1 (S (clock_calls s)) Hc1) Hok1 Hup) as (t2 & E2 & Hc2 & _);
      [field_simpl; congruence..|] end.
  rewrite E2. by split.
Qed.
End Methods.
