(* ===== verification/KvOpsRefines.v ===== *)
(** * KvOpsRefines: operational records of the KV repository refine those in memory

    Simulation lemmas for collection candidates, dedupe locks, shared-object releases,
    volume pools, worker leases and controls, under the relation of [KvRefines]. A
    listing scans the prefix of its family and sorts what it finds, so it shows the
    records of the map in memory. *)

From S2P Require Import Prelude GoLib GoText Sha256 StorageTypes Model Requests Encoding Meta Manifest.
From S2P Require Import Repo RepoBuckets RepoOps RepoAudit Leases.
From S2P Require Import Keyspace KvStore KvRepo KvObjects KvMeta KvOps KvInv KvMetaInv KvRefines KvMultipartRefines.
From Stdlib Require Import Sorted.
Open Scope string_scope.
Open Scope Z_scope.

(** ** Reads *)

Section Reads.
Context (s : Repository) (t : KvRepository) (Hc : core s t).
Lemma look_candidate id : kv_db t !! GCCandidateKey id = V_GCCandidate <$> gcCandidates s !! id.
Proof. by apply (co_image s t Hc (GCCandidateOf id)). Qed.
Lemma look_lock id : kv_db t !! DedupeOperationLockKey id = V_DedupeLock <$> dedupeLocks s !! id.
Proof. by apply (co_image s t Hc (DedupeOperationLockOf id)). Qed.
Lemma look_release id segment : id <> "" -> kv_db t !! SharedObjectReleaseKey id segment = V_Release <$> sharedReleases s !! mk_sharedObjectReleaseKey id segment.
Proof. intros Hid. apply (co_image s t Hc (SharedObjectReleaseOf id segment)); [by apply kind_ok | done]. Qed.
Lemma look_pool id : kv_db t !! VolumePoolKey id = V_VolumePool <$> volumePools s !! id.
Proof. by apply (co_image s t Hc (VolumePoolOf id)). Qed.
Lemma look_lease kind shard : kind <> "" -> plain kind shard = true ->
  kv_db t !! WorkerLeaseKey kind shard = V_WorkerLease <$> workerLeases s !! WorkerLeaseID kind shard.
Proof. intros Hk Hp. apply (co_image s t Hc (WorkerLeaseOf kind shard)); [by apply kind_ok | by cbn [image]; rewrite Hp]. Qed.
Lemma look_control kind shard : kind <> "" -> plain kind shard = true ->
  kv_db t !! WorkerControlKey kind shard = V_WorkerControl <$> workerControls s !! WorkerLeaseID kind shard.
Proof. intros Hk Hp. apply (co_image s t Hc (WorkerControlOf kind shard)); [by apply kind_ok | by cbn [image]; rewrite Hp]. Qed.
End Reads.

Ltac reads_ops := cbn [fmap option_fmap option_map decode as_GCCandidate as_DedupeLock as_Release as_VolumePool as_WorkerLease as_WorkerControl].
Ltac look_ops Hc := reads_ops; field_simpl; rewrite ?(look_candidate _ _ Hc), ?(look_lock _ _ Hc), ?(look_pool _ _ Hc); reads_ops; field_simpl; rewrite ?(co_clock _ _ Hc).

(** ** Listings *)

Section Listing.
Context {T : Type} (as_T : kvalue -> option T) (V : T -> kvalue) (fam : string -> entity) (prefix : string) (m : gmap string T).
Context (HV : forall x, as_T (V x) = Some x) (Hpre : prefix <> "") (Hinj : forall a b, fam a = fam b -> a = b).
Context (Hunder : forall e, under prefix e -> exists id, e = fam id).
Context (Hfam : forall id, is_Some (m !! id) -> under prefix (fam id)).

Lemma visit_all db l acc : (forall k, k ∈ l -> exists x, db !! k = Some (V x)) ->
  visit as_T (fun acc _ x => ((acc ++ [x])%list, false)) db l acc = Ok (acc ++ omap (fun k => db !! k ≫= as_T) l)%list.
Proof.
  revert acc. induction l as [|k l IH]; intros acc Hl; [by rewrite app_nil_r|]. cbn [visit].
  destruct (Hl k) as [x Hx]; [by left|]. cbn [omap list_omap]. rewrite Hx. cbn. unfold decode. rewrite HV. cbv iota beta.
  rewrite IH by (intros k' Hk'; apply Hl; by right). by rewrite <- app_assoc.
Qed.

Lemma collected t : kv_ok (kv_db t) -> (forall id, entity_ok (fam id) = true -> stored (kv_db t) (fam id) = V <$> m !! id) ->
  exists l, scan_records as_T prefix (fun _ => true) t = (Ok l, t) /\ l ≡ₚ map_values m.
Proof.
  intros [Hwf _] Hst. unfold scan_records, scanJSON, scanJSONWithKey, st_bind, kgets, st_lift. rewrite scan_all by done.
  set (keys := List.filter (fun k => HasPrefix k prefix) (sorted_keys (kv_db t))).
  assert (forall k, k ∈ keys <-> exists id, k = key_of (fam id) /\ is_Some (m !! id)) as Hkeys.
  { intros k. unfold keys. rewrite elem_of_list_filter_bool, elem_of_sorted_keys. split.
    - intros [Hp [v Hv]]. destruct (Hwf k v Hv) as (e & -> & He & _). destruct (Hunder e (conj He Hp)) as [id ->].
      exists id. split; [done|]. pose proof (Hst id He) as E. unfold stored in E. rewrite Hv in E. by destruct (m !! id).
    - intros (id & -> & Hid). destruct (Hfam id Hid) as [He Hp]. split; [done|]. pose proof (Hst id He) as E. unfold stored in E. rewrite E.
      by destruct Hid as [x ->]. }
  rewrite visit_all.
  2: { intros k (id & -> & Hid)%Hkeys. destruct (Hfam id Hid) as [He _]. pose proof (Hst id He) as E. unfold stored in E. rewrite E. destruct Hid as [x ->]. by exists x. }
  eexists. split; [reflexivity|]. rewrite app_nil_l.
  assert (keys ≡ₚ map (fun kv => key_of (fam kv.1)) (map_to_list m)) as Hperm.
  { apply NoDup_Permutation.
    - unfold keys. apply NoDup_ListNoDup, List.NoDup_filter, NoDup_ListNoDup. unfold sorted_keys. rewrite sort_by_perm. apply NoDup_fst_map_to_list.
    - apply NoDup_fmap_2_strong; [|apply NoDup_map_to_list]. intros [a x] [b y] Ha%elem_of_map_to_list Hb%elem_of_map_to_list Hk. simpl in Hk.
      assert (fam a = fam b) as Hab%Hinj by (apply key_of_inj; [apply Hfam; by eexists | apply Hfam; by eexists | done]). by simplify_eq.
    - intros k. rewrite Hkeys. split.
      + intros (id & -> & x & Hx). apply list_elem_of_fmap. exists (id, x). split; [done|]. by apply elem_of_map_to_list.
      + intros ([id x] & -> & Hx%elem_of_map_to_list)%list_elem_of_fmap. exists id. split; [done | by exists x]. }
  rewrite Hperm. unfold map_values. assert (forall l, (forall kv, kv ∈ l -> m !! kv.1 = Some kv.2) ->
    omap (fun k => kv_db t !! k ≫= as_T) (map (fun kv : string * T => key_of (fam kv.1)) l) = l.*2) as Hval.
  { induction l as [|[id x] l IH]; intros Hl; [done|]. cbn. assert (m !! id = Some x) as Hx by (apply (Hl (id, x)); by left).
    destruct (Hfam id ltac:(by eexists)) as [He _]. pose proof (Hst id He) as E. unfold stored in E. rewrite E, Hx. cbn. rewrite HV. cbn.
    f_equal. apply IH. intros kv Hkv. apply Hl. by right. }
  rewrite Hval; [done|]. intros [id x] Hx. by apply elem_of_map_to_list.
Qed.
End Listing.

(** ** Methods *)

Section Methods.
Context `{Env}.

Ltac sims_ops := let s := fresh "s" in let t := fresh "t" in let Hok := fresh "Hok" in let Hc := fresh "Hc" in
  intros s t Hok Hc; exec; look_ops Hc.

Lemma sim_PutGCCandidate req : sim (RepoOps.PutGCCandidate req) (PutGCCandidate req).
Proof.
  unfold RepoOps.PutGCCandidate, PutGCCandidate. cbv zeta. sims_ops.
  destruct (gcCandidates s !! _) as [r|]; look_ops Hc; cbn [default from_option id]; (destruct (BuildGCCandidate _ _ _) as [x|e]; [|fails Hc]); (split; [done|]); writes Hc (GCCandidateOf (gcr_SegmentID x)).
Qed.
Lemma sim_DeleteGCCandidate id : sim (RepoOps.DeleteGCCandidate id) (DeleteGCCandidate id).
Proof.
  unfold RepoOps.DeleteGCCandidate, DeleteGCCandidate. cbv zeta. apply sim_guard. sims_ops.
  destruct (gcCandidates s !! _) as [r|]; look_ops Hc; [|fails Hc]. split; [done|]. removes Hc (GCCandidateOf (TrimSpace id)).
Qed.

Lemma sim_AcquireDedupeOperationLock req : sim (RepoOps.AcquireDedupeOperationLock req) (AcquireDedupeOperationLock req).
Proof.
  unfold RepoOps.AcquireDedupeOperationLock, AcquireDedupeOperationLock. cbv zeta. do 2 apply sim_guard. sims_ops.
  destruct (dedupeLocks s !! _) as [l|]; look_ops Hc; (destruct (_ && negb _); [fails Hc|]); (split; [done|]); writes Hc (DedupeOperationLockOf (TrimSpace (adl_LockID req))).
Qed.
Lemma sim_ReleaseDedupeOperationLock req : sim (RepoOps.ReleaseDedupeOperationLock req) (ReleaseDedupeOperationLock req).
Proof.
  unfold RepoOps.ReleaseDedupeOperationLock, ReleaseDedupeOperationLock. cbv zeta. apply sim_guard. sims_ops.
  destruct (dedupeLocks s !! _) as [l|]; look_ops Hc; [|fails Hc]. destruct (negb _); [fails Hc|]. split; [done|].
  removes Hc (DedupeOperationLockOf (TrimSpace (rdl_LockID req))).
Qed.

Lemma sim_PutSharedObjectRelease req : sim (RepoOps.PutSharedObjectRelease req) (PutSharedObjectRelease req).
Proof.
  unfold RepoOps.PutSharedObjectRelease, PutSharedObjectRelease. cbv zeta. destruct (String.eqb_spec (TrimSpace (psr_SharedObjectID req)) "") as [|Hid]; [intros s t Hok Hc; fails Hc|].
  apply sim_guard. sims_ops. rewrite (look_release s t Hc) by done. reads_ops.
  destruct (sharedReleases s !! _) as [r|]; look_ops Hc; cbn [default from_option id]; (split; [done|]);
    (writes Hc (SharedObjectReleaseOf (TrimSpace (psr_SharedObjectID req)) (TrimSpace (sr_SegmentID (psr_SegmentRef req)))); by apply kind_ok).
Qed.

Lemma sim_PutVolumePool req : TrimSpace (pvp_PoolID req) <> "" -> sim (RepoOps.PutVolumePool req) (PutVolumePool req).
Proof.
  intros Hid. unfold RepoOps.PutVolumePool, PutVolumePool. cbv zeta. apply String.eqb_neq in Hid. rewrite Hid. sims_ops.
  destruct (volumePools s !! _) as [p|]; look_ops Hc; cbn [default from_option id]; (destruct (BuildVolumePool _ _ _) as [x|e] eqn:Hb; [|fails Hc]); (split; [done|]);
    rewrite (build_pool_id _ _ _ _ Hb); writes Hc (VolumePoolOf (TrimSpace (pvp_PoolID req))).
Qed.
Lemma sim_GetVolumePool id : TrimSpace id <> "" -> sim (RepoOps.GetVolumePool id) (GetVolumePool id).
Proof.
  intros Hid. unfold RepoOps.GetVolumePool, GetVolumePool. cbv zeta. apply String.eqb_neq in Hid. rewrite Hid. sims_ops.
  destruct (volumePools s !! _) as [p|]; look_ops Hc; [|fails Hc]. split; [done|]. same Hc.
Qed.

(** Leases and controls are filed alike as long as the kind has no slash. *)
Lemma plain_id kind shard : plain kind shard = true -> WorkerLeaseID kind shard = kind +:+ String slash shard.
Proof. unfold plain. rewrite !andb_true_iff, !String.eqb_eq. intros [[_ Hk] Hs]. unfold WorkerLeaseID. by rewrite Hk, Hs. Qed.
Lemma plain_inj kind shard kind' shard' : plain kind shard = true -> plain kind' shard' = true ->
  WorkerLeaseID kind shard = WorkerLeaseID kind' shard' -> kind = kind' /\ shard = shard'.
Proof.
  intros Hp Hp' Hid. rewrite !plain_id in Hid by done. unfold plain in Hp, Hp'. rewrite !andb_true_iff in Hp, Hp'. destruct Hp as [[Hk _] _], Hp' as [[Hk' _] _].
  assert (kind = kind') as <- by (apply (f_equal split_slash) in Hid; rewrite !split_cons in Hid by done; by simplify_eq).
  apply str_app_inj_l in Hid. by simplify_eq.
Qed.
Lemma plain_trimmed kind shard : no_slash (TrimSpace kind) = true -> plain (TrimSpace kind) (TrimSpace shard) = true.
Proof. intros Hk. unfold plain. by rewrite Hk, !TrimSpace_idem, !String.eqb_refl. Qed.

Ltac plain_frame :=
  let e := fresh "e" in intros e ?; destruct e; cbn [image]; field_simpl; try reflexivity;
  match goal with |- context [plain ?k ?s] => destruct (plain k s) eqn:?; [|reflexivity] end;
  rewrite lookup_insert_ne; [reflexivity|]; intros Hid; apply plain_inj in Hid as [-> ->]; congruence.

Lemma core_put_lease s t kind shard l n : core s t -> kind <> "" -> plain kind shard = true ->
  core (s <| clock_calls := n |> <| workerLeases := <[WorkerLeaseID kind shard := l]> (workerLeases s) |>)
       (t <| kv_clock_calls := n |> <| kv_db := <[WorkerLeaseKey kind shard := V_WorkerLease l]> (kv_db t) |>).
Proof.
  intros Hc Hk Hp. eapply (core_put s t _ _ (WorkerLeaseOf kind shard));
    [exact Hc | by apply kind_ok | cbn [image]; field_simpl; rewrite Hp, lookup_insert_eq; reflexivity | reflexivity | plain_frame | reflexivity..| |].
  - exact (co_ids s t Hc).
  - exact (co_names s t Hc).
Qed.
Lemma core_put_control s t kind shard r n : core s t -> kind <> "" -> plain kind shard = true ->
  core (s <| clock_calls := n |> <| workerControls := <[WorkerLeaseID kind shard := r]> (workerControls s) |>)
       (t <| kv_clock_calls := n |> <| kv_db := <[WorkerControlKey kind shard := V_WorkerControl r]> (kv_db t) |>).
Proof.
  intros Hc Hk Hp. eapply (core_put s t _ _ (WorkerControlOf kind shard));
    [exact Hc | by apply kind_ok | cbn [image]; field_simpl; rewrite Hp, lookup_insert_eq; reflexivity | reflexivity | plain_frame | reflexivity..| |].
  - exact (co_ids s t Hc).
  - exact (co_names s t Hc).
Qed.

Lemma sim_AcquireWorkerLease req : no_slash (TrimSpace (awl_WorkerKind req)) = true -> TrimSpace (awl_WorkerKind req) <> "" ->
  sim (RepoOps.AcquireWorkerLease req) (AcquireWorkerLease req).
Proof.
  intros Hp Hk. apply (plain_trimmed _ (awl_ShardID req)) in Hp. unfold RepoOps.AcquireWorkerLease, AcquireWorkerLease. cbv zeta. sims_ops.
  rewrite (look_lease s t Hc) by done. rewrite <- (WorkerLeaseID_trim (awl_WorkerKind req)).
  destruct (workerLeases s !! _) as [l|]; look_ops Hc; cbn [default from_option id]; (destruct (BuildWorkerLease _ _ _) as [x|e] eqn:Hb; [|fails Hc]);
    apply build_lease_id in Hb as (-> & _); rewrite String.eqb_refl; cbn [negb]; (split; [done|]); field_simpl; by apply core_put_lease.
Qed.
Lemma sim_ReleaseWorkerLease req : no_slash (TrimSpace (rwl_WorkerKind req)) = true -> sim (RepoOps.ReleaseWorkerLease req) (ReleaseWorkerLease req).
Proof.
  intros Hp. apply (plain_trimmed _ (rwl_ShardID req)) in Hp. unfold RepoOps.ReleaseWorkerLease, ReleaseWorkerLease. cbv zeta.
  destruct (_ || _ || _) eqn:Hg; [intros s t Hok Hc; fails Hc|]. rewrite !orb_false_iff in Hg. destruct Hg as [[Hk%String.eqb_neq _] _]. sims_ops.
  rewrite (look_lease s t Hc) by done. destruct (workerLeases s !! _) as [l|]; look_ops Hc; [|fails Hc]. destruct (negb _); [fails Hc|].
  field_simpl. rewrite (co_clock s t Hc). split; [done|]. by apply core_put_lease.
Qed.
Lemma build_control_names e req t r : plain (pwc_WorkerKind req) (pwc_ShardID req) = true -> BuildWorkerControl e req t = Ok r ->
  wcr_WorkerKind r = pwc_WorkerKind req /\ wcr_ShardID r = pwc_ShardID req.
Proof.
  unfold plain. rewrite !andb_true_iff, !String.eqb_eq. intros [[_ Hk] Hs]. unfold BuildWorkerControl. rewrite Hk, Hs.
  repeat case_match; intros; by simplify_eq.
Qed.
Lemma sim_PutWorkerControl req : plain (pwc_WorkerKind req) (pwc_ShardID req) = true -> pwc_WorkerKind req <> "" ->
  sim (RepoOps.PutWorkerControl req) (PutWorkerControl req).
Proof.
  intros Hp Hk. unfold RepoOps.PutWorkerControl, PutWorkerControl. cbv zeta. sims_ops. rewrite (look_control s t Hc) by done.
  destruct (workerControls s !! _) as [l|]; look_ops Hc; cbn [default from_option id]; (destruct (BuildWorkerControl _ _ _) as [x|e] eqn:Hb; [|fails Hc]);
    (split; [done|]); field_simpl; destruct (build_control_names _ _ _ _ Hp Hb) as [-> ->]; by apply core_put_control.
Qed.
Lemma sim_GetWorkerControl req : no_slash (TrimSpace (gwc_WorkerKind req)) = true -> sim (RepoOps.GetWorkerControl req) (GetWorkerControl req).
Proof.
  intros Hp. apply (plain_trimmed _ (gwc_ShardID req)) in Hp. unfold RepoOps.GetWorkerControl, GetWorkerControl. cbv zeta.
  destruct (_ || _) eqn:Hg; [intros s t Hok Hc; fails Hc|]. rewrite !orb_false_iff in Hg. destruct Hg as [Hk%String.eqb_neq _]. sims_ops.
  rewrite (look_control s t Hc) by done. destruct (workerControls s !! _) as [r|]; look_ops Hc; [|fails Hc]. split; [done|]. same Hc.
Qed.

(** ** Listings *)

Lemma take_cap {A} limit (l : list A) : 0 < limit -> take (cap limit (length l)) l = take (go_limit limit) l.
Proof.
  intros Hl. unfold cap, go_limit. destruct (Z.leb_spec limit 0); [lia|]. cbn [orb].
  destruct (Z.ltb_spec (Z.of_nat (length l)) limit); [|done]. rewrite !take_ge; [done|lia..].
Qed.
Lemma length_map_values {A} (m : gmap string A) : length (map_values m) = size m.
Proof. unfold map_values. by rewrite length_fmap, length_map_to_list. Qed.

(** What is collected, sorted without ties, is the sorted map. *)
Lemma sort_collected {T} less (id : T -> string) (m : gmap string T) l :
  (forall x y, less x y = true -> less y x = false) ->
  (forall x y z, not_after less x y -> not_after less y z -> not_after less x z) ->
  (forall x y, not_after less x y -> not_after less y x -> id x = id y) ->
  (forall k x, m !! k = Some x -> id x = k) -> l ≡ₚ map_values m -> sort_by less l = sort_by less (map_values m).
Proof.
  intros Hasym Htrans Htie Hid Hp. apply sort_by_perm_eq; [done..| |done]. intros x y Hx Hy Hxy Hyx. rewrite Hp in Hx, Hy.
  unfold map_values in Hx, Hy. apply list_elem_of_fmap in Hx as ([a x'] & -> & Hx%elem_of_map_to_list), Hy as ([b y'] & -> & Hy%elem_of_map_to_list).
  specialize (Htie _ _ Hxy Hyx). simpl in *. rewrite (Hid _ _ Hx), (Hid _ _ Hy) in Htie. congruence.
Qed.
Lemma under_candidate id : under (GCCandidateKey "") (GCCandidateOf id).
Proof. split; [done|]. cbn [key_of]. unfold GCCandidateKey. destruct (id =s ""); [done|]. apply HasPrefix_app. Qed.
Lemma under_pool id : under (VolumePoolKey "") (VolumePoolOf id).
Proof. split; [done|]. cbn [key_of]. unfold VolumePoolKey. destruct (id =s ""); [done|]. apply HasPrefix_app. Qed.

Lemma candidate_order : (forall x y, gc_candidate_less x y = true -> gc_candidate_less y x = false) /\
  (forall x y z, not_after gc_candidate_less x y -> not_after gc_candidate_less y z -> not_after gc_candidate_less x z) /\
  (forall x y, not_after gc_candidate_less x y -> not_after gc_candidate_less y x -> gcr_SegmentID x = gcr_SegmentID y).
Proof.
  unfold not_after, gc_candidate_less. split_and!; intros x y.
  - destruct (Z.eqb_spec (gcr_CreatedAt x) (gcr_CreatedAt y)) as [->|Hne].
    + rewrite Z.eqb_refl. apply str_ltb_asym.
    + destruct (Z.eqb_spec (gcr_CreatedAt y) (gcr_CreatedAt x)); [lia|]. rewrite Z.ltb_lt, Z.ltb_ge. lia.
  - intros z. destruct (Z.eqb_spec (gcr_CreatedAt y) (gcr_CreatedAt x)), (Z.eqb_spec (gcr_CreatedAt z) (gcr_CreatedAt y)), (Z.eqb_spec (gcr_CreatedAt z) (gcr_CreatedAt x));
      rewrite ?Z.ltb_ge; try lia. apply str_geb_trans.
  - destruct (Z.eqb_spec (gcr_CreatedAt y) (gcr_CreatedAt x)), (Z.eqb_spec (gcr_CreatedAt x) (gcr_CreatedAt y)); rewrite ?Z.ltb_ge; try lia. intros. by apply str_ltb_total.
Qed.

Lemma sim_ListGCCandidates req : 0 < lgc_Limit req -> sim (RepoOps.ListGCCandidates req) (ListGCCandidates req).
Proof.
  intros Hl s t Hok Hc. unfold RepoOps.ListGCCandidates, ListGCCandidates, gets, run, st_bind, st_ret.
  destruct (collected as_GCCandidate V_GCCandidate GCCandidateOf (GCCandidateKey "") (gcCandidates s)) with (t := t) as (l & -> & Hp); try done.
  { by intros a b [= ->]. } { apply under_candidates. } { intros id _. apply under_candidate. } { intros id _. by apply (look_candidate s t Hc). }
  destruct candidate_order as (O1 & O2 & O3). split; [|done]. unfold go_limit. destruct (Z.leb_spec (lgc_Limit req) 0); [lia|]. f_equal. symmetry.
  eapply (sort_collected _ gcr_SegmentID); [done..| |done]. intros k x Hx. pose proof (look_candidate s t Hc k) as E. rewrite Hx in E.
  destruct Hok as [Hwf _]. exact (wf_lookup _ (GCCandidateOf k) _ Hwf eq_refl E).
Qed.

Lemma sim_ListVolumePools req : 0 < lvp_Limit req -> sim (RepoOps.ListVolumePools req) (ListVolumePools req).
Proof.
  intros Hl s t Hok Hc. unfold RepoOps.ListVolumePools, ListVolumePools, gets, run, st_bind, st_ret.
  destruct (collected as_VolumePool V_VolumePool VolumePoolOf (VolumePoolKey "") (volumePools s)) with (t := t) as (l & -> & Hp); try done.
  { by intros a b [= ->]. } { apply under_pools. } { intros id _. apply under_pool. } { intros id _. by apply (look_pool s t Hc). }
  split; [|done]. rewrite <- length_map_values. rewrite <- (length_sort_by (fun a b => str_ltb (vp_PoolID a) (vp_PoolID b))), take_cap by done. f_equal. symmetry.
  eapply (sort_collected _ vp_PoolID); [by intros; apply str_ltb_asym | unfold not_after; intros ? ? ?; apply str_geb_trans | unfold not_after; intros; by apply str_ltb_total| |done].
  intros k x Hx. pose proof (look_pool s t Hc k) as E. rewrite Hx in E. destruct Hok as [Hwf _]. exact (wf_lookup _ (VolumePoolOf k) _ Hwf eq_refl E).
Qed.

(** The audit event of an administrator. *)
Lemma sim_PutAdminAuditEvent req : sim (RepoAudit.PutAdminAuditEvent req) (PutAdminAuditEvent req).
Proof.
  unfold RepoAudit.PutAdminAuditEvent, PutAdminAuditEvent. apply sim_guard. intros s t Hok Hc.
  unfold RepoAudit.put_admin_event, RepoAudit.last_event, lookup_or, appendAuditEventLocked, run, nextSequence, reserveSequences, sequenceAudit. change (1 <=? 0) with false. cbv iota.
  set (ev := transitionAuditEvent _ _ _ _ _ _). destruct (read_sequence s t Hc) as (o & Eo & Ho). unfold st_bind. rewrite Eo.
  unfold st_modify, st_ret, setJSON at 1, tx_Set, st_modify. cbn [through_json]. rewrite Ho.
  destruct (read_audit_head s t (V_Sequence (int64 (nextAuditID s + 1))) Hc) as (h & Eh & Hh). rewrite Eh, Hh.
  unfold now, kv_now, setJSON, tx_Set, st_modify. field_simpl. cbn [through_json]. rewrite last_snoc, (co_clock s t Hc). split; [done|].
  eapply core_audit; [exact Hc|..]; reflexivity.
Qed.
End Methods.
