(* ===== verification/KvAgreement.v ===== *)
(** * KvAgreement: the two metadata repositories give the same answers

    [Repository] of [src/internal/meta/repository.go] is an interface with two
    implementations. [meta_call] is the part of it that administers tenants, keys,
    buckets, multipart uploads, collection candidates, pools, locks, leases and controls, as a type of calls indexed by their results;
    [MetaRepository] is the interface, with the memory and the KV repository as
    instances. On every sequence of calls both give the same answers. *)

From S2P Require Import Prelude GoLib GoText Sha256 StorageTypes Model Requests Encoding Meta Manifest.
From S2P Require Import Repo RepoExample RepoBuckets RepoMultipart RepoOps RepoAudit.
From S2P Require Import Keyspace KvStore KvRepo KvObjects KvMeta KvMultipart KvOps KvInv KvMetaInv KvRefines KvMultipartRefines KvOpsRefines.
Open Scope string_scope.
Open Scope Z_scope.

(** ** Calls *)

Inductive meta_call : Type -> Type :=
| M_CreateTenant (req : CreateTenantRequest) : meta_call Tenant
| M_GetTenant (tenantID : string) : meta_call Tenant
| M_PutTenantQuota (req : TenantQuotaRequest) : meta_call TenantQuota
| M_GetTenantQuota (tenantID : string) : meta_call TenantQuota
| M_DeleteTenantQuota (tenantID : string) : meta_call unit
| M_PutTenantUsage (req : TenantUsageRequest) : meta_call TenantUsage
| M_GetTenantUsage (tenantID : string) : meta_call TenantUsage
| M_PutAccessKey (req : PutAccessKeyRequest) : meta_call AccessKey
| M_GetAccessKey (accessKeyID : string) : meta_call AccessKey
| M_GetKMSKey (keyID : string) : meta_call KMSKeyRecord
| M_GetBucketCORS (bucketID : string) : meta_call (list CORSRule)
| M_GetBucketLifecycle (bucketID : string) : meta_call BucketLifecycleConfiguration
| M_GetBucketEncryption (bucketID : string) : meta_call ServerSideEncryption
| M_GetBucketPolicy (bucketID : string) : meta_call PolicyDocument
| M_GetBucketObjectLock (bucketID : string) : meta_call BucketObjectLockConfiguration
| M_PutKMSKey (req : PutKMSKeyRequest) : meta_call KMSKeyRecord
| M_PutBucketCORS (req : BucketCORSRequest) : meta_call Bucket
| M_DeleteBucketCORS (bucketID : string) : meta_call Bucket
| M_PutBucketLifecycle (req : BucketLifecycleRequest) : meta_call Bucket
| M_DeleteBucketLifecycle (bucketID : string) (audit : AuditContext) : meta_call Bucket
| M_PutBucketEncryption (req : BucketEncryptionRequest) : meta_call Bucket
| M_DeleteBucketEncryption (bucketID : string) (audit : AuditContext) : meta_call Bucket
| M_PutBucketPolicy (req : BucketPolicyRequest) : meta_call Bucket
| M_DeleteBucketPolicy (bucketID : string) (audit : AuditContext) : meta_call Bucket
| M_PutBucketObjectLock (req : BucketObjectLockRequest) : meta_call Bucket
| M_PutBucketVersioning (req : PutBucketVersioningRequest) : meta_call Bucket
| M_PutBucketQuota (req : BucketQuotaRequest) : meta_call BucketQuota
| M_GetBucketQuota (bucketID : string) : meta_call BucketQuota
| M_DeleteBucketQuota (bucketID : string) : meta_call unit
| M_GetBucketByName (name : string) : meta_call Bucket
| M_CreateBucket (req : CreateBucketRequest) : meta_call Bucket
| M_PutComplianceProfileAttachment (req : PutComplianceProfileAttachmentRequest) : meta_call ComplianceProfileAttachment
| M_CreateMultipartUpload (req : CreateMultipartUploadRequest) : meta_call MultipartUpload
| M_GetMultipartUpload (req : MultipartUploadRequest) : meta_call MultipartUpload
| M_PutMultipartPart (req : PutMultipartPartRequest) : meta_call (MultipartPart * option MultipartPart)
| M_ListMultipartParts (req : MultipartUploadRequest) : meta_call (list MultipartPart)
| M_GetMultipartParts (req : GetMultipartPartsRequest) : meta_call (list MultipartPart)
| M_GetMultipartCompletion (req : MultipartUploadRequest) : meta_call MultipartCompletionRecord
| M_PrepareMultipartCompletion (req : PrepareMultipartCompletionRequest) : meta_call MultipartCompletionRecord
| M_MarkMultipartCompletionPublished (req : MultipartCompletionStateRequest) : meta_call MultipartCompletionRecord
| M_MarkMultipartCompletionCompleted (req : MultipartCompletionStateRequest) : meta_call MultipartCompletionRecord
| M_CompleteMultipartUpload (req : CompleteMultipartUploadRequest) : meta_call MultipartUpload
| M_AbortMultipartUpload (req : MultipartUploadRequest) : meta_call (list MultipartPart)
| M_CleanupMultipartUploadParts (req : CleanupMultipartUploadPartsRequest) : meta_call CleanupMultipartUploadPartsResult
| M_PutGCCandidate (req : PutGCCandidateRequest) : meta_call GCCandidateRecord
| M_DeleteGCCandidate (segmentID : string) : meta_call unit
| M_AcquireDedupeOperationLock (req : AcquireDedupeOperationLockRequest) : meta_call DedupeOperationLock
| M_ReleaseDedupeOperationLock (req : ReleaseDedupeOperationLockRequest) : meta_call unit
| M_PutSharedObjectRelease (req : PutSharedObjectReleaseRequest) : meta_call SharedObjectRelease
| M_PutVolumePool (req : PutVolumePoolRequest) : meta_call VolumePool
| M_GetVolumePool (poolID : string) : meta_call VolumePool
| M_AcquireWorkerLease (req : AcquireWorkerLeaseRequest) : meta_call WorkerLease
| M_ReleaseWorkerLease (req : ReleaseWorkerLeaseRequest) : meta_call unit
| M_PutWorkerControl (req : PutWorkerControlRequest) : meta_call WorkerControlRecord
| M_GetWorkerControl (req : GetWorkerControlRequest) : meta_call WorkerControlRecord
| M_ListGCCandidates (req : ListGCCandidatesRequest) : meta_call (list GCCandidateRecord)
| M_ListVolumePools (req : ListVolumePoolsRequest) : meta_call (list VolumePool)
| M_PutAdminAuditEvent (req : PutAdminAuditEventRequest) : meta_call AuditEvent.

(** A call with any result. *)
Inductive some_call := Call (A : Type) (c : meta_call A).
Arguments Call {A} c.

(** A state type whose repository answers every call. *)
Class MetaRepository (St : Type) := answer : forall A, meta_call A -> ST St Err A.
Arguments answer {St _ A} c.

Section Answers.
Context `{Env}.

#[export] Instance memory_repository : MetaRepository Repository := fun A c =>
  match c with
  | M_CreateTenant req => RepoBuckets.CreateTenant req
  | M_GetTenant tenantID => RepoBuckets.GetTenant tenantID
  | M_PutTenantQuota req => RepoBuckets.PutTenantQuota req
  | M_GetTenantQuota tenantID => RepoBuckets.GetTenantQuota tenantID
  | M_DeleteTenantQuota tenantID => RepoBuckets.DeleteTenantQuota tenantID
  | M_PutTenantUsage req => RepoBuckets.PutTenantUsage req
  | M_GetTenantUsage tenantID => RepoBuckets.GetTenantUsage tenantID
  | M_PutAccessKey req => RepoBuckets.PutAccessKey req
  | M_GetAccessKey accessKeyID => RepoBuckets.GetAccessKey accessKeyID
  | M_GetKMSKey keyID => RepoBuckets.GetKMSKey keyID
  | M_GetBucketCORS bucketID => RepoBuckets.GetBucketCORS bucketID
  | M_GetBucketLifecycle bucketID => RepoBuckets.GetBucketLifecycle bucketID
  | M_GetBucketEncryption bucketID => RepoBuckets.GetBucketEncryption bucketID
  | M_GetBucketPolicy bucketID => RepoBuckets.GetBucketPolicy bucketID
  | M_GetBucketObjectLock bucketID => RepoBuckets.GetBucketObjectLock bucketID
  | M_PutKMSKey req => RepoBuckets.PutKMSKey req
  | M_PutBucketCORS req => RepoBuckets.PutBucketCORS req
  | M_DeleteBucketCORS bucketID => RepoBuckets.DeleteBucketCORS bucketID
  | M_PutBucketLifecycle req => RepoBuckets.PutBucketLifecycle req
  | M_DeleteBucketLifecycle bucketID audit => RepoBuckets.DeleteBucketLifecycle bucketID audit
  | M_PutBucketEncryption req => RepoBuckets.PutBucketEncryption req
  | M_DeleteBucketEncryption bucketID audit => RepoBuckets.DeleteBucketEncryption bucketID audit
  | M_PutBucketPolicy req => RepoBuckets.PutBucketPolicy req
  | M_DeleteBucketPolicy bucketID audit => RepoBuckets.DeleteBucketPolicy bucketID audit
  | M_PutBucketObjectLock req => RepoBuckets.PutBucketObjectLock req
  | M_PutBucketVersioning req => RepoBuckets.PutBucketVersioning req
  | M_PutBucketQuota req => RepoBuckets.PutBucketQuota req
  | M_GetBucketQuota bucketID => RepoBuckets.GetBucketQuota bucketID
  | M_DeleteBucketQuota bucketID => RepoBuckets.DeleteBucketQuota bucketID
  | M_GetBucketByName name => RepoBuckets.GetBucketByName name
  | M_CreateBucket req => RepoBuckets.CreateBucket req
  | M_PutComplianceProfileAttachment req => RepoBuckets.PutComplianceProfileAttachment req
  | M_CreateMultipartUpload req => RepoMultipart.CreateMultipartUpload req
  | M_GetMultipartUpload req => RepoMultipart.GetMultipartUpload req
  | M_PutMultipartPart req => RepoMultipart.PutMultipartPart req
  | M_ListMultipartParts req => RepoMultipart.ListMultipartParts req
  | M_GetMultipartParts req => RepoMultipart.GetMultipartParts req
  | M_GetMultipartCompletion req => RepoMultipart.GetMultipartCompletion req
  | M_PrepareMultipartCompletion req => RepoMultipart.PrepareMultipartCompletion req
  | M_MarkMultipartCompletionPublished req => RepoMultipart.MarkMultipartCompletionPublished req
  | M_MarkMultipartCompletionCompleted req => RepoMultipart.MarkMultipartCompletionCompleted req
  | M_CompleteMultipartUpload req => RepoMultipart.CompleteMultipartUpload req
  | M_AbortMultipartUpload req => RepoMultipart.AbortMultipartUpload req
  | M_CleanupMultipartUploadParts req => RepoMultipart.CleanupMultipartUploadParts req
  | M_PutGCCandidate req => RepoOps.PutGCCandidate req
  | M_DeleteGCCandidate segmentID => RepoOps.DeleteGCCandidate segmentID
  | M_AcquireDedupeOperationLock req => RepoOps.AcquireDedupeOperationLock req
  | M_ReleaseDedupeOperationLock req => RepoOps.ReleaseDedupeOperationLock req
  | M_PutSharedObjectRelease req => RepoOps.PutSharedObjectRelease req
  | M_PutVolumePool req => RepoOps.PutVolumePool req
  | M_GetVolumePool poolID => RepoOps.GetVolumePool poolID
  | M_AcquireWorkerLease req => RepoOps.AcquireWorkerLease req
  | M_ReleaseWorkerLease req => RepoOps.ReleaseWorkerLease req
  | M_PutWorkerControl req => RepoOps.PutWorkerControl req
  | M_GetWorkerControl req => RepoOps.GetWorkerControl req
  | M_ListGCCandidates req => RepoOps.ListGCCandidates req
  | M_ListVolumePools req => RepoOps.ListVolumePools req
  | M_PutAdminAuditEvent req => RepoAudit.PutAdminAuditEvent req
  end.

#[export] Instance kv_repository : MetaRepository KvRepository := fun A c =>
  match c with
  | M_CreateTenant req => KvMeta.CreateTenant req
  | M_GetTenant tenantID => KvMeta.GetTenant tenantID
  | M_PutTenantQuota req => KvMeta.PutTenantQuota req
  | M_GetTenantQuota tenantID => KvMeta.GetTenantQuota tenantID
  | M_DeleteTenantQuota tenantID => KvMeta.DeleteTenantQuota tenantID
  | M_PutTenantUsage req => KvMeta.PutTenantUsage req
  | M_GetTenantUsage tenantID => KvMeta.GetTenantUsage tenantID
  | M_PutAccessKey req => KvMeta.PutAccessKey req
  | M_GetAccessKey accessKeyID => KvMeta.GetAccessKey accessKeyID
  | M_GetKMSKey keyID => KvMeta.GetKMSKey keyID
  | M_GetBucketCORS bucketID => KvMeta.GetBucketCORS bucketID
  | M_GetBucketLifecycle bucketID => KvMeta.GetBucketLifecycle bucketID
  | M_GetBucketEncryption bucketID => KvMeta.GetBucketEncryption bucketID
  | M_GetBucketPolicy bucketID => KvMeta.GetBucketPolicy bucketID
  | M_GetBucketObjectLock bucketID => KvMeta.GetBucketObjectLock bucketID
  | M_PutKMSKey req => KvMeta.PutKMSKey req
  | M_PutBucketCORS req => KvMeta.PutBucketCORS req
  | M_DeleteBucketCORS bucketID => KvMeta.DeleteBucketCORS bucketID
  | M_PutBucketLifecycle req => KvMeta.PutBucketLifecycle req
  | M_DeleteBucketLifecycle bucketID audit => KvMeta.DeleteBucketLifecycle bucketID audit
  | M_PutBucketEncryption req => KvMeta.PutBucketEncryption req
  | M_DeleteBucketEncryption bucketID audit => KvMeta.DeleteBucketEncryption bucketID audit
  | M_PutBucketPolicy req => KvMeta.PutBucketPolicy req
  | M_DeleteBucketPolicy bucketID audit => KvMeta.DeleteBucketPolicy bucketID audit
  | M_PutBucketObjectLock req => KvMeta.PutBucketObjectLock req
  | M_PutBucketVersioning req => KvObjects.PutBucketVersioning req
  | M_PutBucketQuota req => KvMeta.PutBucketQuota req
  | M_GetBucketQuota bucketID => KvMeta.GetBucketQuota bucketID
  | M_DeleteBucketQuota bucketID => KvMeta.DeleteBucketQuota bucketID
  | M_GetBucketByName name => KvObjects.GetBucketByName name
  | M_CreateBucket req => KvObjects.CreateBucket req
  | M_PutComplianceProfileAttachment req => KvMeta.PutComplianceProfileAttachment req
  | M_CreateMultipartUpload req => KvMultipart.CreateMultipartUpload req
  | M_GetMultipartUpload req => KvMultipart.GetMultipartUpload req
  | M_PutMultipartPart req => KvMultipart.PutMultipartPart req
  | M_ListMultipartParts req => KvMultipart.ListMultipartParts req
  | M_GetMultipartParts req => KvMultipart.GetMultipartParts req
  | M_GetMultipartCompletion req => KvMultipart.GetMultipartCompletion req
  | M_PrepareMultipartCompletion req => KvMultipart.PrepareMultipartCompletion req
  | M_MarkMultipartCompletionPublished req => KvMultipart.MarkMultipartCompletionPublished req
  | M_MarkMultipartCompletionCompleted req => KvMultipart.MarkMultipartCompletionCompleted req
  | M_CompleteMultipartUpload req => KvMultipart.CompleteMultipartUpload req
  | M_AbortMultipartUpload req => KvMultipart.AbortMultipartUpload req
  | M_CleanupMultipartUploadParts req => KvMultipart.CleanupMultipartUploadParts req
  | M_PutGCCandidate req => KvOps.PutGCCandidate req
  | M_DeleteGCCandidate segmentID => KvOps.DeleteGCCandidate segmentID
  | M_AcquireDedupeOperationLock req => KvOps.AcquireDedupeOperationLock req
  | M_ReleaseDedupeOperationLock req => KvOps.ReleaseDedupeOperationLock req
  | M_PutSharedObjectRelease req => KvOps.PutSharedObjectRelease req
  | M_PutVolumePool req => KvOps.PutVolumePool req
  | M_GetVolumePool poolID => KvOps.GetVolumePool poolID
  | M_AcquireWorkerLease req => KvOps.AcquireWorkerLease req
  | M_ReleaseWorkerLease req => KvOps.ReleaseWorkerLease req
  | M_PutWorkerControl req => KvOps.PutWorkerControl req
  | M_GetWorkerControl req => KvOps.GetWorkerControl req
  | M_ListGCCandidates req => KvOps.ListGCCandidates req
  | M_ListVolumePools req => KvOps.ListVolumePools req
  | M_PutAdminAuditEvent req => KvOps.PutAdminAuditEvent req
  end.

(** ** Sequences of calls *)

(** The state after the calls, whatever they answered. *)
Definition after_calls {St} `{!MetaRepository St} (l : list some_call) (s : St) : St :=
  foldl (fun s c => match c with Call c => st_exec (answer c) s end) s l.

(** The calls on which the repositories agree: the object key of a new upload is a UTF-8
    text, the bucket of a quota is not called by a reserved word of the bucket directory,
    a pool has a name, a worker kind has no slash, a control is named without space around
    its names, and a listing says how many records it wants. *)
Definition call_ok {A} (c : meta_call A) : Prop :=
  match c with
  | M_CreateMultipartUpload req => utf8 (cmu_Key req)
  | M_PutBucketQuota req => quota_ok (bqr_BucketID req)
  | M_GetBucketQuota bucketID | M_DeleteBucketQuota bucketID => quota_ok bucketID
  | M_PutVolumePool req => TrimSpace (pvp_PoolID req) <> ""
  | M_GetVolumePool poolID => TrimSpace poolID <> ""
  | M_AcquireWorkerLease req => no_slash (TrimSpace (awl_WorkerKind req)) = true /\ TrimSpace (awl_WorkerKind req) <> ""
  | M_ReleaseWorkerLease req => no_slash (TrimSpace (rwl_WorkerKind req)) = true
  | M_PutWorkerControl req => plain (pwc_WorkerKind req) (pwc_ShardID req) = true /\ pwc_WorkerKind req <> ""
  | M_GetWorkerControl req => no_slash (TrimSpace (gwc_WorkerKind req)) = true
  | M_ListGCCandidates req => 0 < lgc_Limit req
  | M_ListVolumePools req => 0 < lvp_Limit req
  | _ => True
  end.
Definition some_call_ok (c : some_call) : Prop := match c with Call c => call_ok c end.

(** Whether a call found no identifier. *)
Definition unavailable {A} (x : outcome Err A) : bool := match x with Fail ErrUnavailable => true | _ => false end.
(** No call of the sequence did. *)
Fixpoint served {St} `{!MetaRepository St} (l : list some_call) (s : St) : bool :=
  match l with
  | [] => true
  | Call c :: l' => negb (unavailable (answer c s).1) && served l' (st_exec (answer c) s)
  end.

(** The answers are equal. A completion prepared under another key than the one of
    its record is the one exception: it is not found in memory, and a conflict in the
    store. *)
Definition asks_completion {A} (c : meta_call A) : bool :=
  match c with M_PrepareMultipartCompletion _ => true | _ => false end.
Definition answers_agree {A} (c : meta_call A) (x y : outcome Err A) : Prop :=
  x = y \/ (asks_completion c = true /\ x = Fail ErrNotFound /\ y = Fail ErrCASConflict).

Definition kv_start : KvRepository := mkKvRepository ∅ 1 0.

(** ** Simulation *)

Lemma kv_start_core : core NewWithClock kv_start.
Proof. by split; intros; try done; [destruct e; simplify_eq/=; repeat case_match; by simplify_eq | right | right]. Qed.

(** The answers agree and the states stay related, unless no identifier was found. *)
Definition related {A} (c : meta_call A) (x : outcome Err A * Repository) (y : outcome Err A * KvRepository) : Prop :=
  answers_agree c x.1 y.1 /\ (unavailable x.1 = false -> core x.2 y.2).

Lemma agree_related {A} (c : meta_call A) x y : agree x y -> related c x y.
Proof.
  unfold related, answers_agree. destruct x as [[a|e] s], y as [[a'|e'] t]; simpl; try contradiction; intros [<- Hc]; (split; [by left|]); [done|].
  destruct Hc as [->|]; done.
Qed.

Lemma sim_answer {A} (c : meta_call A) s t : call_ok c -> kv_ok (kv_db t) -> core s t -> related c (answer c s) (answer c t).
Proof.
  intros Hcall Hok Hc. destruct c; cbn [call_ok] in Hcall; cbv [answer memory_repository kv_repository].
  { apply agree_related. by apply sim_CreateTenant. }
  { apply agree_related. by apply sim_GetTenant. }
  { apply agree_related. by apply sim_PutTenantQuota. }
  { apply agree_related. by apply sim_GetTenantQuota. }
  { apply agree_related. by apply sim_DeleteTenantQuota. }
  { apply agree_related. by apply sim_PutTenantUsage. }
  { apply agree_related. by apply sim_GetTenantUsage. }
  { apply agree_related. by apply sim_PutAccessKey. }
  { apply agree_related. by apply sim_GetAccessKey. }
  { apply agree_related. by apply sim_GetKMSKey. }
  { apply agree_related. by apply sim_GetBucketCORS. }
  { apply agree_related. by apply sim_GetBucketLifecycle. }
  { apply agree_related. by apply sim_GetBucketEncryption. }
  { apply agree_related. by apply sim_GetBucketPolicy. }
  { apply agree_related. by apply sim_GetBucketObjectLock. }
  { apply agree_related. by apply sim_PutKMSKey. }
  { apply agree_related. by apply sim_PutBucketCORS. }
  { apply agree_related. by apply sim_DeleteBucketCORS. }
  { apply agree_related. by apply sim_PutBucketLifecycle. }
  { apply agree_related. by apply sim_DeleteBucketLifecycle. }
  { apply agree_related. by apply sim_PutBucketEncryption. }
  { apply agree_related. by apply sim_DeleteBucketEncryption. }
  { apply agree_related. by apply sim_PutBucketPolicy. }
  { apply agree_related. by apply sim_DeleteBucketPolicy. }
  { apply agree_related. by apply sim_PutBucketObjectLock. }
  { apply agree_related. by apply sim_PutBucketVersioning. }
  { apply agree_related. by apply sim_PutBucketQuota. }
  { apply agree_related. by apply sim_GetBucketQuota. }
  { apply agree_related. by apply sim_DeleteBucketQuota. }
  { apply agree_related. by apply sim_GetBucketByName. }
  { apply agree_related. by apply sim_CreateBucket. }
  { apply agree_related. by apply sim_PutComplianceProfileAttachment. }
  { apply agree_related. by apply sim_CreateMultipartUpload. }
  { apply agree_related. by apply sim_GetMultipartUpload. }
  { apply agree_related. by apply sim_PutMultipartPart. }
  { apply agree_related. by apply sim_ListMultipartParts. }
  { apply agree_related. by apply sim_GetMultipartParts. }
  { apply agree_related. by apply sim_GetMultipartCompletion. }
  { destruct (sim_PrepareMultipartCompletion req s t Hok Hc) as [Ha|[-> ->]]; [by apply agree_related|]. split; [by right | done]. }
  { apply agree_related. by apply sim_MarkMultipartCompletionPublished. }
  { apply agree_related. by apply sim_MarkMultipartCompletionCompleted. }
  { apply agree_related. by apply sim_CompleteMultipartUpload. }
  { apply agree_related. by apply sim_AbortMultipartUpload. }
  { apply agree_related. by apply sim_CleanupMultipartUploadParts. }
  { apply agree_related. by apply sim_PutGCCandidate. }
  { apply agree_related. by apply sim_DeleteGCCandidate. }
  { apply agree_related. by apply sim_AcquireDedupeOperationLock. }
  { apply agree_related. by apply sim_ReleaseDedupeOperationLock. }
  { apply agree_related. by apply sim_PutSharedObjectRelease. }
  { apply agree_related. by apply sim_PutVolumePool. }
  { apply agree_related. by apply sim_GetVolumePool. }
  { apply agree_related. destruct Hcall. by apply sim_AcquireWorkerLease. }
  { apply agree_related. by apply sim_ReleaseWorkerLease. }
  { apply agree_related. destruct Hcall. by apply sim_PutWorkerControl. }
  { apply agree_related. by apply sim_GetWorkerControl. }
  { apply agree_related. by apply sim_ListGCCandidates. }
  { apply agree_related. by apply sim_ListVolumePools. }
  { apply agree_related. by apply sim_PutAdminAuditEvent. }
Qed.

Lemma answer_ok {A} (c : meta_call A) : call_ok c -> op_ok (answer (St := KvRepository) c).
Proof.
  intros Hcall. destruct c; cbn [call_ok] in Hcall; cbv [answer kv_repository];
    [by apply CreateTenant_ok | by apply GetTenant_ok | by apply PutTenantQuota_ok | by apply GetTenantQuota_ok | by apply DeleteTenantQuota_ok |
     by apply PutTenantUsage_ok | by apply GetTenantUsage_ok | by apply PutAccessKey_ok | by apply GetAccessKey_ok | by apply GetKMSKey_ok |
     by apply GetBucketCORS_ok | by apply GetBucketLifecycle_ok | by apply GetBucketEncryption_ok | by apply GetBucketPolicy_ok |
     by apply GetBucketObjectLock_ok | by apply PutKMSKey_ok | by apply PutBucketCORS_ok | by apply DeleteBucketCORS_ok |
     by apply PutBucketLifecycle_ok | by apply DeleteBucketLifecycle_ok | by apply PutBucketEncryption_ok | by apply DeleteBucketEncryption_ok |
     by apply PutBucketPolicy_ok | by apply DeleteBucketPolicy_ok | by apply PutBucketObjectLock_ok | by apply kv_PutBucketVersioning_ok |
     by apply PutBucketQuota_ok | by apply GetBucketQuota_ok | by apply DeleteBucketQuota_ok | by apply GetBucketByName_ok |
     by apply kv_CreateBucket_ok | by apply PutComplianceProfileAttachment_ok | by apply CreateMultipartUpload_ok | by apply GetMultipartUpload_ok |
     by apply PutMultipartPart_ok | by apply ListMultipartParts_ok | by apply GetMultipartParts_ok | by apply GetMultipartCompletion_ok |
     by apply PrepareMultipartCompletion_ok | by apply mark_ok | by apply mark_ok | by apply CompleteMultipartUpload_ok |
     by apply AbortMultipartUpload_ok | by apply CleanupMultipartUploadParts_ok | by apply PutGCCandidate_ok | by apply DeleteGCCandidate_ok |
     by apply AcquireDedupeOperationLock_ok | by apply ReleaseDedupeOperationLock_ok | by apply PutSharedObjectRelease_ok |
     by apply PutVolumePool_ok | by apply GetVolumePool_ok | by apply AcquireWorkerLease_ok | by apply ReleaseWorkerLease_ok |
     by apply PutWorkerControl_ok | by apply GetWorkerControl_ok | by apply ListGCCandidates_ok | by apply ListVolumePools_ok |
     by apply PutAdminAuditEvent_ok].
Qed.

Lemma after_calls_related l s t : Forall some_call_ok l -> served l s = true -> kv_ok (kv_db t) -> core s t ->
  core (after_calls l s) (after_calls l t) /\ kv_ok (kv_db (after_calls l t)).
Proof.
  revert s t. induction l as [|[A c] l IH]; intros s t Hl Hs Hok Hc; [done|]. apply Forall_cons in Hl as [Hcall Hl].
  cbn [served] in Hs. apply andb_true_iff in Hs as [Hu%negb_true_iff Hs].
  destruct (sim_answer c s t Hcall Hok Hc) as [_ Hc']. destruct (answer_ok c Hcall t Hok) as [Hok' _].
  cbn [after_calls foldl]. apply (IH (st_exec (answer c) s) (st_exec (answer c) t)); [done | done | exact Hok' | exact (Hc' Hu)].
Qed.

End Answers.

(** ** An example *)

Definition agr_ex_part (n : Z) : PutMultipartPartRequest := mkPutMultipartPartRequest "bkt_0" "video/day 1" "upl_1" n (n * 100) "etag" zero_SegmentRef.
Definition agr_ex_upload : MultipartUploadRequest := mkMultipartUploadRequest "bkt_0" "video/day 1" "upl_1".
Definition agr_ex_calls : list some_call :=
  [ Call (M_CreateTenant (mkCreateTenantRequest "tenant" "Tenant"));
    Call (M_CreateBucket (mkCreateBucketRequest "tenant" "photos" "eu-1" false));
    Call (M_CreateMultipartUpload (mkCreateMultipartUploadRequest "bkt_0" "video/day 1" "text/plain" zero_StorageClassSnapshot
      zero_ServerSideEncryption ∅ ∅ zero_ObjectLockRetention ""));
    Call (M_PutMultipartPart (agr_ex_part 10)); Call (M_PutMultipartPart (agr_ex_part 9)); Call (M_PutMultipartPart (agr_ex_part 100));
    Call (M_GetTenant "nobody") ].

Definition part_numbers (x : outcome Err (list MultipartPart)) : option (list Z) :=
  match x with Ok l => Some (map mp_PartNumber l) | Fail _ => None end.


(** Two settings of one control, the second named with a space: the store looks for the
    first under the name as given and takes the control for a new one, so its creation
    time moves. In memory it stays. *)
Definition agr_ex_control (kind : string) : PutWorkerControlRequest := mkPutWorkerControlRequest kind "0" "paused" "" "".
Definition created {St} `{!MetaRepository St} (s : St) : option Time :=
  match (answer (M_PutWorkerControl (agr_ex_control " gc")) (after_calls [Call (M_PutWorkerControl (agr_ex_control "gc"))] s)).1 with
  | Ok r => Some (wcr_CreatedAt r)
  | Fail _ => None
  end.
Theorem kv_control_forgets_creation :
  @created _ (@memory_repository exEnv) (@NewWithClock exEnv) = Some (@env_now exEnv 1) /\
  @created _ (@kv_repository exEnv) kv_start = Some (@env_now exEnv 2) /\ @env_now exEnv 1 <> @env_now exEnv 2.
Proof. split_and!; by vm_compute. Qed.
