(* ===== verification/KvListing.v ===== *)
(** * KvListing: [ListObjects] of the KV metadata repository

    [listObjectsRange] of [src/internal/meta/kvrepo/repository.go] walks the listing
    entries of a bucket in key order, page by page, rolls keys up into common
    prefixes and jumps over the rest of a common prefix. The theorem: a listing
    without a continuation token is the first page of the reference listing (all
    entries of the bucket with the prefix, in the order of their escaped keys,
    rolled up one after the other). The findings at the end show where that
    differs from the memory repository and where pages lose keys. *)

From S2P Require Import Prelude GoLib GoText Sha256 StorageTypes Model Requests Encoding Meta Manifest Repo RepoListing.
From S2P Require Import RepoLogic RepoCalls ObjInv RepoExample Pagination.
From S2P Require Import Keyspace KvStore KvRepo KvObjects KvInv KvMetaInv.
From Stdlib Require Import Sorted Ascii.
Open Scope string_scope.
Open Scope Z_scope.

(** ** One page of keys *)

(** How the loop over the keys of a page ends: the result is full, a common
    prefix was met and the rest of it is skipped, or the page is through. *)
Inductive page_end :=
| PageFull (entries : list (entry ObjectHead))
| PageSkip (entries : list (entry ObjectHead)) (commonPrefixes : gset string) (skipTo : string)
| PageDone (entries : list (entry ObjectHead)) (commonPrefixes : gset string)
| PageError (e : Err).

Fixpoint scan_page (db : gmap string kvalue) (req : ListObjectsRequest) (maxKeys : nat) (keys : list string)
    (entries : list (entry ObjectHead)) (commonPrefixes : gset string) : page_end :=
  match keys with
  | [] => PageDone entries commonPrefixes
  | key :: keys' =>
      match db !! key with
      | None => scan_page db req maxKeys keys' entries commonPrefixes
      | Some v =>
          match decode as_List v with
          | Fail e => PageError e
          | Ok listEntry =>
              let head := headFromListEntry listEntry in
              if negb (HasPrefix (oh_Key head) (lor_Prefix req)) then scan_page db req maxKeys keys' entries commonPrefixes
              else match common_prefix (lor_Prefix req) (lor_Delimiter req) (oh_Key head) with
                   | Some commonPrefix =>
                       let skipTo := prefixRangeEndString (ListObjectKey (lor_BucketID req) commonPrefix) in
                       if bool_decide (commonPrefix ∈ commonPrefixes) then PageSkip entries commonPrefixes skipTo
                       else PageSkip (entries ++ [mk_entry commonPrefix true zero_ObjectHead])%list
                              ({[commonPrefix]} ∪ commonPrefixes) skipTo
                   | None =>
                       let entries := (entries ++ [mk_entry (oh_Key head) false head])%list in
                       if (maxKeys <? length entries)%nat then PageFull entries
                       else scan_page db req maxKeys keys' entries commonPrefixes
                   end
          end
      end
  end.

(** The outer loop; [None] when the fuel runs out. *)
Fixpoint list_loop (fuel : nat) (db : gmap string kvalue) (req : ListObjectsRequest) (maxKeys : nat)
    (start end_ cursor : string) (entries : list (entry ObjectHead)) (commonPrefixes : gset string)
    : option (outcome Err (list (entry ObjectHead))) :=
  match fuel with
  | O => None
  | S fuel' =>
      if (maxKeys <? length entries)%nat then Some (Ok entries)
      else
        let '(keys, next) := list_range_ref db start end_ cursor (Z.of_nat maxKeys + 1) in
        if Nat.eqb (length keys) 0 then Some (Ok entries)
        else
          let after_page entries commonPrefixes :=
            if next =s "" then Some (Ok entries)
            else list_loop fuel' db req maxKeys start end_ next entries commonPrefixes in
          match scan_page db req maxKeys keys entries commonPrefixes with
          | PageFull entries => Some (Ok entries)
          | PageError e => Some (Fail e)
          | PageSkip entries commonPrefixes skipTo =>
              if skipTo =s "" then after_page entries commonPrefixes
              else list_loop fuel' db req maxKeys skipTo end_ "" entries commonPrefixes
          | PageDone entries commonPrefixes => after_page entries commonPrefixes
          end
  end.

Definition listObjectsRange (req : ListObjectsRequest) (maxKeys : nat) : KM ListObjectsResult :=
  let! entries := run (
    require ErrNotFound (getJSON as_Bucket (BucketByIDKey (lor_BucketID req))) ;;!
    let start := ListObjectKey (lor_BucketID req) (lor_Prefix req) in
    let end_ := prefixRangeEndString start in
    let token := lor_ContinuationToken req in
    let tokenKey := ListObjectKey (lor_BucketID req) token in
    let '(start, cursor) :=
      if negb (token =s "") then
        if negb (lor_Delimiter req =s "") && HasSuffix token (lor_Delimiter req)
        then (prefixRangeEndString tokenKey, "") else (start, tokenKey)
      else (start, "") in
    let! db := kgets kv_db in
    match list_loop (scan_fuel db) db req maxKeys start end_ cursor [] ∅ with
    | Some r => st_lift r
    | None => st_fail ErrOther
    end) in
  st_ret (mkListObjectsResult (entry_items (page maxKeys entries)) (entry_prefixes (page maxKeys entries))
            (truncated maxKeys entries) (match last_of maxKeys entries with Some e => name e | None => "" end)).

Definition ListObjects (req : ListObjectsRequest) : KM ListObjectsResult :=
  fail! ErrInvalidArgument when lor_BucketID req =s "" ;
  listObjectsRange req (go_limit (lor_MaxKeys req)).

(** ** Escaping and prefixes *)

Lemma escape_app a b : escape (a +:+ b) = escape a +:+ escape b.
Proof. induction a as [|c a IH]; [done|]. rewrite str_app_cons. simpl. by destruct (isSafe c); rewrite !str_app_cons, IH. Qed.

Lemma escape_prefix p k : HasPrefix (escape k) (escape p) = true -> HasPrefix k p = true.
Proof.
  unfold HasPrefix. revert k. induction p as [|c p IH]; intros k; [by destruct k|].
  destruct k as [|d k]; [simpl; destruct (isSafe c); done|]. simpl.
  destruct (isSafe c) eqn:Hc, (isSafe d) eqn:Hd; cbn [String.prefix].
  - destruct (ascii_dec c d); [apply IH | done].
  - destruct (ascii_dec c percent) as [->|]; done.
  - destruct (ascii_dec percent d) as [<-|]; done.
  - destruct (ascii_dec percent percent); [|done]. destruct (ascii_dec _ _) as [H1|]; [|done].
    destruct (ascii_dec _ _) as [H2|]; [|done]. intros Hp.
    pose proof (hex_digits c) as (A1 & A2 & A3). pose proof (hex_digits d) as (B1 & B2 & B3).
    rewrite H1, B1 in A1. rewrite H2, B2 in A2. simplify_eq.
    destruct (ascii_dec c d) as [|Hne]; [by apply IH|]. exfalso. apply Hne. rewrite <- A3, <- B3. congruence.
Qed.

Lemma list_key_prefix b p k : HasPrefix (ListObjectKey b k) (ListObjectKey b p) = HasPrefix k p.
Proof.
  rewrite (ListObjectKey_app b k), (ListObjectKey_app b p), HasPrefix_prefixed. apply eq_bool_prop_intro. split; intros Hp%Is_true_true; apply Is_true_true.
  - by apply escape_prefix.
  - apply prefix_spec in Hp as [t ->]. rewrite escape_app. apply HasPrefix_app.
Qed.

(** ** Common prefixes *)

Lemma prefix_app_l d x t : String.prefix d x = true -> String.prefix d (x +:+ t) = true.
Proof. intros [u ->]%prefix_spec. apply prefix_spec. exists (u +:+ t). by rewrite str_app_assoc. Qed.

Lemma Index_length d s i : Index s d = Some i -> (i + String.length d <= String.length s)%nat.
Proof.
  unfold Index. revert i. induction s as [|c s IH]; intros i; [by destruct d; simpl; intros; simplify_eq|].
  cbn [String.index]. destruct (String.prefix d (String c s)) eqn:Hp.
  - intros [= <-]. apply prefix_spec in Hp as [t Ht]. rewrite Ht, str_length_app. lia.
  - destruct (String.index 0 d s) as [j|] eqn:Hj; [|done]. intros [= <-]. specialize (IH j eq_refl). simpl. lia.
Qed.

(** The first delimiter of a text stays the first one when the text is longer
    behind it. *)
Lemma prefix_app_inv d x t : (String.length d <= String.length x)%nat -> String.prefix d (x +:+ t) = true -> String.prefix d x = true.
Proof.
  revert x. induction d as [|c d IH]; intros [|e x] Hl; [done..| |]; simpl in Hl; [lia|]. rewrite str_app_cons. simpl.
  destruct (ascii_dec c e); [apply IH; lia | done].
Qed.

Lemma Index_app d x t i : Index x d = Some i -> Index (x +:+ t) d = Some i.
Proof.
  intros Hi. pose proof (Index_length _ _ _ Hi) as Hlen. revert i Hi Hlen. unfold Index.
  induction x as [|c x IH]; intros i Hi Hlen.
  { destruct d; [|done]. simpl in Hi. simplify_eq. rewrite str_nil_app. by destruct t. }
  rewrite str_app_cons. cbn [String.index] in *. destruct (String.prefix d (String c x)) eqn:Hp.
  - simplify_eq. pose proof (prefix_app_l d (String c x) t Hp) as Hp'. rewrite str_app_cons in Hp'. by rewrite Hp'.
  - destruct (String.index 0 d x) as [j|] eqn:Hj; [|done]. simplify_eq. simpl in Hlen.
    rewrite (IH j eq_refl) by lia. destruct (String.prefix d (String c (x +:+ t))) eqn:Hq; [|done].
    rewrite <- str_app_cons in Hq. apply prefix_app_inv in Hq; [congruence|]. simpl. lia.
Qed.

Lemma take_str_exact n a b : (n <= String.length a)%nat -> take_str n (a +:+ b) = take_str n a.
Proof.
  unfold take_str. revert n. induction a as [|c a IH]; intros n Hn.
  { simpl in Hn. assert (n = 0)%nat as -> by lia. rewrite str_nil_app. by destruct b. }
  rewrite str_app_cons. destruct n; [done|]. simpl in *. rewrite IH by lia. done.
Qed.

Section CommonPrefix.
Context (p d : string).

Lemma common_prefix_prefix key cp : HasPrefix key p = true -> common_prefix p d key = Some cp -> HasPrefix key cp = true.
Proof.
  intros [rest ->]%prefix_spec. unfold common_prefix. destruct (d =s ""); [done|]. rewrite TrimPrefix_app.
  destruct (Index rest d) as [i|]; [|done]. intros [= <-]. rewrite HasPrefix_prefixed. apply prefix_spec.
  exists (drop_str (i + String.length d) rest). generalize (i + String.length d)%nat as n. clear i.
  unfold take_str, drop_str. induction rest as [|c rest IH]; intros n; [by destruct n|].
  destruct n as [|n]; simpl; [f_equal; by rewrite substring_full|]. rewrite str_app_cons. f_equal. apply IH.
Qed.

(** Every key under a common prefix has that common prefix. *)
Lemma common_prefix_under key0 key cp :
  HasPrefix key0 p = true -> common_prefix p d key0 = Some cp -> HasPrefix key cp = true ->
  HasPrefix key p = true /\ common_prefix p d key = Some cp.
Proof.
  intros Hp0 Hcp0 [t ->]%prefix_spec. pose proof (common_prefix_fixed p d key0 cp Hp0 Hcp0) as Hfix.
  assert (HasPrefix cp p = true) as Hcp.
  { unfold common_prefix in Hcp0. destruct (d =s ""); [done|]. destruct (Index _ d); [|done]. simplify_eq. apply HasPrefix_app. }
  apply prefix_spec in Hcp as [x ->]. rewrite <- str_app_assoc. split; [apply HasPrefix_app|].
  unfold common_prefix in *. destruct (d =s ""); [done|]. rewrite TrimPrefix_app in *.
  destruct (Index x d) as [i|] eqn:Hi; [|done]. rewrite (Index_app d x t i Hi), take_str_exact; [done|].
  by apply Index_length.
Qed.
End CommonPrefix.

(** ** The walk is the reference listing *)

Lemma prefixRangeEnd_named c s : byte_ff c = false -> prefixRangeEndString (String c s) <> "".
Proof. intros Hc. rewrite prefixRangeEndString_cons, Hc. by destruct (prefixRangeEndString s). Qed.

Lemma list_key_range bucketID key : prefixRangeEndString (ListObjectKey bucketID key) <> "".
Proof. autounfold with keys. str_norm. by apply prefixRangeEnd_named. Qed.


Lemma list_key_nonempty bucketID s : ListObjectKey bucketID "" +:+ s <> "".
Proof. autounfold with keys. str_norm. done. Qed.

Lemma elem_of_drop_weaken {A} (x : A) n l : x ∈ drop n l -> x ∈ l.
Proof. intros Hx. rewrite <- (take_drop n l). apply elem_of_app. by right. Qed.

Section Walk.
#[local] Opaque ListObjectKey prefixRangeEndString.
Context (db : gmap string kvalue) (Hdb : kv_ok db) (req : ListObjectsRequest) (maxKeys : nat).
Abbreviation b := (lor_BucketID req).
Abbreviation p := (lor_Prefix req).
Abbreviation d := (lor_Delimiter req).

(** The object a listing key stands for. *)
Definition item_of (k : string) : option (string * ObjectHead) :=
  match db !! k with
  | Some (V_List e) => Some (ole_Key e, headFromListEntry e)
  | _ => None
  end.

Definition items (keys : list string) : list (string * ObjectHead) := omap item_of keys.

(** The listing entries of the bucket with the prefix, in key order. *)
Definition listing_keys : list string := List.filter (fun k => HasPrefix k (ListObjectKey b p)) (sorted_keys db).

Definition rolled (seen : gset string) (keys : list string) : list (entry ObjectHead) :=
  roll_up p d zero_ObjectHead seen (items keys).

Definition listed (k : string) : Prop :=
  exists key e, k = ListObjectKey b key /\ db !! k = Some (V_List e) /\ ole_Key e = key /\ HasPrefix key p = true.

Lemma listing_key_listed k : k ∈ listing_keys -> listed k.
Proof.
  intros [Hp [v Hv]%elem_of_sorted_keys]%elem_of_list_filter_bool. destruct (proj1 Hdb k v Hv) as (e & -> & He & Ht).
  assert (HasPrefix (key_of e) (ListObjectKey b "") = true) as Hb.
  { apply prefix_spec in Hp as [t ->]. rewrite ListObjectKey_app, <- str_app_assoc. apply HasPrefix_app. }
  rewrite list_scan_prefix in Hb. apply scan_split in Hb as (rest & Hrest & Hseg); [|done | apply list_scan_no_slash].
  destruct e; simpl in Hseg; simplify_eq; try by destruct rest.
  match goal with H : escape _ = escape _ |- _ => apply escape_inj in H as -> end.
  destruct v; simpl in Ht; try contradiction. destruct Ht as [_ <-]. eexists _, _. split; [done|]. split; [exact Hv|].
  split; [done|]. by rewrite <- (list_key_prefix b).
Qed.

Lemma item_of_listed k key e : db !! k = Some (V_List e) -> ole_Key e = key -> item_of k = Some (key, headFromListEntry e).
Proof. unfold item_of. by intros -> <-. Qed.

(** Keys whose common prefix was seen can be left out. *)
Lemma rolled_skip (f : string -> bool) seen keys :
  (forall k, k ∈ keys -> f k = false -> exists key h cp, item_of k = Some (key, h) /\ common_prefix p d key = Some cp /\ (cp ∈ seen)) ->
  rolled seen keys = rolled seen (List.filter f keys).
Proof.
  unfold rolled. revert seen. induction keys as [|k keys IH]; intros seen Hk; [done|]. simpl.
  destruct (f k) eqn:Hf.
  - unfold items. cbn [omap]. simpl. destruct (item_of k) as [[key h]|]; simpl.
    + destruct (common_prefix p d key); [case_bool_decide|].
      * apply IH. intros. apply Hk; [by right | done].
      * f_equal. apply IH. intros k' Hk' Hf'. destruct (Hk k') as (key' & h' & cp & ? & ? & ?); [by right | done|].
        exists key', h', cp. set_solver.
      * f_equal. apply IH. intros. apply Hk; [by right | done].
    + apply IH. intros. apply Hk; [by right | done].
  - destruct (Hk k ltac:(by left) Hf) as (key & h & cp & Hi & Hc & Hin). unfold items. simpl. rewrite Hi. simpl. rewrite Hc.
    rewrite bool_decide_eq_true_2 by done. apply IH. intros. apply Hk; [by right | done].
Qed.

(** The common prefixes seen so far have no key left. *)
Definition fresh_for (seen : gset string) (keys : list string) : Prop :=
  forall k key h cp, k ∈ keys -> item_of k = Some (key, h) -> common_prefix p d key = Some cp -> cp ∉ seen.

(** What the loop over one page does to the walk over [keys ++ rest]. *)
Definition page_spec (entries : list (entry ObjectHead)) (seen : gset string) (all rest : list string) (o : page_end) : Prop :=
  let whole := (entries ++ rolled seen all)%list in
  match o with
  | PageFull es => es = take (S maxKeys) whole /\ length es = S maxKeys
  | PageDone es seen' => seen' = seen /\ (es ++ rolled seen rest)%list = whole /\ (length es <= maxKeys)%nat
  | PageSkip es seen' skipTo =>
      let rest' := List.filter (fun k => negb (str_ltb k skipTo)) all in
      skipTo <> "" /\ (es ++ rolled seen' rest')%list = whole /\ (length es <= S maxKeys)%nat /\
      (length rest' < length all)%nat /\ fresh_for seen' rest' /\
      exists k0, k0 ∈ all /\ str_ltb k0 skipTo = true
  | PageError _ => False
  end.

(** The jump over a common prefix leaves out exactly its keys. *)
Lemma skip_page key e all rest entries seen cp :
  Forall (str_lt (ListObjectKey b key)) all -> Forall listed all -> fresh_for seen (ListObjectKey b key :: all) ->
  (length entries <= maxKeys)%nat -> HasPrefix key p = true ->
  item_of (ListObjectKey b key) = Some (key, headFromListEntry e) -> common_prefix p d key = Some cp ->
  page_spec entries seen (ListObjectKey b key :: all) rest
    (PageSkip (entries ++ [mk_entry cp true zero_ObjectHead])%list ({[cp]} ∪ seen) (prefixRangeEndString (ListObjectKey b cp))).
Proof.
  intros Hk Hall Hfresh Hlen Hp Hitem Hcp. set (skipTo := prefixRangeEndString (ListObjectKey b cp)).
  assert (Hne : skipTo <> "") by apply list_key_range.
  assert (Hin : forall k', HasPrefix k' (ListObjectKey b cp) = negb (str_ltb k' (ListObjectKey b cp)) && str_ltb k' skipTo).
  { intros k'. rewrite prefix_range. fold skipTo. apply String.eqb_neq in Hne. by rewrite Hne. }
  assert (Hkey : HasPrefix (ListObjectKey b key) (ListObjectKey b cp) = true).
  { rewrite list_key_prefix. by eapply common_prefix_prefix. }
  pose proof Hkey as Hkey'. rewrite Hin in Hkey'. apply andb_true_iff in Hkey' as [Hge%negb_true_iff Hlt].
  assert (Hfilter : List.filter (fun k => negb (str_ltb k skipTo)) (ListObjectKey b key :: all) =
                    List.filter (fun k => negb (str_ltb k skipTo)) all) by (cbn [List.filter]; rewrite Hlt; reflexivity).
  unfold page_spec. rewrite Hfilter. split_and!; [done| | | | |].
  - rewrite <- app_assoc. f_equal. unfold rolled at 2, items. simpl. rewrite Hitem. simpl. rewrite Hcp.
    rewrite bool_decide_eq_false_2 by (eapply Hfresh; [by left | exact Hitem | exact Hcp]). simpl. f_equal.
    symmetry. apply rolled_skip. intros k' Hk' Hlt'%negb_false_iff. rewrite Forall_forall in Hk, Hall.
    destruct (Hall k' Hk') as (key' & e' & -> & Hv' & HK' & Hp').
    exists key', (headFromListEntry e'), cp. split; [by apply item_of_listed|]. split; [|set_solver].
    apply (common_prefix_under p d key key' cp Hp Hcp). rewrite <- (list_key_prefix b), Hin, Hlt', andb_true_r.
    apply negb_true_iff. specialize (Hk _ Hk'). unfold str_lt in Hk. eapply str_geb_trans; [exact Hge|].
    by apply str_ltb_asym.
  - rewrite length_app. simpl. lia.
  - simpl. pose proof (length_filter_le (fun k => negb (str_ltb k skipTo)) all). lia.
  - intros k' key' h cp' [Hn Hk']%elem_of_list_filter_bool Hi' Hc'. apply negb_true_iff in Hn.
    rewrite not_elem_of_union, not_elem_of_singleton. split; [|eapply Hfresh; [by right | done | done]].
    intros ->. rewrite Forall_forall in Hall. destruct (Hall k' Hk') as (key1 & e1 & -> & Hv1 & HK1 & Hp1).
    rewrite (item_of_listed _ _ _ Hv1 HK1) in Hi'. simplify_eq.
    pose proof (common_prefix_prefix p d _ cp Hp1 Hc') as Hpre. rewrite <- (list_key_prefix b), Hin, Hn, andb_false_r in Hpre. done.
  - exists (ListObjectKey b key). split; [by left | done].
Qed.

Lemma scan_page_spec keys rest entries seen :
  StronglySorted str_lt (keys ++ rest)%list -> Forall listed (keys ++ rest)%list -> fresh_for seen (keys ++ rest)%list ->
  (length entries <= maxKeys)%nat ->
  page_spec entries seen (keys ++ rest)%list rest (scan_page db req maxKeys keys entries seen).
Proof.
  revert entries. induction keys as [|k keys IH]; intros entries Hs Hall Hfresh Hlen; [done|].
  simpl in Hs, Hall. apply StronglySorted_inv in Hs as [Hs Hk]. apply Forall_cons in Hall as [Hl Hall].
  destruct Hl as (key & e & -> & Hv & HK & Hp). cbn [scan_page]. rewrite Hv. cbn [decode as_List].
  change (oh_Key (headFromListEntry e)) with (ole_Key e). rewrite HK, Hp. cbn [negb].
  pose proof (item_of_listed _ _ _ Hv HK) as Hitem.
  destruct (common_prefix p d key) as [cp|] eqn:Hcp.
  - rewrite bool_decide_eq_false_2 by (eapply Hfresh; [by left | exact Hitem | exact Hcp]). exact (skip_page key e _ rest entries seen cp Hk Hall Hfresh Hlen Hp Hitem Hcp).
  - assert (Hwhole : (entries ++ rolled seen (ListObjectKey b key :: keys ++ rest)%list)%list =
                     ((entries ++ [mk_entry key false (headFromListEntry e)]) ++ rolled seen (keys ++ rest)%list)%list).
    { rewrite <- app_assoc. f_equal. unfold rolled, items. simpl. rewrite Hitem. simpl. by rewrite Hcp. }
    unfold page_spec. cbn [app]. rewrite Hwhole. destruct (Nat.ltb_spec maxKeys (length (entries ++ [mk_entry key false (headFromListEntry e)])%list)) as [Hlt|Hge].
    + rewrite length_app in Hlt. simpl in Hlt. split; [|rewrite length_app; simpl; lia].
      rewrite take_app_le by (rewrite length_app; simpl; lia). rewrite take_ge; [done|]. rewrite length_app. simpl. lia.
    + specialize (IH (entries ++ [mk_entry key false (headFromListEntry e)])%list Hs Hall).
      specialize (IH ltac:(intros k' key' h cp Hin; apply Hfresh; by right) Hge). revert IH. unfold page_spec.
      destruct (scan_page _ _ _ _ _ _) as [es|es seen' skipTo|es seen'|]; [done| |done..].
      intros (Hne & Hw & Hles & Hless & Hfr & k0 & Hk0 & Hlt0). simpl.
      assert (str_ltb (ListObjectKey b key) skipTo = true) as Hkskip.
      { rewrite Forall_forall in Hk. specialize (Hk k0 Hk0). unfold str_lt in Hk. by eapply str_ltb_trans. }
      rewrite Hkskip. simpl. split_and!; [done | done | done | simpl in *; lia | done|]. exists k0. split; [by right | done].
Qed.

Abbreviation range_end := (prefixRangeEndString (ListObjectKey b p)).

(** The keys the loop has still to look at. *)
Definition remaining (start cursor : string) : list string := List.filter (in_range start range_end cursor) (sorted_keys db).

Lemma remaining_after start cursor : remaining start cursor = List.filter (after cursor) (remaining start "").
Proof.
  unfold remaining. rewrite <- filter_and. apply filter_ext. intros k. unfold in_range, after.
  change ("" =s "") with true. by rewrite orb_true_l, andb_true_r.
Qed.

Lemma remaining_sorted start cursor : StronglySorted str_lt (remaining start cursor).
Proof. apply filter_sorted, sorted_keys_sorted. Qed.

Lemma in_range_spec start cursor k :
  in_range start range_end cursor k = true <->
  str_ltb k start = false /\ str_ltb k range_end = true /\ (cursor = "" \/ str_ltb cursor k = true).
Proof.
  unfold in_range. rewrite !andb_true_iff, !orb_true_iff, negb_true_iff, !String.eqb_eq.
  pose proof (list_key_range b p). tauto.
Qed.

Lemma remaining_skip start cursor skipTo k0 :
  k0 ∈ remaining start cursor -> str_ltb k0 skipTo = true ->
  remaining skipTo "" = List.filter (fun k => negb (str_ltb k skipTo)) (remaining start cursor).
Proof.
  intros [Hk0 _]%elem_of_list_filter_bool Hlt. apply in_range_spec in Hk0 as (Hs & _ & Hc).
  unfold remaining. rewrite <- filter_and. apply filter_ext. intros k. apply eq_bool_prop_intro. rewrite !Is_true_true.
  rewrite andb_true_iff, !in_range_spec, negb_true_iff. split; [|tauto]. intros (Hk & He & _). split; [|done].
  assert (str_ltb k0 k = true) as H0.
  { destruct (str_ltb k0 k) eqn:H0; [done|]. by rewrite (str_geb_trans _ _ _ Hk H0) in Hlt. }
  split_and!; [|done|].
  - eapply str_geb_trans; [exact Hs|]. by apply str_ltb_asym.
  - destruct Hc as [->|Hc]; [by left | right; by eapply str_ltb_trans].
Qed.

Lemma rolled_nil seen : rolled seen [] = [].
Proof. reflexivity. Qed.

Lemma listed_nonempty k : listed k -> k <> "".
Proof. intros (key & e & -> & _). rewrite ListObjectKey_app. apply list_key_nonempty. Qed.

Lemma list_loop_spec fuel start cursor entries seen :
  Forall listed (remaining start cursor) -> fresh_for seen (remaining start cursor) ->
  (length entries <= S maxKeys)%nat -> (length (remaining start cursor) < fuel)%nat ->
  list_loop fuel db req maxKeys start range_end cursor entries seen =
    Some (Ok (take (S maxKeys) (entries ++ rolled seen (remaining start cursor))%list)).
Proof.
  revert start cursor entries seen. induction fuel as [|fuel IH]; intros start cursor entries seen Hall Hfresh Hlen Hfuel; [lia|].
  cbn [list_loop]. destruct (Nat.ltb_spec maxKeys (length entries)) as [Hfull|Hroom].
  { rewrite take_app_le, take_ge by lia. done. }
  unfold list_range_ref. fold (remaining start cursor). assert (kv_limit (Z.of_nat maxKeys + 1) = S maxKeys) as ->.
  { unfold kv_limit. destruct (Z.leb_spec (Z.of_nat maxKeys + 1) 0); lia. }
  set (R := remaining start cursor) in *.
  destruct (kv_page (S maxKeys) R) as [keys next] eqn:Hpage.
  assert (keys = take (S maxKeys) R /\ next = (kv_page (S maxKeys) R).2) as [Hkeys Hnext] by (rewrite Hpage; unfold kv_page in Hpage; by simplify_eq).
  destruct (Nat.eqb_spec (length keys) 0) as [H0|H0].
  { rewrite Hkeys, length_take in H0. assert (R = []) as -> by (destruct R; [done | simpl in H0; lia]).
    rewrite rolled_nil, app_nil_r, take_ge by lia. done. }
  pose proof (scan_page_spec keys (drop (S maxKeys) R) entries seen) as Hspec.
  rewrite Hkeys, take_drop in Hspec. specialize (Hspec (remaining_sorted start cursor) Hall Hfresh Hroom).
  rewrite <- Hkeys in Hspec. destruct (scan_page db req maxKeys keys entries seen) as [es|es seen' skipTo|es seen'|]; simpl in Hspec.
  - destruct Hspec as [-> _]. done.
  - destruct Hspec as (Hne & Hw & Hles & Hless & Hfr & k0 & Hk0 & Hlt0). apply String.eqb_neq in Hne. rewrite Hne.
    pose proof (remaining_skip start cursor skipTo k0 Hk0 Hlt0) as Hrest. fold R in Hrest. rewrite IH; rewrite ?Hrest.
    + by rewrite Hw.
    + apply Forall_forall. intros k [_ Hk]%elem_of_list_filter_bool. rewrite Forall_forall in Hall. by apply Hall.
    + done.
    + done.
    + lia.
  - destruct Hspec as (-> & Hw & Hles). destruct (String.eqb_spec next "") as [Hn|Hn].
    + rewrite <- Hw. assert (drop (S maxKeys) R = []) as ->; [|by rewrite rolled_nil, app_nil_r, take_ge by lia].
      apply drop_ge. rewrite Hn in Hnext. unfold kv_page in Hnext. cbn [snd] in Hnext.
      destruct (Nat.leb_spec (S maxKeys) (length R)) as [Hle|]; [|lia].
      destruct (last (take (S maxKeys) R)) as [k|] eqn:Hk; simpl in Hnext.
      * subst k. exfalso. apply last_Some in Hk as [l' Hk]. rewrite Forall_forall in Hall. apply (listed_nonempty ""); [|done].
        apply Hall. eapply elem_of_take_weaken. rewrite Hk. set_solver.
      * apply last_None in Hk. rewrite <- length_zero_iff_nil, length_take in Hk. lia.
    + destruct (kv_page_next (remaining start "") (S maxKeys) cursor ltac:(lia) (remaining_sorted _ _) next) as [Hrest Hle];
        [by rewrite <- remaining_after | done|]. rewrite <- !remaining_after in Hrest. fold R in Hrest. rewrite <- remaining_after in Hle. fold R in Hle.
      rewrite IH; rewrite ?Hrest.
      * by rewrite Hw.
      * rewrite Forall_forall in *. intros k Hk. apply Hall. by apply elem_of_drop_weaken in Hk.
      * intros k key h cp Hk. apply (Hfresh k key h cp). by apply elem_of_drop_weaken in Hk.
      * lia.
      * rewrite length_drop. lia.
  - done.
Qed.
End Walk.

(** ** The theorem *)

(** The object heads of a bucket that a listing shows: not delete markers, and
    with the prefix. The listing carries the fields of the listing entry. *)
Definition live_head (db : gmap string kvalue) (bucketID prefix key : string) (h : ObjectHead) : Prop :=
  exists e, db !! ObjectHeadKey bucketID key = Some (V_Head e) /\ ohe_DeleteMarker e = false /\ HasPrefix key prefix = true /\
            h = headFromListEntry (listEntryFromHead (headFromHeadEntry e)).

Lemma index_entry_some db bucketID key v :
  kv_ok db -> db !! ListObjectKey bucketID key = Some v ->
  exists e, db !! ObjectHeadKey bucketID key = Some (V_Head e) /\ ohe_DeleteMarker e = false /\
            v = V_List (listEntryFromHead (headFromHeadEntry e)) /\ ohe_Key e = key.
Proof.
  intros [Hwf Hix] Hv. pose proof (Hix bucketID key) as Hi. unfold index_at in Hi. rewrite Hv in Hi.
  destruct (db !! ObjectHeadKey bucketID key) as [x|] eqn:Hh; [|done]. simpl in Hi.
  destruct x; try discriminate Hi. rename entry into e. destruct (ohe_DeleteMarker e) eqn:Hd; simplify_eq.
  exists e. split_and!; [done..|]. apply (wf_lookup _ (ObjectHeadOf bucketID key)) in Hh; [|done..]. apply Hh.
Qed.

Lemma elem_of_items db req key h :
  kv_ok db -> (key, h) ∈ items db (listing_keys db req) <-> live_head db (lor_BucketID req) (lor_Prefix req) key h.
Proof.
  intros Hdb. unfold items. rewrite list_elem_of_omap. split.
  - intros (k & Hk & Hi). destruct (listing_key_listed db Hdb req k Hk) as (key' & e & -> & Hv & HK & Hp).
    rewrite (item_of_listed _ _ _ _ Hv HK) in Hi. simplify_eq.
    destruct (index_entry_some _ _ _ _ Hdb Hv) as (e' & Hh & Hd & Heq & HK'). simplify_eq. by exists e'.
  - intros (e & Hh & Hd & Hp & ->). pose proof (proj2 Hdb (lor_BucketID req) key) as Hi. unfold index_at in Hi. rewrite Hh in Hi.
    simpl in Hi. rewrite Hd in Hi. exists (ListObjectKey (lor_BucketID req) key). split.
    + apply elem_of_list_filter_bool. split; [by rewrite list_key_prefix|]. apply elem_of_sorted_keys. by rewrite Hi.
    + apply (wf_lookup _ (ObjectHeadOf (lor_BucketID req) key)) in Hh; [|apply Hdb|done].
      destruct Hh as (_ & HK & _). by rewrite (item_of_listed _ _ key _ Hi).
Qed.

Definition reference_entries (db : gmap string kvalue) (req : ListObjectsRequest) : list (entry ObjectHead) :=
  rolled db req ∅ (listing_keys db req).

Definition listing_page (maxKeys : nat) (entries : list (entry ObjectHead)) : ListObjectsResult :=
  mkListObjectsResult (entry_items (page maxKeys entries)) (entry_prefixes (page maxKeys entries))
    (truncated maxKeys entries) (match last_of maxKeys entries with Some e => name e | None => "" end).

Lemma listing_page_take n entries : listing_page n (take (S n) entries) = listing_page n entries.
Proof.
  unfold listing_page, page, truncated, last_of, truncated. rewrite take_take, length_take. rewrite Nat.min_l by lia.
  assert ((n <? Nat.min (S n) (length entries))%nat = (n <? length entries)%nat) as ->.
  { destruct (Nat.ltb_spec n (Nat.min (S n) (length entries))), (Nat.ltb_spec n (length entries)); done || lia. }
  destruct (n <? length entries)%nat; [|done]. destruct n as [|n]; [by destruct entries|].
  rewrite lookup_take_lt by lia. done.
Qed.

Lemma listObjects_first_page db req c i bucket :
  kv_ok db -> lor_BucketID req <> "" -> lor_ContinuationToken req = "" ->
  db !! BucketByIDKey (lor_BucketID req) = Some (V_Bucket bucket) ->
  (ListObjects req (mkKvRepository db c i)).1 = Ok (listing_page (go_limit (lor_MaxKeys req)) (reference_entries db req)).
Proof.
  intros Hdb Hb Ht Hbucket. unfold ListObjects. apply String.eqb_neq in Hb. rewrite Hb.
  set (n := go_limit (lor_MaxKeys req)). unfold listObjectsRange, st_bind at 1, run, require, getJSON.
  cbv [st_bind kgets decode]. cbn [kv_db]. rewrite Hbucket. cbn [as_Bucket]. cbv [st_ret]. rewrite Ht. cbn [negb String.eqb].
  assert (remaining db req (ListObjectKey (lor_BucketID req) (lor_Prefix req)) "" = listing_keys db req) as Hrem.
  { unfold remaining, listing_keys. apply filter_ext. intros k. unfold in_range. by rewrite prefix_range, orb_true_l, andb_true_r. }
  rewrite list_loop_spec with (db := db); rewrite ?Hrem.
  - cbv [st_lift]. cbn [fst app]. f_equal. apply listing_page_take.
  - done.
  - apply Forall_forall. intros k Hk. by apply listing_key_listed.
  - intros k key h cp _ _ _. apply not_elem_of_empty.
  - simpl. lia.
  - unfold scan_fuel. rewrite <- length_sorted_keys. eapply Nat.le_lt_trans; [apply length_filter_le|]. apply Nat.lt_succ_diag_r.
Qed.


(** *** A store to list *)

Definition kv_ex_put (key : string) : BeginPutObjectRequest :=
  mkBeginPutObjectRequest "bkt_0" key 4 "etag" "text/plain" zero_StorageClassSnapshot zero_ServerSideEncryption
    (zero_SegmentRef <| sr_SegmentID := "seg-1" |>) [] ∅ ∅ zero_ObjectLockRetention "".

Definition kv_ex_calls (keys : list string) : list kv_call :=
  K_CreateBucket (mkCreateBucketRequest "tenant" "photos" "eu-1" false) :: map (fun key => K_PutObjectVersion (kv_ex_put key)) keys.

Definition kv_ex_state (keys : list string) : KvRepository := @kv_run exEnv (kv_ex_calls keys) kv_empty.

Definition kv_ex_bucket : Bucket :=
  zero_Bucket <| bk_BucketID := "bkt_0" |> <| bk_TenantID := "tenant" |> <| bk_Name := "photos" |> <| bk_Region := "eu-1" |>
    <| bk_CreatedAt := 1 |>.

(** What a client sees of a page. *)
Definition shown (r : outcome Err ListObjectsResult) : option (list string * list string * bool * string) :=
  match r with
  | Ok r => Some (map oh_Key (lores_Contents r), lores_CommonPrefixes r, lores_IsTruncated r, lores_NextContinuationToken r)
  | Fail _ => None
  end.

