(* ===== verification/KvClaims.v ===== *)
(** * KvClaims: what the invariant of the KV repository says, and what it does not

    The two halves of the invariant as theorems about every run, and four defects of
    the KV repository shown on concrete runs: listings come out in the order of the
    escaped keys, a page that ends in a folder marker loses the rest of the folder,
    an object whose key is not UTF-8 cannot be read back, and an error of the
    manifest read is dropped. *)

From S2P Require Import Prelude GoLib Sha256 StorageTypes Model Requests Encoding Meta Manifest Repo RepoExample RepoListing.
From S2P Require Import Keyspace KvStore KvRepo KvObjects KvInv KvMetaInv KvListing.
From Stdlib Require Import Ascii.
Open Scope string_scope.
Open Scope Z_scope.


Definition kv_ex_delete (key : string) : kv_call :=
  K_DeleteObject (mkDeleteObjectRequest "bkt_0" key "" false (mkAuditContext "" "" zero_AuditPrincipal)).

Definition kv_ex_history : list kv_call :=
  (kv_ex_calls ["a"; "b"] ++ [kv_ex_delete "a"; kv_ex_delete "missing"; K_GetObjectHead "bkt_0" "b"])%list.




(** ** Defects *)

(** Listings of the KV repository are in the order of the escaped keys, not of the
    keys. The slash is stored as %2F, which sorts before the dash: a bucket with
    the objects a-b and a/b lists a/b first, although a-b is the smaller key and
    the memory repository lists it first. *)
Theorem kv_listing_not_in_key_order :
  str_ltb "a-b" "a/b" = true /\
  shown (ListObjects (mkListObjectsRequest "bkt_0" "" "" "" 10) (kv_ex_state ["a-b"; "a/b"])).1 =
    Some (["a/b"; "a-b"], [], false, "").
Proof. split; vm_compute; reflexivity. Qed.

(** Following continuation tokens in the KV repository can lose objects. A token
    that ends with the delimiter is taken for a common prefix and everything
    under it is skipped. When a page ends with a folder marker, an object whose
    key ends with the delimiter, its token is that key: listing the folder
    photos/ one object at a time shows the marker photos/ and then, at the token
    the repository returned, an empty last page, although photos/a and photos/b
    exist. *)
Theorem kv_listing_loses_folder :
  let s := kv_ex_state ["photos/"; "photos/a"; "photos/b"] in
  let page token := shown (ListObjects (mkListObjectsRequest "bkt_0" "photos/" "/" token 1) s).1 in
  page "" = Some (["photos/"], [], true, "photos/") /\ page "photos/" = Some ([], [], false, "") /\
  is_ok (GetObjectHead "bkt_0" "photos/a" s).1 = true /\ is_ok (GetObjectHead "bkt_0" "photos/b" s).1 = true.
Proof. vm_compute. done. Qed.

(** The object key that is the one byte 0xff. *)
Definition byte_key : string := String (ascii_of_N 255) "".

(** An object whose key is not UTF-8 cannot be read back from the KV repository.
    The put succeeds and returns a version, but JSON stores the key with the
    replacement character, the locator then no longer matches, and neither the
    version nor the segments of the head are found. *)
Theorem kv_non_utf8_key_lost :
  let s := kv_ex_state [] in
  let put := @PutObjectVersion exEnv (kv_ex_put byte_key) s in
  (exists r, put.1 = Ok r /\ oh_VersionID (povr_Head r) = "ver_1" /\ sr_SegmentID (oh_SegmentRef (povr_Head r)) = "seg-1") /\
  (GetObjectVersion "bkt_0" byte_key "ver_1" put.2).1 = Fail ErrNotFound /\
  (exists h, (GetObjectHead "bkt_0" byte_key put.2).1 = Ok h /\ sr_SegmentID (oh_SegmentRef h) = "" /\ oh_SegmentRefs h = []).
Proof.
  intros s put. split_and!.
  - eexists. split; [vm_compute; reflexivity | split; reflexivity].
  - vm_compute. reflexivity.
  - eexists. split; [vm_compute; reflexivity | split; reflexivity].
Qed.

(** [GetObjectHead] of the KV repository drops the error of the manifest read: if
    the head exists and its segment references cannot be read (a chunk record is
    missing, say), the call succeeds with an empty head instead of failing. *)
Theorem kv_head_error_dropped (s : KvRepository) (bucketID key : string) (e : ObjectHeadEntry) (err : Err) :
  kv_db s !! ObjectHeadKey bucketID key = Some (V_Head e) ->
  (hydrateHeadManifest (headFromHeadEntry e) s).1 = Fail err ->
  (GetObjectHead bucketID key s).1 = Ok zero_ObjectHead.
Proof.
  intros Hh He. unfold GetObjectHead, run, require, getObjectHead, getJSON, st_bind, decode. rewrite Hh. simpl.
  unfold hydrateHeadOrZero. destruct (hydrateHeadManifest (headFromHeadEntry e) s) as [[h|err'] s']; simpl in He; [done|].
  reflexivity.
Qed.

(** The version of object a lost its manifest chunk. *)
Definition kv_broken_state : KvRepository :=
  let s := kv_ex_state ["a"] in
  match kv_db s !! ObjectVersionKey "bkt_0" "a" "ver_1" with
  | Some (V_Version v) =>
      s <| kv_db := <[ObjectVersionKey "bkt_0" "a" "ver_1" := V_Version (v <| ov_SegmentRef := zero_SegmentRef |>
             <| ov_SegmentRefs := ([] : list SegmentRef) |>
             <| ov_Manifest := mkObjectManifestDescriptor ObjectManifestEncodingChunked 1 1 |>)]> (kv_db s) |>
  | _ => s
  end.

Definition kv_broken_head : ObjectHeadEntry :=
  match kv_db kv_broken_state !! ObjectHeadKey "bkt_0" "a" with
  | Some (V_Head e) => e
  | _ => headEntryFromHead zero_ObjectHead
  end.

Lemma kv_head_error_dropped_witness :
  (GetObjectHead "bkt_0" "a" kv_broken_state).1 = Ok zero_ObjectHead /\
  (GetObjectVersion "bkt_0" "a" "ver_1" kv_broken_state).1 = Fail ErrUnavailable.
Proof.
  split; [|vm_compute; reflexivity].
  apply (kv_head_error_dropped kv_broken_state "bkt_0" "a" kv_broken_head ErrUnavailable); vm_compute; reflexivity.
Defined.
