(* ===== verification/KvRepair.v ===== *)
(** * KvRepair: the repair of the listing indexes of the KV metadata repository

    [RepairListIndexes] of [src/internal/meta/kvrepo/repository.go] walks the object
    heads, the listing entries, the upload states and the upload index of a bucket,
    counts what is missing or stale and, when asked to, writes what the heads and the
    uploads call for. The four loops of the source differ in their range, their counter
    and what they do with a key; [repair_scan] is the loop. *)

From S2P Require Import Prelude GoLib GoText Sha256 StorageTypes Model Requests Encoding Meta Manifest Repo.
From S2P Require Import Keyspace KvStore KvRepo KvObjects KvMeta KvMultipart.
Open Scope string_scope.
Open Scope Z_scope.

#[export] Instance StorageClassSnapshot_eq_dec : EqDecision StorageClassSnapshot.
Proof. solve_decision. Defined.

(** ** The loops *)

Definition multipartUploadStatePrefix (bucketID : string) : string :=
  "/namros/v1/buckets/" +:+ EscapePathSegment bucketID +:+ "/multipart/".

Definition repairBatchSize (limit scanned : Z) : Z :=
  let remaining := limit - scanned in
  if remaining <=? 0 then 1 else if remaining <? 128 then remaining else 128.

(** [reflect.DeepEqual] compares the three fields of a storage class; times are equal
    when they are the same instant. *)
Definition objectListEntryMatchesHead (entry : ObjectListEntry) (head : ObjectHead) : bool :=
  (ole_BucketID entry =s oh_BucketID head) && (ole_Key entry =s oh_Key head) &&
  (ole_VersionID entry =s oh_VersionID head) && (ole_Revision entry =? oh_Revision head) &&
  (ole_SizeBytes entry =? oh_SizeBytes head) && (ole_ETag entry =s oh_ETag head) &&
  (ole_ContentType entry =s oh_ContentType head) &&
  bool_decide (ole_StorageClass entry = oh_StorageClass head) &&
  (ole_LastModified entry =? oh_LastModified head) && eqb (ole_DeleteMarker entry) (oh_DeleteMarker head).

(** What a pass carries along: the counts, the keys it has dealt with, and the number
    of keys seen, which the pass over the upload states bounds. *)
Record progress := mk_progress {
  pr_result : ListIndexRepairResult;
  pr_handled : gset string;
  pr_scannedKeys : Z
}.
#[export] Instance eta_progress : RecordEta progress := fun r => mk_progress (pr_result r) (pr_handled r) (pr_scannedKeys r).

Definition tally (field : ListIndexRepairResult -> ListIndexRepairResult) (p : progress) : progress :=
  p <| pr_result := field (pr_result p) |>.
Definition mark (key : string) (p : progress) : progress := p <| pr_handled := {[key]} ∪ pr_handled p |>.

Fixpoint over_keys (step : string -> progress -> KM progress) (keys : list string) (p : progress) : KM progress :=
  match keys with
  | [] => st_ret p
  | key :: keys' => let! p := step key p in over_keys step keys' p
  end.

(** The loop of the four passes, page by page from a cursor. *)
Fixpoint repair_pages (fuel : nat) (start end_ cursor : string) (limit : Z) (scanned : progress -> Z)
    (step : string -> progress -> KM progress) (p : progress) : KM progress :=
  match fuel with
  | O => st_fail ErrOther
  | S fuel' =>
      if negb (scanned p <? limit) then st_ret p
      else
        let! page := kgets (fun s => list_range_ref (kv_db s) start end_ cursor (repairBatchSize limit (scanned p))) in
        let '(keys, next) := page in
        if Nat.eqb (length keys) 0 then st_ret p
        else
          let! p := over_keys step keys p in
          if next =s "" then st_ret p else repair_pages fuel' start end_ next limit scanned step p
  end.

Definition repair_scan (start : string) (limit : Z) (scanned : progress -> Z) (step : string -> progress -> KM progress)
    (p : progress) : KM progress :=
  let! db := kgets kv_db in
  repair_pages (scan_fuel db) start (prefixRangeEndString start) "" limit scanned step p.

(** A write or a deletion of the repair, made and counted only when it is applied. *)
Definition when_applied (apply : bool) (write : KM unit) (field : ListIndexRepairResult -> ListIndexRepairResult) (p : progress) : KM progress :=
  if apply then write ;;! st_ret (tally field p) else st_ret p.

(** ** The object listing *)

Definition inc_ScannedObjectHeads (r : ListIndexRepairResult) := r <| lirr_ScannedObjectHeads := lirr_ScannedObjectHeads r + 1 |>.
Definition inc_ScannedObjectListEntries (r : ListIndexRepairResult) := r <| lirr_ScannedObjectListEntries := lirr_ScannedObjectListEntries r + 1 |>.
Definition inc_MissingObjectListEntries (r : ListIndexRepairResult) := r <| lirr_MissingObjectListEntries := lirr_MissingObjectListEntries r + 1 |>.
Definition inc_StaleObjectListEntries (r : ListIndexRepairResult) := r <| lirr_StaleObjectListEntries := lirr_StaleObjectListEntries r + 1 |>.
Definition inc_RepairedObjectListEntries (r : ListIndexRepairResult) := r <| lirr_RepairedObjectListEntries := lirr_RepairedObjectListEntries r + 1 |>.
Definition inc_RemovedObjectListEntries (r : ListIndexRepairResult) := r <| lirr_RemovedObjectListEntries := lirr_RemovedObjectListEntries r + 1 |>.
Definition inc_ScannedMultipartUploads (r : ListIndexRepairResult) := r <| lirr_ScannedMultipartUploads := lirr_ScannedMultipartUploads r + 1 |>.
Definition inc_ScannedMultipartUploadIndexes (r : ListIndexRepairResult) := r <| lirr_ScannedMultipartUploadIndexes := lirr_ScannedMultipartUploadIndexes r + 1 |>.
Definition inc_MissingMultipartUploadIndexes (r : ListIndexRepairResult) := r <| lirr_MissingMultipartUploadIndexes := lirr_MissingMultipartUploadIndexes r + 1 |>.
Definition inc_StaleMultipartUploadIndexes (r : ListIndexRepairResult) := r <| lirr_StaleMultipartUploadIndexes := lirr_StaleMultipartUploadIndexes r + 1 |>.
Definition inc_RepairedMultipartUploadIndexes (r : ListIndexRepairResult) := r <| lirr_RepairedMultipartUploadIndexes := lirr_RepairedMultipartUploadIndexes r + 1 |>.
Definition inc_RemovedMultipartUploadIndexes (r : ListIndexRepairResult) := r <| lirr_RemovedMultipartUploadIndexes := lirr_RemovedMultipartUploadIndexes r + 1 |>.

Definition repair_head (bucketID : string) (apply : bool) (key : string) (p : progress) : KM progress :=
  let! found := getJSON as_Head key in
  match found with
  | None => st_ret p
  | Some headEntry =>
      let head := headFromHeadEntry headEntry in
      if negb (oh_BucketID head =s bucketID) || (oh_Key head =s "") then st_ret p
      else
        let p := tally inc_ScannedObjectHeads p in
        let listKey := ListObjectKey bucketID (oh_Key head) in
        let! listEntry := getJSON as_List listKey in
        if oh_DeleteMarker head then
          if is_some listEntry then
            when_applied apply (tx_Delete listKey) inc_RemovedObjectListEntries (mark listKey (tally inc_StaleObjectListEntries p))
          else st_ret p
        else
          let rewrite := when_applied apply (setJSON listKey (V_List (listEntryFromHead head))) inc_RepairedObjectListEntries in
          match listEntry with
          | None => rewrite (mark listKey (tally inc_MissingObjectListEntries p))
          | Some listEntry =>
              if objectListEntryMatchesHead listEntry head then st_ret p
              else rewrite (mark listKey (tally inc_StaleObjectListEntries p))
          end
  end.

Definition repairObjectListIndexFromHeads (bucketID : string) (limit : Z) (apply : bool) : progress -> KM progress :=
  repair_scan (objectHeadPrefix bucketID) limit (fun p => lirr_ScannedObjectHeads (pr_result p)) (repair_head bucketID apply).

Definition repair_list_entry (bucketID : string) (apply : bool) (key : string) (p : progress) : KM progress :=
  let! found := getJSON as_List key in
  match found with
  | None => st_ret p
  | Some listEntry =>
      let p := tally inc_ScannedObjectListEntries p in
      if bool_decide (key ∈ pr_handled p) then st_ret p
      else
        let! head := getObjectHead bucketID (ole_Key listEntry) in
        let stale := mark key (tally inc_StaleObjectListEntries p) in
        match head with
        | None => when_applied apply (tx_Delete key) inc_RemovedObjectListEntries stale
        | Some head =>
            if oh_DeleteMarker head then when_applied apply (tx_Delete key) inc_RemovedObjectListEntries stale
            else if objectListEntryMatchesHead listEntry head then st_ret p
            else when_applied apply (setJSON key (V_List (listEntryFromHead head))) inc_RepairedObjectListEntries stale
        end
  end.

Definition repairStaleObjectListIndexes (bucketID : string) (limit : Z) (apply : bool) : progress -> KM progress :=
  repair_scan (listPrefix bucketID) limit (fun p => lirr_ScannedObjectListEntries (pr_result p)) (repair_list_entry bucketID apply).

(** ** The upload index *)

Definition repair_upload_state (bucketID : string) (apply : bool) (key : string) (p : progress) : KM progress :=
  let p := p <| pr_scannedKeys := pr_scannedKeys p + 1 |> in
  if negb (HasSuffix key "/state") then st_ret p
  else
    let! found := getJSON as_Upload key in
    match found with
    | None => st_ret p
    | Some upload =>
        if negb (mu_BucketID upload =s bucketID) || (mu_UploadID upload =s "") then st_ret p
        else
          let p := tally inc_ScannedMultipartUploads p in
          let indexKey := MultipartUploadByKeyKey bucketID (mu_Key upload) (mu_UploadID upload) in
          let! record := getJSON as_UploadIndex indexKey in
          if negb (mu_State upload =s MultipartUploadActive) then
            if is_some record then
              when_applied apply (tx_Delete indexKey) inc_RemovedMultipartUploadIndexes (mark indexKey (tally inc_StaleMultipartUploadIndexes p))
            else st_ret p
          else
            let rewrite := when_applied apply (setJSON indexKey (V_UploadIndex (mu_UploadID upload))) inc_RepairedMultipartUploadIndexes in
            match record with
            | None => rewrite (mark indexKey (tally inc_MissingMultipartUploadIndexes p))
            | Some uploadID =>
                if uploadID =s mu_UploadID upload then st_ret p
                else rewrite (mark indexKey (tally inc_StaleMultipartUploadIndexes p))
            end
    end.

Definition repairMultipartUploadIndexesFromState (bucketID : string) (limit : Z) (apply : bool) (p : progress) : KM progress :=
  repair_scan (multipartUploadStatePrefix bucketID) limit pr_scannedKeys (repair_upload_state bucketID apply) (p <| pr_scannedKeys := 0 |>).

Definition repair_upload_index (bucketID : string) (apply : bool) (key : string) (p : progress) : KM progress :=
  let! found := getJSON as_UploadIndex key in
  match found with
  | None => st_ret p
  | Some uploadID =>
      let p := tally inc_ScannedMultipartUploadIndexes p in
      if bool_decide (key ∈ pr_handled p) then st_ret p
      else
        let! stale :=
          (if uploadID =s "" then st_ret true
           else
             let! upload := getJSON as_Upload (MultipartUploadKey bucketID uploadID) in
             st_ret (match upload with
                     | None => true
                     | Some upload =>
                         negb (mu_BucketID upload =s bucketID) || negb (mu_State upload =s MultipartUploadActive) ||
                         negb (MultipartUploadByKeyKey bucketID (mu_Key upload) (mu_UploadID upload) =s key)
                     end)) in
        if (stale : bool) then
          when_applied apply (tx_Delete key) inc_RemovedMultipartUploadIndexes (mark key (tally inc_StaleMultipartUploadIndexes p))
        else st_ret p
  end.

Definition repairStaleMultipartUploadIndexes (bucketID : string) (limit : Z) (apply : bool) : progress -> KM progress :=
  repair_scan (multipartUploadListPrefix bucketID "") limit (fun p => lirr_ScannedMultipartUploadIndexes (pr_result p))
    (repair_upload_index bucketID apply).

(** ** The method *)

(** One attempt of the transaction. The counts start from what earlier attempts have
    counted, as the closure adds to a variable of the method; the two sets of handled
    keys are fresh. *)
Definition repair_attempt (b : string) (limit : Z) (apply : bool) (result : ListIndexRepairResult) : KM ListIndexRepairResult :=
  require ErrNotFound (getJSON as_Bucket (BucketByIDKey b)) ;;!
  let! p := repairObjectListIndexFromHeads b limit apply (mk_progress result ∅ 0) in
  let! p := repairStaleObjectListIndexes b limit apply p in
  let! p := repairMultipartUploadIndexesFromState b limit apply (p <| pr_handled := ∅ |>) in
  let! p := repairStaleMultipartUploadIndexes b limit apply p in
  st_ret (pr_result p).

Definition repair_limit (req : RepairListIndexesRequest) : Z := if rli_Limit req <=? 0 then 1000 else rli_Limit req.

(** The counts made before an error are returned with it in the source; callers drop
    them, and only the error is kept here. *)
Definition RepairListIndexes (req : RepairListIndexesRequest) : KM ListIndexRepairResult :=
  fail! ErrInvalidArgument when rli_BucketID req =s "" ;
  run (repair_attempt (rli_BucketID req) (repair_limit req) (rli_Apply req) zero_ListIndexRepairResult).
