(* ===== verification/KvRepairFacts.v ===== *)
(** * KvRepairFacts: the repair restores the indexes

    A repair with a limit that covers the bucket leaves both indexes exact, whatever they
    held before, and touches nothing else; where the indexes are exact it reports and
    changes nothing. The loop is treated once, for an invariant on the keys still to come;
    each pass has its invariant. At the end, two stores on which the repair falls short. *)

From S2P Require Import Prelude GoLib GoText Sha256 StorageTypes Model Requests Encoding Meta Manifest Repo RepoExample.
From S2P Require Import Keyspace KvStore KvRepo KvObjects KvMeta KvMultipart KvInv KvMetaInv KvListing KvRepair.
From Stdlib Require Import Sorted.
Open Scope string_scope.
Open Scope Z_scope.

(** ** The loop visits every key once *)

Definition range_keys (db : gmap string kvalue) (start : string) : list string :=
  List.filter (fun k => HasPrefix k start) (sorted_keys db).

Lemma elem_of_range_keys db start k : k ∈ range_keys db start <-> HasPrefix k start = true /\ is_Some (db !! k).
Proof. unfold range_keys. by rewrite elem_of_list_filter_bool, elem_of_sorted_keys. Qed.

Lemma range_keys_sorted db start : StronglySorted str_lt (range_keys db start).
Proof. apply filter_sorted, sorted_keys_sorted. Qed.

Lemma sorted_app (a b : list string) x y : StronglySorted str_lt (a ++ b)%list -> x ∈ a -> y ∈ b -> str_lt x y.
Proof.
  induction a as [|z a IH]; intros Hs Hx Hy; [by apply not_elem_of_nil in Hx|]. simpl in Hs. apply StronglySorted_inv in Hs as [Hs Hz].
  apply list_elem_of_In in Hx as [->|Hx%list_elem_of_In]; [|by apply IH]. rewrite Forall_forall in Hz. apply Hz. apply elem_of_app. by right.
Qed.

Lemma sorted_app_r (a b : list string) : StronglySorted str_lt (a ++ b)%list -> StronglySorted str_lt b.
Proof. induction a as [|z a IH]; intros Hs; [done|]. simpl in Hs. by apply StronglySorted_inv in Hs as [Hs _]; auto. Qed.

Lemma sorted_app_l (a b : list string) : StronglySorted str_lt (a ++ b)%list -> StronglySorted str_lt a.
Proof.
  induction a as [|z a IH]; intros Hs; [constructor|]. simpl in Hs. apply StronglySorted_inv in Hs as [Hs Hz].
  apply Forall_app in Hz as [Hz _]. constructor; auto.
Qed.

Lemma last_elem (l : list string) x : last l = Some x -> x ∈ l.
Proof. intros [a ->]%last_Some. apply elem_of_app. right. by apply list_elem_of_singleton. Qed.

Lemma repairBatchSize_pos limit scanned : (0 < kv_limit (repairBatchSize limit scanned))%nat.
Proof. apply kv_limit_pos. Qed.

Section Loop.
Context (start : string) (limit : Z) (scanned : progress -> Z) (step : string -> progress -> KM progress).
(** The keys of the range when the pass starts, and what holds while the keys of a
    list are still to come. *)
Context (K : list string) (Inv : list string -> progress -> KvRepository -> Prop).
Hypothesis start_ne : start <> "".
Hypothesis K_sorted : StronglySorted str_lt K.
Hypothesis K_prefix : Forall (fun k => HasPrefix k start = true) K.
Hypothesis Inv_range : forall l p s, Inv l p s ->
  (forall k, k ∈ range_keys (kv_db s) start -> k ∈ K) /\ (forall k, k ∈ l -> is_Some (kv_db s !! k)).
Hypothesis Inv_step : forall k rest p s, Inv (k :: rest) p s ->
  exists p' s', step k p s = (Ok p', s') /\ Inv rest p' s' /\ scanned p' <= scanned p + 1.

Lemma over_keys_inv n : forall l p s, Inv l p s ->
  exists p' s', over_keys step (take n l) p s = (Ok p', s') /\ Inv (drop n l) p' s' /\
                scanned p' <= scanned p + Z.of_nat (length (take n l)).
Proof.
  induction n as [|n IH]; intros l p s Hl; [by exists p, s; rewrite drop_0; split_and!; [done..|simpl; lia]|].
  destruct l as [|k l]; [exists p, s; split_and!; [done..|simpl; lia]|].
  destruct (Inv_step k l p s Hl) as (p1 & s1 & Hk & Hl1 & Hc1).
  destruct (IH l p1 s1 Hl1) as (p2 & s2 & Hr & Hl2 & Hc2).
  exists p2, s2. cbn [take drop over_keys length]. unfold st_bind. rewrite Hk. split_and!; [done | done | lia].
Qed.

(** The keys after the cursor are those still to come. *)
Lemma keys_left seen l cursor p s :
  K = (seen ++ l)%list -> Inv l p s -> ((seen = [] /\ cursor = "") \/ (last seen = Some cursor /\ cursor <> "")) ->
  List.filter (after cursor) (range_keys (kv_db s) start) = l.
Proof.
  intros HK Hl Hc. destruct (Inv_range l p s Hl) as [Hsub Hpres].
  apply str_lt_sorted_ext; [apply filter_sorted, range_keys_sorted | rewrite HK in K_sorted; by eapply sorted_app_r |].
  intros k. rewrite elem_of_list_filter_bool. unfold after. rewrite HK in K_sorted. split.
  - intros [Ha Hk]. apply Hsub in Hk. rewrite HK in Hk. apply elem_of_app in Hk as [Hk|]; [|done].
    destruct Hc as [[-> _]|[Hlast Hne]]; [by apply not_elem_of_nil in Hk|]. apply String.eqb_neq in Hne. rewrite Hne in Ha. simpl in Ha.
    apply last_Some in Hlast as [a ->]. apply sorted_app_l in K_sorted. apply elem_of_app in Hk as [Hk|Hk%list_elem_of_singleton]; [|subst k].
    + assert (str_lt k cursor) as Hlt by (apply (sorted_app a [cursor]); [done | done | by apply list_elem_of_singleton]).
      unfold str_lt in Hlt. by rewrite (str_ltb_asym _ _ Hlt) in Ha.
    + by rewrite str_ltb_irrefl in Ha.
  - intros Hk. split.
    + destruct Hc as [[_ ->]|[Hlast%last_elem _]]; [done|]. apply orb_true_iff. right. by eapply (sorted_app seen l).
    + apply elem_of_range_keys. split; [|by apply Hpres]. rewrite Forall_forall in K_prefix. apply K_prefix. rewrite HK. apply elem_of_app. by right.
Qed.

Lemma repair_pages_inv fuel : forall seen l cursor p s,
  K = (seen ++ l)%list -> Inv l p s -> ((seen = [] /\ cursor = "") \/ (last seen = Some cursor /\ cursor <> "")) ->
  scanned p + Z.of_nat (length l) <= limit -> (length l < fuel)%nat ->
  exists p' s', repair_pages fuel start (prefixRangeEndString start) cursor limit scanned step p s = (Ok p', s') /\ Inv [] p' s'.
Proof.
  induction fuel as [|fuel IH]; intros seen l cursor p s HK Hl Hc Hlim Hfuel; [lia|]. cbn [repair_pages].
  destruct (Z.ltb_spec (scanned p) limit) as [Hlt|Hge]; cbn [negb].
  2:{ exists p, s. split; [done|]. destruct l; [done | simpl in Hlim; lia]. }
  unfold st_bind at 1, kgets. cbn [fst snd]. rewrite list_ref_range, list_ref_page. fold (range_keys (kv_db s) start).
  rewrite (keys_left seen l cursor p s HK Hl Hc). set (n := kv_limit (repairBatchSize limit (scanned p))).
  assert (0 < n)%nat as Hn by apply repairBatchSize_pos. unfold kv_page.
  destruct (Nat.eqb_spec (length (take n l)) 0) as [H0|H0].
  { exists p, s. split; [done|]. rewrite length_take in H0. destruct l; [done | simpl in H0; lia]. }
  destruct (over_keys_inv n l p s Hl) as (p1 & s1 & Hr & Hl1 & Hc1). unfold st_bind. rewrite Hr.
  destruct (Nat.leb_spec n (length l)) as [Hle|Hgt].
  2:{ exists p1, s1. split; [done|]. by rewrite drop_ge in Hl1 by lia. }
  destruct (last (take n l)) as [next|] eqn:Hlast; [|by apply last_None in Hlast; rewrite Hlast in H0].
  cbn [default]. assert (next <> "") as Hne.
  { intros ->. rewrite Forall_forall in K_prefix. assert (HasPrefix "" start = true) as Hp; [|by destruct start].
    apply K_prefix. rewrite HK. apply elem_of_app. right. by apply (elem_of_take_weaken _ n), last_elem. }
  apply String.eqb_neq in Hne as Hne'. change (id next) with next. rewrite Hne'.
  apply (IH (seen ++ take n l)%list (drop n l)); [|done| |rewrite length_drop; rewrite length_take in Hc1; lia | rewrite length_drop; lia].
  - rewrite <- app_assoc, take_drop. done.
  - right. split; [|done]. apply last_Some in Hlast as [a Ha]. rewrite Ha, app_assoc. apply last_snoc.
Qed.

Lemma repair_scan_inv p s :
  K = range_keys (kv_db s) start -> Inv K p s -> scanned p + Z.of_nat (length K) <= limit ->
  exists p' s', repair_scan start limit scanned step p s = (Ok p', s') /\ Inv [] p' s'.
Proof.
  intros HK Hl Hlim. unfold repair_scan, st_bind at 1, kgets. apply (repair_pages_inv _ [] K); [done | done | by left | done |].
  rewrite HK. unfold scan_fuel, range_keys. rewrite <- length_sorted_keys. apply Nat.lt_succ_r, length_filter_le.
Qed.
End Loop.

(** ** Stores to repair *)

(** Every record decodes and lies under its own key, but for the records of the upload
    index, which may name any upload. *)
Definition roughly_typed (e : entity) (v : kvalue) : Prop :=
  match e with
  | MultipartUploadByKeyOf _ _ _ => is_Some (as_UploadIndex v)
  | _ => typed e v
  end.
Definition repairable (db : kvdb) : Prop :=
  forall k v, db !! k = Some v -> exists e, k = key_of e /\ entity_ok e = true /\ roughly_typed e v.

(** The record of the upload index that an upload calls for. *)
Definition upload_entry (state : option kvalue) (key uploadID : string) : option kvalue :=
  match state with
  | Some (V_Upload x) => if (mu_Key x =s key) && (mu_State x =s MultipartUploadActive) then Some (V_UploadIndex uploadID) else None
  | _ => None
  end.
Definition upload_index_at (db : kvdb) (b key uploadID : string) : Prop :=
  db !! MultipartUploadByKeyKey b key uploadID = upload_entry (db !! MultipartUploadKey b uploadID) key uploadID.

Definition exact_indexes (db : kvdb) (b : string) : Prop :=
  (forall k, index_at db b k) /\ (forall k u, upload_index_at db b k u).

Lemma repairable_lookup db e v : repairable db -> entity_ok e = true -> db !! key_of e = Some v -> roughly_typed e v.
Proof. intros Hwf He (e' & Heq & He' & Ht)%Hwf. apply key_of_inj in Heq; [|done..]. by subst. Qed.

(** A record put under a key, or taken from under it. *)
Definition put (key : string) (o : option kvalue) (db : kvdb) : kvdb := partial_alter (fun _ => o) key db.

Lemma put_same key db : put key (db !! key) db = db.
Proof. apply partial_alter_self. Qed.

Lemma repairable_put db e o :
  repairable db -> entity_ok e = true -> (forall v, o = Some v -> roughly_typed e v) -> repairable (put (key_of e) o db).
Proof.
  intros Hwf He Ho k v. unfold put. destruct (decide (k = key_of e)) as [->|Hne].
  - rewrite lookup_partial_alter_eq. intros Hv. exists e. auto.
  - rewrite lookup_partial_alter_ne by done. apply Hwf.
Qed.

Lemma db_wf_repairable db : db_wf db -> repairable db.
Proof.
  intros Hwf k v (e & -> & He & Ht)%Hwf. exists e. split_and!; [done..|].
  destruct e; try exact Ht. destruct v; try contradiction. by eexists.
Qed.

(** ** The four ranges *)

Lemma under_listed b e : under (listPrefix b) e -> exists k, e = ListObjectOf b k.
Proof. unfold listPrefix. prefix_segments [""; "namros"; "v1"; "buckets"; escape b; "list"]. eauto. Qed.

Lemma under_upload_index b e : under (multipartUploadListPrefix b "") e -> exists k u, e = MultipartUploadByKeyOf b k u.
Proof. unfold multipartUploadListPrefix. prefix_segments [""; "namros"; "v1"; "buckets"; escape b; "multipart-by-key"]. eauto. Qed.

Lemma HasSuffix_inv s suffix : HasSuffix s suffix = true -> exists t, s = t +:+ suffix.
Proof.
  unfold HasSuffix. intros [Hn%Nat.leb_le Hd%String.eqb_eq]%andb_true_iff. exists (take_str (String.length s - String.length suffix) s).
  rewrite <- Hd at 2. by rewrite str_take_drop.
Qed.

Lemma split_app t w : split_slash (t +:+ String slash w) = (split_slash t ++ split_slash w)%list.
Proof.
  induction t as [|c t IH]; [done|]. rewrite str_app_cons. cbn [split_slash]. rewrite IH.
  destruct (Ascii.eqb c slash); [done|]. pose proof (split_nonempty t). by destruct (split_slash t).
Qed.

Lemma state_suffix e : entity_ok e = true -> HasSuffix (key_of e) "/state" = true -> last (segments e) = Some "state".
Proof.
  intros He [t Ht]%HasSuffix_inv. change "/state" with (String slash "state") in Ht. apply (f_equal split_slash) in Ht.
  rewrite split_key, split_app in Ht by done. apply (f_equal last) in Ht. change (split_slash "state") with ["state"] in Ht.
  rewrite last_snoc in Ht. by destruct (segments e).
Qed.

Lemma under_states b e :
  under (multipartUploadStatePrefix b) e -> HasSuffix (key_of e) "/state" = true -> exists u, e = MultipartUploadOf b u.
Proof.
  unfold multipartUploadStatePrefix. prefix_segments [""; "namros"; "v1"; "buckets"; escape b; "multipart"]; [eauto|..].
  all: intros Hs%state_suffix; [|apply Hu]. all: simpl in Hs; simplify_eq.
  destruct Hu as [Hn _]. simpl in Hn. apply Z.leb_le in Hn. pose proof (parse_leftPadInt partNumber 5 Hn) as Hp. by rewrite Hs in Hp.
Qed.

(** ** One key of a pass *)

Lemma getJSON_at {T} (as_T : kvalue -> option T) key s o :
  match kv_db s !! key with Some v => is_Some (as_T v) | None => True end -> kv_db s !! key ≫= as_T = o ->
  getJSON as_T key s = (Ok o, s).
Proof. unfold getJSON, decode. intros Hd <-. destruct (kv_db s !! key) as [v|]; [|done]. destruct Hd as [x Hx]. simpl. by rewrite Hx. Qed.

Lemma matches_iff e h : objectListEntryMatchesHead e h = true <-> e = listEntryFromHead h.
Proof.
  unfold objectListEntryMatchesHead. rewrite !andb_true_iff, !String.eqb_eq, !Z.eqb_eq, bool_decide_eq_true, eqb_true_iff.
  destruct e, h. unfold listEntryFromHead. simpl. split; [intros H; decompose [and] H; by subst | intros [=]; subst; repeat (split || done)].
Qed.

(** What a step of a pass does to its counts: one more key scanned, and at most the
    given key handled. *)
Definition scans (p : progress) : Z * Z * Z :=
  (lirr_ScannedObjectHeads (pr_result p), lirr_ScannedObjectListEntries (pr_result p), lirr_ScannedMultipartUploadIndexes (pr_result p)).
Definition moves (d : Z * Z * Z) (key : string) (p p' : progress) : Prop :=
  scans p' = (((scans p).1.1 + d.1.1, (scans p).1.2 + d.1.2), (scans p).2 + d.2) /\
  (forall k, k ∈ pr_handled p' -> k = key \/ k ∈ pr_handled p).

(** The counts of a run that found nothing. *)
Definition findings (r : ListIndexRepairResult) : list Z :=
  [lirr_MissingObjectListEntries r; lirr_StaleObjectListEntries r; lirr_RepairedObjectListEntries r; lirr_RemovedObjectListEntries r;
   lirr_MissingMultipartUploadIndexes r; lirr_StaleMultipartUploadIndexes r; lirr_RepairedMultipartUploadIndexes r;
   lirr_RemovedMultipartUploadIndexes r].

Section Steps.
Context (b : string) (s : KvRepository).
Hypothesis Hdb : repairable (kv_db s).

Lemma head_record k v : kv_db s !! ObjectHeadKey b k = Some v ->
  exists e, v = V_Head e /\ ohe_BucketID e = b /\ ohe_Key e = k /\ utf8 k.
Proof. intros Ht%(repairable_lookup _ (ObjectHeadOf b k)); [|done..]. destruct v; try contradiction. eauto. Qed.

Lemma list_record k v : kv_db s !! ListObjectKey b k = Some v -> exists e, v = V_List e /\ ole_BucketID e = b /\ ole_Key e = k.
Proof. intros Ht%(repairable_lookup _ (ListObjectOf b k)); [|done..]. destruct v; try contradiction. eauto. Qed.

Lemma upload_record u v : kv_db s !! MultipartUploadKey b u = Some v ->
  exists x, v = V_Upload x /\ mu_BucketID x = b /\ mu_UploadID x = u.
Proof. intros Ht%(repairable_lookup _ (MultipartUploadOf b u)); [|done..]. destruct v; try contradiction. destruct Ht as (? & ? & ?). eauto. Qed.

Lemma index_record k u v : kv_db s !! MultipartUploadByKeyKey b k u = Some v -> exists u', v = V_UploadIndex u'.
Proof. intros Ht%(repairable_lookup _ (MultipartUploadByKeyOf b k u)); [|done..]. destruct v; try (by destruct Ht). eauto. Qed.

Lemma get_list k : exists o, getJSON as_List (ListObjectKey b k) s = (Ok o, s) /\ kv_db s !! ListObjectKey b k = V_List <$> o.
Proof.
  destruct (kv_db s !! ListObjectKey b k) as [v|] eqn:Hv.
  - destruct (list_record k v Hv) as (e & -> & _). exists (Some e). split; [|done]. apply getJSON_at; rewrite Hv; [by eexists | done].
  - exists None. split; [|done]. apply getJSON_at; by rewrite Hv.
Qed.

Lemma get_head k : exists o, getJSON as_Head (ObjectHeadKey b k) s = (Ok o, s) /\ kv_db s !! ObjectHeadKey b k = V_Head <$> o /\
  (forall e, o = Some e -> ohe_BucketID e = b /\ ohe_Key e = k /\ utf8 k).
Proof.
  destruct (kv_db s !! ObjectHeadKey b k) as [v|] eqn:Hv.
  - destruct (head_record k v Hv) as (e & -> & He). exists (Some e). split_and!; [|done|by intros ? [= <-]].
    apply getJSON_at; rewrite Hv; [by eexists | done].
  - exists None. split_and!; [|done..]. apply getJSON_at; by rewrite Hv.
Qed.

Lemma get_upload u : exists o, getJSON as_Upload (MultipartUploadKey b u) s = (Ok o, s) /\ kv_db s !! MultipartUploadKey b u = V_Upload <$> o /\
  (forall x, o = Some x -> mu_BucketID x = b /\ mu_UploadID x = u).
Proof.
  destruct (kv_db s !! MultipartUploadKey b u) as [v|] eqn:Hv.
  - destruct (upload_record u v Hv) as (e & -> & He). exists (Some e). split_and!; [|done|by intros ? [= <-]].
    apply getJSON_at; rewrite Hv; [by eexists | done].
  - exists None. split_and!; [|done..]. apply getJSON_at; by rewrite Hv.
Qed.

Lemma get_index k u : exists o, getJSON as_UploadIndex (MultipartUploadByKeyKey b k u) s = (Ok o, s) /\
  kv_db s !! MultipartUploadByKeyKey b k u = V_UploadIndex <$> o.
Proof.
  destruct (kv_db s !! MultipartUploadByKeyKey b k u) as [v|] eqn:Hv.
  - destruct (index_record k u v Hv) as (u' & ->). exists (Some u'). split; [|done]. apply getJSON_at; rewrite Hv; [by eexists | done].
  - exists None. split; [|done]. apply getJSON_at; by rewrite Hv.
Qed.

Lemma store_put key o : (if o is Some v then tx_Set key v else tx_Delete key) s = (Ok tt, s <| kv_db := put key o (kv_db s) |>).
Proof. by destruct o. Qed.

Lemma store_same key o : kv_db s !! key = o -> s <| kv_db := put key o (kv_db s) |> = s.
Proof. intros <-. rewrite put_same. by destruct s. Qed.

Lemma moves_count d key p f :
  (forall r, (lirr_ScannedObjectHeads (f r), lirr_ScannedObjectListEntries (f r), lirr_ScannedMultipartUploadIndexes (f r)) =
             (lirr_ScannedObjectHeads r + d.1.1, lirr_ScannedObjectListEntries r + d.1.2, lirr_ScannedMultipartUploadIndexes r + d.2)) ->
  moves d key p (tally f p).
Proof. intros Hf. split; [apply Hf | by right]. Qed.

(** A finding is counted, its key handled and the write counted. *)
Lemma moves_found d key p scan found fixed :
  moves d key p (tally scan p) -> (forall q, scans (tally found q) = scans q) -> (forall q, scans (tally fixed q) = scans q) ->
  moves d key p (tally fixed (mark key (tally found (tally scan p)))).
Proof.
  intros [Hs Hh] Hfound Hfixed. split.
  - rewrite Hfixed. change (scans (mark key (tally found (tally scan p)))) with (scans (tally found (tally scan p))). by rewrite Hfound.
  - intros k Hk. change (k ∈ ({[key]} ∪ pr_handled p : gset string)) in Hk. apply elem_of_union in Hk as [Hk|Hk]; [|by right].
    left. by apply elem_of_singleton in Hk.
Qed.

Ltac moves_counted := apply moves_count; intros ?; cbn [fst snd]; rewrite ?Z.add_0_r; reflexivity.
Ltac found_and_fixed := eexists; split; [reflexivity | apply moves_found; [moves_counted | done..]].
Ltac only_counted Hl := rewrite store_same by (by rewrite Hl); eexists; split; [reflexivity | moves_counted].

(** A head whose listing entry is right is only counted. *)
Lemma repair_head_exact apply k p :
  is_Some (kv_db s !! ObjectHeadKey b k) -> k <> "" -> index_at (kv_db s) b k ->
  repair_head b apply (ObjectHeadKey b k) p s = (Ok (tally inc_ScannedObjectHeads p), s).
Proof.
  intros [v Hv] Hk Hix. unfold repair_head. destruct (get_head k) as (o & Hget & Ho & Hrec). unfold st_bind at 1. rewrite Hget.
  destruct o as [e|]; [|by rewrite Ho in Hv]. destruct (Hrec e eq_refl) as (Hb & Hkey & _). unfold index_at in Hix. rewrite Ho in Hix.
  cbn [headFromHeadEntry oh_BucketID oh_Key oh_DeleteMarker]. rewrite Hb, Hkey, String.eqb_refl. apply String.eqb_neq in Hk. rewrite Hk. cbn [negb orb].
  destruct (get_list k) as (l & Hgl & Hl). unfold st_bind. rewrite Hgl. rewrite Hl in Hix. cbn [fmap option_fmap option_map index_entry] in Hix.
  destruct (ohe_DeleteMarker e); [by destruct l|]. destruct l as [l|]; [|done]. cbn in Hix. injection Hix as ->.
  by rewrite (proj2 (matches_iff _ _) eq_refl).
Qed.

(** With the repair applied, the listing entry becomes what the head calls for. *)
Lemma repair_head_fix k p :
  is_Some (kv_db s !! ObjectHeadKey b k) -> k <> "" ->
  exists p', repair_head b true (ObjectHeadKey b k) p s =
               (Ok p', s <| kv_db := put (ListObjectKey b k) (index_entry (kv_db s !! ObjectHeadKey b k)) (kv_db s) |>) /\
             moves (1, 0, 0) (ListObjectKey b k) p p'.
Proof.
  intros Hv Hk. unfold repair_head. destruct (get_head k) as (o & Hget & Ho & Hrec). unfold st_bind at 1. rewrite Hget.
  destruct o as [e|]; [|by rewrite Ho in Hv; destruct Hv]. destruct (Hrec e eq_refl) as (Hb & Hkey & Hu). rewrite Ho.
  cbn [headFromHeadEntry oh_BucketID oh_Key oh_DeleteMarker]. rewrite Hb, Hkey, String.eqb_refl. apply String.eqb_neq in Hk. rewrite Hk. cbn [negb orb].
  destruct (get_list k) as (l & Hgl & Hl). unfold st_bind at 1. rewrite Hgl. cbn [fmap option_fmap option_map index_entry] in *.
  unfold when_applied, setJSON. rewrite listEntry_through_json by (cbn; by rewrite Hkey).
  destruct (ohe_DeleteMarker e); destruct l as [l|]; cbn [is_some]; try found_and_fixed; [only_counted Hl|].
  destruct (objectListEntryMatchesHead l _) eqn:Hm; [|found_and_fixed]. apply matches_iff in Hm. subst l. only_counted Hl.
Qed.

Lemma getObjectHead_at k o : getJSON as_Head (ObjectHeadKey b k) s = (Ok o, s) -> getObjectHead b k s = (Ok (headFromHeadEntry <$> o), s).
Proof. intros Hg. unfold getObjectHead, st_bind. by rewrite Hg. Qed.

(** A listing entry that is right is only counted. *)
Lemma repair_list_exact apply k p :
  is_Some (kv_db s !! ListObjectKey b k) -> index_at (kv_db s) b k ->
  repair_list_entry b apply (ListObjectKey b k) p s = (Ok (tally inc_ScannedObjectListEntries p), s).
Proof.
  intros Hv Hix. unfold repair_list_entry. destruct (get_list k) as (o & Hget & Ho). unfold st_bind at 1. rewrite Hget.
  destruct o as [e|]; [|by rewrite Ho in Hv; destruct Hv]. destruct (list_record k _ Ho) as (? & [= <-] & Hb & Hkey).
  destruct (bool_decide _); [done|]. rewrite Hkey. destruct (get_head k) as (h & Hgh & Hh & Hrec). unfold st_bind.
  rewrite (getObjectHead_at k h Hgh). unfold index_at in Hix. rewrite Ho, Hh in Hix. destruct h as [h|]; [|done].
  cbn [fmap option_fmap option_map index_entry headFromHeadEntry oh_DeleteMarker] in *. destruct (ohe_DeleteMarker h); [done|]. injection Hix as ->.
  by rewrite (proj2 (matches_iff _ _) eq_refl).
Qed.

(** With the repair applied, an entry not handled before becomes what the head calls for. *)
Lemma repair_list_fix k p :
  is_Some (kv_db s !! ListObjectKey b k) -> (ListObjectKey b k ∈ pr_handled p -> index_at (kv_db s) b k) ->
  exists p', repair_list_entry b true (ListObjectKey b k) p s =
               (Ok p', s <| kv_db := put (ListObjectKey b k) (index_entry (kv_db s !! ObjectHeadKey b k)) (kv_db s) |>) /\
             moves (0, 1, 0) (ListObjectKey b k) p p'.
Proof.
  intros Hv Hhandled. unfold repair_list_entry. destruct (get_list k) as (o & Hget & Ho). unfold st_bind at 1. rewrite Hget.
  destruct o as [e|]; [|by rewrite Ho in Hv; destruct Hv]. destruct (list_record k _ Ho) as (? & [= <-] & Hb & Hkey).
  change (pr_handled (tally _ p)) with (pr_handled p).
  destruct (bool_decide_reflect (ListObjectKey b k ∈ pr_handled p)) as [Hin|_]; [only_counted (Hhandled Hin)|].
  rewrite Hkey. destruct (get_head k) as (h & Hgh & Hh & Hrec). unfold st_bind at 1. rewrite (getObjectHead_at k h Hgh), Hh.
  destruct h as [h|]; cbn [fmap option_fmap option_map index_entry headFromHeadEntry oh_DeleteMarker]; [|found_and_fixed].
  destruct (Hrec h eq_refl) as (_ & Hk & Hu). unfold when_applied, setJSON. rewrite listEntry_through_json by (cbn; by rewrite Hk).
  destruct (ohe_DeleteMarker h); [found_and_fixed|].
  destruct (objectListEntryMatchesHead e _) eqn:Hm; [|found_and_fixed]. apply matches_iff in Hm. subst e. only_counted Ho.
Qed.

Definition seen_key (p : progress) : progress := p <| pr_scannedKeys := pr_scannedKeys p + 1 |>.

Lemma state_key u : HasSuffix (MultipartUploadKey b u) "/state" = true.
Proof. unfold MultipartUploadKey. rewrite !str_app_assoc. apply HasSuffix_app. Qed.

(** An upload whose index record is right is only counted. *)
Lemma repair_state_exact apply u x p :
  kv_db s !! MultipartUploadKey b u = Some (V_Upload x) -> u <> "" -> upload_index_at (kv_db s) b (mu_Key x) u ->
  repair_upload_state b apply (MultipartUploadKey b u) p s = (Ok (tally inc_ScannedMultipartUploads (seen_key p)), s).
Proof.
  intros Hx Hu Hix. unfold repair_upload_state. rewrite state_key. cbn [negb].
  destruct (get_upload u) as (o & Hget & Ho & Hrec). unfold st_bind at 1. rewrite Hget. rewrite Hx in Ho. destruct o as [?|]; [|done].
  injection Ho as <-. destruct (Hrec x eq_refl) as [Hb Hid]. rewrite Hb, Hid, String.eqb_refl. apply String.eqb_neq in Hu. rewrite Hu. cbn [negb orb].
  destruct (get_index (mu_Key x) u) as (r & Hgr & Hr). unfold st_bind. rewrite Hgr. unfold upload_index_at, upload_entry in Hix.
  rewrite Hr, Hx, String.eqb_refl in Hix. cbn [andb] in Hix. destruct (mu_State x =s MultipartUploadActive); [|by destruct r].
  destruct r as [r|]; [|done]. injection Hix as ->. by rewrite String.eqb_refl.
Qed.

(** With the repair applied, the index record becomes what the upload calls for. *)
Lemma repair_state_fix u x p :
  kv_db s !! MultipartUploadKey b u = Some (V_Upload x) -> u <> "" ->
  exists p', repair_upload_state b true (MultipartUploadKey b u) p s =
               (Ok p', s <| kv_db := put (MultipartUploadByKeyKey b (mu_Key x) u) (upload_entry (Some (V_Upload x)) (mu_Key x) u) (kv_db s) |>) /\
             moves (0, 0, 0) (MultipartUploadByKeyKey b (mu_Key x) u) p p' /\ pr_scannedKeys p' = pr_scannedKeys p + 1.
Proof.
  intros Hx Hu. unfold repair_upload_state. rewrite state_key. cbn [negb].
  destruct (get_upload u) as (o & Hget & Ho & Hrec). unfold st_bind at 1. rewrite Hget. rewrite Hx in Ho. destruct o as [?|]; [|done].
  injection Ho as <-. destruct (Hrec x eq_refl) as [Hb Hid]. rewrite Hb, Hid, String.eqb_refl. apply String.eqb_neq in Hu. rewrite Hu. cbn [negb orb].
  destruct (get_index (mu_Key x) u) as (r & Hgr & Hr). unfold st_bind at 1. rewrite Hgr. unfold upload_entry. rewrite String.eqb_refl. cbn [andb].
  set (q := p <| pr_scannedKeys := _ |>). assert (moves (0, 0, 0) (MultipartUploadByKeyKey b (mu_Key x) u) p (tally inc_ScannedMultipartUploads q)) as Hq.
  { split; [|by right]. unfold scans. cbn [fst snd]. by rewrite !Z.add_0_r. }
  unfold when_applied, setJSON. destruct (mu_State x =s MultipartUploadActive); destruct r as [r|]; cbn [negb is_some].
  2,3: eexists; split; [reflexivity|]; split; [by apply (moves_found _ _ p) | reflexivity].
  - destruct (String.eqb_spec r u) as [->|_]; [|eexists; split; [reflexivity|]; split; [by apply (moves_found _ _ p) | reflexivity]].
    rewrite store_same by (by rewrite Hr). by eexists.
  - rewrite store_same by (by rewrite Hr). by eexists.
Qed.

Lemma index_key_inj k u k' u' : MultipartUploadByKeyKey b k u = MultipartUploadByKeyKey b k' u' -> k = k' /\ u = u'.
Proof.
  intros Heq. assert (MultipartUploadByKeyOf b k u = MultipartUploadByKeyOf b k' u') as [=]; [|done]. by apply key_of_inj.
Qed.

(** An index record that is right is only counted. *)
Lemma repair_index_exact apply k u p :
  is_Some (kv_db s !! MultipartUploadByKeyKey b k u) -> kv_db s !! MultipartUploadKey b "" = None -> upload_index_at (kv_db s) b k u ->
  repair_upload_index b apply (MultipartUploadByKeyKey b k u) p s = (Ok (tally inc_ScannedMultipartUploadIndexes p), s).
Proof.
  intros Hv Hempty Hix. unfold repair_upload_index. destruct (get_index k u) as (o & Hget & Ho). unfold st_bind at 1. rewrite Hget.
  destruct o as [r|]; [|by rewrite Ho in Hv; destruct Hv]. destruct (bool_decide _); [done|]. unfold upload_index_at, upload_entry in Hix. rewrite Ho in Hix.
  destruct (get_upload u) as (x & Hgx & Hx & Hrec). rewrite Hx in Hix. destruct x as [x|]; [|done]. cbn in Hix.
  destruct (String.eqb_spec (mu_Key x) k) as [<-|]; [|done]. destruct (mu_State x =s MultipartUploadActive) eqn:Ha; [|done]. injection Hix as ->.
  destruct (String.eqb_spec u "") as [->|_]; [by rewrite Hempty in Hx|]. unfold st_bind. rewrite Hgx.
  destruct (Hrec x eq_refl) as [Hb Hid]. rewrite Hb, Hid, Ha, !String.eqb_refl. done.
Qed.

(** With the repair applied, a record no active upload calls for is removed. *)
Lemma repair_index_fix k u p :
  is_Some (kv_db s !! MultipartUploadByKeyKey b k u) -> kv_db s !! MultipartUploadKey b "" = None ->
  (MultipartUploadByKeyKey b k u ∈ pr_handled p -> upload_index_at (kv_db s) b k u) ->
  (upload_entry (kv_db s !! MultipartUploadKey b u) k u <> None -> upload_index_at (kv_db s) b k u) ->
  exists p', repair_upload_index b true (MultipartUploadByKeyKey b k u) p s =
               (Ok p', s <| kv_db := put (MultipartUploadByKeyKey b k u) (upload_entry (kv_db s !! MultipartUploadKey b u) k u) (kv_db s) |>) /\
             moves (0, 0, 1) (MultipartUploadByKeyKey b k u) p p'.
Proof.
  intros Hv Hempty Hhandled Hactive. destruct (upload_entry (kv_db s !! MultipartUploadKey b u) k u) as [v|] eqn:Hentry.
  { assert (upload_index_at (kv_db s) b k u) as Hix by (by apply Hactive). rewrite store_same by (by rewrite Hix).
    rewrite repair_index_exact by done. eexists. split; [reflexivity | moves_counted]. }
  unfold repair_upload_index. destruct (get_index k u) as (o & Hget & Ho). unfold st_bind at 1. rewrite Hget.
  destruct o as [r|]; [|by rewrite Ho in Hv; destruct Hv]. change (pr_handled (tally _ p)) with (pr_handled p).
  destruct (bool_decide_reflect (MultipartUploadByKeyKey b k u ∈ pr_handled p)) as [Hin|_].
  { rewrite store_same by (by rewrite (Hhandled Hin)). eexists. split; [reflexivity | moves_counted]. }
  assert (forall stale : KM bool, stale s = (Ok true, s) -> exists p',
    (let! stale := stale in if stale then when_applied true (tx_Delete (MultipartUploadByKeyKey b k u)) inc_RemovedMultipartUploadIndexes
       (mark (MultipartUploadByKeyKey b k u) (tally inc_StaleMultipartUploadIndexes (tally inc_ScannedMultipartUploadIndexes p)))
     else st_ret (tally inc_ScannedMultipartUploadIndexes p)) s =
    (Ok p', s <| kv_db := put (MultipartUploadByKeyKey b k u) None (kv_db s) |>) /\ moves (0, 0, 1) (MultipartUploadByKeyKey b k u) p p') as Hstale.
  { intros m Hm. unfold st_bind at 1. rewrite Hm. found_and_fixed. }
  apply Hstale. destruct (String.eqb_spec r "") as [_|_]; [done|]. destruct (get_upload r) as (x & Hgx & Hx & Hrec). unfold st_bind. rewrite Hgx.
  destruct x as [x|]; [|done]. destruct (Hrec x eq_refl) as [Hb Hid]. rewrite Hb, Hid, String.eqb_refl. cbn [negb orb].
  destruct (mu_State x =s MultipartUploadActive) eqn:Ha; [|done]. cbn [negb orb].
  destruct (String.eqb_spec (MultipartUploadByKeyKey b (mu_Key x) r) (MultipartUploadByKeyKey b k u)) as [Heq|_]; [|done].
  apply index_key_inj in Heq as [<- ->]. rewrite Hx in Hentry. cbn in Hentry. by rewrite String.eqb_refl, Ha in Hentry.
Qed.
End Steps.

(** ** The passes *)

Definition listing_key (b key : string) : Prop := exists k, key = ListObjectKey b k.
Definition upload_key (b key : string) : Prop := exists k u, key = MultipartUploadByKeyKey b k u.
Definition index_key (b key : string) : Prop := listing_key b key \/ upload_key b key.
(** The stores agree but for the keys of a family. *)
Definition same_but (F : string -> Prop) (db db' : kvdb) : Prop := forall key, ~ F key -> db' !! key = db !! key.

Lemma same_but_put F db db' key o : same_but F db db' -> F key -> same_but F db (put key o db').
Proof. intros Hs HF k Hk. unfold put. rewrite lookup_partial_alter_ne by (by intros <-). by apply Hs. Qed.

Lemma put_at key o db : put key o db !! key = o.
Proof. apply lookup_partial_alter_eq. Qed.
Lemma put_off key o db k : k <> key -> put key o db !! k = db !! k.
Proof. intros Hne. unfold put. by rewrite lookup_partial_alter_ne. Qed.

Lemma entity_ne e e' : entity_ok e = true -> entity_ok e' = true -> e <> e' -> key_of e <> key_of e'.
Proof. intros He He' Hne Heq. by apply Hne, key_of_inj. Qed.

Ltac other_family :=
  try match goal with |- ?x = ?y -> False => change (x <> y) end;
  match goal with
  | |- ?x <> ?y =>
      let t k := match k with
        | BucketByIDKey ?b => constr:(BucketByIDOf b) | ObjectHeadKey ?b ?k => constr:(ObjectHeadOf b k) | ListObjectKey ?b ?k => constr:(ListObjectOf b k)
        | MultipartUploadKey ?b ?u => constr:(MultipartUploadOf b u) | MultipartUploadByKeyKey ?b ?k ?u => constr:(MultipartUploadByKeyOf b k u)
        end in
      let e := t x in let e' := t y in apply (entity_ne e e'); [done | done | congruence]
  end.

Section Passes.
Context (b : string).

Lemma head_not_listed k : ~ listing_key b (ObjectHeadKey b k).
Proof. intros [k' Heq]. revert Heq. other_family. Qed.
Lemma state_not_indexed u : ~ upload_key b (MultipartUploadKey b u).
Proof. intros (k & u' & Heq). revert Heq. other_family. Qed.

Lemma index_at_put db k : index_at (put (ListObjectKey b k) (index_entry (db !! ObjectHeadKey b k)) db) b k.
Proof. unfold index_at. rewrite put_at, put_off by other_family. done. Qed.
Lemma index_at_put_other db k k' o : k <> k' -> index_at db b k -> index_at (put (ListObjectKey b k') o db) b k.
Proof. intros Hne Hix. unfold index_at. rewrite !put_off by other_family. done. Qed.
Lemma upload_index_at_put db k u :
  upload_index_at (put (MultipartUploadByKeyKey b k u) (upload_entry (db !! MultipartUploadKey b u) k u) db) b k u.
Proof. unfold upload_index_at. rewrite put_at, put_off by other_family. done. Qed.
Lemma upload_index_at_put_other db k u k' u' o :
  (k, u) <> (k', u') -> upload_index_at db b k u -> upload_index_at (put (MultipartUploadByKeyKey b k' u') o db) b k u.
Proof. intros Hne Hix. unfold upload_index_at. rewrite !put_off by other_family. done. Qed.

(** The keys of a pass are those of its family. *)
Lemma range_heads db key : repairable db -> key ∈ range_keys db (objectHeadPrefix b) -> exists k, key = ObjectHeadKey b k.
Proof.
  intros Hdb [Hp [v Hv]]%elem_of_range_keys. destruct (Hdb key v Hv) as (e & -> & He & _).
  destruct (under_heads b e (conj He Hp)) as [k ->]. by exists k.
Qed.
Lemma range_listed db key : repairable db -> key ∈ range_keys db (listPrefix b) -> exists k, key = ListObjectKey b k.
Proof.
  intros Hdb [Hp [v Hv]]%elem_of_range_keys. destruct (Hdb key v Hv) as (e & -> & He & _).
  destruct (under_listed b e (conj He Hp)) as [k ->]. by exists k.
Qed.
Lemma range_states db key : repairable db -> key ∈ range_keys db (multipartUploadStatePrefix b) ->
  HasSuffix key "/state" = true -> exists u, key = MultipartUploadKey b u.
Proof.
  intros Hdb [Hp [v Hv]]%elem_of_range_keys Hs. destruct (Hdb key v Hv) as (e & -> & He & _).
  destruct (under_states b e (conj He Hp) Hs) as [u ->]. by exists u.
Qed.
Lemma range_index db key : repairable db -> key ∈ range_keys db (multipartUploadListPrefix b "") ->
  exists k u, key = MultipartUploadByKeyKey b k u.
Proof.
  intros Hdb [Hp [v Hv]]%elem_of_range_keys. destruct (Hdb key v Hv) as (e & -> & He & _).
  destruct (under_upload_index b e (conj He Hp)) as (k & u & ->). by exists k, u.
Qed.

Lemma head_in_range db k : is_Some (db !! ObjectHeadKey b k) -> ObjectHeadKey b k ∈ range_keys db (objectHeadPrefix b).
Proof.
  intros Hv. apply elem_of_range_keys. split; [|done]. rewrite objectHeadPrefix_eq.
  assert (ObjectHeadKey b k = ("/namros/v1/buckets/" +:+ escape b +:+ "/objects/") +:+ (escape k +:+ "/head")) as ->
    by (autounfold with keys; str_norm; done). apply HasPrefix_app.
Qed.
Lemma list_in_range db k : is_Some (db !! ListObjectKey b k) -> ListObjectKey b k ∈ range_keys db (listPrefix b).
Proof. intros Hv. apply elem_of_range_keys. split; [|done]. unfold listPrefix. rewrite ListObjectKey_app. apply HasPrefix_app. Qed.
Lemma state_in_range db u : is_Some (db !! MultipartUploadKey b u) -> MultipartUploadKey b u ∈ range_keys db (multipartUploadStatePrefix b).
Proof.
  intros Hv. apply elem_of_range_keys. split; [|done].
  assert (MultipartUploadKey b u = multipartUploadStatePrefix b +:+ (escape u +:+ "/state")) as ->
    by (unfold multipartUploadStatePrefix; autounfold with keys; str_norm; done). apply HasPrefix_app.
Qed.
Lemma index_in_range db k u : is_Some (db !! MultipartUploadByKeyKey b k u) ->
  MultipartUploadByKeyKey b k u ∈ range_keys db (multipartUploadListPrefix b "").
Proof.
  intros Hv. apply elem_of_range_keys. split; [|done].
  assert (MultipartUploadByKeyKey b k u = multipartUploadListPrefix b "" +:+ (escape k +:+ "/" +:+ escape u)) as ->
    by (unfold multipartUploadListPrefix; autounfold with keys; cbn [escape]; str_norm; done). apply HasPrefix_app.
Qed.

Lemma range_keys_prefix db start : Forall (fun k => HasPrefix k start = true) (range_keys db start).
Proof. apply Forall_forall. by intros k [Hk _]%elem_of_range_keys. Qed.

Lemma head_repairable db k : repairable db -> repairable (put (ListObjectKey b k) (index_entry (db !! ObjectHeadKey b k)) db).
Proof.
  intros Hdb. apply (repairable_put db (ListObjectOf b k)); [done | done|]. intros v. destruct (db !! ObjectHeadKey b k) as [x|] eqn:Hx; [|done].
  apply (repairable_lookup _ (ObjectHeadOf b k)) in Hx; [|done..]. destruct x; try contradiction. destruct Hx as (Hb & Hk & _). simpl.
  destruct (ohe_DeleteMarker entry); [done|]. by intros [= <-].
Qed.

(** What the first pass leaves: the entry of every head, handled or not, is right. *)
Record heads_done (db : kvdb) (l : list string) (p : progress) (s : KvRepository) : Prop := {
  hd_repairable : repairable (kv_db s);
  hd_same : same_but (listing_key b) db (kv_db s);
  hd_exact : forall k, is_Some (db !! ObjectHeadKey b k) -> ObjectHeadKey b k ∈ l \/ index_at (kv_db s) b k;
  hd_handled : forall k, ListObjectKey b k ∈ pr_handled p -> index_at (kv_db s) b k;
  hd_listed : forall k, is_Some (kv_db s !! ListObjectKey b k) -> is_Some (db !! ListObjectKey b k) \/ is_Some (db !! ObjectHeadKey b k);
  hd_rest : forall key, key ∈ l -> key ∈ range_keys db (objectHeadPrefix b);
  hd_scans : (scans p).1.2 = 0 /\ (scans p).2 = 0
}.

Lemma heads_step db k rest p s :
  k <> "" -> is_Some (db !! ObjectHeadKey b k) -> heads_done db (ObjectHeadKey b k :: rest) p s ->
  exists p' s', repair_head b true (ObjectHeadKey b k) p s = (Ok p', s') /\ heads_done db rest p' s' /\ (scans p').1.1 = (scans p).1.1 + 1.
Proof.
  intros Hk Hv [H1 H2 H3 H4 H5 H6 H7]. pose proof (H2 _ (head_not_listed k)) as Hh.
  destruct (repair_head_fix b s H1 k p) as (p' & -> & Hs & Hhd); [by rewrite Hh | done|]. eexists _, _. split; [reflexivity|].
  cbn [fst snd] in Hs. split; [|by rewrite Hs]. split; cbn [kv_db].
  - by apply head_repairable.
  - apply same_but_put; [done | by exists k].
  - intros k' Hk'. destruct (decide (k' = k)) as [->|Hne]; [right; apply index_at_put|].
    destruct (H3 k' Hk') as [Hin|Hix]; [|right; by apply index_at_put_other].
    apply elem_of_cons in Hin as [Heq|]; [|by left]. exfalso. revert Heq. other_family.
  - intros k' Hin. destruct (decide (k' = k)) as [->|Hne]; [apply index_at_put|]. apply index_at_put_other; [done|]. apply H4.
    destruct (Hhd _ Hin) as [Heq|]; [|done]. exfalso. revert Heq. other_family.
  - intros k' Hl. change (is_Some (put (ListObjectKey b k) (index_entry (kv_db s !! ObjectHeadKey b k)) (kv_db s) !! ListObjectKey b k')) in Hl.
    destruct (decide (k' = k)) as [->|Hne]; [by right|]. apply H5.
    rewrite put_off in Hl; [done|]. other_family.
  - intros key Hin. apply H6. by right.
  - rewrite Hs. cbn [fst snd]. lia.
Qed.

Lemma pass_heads limit p s :
  repairable (kv_db s) -> kv_db s !! ObjectHeadKey b "" = None -> pr_handled p = ∅ -> (scans p).1.2 = 0 -> (scans p).2 = 0 ->
  (scans p).1.1 + Z.of_nat (length (range_keys (kv_db s) (objectHeadPrefix b))) <= limit ->
  exists p' s', repairObjectListIndexFromHeads b limit true p s = (Ok p', s') /\ heads_done (kv_db s) [] p' s'.
Proof.
  intros Hdb Hempty Hhd Hz1 Hz2 Hlim. unfold repairObjectListIndexFromHeads.
  apply (repair_scan_inv _ _ _ _ (range_keys (kv_db s) (objectHeadPrefix b)) (heads_done (kv_db s))); [by rewrite objectHeadPrefix_eq | apply range_keys_sorted
    | apply range_keys_prefix | | | done | | done].
  - intros l q t Hl. split.
    + intros key Hin. destruct (range_heads _ key (hd_repairable _ _ _ _ Hl) Hin) as [k ->]. apply elem_of_range_keys in Hin as [Hp Hin].
      rewrite (hd_same _ _ _ _ Hl _ (head_not_listed k)) in Hin. by apply elem_of_range_keys.
    + intros key Hin%(hd_rest _ _ _ _ Hl). destruct (range_heads _ key Hdb Hin) as [k ->]. apply elem_of_range_keys in Hin as [_ Hin].
      by rewrite (hd_same _ _ _ _ Hl _ (head_not_listed k)).
  - intros key rest q t Hl. assert (key ∈ range_keys (kv_db s) (objectHeadPrefix b)) as Hin by (apply (hd_rest _ _ _ _ Hl); by left).
    destruct (range_heads _ key Hdb Hin) as [k ->]. apply elem_of_range_keys in Hin as [_ Hin].
    destruct (heads_step (kv_db s) k rest q t) as (q' & t' & Hstep & Hdone & Hscan);
      [by intros ->; rewrite Hempty in Hin; destruct Hin | done | done |].
    exists q', t'. split_and!; [done | done|]. unfold scans in Hscan. cbn [fst] in Hscan. lia.
  - split; [done | done | | by rewrite Hhd | by left | done | done]. intros k Hk. left. by apply head_in_range.
Qed.

Lemma range_keys_NoDup db start : NoDup (range_keys db start).
Proof.
  generalize (range_keys_sorted db start). generalize (range_keys db start). induction 1 as [|k l _ IH Hk]; constructor; [|done].
  intros Hin. rewrite Forall_forall in Hk. specialize (Hk k Hin). unfold str_lt in Hk. by rewrite str_ltb_irrefl in Hk.
Qed.

(** While the second pass runs: what is not right is still to come. *)
Record list_done (db : kvdb) (l : list string) (p : progress) (s : KvRepository) : Prop := {
  ld_repairable : repairable (kv_db s);
  ld_same : same_but (listing_key b) db (kv_db s);
  ld_exact : forall k, ListObjectKey b k ∈ l \/ index_at (kv_db s) b k;
  ld_handled : forall k, ListObjectKey b k ∈ pr_handled p -> index_at (kv_db s) b k;
  ld_listed : forall k, is_Some (kv_db s !! ListObjectKey b k) -> is_Some (db !! ListObjectKey b k);
  ld_rest : forall key, key ∈ l -> key ∈ range_keys db (listPrefix b) /\ kv_db s !! key = db !! key;
  ld_NoDup : NoDup l;
  ld_scans : (scans p).2 = 0
}.

Lemma list_step db k rest p s :
  is_Some (db !! ListObjectKey b k) -> list_done db (ListObjectKey b k :: rest) p s ->
  exists p' s', repair_list_entry b true (ListObjectKey b k) p s = (Ok p', s') /\ list_done db rest p' s' /\ (scans p').1.2 = (scans p).1.2 + 1.
Proof.
  intros Hv [H1 H2 H3 H4 H5 H6 H7 H8]. destruct (H6 (ListObjectKey b k)) as [_ Hnow]; [by left|]. apply NoDup_cons in H7 as [Hnew H7].
  destruct (repair_list_fix b s H1 k p) as (p' & -> & Hs & Hhd); [by rewrite Hnow | by apply H4|]. eexists _, _. split; [reflexivity|].
  cbn [fst snd] in Hs. split; [|by rewrite Hs]. split; cbn [kv_db].
  - by apply head_repairable.
  - apply same_but_put; [done | by exists k].
  - intros k'. destruct (decide (k' = k)) as [->|Hne]; [right; apply index_at_put|].
    destruct (H3 k') as [Hin|Hix]; [|right; by apply index_at_put_other].
    apply elem_of_cons in Hin as [Heq|]; [|by left]. exfalso. revert Heq. other_family.
  - intros k' Hin. destruct (decide (k' = k)) as [->|Hne]; [apply index_at_put|]. apply index_at_put_other; [done|]. apply H4.
    destruct (Hhd _ Hin) as [Heq|]; [|done]. exfalso. revert Heq. other_family.
  - intros k' Hl. change (is_Some (put (ListObjectKey b k) (index_entry (kv_db s !! ObjectHeadKey b k)) (kv_db s) !! ListObjectKey b k')) in Hl.
    destruct (decide (k' = k)) as [->|Hne]; [done|]. apply H5. rewrite put_off in Hl; [done|]. other_family.
  - intros key Hin. destruct (H6 key) as [Hr Hsame]; [by right|]. split; [done|]. rewrite <- Hsame. apply put_off. by intros ->.
  - done.
  - rewrite Hs. cbn [fst snd]. lia.
Qed.

Lemma pass_listed limit p s :
  repairable (kv_db s) -> (forall k, is_Some (kv_db s !! ObjectHeadKey b k) -> index_at (kv_db s) b k) ->
  (forall k, ListObjectKey b k ∈ pr_handled p -> index_at (kv_db s) b k) -> (scans p).2 = 0 ->
  (scans p).1.2 + Z.of_nat (length (range_keys (kv_db s) (listPrefix b))) <= limit ->
  exists p' s', repairStaleObjectListIndexes b limit true p s = (Ok p', s') /\ list_done (kv_db s) [] p' s'.
Proof.
  intros Hdb Hheads Hhd Hz Hlim. unfold repairStaleObjectListIndexes.
  apply (repair_scan_inv _ _ _ _ (range_keys (kv_db s) (listPrefix b)) (list_done (kv_db s))); [done | apply range_keys_sorted
    | apply range_keys_prefix | | | done | | done].
  - intros l q t Hl. split.
    + intros key Hin. destruct (range_listed _ key (ld_repairable _ _ _ _ Hl) Hin) as [k ->]. apply elem_of_range_keys in Hin as [Hp Hin].
      apply list_in_range. by apply (ld_listed _ _ _ _ Hl).
    + intros key Hin. destruct (ld_rest _ _ _ _ Hl key Hin) as [Hr ->]. by apply elem_of_range_keys in Hr as [_ Hr].
  - intros key rest q t Hl. destruct (ld_rest _ _ _ _ Hl key) as [Hin _]; [by left|].
    destruct (range_listed _ key Hdb Hin) as [k ->]. apply elem_of_range_keys in Hin as [_ Hin].
    destruct (list_step (kv_db s) k rest q t) as (q' & t' & Hstep & Hdone & Hscan); [done | done|].
    exists q', t'. split_and!; [done | done|]. unfold scans in Hscan. cbn [fst snd] in Hscan. lia.
  - split; [done | done | | done | done | done | apply range_keys_NoDup | done]. intros k.
    destruct (kv_db s !! ListObjectKey b k) as [v|] eqn:Hv; [left; apply list_in_range; by rewrite Hv|]. right.
    destruct (kv_db s !! ObjectHeadKey b k) as [h|] eqn:Hh; [apply Hheads; by rewrite Hh|]. unfold index_at. by rewrite Hv, Hh.
Qed.

Lemma upload_entry_repairable db state k u : repairable db -> repairable (put (MultipartUploadByKeyKey b k u) (upload_entry state k u) db).
Proof.
  intros Hdb. apply (repairable_put db (MultipartUploadByKeyOf b k u)); [done | done|]. intros v. unfold upload_entry.
  destruct state as [[]|]; try done. destruct (_ && _); [|done]. intros [= <-]. by eexists.
Qed.

Lemma same_state db s u : same_but (upload_key b) db (kv_db s) -> kv_db s !! MultipartUploadKey b u = db !! MultipartUploadKey b u.
Proof. intros Hs. apply Hs, state_not_indexed. Qed.

(** While the third pass runs: the index records of the uploads not to come are right. *)
Record states_done (db : kvdb) (l : list string) (p : progress) (s : KvRepository) : Prop := {
  sd_repairable : repairable (kv_db s);
  sd_same : same_but (upload_key b) db (kv_db s);
  sd_exact : forall u x, db !! MultipartUploadKey b u = Some (V_Upload x) ->
               MultipartUploadKey b u ∈ l \/ upload_index_at (kv_db s) b (mu_Key x) u;
  sd_handled : forall k u, MultipartUploadByKeyKey b k u ∈ pr_handled p -> upload_index_at (kv_db s) b k u;
  sd_indexed : forall k u, is_Some (kv_db s !! MultipartUploadByKeyKey b k u) ->
                 is_Some (db !! MultipartUploadByKeyKey b k u) \/ upload_entry (db !! MultipartUploadKey b u) k u <> None;
  sd_rest : forall key, key ∈ l -> key ∈ range_keys db (multipartUploadStatePrefix b);
  sd_scans : (scans p).2 = 0
}.

Lemma state_step db u x rest p s :
  u <> "" -> db !! MultipartUploadKey b u = Some (V_Upload x) -> states_done db (MultipartUploadKey b u :: rest) p s ->
  exists p' s', repair_upload_state b true (MultipartUploadKey b u) p s = (Ok p', s') /\ states_done db rest p' s' /\
                pr_scannedKeys p' = pr_scannedKeys p + 1.
Proof.
  intros Hu Hx [H1 H2 H3 H4 H5 H6 H7]. pose proof (same_state _ _ u H2) as Hnow. rewrite Hx in Hnow.
  destruct (repair_state_fix b s H1 u x p Hnow Hu) as (p' & -> & [Hs Hhd] & Hc). eexists _, _. split; [reflexivity|].
  cbn [fst snd] in Hs. split; [|done]. pose proof (upload_index_at_put (kv_db s) (mu_Key x) u) as Hat. rewrite Hnow in Hat. split; cbn [kv_db].
  - by apply upload_entry_repairable.
  - apply same_but_put; [done | by exists (mu_Key x), u].
  - intros u' x' Hx'. destruct (decide (u' = u)) as [->|Hne]; [right; rewrite Hx in Hx'; by simplify_eq|].
    destruct (H3 u' x' Hx') as [Hin|Hix]; [|right; apply upload_index_at_put_other; [congruence | done]].
    apply elem_of_cons in Hin as [Heq|]; [|by left]. exfalso. revert Heq. other_family.
  - intros k' u' Hin. destruct (decide ((k', u') = (mu_Key x, u))) as [[= -> ->]|Hne]; [done|]. apply upload_index_at_put_other; [done|]. apply H4.
    destruct (Hhd _ Hin) as [Heq|]; [|done]. exfalso. revert Heq. other_family.
  - intros k' u' Hl. destruct (decide ((k', u') = (mu_Key x, u))) as [[= -> ->]|Hne].
    + right. unfold upload_index_at in Hat. rewrite (put_off _ _ _ (MultipartUploadKey b u)), Hnow in Hat by other_family. rewrite Hx, <- Hat. intros Hn. destruct Hl as [v Hl]. assert (Some v = None) by (rewrite <- Hl; exact Hn). done.
    + apply H5. change (is_Some (put (MultipartUploadByKeyKey b (mu_Key x) u) (upload_entry (Some (V_Upload x)) (mu_Key x) u) (kv_db s) !! MultipartUploadByKeyKey b k' u')) in Hl.
      rewrite put_off in Hl; [done|]. other_family.
  - intros key Hin. apply H6. by right.
  - rewrite Hs. cbn [fst snd]. lia.
Qed.

(** A key of another family under the prefix of the uploads is passed over. *)
Lemma other_step db key rest p s :
  HasSuffix key "/state" = false -> states_done db (key :: rest) p s ->
  repair_upload_state b true key p s = (Ok (seen_key p), s) /\ states_done db rest (seen_key p) s.
Proof.
  intros Hsuf [H1 H2 H3 H4 H5 H6 H7]. unfold repair_upload_state. rewrite Hsuf. split; [done|]. split; try done.
  - intros u x Hx. destruct (H3 u x Hx) as [Hin|]; [|by right]. left. apply elem_of_cons in Hin as [<-|]; [|done].
    by rewrite state_key in Hsuf.
  - intros k Hin. apply H6. by right.
Qed.

Lemma index_not_state k u : HasPrefix (MultipartUploadByKeyKey b k u) (multipartUploadStatePrefix b) = true -> False.
Proof.
  intros Hpre. assert (forall e, under (multipartUploadStatePrefix b) e -> e <> MultipartUploadByKeyOf b k u) as Hne;
    [|by apply (Hne (MultipartUploadByKeyOf b k u))]. clear Hpre.
  intros e. unfold multipartUploadStatePrefix. prefix_segments [""; "namros"; "v1"; "buckets"; escape b; "multipart"]; done.
Qed.

Lemma pass_states limit p s :
  repairable (kv_db s) -> kv_db s !! MultipartUploadKey b "" = None -> pr_handled p = ∅ -> (scans p).2 = 0 ->
  Z.of_nat (length (range_keys (kv_db s) (multipartUploadStatePrefix b))) <= limit ->
  exists p' s', repairMultipartUploadIndexesFromState b limit true p s = (Ok p', s') /\ states_done (kv_db s) [] p' s'.
Proof.
  intros Hdb Hempty Hhd Hz Hlim. unfold repairMultipartUploadIndexesFromState.
  apply (repair_scan_inv _ _ _ _ (range_keys (kv_db s) (multipartUploadStatePrefix b)) (states_done (kv_db s))); [done | apply range_keys_sorted
    | apply range_keys_prefix | | | done | | exact Hlim].
  - intros l q t Hl. assert (forall key, HasPrefix key (multipartUploadStatePrefix b) = true -> kv_db t !! key = kv_db s !! key) as Hsame.
    { intros key Hpre. apply (sd_same _ _ _ _ Hl). intros (k & u & ->). by apply (index_not_state k u). }
    split.
    + intros key [Hp Hin]%elem_of_range_keys. apply elem_of_range_keys. by rewrite <- Hsame.
    + intros key [Hp Hin]%(sd_rest _ _ _ _ Hl)%elem_of_range_keys. by rewrite Hsame.
  - intros key rest q t Hl. assert (key ∈ range_keys (kv_db s) (multipartUploadStatePrefix b)) as Hin by (apply (sd_rest _ _ _ _ Hl); by left).
    destruct (HasSuffix key "/state") eqn:Hsuf.
    + destruct (range_states _ key Hdb Hin Hsuf) as [u ->]. apply elem_of_range_keys in Hin as [_ [v Hv]].
      destruct (upload_record b s Hdb u v Hv) as (x & -> & _).
      destruct (state_step (kv_db s) u x rest q t) as (q' & t' & Hstep & Hdone & Hscan); [by intros ->; rewrite Hempty in Hv | done | done|].
      exists q', t'. split_and!; [done | done | lia].
    + destruct (other_step (kv_db s) key rest q t Hsuf Hl) as [Hstep Hdone]. exists (seen_key q), t. split_and!; [done | done | simpl; lia].
  - split; [done | done | | | by left | done | done].
    + intros u x Hx. left. apply state_in_range. by rewrite Hx.
    + intros k u. change (pr_handled _) with (pr_handled p). by rewrite Hhd.
Qed.

(** While the fourth pass runs: what is not right is still to come, and no active
    upload misses its record. *)
Record index_done (db : kvdb) (l : list string) (p : progress) (s : KvRepository) : Prop := {
  id_repairable : repairable (kv_db s);
  id_same : same_but (upload_key b) db (kv_db s);
  id_exact : forall k u, MultipartUploadByKeyKey b k u ∈ l \/ upload_index_at (kv_db s) b k u;
  id_handled : forall k u, MultipartUploadByKeyKey b k u ∈ pr_handled p -> upload_index_at (kv_db s) b k u;
  id_active : forall k u, upload_entry (db !! MultipartUploadKey b u) k u <> None -> upload_index_at (kv_db s) b k u;
  id_indexed : forall k u, is_Some (kv_db s !! MultipartUploadByKeyKey b k u) -> is_Some (db !! MultipartUploadByKeyKey b k u);
  id_rest : forall key, key ∈ l -> key ∈ range_keys db (multipartUploadListPrefix b "") /\ kv_db s !! key = db !! key;
  id_NoDup : NoDup l
}.

Lemma index_step db k u rest p s :
  db !! MultipartUploadKey b "" = None -> is_Some (db !! MultipartUploadByKeyKey b k u) ->
  index_done db (MultipartUploadByKeyKey b k u :: rest) p s ->
  exists p' s', repair_upload_index b true (MultipartUploadByKeyKey b k u) p s = (Ok p', s') /\ index_done db rest p' s' /\
                (scans p').2 = (scans p).2 + 1.
Proof.
  intros Hempty Hv [H1 H2 H3 H4 H5 H6 H7 H8]. destruct (H7 (MultipartUploadByKeyKey b k u)) as [_ Hnow]; [by left|]. apply NoDup_cons in H8 as [Hnew H8].
  destruct (repair_index_fix b s H1 k u p) as (p' & -> & Hs & Hhd);
    [by rewrite Hnow | by rewrite (same_state _ _ _ H2) | by apply H4 | by rewrite (same_state _ _ _ H2); apply H5|].
  eexists _, _. split; [reflexivity|]. cbn [fst snd] in Hs. split; [|by rewrite Hs].
  pose proof (upload_index_at_put (kv_db s) k u) as Hat. split; cbn [kv_db].
  - by apply upload_entry_repairable.
  - apply same_but_put; [done | by exists k, u].
  - intros k' u'. destruct (decide ((k', u') = (k, u))) as [[= -> ->]|Hne]; [by right|].
    destruct (H3 k' u') as [Hin|Hix]; [|right; by apply upload_index_at_put_other].
    apply elem_of_cons in Hin as [Heq|]; [|by left]. apply index_key_inj in Heq as [-> ->]. done.
  - intros k' u' Hin. destruct (decide ((k', u') = (k, u))) as [[= -> ->]|Hne]; [done|]. apply upload_index_at_put_other; [done|]. apply H4.
    destruct (Hhd _ Hin) as [Heq|]; [|done]. apply index_key_inj in Heq as [-> ->]. done.
  - intros k' u' Ha. destruct (decide ((k', u') = (k, u))) as [[= -> ->]|Hne]; [done|]. apply upload_index_at_put_other; [done|]. by apply H5.
  - intros k' u' Hl. destruct (decide ((k', u') = (k, u))) as [[= -> ->]|Hne]; [done|]. apply H6.
    change (is_Some (put (MultipartUploadByKeyKey b k u) (upload_entry (kv_db s !! MultipartUploadKey b u) k u) (kv_db s) !! MultipartUploadByKeyKey b k' u')) in Hl.
    rewrite put_off in Hl; [done|]. intros Heq. apply index_key_inj in Heq as [-> ->]. done.
  - intros key Hin. destruct (H7 key) as [Hr Hsame]; [by right|]. split; [done|]. rewrite <- Hsame. apply put_off. by intros ->.
  - done.
Qed.

Lemma pass_index limit p s :
  repairable (kv_db s) -> kv_db s !! MultipartUploadKey b "" = None ->
  (forall k u, MultipartUploadByKeyKey b k u ∈ pr_handled p -> upload_index_at (kv_db s) b k u) ->
  (forall k u, upload_entry (kv_db s !! MultipartUploadKey b u) k u <> None -> upload_index_at (kv_db s) b k u) ->
  (scans p).2 + Z.of_nat (length (range_keys (kv_db s) (multipartUploadListPrefix b ""))) <= limit ->
  exists p' s', repairStaleMultipartUploadIndexes b limit true p s = (Ok p', s') /\ index_done (kv_db s) [] p' s'.
Proof.
  intros Hdb Hempty Hhd Hactive Hlim. unfold repairStaleMultipartUploadIndexes.
  apply (repair_scan_inv _ _ _ _ (range_keys (kv_db s) (multipartUploadListPrefix b "")) (index_done (kv_db s))); [done | apply range_keys_sorted
    | apply range_keys_prefix | | | done | | done].
  - intros l q t Hl. split.
    + intros key Hin. destruct (range_index _ key (id_repairable _ _ _ _ Hl) Hin) as (k & u & ->). apply elem_of_range_keys in Hin as [Hp Hin].
      apply index_in_range. by apply (id_indexed _ _ _ _ Hl).
    + intros key Hin. destruct (id_rest _ _ _ _ Hl key Hin) as [Hr ->]. by apply elem_of_range_keys in Hr as [_ Hr].
  - intros key rest q t Hl. destruct (id_rest _ _ _ _ Hl key) as [Hin _]; [by left|].
    destruct (range_index _ key Hdb Hin) as (k & u & ->). apply elem_of_range_keys in Hin as [_ Hin].
    destruct (index_step (kv_db s) k u rest q t) as (q' & t' & Hstep & Hdone & Hscan); [done | done | done|].
    exists q', t'. split_and!; [done | done|]. unfold scans in Hscan. cbn [fst snd] in Hscan. lia.
  - split; [done | done | | done | done | done | done | apply range_keys_NoDup]. intros k u.
    destruct (kv_db s !! MultipartUploadByKeyKey b k u) as [v|] eqn:Hv; [left; apply index_in_range; by exists v|]. right.
    destruct (upload_entry (kv_db s !! MultipartUploadKey b u) k u) as [v|] eqn:Hu; [apply Hactive; by rewrite Hu|].
    unfold upload_index_at. by rewrite Hv, Hu.
Qed.

(** The passes that go by heads and uploads add at most an entry for each of them. *)
Lemma length_covered (l l1 l2 : list string) (f : string -> string) :
  NoDup l -> (forall x, x ∈ l -> x ∈ l1 \/ exists y, y ∈ l2 /\ x = f y) -> (length l <= length l1 + length l2)%nat.
Proof.
  intros Hnd Hcov. rewrite <- (length_map f l2), <- length_app. apply submseteq_length, NoDup_submseteq; [done|].
  intros x [Hx|(y & Hy & ->)]%Hcov; apply elem_of_app; [by left|]. right. apply list_elem_of_In, in_map. by apply list_elem_of_In.
Qed.

Lemma listed_after_heads db p s :
  repairable db -> heads_done db [] p s ->
  (length (range_keys (kv_db s) (listPrefix b)) <= length (range_keys db (listPrefix b)) + length (range_keys db (objectHeadPrefix b)))%nat.
Proof.
  intros Hdb Hdone. apply (length_covered _ _ _ (fun key => if db !! key is Some (V_Head e) then ListObjectKey b (ohe_Key e) else "")); [apply range_keys_NoDup|].
  intros key Hin. destruct (range_listed _ key (hd_repairable _ _ _ _ Hdone) Hin) as [k ->]. apply elem_of_range_keys in Hin as [_ Hin].
  destruct (hd_listed _ _ _ _ Hdone k Hin) as [Hl|[v Hv]]; [left; by apply list_in_range|]. right. exists (ObjectHeadKey b k).
  split; [apply head_in_range; by exists v|]. rewrite Hv. apply (repairable_lookup _ (ObjectHeadOf b k)) in Hv; [|done..].
  destruct v; try contradiction. by destruct Hv as (_ & -> & _).
Qed.

Lemma indexed_after_states db p s :
  repairable db -> states_done db [] p s ->
  (length (range_keys (kv_db s) (multipartUploadListPrefix b "")) <=
   length (range_keys db (multipartUploadListPrefix b "")) + length (range_keys db (multipartUploadStatePrefix b)))%nat.
Proof.
  intros Hdb Hdone. apply (length_covered _ _ _ (fun key => if db !! key is Some (V_Upload x) then MultipartUploadByKeyKey b (mu_Key x) (mu_UploadID x) else "")); [apply range_keys_NoDup|].
  intros key Hin. destruct (range_index _ key (sd_repairable _ _ _ _ Hdone) Hin) as (k & u & ->). apply elem_of_range_keys in Hin as [_ Hin].
  destruct (sd_indexed _ _ _ _ Hdone k u Hin) as [Hl|Hu]; [left; by apply index_in_range|]. right. exists (MultipartUploadKey b u).
  destruct (db !! MultipartUploadKey b u) as [v|] eqn:Hv; [|done]. split; [apply state_in_range; by exists v|].
  apply (repairable_lookup _ (MultipartUploadOf b u)) in Hv; [|done..]. destruct v; try contradiction. destruct Hv as (_ & -> & _).
  unfold upload_entry in Hu. by destruct (String.eqb_spec (mu_Key upload) k) as [->|].
Qed.
End Passes.

(** ** The whole repair *)

(** The limit covers the bucket: each pass reaches every key, those added by the pass
    before it included. *)
Definition covers (limit : Z) (db : kvdb) (b : string) : Prop :=
  Z.of_nat (length (range_keys db (objectHeadPrefix b)) + length (range_keys db (listPrefix b))) <= limit /\
  Z.of_nat (length (range_keys db (multipartUploadStatePrefix b)) + length (range_keys db (multipartUploadListPrefix b ""))) <= limit.

Section Whole.
Context (b : string) (limit : Z).

Lemma same_listing db db' k : same_but (upload_key b) db db' -> db' !! ListObjectKey b k = db !! ListObjectKey b k /\ db' !! ObjectHeadKey b k = db !! ObjectHeadKey b k.
Proof. intros Hs. split; apply Hs; intros (k' & u & Heq); revert Heq; other_family. Qed.

Lemma same_range db db' F start : same_but F db db' -> (forall key, F key -> HasPrefix key start = false) -> range_keys db' start = range_keys db start.
Proof.
  intros Hs HF. apply str_lt_sorted_ext; [apply range_keys_sorted..|]. intros key. rewrite !elem_of_range_keys.
  split; intros [Hp Hv]; (split; [done|]); rewrite Hs in * by (intros Hk; by rewrite (HF key Hk) in Hp); done.
Qed.

Lemma listing_not_under key : listing_key b key ->
  HasPrefix key (multipartUploadStatePrefix b) = false /\ HasPrefix key (multipartUploadListPrefix b "") = false /\ HasPrefix key (objectHeadPrefix b) = false.
Proof.
  intros [k ->]. assert (forall e, (under (multipartUploadStatePrefix b) e -> e <> ListObjectOf b k) /\
    (under (multipartUploadListPrefix b "") e -> e <> ListObjectOf b k) /\ (under (objectHeadPrefix b) e -> e <> ListObjectOf b k)) as Hne.
  { intros e. split_and!; [|by intros (? & ? & ->)%under_upload_index | by intros [? ->]%under_heads].
    unfold multipartUploadStatePrefix. prefix_segments [""; "namros"; "v1"; "buckets"; escape b; "multipart"]; done. }
  destruct (Hne (ListObjectOf b k)) as (H1 & H2 & H3). unfold under in *. cbn [entity_ok key_of] in *. split_and!; apply not_true_is_false; intros Hp; [by apply H1 | by apply H2 | by apply H3].
Qed.

Lemma upload_not_under key : upload_key b key -> HasPrefix key (listPrefix b) = false /\ HasPrefix key (objectHeadPrefix b) = false /\ HasPrefix key (multipartUploadStatePrefix b) = false.
Proof.
  intros (k & u & ->). split_and!; apply not_true_is_false.
  - intros Hp. by destruct (under_listed b (MultipartUploadByKeyOf b k u)) as [? ?].
  - intros Hp. by destruct (under_heads b (MultipartUploadByKeyOf b k u)) as [? ?].
  - exact (index_not_state b k u).
Qed.

(** The two index passes over a bucket, one after the other. *)
Lemma listing_repaired p s :
  repairable (kv_db s) -> kv_db s !! ObjectHeadKey b "" = None -> pr_handled p = ∅ -> scans p = (0, 0, 0) -> covers limit (kv_db s) b ->
  exists p1 s1 p2 s2, repairObjectListIndexFromHeads b limit true p s = (Ok p1, s1) /\ repairStaleObjectListIndexes b limit true p1 s1 = (Ok p2, s2) /\
    repairable (kv_db s2) /\ same_but (listing_key b) (kv_db s) (kv_db s2) /\ (forall k, index_at (kv_db s2) b k) /\ (scans p2).2 = 0 /\
    Z.of_nat (length (range_keys (kv_db s2) (listPrefix b))) <= limit.
Proof.
  intros Hdb Hempty Hhd Hz [Hlim _]. destruct (pass_heads b limit p s) as (p1 & s1 & Hrun1 & Hdone1); try (by rewrite ?Hz); [rewrite Hz; simpl; lia|].
  pose proof (listed_after_heads b _ _ _ Hdb Hdone1) as Hlen. destruct Hdone1 as [H1 H2 H3 H4 _ _ [H6 H7]].
  destruct (pass_listed b limit p1 s1) as (p2 & s2 & Hrun2 & [G1 G2 G3 _ G5 _ _ G8]); [done | | done | done | rewrite H6; lia |].
  { intros k Hk. destruct (H3 k) as [Hin|]; [by rewrite <- (H2 _ (head_not_listed b k)) | by apply not_elem_of_nil in Hin | done]. }
  exists p1, s1, p2, s2. split_and!; [done | done | done | | | done |].
  - intros key Hk. by rewrite G2, H2.
  - intros k. by destruct (G3 k) as [Hin%not_elem_of_nil|].
  - assert (length (range_keys (kv_db s2) (listPrefix b)) <= length (range_keys (kv_db s1) (listPrefix b)) + length (@nil string))%nat as Hle; [|simpl in Hle; lia].
    apply (length_covered _ _ _ id); [apply range_keys_NoDup|]. intros key Hin. left. destruct (range_listed b _ key G1 Hin) as [k ->].
    apply elem_of_range_keys in Hin as [_ Hin]. by apply list_in_range, G5.
Qed.

Lemma uploads_repaired p s :
  repairable (kv_db s) -> kv_db s !! MultipartUploadKey b "" = None -> pr_handled p = ∅ -> (scans p).2 = 0 ->
  Z.of_nat (length (range_keys (kv_db s) (multipartUploadStatePrefix b)) + length (range_keys (kv_db s) (multipartUploadListPrefix b ""))) <= limit ->
  exists p1 s1 p2 s2, repairMultipartUploadIndexesFromState b limit true p s = (Ok p1, s1) /\
    repairStaleMultipartUploadIndexes b limit true p1 s1 = (Ok p2, s2) /\ repairable (kv_db s2) /\ same_but (upload_key b) (kv_db s) (kv_db s2) /\
    (forall k u, upload_index_at (kv_db s2) b k u) /\ Z.of_nat (length (range_keys (kv_db s2) (multipartUploadListPrefix b ""))) <= limit.
Proof.
  intros Hdb Hempty Hhd Hz Hlim. destruct (pass_states b limit p s) as (p1 & s1 & Hrun1 & Hdone1); try done; [lia|].
  pose proof (indexed_after_states b _ _ _ Hdb Hdone1) as Hlen. destruct Hdone1 as [H1 H2 H3 H4 _ _ H7].
  destruct (pass_index b limit p1 s1) as (p2 & s2 & Hrun2 & [G1 G2 G3 _ _ G6 _ _]);
    [done | by rewrite (same_state b _ _ _ H2) | done | | rewrite H7; lia |].
  { intros k u Hu. rewrite (same_state b _ _ _ H2) in Hu. unfold upload_entry in Hu. destruct (kv_db s !! MultipartUploadKey b u) as [v|] eqn:Hv; [|done].
    destruct v; try done. destruct (H3 u upload Hv) as [Hin%not_elem_of_nil|Hix]; [done|]. by destruct (String.eqb_spec (mu_Key upload) k) as [<-|]. }
  exists p1, s1, p2, s2. split_and!; [done | done | done | | |].
  - intros key Hk. by rewrite G2, H2.
  - intros k u. by destruct (G3 k u) as [Hin%not_elem_of_nil|].
  - assert (length (range_keys (kv_db s2) (multipartUploadListPrefix b "")) <= length (range_keys (kv_db s1) (multipartUploadListPrefix b "")) + length (@nil string))%nat as Hle;
      [|simpl in Hle; lia].
    apply (length_covered _ _ _ id); [apply range_keys_NoDup|]. intros key Hin. left. destruct (range_index b _ key G1 Hin) as (k & u & ->).
    apply elem_of_range_keys in Hin as [_ Hin]. by apply index_in_range, G6.
Qed.

(** ** A bucket in order *)

Definition in_order (db : kvdb) : Prop :=
  repairable db /\ db !! ObjectHeadKey b "" = None /\ db !! MultipartUploadKey b "" = None /\ exact_indexes db b /\
  Forall (fun start => Z.of_nat (length (range_keys db start)) <= limit)
    [objectHeadPrefix b; listPrefix b; multipartUploadStatePrefix b; multipartUploadListPrefix b ""].

Definition nothing_found (p : progress) : Prop := Forall (eq 0) (findings (pr_result p)).

(** A pass whose steps change nothing. *)
Lemma quiet_scan start scanned step (Q : progress -> Prop) p s :
  start <> "" -> (forall key q, key ∈ range_keys (kv_db s) start -> Q q -> exists q', step key q s = (Ok q', s) /\ Q q' /\ scanned q' <= scanned q + 1) ->
  Q p -> scanned p + Z.of_nat (length (range_keys (kv_db s) start)) <= limit ->
  exists p', repair_scan start limit scanned step p s = (Ok p', s) /\ Q p'.
Proof.
  intros Hne Hstep Hp Hlim.
  destruct (repair_scan_inv start limit scanned step (range_keys (kv_db s) start)
    (fun l q t => t = s /\ Q q /\ forall key, key ∈ l -> key ∈ range_keys (kv_db s) start)) with (p := p) (s := s)
    as (p' & s' & Hrun & -> & HQ & _); try done; [apply range_keys_sorted | apply range_keys_prefix | | | by exists p'].
  - intros l q t (-> & _ & Hl). split; [done|]. intros key [_ Hin]%Hl%elem_of_range_keys. done.
  - intros key rest q t (-> & Hq & Hl). destruct (Hstep key q) as (q' & Hs & Hq' & Hc); [apply Hl; by left | done|].
    exists q', s. split_and!; [done | done | done | | done]. intros k Hk. apply Hl. by right.
Qed.

Lemma quiet_attempt apply bucket s :
  in_order (kv_db s) -> kv_db s !! BucketByIDKey b = Some (V_Bucket bucket) ->
  exists r, repair_attempt b limit apply zero_ListIndexRepairResult s = (Ok r, s) /\ Forall (eq 0) (findings r).
Proof.
  intros (Hdb & Hh0 & Hu0 & [Hix Hux] & Hlim) Hb. do 4 (apply Forall_cons in Hlim as [? Hlim]). unfold repair_attempt, require.
  assert (getJSON as_Bucket (BucketByIDKey b) s = (Ok (Some bucket), s)) as Hget by (apply getJSON_at; rewrite Hb; [by eexists | done]).
  unfold st_bind at 1 2. rewrite Hget. cbn [st_ret].
  destruct (quiet_scan (objectHeadPrefix b) (fun p => lirr_ScannedObjectHeads (pr_result p)) (repair_head b apply)
    (fun q => nothing_found q /\ (scans q).1.2 = 0 /\ (scans q).2 = 0) (mk_progress zero_ListIndexRepairResult ∅ 0) s) as (p1 & Hrun1 & Hq1 & Hz1 & Hz1');
    [by rewrite objectHeadPrefix_eq | | by repeat constructor | done |].
  { intros key q Hin Hq. destruct (range_heads b _ key Hdb Hin) as [k ->]. apply elem_of_range_keys in Hin as [_ Hin].
    eexists. split; [apply repair_head_exact; [done | done | by intros ->; rewrite Hh0 in Hin; destruct Hin | apply Hix] | split; [done | simpl; lia]]. }
  unfold st_bind at 1. fold (repairObjectListIndexFromHeads b limit apply) in Hrun1. rewrite Hrun1.
  destruct (quiet_scan (listPrefix b) (fun p => lirr_ScannedObjectListEntries (pr_result p)) (repair_list_entry b apply)
    (fun q => nothing_found q /\ (scans q).2 = 0) p1 s) as (p2 & Hrun2 & Hq2 & Hz2); [done | | done | unfold scans in Hz1; simpl in Hz1; lia |].
  { intros key q Hin Hq. destruct (range_listed b _ key Hdb Hin) as [k ->]. apply elem_of_range_keys in Hin as [_ Hin].
    eexists. split; [by apply repair_list_exact | split; [done | simpl; lia]]. }
  unfold st_bind at 1. fold (repairStaleObjectListIndexes b limit apply) in Hrun2. rewrite Hrun2.
  destruct (quiet_scan (multipartUploadStatePrefix b) pr_scannedKeys (repair_upload_state b apply)
    (fun q => nothing_found q /\ (scans q).2 = 0) (p2 <| pr_handled := ∅ |> <| pr_scannedKeys := 0 |>) s) as (p3 & Hrun3 & Hq3 & Hz3); [done | | done | done |].
  { intros key q Hin Hq. exists (if HasSuffix key "/state" then tally inc_ScannedMultipartUploads (seen_key q) else seen_key q).
    destruct (HasSuffix key "/state") eqn:Hsuf.
    - destruct (range_states b _ key Hdb Hin Hsuf) as [u ->]. apply elem_of_range_keys in Hin as [_ [v Hv]].
      destruct (upload_record b s Hdb u v Hv) as (x & -> & _).
      split; [apply (repair_state_exact b s Hdb apply u x); [done | by intros ->; rewrite Hu0 in Hv | apply Hux] | split; [done | simpl; lia]].
    - split; [unfold repair_upload_state; by rewrite Hsuf | split; [done | simpl; lia]]. }
  unfold st_bind at 1, repairMultipartUploadIndexesFromState at 1. rewrite Hrun3.
  destruct (quiet_scan (multipartUploadListPrefix b "") (fun p => lirr_ScannedMultipartUploadIndexes (pr_result p)) (repair_upload_index b apply)
    nothing_found p3 s) as (p4 & Hrun4 & Hq4); [done | | done | unfold scans in Hz3; simpl in Hz3; lia |].
  { intros key q Hin Hq. destruct (range_index b _ key Hdb Hin) as (k & u & ->). apply elem_of_range_keys in Hin as [_ Hin].
    eexists. split; [by apply repair_index_exact | split; [done | simpl; lia]]. }
  unfold st_bind, repairStaleMultipartUploadIndexes. rewrite Hrun4. by eexists.
Qed.

(** One applied attempt puts the bucket in order. *)
Lemma attempt_repairs bucket s :
  repairable (kv_db s) -> kv_db s !! BucketByIDKey b = Some (V_Bucket bucket) -> kv_db s !! ObjectHeadKey b "" = None ->
  kv_db s !! MultipartUploadKey b "" = None -> covers limit (kv_db s) b ->
  exists r s', repair_attempt b limit true zero_ListIndexRepairResult s = (Ok r, s') /\ in_order (kv_db s') /\ same_but (index_key b) (kv_db s) (kv_db s').
Proof.
  intros Hdb Hb Hh0 Hu0 Hcov.
  destruct (listing_repaired (mk_progress zero_ListIndexRepairResult ∅ 0) s)
    as (p1 & s1 & p2 & s2 & Hrun1 & Hrun2 & Hdb2 & Hsame2 & Hix & Hz & Hlen2); [done..|].
  assert (range_keys (kv_db s2) (objectHeadPrefix b) = range_keys (kv_db s) (objectHeadPrefix b) /\
    range_keys (kv_db s2) (multipartUploadStatePrefix b) = range_keys (kv_db s) (multipartUploadStatePrefix b) /\
    range_keys (kv_db s2) (multipartUploadListPrefix b "") = range_keys (kv_db s) (multipartUploadListPrefix b "")) as (R1 & R2 & R3).
  { split_and!; (eapply same_range; [exact Hsame2|]); intros key Hk; apply (listing_not_under key Hk). }
  assert (kv_db s2 !! MultipartUploadKey b "" = None) as Hu2 by (rewrite Hsame2; [done|]; intros [k Heq]; revert Heq; other_family).
  destruct (uploads_repaired (p2 <| pr_handled := ∅ |>) s2) as (p3 & s3 & p4 & s4 & Hrun3 & Hrun4 & Hdb4 & Hsame4 & Hux & Hlen4); [done..| |].
  { destruct Hcov as [_ Hcov]. by rewrite R2, R3. }
  exists (pr_result p4), s4. split_and!.
  - unfold repair_attempt, require. assert (getJSON as_Bucket (BucketByIDKey b) s = (Ok (Some bucket), s)) as Hget
      by (apply getJSON_at; rewrite Hb; [by eexists | done]).
    unfold st_bind at 1 2. rewrite Hget. cbn [st_ret]. do 4 (unfold st_bind at 1; first [rewrite Hrun1 | rewrite Hrun2 | rewrite Hrun3 | rewrite Hrun4]).
    done.
  - assert (forall start, start ∈ [objectHeadPrefix b; listPrefix b; multipartUploadStatePrefix b] -> range_keys (kv_db s4) start = range_keys (kv_db s2) start) as R.
    { intros start Hin. eapply same_range; [exact Hsame4|]. intros key Hk. destruct (upload_not_under key Hk) as (N1 & N2 & N3).
      repeat (apply elem_of_cons in Hin as [->|Hin]; [done|]). by apply not_elem_of_nil in Hin. }
    split_and!; [done | | by rewrite (same_state b _ _ _ Hsame4) | |].
    + rewrite (proj2 (same_listing _ _ _ Hsame4)), Hsame2; [done | apply head_not_listed].
    + split; [|done]. intros k. unfold index_at. destruct (same_listing _ _ k Hsame4) as [-> ->]. apply Hix.
    + destruct Hcov as [C1 C2]. repeat constructor; [rewrite R by set_solver..|]; rewrite ?R1, ?R2; first [done | lia].
  - intros key Hk. rewrite Hsame4, Hsame2; [done | |]; intros HF; apply Hk; [by left | by right].
Qed.
End Whole.


(** ** A damaged bucket *)

Definition repair_ex_calls : list kv_call :=
  (kv_ex_calls ["a"; "b"] ++ [K_CreateMultipartUpload (mkCreateMultipartUploadRequest "bkt_0" "video" "" zero_StorageClassSnapshot
     zero_ServerSideEncryption ∅ ∅ zero_ObjectLockRetention "")])%list.

Definition repair_ex_good : KvRepository := @kv_run exEnv repair_ex_calls kv_empty.

(** The entry of an object is gone, there is one of an object that does not exist, the
    record of an upload is missing and there is one of an upload nobody made. *)
Definition repair_ex_entry : ObjectListEntry :=
  listEntryFromHead (zero_ObjectHead <| oh_BucketID := "bkt_0" |> <| oh_Key := "gone" |>).
Definition repair_ex_damaged : KvRepository :=
  repair_ex_good <| kv_db :=
    put (ListObjectKey "bkt_0" "a") None (put (ListObjectKey "bkt_0" "gone") (Some (V_List repair_ex_entry))
      (put (MultipartUploadByKeyKey "bkt_0" "video" "upl_3") None
        (put (MultipartUploadByKeyKey "bkt_0" "video" "nobody") (Some (V_UploadIndex "someone")) (kv_db repair_ex_good)))) |>.

Definition repair_ex_request : RepairListIndexesRequest := mkRepairListIndexesRequest "bkt_0" 0 true.

Lemma repair_ex_repairable : repairable (kv_db repair_ex_damaged).
Proof.
  assert (repairable (kv_db repair_ex_good)) as Hgood.
  { apply db_wf_repairable. apply (@kv_run_ok exEnv); [repeat constructor | apply kv_empty_ok]. }
  apply (repairable_put _ (ListObjectOf _ _)); [|done | done]. apply (repairable_put _ (ListObjectOf _ _)); [|done | by intros v [= <-]].
  apply (repairable_put _ (MultipartUploadByKeyOf _ _ _)); [|done | done].
  apply (repairable_put _ (MultipartUploadByKeyOf _ _ _)); [done | done | by intros v [= <-]; eexists].
Qed.


(** ** Where the repair falls short *)

(** A listing entry is judged by the object it names, not by the key it lies under. One
    that lies under the key of an object that does not exist and names one that does is
    kept, by every run. *)
Definition repair_ex_foreign : KvRepository :=
  repair_ex_good <| kv_db := put (ListObjectKey "bkt_0" "gone") (kv_db repair_ex_good !! ListObjectKey "bkt_0" "b") (kv_db repair_ex_good) |>.

Theorem repair_keeps_foreign_entry :
  RepairListIndexes repair_ex_request repair_ex_foreign = (Ok (mkListIndexRepairResult 2 3 0 0 0 0 1 1 0 0 0 0), repair_ex_foreign) /\
  kv_db repair_ex_foreign !! ObjectHeadKey "bkt_0" "gone" = None /\
  shown (ListObjects (mkListObjectsRequest "bkt_0" "" "" "" 10) repair_ex_foreign).1 = Some (["a"; "b"; "b"], [], false, "").
Proof. split_and!; vm_compute; reflexivity. Qed.

(** The counts live outside the transaction, so an attempt that is tried again after a
    write conflict starts from the counts of the attempt that was dropped: with the limit
    used up it scans nothing. The repair then reports an entry written that is not there. *)
Definition repair_ex_lost : KvRepository :=
  (kv_ex_state ["a"]) <| kv_db := put (ListObjectKey "bkt_0" "a") None (kv_db (kv_ex_state ["a"])) |>.

Theorem repair_retry_writes_nothing :
  exists r, (repair_attempt "bkt_0" 1 true zero_ListIndexRepairResult repair_ex_lost).1 = Ok r /\
    repair_attempt "bkt_0" 1 true r repair_ex_lost = (Ok r, repair_ex_lost) /\ lirr_RepairedObjectListEntries r = 1 /\
    index_entry (kv_db repair_ex_lost !! ObjectHeadKey "bkt_0" "a") <> kv_db repair_ex_lost !! ListObjectKey "bkt_0" "a".
Proof. exists (mkListIndexRepairResult 1 1 1 0 1 0 0 0 0 0 0 0). split_and!; try (vm_compute; reflexivity). vm_compute. discriminate. Qed.
