(* ===== verification/Policy.v ===== *)
(** * Policy: authorization decisions

    [src/internal/auth/auth.go] and [src/internal/auth/policy.go], and the policy
    simulation of [src/internal/iam/iam.go]. A policy document is read from its JSON
    value; the text of JSON is the decoder's business. Case folding is that of ASCII. *)

From S2P Require Import Prelude GoLib GoText StorageTypes.
From Stdlib Require Import Ascii.
Open Scope string_scope.
Open Scope Z_scope.

(** ** Principals and decisions *)

Record Principal := mkPrincipal {
  p_TenantID : string;
  p_AccessKeyID : string;
  p_DisplayName : string;
  p_Subject : string;
  p_Groups : list string;
  p_Roles : list string;
  p_SessionID : string;
  p_ExternalIssuer : string;
  p_PolicyVersion : string;
  p_SourceIdentity : string;
  p_Root : bool;
  p_Permissions : list string
}.
#[export] Instance eta_Principal : RecordEta Principal := fun r =>
  mkPrincipal (p_TenantID r) (p_AccessKeyID r) (p_DisplayName r) (p_Subject r) (p_Groups r) (p_Roles r) (p_SessionID r)
    (p_ExternalIssuer r) (p_PolicyVersion r) (p_SourceIdentity r) (p_Root r) (p_Permissions r).
Definition zero_Principal : Principal := mkPrincipal "" "" "" "" [] [] "" "" "" "" false [].

Record PolicyDecision := mkPolicyDecision {
  dec_Allowed : bool;
  dec_Source : string;
  dec_Reason : string;
  dec_Action : string;
  dec_Resource : string;
  dec_StatementSid : string;
  dec_Principal : Principal;
  dec_PolicyVersion : string
}.

Definition ActionBypassGovernanceRetention : string := "s3:BypassGovernanceRetention".

Definition actionMatches (permission action : string) : bool :=
  let permission := TrimSpace permission in
  if permission =s "" then false
  else if permission =s "*" then true
  else if EqualFold permission action then true
  else if HasSuffix permission "*" then HasPrefix (ToLower action) (ToLower (TrimSuffix permission "*"))
  else false.

Definition EvaluatePrincipalAction (principal : Principal) (action resource : string) : PolicyDecision :=
  let decide allowed source reason action :=
    mkPolicyDecision allowed source reason action (TrimSpace resource) "" principal (p_PolicyVersion principal) in
  if p_Root principal then decide true "root_principal" "root principal allows all actions" (TrimSpace action)
  else
    let action := TrimSpace action in
    if action =s "" then decide false "principal_permissions" "empty action" ""
    else if existsb (fun permission => actionMatches permission action) (p_Permissions principal)
    then decide true "principal_permissions" "permission matched" action
    else decide false "principal_permissions" "no matching permission" action.

Definition AllowsAction (principal : Principal) (action : string) : bool :=
  dec_Allowed (EvaluatePrincipalAction principal action "").

(** ** Policy documents *)

Definition compactStrings (values : list string) : list string :=
  List.filter (fun value => negb (value =s "")) (map TrimSpace values).

Definition principalMatchCandidates (principal : Principal) : list string :=
  compactStrings ([p_AccessKeyID principal; p_TenantID principal; p_DisplayName principal; p_Subject principal;
                   p_SessionID principal; p_ExternalIssuer principal; p_SourceIdentity principal]
                  ++ p_Groups principal ++ p_Roles principal).

Definition principalMatches (principals : list string) (principal : Principal) : bool :=
  let candidates := principalMatchCandidates principal in
  existsb (fun candidate =>
    let candidate := TrimSpace candidate in
    (candidate =s "*") || existsb (fun value => negb (candidate =s "") && (candidate =s value)) candidates) principals.

Definition matchesAny (patterns : list string) (value : string) : bool :=
  existsb (fun pattern => actionMatches pattern value) patterns.

Definition statement_matches (s : PolicyStatement) (principal : Principal) (action resource : string) : bool :=
  if negb (principalMatches (ps_Principals s) principal) then false
  else if negb (matchesAny (ps_Actions s) action) then false
  else matchesAny (ps_Resources s) resource.

(** The loop of [Decide]: the first matching denial ends it; [allowSid] is the last
    matching allowance. *)
Fixpoint decide_statements (statements : list PolicyStatement) (principal : Principal) (action resource : string)
    (allowSid : option string) : PolicyDecision :=
  let decision allowed reason sid :=
    mkPolicyDecision allowed "policy_document" reason (TrimSpace action) (TrimSpace resource) sid principal
      (p_PolicyVersion principal) in
  match statements with
  | [] => match allowSid with
          | Some sid => decision true "allow matched" sid
          | None => decision false "no matching allow" ""
          end
  | statement :: rest =>
      if negb (statement_matches statement principal action resource)
      then decide_statements rest principal action resource allowSid
      else if EqualFold (ps_Effect statement) "Deny" then decision false "explicit deny" (ps_Sid statement)
      else decide_statements rest principal action resource
             (if EqualFold (ps_Effect statement) "Allow" then Some (ps_Sid statement) else allowSid)
  end.

Definition Decide (p : PolicyDocument) (principal : Principal) (action resource : string) : PolicyDecision :=
  decide_statements (pd_Statements p) principal action resource None.

Definition Allows (p : PolicyDocument) (principal : Principal) (action resource : string) : bool :=
  dec_Allowed (Decide p principal action resource).

(** ** Reading a document *)

(** A JSON value; the members of an object in the order they are visited. *)
#[warnings="-register-all"]
Inductive json :=
| JNull
| JBool (b : bool)
| JNumber (text : string)
| JString (s : string)
| JArray (values : list json)
| JObject (members : list (string * json)).

(** [json.Unmarshal] into a string, and into a slice of strings; null leaves the zero value. *)
Definition unmarshal_string (v : json) : option string :=
  match v with JString s => Some s | JNull => Some "" | _ => None end.
Definition unmarshal_strings (v : json) : option (list string) :=
  match v with JArray values => mapM unmarshal_string values | JNull => Some [] | _ => None end.

(** A field of a struct: member names are matched without case, the last one counts. *)
Definition json_field (name : string) (members : list (string * json)) : option json :=
  snd <$> last (List.filter (fun m => EqualFold m.1 name) members).

Definition parseStringOrStringSlice (raw : option json) : option (list string) :=
  match raw with
  | None => None
  | Some v =>
      match unmarshal_string v with
      | Some single => Some (compactStrings [single])
      | None =>
          many ← unmarshal_strings v;
          let values := compactStrings many in
          if (length values =? 0)%nat then None else Some values
      end
  end.

Fixpoint principal_members (members : list (string * json)) : option (list string) :=
  match members with
  | [] => Some []
  | (_, value) :: rest =>
      values ← parseStringOrStringSlice (Some value);
      more ← principal_members rest;
      Some (values ++ more)%list
  end.

(** Every member of a principal object counts, under whatever name. *)
Definition parsePrincipalValues (raw : option json) : option (list string) :=
  match raw with
  | None => None
  | Some v =>
      match parseStringOrStringSlice raw with
      | Some values => Some values
      | None => match v with JObject members => compactStrings <$> principal_members members | _ => None end
      end
  end.

Definition canonicalEffect (effect : string) : string := if EqualFold effect "Deny" then "Deny" else "Allow".

Record rawPolicyStatement := mkRawPolicyStatement {
  raw_Sid : string;
  raw_Effect : string;
  raw_Principal : option json;
  raw_Action : option json;
  raw_Resource : option json
}.

(** A member of type string that is absent is empty; one of another type is an error. *)
Definition string_field (name : string) (members : list (string * json)) : option string :=
  match json_field name members with None => Some "" | Some v => unmarshal_string v end.

Definition unmarshal_statement (v : json) : option rawPolicyStatement :=
  match v with
  | JNull => Some (mkRawPolicyStatement "" "" None None None)
  | JObject members =>
      sid ← string_field "Sid" members;
      effect ← string_field "Effect" members;
      Some (mkRawPolicyStatement sid effect (json_field "Principal" members) (json_field "Action" members)
              (json_field "Resource" members))
  | _ => None
  end.

Definition parseRawStatements (raw : option json) : option (list rawPolicyStatement) :=
  match raw with
  | None => None
  | Some v =>
      match (match v with JArray values => mapM unmarshal_statement values | JNull => Some [] | _ => None end) with
      | Some statements => Some statements
      | None => statement ← unmarshal_statement v; Some [statement]
      end
  end.

Definition normalize_statement (r : rawPolicyStatement) : option PolicyStatement :=
  let effect := TrimSpace (raw_Effect r) in
  if negb (EqualFold effect "Allow") && negb (EqualFold effect "Deny") then None
  else
    principals ← parsePrincipalValues (raw_Principal r);
    if (length principals =? 0)%nat then None
    else
      actions ← parseStringOrStringSlice (raw_Action r);
      resources ← parseStringOrStringSlice (raw_Resource r);
      Some (mkPolicyStatement (raw_Sid r) (canonicalEffect effect) principals actions resources).

Definition ParsePolicyDocument (v : json) : option PolicyDocument :=
  '(version, raw) ← match v with
                    | JObject members => version ← string_field "Version" members; Some (version, json_field "Statement" members)
                    | JNull => Some ("", None)
                    | _ => None
                    end;
  raws ← parseRawStatements raw;
  statements ← mapM normalize_statement raws;
  if (length statements =? 0)%nat then None else Some (mkPolicyDocument version statements).

(** ** Simulation *)

Record PolicySimulationRequest := mkPolicySimulationRequest {
  psr_Principal : Principal;
  psr_Action : string;
  psr_Resource : string;
  psr_Policy : option PolicyDocument
}.

Record PolicySimulationResult := mkPolicySimulationResult {
  sim_SchemaVersion : string;
  sim_GeneratedAt : string;
  sim_Action : string;
  sim_Resource : string;
  sim_Allowed : bool;
  sim_Decision : PolicyDecision;
  sim_Engine : string
}.

Definition SimulatePolicy (generatedAt : string) (req : PolicySimulationRequest) : option PolicySimulationResult :=
  let action := TrimSpace (psr_Action req) in
  if action =s "" then None
  else
    let resource := TrimSpace (psr_Resource req) in
    if resource =s "" then None
    else
      let '(decision, engine) :=
        match psr_Policy req with
        | None => (EvaluatePrincipalAction (psr_Principal req) action resource, "principal_permissions")
        | Some policy => (Decide policy (psr_Principal req) action resource, "policy_document")
        end in
      Some (mkPolicySimulationResult "namros.iam.policy_simulation.v1" generatedAt action resource (dec_Allowed decision)
              decision engine).

(** ** Denials win *)

Definition denies (s : PolicyStatement) : bool := EqualFold (ps_Effect s) "Deny".
Definition allows (s : PolicyStatement) : bool := EqualFold (ps_Effect s) "Allow".

Lemma allow_not_deny s : allows s = true -> denies s = false.
Proof.
  unfold allows, denies, EqualFold. rewrite String.eqb_eq. intros ->. reflexivity.
Qed.

(** The verdict as a test of all statements. *)
Lemma decide_statements_allowed l principal action resource sid :
  dec_Allowed (decide_statements l principal action resource sid) =
  (match sid with Some _ => true | None => false end
   || existsb (fun s => statement_matches s principal action resource && allows s) l)
  && forallb (fun s => negb (statement_matches s principal action resource && denies s)) l.
Proof.
  revert sid. induction l as [|s l IH]; intros sid; cbn [decide_statements existsb forallb].
  - by destruct sid.
  - fold (allows s) (denies s). pose proof (allow_not_deny s) as Hn.
    destruct (statement_matches s principal action resource); cbn [andb negb orb]; [|apply IH].
    destruct (denies s); cbn [negb andb]; [by rewrite andb_false_r|]. rewrite IH.
    destruct (allows s), sid; cbn [orb]; done.
Qed.

Lemma Allows_spec p principal action resource :
  Allows p principal action resource = true <->
  (exists s, s ∈ pd_Statements p /\ statement_matches s principal action resource = true /\ allows s = true) /\
  (forall s, s ∈ pd_Statements p -> statement_matches s principal action resource = true -> denies s = false).
Proof.
  unfold Allows, Decide. rewrite decide_statements_allowed. cbn [orb]. rewrite andb_true_iff, existsb_exists, forallb_forall.
  setoid_rewrite list_elem_of_In. setoid_rewrite andb_true_iff. split; intros [Hex Hno]; (split; [exact Hex|]); intros s Hs.
  - intros Hm. specialize (Hno s Hs). by rewrite Hm, negb_true_iff in Hno.
  - destruct (statement_matches s principal action resource) eqn:Hm; [|done]. by rewrite (Hno s Hs Hm).
Qed.

(** C14: An explicit denial wins, whatever the order of the statements. A policy
    document allows a principal an action on a resource exactly when some statement that
    matches allows it and no statement that matches denies it; so reordering the
    statements never changes the verdict, adding a denial never grants, and an empty document
    grants nothing. *)
Theorem explicit_deny_wins (p p' : PolicyDocument) (principal : Principal) (action resource : string) :
  (Allows p principal action resource = true <->
   (exists s, s ∈ pd_Statements p /\ statement_matches s principal action resource = true /\ allows s = true) /\
   (forall s, s ∈ pd_Statements p -> statement_matches s principal action resource = true -> denies s = false)) /\
  (pd_Statements p ≡ₚ pd_Statements p' -> Allows p principal action resource = Allows p' principal action resource) /\
  (forall s, s ∈ pd_Statements p -> statement_matches s principal action resource = true -> denies s = true ->
   Allows p principal action resource = false).
Proof.
  split_and!; [apply Allows_spec| |].
  - intros Hperm. apply eq_true_iff_eq. rewrite !Allows_spec. by setoid_rewrite Hperm.
  - intros s Hs Hm Hd. destruct (Allows p principal action resource) eqn:Ha; [|done].
    apply Allows_spec in Ha as [_ Hno]. rewrite (Hno s Hs Hm) in Hd. done.
Qed.
