(* ===== verification/Chunked.v ===== *)
(** * Chunked: the decoder of aws-chunked request bodies

    [src/internal/gateway/aws_chunked.go]: the reader that turns the framed body of a
    streaming upload into its payload. The body is the text it yields before its end;
    a call of [Read] with a buffer of any size is one transition of the reader's
    state. The encoder of the format is written down on its own, and reading undoes
    it; a body that was cut short never reads to its end. *)

From S2P Require Import Prelude GoLib GoText.
From Stdlib Require Import Ascii.
Open Scope string_scope.
Open Scope Z_scope.

Inductive ChunkErr :=
| InvalidDecodedLength
| TruncatedChunkData
| InvalidChunkSize
| TruncatedChunkLine
| ChunkLineMissingCRLF
| TruncatedChunkTerminator
| ChunkDataMissingCRLF.

Definition CR : ascii := "013"%char.
Definition LF : ascii := "010"%char.
Definition CRLF : string := String CR (String LF "").

(** What a read returns beside its bytes. *)
Inductive status := Continue | EOF | Broken (e : ChunkErr).

Record awsChunkedReader := mkAwsChunkedReader {
  br : string;
  remain : Z;
  done : bool;
  needCRLF : bool;
  readError : option ChunkErr
}.
#[export] Instance eta_awsChunkedReader : RecordEta awsChunkedReader := fun r =>
  mkAwsChunkedReader (br r) (remain r) (done r) (needCRLF r) (readError r).

Definition newAWSChunkedReader (body : string) : awsChunkedReader := mkAwsChunkedReader body 0 false false None.

(** [bufio.Reader.ReadString('\n')]: the line with its end, and what follows. *)
Fixpoint ReadString (s : string) : option (string * string) :=
  match s with
  | "" => None
  | String c rest =>
      if Ascii.eqb c LF then Some (String c "", rest)
      else '(line, after) ← ReadString rest; Some (String c line, after)
  end.

Definition readLine (s : string) : outcome ChunkErr string * string :=
  match ReadString s with
  | None => (Fail TruncatedChunkLine, "")
  | Some (line, rest) =>
      if negb (HasSuffix line CRLF) then (Fail ChunkLineMissingCRLF, rest) else (Ok (TrimSuffix line CRLF), rest)
  end.

Definition nextChunkSize (s : string) : outcome ChunkErr Z * string :=
  match readLine s with
  | (Fail e, rest) => (Fail e, rest)
  | (Ok line, rest) =>
      let '(sizeText, _, _) := Cut ";" line in
      match ParseUint (TrimSpace sizeText) 16 with
      | Some size => (Ok size, rest)
      | None => (Fail InvalidChunkSize, rest)
      end
  end.

Definition consumeCRLF (s : string) : outcome ChunkErr unit * string :=
  match s with
  | "" => (Fail TruncatedChunkTerminator, "")
  | String cr "" => (Fail TruncatedChunkTerminator, "")
  | String cr (String lf rest) =>
      if negb (Ascii.eqb cr CR) || negb (Ascii.eqb lf LF) then (Fail ChunkDataMissingCRLF, rest) else (Ok tt, rest)
  end.

(** The loop over the trailer lines; each takes at least a byte of what is left. *)
Fixpoint consume_lines (fuel : nat) (s : string) : outcome ChunkErr unit * string :=
  match fuel with
  | O => (Fail TruncatedChunkLine, s)
  | S fuel' =>
      match readLine s with
      | (Fail e, rest) => (Fail e, rest)
      | (Ok line, rest) => if line =s "" then (Ok tt, rest) else consume_lines fuel' rest
      end
  end.
Definition consumeTrailers (s : string) : outcome ChunkErr unit * string := consume_lines (S (String.length s)) s.

Definition broken (e : ChunkErr) (r : awsChunkedReader) : string * status * awsChunkedReader :=
  ("", Broken e, r <| readError := Some e |>).

(** The part of [Read] after the chunk's size is known: [io.ReadFull] of the buffer,
    cut to what is left of the chunk. *)
Definition read_chunk (n : nat) (r : awsChunkedReader) : string * status * awsChunkedReader :=
  let want := if remain r <? Z.of_nat n then Z.to_nat (remain r) else n in
  let data := take_str want (br r) in
  let r := r <| br := drop_str want (br r) |> <| remain := uint64 (remain r - Z.of_nat (String.length data)) |> in
  if (String.length data <? want)%nat then
    (data, Broken TruncatedChunkData, r <| readError := Some TruncatedChunkData |>)
  else (data, Continue, if remain r =? 0 then r <| needCRLF := true |> else r).

Definition read_payload (n : nat) (r : awsChunkedReader) : string * status * awsChunkedReader :=
  if remain r =? 0 then
    match nextChunkSize (br r) with
    | (Fail e, rest) => broken e (r <| br := rest |>)
    | (Ok size, rest) =>
        let r := r <| br := rest |> in
        if size =? 0 then
          let r := r <| done := true |> in
          match consumeTrailers (br r) with
          | (Fail e, rest) => broken e (r <| br := rest |>)
          | (Ok tt, rest) => ("", EOF, r <| br := rest |>)
          end
        else read_chunk n (r <| remain := size |>)
    end
  else read_chunk n r.

(** [Read(p)] with [n = len(p)]: the bytes written to the buffer, what is returned
    beside their number, and the reader afterwards. *)
Definition Read (n : nat) (r : awsChunkedReader) : string * status * awsChunkedReader :=
  match readError r with
  | Some e => ("", Broken e, r)
  | None =>
      if (n =? 0)%nat then ("", Continue, r)
      else if done r then ("", EOF, r)
      else if needCRLF r then
        match consumeCRLF (br r) with
        | (Fail e, rest) => broken e (r <| br := rest |>)
        | (Ok tt, rest) => read_payload n (r <| br := rest |> <| needCRLF := false |>)
        end
      else read_payload n r
  end.

(** A client that reads to the end, the i-th time into a buffer of [bufs i] bytes:
    the payload, how it ended, and the reader; [None] when [fuel] reads were not enough. *)
Definition read_on (again : awsChunkedReader -> option (string * option ChunkErr * awsChunkedReader))
    (out : string * status * awsChunkedReader) : option (string * option ChunkErr * awsChunkedReader) :=
  match out with
  | (data, Continue, r) => '(rest, e, r') ← again r; Some (data +:+ rest, e, r')
  | (data, EOF, r) => Some (data, None, r)
  | (data, Broken e, r) => Some (data, Some e, r)
  end.
Fixpoint ReadAll (fuel : nat) (bufs : nat -> nat) (i : nat) (r : awsChunkedReader)
    : option (string * option ChunkErr * awsChunkedReader) :=
  match fuel with
  | O => None
  | S fuel' => read_on (ReadAll fuel' bufs (S i)) (Read (bufs i) r)
  end.

(** ** The format *)

(** A chunk: its data and the extension of its size line. *)
Record chunk := mkChunk { ch_extension : string; ch_data : string }.

Definition line_of (text : string) : string := text +:+ CRLF.
Definition encode_chunk (c : chunk) : string :=
  line_of (FormatHex (N.of_nat (String.length (ch_data c))) +:+ ch_extension c) +:+ ch_data c +:+ CRLF.

(** A body: the chunks, the last line with its extension, the trailers. *)
Record body := mkBody { bd_chunks : list chunk; bd_last : string; bd_trailers : list string }.

Fixpoint concat_str (l : list string) : string := match l with [] => "" | x :: l' => x +:+ concat_str l' end.
Definition encode (b : body) : string :=
  concat_str (map encode_chunk (bd_chunks b)) +:+ line_of ("0" +:+ bd_last b) +:+
  concat_str (map line_of (bd_trailers b)) +:+ CRLF.
Definition payload (b : body) : string := concat_str (map ch_data (bd_chunks b)).

(** An extension is empty or begins with a semicolon, and holds no line feed; a
    chunk has data, of a length that is a number of 64 bits; a trailer is not empty. *)
Definition no_line_feed (s : string) : Prop := contains_byte LF s = false.
Definition extension_ok (s : string) : Prop := no_line_feed s /\ (s = "" \/ exists t, s = String ";" t).
Definition chunk_ok (c : chunk) : Prop :=
  extension_ok (ch_extension c) /\ ch_data c <> "" /\ (N.of_nat (String.length (ch_data c)) < 2 ^ 64)%N.
Definition body_ok (b : body) : Prop :=
  Forall chunk_ok (bd_chunks b) /\ extension_ok (bd_last b) /\ Forall (fun t => no_line_feed t /\ t <> "") (bd_trailers b).

(** ** Lines *)

Lemma contains_cons x c s : contains_byte x (String c s) = Ascii.eqb x c || contains_byte x s.
Proof. reflexivity. Qed.

Lemma contains_app c a b : contains_byte c (a +:+ b) = contains_byte c a || contains_byte c b.
Proof. unfold contains_byte. induction a as [|x a IH]; str_simpl; [done|]. by rewrite IH, orb_assoc. Qed.

Lemma ReadString_line t rest : no_line_feed t -> ReadString (line_of t +:+ rest) = Some (line_of t, rest).
Proof.
  unfold no_line_feed, line_of. induction t as [|c t IH]; [done|].
  rewrite contains_cons. intros [Hc Ht]%orb_false_iff. rewrite !str_app_cons. cbn [ReadString].
  by rewrite Ascii.eqb_sym, Hc, IH.
Qed.

Lemma readLine_line t rest : no_line_feed t -> readLine (line_of t +:+ rest) = (Ok t, rest).
Proof.
  intros Ht. unfold readLine. rewrite ReadString_line by done. unfold line_of. by rewrite HasSuffix_app, TrimSuffix_app.
Qed.

(** ** Size lines *)

Definition hexadecimal (c : ascii) : bool := byte_in 48 57 c || byte_in 97 102 c.

Lemma hex_digit_hex n : (n < 16)%N -> hexadecimal (hex_digit n) = true.
Proof. revert n. apply below_16. repeat constructor. Qed.

Lemma hex_digits_hex fuel n : Forall (fun c => hexadecimal c = true) (hex_digits fuel n).
Proof.
  revert n. induction fuel as [|fuel IH]; intros n; cbn [hex_digits].
  { constructor; [|constructor]. apply hex_digit_hex, N.mod_lt. lia. }
  destruct (N.ltb_spec n 16); [constructor; [by apply hex_digit_hex | constructor]|].
  apply Forall_app. split; [apply IH|]. constructor; [apply hex_digit_hex, N.mod_lt; lia | constructor].
Qed.

Lemma hex_byte_not n c : hexadecimal c = true -> (n < 48 \/ 57 < n < 97 \/ 102 < n)%N -> byte_is n c = false.
Proof.
  unfold hexadecimal, byte_in, byte_is. rewrite orb_true_iff, !andb_true_iff, !N.leb_le. intros Hc Hn. apply N.eqb_neq. lia.
Qed.

Lemma hex_not_space c : hexadecimal c = true -> space1 c = false.
Proof.
  unfold hexadecimal, space1, byte_in, byte_is. rewrite orb_true_iff, !andb_true_iff, !N.leb_le. intros Hc.
  apply orb_false_iff. rewrite N.eqb_neq, andb_false_iff, !N.leb_gt. lia.
Qed.

Lemma trim_front_hex p2 p3 l :
  Forall (fun c => hexadecimal c = true) l ->
  (forall c d, hexadecimal c = true -> p2 c d = false) -> (forall c d e, hexadecimal c = true -> p3 c d e = false) ->
  trim_front p2 p3 l = l.
Proof.
  intros Hl H2 H3. destruct Hl as [|c l Hc Hl]; [done|]. cbn [trim_front]. rewrite (hex_not_space c Hc).
  destruct l as [|d l]; [done|]. rewrite H2 by done. destruct l as [|e l]; [done|]. by rewrite H3.
Qed.

Lemma TrimSpace_hex n : TrimSpace (FormatHex n) = FormatHex n.
Proof.
  unfold TrimSpace, FormatHex, trim_left, trim_right. rewrite String.list_ascii_of_string_of_list_ascii.
  pose proof (hex_digits_hex 16 n) as Hl.
  assert (forall m c, hexadecimal c = true -> (102 < m)%N -> byte_is m c = false) as Hb.
  { intros m c Hc Hm. apply hex_byte_not; [done | lia]. }
  rewrite (trim_front_hex space2 space3), (trim_front_hex _ _ (reverse _)), reverse_involutive; [done| | | |done| |].
  - by apply Forall_reverse.
  - intros c d Hc. unfold space2. rewrite (Hb 133%N), (Hb 160%N) by done. by rewrite andb_false_r.
  - intros c d e Hc. unfold space3. rewrite !(Hb _ c) by done.
    unfold byte_in. assert ((128 <=? N_of_ascii c)%N = false) as ->; [|by rewrite !andb_false_r].
    unfold hexadecimal, byte_in in Hc. rewrite orb_true_iff, !andb_true_iff, !N.leb_le in Hc. apply N.leb_gt. lia.
  - intros c d Hc. unfold space2. by rewrite (Hb 194%N).
  - intros c d e Hc. unfold space3. by rewrite !(Hb _ c).
Qed.

Lemma hex_free n c : (c < 48 \/ 57 < c < 97)%N -> contains_byte (ascii_of_N c) (FormatHex n) = false.
Proof.
  intros Hc. unfold contains_byte, FormatHex. rewrite String.list_ascii_of_string_of_list_ascii.
  induction (hex_digits_hex 16 n) as [|d l Hd _ IH]; [done|]. cbn [existsb]. rewrite IH, orb_false_r.
  apply Ascii.eqb_neq. intros Heq. apply (f_equal N_of_ascii) in Heq. rewrite N_ascii_embedding in Heq by lia.
  unfold hexadecimal, byte_in in Hd. rewrite orb_true_iff, !andb_true_iff, !N.leb_le in Hd. lia.
Qed.

Lemma Cut_before sep a t : contains_byte sep a = false -> Cut sep (a +:+ String sep t) = (a, t, true).
Proof.
  induction a as [|c a IH]; [intros _; rewrite str_nil_app; cbn [Cut]; by rewrite Ascii.eqb_refl|].
  rewrite contains_cons. intros [Hc Ha]%orb_false_iff. rewrite str_app_cons. cbn [Cut].
  by rewrite Ascii.eqb_sym, Hc, (IH Ha).
Qed.

Lemma Cut_none sep a : contains_byte sep a = false -> Cut sep a = (a, "", false).
Proof.
  induction a as [|c a IH]; [done|]. rewrite contains_cons. intros [Hc Ha]%orb_false_iff. cbn [Cut].
  by rewrite Ascii.eqb_sym, Hc, (IH Ha).
Qed.

Lemma nextChunkSize_line n ext rest :
  extension_ok ext -> (n < 2 ^ 64)%N -> nextChunkSize (line_of (FormatHex n +:+ ext) +:+ rest) = (Ok (Z.of_N n), rest).
Proof.
  intros [Hlf Hext] Hn. unfold nextChunkSize. rewrite readLine_line.
  - assert ((Cut ";" (FormatHex n +:+ ext)).1.1 = FormatHex n) as Hcut.
    { destruct Hext as [->|[t ->]].
      - rewrite str_app_nil_r, Cut_none; [done | apply (hex_free n 59); lia].
      - rewrite Cut_before; [done | apply (hex_free n 59); lia]. }
    destruct (Cut _ _) as [[sizeText after] found]. simpl in Hcut. subst sizeText.
    by rewrite TrimSpace_hex, ParseUint_FormatHex.
  - unfold no_line_feed in *. rewrite contains_app, Hlf, orb_false_r. apply (hex_free n 10). lia.
Qed.

(** ** Trailers *)

Lemma consume_lines_spec fuel trailers rest :
  Forall (fun t => no_line_feed t /\ t <> "") trailers -> (length trailers < fuel)%nat ->
  consume_lines fuel (concat_str (map line_of trailers) +:+ CRLF +:+ rest) = (Ok tt, rest).
Proof.
  intros Hall. revert fuel. induction Hall as [|t ts [Ht Hne] _ IH]; intros [|fuel] Hf; cbn [map concat_str length] in *; try lia.
  - cbn [consume_lines]. rewrite str_nil_app. change (CRLF +:+ rest) with (line_of "" +:+ rest). by rewrite readLine_line.
  - cbn [consume_lines]. rewrite <- str_app_assoc, readLine_line by done. rewrite (proj2 (String.eqb_neq t "") Hne). apply IH. lia.
Qed.

Lemma length_lines trailers : (length trailers <= String.length (concat_str (map line_of trailers)))%nat.
Proof.
  induction trailers as [|t ts IH]; cbn [map concat_str length]; [lia|].
  change (line_of t) with (t +:+ CRLF). rewrite !str_length_app. change (String.length CRLF) with 2%nat. lia.
Qed.

(** ** Reading undoes encoding *)

Lemma read_in_chunk n d x :
  (0 < n)%nat -> d <> "" -> (N.of_nat (String.length d) < 2 ^ 64)%N ->
  exists d1 d2, d = d1 +:+ d2 /\ d1 <> "" /\
    read_chunk n (mkAwsChunkedReader (d +:+ x) (Z.of_nat (String.length d)) false false None) =
    (d1, Continue, mkAwsChunkedReader (d2 +:+ x) (Z.of_nat (String.length d2)) false (d2 =s "") None).
Proof.
  intros Hn Hd Hlen. set (want := if Z.of_nat (String.length d) <? Z.of_nat n then String.length d else n).
  exists (take_str want d), (drop_str want d). assert (want <= String.length d)%nat as Hw.
  { unfold want. destruct (Z.ltb_spec (Z.of_nat (String.length d)) (Z.of_nat n)); lia. }
  assert (0 < want)%nat as Hpos.
  { unfold want. destruct (Z.ltb_spec (Z.of_nat (String.length d)) (Z.of_nat n)); [destruct d; simpl; [done|lia] | done]. }
  assert (String.length (take_str want d) = want) as Htl by (rewrite length_take_str; lia).
  split; [by rewrite str_take_drop|]. split; [intros He; rewrite He in Htl; simpl in Htl; lia|].
  assert (take_str want (d +:+ x) = take_str want d) as Ht by (by apply take_str_app_le).
  assert (drop_str want (d +:+ x) = drop_str want d +:+ x) as Hdr by (by apply drop_str_app_le).
  unfold read_chunk. cbn [br remain]. replace (if Z.of_nat (String.length d) <? Z.of_nat n
    then Z.to_nat (Z.of_nat (String.length d)) else n) with want by (unfold want; case_match; lia).
  rewrite Ht, Hdr, Htl, Nat.ltb_irrefl. field_simpl.
  replace (uint64 (Z.of_nat (String.length d) - Z.of_nat want)) with (Z.of_nat (String.length (drop_str want d))).
  2:{ rewrite length_drop_str. unfold uint64. rewrite Z.mod_small; lia. }
  destruct (drop_str want d) as [|c s] eqn:Hrest; [reflexivity|]. simpl String.length. by destruct (Z.eqb_spec (Z.of_nat (S (String.length s))) 0); [lia|].
Qed.

Section RoundTrip.
Context (last : string) (trailers : list string) (rest : string).
Context (last_ok : extension_ok last) (trailers_ok : Forall (fun t => no_line_feed t /\ t <> "") trailers).

(** What is left of the body when these chunks are still to come. *)
Definition to_come (cs : list chunk) : string := encode (mkBody cs last trailers) +:+ rest.

Lemma to_come_cons c cs :
  to_come (c :: cs) = line_of (FormatHex (N.of_nat (String.length (ch_data c))) +:+ ch_extension c) +:+
                      (ch_data c +:+ (CRLF +:+ to_come cs)).
Proof.
  unfold to_come, encode. cbn [bd_chunks bd_last bd_trailers map concat_str]. unfold encode_chunk. by rewrite !str_app_assoc.
Qed.

Lemma read_first n c cs :
  chunk_ok c ->
  read_payload n (mkAwsChunkedReader (to_come (c :: cs)) 0 false false None) =
  read_chunk n (mkAwsChunkedReader (ch_data c +:+ (CRLF +:+ to_come cs)) (Z.of_nat (String.length (ch_data c))) false false None).
Proof.
  intros (Hext & Hne & Hlen). unfold read_payload. cbn [remain br]. rewrite to_come_cons.
  change (0 =? 0) with true. cbv iota. rewrite nextChunkSize_line by done. field_simpl.
  rewrite nat_N_Z. destruct (Z.eqb_spec (Z.of_nat (String.length (ch_data c))) 0) as [H0|_]; [|done].
  destruct (ch_data c); [done | simpl in H0; lia].
Qed.

Lemma read_last n :
  read_payload n (mkAwsChunkedReader (to_come []) 0 false false None) = ("", EOF, mkAwsChunkedReader rest 0 true false None).
Proof.
  unfold read_payload. cbn [remain br]. unfold to_come, encode. cbn [bd_chunks bd_last bd_trailers map concat_str].
  rewrite str_nil_app, <- !str_app_assoc. change ("0" +:+ last) with (FormatHex 0 +:+ last).
  change (0 =? 0) with true. cbv iota. rewrite nextChunkSize_line by done. field_simpl. cbv iota.
  unfold consumeTrailers. change (Z.of_N 0 =? 0) with true. cbv iota.
  rewrite consume_lines_spec; [done|done|]. rewrite !str_length_app. pose proof (length_lines trailers). lia.
Qed.

Definition positive (bufs : nat -> nat) : Prop := forall i, (0 < bufs i)%nat.

(** The reader between two calls: with [d] of a chunk and then [cs] to come. *)
Definition inside (d : string) (cs : list chunk) : awsChunkedReader :=
  mkAwsChunkedReader (d +:+ (CRLF +:+ to_come cs)) (Z.of_nat (String.length d)) false (d =s "") None.
Definition finished : awsChunkedReader := mkAwsChunkedReader rest 0 true false None.
Abbreviation left_of cs := (payload (mkBody cs last trailers)).

Lemma left_of_cons c cs : left_of (c :: cs) = ch_data c +:+ left_of cs.
Proof. reflexivity. Qed.

Lemma read_on_chunk (again : awsChunkedReader -> option (string * option ChunkErr * awsChunkedReader)) n d cs :
  (0 < n)%nat -> d <> "" -> (N.of_nat (String.length d) < 2 ^ 64)%N ->
  (forall d', (String.length d' < String.length d)%nat -> again (inside d' cs) = Some (d' +:+ left_of cs, None, finished)) ->
  read_on again (read_chunk n (mkAwsChunkedReader (d +:+ (CRLF +:+ to_come cs)) (Z.of_nat (String.length d)) false false None)) =
  Some (d +:+ left_of cs, None, finished).
Proof.
  intros Hn Hd Hlen Hagain. destruct (read_in_chunk n d (CRLF +:+ to_come cs) Hn Hd Hlen) as (d1 & d2 & -> & Hd1 & ->).
  cbn [read_on]. fold (inside d2 cs). rewrite Hagain; [by rewrite <- str_app_assoc|].
  rewrite str_length_app. destruct d1; [done | simpl; lia].
Qed.

Lemma read_on_start (again : awsChunkedReader -> option (string * option ChunkErr * awsChunkedReader)) n cs :
  (0 < n)%nat -> Forall chunk_ok cs ->
  (forall d c cs', cs = c :: cs' -> (String.length d < String.length (ch_data c))%nat ->
     again (inside d cs') = Some (d +:+ left_of cs', None, finished)) ->
  read_on again (read_payload n (mkAwsChunkedReader (to_come cs) 0 false false None)) = Some (left_of cs, None, finished).
Proof.
  intros Hn Hcs Hagain. destruct Hcs as [|c cs Hc Hcs]; [by rewrite read_last|].
  rewrite read_first by done. destruct Hc as (_ & Hne & Hlen). apply read_on_chunk; [done..|]. eauto.
Qed.

Lemma ReadAll_inside bufs : positive bufs -> forall fuel i d cs,
  Forall chunk_ok cs -> (N.of_nat (String.length d) < 2 ^ 64)%N ->
  (String.length d + String.length (left_of cs) < fuel)%nat ->
  ReadAll fuel bufs i (inside d cs) = Some (d +:+ left_of cs, None, finished).
Proof.
  intros Hbufs. induction fuel as [|fuel IH]; intros i d cs Hcs Hd Hf; [lia|]. cbn [ReadAll].
  unfold Read. cbn [readError inside]. rewrite (proj2 (Nat.eqb_neq _ _)) by (specialize (Hbufs i); lia). cbn [done inside needCRLF].
  destruct (String.eqb_spec d "") as [->|Hne].
  - cbn [br inside]. rewrite str_nil_app. change (CRLF +:+ to_come cs) with (String CR (String LF (to_come cs))).
    cbn [consumeCRLF]. rewrite !Ascii.eqb_refl. cbv [negb orb]. field_simpl. apply read_on_start; [apply Hbufs | done|].
    intros d c cs' -> Hlen. inversion Hcs as [|? ? (_ & _ & Hl) Hcs']; subst. apply IH; [done | lia|].
    rewrite left_of_cons, str_length_app in Hf. lia.
  - unfold read_payload. cbn [remain inside]. destruct (Z.eqb_spec (Z.of_nat (String.length d)) 0); [destruct d; [done | simpl in *; lia]|].
    unfold inside. rewrite (proj2 (String.eqb_neq d "") Hne). apply read_on_chunk; [apply Hbufs | done | done|].
    intros d' Hlen. apply IH; [done | lia | lia].
Qed.

Lemma ReadAll_start bufs fuel i cs :
  positive bufs -> Forall chunk_ok cs -> (String.length (left_of cs) < fuel)%nat ->
  ReadAll fuel bufs i (newAWSChunkedReader (to_come cs)) = Some (left_of cs, None, finished).
Proof.
  intros Hbufs Hcs Hf. destruct fuel as [|fuel]; [lia|]. cbn [ReadAll]. unfold Read, newAWSChunkedReader. cbn [readError done needCRLF].
  rewrite (proj2 (Nat.eqb_neq _ _)) by (specialize (Hbufs i); lia). apply read_on_start; [apply Hbufs | done|].
  intros d c cs' -> Hlen. inversion Hcs as [|? ? (_ & _ & Hl) Hcs']; subst. apply ReadAll_inside; [done | done | lia|].
  rewrite left_of_cons, str_length_app in Hf. lia.
Qed.

End RoundTrip.

(** ** More input does not change what was read *)

Lemma ReadString_app s q line rest : ReadString s = Some (line, rest) -> ReadString (s +:+ q) = Some (line, rest +:+ q).
Proof.
  revert line rest. induction s as [|c s IH]; intros line rest; cbn [ReadString]; [done|].
  rewrite str_app_cons. cbn [ReadString]. destruct (Ascii.eqb c LF); [intros; by simplify_eq|].
  destruct (ReadString s) as [[l r]|]; [|done]. cbn [mbind option_bind]. intros; simplify_eq. by rewrite (IH _ _ eq_refl).
Qed.

Lemma readLine_app s q line rest : readLine s = (Ok line, rest) -> readLine (s +:+ q) = (Ok line, rest +:+ q).
Proof.
  unfold readLine. destruct (ReadString s) as [[l r]|] eqn:Hs; [|done]. rewrite (ReadString_app _ q _ _ Hs).
  destruct (negb _); [done|]. intros; by simplify_eq.
Qed.

Lemma nextChunkSize_app s q size rest : nextChunkSize s = (Ok size, rest) -> nextChunkSize (s +:+ q) = (Ok size, rest +:+ q).
Proof.
  unfold nextChunkSize. destruct (readLine s) as [[line|e] r] eqn:Hs; [|done]. rewrite (readLine_app _ q _ _ Hs).
  destruct (Cut _ _) as [[sizeText ?] ?]. destruct (ParseUint _ _); intros; by simplify_eq.
Qed.

Lemma consumeCRLF_app s q rest : consumeCRLF s = (Ok tt, rest) -> consumeCRLF (s +:+ q) = (Ok tt, rest +:+ q).
Proof.
  destruct s as [|a [|b s]]; [done..|]. rewrite !str_app_cons. cbn [consumeCRLF]. destruct (_ || _); intros; by simplify_eq.
Qed.

Lemma consume_lines_app fuel fuel' s q rest :
  (fuel <= fuel')%nat -> consume_lines fuel s = (Ok tt, rest) -> consume_lines fuel' (s +:+ q) = (Ok tt, rest +:+ q).
Proof.
  revert fuel' s rest. induction fuel as [|fuel IH]; intros [|fuel'] s rest Hle; cbn [consume_lines]; try done; [lia|].
  destruct (readLine s) as [[line|e] r] eqn:Hs; [|done]. rewrite (readLine_app _ q _ _ Hs).
  destruct (line =s ""); [intros; by simplify_eq|]. apply IH. lia.
Qed.

Lemma consumeTrailers_app s q rest : consumeTrailers s = (Ok tt, rest) -> consumeTrailers (s +:+ q) = (Ok tt, rest +:+ q).
Proof. apply consume_lines_app. rewrite str_length_app. lia. Qed.

(** A reader with more input. *)
Definition extended (q : string) (r : awsChunkedReader) : awsChunkedReader := r <| br := br r +:+ q |>.

(** A read that is not broken off does the same with more input. *)
Definition unmoved (q : string) (f : awsChunkedReader -> string * status * awsChunkedReader) (r : awsChunkedReader) : Prop :=
  match f r with
  | (_, Broken _, _) => True
  | (data, st, r') => f (extended q r) = (data, st, extended q r')
  end.

Lemma read_chunk_eq n s rem dn nc err :
  read_chunk n (mkAwsChunkedReader s rem dn nc err) =
  let want := if rem <? Z.of_nat n then Z.to_nat rem else n in
  let data := take_str want s in
  let left := uint64 (rem - Z.of_nat (String.length data)) in
  if (String.length data <? want)%nat
  then (data, Broken TruncatedChunkData, mkAwsChunkedReader (drop_str want s) left dn nc (Some TruncatedChunkData))
  else (data, Continue, mkAwsChunkedReader (drop_str want s) left dn (if left =? 0 then true else nc) err).
Proof.
  unfold read_chunk. cbn [br remain]. cbv zeta. set (want := if rem <? Z.of_nat n then Z.to_nat rem else n).
  destruct (String.length (take_str want s) <? want)%nat; [done|].
  change (remain (_ <| remain := ?x |>)) with x. by destruct (uint64 _ =? 0).
Qed.

Lemma read_chunk_unmoved n q r : unmoved q (read_chunk n) r.
Proof.
  destruct r as [s rem dn nc err]. unfold unmoved. 
  change (extended q (mkAwsChunkedReader s rem dn nc err)) with (mkAwsChunkedReader (s +:+ q) rem dn nc err).
  rewrite !read_chunk_eq. cbv zeta. set (want := if rem <? Z.of_nat n then Z.to_nat rem else n).
  destruct (Nat.ltb_spec (String.length (take_str want s)) want) as [|Hge]; [exact I|]. rewrite length_take_str in Hge.
  rewrite take_str_app_le, drop_str_app_le by lia. rewrite (proj2 (Nat.ltb_ge _ _)) by (rewrite length_take_str; lia). done.
Qed.

Lemma read_payload_unmoved n q r : unmoved q (read_payload n) r.
Proof.
  unfold unmoved, read_payload. replace (remain (extended q r)) with (remain r) by done.
  destruct (remain r =? 0); [|apply (read_chunk_unmoved n q r)].
  destruct (nextChunkSize (br r)) as [[size|e] s] eqn:Hs; [|exact I].
  replace (br (extended q r)) with (br r +:+ q) by done. rewrite (nextChunkSize_app _ q _ _ Hs). destruct (size =? 0).
  - field_simpl. destruct (consumeTrailers s) as [[[]|e] s'] eqn:Ht; [|exact I]. by rewrite (consumeTrailers_app _ q _ Ht).
  - pose proof (read_chunk_unmoved n q (r <| br := s |> <| remain := size |>)) as Hu. exact Hu.
Qed.

Lemma Read_unmoved n q r : unmoved q (Read n) r.
Proof.
  unfold unmoved, Read. replace (readError (extended q r)) with (readError r) by done. destruct (readError r); [exact I|].
  destruct (n =? 0)%nat; [done|]. replace (done (extended q r)) with (done r) by done. destruct (done r); [done|].
  replace (needCRLF (extended q r)) with (needCRLF r) by done. destruct (needCRLF r); [|apply (read_payload_unmoved n q r)].
  destruct (consumeCRLF (br r)) as [[[]|e] s] eqn:Hc; [|exact I].
  replace (br (extended q r)) with (br r +:+ q) by done. rewrite (consumeCRLF_app _ q _ Hc).
  pose proof (read_payload_unmoved n q (r <| br := s |> <| needCRLF := false |>)) as Hu. exact Hu.
Qed.

Lemma ReadAll_unmoved fuel bufs i q r data r' :
  ReadAll fuel bufs i r = Some (data, None, r') -> ReadAll fuel bufs i (extended q r) = Some (data, None, extended q r').
Proof.
  revert i r data. induction fuel as [|fuel IH]; intros i r data; cbn [ReadAll]; [done|].
  pose proof (Read_unmoved (bufs i) q r) as Hu. unfold unmoved in Hu.
  destruct (Read (bufs i) r) as [[d [| |e]] s]; cbn [read_on] in *; [| |done]; rewrite Hu; cbn [read_on]; [|by intros; simplify_eq].
  destruct (ReadAll fuel bufs (S i) s) as [[[d' e'] s']|] eqn:Hs; [|done]. cbn [mbind option_bind]. intros; simplify_eq.
  by rewrite (IH _ _ _ Hs).
Qed.

(** ** Every read takes some of the input, so reading ends *)

Lemma ReadString_length s line rest : ReadString s = Some (line, rest) -> (String.length rest < String.length s)%nat.
Proof.
  revert line. induction s as [|c s IH]; intros line; cbn [ReadString]; [done|].
  destruct (Ascii.eqb c LF); [intros; simplify_eq; simpl; lia|].
  destruct (ReadString s) as [[l r]|]; [|done]. cbn [mbind option_bind]. intros; simplify_eq.
  specialize (IH _ eq_refl). simpl. lia.
Qed.

Lemma readLine_length s : (String.length (readLine s).2 <= String.length s)%nat.
Proof.
  unfold readLine. destruct (ReadString s) as [[l r]|] eqn:Hs; [|simpl; lia]. apply ReadString_length in Hs.
  destruct (negb _); simpl; lia.
Qed.

Lemma nextChunkSize_length s : (String.length (nextChunkSize s).2 <= String.length s)%nat.
Proof.
  unfold nextChunkSize. pose proof (readLine_length s). destruct (readLine s) as [[line|e] r]; [|done].
  destruct (Cut _ _) as [[sizeText ?] ?]. by destruct (ParseUint _ _).
Qed.

Lemma consumeCRLF_length s : (String.length (consumeCRLF s).2 <= String.length s)%nat.
Proof. destruct s as [|a [|b s]]; cbn [consumeCRLF]; [simpl; lia..|]. destruct (_ || _); simpl; lia. Qed.

(** A read that can be followed by another took bytes of the input. *)
Definition takes (r : awsChunkedReader) (out : string * status * awsChunkedReader) : Prop :=
  match out with (_, Continue, r') => (String.length (br r') < String.length (br r))%nat | _ => True end.

Lemma read_chunk_takes n r : (0 < n)%nat -> 0 < remain r -> takes r (read_chunk n r).
Proof.
  intros Hn Hr. destruct r as [s rem dn nc err]. cbn [remain] in Hr. rewrite read_chunk_eq. cbv zeta.
  set (want := if rem <? Z.of_nat n then Z.to_nat rem else n).
  assert (0 < want)%nat by (unfold want; destruct (Z.ltb_spec rem (Z.of_nat n)); lia).
  destruct (Nat.ltb_spec (String.length (take_str want s)) want) as [|Hge]; [exact I|].
  rewrite length_take_str in Hge. cbn [takes br]. rewrite length_drop_str. lia.
Qed.

Lemma nextChunkSize_nonneg s size rest : nextChunkSize s = (Ok size, rest) -> 0 <= size.
Proof.
  unfold nextChunkSize. destruct (readLine s) as [[line|e] r]; [|done]. destruct (Cut _ _) as [[sizeText ?] ?].
  destruct (ParseUint _ 16) eqn:Hp; [|done]. intros; simplify_eq. by apply ParseUint_range in Hp as [? _].
Qed.

Lemma read_payload_takes n r : (0 < n)%nat -> 0 <= remain r -> takes r (read_payload n r).
Proof.
  intros Hn Hr. unfold read_payload. destruct (Z.eqb_spec (remain r) 0) as [_|Hne]; [|apply read_chunk_takes; lia].
  pose proof (nextChunkSize_length (br r)) as Hl. destruct (nextChunkSize (br r)) as [[size|err] s] eqn:Hs; [|exact I].
  apply nextChunkSize_nonneg in Hs. destruct (Z.eqb_spec size 0) as [_|Hsize].
  - field_simpl. by destruct (consumeTrailers s) as [[[]|err] s'].
  - cbv zeta. pose proof (read_chunk_takes n (r <| br := s |> <| remain := size |>) Hn) as Ht. field_simpl_in Ht.
    specialize (Ht ltac:(lia)). destruct (read_chunk n _) as [[d [| |]] r']; cbn [takes] in *; [|done..]. simpl in Hl. field_simpl_in Ht. lia.
Qed.

Lemma Read_takes n r : (0 < n)%nat -> 0 <= remain r -> takes r (Read n r).
Proof.
  intros Hn Hr. unfold Read. destruct (readError r); [exact I|]. rewrite (proj2 (Nat.eqb_neq _ _)) by lia.
  destruct (done r); [exact I|]. destruct (needCRLF r); [|by apply read_payload_takes].
  pose proof (consumeCRLF_length (br r)) as Hl. destruct (consumeCRLF (br r)) as [[[]|e] s]; [|exact I].
  pose proof (read_payload_takes n (r <| br := s |> <| needCRLF := false |>) Hn) as Ht. field_simpl_in Ht. specialize (Ht Hr).
  destruct (read_payload n _) as [[d [| |]] r']; cbn [takes] in *; [|done..]. simpl in Hl. field_simpl_in Ht. lia.
Qed.

Lemma read_chunk_remain n r data st r' : read_chunk n r = (data, st, r') -> 0 <= remain r'.
Proof.
  destruct r as [s rem dn nc err]. rewrite read_chunk_eq. cbv zeta. set (want := if rem <? Z.of_nat n then Z.to_nat rem else n).
  destruct (String.length (take_str want s) <? want)%nat; intros; simplify_eq; apply Z.mod_pos_bound; lia.
Qed.

Lemma read_payload_remain n r data r' : read_payload n r = (data, Continue, r') -> 0 <= remain r'.
Proof.
  unfold read_payload. destruct (remain r =? 0); [|apply read_chunk_remain].
  destruct (nextChunkSize (br r)) as [[size|e] s]; [|done]. destruct (size =? 0); [|apply read_chunk_remain].
  field_simpl. by destruct (consumeTrailers s) as [[[]|e] s'].
Qed.

Lemma Read_remain n r data r' : (0 < n)%nat -> Read n r = (data, Continue, r') -> 0 <= remain r'.
Proof.
  intros Hn. unfold Read. destruct (readError r); [done|]. rewrite (proj2 (Nat.eqb_neq _ _)) by lia.
  destruct (done r); [done|]. destruct (needCRLF r); [|apply read_payload_remain].
  destruct (consumeCRLF (br r)) as [[[]|e] s]; [|done]. apply read_payload_remain.
Qed.

Lemma ReadAll_ends bufs : positive bufs -> forall fuel i r,
  0 <= remain r -> (String.length (br r) < fuel)%nat -> is_Some (ReadAll fuel bufs i r).
Proof.
  intros Hbufs. induction fuel as [|fuel IH]; intros i r Hr Hf; [lia|]. cbn [ReadAll].
  pose proof (Read_takes (bufs i) r (Hbufs i) Hr) as Ht. destruct (Read (bufs i) r) as [[d [| |err]] r'] eqn:HR; cbn [read_on]; [|eauto..].
  cbn [takes] in Ht. apply Read_remain in HR; [|apply Hbufs].
  destruct (IH (S i) r' HR ltac:(lia)) as [[[d' e'] r''] ->]. eauto.
Qed.

Lemma ReadAll_fuel bufs fuel fuel' i r out : (fuel <= fuel')%nat -> ReadAll fuel bufs i r = Some out -> ReadAll fuel' bufs i r = Some out.
Proof.
  revert fuel' i r out. induction fuel as [|fuel IH]; intros [|fuel'] i r out Hle; cbn [ReadAll]; [done | done | lia|].
  destruct (Read (bufs i) r) as [[d [| |err]] r']; cbn [read_on]; [|done..].
  destruct (ReadAll fuel bufs (S i) r') as [o|] eqn:Ho; [|done]. rewrite (IH fuel' _ _ _ ltac:(lia) Ho). done.
Qed.

(** C13: A body in the aws-chunked format is read, with buffers of any sizes, as exactly
    its payload followed by the end of the stream, and nothing behind the body is taken;
    a body that was cut short anywhere ends with an error and never with the end of the
    stream. *)
Theorem chunked_round_trip (b : body) (bufs : nat -> nat) :
  body_ok b -> positive bufs ->
  (forall rest, ReadAll (S (String.length (payload b))) bufs 0 (newAWSChunkedReader (encode b +:+ rest)) =
     Some (payload b, None, mkAwsChunkedReader rest 0 true false None)) /\
  (forall front missing, encode b = front +:+ missing -> missing <> "" ->
     exists data e r, ReadAll (S (String.length front)) bufs 0 (newAWSChunkedReader front) = Some (data, Some e, r)).
Proof.
  destruct b as [cs last trailers]. intros (Hcs & Hlast & Htr) Hbufs. split.
  - intros rest. apply (ReadAll_start last trailers rest Hlast Htr); [done | done | cbn; lia].
  - intros front missing Henc Hne.
    destruct (ReadAll_ends bufs Hbufs (S (String.length front)) 0 (newAWSChunkedReader front)) as [[[data [e|]] r] Hr]; [done | cbn; lia | eauto|].
    exfalso. apply (ReadAll_unmoved _ _ _ missing) in Hr. change (extended missing (newAWSChunkedReader front))
      with (newAWSChunkedReader (front +:+ missing)) in Hr. rewrite <- Henc in Hr.
    pose proof (ReadAll_start last trailers "" Hlast Htr bufs (S (String.length (payload (mkBody cs last trailers)))) 0 cs Hbufs Hcs
      ltac:(lia)) as Hfull. unfold to_come in Hfull. rewrite str_app_nil_r in Hfull.
    set (n := S (String.length front)) in *. set (m := S (String.length (payload _))) in *.
    apply (ReadAll_fuel _ _ (Nat.max n m)) in Hr, Hfull; [|lia..]. rewrite Hr in Hfull.
    apply (f_equal (fun o => br (default (newAWSChunkedReader EmptyString) (snd <$> o)))) in Hfull. cbn in Hfull. apply (f_equal String.length) in Hfull. unfold extended in Hfull. field_simpl_in Hfull.
    rewrite str_length_app in Hfull. destruct missing; [done | simpl in Hfull; lia].
Qed.

(** The body of the S3 documentation's kind: two signed chunks and a checksum trailer. *)
Definition ex_body : body :=
  mkBody [mkChunk ";chunk-signature=ab" "hello, wide "; mkChunk ";chunk-signature=cd" "world"] ";chunk-signature=ef" ["x-amz-checksum-crc32c:sOO8/Q=="].

Lemma chunked_round_trip_witness :
  ReadAll (S (String.length (payload ex_body))) (fun i => S (i mod 3)) 0 (newAWSChunkedReader (encode ex_body +:+ "next")) =
    Some ("hello, wide world", None, mkAwsChunkedReader "next" 0 true false None).
Proof.
  refine (proj1 (chunked_round_trip ex_body (fun i => S (i mod 3)) _ _) "next").
  - split; [|split; [split; [reflexivity | right; eexists; reflexivity]|]].
    + constructor; [|constructor; [|constructor]];
        (split; [split; [reflexivity | right; eexists; reflexivity] | split; [discriminate | reflexivity]]).
    + repeat constructor; try reflexivity; discriminate.
  - intros i. apply Nat.lt_0_succ.
Defined.
