(* ===== verification/StorageClass.v ===== *)
(** * StorageClass: the catalog of storage classes

    [src/internal/storageclass/resolver.go]: the definitions of the storage classes,
    their normalisation, and the snapshot of a class that an object keeps. The local
    store reads back from the snapshot the shard counts the catalog put there. *)

From S2P Require Import Prelude GoLib GoText StorageTypes Segments LocalStore.
Open Scope string_scope.
Open Scope Z_scope.

Definition DefaultID : string := "STANDARD".
Definition BackendLocal : string := "local".
Definition RedundancyReplicated : string := "replicated".
Definition ParamReplicaCount : string := "replica_count".
Definition ParamReadQuorum : string := "read_quorum".
Definition ParamWriteQuorum : string := "write_quorum".
Definition ParamMinObjectSize : string := "min_object_size_bytes".
Definition ParamCompatibility : string := "compatibility".

Inductive SCErr :=
| SCIDRequired
| SCDuplicate (id : string)
| SCDefaultMissing (id : string)
| SCUnsupported (id : string)
| SCDisabled (id : string)
| SCTooSmall (id : string) (min : Z).

Record SCDefinition := mkSCDefinition {
  scd_ID : string;
  scd_Backend : string;
  scd_Generation : Z;
  scd_RedundancyBackend : string;
  scd_ReplicaCount : Z;
  scd_ReadQuorum : Z;
  scd_WriteQuorum : Z;
  scd_DataShards : Z;
  scd_ParityShards : Z;
  scd_MinObjectSizeBytes : Z;
  scd_Disabled : bool;
  scd_Parameters : gmap string string
}.
#[export] Instance eta_SCDefinition : RecordEta SCDefinition := fun r =>
  mkSCDefinition (scd_ID r) (scd_Backend r) (scd_Generation r) (scd_RedundancyBackend r) (scd_ReplicaCount r)
    (scd_ReadQuorum r) (scd_WriteQuorum r) (scd_DataShards r) (scd_ParityShards r) (scd_MinObjectSizeBytes r)
    (scd_Disabled r) (scd_Parameters r).

Record Catalog := mkCatalog {
  cat_defaultID : string;
  cat_definitions : gmap string SCDefinition
}.

Record ResolveRequest := mkResolveRequest {
  rr_RequestedID : string;
  rr_Fallback : StorageClassSnapshot;
  rr_SizeBytes : Z;
  rr_HasSize : bool
}.

Definition NormalizeID (id : string) : string := ToUpper (TrimSpace id).

Definition normalizeDefinition (d : SCDefinition) : outcome SCErr SCDefinition :=
  let d := d <| scd_ID := NormalizeID (scd_ID d) |> in
  if scd_ID d =s "" then Fail SCIDRequired
  else
    let backend := TrimSpace (scd_Backend d) in
    let redundancy := TrimSpace (scd_RedundancyBackend d) in
    Ok (d <| scd_Backend := if backend =s "" then BackendLocal else backend |>
          <| scd_Generation := if scd_Generation d =? 0 then 1 else scd_Generation d |>
          <| scd_RedundancyBackend := if redundancy =s "" then RedundancyReplicated else redundancy |>).

Fixpoint add_definitions (definitions : list SCDefinition) (out : gmap string SCDefinition)
    : outcome SCErr (gmap string SCDefinition) :=
  match definitions with
  | [] => Ok out
  | def :: rest =>
      match normalizeDefinition def with
      | Fail e => Fail e
      | Ok normalized =>
          match out !! scd_ID normalized with
          | Some _ => Fail (SCDuplicate (scd_ID normalized))
          | None => add_definitions rest (<[scd_ID normalized := normalized]> out)
          end
      end
  end.

Definition NewCatalog (defaultID : string) (definitions : list SCDefinition) : outcome SCErr Catalog :=
  let id := NormalizeID defaultID in
  let id := if id =s "" then DefaultID else id in
  match add_definitions definitions ∅ with
  | Fail e => Fail e
  | Ok defs => match defs !! id with Some _ => Ok (mkCatalog id defs) | None => Fail (SCDefaultMissing id) end
  end.

Definition setStringParam (params : gmap string string) (key value : string) : gmap string string :=
  if value =s "" then params else <[key := value]> params.
(** [setIntParam] and [setUintParam]. *)
Definition setIntParam (params : gmap string string) (key : string) (value : Z) : gmap string string :=
  if 0 <? value then <[key := Itoa value]> params else params.

Definition Snapshot (d : SCDefinition) : StorageClassSnapshot :=
  match normalizeDefinition d with
  | Fail _ => zero_StorageClassSnapshot
  | Ok def =>
      let params := scd_Parameters def in
      let params := setIntParam params ParamProfileGeneration (scd_Generation def) in
      let params := setStringParam params ParamRedundancyBackend (scd_RedundancyBackend def) in
      let params := setIntParam params ParamReplicaCount (scd_ReplicaCount def) in
      let params := setIntParam params ParamReadQuorum (scd_ReadQuorum def) in
      let params := setIntParam params ParamWriteQuorum (scd_WriteQuorum def) in
      let params := setIntParam params ParamDataShards (scd_DataShards def) in
      let params := setIntParam params ParamParityShards (scd_ParityShards def) in
      let params := setIntParam params ParamMinObjectSize (scd_MinObjectSizeBytes def) in
      mkStorageClassSnapshot (scd_ID def) (scd_Backend def) params
  end.

Definition Resolve (c : Catalog) (req : ResolveRequest) : outcome SCErr StorageClassSnapshot :=
  let resolve requestedID :=
    match cat_definitions c !! requestedID with
    | None => Fail (SCUnsupported requestedID)
    | Some def =>
        if scd_Disabled def then Fail (SCDisabled requestedID)
        else if rr_HasSize req && (0 <? scd_MinObjectSizeBytes def) && (rr_SizeBytes req <? scd_MinObjectSizeBytes def)
        then Fail (SCTooSmall requestedID (scd_MinObjectSizeBytes def))
        else
          let snapshot := Snapshot def in
          Ok (if scs_Backend (rr_Fallback req) =s "" then snapshot
              else snapshot <| scs_Backend := scs_Backend (rr_Fallback req) |>)
    end in
  let requestedID := NormalizeID (rr_RequestedID req) in
  if requestedID =s "" then
    if negb (scs_StorageClassID (rr_Fallback req) =s "") then Ok (rr_Fallback req) else resolve (cat_defaultID c)
  else resolve requestedID.

(** [Catalog.Definition]. *)
Definition catalog_Definition (c : Catalog) (id : string) : option SCDefinition := cat_definitions c !! NormalizeID id.

Definition replicated (id : string) (replicas readQuorum writeQuorum : Z) : SCDefinition :=
  mkSCDefinition id "" 0 RedundancyReplicated replicas readQuorum writeQuorum 0 0 0 false ∅.
Definition compat (id : string) : SCDefinition :=
  (replicated id 3 2 2) <| scd_Parameters := {[ParamCompatibility := "s3"]} |>.
Definition ec (id : string) (dataShards parityShards minObjectSizeBytes : Z) : SCDefinition :=
  mkSCDefinition id "" 0 RedundancyErasureCode 0 0 0 dataShards parityShards minObjectSizeBytes false ∅.

Definition defaultDefinitions : list SCDefinition := [
  replicated DefaultID 3 2 2;
  replicated "STANDARD_R2" 2 2 2;
  replicated "STANDARD_R3" 3 2 2;
  replicated "DURABLE_R4" 4 3 3;
  compat "REDUCED_REDUNDANCY";
  compat "STANDARD_IA";
  compat "ONEZONE_IA";
  compat "INTELLIGENT_TIERING";
  compat "GLACIER";
  compat "GLACIER_IR";
  compat "DEEP_ARCHIVE";
  compat "EXPRESS_ONEZONE";
  ec "EC_4_2" 4 2 (16 * 1024 * 1024);
  ec "EC_8_3" 8 3 (32 * 1024 * 1024);
  ec "EC_10_4" 10 4 (64 * 1024 * 1024)].

(** [mustDefaultCatalog] panics when the definitions are no catalog; they are one
    ([default_catalog_ok] below). *)
Definition defaultCatalog : Catalog :=
  match NewCatalog DefaultID defaultDefinitions with Ok c => c | Fail _ => mkCatalog "" ∅ end.

Definition StandardSnapshot : StorageClassSnapshot :=
  match Resolve defaultCatalog (mkResolveRequest "" zero_StorageClassSnapshot 0 false) with
  | Ok snapshot => snapshot
  | Fail _ => zero_StorageClassSnapshot
  end.

(** [storageclass.ID]. *)
Definition snapshot_ID (snapshot : StorageClassSnapshot) : string :=
  let id := NormalizeID (scs_StorageClassID snapshot) in if id =s "" then DefaultID else id.

(** ** The default catalog *)

Lemma default_catalog_ok : NewCatalog DefaultID defaultDefinitions = Ok defaultCatalog.
Proof. by vm_compute. Qed.

Lemma standard_snapshot_ok :
  Resolve defaultCatalog (mkResolveRequest "" zero_StorageClassSnapshot 0 false) = Ok StandardSnapshot /\
  scs_StorageClassID StandardSnapshot = "STANDARD".
Proof. by vm_compute. Qed.

(** What the store reads from the snapshot of a class is what the class defines: a
    replicated class is a plain segment, an erasure-coded class has its shard counts. *)
Definition store_agrees (def : SCDefinition) : bool :=
  match Resolve defaultCatalog (mkResolveRequest (scd_ID def) zero_StorageClassSnapshot 0 false) with
  | Fail _ => false
  | Ok snapshot =>
      Bool.eqb (isECStorageClass snapshot) (scd_RedundancyBackend def =s RedundancyErasureCode) &&
      (if isECStorageClass snapshot then
         match ecShardConfig snapshot with
         | Ok (d, p) => (Z.of_nat d =? scd_DataShards def) && (Z.of_nat p =? scd_ParityShards def)
         | Fail _ => false
         end
       else true)
  end.

Lemma default_catalog_store_agrees : forallb store_agrees defaultDefinitions = true.
Proof. by vm_compute. Qed.
