(* ===== verification/Encryption.v ===== *)
(** * Encryption: the envelope encryption of segments

    [src/internal/encryption/provider.go]: a fresh data key encrypts the segment, the
    key-management key wraps the data key, and the envelope beside the segment keeps
    what decryption needs. The cipher of Go's library is the class [Aead] with its documented
    laws; random bytes are arguments. What was encrypted decrypts. *)

From S2P Require Import Prelude GoLib GoText StorageTypes Model Segments LocalStore.
From Stdlib Require Import Ascii.
Open Scope string_scope.
Open Scope Z_scope.

(** ** The cipher *)

(** AES in Galois counter mode: [NewCipher] takes keys of 16, 24 and 32 bytes,
    a nonce has [NonceSize] bytes and [Open] undoes [Seal]. *)
Class Aead := {
  gcm_Seal : string -> string -> string -> string -> string;
  gcm_Open : string -> string -> string -> string -> option string
}.
Definition NonceSize : nat := 12.
Definition aes_key (key : string) : bool := existsb (Nat.eqb (String.length key)) [16; 24; 32]%nat.

Class AeadLaws `{Aead} := {
  gcm_Open_Seal key nonce plaintext aad :
    aes_key key = true -> String.length nonce = NonceSize ->
    gcm_Open key nonce (gcm_Seal key nonce plaintext aad) aad = Some plaintext;
  gcm_Seal_length key nonce plaintext aad :
    String.length (gcm_Seal key nonce plaintext aad) = (String.length plaintext + 16)%nat
}.

(** ** Providers *)

Definition EnvelopeAlgorithmAES256GCM : string := "AES256-GCM".
Definition DefaultKMSKeyID : string := "namros/default".

Inductive EncErr :=
| ErrProviderUnavailable
| ErrKeyUnavailable
| ErrDecryptDenied
| KeyIDRequired
| KeyNot32Bytes (keyID : string)
| CipherError
| SealedTooShort
| NoEntropy.

Record EncryptSegmentRequest := mkEncryptSegmentRequest {
  es_Plaintext : string;
  es_PlaintextSize : Z;
  es_Encryption : ServerSideEncryption;
  es_Context : gmap string string
}.
Record EncryptSegmentResult := mkEncryptSegmentResult {
  er_Ciphertext : string;
  er_SizeBytes : Z;
  er_Envelope : EncryptionEnvelope;
  er_Encryption : ServerSideEncryption
}.

Record localKey := mkLocalKey {
  lk_keyID : string;
  lk_keyVersion : string;
  lk_key : string;
  lk_state : string
}.
Record LocalProvider := mkLocalProvider { lp_keys : gmap string localKey }.

(** The loop over the configured keys. *)
Fixpoint add_keys (keys : list (string * string)) (out : gmap string localKey) : outcome EncErr (gmap string localKey) :=
  match keys with
  | [] => Ok out
  | (keyID, key) :: rest =>
      let keyID := TrimSpace keyID in
      if keyID =s "" then Fail KeyIDRequired
      else if negb (String.length key =? 32)%nat then Fail (KeyNot32Bytes keyID)
      else add_keys rest (<[keyID := mkLocalKey keyID "local-v1" key KMSKeyActive]> out)
  end.

(** [random] is what [rand.Read] yields for the key of a provider without keys. *)
Definition NewLocalProvider (random : option string) (keys : list (string * string)) : outcome EncErr LocalProvider :=
  let build keys := match add_keys keys ∅ with Ok m => Ok (mkLocalProvider m) | Fail e => Fail e end in
  match keys with
  | [] => match random with Some key => build [(DefaultKMSKeyID, key)] | None => Fail NoEntropy end
  | _ => build keys
  end.

(** [model.KMSKeyAllowsDecrypt]. *)
Definition KMSKeyAllowsDecrypt (state : string) : bool := NormalizeKMSKeyState state =s KMSKeyActive.

Section Provider.
Context `{Aead}.

Definition sealAESGCMWithNonce (nonce key plaintext aad : string) : outcome EncErr string :=
  if aes_key key then Ok (gcm_Seal key nonce plaintext aad) else Fail CipherError.

Definition openAESGCMWithNonce (key nonce ciphertext aad : string) : outcome EncErr string :=
  if aes_key key then
    match gcm_Open key nonce ciphertext aad with Some plaintext => Ok plaintext | None => Fail CipherError end
  else Fail CipherError.

Definition sealAESGCM (nonce key plaintext aad : string) : outcome EncErr string :=
  match sealAESGCMWithNonce nonce key plaintext aad with Ok ciphertext => Ok (nonce +:+ ciphertext) | Fail e => Fail e end.

Definition openAESGCM (key sealed aad : string) : outcome EncErr string :=
  if negb (aes_key key) then Fail CipherError
  else if (String.length sealed <? NonceSize)%nat then Fail SealedTooShort
  else match gcm_Open key (take_str NonceSize sealed) (drop_str NonceSize sealed) aad with
       | Some plaintext => Ok plaintext
       | None => Fail CipherError
       end.

Definition contextAAD (context : gmap string string) : string :=
  foldr (fun kv rest => kv.1 +:+ "=" +:+ kv.2 +:+ String (ascii_of_N 10) rest) ""
    (sort_by (fun a b => str_ltb a.1 b.1) (map_to_list context)).

(** The random bytes of one encryption: the data key, the nonce that wraps it and
    the nonce of the segment. *)
Record entropy := mkEntropy { en_dek : string; en_wrap : string; en_nonce : string }.

Definition EncryptSegment (p : LocalProvider) (random : entropy) (req : EncryptSegmentRequest) : outcome EncErr EncryptSegmentResult :=
  let keyID := TrimSpace (sse_KeyID (es_Encryption req)) in
  let keyID := if keyID =s "" then DefaultKMSKeyID else keyID in
  match lp_keys p !! keyID with
  | None => Fail ErrKeyUnavailable
  | Some kmsKey =>
      if negb (NormalizeKMSKeyState (lk_state kmsKey) =s KMSKeyActive) then Fail ErrKeyUnavailable
      else
        let plaintext := es_Plaintext req in
        match sealAESGCM (en_wrap random) (lk_key kmsKey) (en_dek random) keyID with
        | Fail e => Fail e
        | Ok wrappedDEK =>
            match sealAESGCMWithNonce (en_nonce random) (en_dek random) plaintext (contextAAD (es_Context req)) with
            | Fail e => Fail e
            | Ok ciphertext =>
                Ok (mkEncryptSegmentResult ciphertext (str_len ciphertext)
                      (mkEncryptionEnvelope EnvelopeAlgorithmAES256GCM keyID (lk_keyVersion kmsKey)
                         (Base64Encode wrappedDEK) (Base64Encode (en_nonce random)) (str_len plaintext) (str_len ciphertext)
                         (es_Context req))
                      (mkServerSideEncryption (sse_Algorithm (es_Encryption req)) keyID (lk_keyVersion kmsKey)))
            end
        end
  end.

Definition DecryptSegment (p : LocalProvider) (ciphertext : string) (envelope : EncryptionEnvelope) : outcome EncErr string :=
  let keyID := TrimSpace (ee_KeyID envelope) in
  match lp_keys p !! keyID with
  | None => Fail ErrKeyUnavailable
  | Some kmsKey =>
      if negb (KMSKeyAllowsDecrypt (lk_state kmsKey)) then Fail ErrDecryptDenied
      else match Base64Decode (ee_WrappedDEK envelope) with
      | None => Fail CipherError
      | Some wrappedDEK =>
          match openAESGCM (lk_key kmsKey) wrappedDEK keyID with
          | Fail e => Fail e
          | Ok dek =>
              match Base64Decode (ee_Nonce envelope) with
              | None => Fail CipherError
              | Some nonce => openAESGCMWithNonce dek nonce ciphertext (contextAAD (ee_Context envelope))
              end
          end
      end
  end.

Definition KeyState (p : LocalProvider) (keyID : string) : outcome EncErr KMSKeyRecord :=
  let keyID := TrimSpace keyID in
  let keyID := if keyID =s "" then DefaultKMSKeyID else keyID in
  match lp_keys p !! keyID with
  | None => Fail ErrKeyUnavailable
  | Some kmsKey => Ok (zero_KMSKeyRecord <| kms_KeyID := lk_keyID kmsKey |> <| kms_KeyVersion := lk_keyVersion kmsKey |>
                         <| kms_State := lk_state kmsKey |>)
  end.

End Provider.

(** ** What was encrypted decrypts *)

Section Laws.
Context `{AeadLaws}.

Lemma openAESGCM_seal nonce key plaintext aad sealed :
  String.length nonce = NonceSize -> sealAESGCM nonce key plaintext aad = Ok sealed -> openAESGCM key sealed aad = Ok plaintext.
Proof.
  intros Hn. unfold sealAESGCM, sealAESGCMWithNonce, openAESGCM. destruct (aes_key key) eqn:Hk; [|done].
  intros ?; simplify_eq. cbn [negb]. rewrite str_length_app, (proj2 (Nat.ltb_ge _ _)) by lia.
  rewrite <- Hn at 1 2. rewrite take_str_app, drop_str_app. by rewrite gcm_Open_Seal.
Qed.

(** The bytes of one encryption have the lengths the code asks for. *)
Definition entropy_ok (random : entropy) : Prop :=
  String.length (en_wrap random) = NonceSize /\ String.length (en_nonce random) = NonceSize.

(** The identifiers of the keys are trimmed, as [NewLocalProvider] leaves them. *)
Definition keys_trimmed (p : LocalProvider) : Prop := map_Forall (fun id _ => TrimSpace id = id) (lp_keys p).

Lemma decrypt_encrypted p random req result :
  entropy_ok random -> keys_trimmed p -> EncryptSegment p random req = Ok result ->
  DecryptSegment p (er_Ciphertext result) (er_Envelope result) = Ok (es_Plaintext req) /\
  ee_Algorithm (er_Envelope result) = EnvelopeAlgorithmAES256GCM /\
  ee_PlaintextSizeBytes (er_Envelope result) = str_len (es_Plaintext req) /\
  er_SizeBytes result = str_len (er_Ciphertext result) /\ str_len (er_Ciphertext result) = str_len (es_Plaintext req) + 16.
Proof.
  intros [Hw Hn] Htrim. unfold EncryptSegment, DecryptSegment.
  set (keyID := if TrimSpace (sse_KeyID (es_Encryption req)) =s "" then _ else _).
  destruct (lp_keys p !! keyID) as [kmsKey|] eqn:Hk; [|done].
  destruct (NormalizeKMSKeyState (lk_state kmsKey) =s KMSKeyActive) eqn:Hst; [|done]. cbn [negb].
  destruct (sealAESGCM _ _ _ _) as [wrapped|] eqn:Hwrap; [|done].
  destruct (sealAESGCMWithNonce _ _ _ _) as [ct|] eqn:Hct; [|done]. intros ?; simplify_eq.
  cbn [er_Ciphertext er_Envelope ee_KeyID ee_WrappedDEK ee_Nonce ee_Context ee_Algorithm ee_PlaintextSizeBytes er_SizeBytes].
  rewrite (Htrim _ _ Hk), Hk. unfold KMSKeyAllowsDecrypt. rewrite Hst. cbn [negb].
  rewrite !Base64Decode_Encode, (openAESGCM_seal _ _ _ _ _ Hw Hwrap).
  unfold sealAESGCMWithNonce in Hct. unfold openAESGCMWithNonce. destruct (aes_key (en_dek random)) eqn:Hd; [|done]. simplify_eq.
  rewrite gcm_Open_Seal by done. unfold str_len. rewrite gcm_Seal_length. split_and!; [done | done | done | done | lia].
Qed.

End Laws.

(** *** The providers of [NewLocalProvider] have trimmed identifiers *)

Lemma add_keys_trimmed keys out m :
  map_Forall (fun id _ => TrimSpace id = id) out -> add_keys keys out = Ok m -> map_Forall (fun id _ => TrimSpace id = id) m.
Proof.
  revert out. induction keys as [|[keyID key] keys IH]; intros out Hout; cbn [add_keys]; [intros; by simplify_eq|].
  destruct (TrimSpace keyID =s ""); [done|]. destruct (negb _); [done|]. apply IH.
  apply map_Forall_insert_2; [apply TrimSpace_idem | done].
Qed.

Lemma NewLocalProvider_trimmed random keys p : NewLocalProvider random keys = Ok p -> keys_trimmed p.
Proof.
  unfold NewLocalProvider, keys_trimmed. intros Hp.
  assert (exists l, add_keys l ∅ = Ok (lp_keys p)) as [l Hl].
  { destruct keys; [destruct random as [key|]; [|done]|]; match type of Hp with context [add_keys ?l _] => exists l end;
      destruct (add_keys _ _); by simplify_eq. }
  eapply add_keys_trimmed; [|exact Hl]. apply map_Forall_empty.
Qed.
