(* ===== verification/S3Http.v ===== *)
(** * S3Http: requests, replies and errors of the S3 gateway

    What a handler of [src/internal/gateway/s3_handlers.go] reads of a request and what
    it writes: the request's headers, query, body and authenticated principal; the
    reply's status, headers and body, an XML document kept as the value the handler
    encodes; the S3 errors of [src/internal/s3api/s3err/errors.go]. The parts of Go's
    library that take XML, MIME types and dates apart are the class [GoNet]. *)

From S2P Require Import Prelude GoLib GoText StorageTypes Model Requests Encoding Policy Segments.
From Stdlib Require Import Ascii.
Open Scope string_scope.
Open Scope Z_scope.

(** ** Requests *)

(** Headers by their name in lower case; [Get] is the first value. *)
Record Request := mkRequest {
  rq_Bucket : string;
  rq_Key : string;
  rq_Subresources : gmap string string;
  rq_Query : gmap string string;
  rq_Header : gmap string (list string);
  rq_ContentLength : Z;
  rq_Body : string;
  rq_Principal : option Principal;
  rq_Decision : option PolicyDecision;
  rq_RequestID : string
}.
#[export] Instance eta_Request : RecordEta Request := fun r =>
  mkRequest (rq_Bucket r) (rq_Key r) (rq_Subresources r) (rq_Query r) (rq_Header r) (rq_ContentLength r) (rq_Body r)
    (rq_Principal r) (rq_Decision r) (rq_RequestID r).

Definition Header (r : Request) (name : string) : string :=
  match rq_Header r !! name with Some (v :: _) => v | _ => "" end.
Definition subresource (r : Request) (name : string) : string := default "" (rq_Subresources r !! name).
Definition query (r : Request) (name : string) : string := default "" (rq_Query r !! name).

(** ** Errors *)

Record S3Error := mkS3Error {
  e_Code : string;
  e_Message : string;
  e_HTTPStatus : Z
}.

Definition InvalidRequest (message : string) : S3Error := mkS3Error "InvalidRequest" message 400.
Definition InvalidArgument (message : string) : S3Error := mkS3Error "InvalidArgument" message 400.
Definition InvalidRange (message : string) : S3Error := mkS3Error "InvalidRange" message 416.
Definition InvalidPart (message : string) : S3Error := mkS3Error "InvalidPart" message 400.
Definition NoSuchBucket (message : string) : S3Error := mkS3Error "NoSuchBucket" message 404.
Definition BucketAlreadyOwnedByYou (message : string) : S3Error := mkS3Error "BucketAlreadyOwnedByYou" message 409.
Definition BucketNotEmpty (message : string) : S3Error := mkS3Error "BucketNotEmpty" message 409.
Definition NoSuchKey (message : string) : S3Error := mkS3Error "NoSuchKey" message 404.
Definition NoSuchUpload (message : string) : S3Error := mkS3Error "NoSuchUpload" message 404.
Definition NoSuchCORSConfiguration (message : string) : S3Error := mkS3Error "NoSuchCORSConfiguration" message 404.
Definition NoSuchLifecycleConfiguration (message : string) : S3Error := mkS3Error "NoSuchLifecycleConfiguration" message 404.
Definition NoSuchBucketPolicy (message : string) : S3Error := mkS3Error "NoSuchBucketPolicy" message 404.
Definition ServerSideEncryptionConfigurationNotFound (message : string) : S3Error := mkS3Error "ServerSideEncryptionConfigurationNotFoundError" message 404.
Definition ObjectLockConfigurationNotFound (message : string) : S3Error := mkS3Error "ObjectLockConfigurationNotFoundError" message 404.
Definition AccessDenied (message : string) : S3Error := mkS3Error "AccessDenied" message 403.
Definition SignatureDoesNotMatch (message : string) : S3Error := mkS3Error "SignatureDoesNotMatch" message 403.
Definition RequestTimeTooSkewed (message : string) : S3Error := mkS3Error "RequestTimeTooSkewed" message 403.
Definition ServiceUnavailable (message : string) : S3Error := mkS3Error "ServiceUnavailable" message 503.
Definition SlowDown (message : string) : S3Error := mkS3Error "SlowDown" message 503.
Definition PreconditionFailed (message : string) : S3Error := mkS3Error "PreconditionFailed" message 412.
Definition NotImplemented (message : string) : S3Error := mkS3Error "NotImplemented" message 501.
Definition MethodNotAllowed (message : string) : S3Error := mkS3Error "MethodNotAllowed" message 405.

(** ** Documents *)

Record ownerEntry := mkownerEntry {
  owe_ID : string;
  owe_DisplayName : string
}.
Record bucketEntry := mkbucketEntry {
  bke_Name : string;
  bke_CreationDate : string
}.
Record listBucketsResult := mklistBucketsResult {
  lbs_Owner : ownerEntry;
  lbs_Buckets : list bucketEntry
}.
Record corsRuleXML := mkcorsRuleXML {
  crx_AllowedOrigins : list string;
  crx_AllowedMethods : list string;
  crx_AllowedHeaders : list string;
  crx_ExposeHeaders : list string;
  crx_MaxAgeSeconds : Z
}.
Record lifecycleExpirationXML := mklifecycleExpirationXML {
  lex_Days : Z;
  lex_Date : string;
  lex_ExpiredObjectDeleteMarker : bool
}.
Record lifecycleRuleXML := mklifecycleRuleXML {
  lrx_ID : string;
  lrx_Status : string;
  lrx_Filter : option string;
  lrx_Prefix : string;
  lrx_Expiration : option lifecycleExpirationXML;
  lrx_NoncurrentDays : option Z;
  lrx_DaysAfterInitiation : option Z
}.
Record applyEncryptionXML := mkapplyEncryptionXML {
  aex_SSEAlgorithm : string;
  aex_KMSMasterKeyID : string
}.
Record objectLockDefaultRetentionXML := mkobjectLockDefaultRetentionXML {
  olx_Mode : string;
  olx_Days : Z;
  olx_Years : Z
}.
Record bucketObjectLockXML := mkbucketObjectLockXML {
  box_ObjectLockEnabled : string;
  box_DefaultRetention : option objectLockDefaultRetentionXML
}.
Record objectVersionEntry := mkobjectVersionEntry {
  xve_Key : string;
  xve_VersionID : string;
  xve_IsLatest : bool;
  xve_LastModified : string;
  xve_ETag : string;
  xve_Size : Z;
  xve_StorageClass : string
}.
Record deleteMarkerEntry := mkdeleteMarkerEntry {
  dme_Key : string;
  dme_VersionID : string;
  dme_IsLatest : bool;
  dme_LastModified : string
}.
Record listVersionsResult := mklistVersionsResult {
  lvs_Name : string;
  lvs_Prefix : string;
  lvs_KeyMarker : string;
  lvs_VersionIDMarker : string;
  lvs_NextKeyMarker : string;
  lvs_NextVersionIDMarker : string;
  lvs_Delimiter : string;
  lvs_MaxKeys : Z;
  lvs_IsTruncated : bool;
  lvs_Versions : list objectVersionEntry;
  lvs_DeleteMarkers : list deleteMarkerEntry;
  lvs_CommonPrefixes : list string
}.
Record objectEntry := mkobjectEntry {
  obe_Key : string;
  obe_LastModified : string;
  obe_ETag : string;
  obe_Size : Z;
  obe_StorageClass : string
}.
Record listBucketResult := mklistBucketResult {
  lbr_Name : string;
  lbr_Prefix : string;
  lbr_Delimiter : string;
  lbr_KeyCount : Z;
  lbr_MaxKeys : Z;
  lbr_IsTruncated : bool;
  lbr_NextContinuationToken : string;
  lbr_Contents : list objectEntry;
  lbr_CommonPrefixes : list string
}.
Record listBucketV1Result := mklistBucketV1Result {
  lb1_Name : string;
  lb1_Prefix : string;
  lb1_Marker : string;
  lb1_NextMarker : string;
  lb1_Delimiter : string;
  lb1_MaxKeys : Z;
  lb1_IsTruncated : bool;
  lb1_Contents : list objectEntry;
  lb1_CommonPrefixes : list string
}.
Record objectTagEntry := mkobjectTagEntry {
  ote_Key : string;
  ote_Value : string
}.
Record objectRetentionResult := mkobjectRetentionResult {
  orx_Mode : string;
  orx_RetainUntilDate : string
}.
Record multipartUploadEntry := mkmultipartUploadEntry {
  mue_Key : string;
  mue_UploadID : string;
  mue_StorageClass : string;
  mue_Initiated : string
}.
Record listMultipartUploadsXML := mklistMultipartUploadsXML {
  lmx_Bucket : string;
  lmx_Prefix : string;
  lmx_KeyMarker : string;
  lmx_UploadIDMarker : string;
  lmx_NextKeyMarker : string;
  lmx_NextUploadIDMarker : string;
  lmx_Delimiter : string;
  lmx_MaxUploads : Z;
  lmx_IsTruncated : bool;
  lmx_Uploads : list multipartUploadEntry;
  lmx_CommonPrefixes : list string
}.
Record initiateMultipartUploadResult := mkinitiateMultipartUploadResult {
  imr_Bucket : string;
  imr_Key : string;
  imr_UploadID : string
}.
Record partEntry := mkpartEntry {
  pte_PartNumber : Z;
  pte_LastModified : string;
  pte_ETag : string;
  pte_Size : Z
}.
Record listPartsResult := mklistPartsResult {
  lpr_Bucket : string;
  lpr_Key : string;
  lpr_UploadID : string;
  lpr_Part : list partEntry
}.
Record completeMultipartUploadResult := mkcompleteMultipartUploadResult {
  cmx_Location : string;
  cmx_Bucket : string;
  cmx_Key : string;
  cmx_ETag : string
}.
Record deleteObjectIdentifier := mkdeleteObjectIdentifier {
  doi_Key : string;
  doi_VersionID : string
}.
Record deleteObjectsRequest := mkdeleteObjectsRequest {
  dox_Objects : list deleteObjectIdentifier;
  dox_Quiet : bool
}.
Record deletedObjectEntry := mkdeletedObjectEntry {
  doe_Key : string;
  doe_VersionID : string;
  doe_DeleteMarker : bool;
  doe_DeleteMarkerVersionID : string
}.
Record deleteErrorEntry := mkdeleteErrorEntry {
  dee_Key : string;
  dee_VersionID : string;
  dee_Code : string;
  dee_Message : string
}.
Record deleteObjectsResult := mkdeleteObjectsResult {
  dos_Deleted : list deletedObjectEntry;
  dos_Errors : list deleteErrorEntry
}.
Record completePart := mkcompletePart {
  cpt_PartNumber : Z;
  cpt_ETag : string
}.

(** What a handler writes as the reply's body. [CopyResult] is [copyObjectResult] and
    [uploadPartCopyResult]; an access-control list names its owner only. *)
Inductive Document :=
| BucketsResult (r : listBucketsResult)
| LocationConstraint (value : string)
| VersioningConfiguration (status : string)
| CORSConfiguration (rules : list corsRuleXML)
| LifecycleConfiguration (rules : list lifecycleRuleXML)
| EncryptionConfiguration (rules : list applyEncryptionXML)
| ObjectLockConfiguration (r : bucketObjectLockXML)
| AccessControlPolicy (owner : ownerEntry)
| VersionsResult (r : listVersionsResult)
| BucketV2Result (r : listBucketResult)
| BucketV1Result (r : listBucketV1Result)
| TaggingResult (tags : list objectTagEntry)
| RetentionResult (r : objectRetentionResult)
| LegalHoldResult (status : string)
| UploadsResult (r : listMultipartUploadsXML)
| InitiateResult (r : initiateMultipartUploadResult)
| PartsResult (r : listPartsResult)
| CopyResult (lastModified etag : string)
| CompleteResult (r : completeMultipartUploadResult)
| DeleteResultDoc (r : deleteObjectsResult).

Inductive Body := NoBody | Bytes (s : string) | Xml (d : Document) | Json (p : PolicyDocument).

(** ** Replies *)

(** Response headers; setting one to the empty text removes it. *)
Definition Headers : Type := gmap string string.
Definition set_header (name value : string) (h : Headers) : Headers :=
  if value =s "" then delete name h else <[name := value]> h.

Record Reply := mkReply {
  rp_Status : Z;
  rp_Headers : Headers;
  rp_Body : Body
}.

(** A handler that stopped with [writeS3Error], after it had set some headers. *)
Record Refusal := mkRefusal {
  rf_Headers : Headers;
  rf_Error : S3Error
}.
Definition refusal (e : S3Error) : Refusal := mkRefusal ∅ e.

(** ** The library around HTTP *)

Class GoNet := {
  ParseMediaType : string -> option string;
  ParseRFC3339 : string -> option Time;
  ParseDate : string -> option Time;
  HttpTime : Time -> string;
  xml_versioning : string -> option string;
  xml_objectLock : string -> option bucketObjectLockXML;
  xml_cors : string -> option (list corsRuleXML);
  xml_lifecycle : string -> option (list lifecycleRuleXML);
  xml_encryption : string -> option (list applyEncryptionXML);
  xml_delete : string -> option deleteObjectsRequest;
  xml_complete : string -> option (list completePart);
  xml_tagging : string -> option (list objectTagEntry);
  xml_retention : string -> option objectRetentionResult;
  xml_legalHold : string -> option string;
  json_policy : string -> option Policy.json;
  decode_error : string
}.

(** [t.UTC().Format(time.RFC3339)]. *)
Definition RFC3339 (t : Time) : string := RFC3339Nano (t / 1000000000 * 1000000000).

(** *** Queries *)

(** [url.QueryUnescape] and [url.PathUnescape]: percent escapes, and for a query the
    plus sign as a blank. *)
Fixpoint unescape (plus : bool) (s : list ascii) : option (list ascii) :=
  match s with
  | [] => Some []
  | c :: rest =>
      if byte_is 37 c then
        match rest with
        | a :: b :: rest' =>
            x ← hex_value a; y ← hex_value b; l ← unescape plus rest';
            Some (ascii_of_N (16 * x + y) :: l)
        | _ => None
        end
      else l ← unescape plus rest; Some ((if plus && byte_is 43 c then " "%char else c) :: l)
  end.
Definition QueryUnescape (s : string) : option string :=
  String.string_of_list_ascii <$> unescape true (String.list_ascii_of_string s).
Definition PathUnescape (s : string) : option string :=
  String.string_of_list_ascii <$> unescape false (String.list_ascii_of_string s).

(** [url.ParseQuery], when it reports no error: the values of each key in order. *)
Fixpoint parse_pairs (pairs : list string) (out : gmap string (list string)) : option (gmap string (list string)) :=
  match pairs with
  | [] => Some out
  | item :: rest =>
      if contains_byte ";" item then None
      else if item =s "" then parse_pairs rest out
      else
        let '(k, v, _) := Cut "=" item in
        key ← QueryUnescape k; value ← QueryUnescape v;
        parse_pairs rest (<[key := (default [] (out !! key) ++ [value])%list]> out)
  end.
Definition ParseQuery (s : string) : option (gmap string (list string)) := parse_pairs (Split "&" s) ∅.

Example parse_query_ex :
  ParseQuery "a=1&b=x%20y+z&a=2" = Some (<["a" := ["1"; "2"]]> (<["b" := ["x y z"]]> ∅)) /\ ParseQuery "a=%zz" = None.
Proof. split; [vm_compute; f_equal; apply map_eq; intros; done | by vm_compute]. Qed.
