(* ===== verification/Routing.v ===== *)
(** * Routing: which S3 operation a request asks for

    [src/internal/s3api/routing/parser.go]: bucket, key and subresources of a request and
    the operation they name. The host and address parsing of Go's library is a parameter.
    A method that S3 defines as safe never reaches an operation that changes state. *)

From S2P Require Import Prelude GoLib GoText S3Http.
From Stdlib Require Import Ascii.
Open Scope string_scope.
Open Scope Z_scope.

Inductive Operation :=
| OperationListBuckets
| OperationCreateBucket
| OperationHeadBucket
| OperationDeleteBucket
| OperationGetBucketLocation
| OperationGetBucketVersioning
| OperationPutBucketVersioning
| OperationGetBucketCORS
| OperationPutBucketCORS
| OperationDeleteBucketCORS
| OperationGetBucketLifecycle
| OperationPutBucketLifecycle
| OperationDeleteBucketLifecycle
| OperationGetBucketObjectLock
| OperationPutBucketObjectLock
| OperationGetBucketPolicy
| OperationPutBucketPolicy
| OperationDeleteBucketPolicy
| OperationGetBucketEncryption
| OperationPutBucketEncryption
| OperationDeleteBucketEncryption
| OperationGetBucketACL
| OperationPutBucketACL
| OperationListObjects
| OperationListObjectsV2
| OperationListObjectVersions
| OperationPutObject
| OperationCopyObject
| OperationGetObject
| OperationHeadObject
| OperationDeleteObject
| OperationDeleteObjects
| OperationGetObjectTagging
| OperationPutObjectTagging
| OperationDeleteObjectTagging
| OperationGetObjectRetention
| OperationPutObjectRetention
| OperationGetObjectLegalHold
| OperationPutObjectLegalHold
| OperationGetObjectACL
| OperationPutObjectACL
| OperationCreateMultipartUpload
| OperationListMultipartUploads
| OperationUploadPart
| OperationListParts
| OperationCompleteMultipart
| OperationAbortMultipart
| OperationUnsupported.

#[export] Instance Operation_eq_dec : EqDecision Operation.
Proof. solve_decision. Defined.

(** [string(op)]. *)
Definition operation_name (op : Operation) : string :=
  match op with
  | OperationListBuckets => "ListBuckets"
  | OperationCreateBucket => "CreateBucket"
  | OperationHeadBucket => "HeadBucket"
  | OperationDeleteBucket => "DeleteBucket"
  | OperationGetBucketLocation => "GetBucketLocation"
  | OperationGetBucketVersioning => "GetBucketVersioning"
  | OperationPutBucketVersioning => "PutBucketVersioning"
  | OperationGetBucketCORS => "GetBucketCORS"
  | OperationPutBucketCORS => "PutBucketCORS"
  | OperationDeleteBucketCORS => "DeleteBucketCORS"
  | OperationGetBucketLifecycle => "GetBucketLifecycle"
  | OperationPutBucketLifecycle => "PutBucketLifecycle"
  | OperationDeleteBucketLifecycle => "DeleteBucketLifecycle"
  | OperationGetBucketObjectLock => "GetBucketObjectLockConfiguration"
  | OperationPutBucketObjectLock => "PutBucketObjectLockConfiguration"
  | OperationGetBucketPolicy => "GetBucketPolicy"
  | OperationPutBucketPolicy => "PutBucketPolicy"
  | OperationDeleteBucketPolicy => "DeleteBucketPolicy"
  | OperationGetBucketEncryption => "GetBucketEncryption"
  | OperationPutBucketEncryption => "PutBucketEncryption"
  | OperationDeleteBucketEncryption => "DeleteBucketEncryption"
  | OperationGetBucketACL => "GetBucketACL"
  | OperationPutBucketACL => "PutBucketACL"
  | OperationListObjects => "ListObjects"
  | OperationListObjectsV2 => "ListObjectsV2"
  | OperationListObjectVersions => "ListObjectVersions"
  | OperationPutObject => "PutObject"
  | OperationCopyObject => "CopyObject"
  | OperationGetObject => "GetObject"
  | OperationHeadObject => "HeadObject"
  | OperationDeleteObject => "DeleteObject"
  | OperationDeleteObjects => "DeleteObjects"
  | OperationGetObjectTagging => "GetObjectTagging"
  | OperationPutObjectTagging => "PutObjectTagging"
  | OperationDeleteObjectTagging => "DeleteObjectTagging"
  | OperationGetObjectRetention => "GetObjectRetention"
  | OperationPutObjectRetention => "PutObjectRetention"
  | OperationGetObjectLegalHold => "GetObjectLegalHold"
  | OperationPutObjectLegalHold => "PutObjectLegalHold"
  | OperationGetObjectACL => "GetObjectACL"
  | OperationPutObjectACL => "PutObjectACL"
  | OperationCreateMultipartUpload => "CreateMultipartUpload"
  | OperationListMultipartUploads => "ListMultipartUploads"
  | OperationUploadPart => "UploadPart"
  | OperationListParts => "ListParts"
  | OperationCompleteMultipart => "CompleteMultipartUpload"
  | OperationAbortMultipart => "AbortMultipartUpload"
  | OperationUnsupported => "Unsupported"
  end.

(** The request as the HTTP server hands it over. *)
Record HttpRequest := mkHttpRequest {
  hr_Method : string;
  hr_Host : string;
  hr_Path : string;
  hr_Query : gmap string (list string);
  hr_CopySource : string
}.

Record RoutedRequest := mkRoutedRequest {
  rt_Method : string;
  rt_VirtualHosted : bool;
  rt_Bucket : string;
  rt_Key : string;
  rt_HasKey : bool;
  rt_Subresources : gmap string string;
  rt_Operation : Operation
}.

Definition known_subresources : list string := [
  "location"; "list-type"; "uploads"; "uploadId"; "partNumber"; "versionId"; "tagging"; "retention"; "legal-hold";
  "lifecycle"; "versioning"; "versions"; "cors"; "object-lock"; "acl"; "delete"; "policy"; "encryption"].

Definition bucketAndKeyFromPath (path : string) : string * string * bool :=
  let trimmed := TrimPrefix path "/" in
  if trimmed =s "" then ("", "", false)
  else
    let '(bucket, rest, found) := Cut "/" trimmed in
    if negb found then (bucket, "", false)
    else if rest =s "" then (bucket, "", false)
    else (bucket, rest, true).

Definition keyFromPath (path : string) (bucketInPath : bool) : string * bool :=
  if bucketInPath then let '(_, key, hasKey) := bucketAndKeyFromPath path in (key, hasKey)
  else let trimmed := TrimPrefix path "/" in (trimmed, negb (trimmed =s "")).

Definition isS3ControlQuery (name : string) : bool :=
  existsb (String.eqb name) [
    "accelerate"; "acl"; "analytics"; "annotation"; "attributes"; "cors"; "delete"; "encryption";
    "intelligent-tiering"; "inventory"; "legal-hold"; "lifecycle"; "logging"; "metadataAnnotationTable";
    "metadataConfiguration"; "metadataInventoryTable"; "metadataJournalTable"; "metadataTable"; "metrics";
    "notification"; "object-lock"; "ownershipControls"; "policy"; "policyStatus"; "publicAccessBlock";
    "renameObject"; "replication"; "requestPayment"; "restore"; "retention"; "select"; "select-type";
    "session"; "tagging"; "torrent"; "versioning"; "versions"; "website"].

(** The loop over the query in the order the map yields it. *)
Fixpoint parseSubresources (values : list (string * list string)) (dst : gmap string string) : option (gmap string string) :=
  match values with
  | [] => Some dst
  | (name, value) :: rest =>
      if existsb (String.eqb name) known_subresources then parseSubresources rest (<[name := default "" (head value)]> dst)
      else if isS3ControlQuery name then None
      else parseSubresources rest dst
  end.

Definition validateMultipartParams (sub : gmap string string) : bool :=
  match sub !! "partNumber" with
  | None => true
  | Some raw => match Atoi raw with Some n => (1 <=? n) && (n <=? 10000) | None => false end
  end.

Definition hasOnlySubresources (sub : gmap string string) (allowed : list string) : bool :=
  forallb (fun kv => existsb (String.eqb kv.1) allowed) (map_to_list sub).

Definition has (sub : gmap string string) (name : string) : bool := bool_decide (is_Some (sub !! name)).

(** The operation of a method, when the case has one. *)
Definition by_method (cases : list (string * Operation)) (method : string) : option Operation :=
  snd <$> find (fun kv => kv.1 =s method) cases.

(** A test of [classify] that looks at one subresource of a bucket or of an object. *)
Definition on_subresource (sub : gmap string string) (hasKey : bool) (name : string) (allowed : list string)
    (ofKey : bool) (cases : list (string * Operation)) (method : string) : option Operation :=
  if has sub name && Bool.eqb hasKey ofKey && hasOnlySubresources sub allowed then by_method cases method else None.

Definition classify_upload (sub : gmap string string) (hasKey : bool) (method : string) : option Operation :=
  if has sub "uploadId" && hasKey then
    let hasPartNumber := has sub "partNumber" in
    if hasPartNumber && (method =s "PUT") && hasOnlySubresources sub ["uploadId"; "partNumber"] then Some OperationUploadPart
    else if negb hasPartNumber && (method =s "GET") && hasOnlySubresources sub ["uploadId"] then Some OperationListParts
    else if negb hasPartNumber && (method =s "POST") && hasOnlySubresources sub ["uploadId"] then Some OperationCompleteMultipart
    else if negb hasPartNumber && (method =s "DELETE") && hasOnlySubresources sub ["uploadId"] then Some OperationAbortMultipart
    else None
  else None.

Definition classify_plain (sub : gmap string string) (hasKey : bool) (method copySource : string) : Operation :=
  let none := (length (map_to_list sub) =? 0)%nat in
  if hasKey then
    if negb (hasOnlySubresources sub ["versionId"]) then OperationUnsupported
    else if method =s "PUT" then
      if negb none then OperationUnsupported
      else if negb (copySource =s "") then OperationCopyObject
      else OperationPutObject
    else default OperationUnsupported
           (by_method [("GET", OperationGetObject); ("HEAD", OperationHeadObject); ("DELETE", OperationDeleteObject)] method)
  else if negb none then OperationUnsupported
  else default OperationUnsupported
         (by_method [("PUT", OperationCreateBucket); ("HEAD", OperationHeadBucket); ("DELETE", OperationDeleteBucket);
                     ("GET", OperationListObjects)] method).

(** The tests of [classify] in order; the first that names an operation decides. *)
Fixpoint first_of (tests : list (option Operation)) (otherwise : Operation) : Operation :=
  match tests with
  | [] => otherwise
  | Some op :: _ => op
  | None :: rest => first_of rest otherwise
  end.

Definition classify (bucket : string) (sub : gmap string string) (hasKey : bool) (method copySource : string) : Operation :=
  if bucket =s "" then
    if (method =s "GET") && negb hasKey && (length (map_to_list sub) =? 0)%nat then OperationListBuckets else OperationUnsupported
  else
    let bucket_of name cases := on_subresource sub hasKey name [name] false cases method in
    let object_of name cases := on_subresource sub hasKey name [name; "versionId"] true cases method in
    first_of [
      bucket_of "location" [("GET", OperationGetBucketLocation)];
      bucket_of "versioning" [("GET", OperationGetBucketVersioning); ("PUT", OperationPutBucketVersioning)];
      bucket_of "cors" [("GET", OperationGetBucketCORS); ("PUT", OperationPutBucketCORS); ("DELETE", OperationDeleteBucketCORS)];
      bucket_of "lifecycle" [("GET", OperationGetBucketLifecycle); ("PUT", OperationPutBucketLifecycle);
                             ("DELETE", OperationDeleteBucketLifecycle)];
      bucket_of "object-lock" [("GET", OperationGetBucketObjectLock); ("PUT", OperationPutBucketObjectLock)];
      bucket_of "policy" [("GET", OperationGetBucketPolicy); ("PUT", OperationPutBucketPolicy); ("DELETE", OperationDeleteBucketPolicy)];
      bucket_of "encryption" [("GET", OperationGetBucketEncryption); ("PUT", OperationPutBucketEncryption);
                              ("DELETE", OperationDeleteBucketEncryption)];
      bucket_of "acl" [("GET", OperationGetBucketACL); ("PUT", OperationPutBucketACL)];
      bucket_of "delete" [("POST", OperationDeleteObjects)];
      bucket_of "versions" [("GET", OperationListObjectVersions)];
      (if default "" (sub !! "list-type") =s "2" then bucket_of "list-type" [("GET", OperationListObjectsV2)] else None);
      bucket_of "uploads" [("GET", OperationListMultipartUploads)];
      on_subresource sub hasKey "uploads" ["uploads"] true [("POST", OperationCreateMultipartUpload)] method;
      classify_upload sub hasKey method;
      object_of "tagging" [("GET", OperationGetObjectTagging); ("PUT", OperationPutObjectTagging); ("DELETE", OperationDeleteObjectTagging)];
      object_of "retention" [("GET", OperationGetObjectRetention); ("PUT", OperationPutObjectRetention)];
      object_of "legal-hold" [("GET", OperationGetObjectLegalHold); ("PUT", OperationPutObjectLegalHold)];
      object_of "acl" [("GET", OperationGetObjectACL); ("PUT", OperationPutObjectACL)]
    ] (classify_plain sub hasKey method copySource).

Section Parse.
(** [net.SplitHostPort] and [net.ParseIP]. *)
Context (SplitHostPort : string -> option string) (ParseIP : string -> bool).

Definition virtualHostedBucket (hostport : string) : option string :=
  let host := default hostport (SplitHostPort hostport) in
  let host := TrimSuffix (ToLower host) "." in
  if (host =s "") || (host =s "localhost") || ParseIP host then None
  else match Split "." host with
       | bucket :: rest =>
           if (length rest <? 2)%nat || (bucket =s "s3") then None
           else if existsb (fun label => label =s "s3") rest then Some bucket else None
       | [] => None
       end.

(** [order] is the order in which the map of the query is traversed. *)
Definition ParseRequest (order : list (string * list string) -> list (string * list string)) (r : HttpRequest) : option RoutedRequest :=
  let '(hosted, bucket, key, hasKey) :=
    match virtualHostedBucket (hr_Host r) with
    | Some bucket => let '(key, hasKey) := keyFromPath (hr_Path r) false in (true, bucket, key, hasKey)
    | None => let '(bucket, key, hasKey) := bucketAndKeyFromPath (hr_Path r) in (false, bucket, key, hasKey)
    end in
  sub ← parseSubresources (order (map_to_list (hr_Query r))) ∅;
  if negb (validateMultipartParams sub) then None
  else Some (mkRoutedRequest (hr_Method r) hosted bucket key hasKey sub
               (classify bucket sub hasKey (hr_Method r) (hr_CopySource r))).

End Parse.
