(* ===== verification/Admission.v ===== *)
(** * Admission: draining, request limits and the data budget of a gateway

    [src/internal/gateway/drain.go], [request_limiter.go] and [data_budget.go]: the
    controller that stops a gateway, the limits on concurrent requests and the budget
    of bytes in flight. Each method runs under its mutex, so what a gateway does to the
    controller is a sequence of admissions, ends of admitted requests and drains. A
    gateway that is drained has no write under way and admits none; it gets there when
    the writes under way end. *)

From S2P Require Import Prelude GoLib GoText S3Http Routing.
Open Scope string_scope.
Open Scope Z_scope.

(** ** Draining *)

Inductive GatewayDrainState := GatewayDrainActive | GatewayDrainDraining | GatewayDrainDrained.
#[export] Instance GatewayDrainState_eq_dec : EqDecision GatewayDrainState.
Proof. solve_decision. Defined.

(** [dc_closed] counts how often the channel [drained] was closed; a second time panics. *)
Record GatewayDrainController := mkGatewayDrainController {
  dc_state : GatewayDrainState;
  dc_inFlightWrites : Z;
  dc_closed : nat
}.
#[export] Instance eta_GatewayDrainController : RecordEta GatewayDrainController := fun r =>
  mkGatewayDrainController (dc_state r) (dc_inFlightWrites r) (dc_closed r).

Definition NewGatewayDrainController : GatewayDrainController := mkGatewayDrainController GatewayDrainActive 0 0.

Definition isGatewayDrainWriteOperation (op : Operation) : bool :=
  match op with
  | OperationCreateBucket | OperationDeleteBucket | OperationPutBucketVersioning | OperationPutBucketCORS
  | OperationDeleteBucketCORS | OperationPutBucketLifecycle | OperationDeleteBucketLifecycle
  | OperationPutBucketObjectLock | OperationPutBucketPolicy | OperationDeleteBucketPolicy
  | OperationPutBucketEncryption | OperationDeleteBucketEncryption | OperationPutBucketACL
  | OperationPutObject | OperationCopyObject | OperationDeleteObject | OperationDeleteObjects
  | OperationPutObjectTagging | OperationDeleteObjectTagging | OperationPutObjectRetention
  | OperationPutObjectLegalHold | OperationPutObjectACL | OperationCreateMultipartUpload
  | OperationUploadPart | OperationCompleteMultipart | OperationAbortMultipart => true
  | _ => false
  end.

Definition markDrainedLocked (d : GatewayDrainController) : GatewayDrainController :=
  match dc_state d with
  | GatewayDrainDrained => d
  | _ => d <| dc_state := GatewayDrainDrained |> <| dc_closed := S (dc_closed d) |>
  end.

Definition drained_when_idle (d : GatewayDrainController) : GatewayDrainController :=
  if bool_decide (dc_state d = GatewayDrainDraining) && (dc_inFlightWrites d =? 0) then markDrainedLocked d else d.

(** What [Admit] returns: nothing to release, a write to be finished, or the error. *)
Inductive admission := NotCounted | Counted | Draining.
Definition Admit (op : Operation) (d : GatewayDrainController) : admission * GatewayDrainController :=
  if negb (isGatewayDrainWriteOperation op) then (NotCounted, d)
  else if negb (bool_decide (dc_state d = GatewayDrainActive)) then (Draining, d)
  else (Counted, d <| dc_inFlightWrites := int64 (dc_inFlightWrites d + 1) |>).

Definition finishWrite (d : GatewayDrainController) : GatewayDrainController :=
  drained_when_idle (if 0 <? dc_inFlightWrites d then d <| dc_inFlightWrites := int64 (dc_inFlightWrites d - 1) |> else d).

Definition StartDrain (d : GatewayDrainController) : GatewayDrainController :=
  drained_when_idle (if bool_decide (dc_state d = GatewayDrainActive) then d <| dc_state := GatewayDrainDraining |> else d).

(** [WaitDrained] as long as its context lives: the error, the return, or the wait. *)
Inductive waiting := NotStarted | Returns | Waits.
Definition WaitDrained (d : GatewayDrainController) : waiting :=
  match dc_state d with
  | GatewayDrainActive => NotStarted
  | GatewayDrainDrained => Returns
  | GatewayDrainDraining => if (0 <? dc_closed d)%nat then Returns else Waits
  end.

(** ** The data budget *)

Record dataBudget := mkDataBudget {
  db_maxBytes : Z;
  db_maxRequests : Z;
  db_unknownBytes : Z;
  db_bytes : Z;
  db_requests : Z
}.
#[export] Instance eta_dataBudget : RecordEta dataBudget := fun r =>
  mkDataBudget (db_maxBytes r) (db_maxRequests r) (db_unknownBytes r) (db_bytes r) (db_requests r).

Definition newDataBudget (bytes maxRequests unknownBytes : Z) : option dataBudget :=
  if (bytes =? 0) && (maxRequests <=? 0) then None else Some (mkDataBudget bytes maxRequests unknownBytes 0 0).

(** The reservation that [tryAcquire] made, or the reason why it made none. *)
Definition budget_tryAcquire (sizeBytes : Z) (sizeKnown : bool) (b : dataBudget) : (Z + string) * dataBudget :=
  let reservedBytes := if sizeKnown then sizeBytes else db_unknownBytes b in
  if negb sizeKnown && (0 <? db_maxBytes b) && (reservedBytes =? 0) then (inr "unknown_size", b)
  else if (0 <? db_maxRequests b) && (db_maxRequests b <? int64 (db_requests b + 1)) then (inr "request_limit", b)
  else if (0 <? db_maxBytes b) &&
          ((db_maxBytes b <? reservedBytes) || (uint64 (db_bytes b + reservedBytes) <? db_bytes b)
           || (db_maxBytes b <? uint64 (db_bytes b + reservedBytes)))
  then (inr "bytes_limit", b)
  else (inl reservedBytes, b <| db_requests := int64 (db_requests b + 1) |> <| db_bytes := uint64 (db_bytes b + reservedBytes) |>).

Definition budget_release (reservedBytes : Z) (b : dataBudget) : dataBudget :=
  let b := if 0 <? db_requests b then b <| db_requests := int64 (db_requests b - 1) |> else b in
  b <| db_bytes := if db_bytes b <? reservedBytes then 0 else db_bytes b - reservedBytes |>.

Definition copyDataBudgetBytes (sizeBytes : Z) : Z :=
  if (2 ^ 64 - 1) / 2 <? sizeBytes then 2 ^ 64 - 1 else uint64 (sizeBytes * 2).

(** ** Request limits *)

Record requestLimiter := mkRequestLimiter {
  rl_maxConcurrent : Z;
  rl_maxConcurrentPerTenant : Z;
  rl_maxConcurrentReads : Z;
  rl_maxConcurrentWrites : Z;
  rl_inFlight : Z;
  rl_byTenant : gmap string Z;
  rl_byClass : gmap string Z
}.
#[export] Instance eta_requestLimiter : RecordEta requestLimiter := fun r =>
  mkRequestLimiter (rl_maxConcurrent r) (rl_maxConcurrentPerTenant r) (rl_maxConcurrentReads r) (rl_maxConcurrentWrites r)
    (rl_inFlight r) (rl_byTenant r) (rl_byClass r).

Definition newRequestLimiter (maxConcurrent perTenant reads writes : Z) : option requestLimiter :=
  if (maxConcurrent <=? 0) && (perTenant <=? 0) && (reads <=? 0) && (writes <=? 0) then None
  else Some (mkRequestLimiter maxConcurrent perTenant reads writes 0 ∅ ∅).

Definition normalizeRequestLimitClass (class : string) : string :=
  if (class =s "read") || (class =s "write") then class else "other".
Definition classLimit (l : requestLimiter) (class : string) : Z :=
  if class =s "read" then rl_maxConcurrentReads l else if class =s "write" then rl_maxConcurrentWrites l else 0.
Definition requestLimitClassForOperation (op : Operation) : string :=
  if isGatewayDrainWriteOperation op then "write" else if bool_decide (op = OperationUnsupported) then "other" else "read".

Definition count (m : gmap string Z) (key : string) : Z := default 0 (m !! key).

(** [None] admits the request, [Some] is the limit it would exceed. *)
Definition limiter_tryAcquire (tenantID class : string) (l : requestLimiter) : option string * requestLimiter :=
  let class := normalizeRequestLimitClass class in
  if (0 <? rl_maxConcurrent l) && (rl_maxConcurrent l <? int64 (rl_inFlight l + 1)) then (Some "global", l)
  else if (0 <? rl_maxConcurrentPerTenant l) && negb (tenantID =s "")
          && (rl_maxConcurrentPerTenant l <? int64 (count (rl_byTenant l) tenantID + 1)) then (Some "tenant", l)
  else if (0 <? classLimit l class) && (classLimit l class <? int64 (count (rl_byClass l) class + 1))
       then (Some (class +:+ "_class"), l)
  else (None, l <| rl_inFlight := int64 (rl_inFlight l + 1) |>
                <| rl_byTenant := if tenantID =s "" then rl_byTenant l
                                  else <[tenantID := int64 (count (rl_byTenant l) tenantID + 1)]> (rl_byTenant l) |>
                <| rl_byClass := <[class := int64 (count (rl_byClass l) class + 1)]> (rl_byClass l) |>).

Definition leave_count (m : gmap string Z) (key : string) : gmap string Z :=
  if count m key <=? 1 then delete key m else <[key := int64 (count m key - 1)]> m.

Definition limiter_release (tenantID class : string) (l : requestLimiter) : requestLimiter :=
  l <| rl_inFlight := if 0 <? rl_inFlight l then int64 (rl_inFlight l - 1) else rl_inFlight l |>
    <| rl_byTenant := if tenantID =s "" then rl_byTenant l else leave_count (rl_byTenant l) tenantID |>
    <| rl_byClass := leave_count (rl_byClass l) class |>.

(** ** What a gateway does *)

(** A request that enters, the end of the i-th request that entered, or the drain. *)
Inductive event := Enter (op : Operation) | Leave (i : nat) | Drain.

(** The controller and, by the order in which they entered, whether each counted
    request is still under way; the release function runs once. *)
Record gateway := mkGateway { gw_drain : GatewayDrainController; gw_writes : list bool }.
#[export] Instance eta_gateway : RecordEta gateway := fun r => mkGateway (gw_drain r) (gw_writes r).

Definition happen (g : gateway) (e : event) : gateway :=
  match e with
  | Enter op =>
      match Admit op (gw_drain g) with
      | (Counted, d) => mkGateway d (gw_writes g ++ [true])%list
      | (_, d) => mkGateway d (gw_writes g ++ [false])%list
      end
  | Leave i =>
      match gw_writes g !! i with
      | Some true => mkGateway (finishWrite (gw_drain g)) (<[i := false]> (gw_writes g))
      | _ => g
      end
  | Drain => mkGateway (StartDrain (gw_drain g)) (gw_writes g)
  end.
Definition happens (events : list event) (g : gateway) : gateway := foldl happen g events.

(** The requests that change state and are under way. *)
Definition under_way (g : gateway) : Z := Z.of_nat (length (filter (fun b => b = true) (gw_writes g))).

(** *** The invariant *)

Definition drain_inv (g : gateway) : Prop :=
  dc_inFlightWrites (gw_drain g) = under_way g /\
  (dc_state (gw_drain g) = GatewayDrainDrained <-> dc_closed (gw_drain g) = 1%nat) /\
  (dc_closed (gw_drain g) <= 1)%nat /\
  (dc_state (gw_drain g) = GatewayDrainDrained -> under_way g = 0) /\
  (dc_state (gw_drain g) = GatewayDrainDraining -> under_way g <> 0).

(** Fewer requests enter than an [int] counts. *)
Definition countable (g : gateway) : Prop := Z.of_nat (length (gw_writes g)) < 2 ^ 63 - 1.

Lemma under_way_bounds g : 0 <= under_way g <= Z.of_nat (length (gw_writes g)).
Proof. unfold under_way. pose proof (length_filter (fun b => b = true) (gw_writes g)). lia. Qed.

Lemma under_way_enter d g b : under_way (mkGateway d (gw_writes g ++ [b])%list) = under_way g + (if b : bool then 1 else 0).
Proof. unfold under_way. cbn [gw_writes]. rewrite filter_app, length_app, Nat2Z.inj_add. by destruct b. Qed.

Lemma under_way_leave d g i : gw_writes g !! i = Some true -> under_way (mkGateway d (<[i := false]> (gw_writes g))) = under_way g - 1.
Proof.
  unfold under_way. cbn [gw_writes]. generalize (gw_writes g) as l. intros l. revert i.
  induction l as [|b l IH]; intros [|i] Hi; [done | done | |].
  - cbn in Hi. simplify_eq. change (<[0%nat := false]> (true :: l)) with (false :: l).
    rewrite filter_cons_False, filter_cons_True by done. cbn [length]. lia.
  - specialize (IH i Hi). change (<[S i := false]> (b :: l)) with (b :: <[i := false]> l). rewrite !filter_cons. destruct (decide (b = true)); cbn [length]; lia.
Qed.

Lemma drained_when_idle_inv d w :
  dc_inFlightWrites d = under_way (mkGateway d w) -> dc_state d <> GatewayDrainActive -> (dc_closed d <= 1)%nat ->
  (dc_state d = GatewayDrainDrained <-> dc_closed d = 1%nat) ->
  (dc_state d = GatewayDrainDrained -> under_way (mkGateway d w) = 0) ->
  drain_inv (mkGateway (drained_when_idle d) w).
Proof.
  change (under_way (mkGateway d w)) with (under_way (mkGateway (drained_when_idle d) w)).
  intros Hn Ha Hc Hiff Hz. unfold drain_inv. cbn [gw_drain]. set (u := under_way _) in *. clearbody u.
  unfold drained_when_idle, markDrainedLocked. destruct (dc_state d) eqn:Hst; [done| |].
  - assert (dc_closed d = 0%nat) as Hc0.
    { assert (dc_closed d <> 1%nat) by (intros ?%Hiff; discriminate). lia. }
    rewrite Hn. replace (bool_decide (GatewayDrainDraining = GatewayDrainDraining)) with true by done. cbn [andb].
    destruct (Z.eqb_spec u 0) as [->|Hne]; field_simpl; rewrite ?Hst, ?Hc0, ?Hn; split_and!; try done;
      try (split; intros; discriminate || lia); lia.
  - replace (bool_decide (GatewayDrainDrained = GatewayDrainDraining)) with false by done. cbn [andb].
    rewrite Hst, Hn. split_and!; auto; done.
Qed.

Lemma happen_inv g e : countable g -> drain_inv g -> drain_inv (happen g e).
Proof.
  intros Hcount (Hn & Hiff & Hc & Hz & Hd). pose proof (under_way_bounds g) as Hb. unfold countable in Hcount.
  destruct e as [op|i|]; cbn [happen].
  - unfold Admit. destruct (isGatewayDrainWriteOperation op); cbn [negb]; [|unfold drain_inv; rewrite under_way_enter; cbn [gw_drain]; rewrite Z.add_0_r; by split_and!].
    destruct (bool_decide_reflect (dc_state (gw_drain g) = GatewayDrainActive)) as [Ha|Ha]; cbn [negb];
      unfold drain_inv; rewrite under_way_enter; cbn [gw_drain]; [|rewrite Z.add_0_r; by split_and!].
    field_simpl. rewrite Hn, int64_id by lia. rewrite Ha in *. split_and!; [done | done | done | done | done].
  - destruct (gw_writes g !! i) as [[]|] eqn:Hi; [|by split_and!..]. unfold finishWrite.
    assert (0 < under_way g) as Hpos by (pose proof (under_way_leave (gw_drain g) g i Hi); pose proof (under_way_bounds (mkGateway (gw_drain g) (<[i:=false]> (gw_writes g)))); lia).
    rewrite Hn. destruct (Z.ltb_spec 0 (under_way g)); [|lia]. rewrite int64_id by lia.
    set (d := (gw_drain g) <| dc_inFlightWrites := under_way g - 1 |>).
    assert (dc_state d = dc_state (gw_drain g) /\ dc_closed d = dc_closed (gw_drain g) /\ dc_inFlightWrites d = under_way g - 1) as (E1 & E2 & E3) by done.
    destruct (decide (dc_state (gw_drain g) = GatewayDrainActive)) as [Ha|Ha].
    + unfold drained_when_idle. rewrite E1, Ha. replace (bool_decide (GatewayDrainActive = GatewayDrainDraining)) with false by done.
      unfold drain_inv. cbn [gw_drain andb]. rewrite (under_way_leave _ g i Hi), E1, E2, E3. rewrite Ha in *. by split_and!.
    + apply drained_when_idle_inv; rewrite ?(under_way_leave _ g i Hi), ?E1, ?E2, ?E3; try done. intros Hdr. specialize (Hz Hdr). lia.
  - unfold StartDrain. destruct (bool_decide_reflect (dc_state (gw_drain g) = GatewayDrainActive)) as [Ha|Ha].
    + apply drained_when_idle_inv; field_simpl; try done. rewrite Ha in Hiff. split; [discriminate|]. intros Hone. by apply Hiff in Hone.
    + apply drained_when_idle_inv; done.
Qed.

(** ** A reservation that was made fits, and releasing it restores the budget *)

Lemma budget_fits size known b reserved b' :
  0 <= db_bytes b -> 0 <= size < 2 ^ 64 -> 0 <= db_unknownBytes b < 2 ^ 64 -> 0 <= db_requests b < 2 ^ 63 - 1 -> 0 < db_maxBytes b < 2 ^ 64 ->
  db_bytes b <= db_maxBytes b -> budget_tryAcquire size known b = (inl reserved, b') ->
  db_bytes b' = db_bytes b + reserved /\ db_bytes b' <= db_maxBytes b /\ budget_release reserved b' = b.
Proof.
  intros Hb Hs Hu Hr Hm Hle. unfold budget_tryAcquire. set (res := if known then size else _).
  assert (0 <= res < 2 ^ 64) as Hres by (by destruct known). clearbody res.
  destruct (negb known && _ && _); [done|]. destruct (_ && _); [done|]. destruct (Z.ltb_spec 0 (db_maxBytes b)); [|lia]. cbn [andb].
  destruct (Z.ltb_spec (db_maxBytes b) res) as [|H1]; [done|]. cbn [orb].
  destruct (Z.ltb_spec (uint64 (db_bytes b + res)) (db_bytes b)) as [|H2]; [done|]. cbn [orb].
  destruct (Z.ltb_spec (db_maxBytes b) (uint64 (db_bytes b + res))) as [|H3]; [done|]. intros ?; simplify_eq.
  assert (uint64 (db_bytes b + reserved) = db_bytes b + reserved) as E.
  { unfold uint64 in *. destruct (Z.lt_ge_cases (db_bytes b + reserved) (2 ^ 64)); [by apply Z.mod_small; lia|].
    assert ((db_bytes b + reserved) mod 2 ^ 64 = db_bytes b + reserved - 2 ^ 64); [|lia].
    symmetry. apply (Z.mod_unique_pos _ _ 1); lia. }
  field_simpl. rewrite E in *. split_and!; [done | done|]. unfold budget_release. rewrite !int64_id by lia. field_simpl.
  destruct (Z.ltb_spec 0 (db_requests b + 1)); [|lia]. field_simpl. rewrite int64_id by lia.
  destruct (Z.ltb_spec (db_bytes b + reserved) reserved); [lia|].
  replace (db_bytes b + reserved - reserved) with (db_bytes b) by lia.
  replace (db_requests b + 1 - 1) with (db_requests b) by lia. by destruct b.
Qed.

(** ** Every request that may change state is counted *)

(** The methods S3 defines as safe lead to operations that are not counted, the others
    to operations that are, unless they are not supported. *)
Definition method_agrees (method : string) (op : Operation) : bool :=
  if existsb (String.eqb method) ["PUT"; "POST"; "DELETE"]
  then isGatewayDrainWriteOperation op || bool_decide (op = OperationUnsupported)
  else negb (isGatewayDrainWriteOperation op).

Definition test_agrees (method : string) (test : option Operation) : Prop :=
  match test with Some op => method_agrees method op = true | None => True end.

Lemma first_of_agrees method tests otherwise :
  Forall (test_agrees method) tests -> method_agrees method otherwise = true -> method_agrees method (first_of tests otherwise) = true.
Proof. induction 1 as [|[op|] tests Ht _ IH]; cbn [first_of]; auto. Qed.

Lemma by_method_agrees cases method :
  forallb (fun kv => method_agrees kv.1 kv.2) cases = true -> test_agrees method (by_method cases method).
Proof.
  intros Hall. unfold by_method. destruct (find _ cases) as [[m op]|] eqn:Hf; [|exact I]. cbn.
  apply find_some in Hf as [Hin Hm]. cbn in Hm. apply String.eqb_eq in Hm as ->. rewrite forallb_forall in Hall. apply (Hall _ Hin).
Qed.

Lemma on_subresource_agrees sub hasKey name allowed ofKey cases method :
  forallb (fun kv => method_agrees kv.1 kv.2) cases = true ->
  test_agrees method (on_subresource sub hasKey name allowed ofKey cases method).
Proof. intros Hall. unfold on_subresource. destruct (_ && _ && _); [by apply by_method_agrees | exact I]. Qed.

Lemma guarded_agrees method (a c : bool) m op test :
  method_agrees m op = true -> test_agrees method test -> test_agrees method (if a && (method =s m) && c then Some op else test).
Proof. intros Hop Ht. destruct a; [|done]. destruct (String.eqb_spec method m) as [->|]; [|done]. by destruct c. Qed.

Lemma classify_upload_agrees sub hasKey method : test_agrees method (classify_upload sub hasKey method).
Proof.
  unfold classify_upload. destruct (has sub "uploadId" && hasKey); [|exact I]. cbv zeta. by repeat apply guarded_agrees.
Qed.

Lemma unsupported_agrees method : method_agrees method OperationUnsupported = true.
Proof. unfold method_agrees. by destruct (existsb _ _). Qed.

Lemma by_method_default_agrees cases method :
  forallb (fun kv => method_agrees kv.1 kv.2) cases = true ->
  method_agrees method (default OperationUnsupported (by_method cases method)) = true.
Proof.
  intros Hall. pose proof (by_method_agrees cases method Hall) as Ht. destruct (by_method cases method); [exact Ht | apply unsupported_agrees].
Qed.

Lemma classify_agrees bucket sub hasKey method copySource : method_agrees method (classify bucket sub hasKey method copySource) = true.
Proof.
  unfold classify. destruct (bucket =s "").
  { destruct (String.eqb_spec method "GET") as [->|]; cbn [andb]; [|apply unsupported_agrees].
    destruct (_ && _); [done | apply unsupported_agrees]. }
  apply first_of_agrees.
  - repeat (apply Forall_cons; split); [..|apply Forall_nil; exact I];
      try (apply on_subresource_agrees; by vm_compute); [|apply classify_upload_agrees].
    destruct (_ =s "2"); [apply on_subresource_agrees; by vm_compute | exact I].
  - unfold classify_plain. destruct hasKey.
    + destruct (negb _); [apply unsupported_agrees|].
      destruct (String.eqb_spec method "PUT") as [->|]; [repeat case_match; done|]. apply by_method_default_agrees. by vm_compute.
    + destruct (negb _); [apply unsupported_agrees|]. apply by_method_default_agrees. by vm_compute.
Qed.

(** ** Draining ends *)

Lemma happens_app l1 l2 g : happens (l1 ++ l2)%list g = happens l2 (happens l1 g).
Proof. apply foldl_app. Qed.

Lemma happen_length g e : (length (gw_writes (happen g e)) <= S (length (gw_writes g)))%nat.
Proof.
  destruct e as [op|i|]; cbn [happen]; [|case_match; [case_match|]; cbn [gw_writes]; rewrite ?length_insert; lia | cbn; lia].
  destruct (Admit op _) as [[] d]; cbn [gw_writes]; rewrite length_app; cbn; lia.
Qed.

Lemma happens_inv l g :
  Z.of_nat (length (gw_writes g) + length l) < 2 ^ 63 - 1 -> drain_inv g ->
  drain_inv (happens l g) /\ (length (gw_writes (happens l g)) <= length (gw_writes g) + length l)%nat.
Proof.
  revert g. induction l as [|e l IH]; intros g Hl Hg; [split; [done | cbn; lia]|]. cbn [happens foldl length] in *.
  pose proof (happen_length g e). destruct (IH (happen g e)) as [Hi Hlen]; [lia | apply happen_inv; [unfold countable; lia | done]|].
  split; [done | unfold happens in *; lia].
Qed.

Lemma drained_when_idle_started d : dc_state d <> GatewayDrainActive -> dc_state (drained_when_idle d) <> GatewayDrainActive.
Proof.
  intros Hd. unfold drained_when_idle, markDrainedLocked. destruct (_ && _); [|done].
  destruct (dc_state d) eqn:E; [done | done | by rewrite E].
Qed.

(** A gateway that was told to drain stays so. *)
Lemma happen_stays g e : dc_state (gw_drain g) <> GatewayDrainActive -> dc_state (gw_drain (happen g e)) <> GatewayDrainActive.
Proof.
  intros Ha. destruct e as [op|i|]; cbn [happen].
  - unfold Admit. destruct (negb (isGatewayDrainWriteOperation op)); [done|].
    destruct (bool_decide_reflect (dc_state (gw_drain g) = GatewayDrainActive)); [done | exact Ha].
  - destruct (gw_writes g !! i) as [[]|]; [|done..]. cbn [gw_drain]. unfold finishWrite. apply drained_when_idle_started. by destruct (0 <? _).
  - cbn [gw_drain]. unfold StartDrain. apply drained_when_idle_started. by destruct (bool_decide_reflect (dc_state (gw_drain g) = GatewayDrainActive)).
Qed.

Lemma happens_stays l g : dc_state (gw_drain g) <> GatewayDrainActive -> dc_state (gw_drain (happens l g)) <> GatewayDrainActive.
Proof. revert g. induction l as [|e l IH]; intros g Hg; [done|]. apply IH. by apply happen_stays. Qed.

Lemma StartDrain_started d : dc_state (StartDrain d) <> GatewayDrainActive.
Proof.
  unfold StartDrain. apply drained_when_idle_started.
  by destruct (bool_decide_reflect (dc_state d = GatewayDrainActive)).
Qed.

Lemma drained_iff g : drain_inv g -> dc_state (gw_drain g) <> GatewayDrainActive -> WaitDrained (gw_drain g) = Returns <-> under_way g = 0.
Proof.
  intros (Hn & Hiff & Hc & Hz & Hd) Ha. unfold WaitDrained. destruct (dc_state (gw_drain g)) eqn:Hst; [done| |].
  - assert (dc_closed (gw_drain g) = 0%nat) as ->; [|split; [done | intros; by destruct Hd]].
    assert (dc_closed (gw_drain g) <> 1%nat) by (intros ?%Hiff; discriminate). lia.
  - split; auto.
Qed.

(** The requests under way end one by one. *)
Lemma leave_all g n :
  (forall i, (i < n)%nat -> gw_writes (happens (map Leave (seq 0 n)) g) !! i <> Some true) /\
  (forall i, (n <= i)%nat -> gw_writes (happens (map Leave (seq 0 n)) g) !! i = gw_writes g !! i) /\
  length (gw_writes (happens (map Leave (seq 0 n)) g)) = length (gw_writes g).
Proof.
  induction n as [|n (I1 & I2 & I3)]; [split_and!; [lia | done | done]|].
  rewrite seq_S, map_app, happens_app. set (g' := happens (map Leave (seq 0 n)) g) in *. cbn [map happens foldl happen Nat.add].
  destruct (gw_writes g' !! n) as [[]|] eqn:Hn; cbn [gw_writes]; rewrite ?length_insert; split_and!; try done.
  - intros i Hi. destruct (decide (i = n)) as [->|]; [rewrite list_lookup_insert_eq; [done | by eapply lookup_lt_Some]|].
    rewrite list_lookup_insert_ne by done. apply I1. lia.
  - intros i Hi. rewrite list_lookup_insert_ne by lia. apply I2. lia.
  - intros i Hi. destruct (decide (i = n)) as [->|]; [congruence | apply I1; lia].
  - intros i Hi. apply I2. lia.
  - intros i Hi. destruct (decide (i = n)) as [->|]; [congruence | apply I1; lia].
  - intros i Hi. apply I2. lia.
Qed.

Lemma nobody_under_way g : (forall i, gw_writes g !! i <> Some true) -> under_way g = 0.
Proof.
  intros Hall. unfold under_way. destruct (filter _ _) as [|b l] eqn:Hf; [done|].
  assert (b ∈ filter (fun b => b = true) (gw_writes g)) as Hin by (rewrite Hf; left).
  apply list_elem_of_filter in Hin as [-> [i Hi]%list_elem_of_lookup]. by apply Hall in Hi.
Qed.

Definition started : gateway := mkGateway NewGatewayDrainController [].

(** C11: Once a gateway was told to drain, whatever requests enter, end or drain it again
    before and after: every request with a method that may change state and that is
    routed to a supported operation is refused, the wait for the drain returns exactly
    when no admitted write is under way (the channel is closed at most once), and it
    does return after the requests under way ended. *)
Theorem drain_stops_writes (before after : list event) :
  Z.of_nat (2 * (length before + length after) + 2) < 2 ^ 63 - 1 ->
  let g := happens (before ++ Drain :: after)%list started in
  (forall bucket sub hasKey method copySource,
     method ∈ ["PUT"; "POST"; "DELETE"] -> classify bucket sub hasKey method copySource <> OperationUnsupported ->
     Admit (classify bucket sub hasKey method copySource) (gw_drain g) = (Draining, gw_drain g)) /\
  (WaitDrained (gw_drain g) = Returns <-> under_way g = 0) /\ (dc_closed (gw_drain g) <= 1)%nat /\
  WaitDrained (gw_drain (happens (map Leave (seq 0 (length (gw_writes g)))) g)) = Returns.
Proof.
  intros Hlen g. assert (drain_inv started) as H0.
  { split_and!; [done | by split | apply Nat.le_0_l | done | done]. }
  assert (dc_state (gw_drain g) <> GatewayDrainActive) as Ha.
  { unfold g. rewrite happens_app. cbn [happens foldl]. apply happens_stays. cbn [happen gw_drain]. apply StartDrain_started. }
  destruct (happens_inv (before ++ Drain :: after)%list started) as [Hg Hgl]; [rewrite length_app; cbn; lia | done|]. fold g in Hg, Hgl.
  rewrite length_app in Hgl. cbn [gw_writes started length] in Hgl. split_and!.
  - intros bucket sub hasKey method copySource Hm Hop. pose proof (classify_agrees bucket sub hasKey method copySource) as Hag.
    unfold method_agrees in Hag. replace (existsb (String.eqb method) ["PUT"; "POST"; "DELETE"]) with true in Hag.
    2:{ by repeat (apply elem_of_cons in Hm as [->|Hm]; [done|]); apply elem_of_nil in Hm. }
    rewrite bool_decide_eq_false_2, orb_false_r in Hag by done. unfold Admit. rewrite Hag. cbn [negb].
    by rewrite bool_decide_eq_false_2.
  - by apply drained_iff.
  - apply Hg.
  - set (n := length (gw_writes g)). destruct (leave_all g n) as (L1 & L2 & L3).
    destruct (happens_inv (map Leave (seq 0 n)) g) as [Hi _]; [rewrite length_map, length_seq; lia | done|].
    apply drained_iff; [done | by apply happens_stays|]. apply nobody_under_way. intros i.
    destruct (Nat.lt_ge_cases i n) as [Hi'|Hi']; [by apply L1|]. rewrite L2 by done. by rewrite (lookup_ge_None_2 _ _ Hi').
Qed.

Lemma drain_stops_writes_witness :
  let g := happens [Enter OperationPutObject; Enter OperationGetObject; Drain; Enter OperationPutObject] started in
  Admit (classify "b" ∅ true "PUT" "") (gw_drain g) = (Draining, gw_drain g) /\
  WaitDrained (gw_drain (happens (map Leave (seq 0 (length (gw_writes g)))) g)) = Returns.
Proof.
  destruct (drain_stops_writes [Enter OperationPutObject; Enter OperationGetObject] [Enter OperationPutObject]) as (H1 & _ & _ & H4).
  - reflexivity.
  - split; [apply (H1 "b" ∅ true "PUT" ""); [left | discriminate] | exact H4].
Defined.
