(* ===== verification/GatewayRequest.v ===== *)
(** * GatewayRequest: what the handlers read out of a request

    The parsing and validation functions of [src/internal/gateway/s3_handlers.go] and
    [aws_chunked.go]: ranges, payloads, object-lock and encryption headers, tags,
    storage classes, part lists and entity tags; the editions of
    [src/internal/edition/edition.go]. A failure is the text of the error. *)

From S2P Require Import Prelude GoLib GoText Sha256 StorageTypes Model Requests Encoding Meta Manifest Policy Segments LocalStore.
From S2P Require Import Chunked StorageClass S3Http Routing.
From Stdlib Require Import Ascii.
Open Scope string_scope.
Open Scope Z_scope.

(** ** Editions *)

Definition Community : string := "community".
Definition Enterprise : string := "enterprise".
Definition FeatureWORMObjectLock : string := "worm_object_lock".
Definition FeatureErasureCoding : string := "erasure_coding".
Definition FeatureSSEKMS : string := "sse_kms".

(** The catalog of features: identifier and smallest edition. *)
Definition edition_catalog : list (string * string) := [
  ("core_s3_api", Community); ("multipart", Community); ("versioning", Community); ("tagging_cors", Community);
  ("basic_encryption", Community); (FeatureWORMObjectLock, Enterprise); ("dedupe", Enterprise);
  (FeatureErasureCoding, Enterprise); (FeatureSSEKMS, Enterprise); ("compliance_evidence", Enterprise);
  ("tikv_metadata_cluster", Community); ("active_active_gateway", Community); ("sbs_replicated_object", Community);
  ("advanced_ops", Enterprise); ("discovery_export_bundle", Enterprise); ("external_iam_federation", Enterprise)].

Definition edition_Normalize (value : string) : string :=
  let value := ToLower (TrimSpace value) in if value =s "" then Community else value.

Definition edition_Allows (value featureID : string) : bool :=
  let normalized := edition_Normalize value in
  match find (fun f => f.1 =s featureID) edition_catalog with
  | None => false
  | Some (_, minimum) =>
      if minimum =s Community then (normalized =s Community) || (normalized =s Enterprise)
      else if minimum =s Enterprise then normalized =s Enterprise
      else false
  end.

Section Parse.
Context `{GoFmt, GoNet}.

(** The error of [edition.Require], if any. *)
Definition edition_Require (value featureID : string) : option string :=
  let normalized := edition_Normalize value in
  if negb ((normalized =s Community) || (normalized =s Enterprise)) then Some (Sprintf "unsupported edition %q" [value])
  else if edition_Allows value featureID then None
  else Some (Sprintf "feature %q is supported in NAMROS Enterprise Edition" [featureID]).

(** ** Ranges *)

Record byteRange := mkByteRange {
  ran_offset : Z;
  ran_readLength : Z;
  ran_contentLength : Z;
  ran_contentRange : string;
  ran_status : Z
}.

Definition partial_range (start stop size : Z) : byteRange :=
  let length := uint64 (stop - start + 1) in
  mkByteRange start length length ("bytes " +:+ Itoa start +:+ "-" +:+ Itoa stop +:+ "/" +:+ Itoa size) 206.

Definition parseRange (header : string) (size : Z) : outcome string byteRange :=
  if header =s "" then Ok (mkByteRange 0 0 size "" 200)
  else match CutPrefix header "bytes=" with
  | None => Fail "only a single bytes range is supported"
  | Some value =>
      if contains_byte "," value then Fail "only a single bytes range is supported"
      else
        let '(startText, endText, ok) := Cut "-" value in
        if negb ok then Fail "invalid bytes range"
        else if size =? 0 then Fail "range is not satisfiable"
        else if startText =s "" then
          match ParseUint endText 10 with
          | None => Fail "invalid suffix range"
          | Some suffix =>
              if suffix =? 0 then Fail "invalid suffix range"
              else Ok (partial_range (size - (if size <? suffix then size else suffix)) (size - 1) size)
          end
        else if endText =s "" then
          match ParseUint startText 10 with
          | None => Fail "range is not satisfiable"
          | Some parsedStart =>
              if size <=? parsedStart then Fail "range is not satisfiable" else Ok (partial_range parsedStart (size - 1) size)
          end
        else match ParseUint startText 10 with
        | None => Fail "invalid range start"
        | Some parsedStart =>
            match ParseUint endText 10 with
            | None => Fail "range is not satisfiable"
            | Some parsedEnd =>
                if (parsedEnd <? parsedStart) || (size <=? parsedStart) then Fail "range is not satisfiable"
                else Ok (partial_range parsedStart (if size <=? parsedEnd then size - 1 else parsedEnd) size)
            end
        end
  end.

Definition parseCopySourceRange (header : string) (size : Z) : outcome string byteRange :=
  if header =s "" then Ok (mkByteRange 0 size size "" 200)
  else match parseRange header size with
       | Fail e => Fail e
       | Ok r => Ok (mkByteRange (ran_offset r) (ran_contentLength r) (ran_contentLength r) (ran_contentRange r) (ran_status r))
       end.

(** [parseMaxKeys] and [parseMaxUploads]. *)
Definition parse_max (name value : string) : outcome string Z :=
  if value =s "" then Ok 1000
  else match Atoi value with
       | None => Fail (name +:+ " must be a non-negative integer")
       | Some n => if n <? 0 then Fail (name +:+ " must be a non-negative integer") else Ok (if 1000 <? n then 1000 else n)
       end.
Definition parseMaxKeys : string -> outcome string Z := parse_max "max-keys".
Definition parseMaxUploads : string -> outcome string Z := parse_max "max-uploads".

(** ** Payloads *)

Definition isAWSChunkedRequest (r : Request) : bool :=
  existsb (fun part => EqualFold (TrimSpace part) "aws-chunked") (Split "," (Header r "content-encoding"))
  || HasPrefix (Header r "x-amz-content-sha256") "STREAMING-".

Definition decodedContentLength (r : Request) : option Z :=
  let value := TrimSpace (Header r "x-amz-decoded-content-length") in
  if value =s "" then Some 0 else ParseUint value 10.

Definition requestContentLength (r : Request) : Z := if rq_ContentLength r <=? 0 then 0 else rq_ContentLength r.

Definition requestPayloadSizeKnown (r : Request) : bool :=
  if isAWSChunkedRequest r then negb (TrimSpace (Header r "x-amz-decoded-content-length") =s "")
  else 0 <=? rq_ContentLength r.

(** What reading a body to its end yields; the readers of the store and of the cipher
    read with buffers of some size. *)
Definition read_body (bufs : nat -> nat) (r : Request) : outcome ChunkErr string :=
  if isAWSChunkedRequest r then
    match ReadAll (S (String.length (rq_Body r))) bufs 0 (newAWSChunkedReader (rq_Body r)) with
    | Some (data, None, _) => Ok data
    | Some (_, Some e, _) => Fail e
    | None => Fail TruncatedChunkData
    end
  else Ok (rq_Body r).

(** The reader and the size of a payload. *)
Definition requestPayload (bufs : nat -> nat) (r : Request) : outcome string (outcome ChunkErr string * Z) :=
  if isAWSChunkedRequest r then
    match decodedContentLength r with
    | None => Fail "invalid aws-chunked body: invalid x-amz-decoded-content-length"
    | Some size => Ok (read_body bufs r, size)
    end
  else Ok (read_body bufs r, requestContentLength r).

(** ** Object lock *)

Definition days_before (y m d : Z) : Z :=
  let y' := if m <=? 2 then y - 1 else y in
  let era := y' / 400 in
  let yoe := y' mod 400 in
  let mp := if m <=? 2 then m + 9 else m - 3 in
  let doy := (153 * mp + 2) / 5 + d - 1 in
  era * 146097 + yoe * 365 + yoe / 4 - yoe / 100 + doy - 306.

(** [t.AddDate(years, 0, days)]; a day that the month does not have runs over into the next. *)
Definition AddDate (t : Time) (years days : Z) : Time :=
  let day := t / 86400000000000 in
  let '(y, m, d) := civil day in
  (days_before (y + years) m d + days) * 86400000000000 + t mod 86400000000000.

Definition defaultObjectLockRetention (r : BucketObjectLockDefaultRetention) (now : Time) : ObjectLockRetention :=
  if boldr_Mode r =s "" then zero_ObjectLockRetention
  else if 0 <? boldr_Days r then mkObjectLockRetention (boldr_Mode r) (AddDate now 0 (boldr_Days r))
  else if 0 <? boldr_Years r then mkObjectLockRetention (boldr_Mode r) (AddDate now (boldr_Years r) 0)
  else zero_ObjectLockRetention.

Definition parseObjectLockRetainUntilDate (value : string) : outcome string Time :=
  match ParseRFC3339 (TrimSpace value) with
  | Some t => Ok t
  | None => Fail (Sprintf "object lock retain-until date must be RFC3339: %w" [decode_error])
  end.

Definition legal_hold_of_header (legalHoldHeader : string) : outcome string string :=
  if legalHoldHeader =s "" then Ok ""
  else
    let legalHold := ToUpper legalHoldHeader in
    if (legalHold =s ObjectLockLegalHoldOn) || (legalHold =s ObjectLockLegalHoldOff) then Ok legalHold
    else Fail "object lock legal hold must be ON or OFF".

Definition objectLockStateFromRequest (r : Request) (bucket : Bucket) (now : Time) : outcome string (ObjectLockRetention * string) :=
  let modeHeader := TrimSpace (Header r "x-amz-object-lock-mode") in
  let retainUntilHeader := TrimSpace (Header r "x-amz-object-lock-retain-until-date") in
  let legalHoldHeader := TrimSpace (Header r "x-amz-object-lock-legal-hold") in
  let hasObjectLockHeaders := negb (modeHeader =s "") || negb (retainUntilHeader =s "") || negb (legalHoldHeader =s "") in
  if hasObjectLockHeaders && negb (bolc_Enabled (bk_ObjectLock bucket))
  then Fail "object lock headers require bucket object lock configuration"
  else
    let with_hold retention :=
      match legal_hold_of_header legalHoldHeader with Fail e => Fail e | Ok hold => Ok (retention, hold) end in
    if negb (modeHeader =s "") || negb (retainUntilHeader =s "") then
      if (modeHeader =s "") || (retainUntilHeader =s "")
      then Fail "object lock mode and retain-until date must be specified together"
      else
        let mode := ToUpper modeHeader in
        if negb (mode =s ObjectLockModeGovernance) && negb (mode =s ObjectLockModeCompliance)
        then Fail "object lock mode must be GOVERNANCE or COMPLIANCE"
        else match parseObjectLockRetainUntilDate retainUntilHeader with
             | Fail e => Fail e
             | Ok retainUntil =>
                 if negb (now <? retainUntil) then Fail "object lock retain-until date must be in the future"
                 else with_hold (mkObjectLockRetention mode retainUntil)
             end
    else with_hold (defaultObjectLockRetention (bolc_DefaultRetention (bk_ObjectLock bucket)) now).

Definition bucketObjectLockEnabledForCreate (r : Request) : outcome string bool :=
  let value := TrimSpace (Header r "x-amz-bucket-object-lock-enabled") in
  if value =s "" then Ok false
  else if EqualFold value "true" then Ok true
  else Fail "x-amz-bucket-object-lock-enabled must be true".

Definition parseObjectRetention (body : string) (now : Time) : outcome string ObjectLockRetention :=
  match xml_retention body with
  | None => Fail decode_error
  | Some payload =>
      let mode := ToUpper (TrimSpace (orx_Mode payload)) in
      if negb (mode =s ObjectLockModeGovernance) && negb (mode =s ObjectLockModeCompliance)
      then Fail "retention mode must be GOVERNANCE or COMPLIANCE"
      else match parseObjectLockRetainUntilDate (orx_RetainUntilDate payload) with
           | Fail e => Fail e
           | Ok retainUntil =>
               if negb (now <? retainUntil) then Fail "retention retain-until date must be in the future"
               else Ok (mkObjectLockRetention mode retainUntil)
           end
  end.

Definition objectRetentionFromModel (r : ObjectLockRetention) : objectRetentionResult :=
  mkobjectRetentionResult (olr_Mode r) (if olr_RetainUntilDate r =? 0 then "" else RFC3339 (olr_RetainUntilDate r)).

Definition parseObjectLegalHold (body : string) : outcome string string :=
  match xml_legalHold body with
  | None => Fail decode_error
  | Some status =>
      let status := ToUpper (TrimSpace status) in
      if (status =s ObjectLockLegalHoldOn) || (status =s ObjectLockLegalHoldOff) then Ok status
      else Fail "legal hold status must be ON or OFF"
  end.

(** ** Metadata of objects *)

Definition contentType (r : Request) : string :=
  let value := Header r "content-type" in
  if value =s "" then "application/octet-stream"
  else match ParseMediaType value with
       | None => value
       | Some mediaType => if mediaType =s "" then value else mediaType
       end.

Definition userMetadata (r : Request) : gmap string string :=
  list_to_map (omap (fun '(name, values) =>
    if HasPrefix name "x-amz-meta-" then Some (TrimPrefix name "x-amz-meta-", join_with "," values) else None)
    (map_to_list (rq_Header r))).

(** The first entry of a map that a check refuses; which one is first depends on the
    traversal of the map, that there is one does not. *)
Fixpoint first_error (check : string -> string -> option string) (l : list (string * string)) : option string :=
  match l with
  | [] => None
  | (k, v) :: rest => match check k v with Some e => Some e | None => first_error check rest end
  end.

Definition tag_error (key value : string) : option string :=
  if key =s "" then Some "object tag key is required"
  else if (128 <? String.length key)%nat then Some (Sprintf "object tag key %q exceeds 128 bytes" [key])
  else if (256 <? String.length value)%nat then Some (Sprintf "object tag value for %q exceeds 256 bytes" [key])
  else None.

Definition validateObjectTags (tags : gmap string string) : outcome string (gmap string string) :=
  if (10 <? length (map_to_list tags))%nat then Fail "object tags cannot contain more than 10 entries"
  else match first_error tag_error (map_to_list tags) with Some e => Fail e | None => Ok tags end.

Definition objectTagsFromHeader (r : Request) : outcome string (gmap string string) :=
  let value := Header r "x-amz-tagging" in
  if value =s "" then Ok ∅
  else match ParseQuery value with
       | None => Fail decode_error
       | Some parsed =>
           match find (fun kv => (1 <? length kv.2)%nat) (map_to_list parsed) with
           | Some (key, _) => Fail (Sprintf "duplicate object tag key %q" [key])
           | None => validateObjectTags (default "" ∘ head <$> parsed)
           end
       end.

(** The loop of [parseObjectTagging]. *)
Fixpoint collect_tags (entries : list objectTagEntry) (tags : gmap string string) : outcome string (gmap string string) :=
  match entries with
  | [] => Ok tags
  | tag :: rest =>
      match tags !! ote_Key tag with
      | Some _ => Fail (Sprintf "duplicate object tag key %q" [ote_Key tag])
      | None => collect_tags rest (<[ote_Key tag := ote_Value tag]> tags)
      end
  end.
Definition parseObjectTagging (body : string) : outcome string (gmap string string) :=
  match xml_tagging body with
  | None => Fail decode_error
  | Some entries => match collect_tags entries ∅ with Fail e => Fail e | Ok tags => validateObjectTags tags end
  end.

Definition tagEntries (tags : gmap string string) : list objectTagEntry :=
  map (fun kv => mkobjectTagEntry kv.1 kv.2) (sort_by (fun a b => str_ltb a.1 b.1) (map_to_list tags)).

Definition serverSideEncryptionFromRequest (r : Request) (fallback : ServerSideEncryption) : outcome string ServerSideEncryption :=
  let algorithm := TrimSpace (Header r "x-amz-server-side-encryption") in
  let keyID := TrimSpace (Header r "x-amz-server-side-encryption-aws-kms-key-id") in
  if (algorithm =s "") && (keyID =s "") then Ok fallback
  else if algorithm =s ServerSideEncryptionAES256 then
    if negb (keyID =s "") then Fail "x-amz-server-side-encryption-aws-kms-key-id requires aws:kms encryption"
    else Ok (mkServerSideEncryption ServerSideEncryptionAES256 "" "")
  else if algorithm =s ServerSideEncryptionAWSKMS then Ok (mkServerSideEncryption ServerSideEncryptionAWSKMS keyID "")
  else Fail (Sprintf "unsupported x-amz-server-side-encryption %q" [algorithm]).

(** The messages of the storage-class errors. *)
Definition sc_text (e : SCErr) : string :=
  match e with
  | SCIDRequired => "unsupported storage class: storage class id is required"
  | SCDuplicate id => Sprintf "%w: duplicate storage class %q" [id]
  | SCDefaultMissing id => Sprintf "%w: default storage class %q is not defined" [id]
  | SCUnsupported id => Sprintf "unsupported storage class: %q" [id]
  | SCDisabled id => Sprintf "storage class disabled: %q" [id]
  | SCTooSmall id n => Sprintf "object is too small for storage class: %q requires at least %d bytes" [id; Itoa n]
  end.
Definition sc_outcome {A} (o : outcome SCErr A) : outcome string A := match o with Ok a => Ok a | Fail e => Fail (sc_text e) end.

Definition storageClassFromRequestWithSize (r : Request) (fallback : StorageClassSnapshot) (sizeBytes : Z) (hasSize : bool)
    : outcome string StorageClassSnapshot :=
  sc_outcome (Resolve defaultCatalog (mkResolveRequest (Header r "x-amz-storage-class") fallback sizeBytes hasSize)).
Definition storageClassFromRequest (r : Request) (fallback : StorageClassSnapshot) : outcome string StorageClassSnapshot :=
  storageClassFromRequestWithSize r fallback 0 false.
Definition storageClassObjectSizeAdmission (snapshot : StorageClassSnapshot) (sizeBytes : Z) : outcome string StorageClassSnapshot :=
  sc_outcome (Resolve defaultCatalog (mkResolveRequest (snapshot_ID snapshot) snapshot sizeBytes true)).

(** ** Copies, parts and entity tags *)

Definition parseCopySource (value : string) : outcome string (string * string) :=
  let value := TrimSpace value in
  if value =s "" then Fail "x-amz-copy-source is required"
  else
    let value := TrimPrefix value "/" in
    let '(before, _, ok) := Cut "?" value in
    let value := if ok : bool then before else value in
    match PathUnescape value with
    | None => Fail decode_error
    | Some decoded =>
        let '(bucket, key, ok) := Cut "/" decoded in
        if negb ok || (bucket =s "") || (key =s "") then Fail "x-amz-copy-source must be /bucket/key" else Ok (bucket, key)
    end.

(** The loop that checks the part list, with the number of the part before. *)
Fixpoint check_parts (previous : option Z) (parts : list completePart) : option string :=
  match parts with
  | [] => None
  | part :: rest =>
      let n := cpt_PartNumber part in
      if (n <? 1) || (MaxMultipartParts <? n) then Some (Sprintf "part number must be between 1 and %d" [Itoa MaxMultipartParts])
      else if match previous with Some p => n <=? p | None => false end
      then Some "parts must be ordered by increasing part number"
      else check_parts (Some n) rest
  end.
Definition parseCompleteMultipartUpload (body : string) : outcome string (list completePart) :=
  match xml_complete body with
  | None => Fail decode_error
  | Some [] => Fail "complete request must include at least one part"
  | Some parts => match check_parts None parts with Some e => Fail e | None => Ok parts end
  end.
Definition completePartNumbers (parts : list completePart) : list Z := map cpt_PartNumber parts.

Definition normalizeETag (value : string) : string :=
  let value := TrimSpace value in
  if value =s "" then ""
  else if HasPrefix value (String quote_char "") && HasSuffix value (String quote_char "") then value
  else quoted value.

(** The loop over the requested parts. *)
Fixpoint select_parts (byNumber : gmap Z MultipartPart) (requested : list completePart) : outcome string (list MultipartPart) :=
  match requested with
  | [] => Ok []
  | req :: rest =>
      match byNumber !! cpt_PartNumber req with
      | None => Fail (Sprintf "part %d is missing" [Itoa (cpt_PartNumber req)])
      | Some part =>
          if negb (cpt_ETag req =s "") && negb (normalizeETag (cpt_ETag req) =s normalizeETag (mp_ETag part))
          then Fail (Sprintf "part %d ETag does not match" [Itoa (cpt_PartNumber req)])
          else match select_parts byNumber rest with Fail e => Fail e | Ok selected => Ok (part :: selected) end
      end
  end.
Definition selectCompleteParts (requested : list completePart) (available : list MultipartPart) : outcome string (list MultipartPart) :=
  select_parts (foldl (fun m part => <[mp_PartNumber part := part]> m) ∅ available) requested.

Definition partSegmentRefs (parts : list MultipartPart) : list SegmentRef * Z :=
  (map mp_SegmentRef parts, foldl (fun total part => uint64 (total + uint64 (mp_SizeBytes part))) 0 parts).

(** [strings.Trim] of the double quote. *)
Definition trim_quotes (s : string) : string :=
  let strip := fix strip (l : list ascii) := match l with c :: l' => if Ascii.eqb c quote_char then strip l' else l | [] => [] end in
  String.string_of_list_ascii (reverse (strip (reverse (strip (String.list_ascii_of_string s))))).

Fixpoint decode_etags (parts : list MultipartPart) : option (list ascii) :=
  match parts with
  | [] => Some []
  | part :: rest =>
      raw ← DecodeHex (String.list_ascii_of_string (trim_quotes (normalizeETag (mp_ETag part))));
      l ← decode_etags rest;
      Some (raw ++ l)%list
  end.
Definition multipartETag (parts : list MultipartPart) : outcome string string :=
  match decode_etags parts with
  | None => Fail decode_error
  | Some buf => Ok (quoted (md5_hex (String.string_of_list_ascii buf) +:+ "-" +:+ Itoa (Z.of_nat (length parts))))
  end.

(** The entity tag of an object that was put as a whole. *)
Definition etag_of (payload : string) : string := quoted (md5_hex payload).

(** ** Deletes *)

(** The loop over the objects to delete: their names are trimmed. *)
Fixpoint trim_objects (objects : list deleteObjectIdentifier) : outcome string (list deleteObjectIdentifier) :=
  match objects with
  | [] => Ok []
  | o :: rest =>
      let o := mkdeleteObjectIdentifier (TrimSpace (doi_Key o)) (TrimSpace (doi_VersionID o)) in
      if doi_Key o =s "" then Fail "delete request object key is required"
      else match trim_objects rest with Fail e => Fail e | Ok l => Ok (o :: l) end
  end.
Definition parseDeleteObjectsRequest (body : string) : outcome string deleteObjectsRequest :=
  match xml_delete body with
  | None => Fail decode_error
  | Some payload =>
      if (length (dox_Objects payload) =? 0)%nat then Fail "delete request must include at least one object"
      else if (1000 <? length (dox_Objects payload))%nat then Fail "delete request cannot contain more than 1000 objects"
      else match trim_objects (dox_Objects payload) with
           | Fail e => Fail e
           | Ok objects => Ok (mkdeleteObjectsRequest objects (dox_Quiet payload))
           end
  end.

(** [bypassGovernanceRetention] of a request on its own. *)
Definition bypass_requested (r : Request) : bool := EqualFold (TrimSpace (Header r "x-amz-bypass-governance-retention")) "true".
Definition bypassGovernanceRetention (r : Request) : bool :=
  bypass_requested r &&
  match rq_Principal r with Some principal => AllowsAction principal ActionBypassGovernanceRetention | None => false end.

Definition objectARN (bucketName key : string) : string :=
  if key =s "" then "arn:aws:s3:::" +:+ bucketName else "arn:aws:s3:::" +:+ bucketName +:+ "/" +:+ key.

(** ** Compatibility headers *)

Definition sse_customer_headers : list string := [
  "x-amz-server-side-encryption-customer-algorithm"; "x-amz-server-side-encryption-customer-key";
  "x-amz-server-side-encryption-customer-key-md5"; "x-amz-copy-source-server-side-encryption-customer-algorithm";
  "x-amz-copy-source-server-side-encryption-customer-key"; "x-amz-copy-source-server-side-encryption-customer-key-md5"].
Definition headerPresent (r : Request) (name : string) : bool := bool_decide (is_Some (rq_Header r !! name)).
Definition sseCustomerHeadersPresent (r : Request) : bool := existsb (headerPresent r) sse_customer_headers.
Definition isNoopCannedACL (value : string) : bool := EqualFold value "private" || EqualFold value "bucket-owner-full-control".

Definition validateCompatibilityHeaders (r : Request) (op : Operation) : option S3Error :=
  let payer := TrimSpace (Header r "x-amz-request-payer") in
  let acl := TrimSpace (Header r "x-amz-acl") in
  if sseCustomerHeadersPresent r then Some (NotImplemented "SSE-C is not implemented")
  else if headerPresent r "x-amz-rename-source" then Some (NotImplemented "RenameObject is not implemented")
  else if negb (payer =s "") && negb (EqualFold payer "requester") then Some (InvalidArgument "x-amz-request-payer must be requester")
  else if acl =s "" then None
  else if isNoopCannedACL acl then None
  else match op with
       | OperationCreateBucket | OperationPutBucketACL | OperationPutObject | OperationCopyObject | OperationPutObjectACL
       | OperationCreateMultipartUpload => Some (NotImplemented "non-private canned ACL is not implemented")
       | _ => Some (InvalidArgument "x-amz-acl is not valid for this operation")
       end.

Definition set (r : Request) (name : string) : bool := negb (TrimSpace (Header r name) =s "").

Definition operationUsesErasureCodingStorageClassFeature (r : Request) (op : Operation) : bool :=
  match op with
  | OperationPutObject | OperationCopyObject | OperationCreateMultipartUpload =>
      let requestedID := TrimSpace (Header r "x-amz-storage-class") in
      negb (requestedID =s "") &&
      match catalog_Definition defaultCatalog requestedID with
      | Some def => scd_RedundancyBackend def =s RedundancyErasureCode
      | None => false
      end
  | _ => false
  end.

Definition objectLockHeadersPresent (r : Request) : bool :=
  set r "x-amz-object-lock-mode" || set r "x-amz-object-lock-retain-until-date" || set r "x-amz-object-lock-legal-hold"
  || set r "x-amz-bypass-governance-retention".

Definition operationUsesObjectLockFeature (r : Request) (op : Operation) : bool :=
  match op with
  | OperationGetBucketObjectLock | OperationPutBucketObjectLock | OperationGetObjectRetention | OperationPutObjectRetention
  | OperationGetObjectLegalHold | OperationPutObjectLegalHold => true
  | OperationCreateBucket => set r "x-amz-bucket-object-lock-enabled"
  | _ => objectLockHeadersPresent r
  end.

Definition operationUsesSSEKMSFeature (r : Request) : bool :=
  EqualFold (TrimSpace (Header r "x-amz-server-side-encryption")) ServerSideEncryptionAWSKMS
  || set r "x-amz-server-side-encryption-aws-kms-key-id" || set r "x-amz-server-side-encryption-context"
  || set r "x-amz-server-side-encryption-bucket-key-enabled".

Definition validateEditionFeature (edition : string) (r : Request) (op : Operation) : option S3Error :=
  let required (used : bool) feature := if used then NotImplemented <$> edition_Require edition feature else None in
  match required (operationUsesObjectLockFeature r op) FeatureWORMObjectLock with
  | Some e => Some e
  | None =>
      match required (operationUsesSSEKMSFeature r) FeatureSSEKMS with
      | Some e => Some e
      | None => required (operationUsesErasureCodingStorageClassFeature r op) FeatureErasureCoding
      end
  end.

End Parse.

(** ** Evaluated examples *)

Example range_ex :
  parseRange "bytes=2-5" 10 = Ok (mkByteRange 2 4 4 "bytes 2-5/10" 206) /\
  parseRange "bytes=-3" 10 = Ok (mkByteRange 7 3 3 "bytes 7-9/10" 206) /\
  parseRange "bytes=8-99" 10 = Ok (mkByteRange 8 2 2 "bytes 8-9/10" 206) /\
  parseRange "bytes=10-" 10 = Fail "range is not satisfiable".
Proof. by vm_compute. Qed.

(** One year after a leap day is the first of March. *)
Example add_date_ex :
  RFC3339 (AddDate (days_before 2024 2 29 * 86400000000000) 1 0) = "2025-03-01T00:00:00Z" /\
  RFC3339 (AddDate (days_before 2024 2 29 * 86400000000000) 0 1) = "2024-03-01T00:00:00Z".
Proof. by vm_compute. Qed.
