(* ===== verification/Gateway.v ===== *)
(** * Gateway: the handlers of object requests

    [src/internal/gateway/s3_handlers.go], [quota.go] and [gc.go]: one definition per
    handler, over the world of [Segments]: the metadata repository, in which others may
    call between any two calls of the handler, and the segment store. A handler returns
    the reply it writes or the S3 error it stops with. Request metrics are left out;
    access audits are written synchronously; the data budget is the one the
    request finds. *)

From S2P Require Import Prelude GoLib GoText Sha256 StorageTypes Model Requests Encoding Meta Manifest Repo RepoLogic.
From S2P Require Import RepoBuckets RepoObjects RepoMultipart RepoListing RepoOps RepoAudit RepoCalls.
From S2P Require Import Segments LocalStore Gc Policy Chunked StorageClass Encryption S3Http Routing Admission GatewayRequest.
Open Scope string_scope.
Open Scope Z_scope.

Record s3Handler := mkS3Handler {
  h_Edition : string;
  h_Region : string;
  h_Budget : option dataBudget;
  h_Encryption : option LocalProvider
}.

(** [segmentLogicalSize] and [objectSegmentRefs]. *)
Definition segmentLogicalSize (ref : SegmentRef) : Z :=
  if negb (ee_Algorithm (sr_Encryption ref) =s "") && (0 <? ee_PlaintextSizeBytes (sr_Encryption ref))
  then ee_PlaintextSizeBytes (sr_Encryption ref) else sr_SizeBytes ref.

Definition objectSegmentRefs (head : ObjectHead) : list SegmentRef :=
  match oh_SegmentRefs head with
  | [] => if sr_SegmentID (oh_SegmentRef head) =s "" then [] else [oh_SegmentRef head]
  | refs => refs
  end.

Definition objectHeadFromVersion (v : ObjectVersion) : ObjectHead :=
  mkObjectHead (ov_BucketID v) (ov_Key v) (ov_VersionID v) 0 (ov_SizeBytes v) (ov_ETag v) (ov_ContentType v) (ov_StorageClass v)
    (ov_ServerSideEncryption v) (ov_SegmentRef v) (ov_SegmentRefs v) zero_ObjectManifestDescriptor (ov_UserMetadata v) (ov_Tags v)
    (ov_ObjectLockRetention v) (ov_ObjectLockLegalHold v)
    (if ov_CommittedAt v =? 0 then ov_CreatedAt v else ov_CommittedAt v) (ov_DeleteMarker v).

Definition segmentEncryptionContext (bucketID key : string) : gmap string string := <["bucket_id" := bucketID]> {["key" := key]}.

Record preparedSegment := mkPreparedSegment {
  ps_Reader : outcome ChunkErr string;
  ps_SizeBytes : Z;
  ps_PlaintextSizeBytes : Z;
  ps_Envelope : EncryptionEnvelope;
  ps_Encryption : ServerSideEncryption
}.

(** ** Headers of replies *)

Definition writeServerSideEncryptionHeaders (e : ServerSideEncryption) (h : Headers) : Headers :=
  if sse_Algorithm e =s "" then h
  else
    let h := set_header "x-amz-server-side-encryption" (sse_Algorithm e) h in
    if (sse_Algorithm e =s ServerSideEncryptionAWSKMS) && negb (sse_KeyID e =s "")
    then set_header "x-amz-server-side-encryption-aws-kms-key-id" (sse_KeyID e) h else h.

Section WriteHeaders.
Context `{GoNet}.

Definition writeObjectHeaders (head : ObjectHead) (h : Headers) : Headers :=
  let h := set_header "ETag" (oh_ETag head) h in
  let h := set_header "Last-Modified" (HttpTime (oh_LastModified head)) h in
  let h := set_header "Content-Type" (oh_ContentType head) h in
  let h := set_header "Content-Length" (Itoa (oh_SizeBytes head)) h in
  let h := set_header "x-amz-storage-class" (snapshot_ID (oh_StorageClass head)) h in
  let h := writeServerSideEncryptionHeaders (oh_ServerSideEncryption head) h in
  let h := set_header "x-amz-version-id" (oh_VersionID head) h in
  let h := if oh_DeleteMarker head then set_header "x-amz-delete-marker" "true" h else h in
  let h := if olr_Mode (oh_ObjectLockRetention head) =s "" then h
           else set_header "x-amz-object-lock-retain-until-date" (RFC3339 (olr_RetainUntilDate (oh_ObjectLockRetention head)))
                  (set_header "x-amz-object-lock-mode" (olr_Mode (oh_ObjectLockRetention head)) h) in
  let h := set_header "x-amz-object-lock-legal-hold" (oh_ObjectLockLegalHold head) h in
  map_fold (fun key value => set_header ("x-amz-meta-" +:+ key) value) h (oh_UserMetadata head).

End WriteHeaders.

Definition AuditActionGetObject : string := "get_object".
Definition AuditActionHeadObject : string := "head_object".
Definition AuditActionListObjects : string := "list_objects".

Definition accessAuditOperationName (action : string) : string :=
  if action =s AuditActionGetObject then "GetObject"
  else if action =s AuditActionHeadObject then "HeadObject"
  else if action =s AuditActionListObjects then "ListObjects"
  else action.

Definition accessAuditDetails (r : Request) (details : gmap string string) : gmap string string :=
  match rq_Principal r with
  | None => <["policy_engine" := "namros_builtin"]> (<["policy_decision_source" := "unknown"]>
              (<["policy_decision" := "allowed"]> details))
  | Some principal =>
      let out := <["policy_decision_source" := "authenticated_principal"]> (<["policy_engine" := "namros_builtin"]>
                   (<["policy_decision" := "allowed"]> details)) in
      let out := match rq_Decision r with
                 | None => out
                 | Some decision =>
                     <["policy_version" := dec_PolicyVersion decision]> (<["policy_decision_reason" := dec_Reason decision]>
                       (<["policy_decision_source" := dec_Source decision]>
                         (<["policy_decision" := if dec_Allowed decision then "allowed" else "denied"]> out)))
                 end in
      let out := if p_Root principal then <["policy_decision_source" := "root_principal"]> out else out in
      <["principal_root" := FormatBool (p_Root principal)]> (<["principal_policy_version" := p_PolicyVersion principal]>
        (<["principal_external_issuer" := p_ExternalIssuer principal]> (<["principal_session_id" := p_SessionID principal]>
          (<["principal_subject" := p_Subject principal]> (<["principal_tenant_id" := p_TenantID principal]>
            (<["principal_access_key_id" := p_AccessKeyID principal]> (<["session_type" := "access_key"]> out)))))))
  end.

Definition requestAuditContext (r : Request) (operation : string) : AuditContext :=
  let principal := default zero_Principal (rq_Principal r) in
  let reason := TrimSpace (Header r "x-namros-audit-reason") in
  mkAuditContext (rq_RequestID r) (if reason =s "" then "s3:" +:+ operation else reason)
    (mkAuditPrincipal (p_TenantID principal) (p_AccessKeyID principal) (p_DisplayName principal) (p_Subject principal)
       (p_Groups principal) (p_Roles principal) (p_SessionID principal) (p_ExternalIssuer principal)
       (p_PolicyVersion principal) (p_SourceIdentity principal) (p_Root principal)).
Definition zero_AuditContext : AuditContext :=
  mkAuditContext "" "" (mkAuditPrincipal "" "" "" "" [] [] "" "" "" "" false).

Section Handlers.
Context `{Env} {D : Type} `{SegmentStore D} `{GoFmt, GoNet, Aead}.
Context (others : nat -> list call) (order : list ProtectedRef -> list ProtectedRef).
Context (error_text : WErr -> string) (enc_text : EncErr -> string) (chunk_text : ChunkErr -> string) (bufs : nat -> nat) (random : nat -> entropy).
Context (h : s3Handler).
Abbreviation W := (W (D := D)).
Abbreviation meta_call := (meta_call others).
Abbreviation meta_read := (meta_read others).

(** A handler, and its early returns. *)
Definition G (A : Type) : Type := ST (World D) Refusal A.
Definition refuse {A} (e : S3Error) : G A := st_fail (refusal e).
Definition or_refuse {A} (f : WErr -> S3Error) (m : W A) : G A := fun w =>
  match m w with (Ok a, w') => (Ok a, w') | (Fail e, w') => (Fail (refusal (f e)), w') end.
Definition attempt {A} (m : W A) : G (outcome WErr A) := fun w => let p := m w in (Ok p.1, p.2).
(** The code's [_ = m()]. *)
Definition ignore {A} (m : W A) : G unit := fun w => (Ok tt, (m w).2).
Definition checked {A} (f : string -> S3Error) (o : outcome string A) : G A :=
  match o with Ok a => st_ret a | Fail text => refuse (f text) end.

Definition message (e : WErr) : string := match e with TextErr text => text | _ => error_text e end.

(** ** Errors *)

(** A manifest that is too large is an invalid argument too: its error wraps both. *)

Definition storageError (e : WErr) : S3Error :=
  match e with
  | SegErr SegNotFound => NoSuchKey "object segment does not exist"
  | SegErr SegInvalidRange => InvalidRange (message e)
  | SegErr SegInvalidArgument => InvalidArgument (message e)
  | SegErr SegUnavailable => ServiceUnavailable (message e)
  | _ => InvalidRequest (message e)
  end.

Definition objectError (e : WErr) : S3Error :=
  match e with
  | MetaErr ErrUnavailable => ServiceUnavailable "metadata backend is unavailable"
  | MetaErr ErrObjectLocked => AccessDenied "object is protected by object lock"
  | MetaErr ErrKMSKeyUnavailable | MetaErr ErrQuotaExceeded => AccessDenied (message e)
  | MetaErr ErrNotFound => NoSuchKey "object does not exist"
  | SegErr SegNotFound | SegErr SegInvalidRange | SegErr SegInvalidArgument | SegErr SegUnavailable => storageError e
  | MetaErr ErrInvalidArgument | MetaErr ErrObjectManifestTooLarge => InvalidArgument (message e)
  | _ => InvalidRequest (message e)
  end.

Definition bucketError (e : WErr) : S3Error :=
  match e with
  | MetaErr ErrUnavailable => ServiceUnavailable "metadata backend is unavailable"
  | MetaErr ErrNotFound => NoSuchBucket "bucket does not exist"
  | MetaErr ErrInvalidArgument | MetaErr ErrObjectManifestTooLarge => InvalidArgument (message e)
  | _ => InvalidRequest (message e)
  end.

Definition uploadError (e : WErr) : S3Error :=
  match e with
  | MetaErr ErrUnavailable => ServiceUnavailable "metadata backend is unavailable"
  | MetaErr ErrNotFound => NoSuchUpload "multipart upload does not exist"
  | MetaErr ErrQuotaExceeded => AccessDenied (message e)
  | MetaErr ErrInvalidArgument | MetaErr ErrObjectManifestTooLarge => InvalidArgument (message e)
  | _ => InvalidRequest (message e)
  end.

Definition metadataError (e : WErr) : S3Error :=
  match e with
  | MetaErr ErrUnavailable => ServiceUnavailable "metadata backend is unavailable"
  | MetaErr ErrInvalidArgument | MetaErr ErrObjectManifestTooLarge => InvalidArgument (message e)
  | _ => InvalidRequest (message e)
  end.

(** ** Calls the handlers share *)

Definition bucketByName (name : string) : W Bucket := meta_read (GetBucketByName name).
Definition gateway_now : G Time := fun w => (Ok (env_wall (w_turn w)), w).

Definition reserveDataBudget (sizeBytes : Z) (sizeKnown : bool) : G unit :=
  match h_Budget h with
  | None => st_ret tt
  | Some b => match (budget_tryAcquire sizeBytes sizeKnown b).1 with
              | inl _ => st_ret tt
              | inr _ => refuse (SlowDown "gateway data budget exceeded")
              end
  end.

(** [markOrphan]; the tracker of the metadata queue refuses what has no identifier. *)
Definition markOrphan (ref : SegmentRef) (reason : string) : G unit :=
  if sr_SegmentID ref =s "" then st_ret tt else ignore (tracker_MarkOrphan others ref reason).

(** [DeleteSegment] and, when it fails for another reason than that the segment is
    gone, the orphan mark. *)
Definition drop_segment (ref : SegmentRef) (reason : string) : G unit :=
  let! r := attempt (seg_call (DeleteSegment ref reason)) in
  match r with
  | Ok _ | Fail (SegErr SegNotFound) => st_ret tt
  | Fail _ => markOrphan ref reason
  end.

Definition segmentDeleteBlockedByProtectedRef (ref : SegmentRef) : G bool :=
  let! r := attempt (admitProtectedRefSegmentDelete others order ref) in
  st_ret (match r with Ok admitted => negb admitted | Fail _ => true end).

Fixpoint delete_refs (refs : list SegmentRef) (reason : string) : G unit :=
  match refs with
  | [] => st_ret tt
  | ref :: rest =>
      (let! blocked := segmentDeleteBlockedByProtectedRef ref in
       if blocked : bool then st_ret tt else drop_segment ref reason) ;;!
      delete_refs rest reason
  end.
Definition deleteObjectSegments (head : ObjectHead) (reason : string) : G unit := delete_refs (objectSegmentRefs head) reason.
Definition deleteObjectVersionSegments (v : ObjectVersion) (reason : string) : G unit :=
  deleteObjectSegments (objectHeadFromVersion v) reason.

Definition recordAccessAudit (r : Request) (action bucketID key versionID : string) (details : gmap string string) : G unit :=
  let req := mkPutAdminAuditEventRequest action bucketID key versionID (accessAuditDetails r details)
               (requestAuditContext r (accessAuditOperationName action)) in
  or_refuse (fun e => ServiceUnavailable ("audit unavailable: " +:+ message e))
    (meta_call (C_PutAdminAuditEvent req) (PutAdminAuditEvent req)) ;;! st_ret tt.

(** [bucketQuotaAllowsObjectWrite] with [checkBucketObjectSizeQuota]. *)
Definition bucketQuotaAllowsObjectWrite (bucket : Bucket) (sizeBytes : Z) : G unit :=
  let! r := attempt (meta_read (GetBucketQuota (bk_BucketID bucket))) in
  match r with
  | Fail (MetaErr ErrNotFound) => st_ret tt
  | Fail e => refuse (ServiceUnavailable (message e))
  | Ok quota =>
      if (0 <? bq_MaxObjectSizeBytes quota) && (uint64 (bq_MaxObjectSizeBytes quota) <? sizeBytes)
      then refuse (AccessDenied (Sprintf "bucket quota exceeded: object size %d exceeds bucket max object size %d"
                                   [Itoa sizeBytes; Itoa (bq_MaxObjectSizeBytes quota)]))
      else st_ret tt
  end.

Definition governanceBypass (r : Request) (bucket : Bucket) (key operation : string) : G (bool * AuditContext) :=
  let! bypass :=
    if bypassGovernanceRetention r then st_ret true
    else if negb (bypass_requested r) then st_ret false
    else match rq_Principal r with
         | None => st_ret false
         | Some principal =>
             let! policy := attempt (meta_read (GetBucketPolicy (bk_BucketID bucket))) in
             st_ret (match policy with
                     | Ok p => Allows p principal ActionBypassGovernanceRetention (objectARN (bk_Name bucket) key)
                     | Fail _ => false
                     end)
         end in
  st_ret (if bypass : bool then (true, requestAuditContext r (operation +:+ ":x-amz-bypass-governance-retention"))
          else (false, zero_AuditContext)).

(** ** Reading objects *)

Definition objectHead (r : Request) : W ObjectHead :=
  let! bucket := bucketByName (rq_Bucket r) in
  let versionID := subresource r "versionId" in
  if negb (versionID =s "") then
    let! version := meta_read (GetObjectVersion (bk_BucketID bucket) (rq_Key r) versionID) in
    st_ret (objectHeadFromVersion version)
  else meta_read (GetObjectHead (bk_BucketID bucket) (rq_Key r)).

Definition writeDeleteMarkerError {A} (head : ObjectHead) : G A :=
  st_fail (mkRefusal (writeObjectHeaders head ∅) (NoSuchKey "object is a delete marker")).

(** [plaintextRangeReader]: the text its reader yields. *)
Definition plaintextRangeReader (plaintext : string) (offset length : Z) : outcome StoreErr string :=
  if (2 ^ 63 - 1 <? offset) || (2 ^ 63 - 1 <? length) then Fail SegInvalidRange
  else if str_len plaintext <? offset then Fail SegInvalidRange
  else Ok (take_str (Z.to_nat length) (drop_str (Z.to_nat offset) plaintext)).

Definition openSegmentReader (ref : SegmentRef) (offset length : Z) : W string :=
  if ee_Algorithm (sr_Encryption ref) =s "" then seg_read (GetSegment ref offset length)
  else match h_Encryption h with
  | None => st_fail (SegErr SegUnavailable)
  | Some provider =>
      let logicalSize := segmentLogicalSize ref in
      fail! (SegErr SegInvalidRange) when (logicalSize <? offset) || (uint64 (offset + length) <? offset)
                                          || (logicalSize <? uint64 (offset + length)) ;
      let! ciphertext := seg_read (GetSegment ref 0 (sr_SizeBytes ref)) in
      match DecryptSegment provider ciphertext (sr_Encryption ref) with
      | Fail e => st_fail (TextErr (enc_text e))
      | Ok plaintext => st_lift (seg_outcome (plaintextRangeReader plaintext offset length))
      end
  end.

(** The loop of [openObjectReaders]: the texts of the readers, one after the other. *)
Fixpoint open_readers (refs : list SegmentRef) (remainingOffset remainingLength : Z) : W (string * Z) :=
  match refs with
  | [] => st_ret ("", remainingLength)
  | ref :: rest =>
      if remainingLength =? 0 then st_ret ("", remainingLength)
      else
        let logicalSize := segmentLogicalSize ref in
        if logicalSize <=? remainingOffset then open_readers rest (remainingOffset - logicalSize) remainingLength
        else
          let available := logicalSize - remainingOffset in
          let readLength := if remainingLength <? available then remainingLength else available in
          let! text := openSegmentReader ref remainingOffset readLength in
          let! tail := open_readers rest 0 (remainingLength - readLength) in
          st_ret (text +:+ tail.1, tail.2)
  end.
Definition openObjectReaders (head : ObjectHead) (offset length : Z) : W string :=
  if length =? 0 then st_ret ""
  else
    let! r := open_readers (objectSegmentRefs head) offset length in
    fail! (SegErr SegInvalidRange) when negb (r.2 =? 0) ;
    st_ret r.1.

Definition checkDecryptAdmission (e : ServerSideEncryption) : G unit :=
  if negb (sse_Algorithm e =s ServerSideEncryptionAWSKMS) then st_ret tt
  else match edition_Require (h_Edition h) FeatureSSEKMS with
  | Some text => refuse (AccessDenied text)
  | None =>
      if TrimSpace (sse_KeyID e) =s "" then st_ret tt
      else
        let! r := attempt (meta_read (GetKMSKey (sse_KeyID e))) in
        match r with
        | Fail (MetaErr ErrNotFound) => st_ret tt
        | Fail err => refuse (AccessDenied (message err))
        | Ok key =>
            if KMSKeyAllowsDecrypt (kms_State key) then st_ret tt
            else refuse (AccessDenied (Sprintf "kms key %q state %q does not allow decrypt" [kms_KeyID key; kms_State key]))
        end
  end.

Definition headObject (r : Request) : G Reply :=
  let! head := or_refuse objectError (objectHead r) in
  if oh_DeleteMarker head then writeDeleteMarkerError head
  else
    recordAccessAudit r AuditActionHeadObject (oh_BucketID head) (oh_Key head) (oh_VersionID head)
      (<["size_bytes" := Itoa (oh_SizeBytes head)]> {["storage_class" := snapshot_ID (oh_StorageClass head)]}) ;;!
    st_ret (mkReply 200 (writeObjectHeaders head ∅) NoBody).

Definition getObject (r : Request) : G Reply :=
  let! head := or_refuse objectError (objectHead r) in
  if oh_DeleteMarker head then writeDeleteMarkerError head
  else
    checkDecryptAdmission (oh_ServerSideEncryption head) ;;!
    let! rangeSpec := checked InvalidRange (parseRange (Header r "range") (uint64 (oh_SizeBytes head))) in
    reserveDataBudget (ran_contentLength rangeSpec) true ;;!
    let! bytes := or_refuse objectError (openObjectReaders head (ran_offset rangeSpec) (ran_contentLength rangeSpec)) in
    recordAccessAudit r AuditActionGetObject (oh_BucketID head) (oh_Key head) (oh_VersionID head)
      (<["range" := Header r "range"]> (<["range_status" := Itoa (ran_status rangeSpec)]>
        (<["content_length" := Itoa (ran_contentLength rangeSpec)]>
          {["storage_class" := snapshot_ID (oh_StorageClass head)]}))) ;;!
    let headers := writeObjectHeaders head ∅ in
    let headers := if ran_contentRange rangeSpec =s "" then headers
                   else set_header "Content-Range" (ran_contentRange rangeSpec) headers in
    let headers := set_header "Content-Length" (Itoa (ran_contentLength rangeSpec)) headers in
    st_ret (mkReply (ran_status rangeSpec) headers (Bytes bytes)).

(** ** Writing objects *)

Definition prepareSegment (plaintext : outcome ChunkErr string) (plaintextSize : Z) (sse : ServerSideEncryption)
    (context : gmap string string) : G preparedSegment :=
  if negb (sse_Algorithm sse =s ServerSideEncryptionAWSKMS)
  then st_ret (mkPreparedSegment plaintext plaintextSize plaintextSize zero_EncryptionEnvelope sse)
  else match h_Encryption h with
  | None => refuse (AccessDenied (enc_text ErrProviderUnavailable))
  | Some provider =>
      match plaintext with
      | Fail e => refuse (AccessDenied (chunk_text e))
      | Ok text => fun w =>
          match EncryptSegment provider (random (w_turn w)) (mkEncryptSegmentRequest text plaintextSize sse context) with
          | Fail e => (Fail (refusal (AccessDenied (enc_text e))), w)
          | Ok result =>
              (Ok (mkPreparedSegment (Ok (er_Ciphertext result)) (er_SizeBytes result) (ee_PlaintextSizeBytes (er_Envelope result))
                     (er_Envelope result) (er_Encryption result)), w)
          end
      end
  end.

(** [PutSegment] reads the segment to its end; a reader that breaks off fails the put. *)
Definition put_prepared (prepared : preparedSegment) (class : StorageClassSnapshot) : W SegmentRef :=
  match ps_Reader prepared with
  | Fail e => st_fail (TextErr (chunk_text e))
  | Ok text =>
      let! ref := seg_call (PutSegment (mkPutSegmentRequest text (ps_SizeBytes prepared) class)) in
      st_ret (ref <| sr_Encryption := ps_Envelope prepared |>)
  end.

(** What [PutObjectVersion] fails with leaves the new segment as an orphan; an
    overwritten head of a bucket without versioning gives its segments up. *)
Definition publish (bucket : Bucket) (req : BeginPutObjectRequest) : G ObjectHead :=
  let! r := attempt (meta_call (C_PutObjectVersion req) (PutObjectVersion req)) in
  match r with
  | Fail e => markOrphan (bpo_SegmentRef req) DeleteReasonPublishFailed ;;! refuse (objectError e)
  | Ok published =>
      (if negb (bk_VersioningState bucket =s BucketVersioningEnabled) && povr_ReplacedHeadFound published
       then deleteObjectSegments (povr_ReplacedHead published) DeleteReasonObjectOverwritten else st_ret tt) ;;!
      st_ret (povr_Head published)
  end.

Definition if_none_match (r : Request) (bucket : Bucket) : G unit :=
  if Header r "if-none-match" =s "*" then
    let! old := attempt (meta_read (GetObjectHead (bk_BucketID bucket) (rq_Key r))) in
    match old with
    | Ok _ => refuse (PreconditionFailed "object already exists")
    | Fail (MetaErr ErrNotFound) => st_ret tt
    | Fail e => refuse (objectError e)
    end
  else st_ret tt.

(** The bytes of a reader that did not break off. *)
Definition bytes_of (o : outcome ChunkErr string) : string := match o with Ok s => s | Fail _ => "" end.

Definition put_headers (head : ObjectHead) (etag : string) : Headers :=
  writeServerSideEncryptionHeaders (oh_ServerSideEncryption head)
    (set_header "x-amz-storage-class" (snapshot_ID (oh_StorageClass head))
      (set_header "x-amz-version-id" (oh_VersionID head) (set_header "ETag" etag ∅))).

Definition putObject (r : Request) : G Reply :=
  let! bucket := or_refuse bucketError (bucketByName (rq_Bucket r)) in
  if_none_match r bucket ;;!
  let! tags := checked InvalidArgument (objectTagsFromHeader r) in
  let! now := gateway_now in
  let! lock := checked InvalidArgument (objectLockStateFromRequest r bucket now) in
  let! payload := checked InvalidRequest (requestPayload bufs r) in
  reserveDataBudget payload.2 (requestPayloadSizeKnown r) ;;!
  let! storageClass := checked InvalidArgument
    (storageClassFromRequestWithSize r StandardSnapshot payload.2 (requestPayloadSizeKnown r)) in
  bucketQuotaAllowsObjectWrite bucket payload.2 ;;!
  let! sse := checked InvalidArgument (serverSideEncryptionFromRequest r (bk_DefaultEncryption bucket)) in
  let! prepared := prepareSegment payload.1 payload.2 sse (segmentEncryptionContext (bk_BucketID bucket) (rq_Key r)) in
  let! segmentRef := or_refuse storageError (put_prepared prepared storageClass) in
  let etag := etag_of (bytes_of payload.1) in
  let! head := publish bucket
    (mkBeginPutObjectRequest (bk_BucketID bucket) (rq_Key r) (int64 (segmentLogicalSize segmentRef)) etag (contentType r)
       storageClass (ps_Encryption prepared) segmentRef [] (userMetadata r) tags lock.1 lock.2) in
  st_ret (mkReply 200 (put_headers head etag) NoBody).

(** The tags of a copy. *)
Definition copy_tags (r : Request) (sourceTags : gmap string string) : outcome string (gmap string string) :=
  let tagDirective := ToUpper (TrimSpace (Header r "x-amz-tagging-directive")) in
  if (tagDirective =s "") || (tagDirective =s "COPY") then
    if negb (Header r "x-amz-tagging" =s "") then objectTagsFromHeader r else Ok sourceTags
  else if tagDirective =s "REPLACE" then objectTagsFromHeader r
  else Fail "x-amz-tagging-directive must be COPY or REPLACE".

Definition copyObject (r : Request) : G Reply :=
  let! destBucket := or_refuse bucketError (bucketByName (rq_Bucket r)) in
  let! source := checked InvalidArgument (parseCopySource (Header r "x-amz-copy-source")) in
  let! sourceBucket := or_refuse bucketError (bucketByName source.1) in
  let! sourceHead := or_refuse objectError (meta_read (GetObjectHead (bk_BucketID sourceBucket) source.2)) in
  let size := uint64 (oh_SizeBytes sourceHead) in
  reserveDataBudget (copyDataBudgetBytes size) true ;;!
  let! bytes := or_refuse objectError (openObjectReaders sourceHead 0 size) in
  let fallback := if scs_StorageClassID (oh_StorageClass sourceHead) =s "" then StandardSnapshot else oh_StorageClass sourceHead in
  let! storageClass := checked InvalidArgument (storageClassFromRequestWithSize r fallback size true) in
  bucketQuotaAllowsObjectWrite destBucket size ;;!
  let encryptionFallback := if sse_Algorithm (bk_DefaultEncryption destBucket) =s "" then oh_ServerSideEncryption sourceHead
                            else bk_DefaultEncryption destBucket in
  let! sse := checked InvalidArgument (serverSideEncryptionFromRequest r encryptionFallback) in
  let! prepared := prepareSegment (Ok bytes) size sse (segmentEncryptionContext (bk_BucketID destBucket) (rq_Key r)) in
  let! segmentRef := or_refuse storageError (put_prepared prepared storageClass) in
  let replace := EqualFold (Header r "x-amz-metadata-directive") "REPLACE" in
  let! tags := checked InvalidArgument (copy_tags r (oh_Tags sourceHead)) in
  let! now := gateway_now in
  let! lock := checked InvalidArgument (objectLockStateFromRequest r destBucket now) in
  let! head := publish destBucket
    (mkBeginPutObjectRequest (bk_BucketID destBucket) (rq_Key r) (int64 (segmentLogicalSize segmentRef)) (etag_of bytes)
       (if replace then contentType r else oh_ContentType sourceHead) storageClass (ps_Encryption prepared) segmentRef []
       (if replace then userMetadata r else oh_UserMetadata sourceHead) tags lock.1 lock.2) in
  st_ret (mkReply 200
    (writeServerSideEncryptionHeaders (oh_ServerSideEncryption head)
       (set_header "x-amz-storage-class" (snapshot_ID (oh_StorageClass head)) (set_header "x-amz-version-id" (oh_VersionID head) ∅)))
    (Xml (CopyResult (RFC3339 (oh_LastModified head)) (oh_ETag head)))).

(** ** Deleting objects *)

Definition delete_request (bucket : Bucket) (key versionID : string) (bypass : bool * AuditContext) : DeleteObjectRequest :=
  mkDeleteObjectRequest (bk_BucketID bucket) key versionID bypass.1 bypass.2.

Definition deleteObject (r : Request) : G Reply :=
  let! bucket := or_refuse bucketError (bucketByName (rq_Bucket r)) in
  let! bypass := governanceBypass r bucket (rq_Key r) "DeleteObject" in
  let req := delete_request bucket (rq_Key r) (subresource r "versionId") bypass in
  let! result := or_refuse objectError (meta_call (C_DeleteObject req) (DeleteObject req)) in
  (if dr_Deleted result && negb (dr_DeleteMarker result)
   then deleteObjectVersionSegments (dr_DeletedVersion result) DeleteReasonObjectOverwritten else st_ret tt) ;;!
  let headers := set_header "x-amz-version-id" (dr_DeletedVersionID result) ∅ in
  st_ret (mkReply 204 (if dr_DeleteMarker result then set_header "x-amz-delete-marker" "true" headers else headers) NoBody).

Definition deleteObjectForMultiDelete (r : Request) (bucket : Bucket) (object : deleteObjectIdentifier)
    : G (deletedObjectEntry + deleteErrorEntry) :=
  let! bypass := governanceBypass r bucket (doi_Key object) "DeleteObjects" in
  let req := delete_request bucket (doi_Key object) (doi_VersionID object) bypass in
  let! outcome := attempt (meta_call (C_DeleteObject req) (DeleteObject req)) in
  match outcome with
  | Fail (MetaErr ErrNotFound) => st_ret (inl (mkdeletedObjectEntry (doi_Key object) (doi_VersionID object) false ""))
  | Fail e => st_ret (inr (mkdeleteErrorEntry (doi_Key object) (doi_VersionID object) (e_Code (objectError e)) (e_Message (objectError e))))
  | Ok result =>
      (if dr_Deleted result && negb (dr_DeleteMarker result)
       then deleteObjectVersionSegments (dr_DeletedVersion result) DeleteReasonObjectOverwritten else st_ret tt) ;;!
      let versionID := if dr_DeletedVersionID result =s "" then doi_VersionID object else dr_DeletedVersionID result in
      st_ret (inl (mkdeletedObjectEntry (doi_Key object) versionID (dr_DeleteMarker result)
                     (if dr_DeleteMarker result then dr_DeletedVersionID result else "")))
  end.

Fixpoint delete_each (r : Request) (bucket : Bucket) (quiet : bool) (objects : list deleteObjectIdentifier) (acc : deleteObjectsResult)
    : G deleteObjectsResult :=
  match objects with
  | [] => st_ret acc
  | object :: rest =>
      let! entry := deleteObjectForMultiDelete r bucket object in
      delete_each r bucket quiet rest
        (match entry with
         | inr e => mkdeleteObjectsResult (dos_Deleted acc) (dos_Errors acc ++ [e])%list
         | inl d => if quiet then acc else mkdeleteObjectsResult (dos_Deleted acc ++ [d])%list (dos_Errors acc)
         end)
  end.

Definition deleteObjects (r : Request) : G Reply :=
  let! bucket := or_refuse bucketError (bucketByName (rq_Bucket r)) in
  let! payload := checked InvalidArgument (parseDeleteObjectsRequest (rq_Body r)) in
  let! result := delete_each r bucket (dox_Quiet payload) (dox_Objects payload) (mkdeleteObjectsResult [] []) in
  st_ret (mkReply 200 ∅ (Xml (DeleteResultDoc result))).

End Handlers.
