(* ===== verification/GatewayMultipart.v ===== *)
(** * GatewayMultipart: the handlers of multipart uploads

    The multipart handlers of [src/internal/gateway/s3_handlers.go]: initiation, parts
    (uploaded or copied), listings, the resumable completion and the abort, over the
    world of [Segments] and in the conventions of [Gateway]. A store that can validate
    segments ([storage.SegmentValidator]) is given by [validator]. *)

From S2P Require Import Prelude GoLib GoText Sha256 StorageTypes Model Requests Encoding Meta Manifest Repo RepoLogic.
From S2P Require Import RepoBuckets RepoObjects RepoMultipart RepoListing RepoOps RepoAudit RepoCalls.
From S2P Require Import Segments LocalStore Gc Policy Chunked StorageClass Encryption S3Http Routing Admission GatewayRequest Gateway.
Open Scope string_scope.
Open Scope Z_scope.

Definition xml_reply (d : Document) : Reply := mkReply 200 ∅ (Xml d).

Section Multipart.
Context `{Env} {D : Type} `{SegmentStore D} `{GoFmt, GoNet, Aead}.
Context (others : nat -> list call).
Context (error_text : WErr -> string) (enc_text : EncErr -> string) (chunk_text : ChunkErr -> string) (bufs : nat -> nat) (random : nat -> entropy).
Context (validator : option (SegmentRef -> D -> outcome StoreErr unit)).
Context (h : s3Handler).
Abbreviation W := (W (D := D)).
Abbreviation G := (G (D := D)).
Abbreviation meta_call := (meta_call others).
Abbreviation meta_read := (meta_read others).
Abbreviation bucketByName := (bucketByName (D := D) others).
Abbreviation bucketError := (bucketError error_text).
Abbreviation objectError := (objectError error_text).
Abbreviation uploadError := (uploadError error_text).
Abbreviation storageError := (storageError error_text).

Definition createMultipartUpload (r : Request) : G Reply :=
  let! bucket := or_refuse bucketError (bucketByName (rq_Bucket r)) in
  let! tags := checked InvalidArgument (objectTagsFromHeader r) in
  let! now := gateway_now in
  let! lock := checked InvalidArgument (objectLockStateFromRequest r bucket now) in
  let! storageClass := checked InvalidArgument (storageClassFromRequest r StandardSnapshot) in
  let! sse := checked InvalidArgument (serverSideEncryptionFromRequest r (bk_DefaultEncryption bucket)) in
  let req := mkCreateMultipartUploadRequest (bk_BucketID bucket) (rq_Key r) (contentType r) storageClass sse (userMetadata r) tags lock.1 lock.2 in
  let! upload := or_refuse objectError (meta_call (C_CreateMultipartUpload req) (CreateMultipartUpload req)) in
  st_ret (mkReply 200 (writeServerSideEncryptionHeaders (mu_ServerSideEncryption upload) ∅)
            (Xml (InitiateResult (mkinitiateMultipartUploadResult (bk_Name bucket) (rq_Key r) (mu_UploadID upload))))).

Definition upload_entry (upload : MultipartUpload) : multipartUploadEntry :=
  mkmultipartUploadEntry (mu_Key upload) (mu_UploadID upload) (snapshot_ID (mu_StorageClass upload)) (RFC3339 (mu_CreatedAt upload)).

Definition listMultipartUploads (r : Request) : G Reply :=
  let! bucket := or_refuse bucketError (bucketByName (rq_Bucket r)) in
  let! maxUploads := checked InvalidArgument (parseMaxUploads (query r "max-uploads")) in
  let! result := or_refuse bucketError (meta_read (ListMultipartUploads
    (mkListMultipartUploadsRequest (bk_BucketID bucket) (query r "prefix") (query r "delimiter") (query r "key-marker")
       (query r "upload-id-marker") maxUploads))) in
  st_ret (xml_reply (UploadsResult (mklistMultipartUploadsXML (bk_Name bucket) (query r "prefix") (query r "key-marker")
    (query r "upload-id-marker") (lmur_NextKeyMarker result) (lmur_NextUploadIDMarker result) (query r "delimiter") maxUploads
    (lmur_IsTruncated result) (map upload_entry (lmur_Uploads result)) (lmur_CommonPrefixes result)))).

Definition upload_request (bucket : Bucket) (r : Request) : MultipartUploadRequest :=
  mkMultipartUploadRequest (bk_BucketID bucket) (rq_Key r) (subresource r "uploadId").

(** The upload a request names, when it is active. *)
Definition active_upload (bucket : Bucket) (r : Request) : G MultipartUpload :=
  let! upload := or_refuse uploadError (meta_read (GetMultipartUpload (upload_request bucket r))) in
  if negb (mu_State upload =s MultipartUploadActive) then refuse (NoSuchUpload "multipart upload does not exist") else st_ret upload.

(** The part's segment is put and recorded; the segment of a replaced part is dropped. *)
Definition put_part (bucket : Bucket) (r : Request) (upload : MultipartUpload) (partNumber : Z) (plaintext : outcome ChunkErr string) (size : Z)
    : G string :=
  let! prepared := prepareSegment enc_text chunk_text random h plaintext size (mu_ServerSideEncryption upload)
                     (segmentEncryptionContext (bk_BucketID bucket) (rq_Key r)) in
  let! segmentRef := or_refuse storageError (put_prepared chunk_text prepared (mu_StorageClass upload)) in
  let etag := etag_of (bytes_of plaintext) in
  let req := mkPutMultipartPartRequest (bk_BucketID bucket) (rq_Key r) (subresource r "uploadId") partNumber
               (int64 (segmentLogicalSize segmentRef)) etag segmentRef in
  let! stored := attempt (meta_call (C_PutMultipartPart req) (PutMultipartPart req)) in
  match stored with
  | Fail e => markOrphan others segmentRef DeleteReasonMultipartAborted ;;! refuse (uploadError e)
  | Ok (_, previous) =>
      match previous with
      | Some part => drop_segment others (mp_SegmentRef part) DeleteReasonMultipartAborted
      | None => st_ret tt
      end ;;!
      st_ret etag
  end.

Definition part_number (r : Request) : G Z :=
  match Atoi (subresource r "partNumber") with Some n => st_ret n | None => refuse (InvalidArgument "invalid partNumber") end.

Definition uploadPart (r : Request) : G Reply :=
  let! bucket := or_refuse bucketError (bucketByName (rq_Bucket r)) in
  let! partNumber := part_number r in
  let! upload := active_upload bucket r in
  let! payload := checked InvalidRequest (requestPayload bufs r) in
  reserveDataBudget h payload.2 (requestPayloadSizeKnown r) ;;!
  let! etag := put_part bucket r upload partNumber payload.1 payload.2 in
  st_ret (mkReply 200 (set_header "ETag" etag ∅) NoBody).

Definition uploadPartCopy (r : Request) : G Reply :=
  let! bucket := or_refuse bucketError (bucketByName (rq_Bucket r)) in
  let! partNumber := part_number r in
  let! upload := active_upload bucket r in
  let! source := checked InvalidArgument (parseCopySource (Header r "x-amz-copy-source")) in
  let! sourceBucket := or_refuse bucketError (bucketByName source.1) in
  let! sourceHead := or_refuse objectError (meta_read (GetObjectHead (bk_BucketID sourceBucket) source.2)) in
  let! copyRange := checked InvalidRange (parseCopySourceRange (Header r "x-amz-copy-source-range") (uint64 (oh_SizeBytes sourceHead))) in
  reserveDataBudget h (copyDataBudgetBytes (ran_readLength copyRange)) true ;;!
  let! bytes := or_refuse objectError (openObjectReaders enc_text h sourceHead (ran_offset copyRange) (ran_readLength copyRange)) in
  let! etag := put_part bucket r upload partNumber (Ok bytes) (ran_readLength copyRange) in
  let! now := gateway_now in
  st_ret (xml_reply (CopyResult (RFC3339 now) etag)).

Definition part_entry (part : MultipartPart) : partEntry :=
  mkpartEntry (mp_PartNumber part) (RFC3339 (mp_UpdatedAt part)) (mp_ETag part) (mp_SizeBytes part).

Definition listParts (r : Request) : G Reply :=
  let! bucket := or_refuse bucketError (bucketByName (rq_Bucket r)) in
  let! upload := active_upload bucket r in
  let! parts := or_refuse uploadError (meta_read (ListMultipartParts (upload_request bucket r))) in
  st_ret (xml_reply (PartsResult (mklistPartsResult (bk_Name bucket) (rq_Key r) (mu_UploadID upload) (map part_entry parts)))).

(** ** Completion *)

Definition cleanupMultipartUploadPartsBestEffort (req : MultipartUploadRequest) : G unit :=
  let clean := mkCleanupMultipartUploadPartsRequest (mur_BucketID req) (mur_Key req) (mur_UploadID req) DefaultMultipartCleanupLimit in
  ignore (meta_call (C_CleanupMultipartUploadParts clean) (CleanupMultipartUploadParts clean)).

Fixpoint mark_parts (parts : list MultipartPart) (reason : string) : G unit :=
  match parts with
  | [] => st_ret tt
  | part :: rest => markOrphan others (mp_SegmentRef part) reason ;;! mark_parts rest reason
  end.
Definition abortMultipartUploadAndMarkOrphans (req : MultipartUploadRequest) (reason : string) : G unit :=
  let! parts := attempt (meta_call (C_AbortMultipartUpload req) (AbortMultipartUpload req)) in
  match parts with
  | Fail _ => st_ret tt
  | Ok parts => mark_parts parts reason ;;! cleanupMultipartUploadPartsBestEffort req
  end.

Definition completeResult (bucketName key etag : string) : Document :=
  CompleteResult (mkcompleteMultipartUploadResult ("/" +:+ bucketName +:+ "/" +:+ key) bucketName key etag).
Definition writeCompleteMultipartResult (bucketName key etag : string) : Reply := xml_reply (completeResult bucketName key etag).

Definition committedMultipartCompletionHead (completion : MultipartCompletionRecord) : W ObjectHead :=
  let commit :=
    let req := mkCommitObjectVersionRequest (mcr_BucketID completion) (mcr_Key completion) (mcr_ObjectVersionID completion)
                 (mcr_ExpectedHeadVersionID completion) in
    let! committed := attempt_of (meta_call (C_CommitObjectVersion req) (CommitObjectVersion req)) in
    match committed with
    | Ok head => st_ret head
    | Fail (MetaErr ErrCASConflict) =>
        let! current := attempt_of (meta_read (GetObjectHead (mcr_BucketID completion) (mcr_Key completion))) in
        match current with
        | Ok current => if negb (oh_VersionID current =s mcr_ObjectVersionID completion) then st_fail (MetaErr ErrCASConflict) else st_ret current
        | Fail _ => st_fail (MetaErr ErrCASConflict)
        end
    | Fail e => st_fail e
    end in
  let! version := attempt_of (meta_read (GetObjectVersion (mcr_BucketID completion) (mcr_Key completion) (mcr_ObjectVersionID completion))) in
  match version with
  | Ok version => if ov_State version =s ObjectVersionCommitted then st_ret (objectHeadFromVersion version) else commit
  | Fail (MetaErr ErrNotFound) => commit
  | Fail e => st_fail e
  end.

Definition resumeMultipartCompletion (bucket : Bucket) (completion : MultipartCompletionRecord) : G Reply :=
  let stateReq := mkMultipartCompletionStateRequest (mcr_BucketID completion) (mcr_Key completion) (mcr_UploadID completion) in
  let! head := or_refuse objectError (committedMultipartCompletionHead completion) in
  ignore (meta_call (C_MarkMultipartCompletionPublished stateReq) (MarkMultipartCompletionPublished stateReq)) ;;!
  let req := mkCompleteMultipartUploadRequest (mcr_BucketID completion) (mcr_Key completion) (mcr_UploadID completion)
               (mcr_ObjectVersionID completion) (mcr_ETag completion) (mcr_SizeBytes completion) (mcr_PartCount completion) in
  let! completed := or_refuse uploadError (meta_call (C_CompleteMultipartUpload req) (CompleteMultipartUpload req)) in
  ignore (meta_call (C_MarkMultipartCompletionCompleted stateReq) (MarkMultipartCompletionCompleted stateReq)) ;;!
  cleanupMultipartUploadPartsBestEffort (mkMultipartUploadRequest (mcr_BucketID completion) (mcr_Key completion) (mcr_UploadID completion)) ;;!
  st_ret (mkReply 200 (writeServerSideEncryptionHeaders (oh_ServerSideEncryption head) (set_header "x-amz-version-id" (oh_VersionID head) ∅))
            (Xml (completeResult (bk_Name bucket) (mcr_Key completion) (mu_CompletedETag completed)))).

Fixpoint validate_refs (validate : SegmentRef -> D -> outcome StoreErr unit) (refs : list SegmentRef) : W unit :=
  match refs with
  | [] => st_ret tt
  | ref :: rest =>
      if pls_RedundancyBackend (sr_Placement ref) =s RedundancyErasureCode
      then seg_read (validate ref) ;;! validate_refs validate rest
      else validate_refs validate rest
  end.
Definition validateCompleteSegments (refs : list SegmentRef) : W unit :=
  match validator with None => st_ret tt | Some validate => validate_refs validate refs end.

(** The parts of the request are selected, published as a pending version and
    recorded in a completion record; a retry finds the record and resumes. *)
Definition begin_completion (r : Request) (bucket : Bucket) (upload : MultipartUpload) : G MultipartCompletionRecord :=
  let! requested := checked InvalidRequest (parseCompleteMultipartUpload (rq_Body r)) in
  let! parts := or_refuse uploadError (meta_read (GetMultipartParts
    (mkGetMultipartPartsRequest (bk_BucketID bucket) (rq_Key r) (subresource r "uploadId") (completePartNumbers requested)))) in
  let! selected := checked InvalidPart (selectCompleteParts requested parts) in
  let! etag := checked InvalidRequest (multipartETag selected) in
  let segmentRefs := (partSegmentRefs selected).1 in
  let totalSize := (partSegmentRefs selected).2 in
  let! _ := checked InvalidArgument (storageClassObjectSizeAdmission (mu_StorageClass upload) totalSize) in
  bucketQuotaAllowsObjectWrite others error_text bucket totalSize ;;!
  or_refuse storageError (validateCompleteSegments segmentRefs) ;;!
  let req := mkBeginPutObjectRequest (bk_BucketID bucket) (rq_Key r) (int64 totalSize) etag (mu_ContentType upload) (mu_StorageClass upload)
               (mu_ServerSideEncryption upload) zero_SegmentRef segmentRefs (mu_UserMetadata upload) (mu_Tags upload)
               (mu_ObjectLockRetention upload) (mu_ObjectLockLegalHold upload) in
  let! pending := attempt (meta_call (C_BeginPutObject req) (BeginPutObject req)) in
  match pending with
  | Fail e =>
      match e with
      | MetaErr ErrObjectManifestTooLarge => abortMultipartUploadAndMarkOrphans (upload_request bucket r) DeleteReasonPublishFailed
      | _ => st_ret tt
      end ;;!
      refuse (objectError e)
  | Ok pending =>
      let req := mkPrepareMultipartCompletionRequest (bk_BucketID bucket) (rq_Key r) (subresource r "uploadId")
                   (ov_VersionID (pov_Version pending)) (pov_BaseHeadVersionID pending) etag (int64 totalSize)
                   (Z.of_nat (length selected)) in
      or_refuse uploadError (meta_call (C_PrepareMultipartCompletion req) (PrepareMultipartCompletion req))
  end.

Definition completeMultipartUpload (r : Request) : G Reply :=
  let! bucket := or_refuse bucketError (bucketByName (rq_Bucket r)) in
  let! upload := or_refuse uploadError (meta_read (GetMultipartUpload (upload_request bucket r))) in
  if mu_State upload =s MultipartUploadCompleted then
    cleanupMultipartUploadPartsBestEffort (upload_request bucket r) ;;!
    st_ret (writeCompleteMultipartResult (bk_Name bucket) (rq_Key r) (mu_CompletedETag upload))
  else if negb (mu_State upload =s MultipartUploadActive) then refuse (NoSuchUpload "multipart upload does not exist")
  else
    let! found := attempt (meta_read (GetMultipartCompletion (upload_request bucket r))) in
    match found with
    | Ok completion => resumeMultipartCompletion bucket completion
    | Fail (MetaErr ErrNotFound) =>
        let! completion := begin_completion r bucket upload in
        resumeMultipartCompletion bucket completion
    | Fail e => refuse (uploadError e)
    end.

Fixpoint drop_parts (parts : list MultipartPart) : G unit :=
  match parts with
  | [] => st_ret tt
  | part :: rest => drop_segment others (mp_SegmentRef part) DeleteReasonMultipartAborted ;;! drop_parts rest
  end.
Definition abortMultipartUpload (r : Request) : G Reply :=
  let! bucket := or_refuse bucketError (bucketByName (rq_Bucket r)) in
  let! parts := or_refuse uploadError
    (meta_call (C_AbortMultipartUpload (upload_request bucket r)) (AbortMultipartUpload (upload_request bucket r))) in
  drop_parts parts ;;!
  cleanupMultipartUploadPartsBestEffort (upload_request bucket r) ;;!
  st_ret (mkReply 204 ∅ NoBody).

End Multipart.
