(* ===== verification/GatewayBuckets.v ===== *)
(** * GatewayBuckets: the handlers of bucket requests, object attributes and listings

    The remaining handlers of [src/internal/gateway/s3_handlers.go]: buckets and their
    configurations (versioning, CORS, lifecycle, encryption, policy, object lock), tags,
    retention, legal holds and access-control lists of objects, the listings, and
    the cross-origin headers. Texts of configurations are decoded by [GoNet]. *)

From S2P Require Import Prelude GoLib GoText Sha256 StorageTypes Model Requests Encoding Meta Manifest Repo RepoLogic.
From S2P Require Import RepoBuckets RepoObjects RepoMultipart RepoListing RepoOps RepoAudit RepoCalls.
From S2P Require Import Segments LocalStore Gc Policy Chunked StorageClass Encryption S3Http Routing Admission GatewayRequest Gateway GatewayMultipart.
From Stdlib Require Import Ascii.
Open Scope string_scope.
Open Scope Z_scope.

(** ** Configurations *)

Section Configurations.
Context `{GoFmt, GoNet}.

Definition parseBucketVersioning (body : string) : outcome string string :=
  match xml_versioning body with
  | None => Fail decode_error
  | Some status =>
      let status := TrimSpace status in
      if (status =s BucketVersioningEnabled) || (status =s BucketVersioningSuspended) then Ok status
      else Fail "versioning status must be Enabled or Suspended"
  end.

Definition parseBucketObjectLockConfiguration (body : string) : outcome string BucketObjectLockConfiguration :=
  match xml_objectLock body with
  | None => Fail decode_error
  | Some payload =>
      if negb (TrimSpace (box_ObjectLockEnabled payload) =s "Enabled") then Fail "ObjectLockEnabled must be Enabled"
      else Ok (mkBucketObjectLockConfiguration true
             (match box_DefaultRetention payload with
              | Some d => mkBucketObjectLockDefaultRetention (ToUpper (TrimSpace (olx_Mode d))) (olx_Days d) (olx_Years d)
              | None => mkBucketObjectLockDefaultRetention "" 0 0
              end))
  end.

Definition bucketObjectLockConfigurationFromModel (configuration : BucketObjectLockConfiguration) : bucketObjectLockXML :=
  if negb (bolc_Enabled configuration) then mkbucketObjectLockXML "" None
  else
    let retention := bolc_DefaultRetention configuration in
    mkbucketObjectLockXML "Enabled"
      (if negb (boldr_Mode retention =s "") || (0 <? boldr_Days retention) || (0 <? boldr_Years retention)
       then Some (mkobjectLockDefaultRetentionXML (boldr_Mode retention) (boldr_Days retention) (boldr_Years retention)) else None).

Definition cleanStringList (values : list string) : list string := List.filter (fun v => negb (v =s "")) (map TrimSpace values).

(** The loop over the methods of a rule. *)
Fixpoint upper_methods (methods : list string) : outcome string (list string) :=
  match methods with
  | [] => Ok []
  | method :: rest =>
      let method := ToUpper method in
      if existsb (String.eqb method) ["GET"; "PUT"; "POST"; "DELETE"; "HEAD"]
      then match upper_methods rest with Ok l => Ok (method :: l) | Fail e => Fail e end
      else Fail (Sprintf "unsupported CORS AllowedMethod %q" [method])
  end.

Definition normalizeCORSRule (rule : corsRuleXML) : outcome string CORSRule :=
  match cleanStringList (crx_AllowedOrigins rule), cleanStringList (crx_AllowedMethods rule) with
  | [], _ => Fail "CORS rule requires at least one AllowedOrigin"
  | _, [] => Fail "CORS rule requires at least one AllowedMethod"
  | origins, methods =>
      match upper_methods methods with
      | Fail e => Fail e
      | Ok methods => Ok (mkCORSRule origins methods (cleanStringList (crx_AllowedHeaders rule)) (cleanStringList (crx_ExposeHeaders rule))
                            (crx_MaxAgeSeconds rule))
      end
  end.

(** The normalization of every rule, up to the first that fails. *)
Fixpoint normalize_all {A B} (normalize : A -> outcome string B) (rules : list A) : outcome string (list B) :=
  match rules with
  | [] => Ok []
  | rule :: rest =>
      match normalize rule with
      | Fail e => Fail e
      | Ok n => match normalize_all normalize rest with Ok l => Ok (n :: l) | Fail e => Fail e end
      end
  end.

Definition parseCORSConfiguration (body : string) : outcome string (list CORSRule) :=
  match xml_cors body with
  | None => Fail decode_error
  | Some [] => Fail "CORS configuration must include at least one rule"
  | Some rules =>
      if (100 <? length rules)%nat then Fail "CORS configuration cannot contain more than 100 rules"
      else normalize_all normalizeCORSRule rules
  end.

Definition corsConfigurationFromModel (rules : list CORSRule) : list corsRuleXML :=
  map (fun r => mkcorsRuleXML (cors_AllowedOrigins r) (cors_AllowedMethods r) (cors_AllowedHeaders r) (cors_ExposeHeaders r)
                  (cors_MaxAgeSeconds r)) rules.

Definition parseLifecycleDate (value : string) : outcome string Time :=
  let value := TrimSpace value in
  if value =s "" then Ok 0
  else match ParseRFC3339 value with
  | Some t => Ok t
  | None => match ParseDate value with
            | Some t => Ok t
            | None => Fail (Sprintf "lifecycle expiration Date must be RFC3339 or YYYY-MM-DD: %w" [decode_error])
            end
  end.

Definition lifecycle_expiration (e : option lifecycleExpirationXML) : outcome string LifecycleExpiration :=
  match e with
  | None => Ok (mkLifecycleExpiration 0 0 false)
  | Some e =>
      match (if TrimSpace (lex_Date e) =s "" then Ok 0 else parseLifecycleDate (lex_Date e)) with
      | Fail err => Fail err
      | Ok date => Ok (mkLifecycleExpiration (lex_Days e) date (lex_ExpiredObjectDeleteMarker e))
      end
  end.

Definition normalizeLifecycleRule (rule : lifecycleRuleXML) : outcome string LifecycleRule :=
  let status := TrimSpace (lrx_Status rule) in
  if negb ((status =s LifecycleRuleEnabled) || (status =s LifecycleRuleDisabled))
  then Fail "lifecycle rule status must be Enabled or Disabled"
  else match lifecycle_expiration (lrx_Expiration rule) with
  | Fail e => Fail e
  | Ok expiration =>
      let noncurrent := default 0 (lrx_NoncurrentDays rule) in
      let initiation := default 0 (lrx_DaysAfterInitiation rule) in
      if (le_Days expiration <? 0) || (noncurrent <? 0) || (initiation <? 0) then Fail "lifecycle day values must be positive"
      else if (le_Days expiration =? 0) && (le_Date expiration =? 0) && negb (le_ExpiredObjectDeleteMarker expiration)
              && (noncurrent =? 0) && (initiation =? 0)
      then Fail "lifecycle rule must include at least one action"
      else Ok (mkLifecycleRule (TrimSpace (lrx_ID rule)) status (default (lrx_Prefix rule) (lrx_Filter rule)) expiration
                 (mkLifecycleNoncurrentVersionExpiration noncurrent) (mkLifecycleAbortIncompleteMultipartUpload initiation))
  end.

Definition parseLifecycleConfiguration (body : string) : outcome string BucketLifecycleConfiguration :=
  match xml_lifecycle body with
  | None => Fail decode_error
  | Some [] => Fail "lifecycle configuration must include at least one rule"
  | Some rules =>
      if (1000 <? length rules)%nat then Fail "lifecycle configuration cannot contain more than 1000 rules"
      else match normalize_all normalizeLifecycleRule rules with
           | Ok l => Ok (mkBucketLifecycleConfiguration l)
           | Fail e => Fail e
           end
  end.

Definition lifecycle_rule_xml (rule : LifecycleRule) : lifecycleRuleXML :=
  let e := lr_Expiration rule in
  let noncurrent := lnve_NoncurrentDays (lr_NoncurrentVersionExpiration rule) in
  let initiation := laimu_DaysAfterInitiation (lr_AbortIncompleteMultipartUpload rule) in
  mklifecycleRuleXML (lr_ID rule) (lr_Status rule) (if lr_Prefix rule =s "" then None else Some (lr_Prefix rule)) ""
    (if (0 <? le_Days e) || negb (le_Date e =? 0) || le_ExpiredObjectDeleteMarker e
     then Some (mklifecycleExpirationXML (le_Days e) (if le_Date e =? 0 then "" else RFC3339 (le_Date e)) (le_ExpiredObjectDeleteMarker e))
     else None)
    (if 0 <? noncurrent then Some noncurrent else None) (if 0 <? initiation then Some initiation else None).
Definition lifecycleConfigurationFromModel (configuration : BucketLifecycleConfiguration) : list lifecycleRuleXML :=
  map lifecycle_rule_xml (blc_Rules configuration).

Definition parseBucketEncryptionConfiguration (body : string) : outcome string ServerSideEncryption :=
  match xml_encryption body with
  | None => Fail decode_error
  | Some [apply] =>
      let algorithm := TrimSpace (aex_SSEAlgorithm apply) in
      let keyID := TrimSpace (aex_KMSMasterKeyID apply) in
      if algorithm =s ServerSideEncryptionAES256 then
        if negb (keyID =s "") then Fail "KMSMasterKeyID requires aws:kms encryption" else Ok (mkServerSideEncryption ServerSideEncryptionAES256 "" "")
      else if algorithm =s ServerSideEncryptionAWSKMS then Ok (mkServerSideEncryption ServerSideEncryptionAWSKMS keyID "")
      else Fail "SSEAlgorithm must be AES256 or aws:kms"
  | Some _ => Fail "encryption configuration must include exactly one rule"
  end.
Definition bucketEncryptionConfigurationFromModel (e : ServerSideEncryption) : list applyEncryptionXML :=
  [mkapplyEncryptionXML (sse_Algorithm e) (sse_KeyID e)].

Definition versionTimestamp (v : ObjectVersion) : Time := if ov_CommittedAt v =? 0 then ov_CreatedAt v else ov_CommittedAt v.

End Configurations.

(** ** Cross-origin requests *)

Definition corsOriginAllowed (rule : CORSRule) (origin : string) : bool :=
  existsb (fun allowed => (allowed =s "*") || (allowed =s origin)) (cors_AllowedOrigins rule).
Definition corsMethodAllowed (rule : CORSRule) (method : string) : bool :=
  existsb (fun allowed => EqualFold allowed method) (cors_AllowedMethods rule).
Definition corsHeaderAllowed (allowedHeaders : list string) (header : string) : bool :=
  if header =s "" then true
  else
    let header := ToLower (TrimSpace header) in
    existsb (fun allowed =>
      let allowed := ToLower (TrimSpace allowed) in
      (allowed =s "*") || (HasSuffix allowed "*" && HasPrefix header (TrimSuffix allowed "*")) || (allowed =s header)) allowedHeaders.
Definition corsHeadersAllowed (rule : CORSRule) (requested : list string) : bool :=
  forallb (corsHeaderAllowed (cors_AllowedHeaders rule)) requested.
Definition requestedCORSHeaders (value : string) : list string :=
  if TrimSpace value =s "" then [] else cleanStringList (Split ","%char value).

Definition corsAllowOriginValue (rule : CORSRule) (origin : string) : string :=
  match find (fun allowed => (allowed =s "*") || (allowed =s origin)) (cors_AllowedOrigins rule) with
  | Some allowed => if allowed =s "*" then "*" else origin
  | None => origin
  end.

(** Headers with all their values, as [http.Header]. *)
Definition AllHeaders : Type := gmap string (list string).
Definition appendVary (value : string) (headers : AllHeaders) : AllHeaders :=
  let existing := default [] (headers !! "Vary") in
  if existsb (fun line => existsb (fun part => EqualFold (TrimSpace part) value) (Split ","%char line)) existing then headers
  else <["Vary" := (existing ++ [value])%list]> headers.

Definition writeCORSHeaders (r : Request) (rule : CORSRule) (preflight : bool) (headers : AllHeaders) : AllHeaders :=
  let headers := <["Access-Control-Allow-Origin" := [corsAllowOriginValue rule (Header r "origin")]]> headers in
  let headers := appendVary "Origin" headers in
  if preflight then
    let headers := appendVary "Access-Control-Request-Method" headers in
    let headers := appendVary "Access-Control-Request-Headers" headers in
    let headers := <["Access-Control-Allow-Methods" := [String.concat ", " (cors_AllowedMethods rule)]]> headers in
    let requested := TrimSpace (Header r "access-control-request-headers") in
    let headers := if negb (requested =s "") then <["Access-Control-Allow-Headers" := [requested]]> headers
                   else match cors_AllowedHeaders rule with
                        | [] => headers
                        | l => <["Access-Control-Allow-Headers" := [String.concat ", " l]]> headers
                        end in
    if 0 <? cors_MaxAgeSeconds rule then <["Access-Control-Max-Age" := [Itoa (cors_MaxAgeSeconds rule)]]> headers else headers
  else match cors_ExposeHeaders rule with
       | [] => headers
       | l => <["Access-Control-Expose-Headers" := [String.concat ", " l]]> headers
       end.

(** ** Handlers *)

Section Buckets.
Context `{Env} {D : Type} `{SegmentStore D} `{GoFmt, GoNet, Aead}.
Context (others : nat -> list call).
Context (error_text : WErr -> string).
Context (h : s3Handler).
Abbreviation W := (W (D := D)).
Abbreviation G := (G (D := D)).
Abbreviation meta_call := (meta_call others).
Abbreviation meta_read := (meta_read others).
Abbreviation bucketByName := (bucketByName (D := D) others).
Abbreviation objectHead := (objectHead (D := D) others).
Abbreviation bucketError := (bucketError error_text).
Abbreviation objectError := (objectError error_text).
Abbreviation audit := requestAuditContext.

Definition done_reply (status : Z) : Reply := mkReply status ∅ NoBody.

Definition matchingCORSRule (r : Request) (bucketName method : string) : G (option CORSRule) :=
  let origin := TrimSpace (Header r "origin") in
  if (origin =s "") || (bucketName =s "") || (method =s "") then st_ret None
  else
    let! bucket := attempt (bucketByName bucketName) in
    match bucket with
    | Fail _ => st_ret None
    | Ok bucket =>
        let! rules := attempt (meta_read (GetBucketCORS (bk_BucketID bucket))) in
        match rules with
        | Fail _ => st_ret None
        | Ok rules =>
            let method := ToUpper (TrimSpace method) in
            let requested := requestedCORSHeaders (Header r "access-control-request-headers") in
            st_ret (find (fun rule => corsOriginAllowed rule origin && corsMethodAllowed rule method && corsHeadersAllowed rule requested) rules)
        end
    end.

(** The answer to a preflight request that could be routed. *)
Definition handleCORSPreflight (r : Request) : G AllHeaders :=
  let! rule := matchingCORSRule r (rq_Bucket r) (Header r "access-control-request-method") in
  match rule with
  | None => refuse (AccessDenied "CORS preflight is not allowed")
  | Some rule => st_ret (writeCORSHeaders r rule true ∅)
  end.

(** The headers the middleware adds to the reply of a routed request. *)
Definition corsResponseMiddleware (r : Request) (method : string) : G AllHeaders :=
  if (Header r "origin" =s "") || (rq_Bucket r =s "") then st_ret ∅
  else
    let! rule := matchingCORSRule r (rq_Bucket r) method in
    st_ret (match rule with Some rule => writeCORSHeaders r rule false ∅ | None => ∅ end).

Definition principal_of (r : Request) : G Principal :=
  match rq_Principal r with Some p => st_ret p | None => refuse (AccessDenied "authenticated principal is required") end.

Definition listBuckets (r : Request) : G Reply :=
  let! principal := principal_of r in
  let! buckets := or_refuse (metadataError error_text) (meta_read (ListBuckets (p_TenantID principal))) in
  st_ret (xml_reply (BucketsResult (mklistBucketsResult (mkownerEntry (p_TenantID principal) (p_DisplayName principal))
    (map (fun b => mkbucketEntry (bk_Name b) (RFC3339 (bk_CreatedAt b))) buckets)))).

Definition createBucket (r : Request) : G Reply :=
  let! principal := principal_of r in
  let! objectLockEnabled := checked InvalidArgument (bucketObjectLockEnabledForCreate r) in
  let req := mkCreateBucketRequest (p_TenantID principal) (rq_Bucket r) (h_Region h) objectLockEnabled in
  or_refuse (fun e => match e with MetaErr ErrAlreadyExists => BucketAlreadyOwnedByYou "bucket already exists" | _ => bucketError e end)
    (meta_call (C_CreateBucket req) (CreateBucket req)) ;;!
  st_ret (mkReply 200 (set_header "Location" ("/" +:+ rq_Bucket r) ∅) NoBody).

Definition headBucket (r : Request) : G Reply :=
  let! bucket := or_refuse bucketError (bucketByName (rq_Bucket r)) in
  st_ret (mkReply 200 (set_header "x-amz-bucket-region" (bk_Region bucket) ∅) NoBody).

Definition deleteBucket (r : Request) : G Reply :=
  let! bucket := or_refuse bucketError (bucketByName (rq_Bucket r)) in
  or_refuse (fun e => match e with MetaErr ErrBucketNotEmpty => BucketNotEmpty "bucket is not empty" | _ => bucketError e end)
    (meta_call (C_DeleteBucket (bk_BucketID bucket)) (DeleteBucket (bk_BucketID bucket))) ;;!
  st_ret (done_reply 204).

Definition getBucketLocation (r : Request) : G Reply :=
  let! bucket := or_refuse bucketError (bucketByName (rq_Bucket r)) in
  st_ret (xml_reply (LocationConstraint (bk_Region bucket))).

Definition getBucketVersioning (r : Request) : G Reply :=
  let! bucket := or_refuse bucketError (bucketByName (rq_Bucket r)) in
  st_ret (xml_reply (VersioningConfiguration (bk_VersioningState bucket))).

(** A change of the bucket the request names: the body is parsed after the bucket is
    found, and the repository called. *)
Definition change_bucket {A B} (r : Request) (parse : outcome string A) (request : Bucket -> A -> call * M B) (status : Z) : G Reply :=
  let! bucket := or_refuse bucketError (bucketByName (rq_Bucket r)) in
  let! value := checked InvalidArgument parse in
  or_refuse bucketError (meta_call (request bucket value).1 (request bucket value).2) ;;!
  st_ret (done_reply status).

Definition putBucketVersioning (r : Request) : G Reply :=
  change_bucket r (parseBucketVersioning (rq_Body r)) (fun bucket state =>
    let req := mkPutBucketVersioningRequest (bk_BucketID bucket) state in (C_PutBucketVersioning req, PutBucketVersioning req)) 200.

Definition getBucketCORS (r : Request) : G Reply :=
  let! bucket := or_refuse bucketError (bucketByName (rq_Bucket r)) in
  let! rules := or_refuse bucketError (meta_read (GetBucketCORS (bk_BucketID bucket))) in
  match rules with
  | [] => refuse (NoSuchCORSConfiguration "bucket CORS configuration does not exist")
  | _ => st_ret (xml_reply (CORSConfiguration (corsConfigurationFromModel rules)))
  end.
Definition putBucketCORS (r : Request) : G Reply :=
  change_bucket r (parseCORSConfiguration (rq_Body r)) (fun bucket rules =>
    let req := mkBucketCORSRequest (bk_BucketID bucket) rules in (C_PutBucketCORS req, PutBucketCORS req)) 200.
Definition deleteBucketCORS (r : Request) : G Reply :=
  change_bucket r (Ok tt) (fun bucket _ => (C_DeleteBucketCORS (bk_BucketID bucket), DeleteBucketCORS (bk_BucketID bucket))) 204.

(** A configuration that may be missing. *)
Definition read_configuration {A} (r : Request) (missing : S3Error) (m : string -> M A) : G A :=
  let! bucket := or_refuse bucketError (bucketByName (rq_Bucket r)) in
  or_refuse (fun e => match e with MetaErr ErrNotFound => missing | _ => bucketError e end) (meta_read (m (bk_BucketID bucket))).

Definition getBucketLifecycle (r : Request) : G Reply :=
  let! configuration := read_configuration r (NoSuchLifecycleConfiguration "bucket lifecycle configuration does not exist") GetBucketLifecycle in
  st_ret (xml_reply (LifecycleConfiguration (lifecycleConfigurationFromModel configuration))).
Definition putBucketLifecycle (r : Request) : G Reply :=
  change_bucket r (parseLifecycleConfiguration (rq_Body r)) (fun bucket configuration =>
    let req := mkBucketLifecycleRequest (bk_BucketID bucket) configuration (audit r "PutBucketLifecycle") in
    (C_PutBucketLifecycle req, PutBucketLifecycle req)) 200.
Definition deleteBucketLifecycle (r : Request) : G Reply :=
  change_bucket r (Ok tt) (fun bucket _ => (C_DeleteBucketLifecycle (bk_BucketID bucket) (audit r "DeleteBucketLifecycle"),
    DeleteBucketLifecycle (bk_BucketID bucket) (audit r "DeleteBucketLifecycle"))) 204.

Definition getBucketEncryption (r : Request) : G Reply :=
  let! e := read_configuration r (ServerSideEncryptionConfigurationNotFound "bucket encryption configuration does not exist") GetBucketEncryption in
  st_ret (xml_reply (EncryptionConfiguration (bucketEncryptionConfigurationFromModel e))).
Definition putBucketEncryption (r : Request) : G Reply :=
  let! bucket := or_refuse bucketError (bucketByName (rq_Bucket r)) in
  let! e := checked InvalidArgument (parseBucketEncryptionConfiguration (rq_Body r)) in
  match (if sse_Algorithm e =s ServerSideEncryptionAWSKMS then edition_Require (h_Edition h) FeatureSSEKMS else None) with
  | Some text => refuse (NotImplemented text)
  | None =>
      let req := mkBucketEncryptionRequest (bk_BucketID bucket) e (audit r "PutBucketEncryption") in
      or_refuse bucketError (meta_call (C_PutBucketEncryption req) (PutBucketEncryption req)) ;;!
      st_ret (done_reply 200)
  end.
Definition deleteBucketEncryption (r : Request) : G Reply :=
  change_bucket r (Ok tt) (fun bucket _ => (C_DeleteBucketEncryption (bk_BucketID bucket) (audit r "DeleteBucketEncryption"),
    DeleteBucketEncryption (bk_BucketID bucket) (audit r "DeleteBucketEncryption"))) 204.

Definition getBucketPolicy (r : Request) : G Reply :=
  let! policy := read_configuration r (NoSuchBucketPolicy "bucket policy does not exist") GetBucketPolicy in
  st_ret (mkReply 200 (set_header "Content-Type" "application/json" ∅) (Json policy)).
Definition parse_policy (body : string) : outcome string PolicyDocument :=
  match json_policy body with
  | None => Fail decode_error
  | Some v => match ParsePolicyDocument v with Some p => Ok p | None => Fail decode_error end
  end.
Definition putBucketPolicy (r : Request) : G Reply :=
  change_bucket r (parse_policy (rq_Body r)) (fun bucket policy =>
    let req := mkBucketPolicyRequest (bk_BucketID bucket) policy (audit r "PutBucketPolicy") in (C_PutBucketPolicy req, PutBucketPolicy req)) 204.
Definition deleteBucketPolicy (r : Request) : G Reply :=
  change_bucket r (Ok tt) (fun bucket _ => (C_DeleteBucketPolicy (bk_BucketID bucket) (audit r "DeleteBucketPolicy"),
    DeleteBucketPolicy (bk_BucketID bucket) (audit r "DeleteBucketPolicy"))) 204.

Definition getBucketObjectLock (r : Request) : G Reply :=
  let! bucket := or_refuse bucketError (bucketByName (rq_Bucket r)) in
  let! configuration := or_refuse bucketError (meta_read (GetBucketObjectLock (bk_BucketID bucket))) in
  if negb (bolc_Enabled configuration) then refuse (ObjectLockConfigurationNotFound "bucket object lock configuration does not exist")
  else st_ret (xml_reply (ObjectLockConfiguration (bucketObjectLockConfigurationFromModel configuration))).
Definition putBucketObjectLock (r : Request) : G Reply :=
  change_bucket r (parseBucketObjectLockConfiguration (rq_Body r)) (fun bucket configuration =>
    let req := mkBucketObjectLockRequest (bk_BucketID bucket) configuration (audit r "PutBucketObjectLock") in
    (C_PutBucketObjectLock req, PutBucketObjectLock req)) 200.

(** The access-control list grants its owner everything. *)
Definition writeACL (ownerID : string) : Reply := xml_reply (AccessControlPolicy (mkownerEntry ownerID ownerID)).
Definition getBucketACL (r : Request) : G Reply :=
  let! bucket := or_refuse bucketError (bucketByName (rq_Bucket r)) in
  st_ret (writeACL (bk_TenantID bucket)).
Definition putBucketACL (r : Request) : G Reply :=
  or_refuse bucketError (bucketByName (rq_Bucket r)) ;;!
  st_ret (done_reply 200).

(** *** Listings *)

Definition object_entry (head : ObjectHead) : objectEntry :=
  mkobjectEntry (oh_Key head) (RFC3339 (oh_LastModified head)) (oh_ETag head) (oh_SizeBytes head) (snapshot_ID (oh_StorageClass head)).
Definition version_entry (e : ObjectVersionEntry) : objectVersionEntry :=
  let v := ove_Version e in
  mkobjectVersionEntry (ov_Key v) (ov_VersionID v) (ove_IsLatest e) (RFC3339 (versionTimestamp v)) (ov_ETag v) (ov_SizeBytes v)
    (snapshot_ID (ov_StorageClass v)).
Definition marker_entry (e : ObjectVersionEntry) : deleteMarkerEntry :=
  mkdeleteMarkerEntry (ov_Key (ove_Version e)) (ov_VersionID (ove_Version e)) (ove_IsLatest e) (RFC3339 (versionTimestamp (ove_Version e))).

Definition listObjectVersions (r : Request) : G Reply :=
  let! bucket := or_refuse bucketError (bucketByName (rq_Bucket r)) in
  let! maxKeys := checked InvalidArgument (parseMaxKeys (query r "max-keys")) in
  let! result := or_refuse bucketError (meta_read (ListObjectVersions
    (mkListObjectVersionsRequest (bk_BucketID bucket) (query r "prefix") (query r "delimiter") (query r "key-marker")
       (query r "version-id-marker") maxKeys))) in
  st_ret (xml_reply (VersionsResult (mklistVersionsResult (bk_Name bucket) (query r "prefix") (query r "key-marker")
    (query r "version-id-marker") (lovr_NextKeyMarker result) (lovr_NextVersionIDMarker result) (query r "delimiter") maxKeys
    (lovr_IsTruncated result) (map version_entry (lovr_Versions result)) (map marker_entry (lovr_DeleteMarkers result))
    (lovr_CommonPrefixes result)))).

(** What both listings of objects do before they encode the result; [cursor] is the
    query parameter that continues a listing. *)
Definition list_objects (r : Request) (api cursor : string) : G (Bucket * Z * ListObjectsResult) :=
  let! bucket := or_refuse bucketError (bucketByName (rq_Bucket r)) in
  let! maxKeys := checked InvalidArgument (parseMaxKeys (query r "max-keys")) in
  let! result := or_refuse bucketError (meta_read (ListObjects
    (mkListObjectsRequest (bk_BucketID bucket) (query r "prefix") (query r "delimiter") (query r cursor) maxKeys))) in
  recordAccessAudit others error_text r AuditActionListObjects (bk_BucketID bucket) "" ""
    (<["api" := api]> (<["prefix" := query r "prefix"]> (<["delimiter" := query r "delimiter"]> (<["max_keys" := Itoa maxKeys]>
      (<["key_count" := Itoa (Z.of_nat (length (lores_Contents result) + length (lores_CommonPrefixes result)))]>
        {["is_truncated" := FormatBool (lores_IsTruncated result)]}))))) ;;!
  st_ret (bucket, maxKeys, result).

Definition listObjectsV2 (r : Request) : G Reply :=
  let! listed := list_objects r "ListObjectsV2" "continuation-token" in
  let '(bucket, maxKeys, result) := listed in
  st_ret (xml_reply (BucketV2Result (mklistBucketResult (bk_Name bucket) (query r "prefix") (query r "delimiter")
    (Z.of_nat (length (lores_Contents result) + length (lores_CommonPrefixes result))) maxKeys (lores_IsTruncated result)
    (lores_NextContinuationToken result) (map object_entry (lores_Contents result)) (lores_CommonPrefixes result)))).

Definition listObjectsV1 (r : Request) : G Reply :=
  let! listed := list_objects r "ListObjects" "marker" in
  let '(bucket, maxKeys, result) := listed in
  st_ret (xml_reply (BucketV1Result (mklistBucketV1Result (bk_Name bucket) (query r "prefix") (query r "marker")
    (lores_NextContinuationToken result) (query r "delimiter") maxKeys (lores_IsTruncated result)
    (map object_entry (lores_Contents result)) (lores_CommonPrefixes result)))).

(** *** Tags, retention, legal holds and access-control lists of objects *)

(** The head of the object a request names, unless it is a delete marker. *)
Definition live_head (r : Request) : G ObjectHead :=
  let! head := or_refuse objectError (objectHead r) in
  if oh_DeleteMarker head then writeDeleteMarkerError head else st_ret head.

Definition tags_request (bucket : Bucket) (r : Request) (tags : gmap string string) : ObjectTagsRequest :=
  mkObjectTagsRequest (bk_BucketID bucket) (rq_Key r) (subresource r "versionId") tags.

Definition getObjectTagging (r : Request) : G Reply :=
  let! bucket := or_refuse bucketError (bucketByName (rq_Bucket r)) in
  live_head r ;;!
  let! tags := or_refuse objectError (meta_read (GetObjectTags (tags_request bucket r ∅))) in
  st_ret (xml_reply (TaggingResult (tagEntries tags))).

Definition putObjectTagging (r : Request) : G Reply :=
  let! bucket := or_refuse bucketError (bucketByName (rq_Bucket r)) in
  let! tags := checked InvalidArgument (parseObjectTagging (rq_Body r)) in
  live_head r ;;!
  let req := tags_request bucket r tags in
  or_refuse objectError (meta_call (C_PutObjectTags req) (PutObjectTags req)) ;;!
  st_ret (done_reply 200).

Definition deleteObjectTagging (r : Request) : G Reply :=
  let! bucket := or_refuse bucketError (bucketByName (rq_Bucket r)) in
  live_head r ;;!
  let req := tags_request bucket r ∅ in
  or_refuse objectError (meta_call (C_DeleteObjectTags req) (DeleteObjectTags req)) ;;!
  st_ret (done_reply 204).

Definition getObjectRetention (r : Request) : G Reply :=
  let! bucket := or_refuse bucketError (bucketByName (rq_Bucket r)) in
  let! retention := or_refuse objectError (meta_read (GetObjectRetention
    (mkObjectRetentionRequest (bk_BucketID bucket) (rq_Key r) (subresource r "versionId") (mkObjectLockRetention "" 0) false
       zero_AuditContext zero_AuditContext))) in
  st_ret (xml_reply (RetentionResult (objectRetentionFromModel retention))).

Definition putObjectRetention (r : Request) : G Reply :=
  let! bucket := or_refuse bucketError (bucketByName (rq_Bucket r)) in
  let! now := gateway_now in
  let! retention := checked InvalidArgument (parseObjectRetention (rq_Body r) now) in
  let! bypass := governanceBypass others r bucket (rq_Key r) "PutObjectRetention" in
  let req := mkObjectRetentionRequest (bk_BucketID bucket) (rq_Key r) (subresource r "versionId") retention bypass.1 bypass.2
               (audit r "PutObjectRetention") in
  or_refuse objectError (meta_call (C_PutObjectRetention req) (PutObjectRetention req)) ;;!
  st_ret (done_reply 200).

Definition getObjectLegalHold (r : Request) : G Reply :=
  let! bucket := or_refuse bucketError (bucketByName (rq_Bucket r)) in
  let! status := or_refuse objectError (meta_read (GetObjectLegalHold
    (mkObjectLegalHoldRequest (bk_BucketID bucket) (rq_Key r) (subresource r "versionId") "" zero_AuditContext))) in
  st_ret (xml_reply (LegalHoldResult (if status =s "" then ObjectLockLegalHoldOff else status))).

Definition putObjectLegalHold (r : Request) : G Reply :=
  let! bucket := or_refuse bucketError (bucketByName (rq_Bucket r)) in
  let! status := checked InvalidArgument (parseObjectLegalHold (rq_Body r)) in
  let req := mkObjectLegalHoldRequest (bk_BucketID bucket) (rq_Key r) (subresource r "versionId") status (audit r "PutObjectLegalHold") in
  or_refuse objectError (meta_call (C_PutObjectLegalHold req) (PutObjectLegalHold req)) ;;!
  st_ret (done_reply 200).

Definition getObjectACL (r : Request) : G Reply :=
  let! bucket := or_refuse bucketError (bucketByName (rq_Bucket r)) in
  live_head r ;;!
  st_ret (writeACL (bk_TenantID bucket)).
Definition putObjectACL (r : Request) : G Reply := live_head r ;;! st_ret (done_reply 200).

End Buckets.
