(* ===== verification/GatewayServe.v ===== *)
(** * GatewayServe: one request through the gateway

    [handle] of [src/internal/gateway/s3_handlers.go]: a routed request is checked,
    admitted (drain, request limit) and handed to the handler of its operation. *)

From S2P Require Import Prelude GoLib GoText Sha256 StorageTypes Model Requests Encoding Meta Manifest Repo RepoLogic RepoCalls.
From S2P Require Import Segments LocalStore Gc Policy Chunked StorageClass Encryption S3Http Routing Admission GatewayRequest.
From S2P Require Import Gateway GatewayMultipart GatewayBuckets.
Open Scope string_scope.
Open Scope Z_scope.

Section Serve.
Context `{Env} {D : Type} `{SegmentStore D} `{GoFmt, GoNet, Aead}.
Context (others : nat -> list call) (order : list ProtectedRef -> list ProtectedRef).
Context (error_text : WErr -> string) (enc_text : EncErr -> string) (chunk_text : ChunkErr -> string) (bufs : nat -> nat) (random : nat -> entropy).
Context (validator : option (SegmentRef -> D -> outcome StoreErr unit)).
Context (h : s3Handler).
Abbreviation G := (G (D := D)).

(** [reserveRequestLimit], against the counts the request finds. *)
Definition reserveRequestLimit (limiter : option requestLimiter) (tenantID : string) (op : Operation) : G unit :=
  match limiter with
  | None => st_ret tt
  | Some l => match (limiter_tryAcquire tenantID (requestLimitClassForOperation op) l).1 with
              | None => st_ret tt
              | Some _ => refuse (SlowDown "gateway request concurrency limit exceeded")
              end
  end.

(** The switch over the operations. *)
Definition dispatch (op : Operation) (r : Request) : G Reply :=
  match op with
  | OperationListBuckets => listBuckets others error_text r
  | OperationCreateBucket => createBucket others error_text h r
  | OperationHeadBucket => headBucket others error_text r
  | OperationDeleteBucket => deleteBucket others error_text r
  | OperationGetBucketLocation => getBucketLocation others error_text r
  | OperationGetBucketVersioning => getBucketVersioning others error_text r
  | OperationPutBucketVersioning => putBucketVersioning others error_text r
  | OperationGetBucketCORS => getBucketCORS others error_text r
  | OperationPutBucketCORS => putBucketCORS others error_text r
  | OperationDeleteBucketCORS => deleteBucketCORS others error_text r
  | OperationGetBucketLifecycle => getBucketLifecycle others error_text r
  | OperationPutBucketLifecycle => putBucketLifecycle others error_text r
  | OperationDeleteBucketLifecycle => deleteBucketLifecycle others error_text r
  | OperationGetBucketEncryption => getBucketEncryption others error_text r
  | OperationPutBucketEncryption => putBucketEncryption others error_text h r
  | OperationDeleteBucketEncryption => deleteBucketEncryption others error_text r
  | OperationGetBucketObjectLock => getBucketObjectLock others error_text r
  | OperationPutBucketObjectLock => putBucketObjectLock others error_text r
  | OperationGetBucketPolicy => getBucketPolicy others error_text r
  | OperationPutBucketPolicy => putBucketPolicy others error_text r
  | OperationDeleteBucketPolicy => deleteBucketPolicy others error_text r
  | OperationGetBucketACL => getBucketACL others error_text r
  | OperationPutBucketACL => putBucketACL others error_text r
  | OperationListObjectVersions => listObjectVersions others error_text r
  | OperationListObjectsV2 => listObjectsV2 others error_text r
  | OperationListObjects => listObjectsV1 others error_text r
  | OperationPutObject => putObject others order error_text enc_text chunk_text bufs random h r
  | OperationCopyObject => copyObject others order error_text enc_text chunk_text random h r
  | OperationHeadObject => headObject others error_text r
  | OperationGetObject => getObject others error_text enc_text h r
  | OperationDeleteObject => deleteObject others order error_text r
  | OperationDeleteObjects => deleteObjects others order error_text r
  | OperationGetObjectTagging => getObjectTagging others error_text r
  | OperationPutObjectTagging => putObjectTagging others error_text r
  | OperationDeleteObjectTagging => deleteObjectTagging others error_text r
  | OperationGetObjectRetention => getObjectRetention others error_text r
  | OperationPutObjectRetention => putObjectRetention others error_text r
  | OperationGetObjectLegalHold => getObjectLegalHold others error_text r
  | OperationPutObjectLegalHold => putObjectLegalHold others error_text r
  | OperationGetObjectACL => getObjectACL others error_text r
  | OperationPutObjectACL => putObjectACL others error_text r
  | OperationCreateMultipartUpload => createMultipartUpload others error_text r
  | OperationListMultipartUploads => listMultipartUploads others error_text r
  | OperationUploadPart =>
      if negb (Header r "x-amz-copy-source" =s "") then uploadPartCopy others error_text enc_text chunk_text random h r
      else uploadPart others error_text enc_text chunk_text bufs random h r
  | OperationListParts => listParts others error_text r
  | OperationCompleteMultipart => completeMultipartUpload others error_text validator r
  | OperationAbortMultipart => abortMultipartUpload others error_text r
  | OperationUnsupported => refuse (NotImplemented "S3 operation is not implemented")
  end.

(** [handle] on a request that is no preflight and was routed to [op]. *)
Definition handle (drain : GatewayDrainController) (limiter : option requestLimiter) (op : Operation) (r : Request) : G Reply :=
  match validateCompatibilityHeaders r op with
  | Some e => refuse e
  | None =>
      match validateEditionFeature (h_Edition h) r op with
      | Some e => refuse e
      | None =>
          match (Admit op drain).1 with
          | Draining => refuse (ServiceUnavailable "gateway is draining")
          | _ =>
              reserveRequestLimit limiter (p_TenantID (default zero_Principal (rq_Principal r))) op ;;!
              dispatch op r
          end
      end
  end.

End Serve.
