(* ===== verification/GatewayLogic.v ===== *)
(** * GatewayLogic: what a reader returns and what a handler did when it succeeded

    The readers of [src/internal/gateway/s3_handlers.go] against the laws of a segment
    store and of the cipher: a range of an object is the same range of the texts its
    segments hold, one after the other, whether they are encrypted or not. Then inversion rules for the handlers of [Gateway] when nobody else calls the repository:
    what is known of the worlds between the steps of a handler that returned a reply. *)

From S2P Require Import Prelude GoLib GoText Sha256 StorageTypes Model Requests Encoding Meta Manifest Repo RepoLogic.
From S2P Require Import RepoBuckets RepoObjects RepoMultipart RepoListing RepoOps RepoAudit RepoCalls ObjRules.
From S2P Require Import Segments LocalStore Gc Policy Chunked StorageClass Encryption S3Http Routing Admission GatewayRequest Gateway.
Open Scope string_scope.
Open Scope Z_scope.

(** ** Ranges *)

Section Ranges.
Context `{GoFmt, GoNet}.

Lemma partial_range_within start stop size :
  0 <= start <= stop -> stop < size -> size < 2 ^ 64 ->
  partial_range start stop size =
    mkByteRange start (stop - start + 1) (stop - start + 1) ("bytes " +:+ Itoa start +:+ "-" +:+ Itoa stop +:+ "/" +:+ Itoa size) 206.
Proof. intros. unfold partial_range, uint64. by rewrite Z.mod_small by lia. Qed.

(** A range that is served lies in the object. *)
Lemma parseRange_within header size spec :
  0 <= size < 2 ^ 64 -> parseRange header size = Ok spec ->
  0 <= ran_offset spec /\ 0 <= ran_contentLength spec /\ ran_offset spec + ran_contentLength spec <= size.
Proof.
  intros Hsize. unfold parseRange. destruct (header =s ""); [intros [= <-]; simpl; lia|].
  destruct (CutPrefix header "bytes=") as [value|]; [|done]. destruct (contains_byte _ _); [done|].
  destruct (Cut _ value) as [[startText endText] found]. destruct (negb found); [done|]. 
  destruct (size =? 0) eqn:Hz; [done|]. apply Z.eqb_neq in Hz.
  destruct (startText =s "").
  - destruct (ParseUint endText 10) as [suffix|] eqn:Hp; [|done]. destruct (Z.eqb_spec suffix 0); [done|].
    apply ParseUint_range in Hp; [|lia]. intros [= <-]. destruct (Z.ltb_spec size suffix); rewrite partial_range_within by lia; simpl; lia.
  - destruct (endText =s "").
    + destruct (ParseUint startText 10) as [start|] eqn:Hp; [|done]. apply ParseUint_range in Hp; [|lia].
      destruct (Z.leb_spec size start); [done|]. intros [= <-]. rewrite partial_range_within by lia. simpl. lia.
    + destruct (ParseUint startText 10) as [start|] eqn:Hp; [|done]. apply ParseUint_range in Hp; [|lia].
      destruct (ParseUint endText 10) as [stop|] eqn:Hq; [|done]. apply ParseUint_range in Hq; [|lia].
      destruct (Z.ltb_spec stop start), (Z.leb_spec size start); try done. cbn [orb]. intros [= <-].
      destruct (Z.leb_spec size stop); rewrite partial_range_within by lia; simpl; lia.
Qed.
End Ranges.

(** ** Segments that hold a text *)

Section Reads.
Context {D : Type} `{SegmentStoreLaws D} `{GoFmt, GoNet, Aead, !AeadLaws}.
Context (enc_text : EncErr -> string) (h : s3Handler).

(** The store holds the text under the reference, in plain or under the envelope of
    the reference. *)
Definition holds (d : D) (ref : SegmentRef) (text : string) : Prop :=
  str_len text < 2 ^ 62 /\
  if ee_Algorithm (sr_Encryption ref) =s "" then segment_bytes d ref = Some text /\ sr_SizeBytes ref = str_len text
  else exists provider ciphertext,
    h_Encryption h = Some provider /\ segment_bytes d ref = Some ciphertext /\ sr_SizeBytes ref = str_len ciphertext /\
    0 < str_len ciphertext < 2 ^ 63 /\ DecryptSegment provider ciphertext (sr_Encryption ref) = Ok text /\
    ee_PlaintextSizeBytes (sr_Encryption ref) = str_len text /\ text <> "".

Lemma holds_size d ref text : holds d ref text -> segmentLogicalSize ref = str_len text.
Proof.
  intros [_ Ht]. unfold segmentLogicalSize. destruct (_ =s ""); [apply Ht|].
  destruct Ht as (provider & ct & _ & _ & _ & _ & _ & -> & Hne). cbn [negb andb].
  destruct (Z.ltb_spec 0 (str_len text)); [done|]. exfalso. apply Hne, str_length_0. unfold str_len in *. lia.
Qed.

Lemma openSegmentReader_holds ref text off len w :
  holds (w_store w) ref text -> 0 <= off -> 0 < len -> off + len <= str_len text ->
  openSegmentReader enc_text h ref off len w = (Ok (slice off len text), w).
Proof.
  intros Hh Hoff Hlen Hin. pose proof (holds_size _ _ _ Hh) as Hsize. destruct Hh as [Hmax Ht]. unfold openSegmentReader.
  destruct (_ =s "").
  - destruct Ht as [Hb _]. unfold seg_read. rewrite (get_range _ _ _ _ _ Hb); [done | lia..].
  - destruct Ht as (provider & ct & -> & Hb & Hs & Hct & Hdec & _). cbv zeta. rewrite Hsize. unfold uint64. rewrite Z.mod_small by lia.
    destruct (Z.ltb_spec (str_len text) off), (Z.ltb_spec (off + len) off), (Z.ltb_spec (str_len text) (off + len)); try lia.
    cbn [orb]. unfold st_bind, seg_read. rewrite Hs, (get_range _ _ _ _ _ Hb); [|lia..].
    change (take_str _ (drop_str _ ct)) with (slice 0 (str_len ct) ct). rewrite slice_whole. cbn [seg_outcome]. rewrite Hdec.
    unfold st_lift, plaintextRangeReader. destruct (Z.ltb_spec (2 ^ 63 - 1) off), (Z.ltb_spec (2 ^ 63 - 1) len); try lia.
    cbn [orb]. destruct (Z.ltb_spec (str_len text) off); [lia|]. done.
Qed.

(** The texts of several segments, one after the other. *)
Lemma open_readers_holds refs texts off len w :
  Forall2 (holds (w_store w)) refs texts -> 0 <= off -> 0 <= len -> off + len <= str_len (concat_str texts) ->
  open_readers enc_text h refs off len w = (Ok (slice off len (concat_str texts), 0), w).
Proof.
  intros Hall. revert off len. induction Hall as [|ref text refs texts Hh Hall IH]; intros off len Hoff Hlen Hin.
  { cbn [open_readers concat_str] in *. unfold str_len in Hin. simpl in Hin. replace len with 0 by lia. by rewrite slice_nil. }
  cbn [open_readers concat_str]. destruct (Z.eqb_spec len 0) as [->|Hnz]; [by rewrite slice_nil|].
  rewrite (holds_size _ _ _ Hh). cbv zeta. cbn [concat_str] in Hin.
  assert (str_len (text +:+ concat_str texts) = str_len text + str_len (concat_str texts)) as Happ
    by (unfold str_len; rewrite str_length_app; lia).
  destruct (Z.leb_spec (str_len text) off).
  { rewrite IH by lia. by rewrite slice_skip. }
  destruct (Z.ltb_spec len (str_len text - off)).
  - unfold st_bind. rewrite (openSegmentReader_holds _ text) by (done || lia). rewrite IH by (unfold str_len; lia).
    cbn [fst snd]. rewrite Z.sub_diag, slice_nil, str_app_nil_r, slice_within by lia. done.
  - unfold st_bind. rewrite (openSegmentReader_holds _ text) by (done || lia). rewrite IH by lia.
    cbn [fst snd]. rewrite slice_across by lia. done.
Qed.

Lemma openObjectReaders_holds head texts off len w :
  Forall2 (holds (w_store w)) (objectSegmentRefs head) texts -> 0 <= off -> 0 <= len -> off + len <= str_len (concat_str texts) ->
  openObjectReaders enc_text h head off len w = (Ok (slice off len (concat_str texts)), w).
Proof.
  intros Hall Hoff Hlen Hin. unfold openObjectReaders. destruct (Z.eqb_spec len 0) as [->|]; [by rewrite slice_nil|].
  unfold st_bind. by rewrite (open_readers_holds _ texts) by done.
Qed.

End Reads.

(** ** Handlers that succeeded *)

(** Nobody else calls the repository. *)
Definition quiet : nat -> list call := fun _ => [].

(** What requests read of a repository besides its records of work. *)
Definition objects_view (s : Repository) :=
  (bucketNameToID s, bucketsByID s, heads s, versions s, kmsKeys s).

(** Splits a handler that returned into the steps it took. *)
Ltac step H a w1 H1 := apply st_bind_ok in H as (a & w1 & H1 & H).

Section Logic.
Context `{Env} {D : Type} `{SegmentStoreLaws D} `{GoFmt, GoNet, Aead, !AeadLaws}.
Context (order : list ProtectedRef -> list ProtectedRef).
Context (error_text : WErr -> string) (enc_text : EncErr -> string) (chunk_text : ChunkErr -> string) (bufs : nat -> nat) (random : nat -> entropy).
Context (h : s3Handler).
Implicit Types w : World D.

(** ** Steps that change nothing *)

Definition same w w' : Prop := w_repo w' = w_repo w /\ w_store w' = w_store w.
#[export] Instance same_refl : Reflexive same.
Proof. by intros w. Qed.
#[export] Instance same_trans : Transitive same.
Proof. intros a b c [E1 E2] [F1 F2]. split; congruence. Qed.

Definition reads_only {A} (m : M A) : Prop := forall s, (m s).2 = s.

Lemma quiet_read {A} (m : M A) w :
  reads_only m -> exists w', meta_read quiet m w = (meta_outcome (m (w_repo w)).1, w') /\ same w w'.
Proof. intros Hm. eexists. split; [reflexivity|]. unfold same. field_simpl. simpl. by rewrite Hm. Qed.

Lemma quiet_call {A} (c : call) (m : M A) w :
  exists w', meta_call quiet c m w = (meta_outcome (m (w_repo w)).1, w') /\ w_repo w' = (m (w_repo w)).2 /\ w_store w' = w_store w.
Proof. by eexists. Qed.

Lemma or_refuse_ok {A} f (m : W A) w a w' : or_refuse f m w = (Ok a, w') -> m w = (Ok a, w').
Proof. unfold or_refuse. by destruct (m w) as [[] ?]; intros; simplify_eq. Qed.

Lemma checked_ok {A} f (o : outcome string A) w a w' : checked f o w = (Ok a, w') -> o = Ok a /\ w' = w.
Proof. by destruct o; intros [= <- <-]. Qed.

Lemma quiet_read_ok {A} (m : M A) w a w' :
  reads_only m -> meta_read quiet m w = (Ok a, w') -> (m (w_repo w)).1 = Ok a /\ same w w'.
Proof.
  intros Hm Hr. destruct (quiet_read m w Hm) as (w1 & E & Hs). rewrite E in Hr. destruct (m (w_repo w)).1; cbn [meta_outcome] in Hr; by simplify_eq.
Qed.

Lemma bucketByName_reads name : reads_only (GetBucketByName name).
Proof. intros s. unfold GetBucketByName, st_bind, lookup_or. by destruct (bucketNameToID s !! name). Qed.
Lemma lookup_or_reads {A} e (f : Repository -> option A) : reads_only (lookup_or e f).
Proof. by intros s. Qed.

Lemma bucketByName_ok f name w b w' :
  or_refuse f (bucketByName quiet name) w = (Ok b, w') -> (GetBucketByName name (w_repo w)).1 = Ok b /\ same w w'.
Proof. intros Hb%or_refuse_ok. by apply quiet_read_ok in Hb; [|apply bucketByName_reads]. Qed.

(** The early returns of a handler, once it is known to have gone on. *)
Lemma if_none_match_ok r b w w' : if_none_match quiet error_text r b w = (Ok tt, w') -> same w w'.
Proof.
  unfold if_none_match. destruct (_ =s "*"); [|by intros [= <-]]. unfold st_bind, attempt.
  destruct (quiet_read (GetObjectHead (bk_BucketID b) (rq_Key r)) w) as (w1 & -> & Hs); [apply lookup_or_reads|].
  cbn [fst snd]. destruct (meta_outcome _) as [|[[]| | |]]; unfold refuse, st_fail, st_ret; intros; by simplify_eq.
Qed.

Lemma gateway_now_ok w t w' : gateway_now w = (Ok t, w') -> w' = w.
Proof. by intros [= _ <-]. Qed.

Lemma reserveDataBudget_ok size known w w' : reserveDataBudget h size known w = (Ok tt, w') -> w' = w.
Proof. unfold reserveDataBudget. destruct (h_Budget h); [|by intros [= <-]]. destruct (_.1); by intros [= <-]. Qed.

Lemma quota_ok b size w w' : bucketQuotaAllowsObjectWrite quiet error_text b size w = (Ok tt, w') -> same w w'.
Proof.
  unfold bucketQuotaAllowsObjectWrite, st_bind, attempt.
  destruct (quiet_read (GetBucketQuota (bk_BucketID b)) w) as (w1 & -> & Hs).
  { intros s. unfold GetBucketQuota, st_bind, lookup_or, gets, st_fail. by repeat case_match. }
  cbn [fst snd]. unfold refuse, st_fail, st_ret.
  destruct (meta_outcome _) as [q|[[]| | |]]; try case_match; intros; by simplify_eq.
Qed.

(** ** Writing the segment *)

(** The bytes drawn for an encryption have the lengths asked for, and the key ring is
    one that [NewLocalProvider] made. *)
Definition provider_ok : Prop :=
  (forall n, entropy_ok (random n)) /\ forall p, h_Encryption h = Some p -> keys_trimmed p.

(** An envelope hides the length of an empty text, see [Findings]. *)
Definition sized (sse : ServerSideEncryption) (text : string) : Prop :=
  str_len text < 2 ^ 62 /\ (sse_Algorithm sse = ServerSideEncryptionAWSKMS -> text <> "").

Lemma stored_text plaintext size sse context class w p w1 w2 ref w3 :
  provider_ok -> 0 <= size ->
  prepareSegment enc_text chunk_text random h plaintext size sse context w = (Ok p, w1) ->
  put_prepared chunk_text p class w2 = (Ok ref, w3) ->
  w1 = w /\ w_repo w3 = w_repo w2 /\ sr_SegmentID ref <> "" /\ sse_Algorithm (ps_Encryption p) = sse_Algorithm sse /\
  (exists req ref0, PutSegment req (w_store w2) = (Ok ref0, w_store w3) /\ sr_SegmentID ref0 = sr_SegmentID ref) /\
  exists text, plaintext = Ok text /\ (sized sse text -> holds h (w_store w3) ref text).
Proof.
  intros [Hent Hkeys] Hsize. unfold prepareSegment. destruct (String.eqb_spec (sse_Algorithm sse) ServerSideEncryptionAWSKMS) as [Hkms|Hkms];
    cbn [negb].
  - destruct (h_Encryption h) as [provider|] eqn:Hp; [|done]. destruct plaintext as [text|]; [|done].
    destruct (EncryptSegment _ _ _) as [result|] eqn:Henc; [|done]. intros [= <- <-].
    unfold put_prepared. cbn [ps_Reader ps_SizeBytes ps_Envelope ps_Encryption]. unfold st_bind, seg_call.
    destruct (PutSegment _ _) as [[ref0|] d] eqn:Hput; [|done]. intros [= <- <-].
    destruct (decrypt_encrypted _ _ _ _ (Hent _) (Hkeys _ eq_refl) Henc) as (Hdec & Halg & Hplain & Hsz & Hct).
    cbn [es_Plaintext] in *. assert (0 <= er_SizeBytes result) as Hnn by (rewrite Hsz; unfold str_len; lia).
    pose proof (put_bytes (mkPutSegmentRequest _ _ _) _ _ _ Hnn Hput) as Hb.
    destruct (put_named (mkPutSegmentRequest _ _ _) _ _ _ Hnn Hput) as [Hne Hrs]. cbn [put_Reader] in *.
    unfold same. field_simpl. split_and!; [done | done | done | | by eexists _, _ |].
    { unfold EncryptSegment in Henc. by repeat case_match; simplify_eq. }
    exists text. split; [done|]. intros [Hmax Htext]. split; [done|]. field_simpl.
    destruct (String.eqb_spec (ee_Algorithm (er_Envelope result)) "") as [He|_]; [by rewrite Halg in He|]. rewrite bytes_envelope.
    exists provider, (er_Ciphertext result). split_and!; try done; [unfold str_len in *; lia | unfold str_len in *; lia | by apply Htext].
  - intros [= <- <-]. unfold put_prepared. cbn [ps_Reader ps_SizeBytes ps_Envelope ps_Encryption]. destruct plaintext as [text|]; [|done].
    unfold st_bind, seg_call. destruct (PutSegment _ _) as [[ref0|] d] eqn:Hput; [|done]. intros [= <- <-].
    pose proof (put_bytes (mkPutSegmentRequest _ _ _) _ _ _ Hsize Hput) as Hb.
    destruct (put_named (mkPutSegmentRequest _ _ _) _ _ _ Hsize Hput) as [Hne Hrs]. cbn [put_Reader] in *.
    field_simpl. split_and!; [done | done | done | done | by eexists _, _ |].
    exists text. split; [done|]. intros [Hmax _]. split; [done|]. field_simpl. by rewrite bytes_envelope.
Qed.

Lemma holds_frame d d' ref text : segment_bytes d' ref = segment_bytes d ref -> holds h d ref text -> holds h d' ref text.
Proof. intros E. unfold holds. by rewrite E. Qed.

(** ** Publishing *)

(** The new version is the head of its key and the version the head names. *)
Definition published (req : BeginPutObjectRequest) (head : ObjectHead) (s s' : Repository) : Prop :=
  let key := mk_objectKey (bpo_BucketID req) (bpo_Key req) in
  bucketNameToID s' = bucketNameToID s /\ bucketsByID s' = bucketsByID s /\ kmsKeys s' = kmsKeys s /\
  heads s' !! key = Some head /\ (exists v, versions s' !! mk_versionKey (bpo_BucketID req) (bpo_Key req) (oh_VersionID head) = Some v /\
    ov_SegmentRefs v = oh_SegmentRefs head /\ ov_SegmentRef v = oh_SegmentRef head /\ ov_SizeBytes v = oh_SizeBytes head /\ ov_DeleteMarker v = false /\ ov_ETag v = oh_ETag head /\
    ov_ServerSideEncryption v = oh_ServerSideEncryption head) /\
  oh_DeleteMarker head = false /\ oh_SegmentRefs head = normalizeSegmentRefs (bpo_SegmentRef req) (bpo_SegmentRefs req) /\
  oh_SegmentRef head = firstSegmentRef (oh_SegmentRefs head) /\
  oh_SizeBytes head = bpo_SizeBytes req /\ oh_ETag head = bpo_ETag req /\ oh_ServerSideEncryption head = bpo_ServerSideEncryption req.

Lemma PutObjectVersion_published req s :
  wp (PutObjectVersion req) (fun o s' => match o with
    | Ok r => published req (povr_Head r) s s' /\
              povr_ReplacedHead r = default zero_ObjectHead (heads s !! mk_objectKey (bpo_BucketID req) (bpo_Key req))
    | Fail _ => True
    end) s.
Proof.
  unfold PutObjectVersion. owp; try done.
  all: cbn [povr_Head povr_ReplacedHead]; unfold published; field_simpl; rewrite ?lookup_insert_eq; unfold headFromVersion, version_of_request;
    field_simpl; split_and!; try done.
  all: eexists; split_and!; reflexivity.
Qed.

(** Deleting segments touches the queues of the repository and the segments named. *)
Definition segments_frame (ids : list string) w w' : Prop :=
  objects_view (w_repo w') = objects_view (w_repo w) /\
  forall ref, sr_SegmentID ref ∉ ids -> segment_bytes (w_store w') ref = segment_bytes (w_store w) ref.
#[export] Instance segments_frame_refl ids : Reflexive (segments_frame ids).
Proof. by intros w. Qed.
#[export] Instance segments_frame_trans ids : Transitive (segments_frame ids).
Proof. intros a b c [E1 F1] [E2 F2]. split; [congruence|]. intros ref Hr. rewrite F2, F1; done. Qed.

Lemma quiet_call_frame {A} ids c (m : M A) : frames objects_view m -> preserves (segments_frame ids) (meta_call quiet c m).
Proof. intros Hm w. split; [apply Hm | done]. Qed.

Lemma attempt_frame {A} ids (m : W A) : preserves (segments_frame ids) m -> preserves (segments_frame ids) (attempt m).
Proof. intros Hm w. apply Hm. Qed.

Lemma delete_segment_frame ids ref reason : sr_SegmentID ref ∈ ids -> preserves (segments_frame ids) (seg_call (DeleteSegment ref reason)).
Proof.
  intros Hin w. split; [done|]. intros ref' Hn. unfold st_exec, seg_call. field_simpl. cbn [snd].
  destruct (DeleteSegment ref reason (w_store w)) as [o d] eqn:Hd. cbn [snd].
  eapply delete_frame; [exact Hd|]. intros Heq. apply Hn. by rewrite <- Heq.
Qed.

Lemma markOrphan_frame ids ref reason : preserves (segments_frame ids) (markOrphan quiet ref reason).
Proof.
  unfold markOrphan. destruct (_ =s ""); [intros w; reflexivity|]. intros w. unfold st_exec, ignore. cbn [snd].
  revert w. change (preserves (segments_frame ids) (tracker_MarkOrphan quiet ref reason)). unfold tracker_MarkOrphan. cbv zeta.
  apply preserves_bind; [tc_solve | |intros ?; apply preserves_ret; tc_solve]. apply quiet_call_frame. frame.
Qed.

Lemma drop_segment_frame ids ref reason : sr_SegmentID ref ∈ ids -> preserves (segments_frame ids) (drop_segment quiet ref reason).
Proof.
  intros Hin. unfold drop_segment. apply preserves_bind; [tc_solve | |].
  - by apply attempt_frame, delete_segment_frame.
  - intros [|[|[]| |]]; try (apply preserves_ret; tc_solve); apply markOrphan_frame.
Qed.

Lemma delete_refs_frame refs reason : preserves (segments_frame (map sr_SegmentID refs)) (delete_refs quiet order refs reason).
Proof.
  assert (forall ids, (forall r, r ∈ refs -> sr_SegmentID r ∈ ids) -> preserves (segments_frame ids) (delete_refs quiet order refs reason)) as Hall.
  { intros ids. induction refs as [|ref refs IH]; intros Hin; cbn [delete_refs]; [apply preserves_ret; tc_solve|].
    apply preserves_bind; [tc_solve | |intros _; apply IH; intros; apply Hin; by right].
    apply preserves_bind; [tc_solve | |].
    - unfold segmentDeleteBlockedByProtectedRef. apply preserves_bind; [tc_solve | |intros ?; apply preserves_ret; tc_solve].
      apply attempt_frame. unfold admitProtectedRefSegmentDelete. destruct (_ =s ""); [apply preserves_ret; tc_solve|]. cbv zeta.
      apply preserves_bind; [tc_solve | |intros ?; apply preserves_ret; tc_solve]. apply quiet_call_frame. frame.
    - intros []; [apply preserves_ret; tc_solve|]. apply drop_segment_frame, Hin. by left. }
  apply Hall. intros r Hr. apply list_elem_of_fmap. eauto.
Qed.

End Logic.
