(* ===== verification/GatewayRoundTrip.v ===== *)
(** * GatewayRoundTrip: GetObject serves what PutObject stored

    The round trip of an object through the gateway, for plain, aws-chunked and
    envelope-encrypted payloads, for every range, on any store with the laws of
    [Segments]. *)

From S2P Require Import Prelude GoLib GoText Sha256 StorageTypes Model Requests Encoding Meta Manifest Repo RepoLogic.
From S2P Require Import RepoBuckets RepoObjects RepoMultipart RepoListing RepoOps RepoAudit RepoCalls ObjRules.
From S2P Require Import Segments LocalStore Gc Policy Chunked StorageClass Encryption S3Http Routing Admission GatewayRequest Gateway.
From S2P Require Import GatewayLogic.
Open Scope string_scope.
Open Scope Z_scope.

Section RoundTrip.
Context `{Env} {D : Type} `{SegmentStoreLaws D} `{GoFmt, GoNet, Aead, !AeadLaws}.
Context (order : list ProtectedRef -> list ProtectedRef).
Context (error_text : WErr -> string) (enc_text : EncErr -> string) (chunk_text : ChunkErr -> string) (bufs : nat -> nat) (random : nat -> entropy).
Context (h : s3Handler).
Implicit Types w : World D.
Abbreviation put := (putObject quiet order error_text enc_text chunk_text bufs random h).
Abbreviation get := (getObject quiet error_text enc_text h).

(** ** Reading *)

(** The headers of a served range. *)
Definition range_headers (head : ObjectHead) (spec : byteRange) : Headers :=
  set_header "Content-Length" (Itoa (ran_contentLength spec))
    (if ran_contentRange spec =s "" then writeObjectHeaders head ∅
     else set_header "Content-Range" (ran_contentRange spec) (writeObjectHeaders head ∅)).

(** What a client is to be served of an object with this head and this text. *)
Definition served (r : Request) (head : ObjectHead) (text : string) : outcome Refusal Reply :=
  match parseRange (Header r "range") (str_len text) with
  | Fail e => Fail (refusal (InvalidRange e))
  | Ok spec => Ok (mkReply (ran_status spec) (range_headers head spec) (Bytes (slice (ran_offset spec) (ran_contentLength spec) text)))
  end.

(** The request names this head of the bucket: the current one, or a version's. *)
Definition names (s : Repository) (b : Bucket) (r : Request) (head : ObjectHead) : Prop :=
  (subresource r "versionId" = "" /\ heads s !! mk_objectKey (bk_BucketID b) (rq_Key r) = Some head) \/
  (subresource r "versionId" <> "" /\
   exists v, versions s !! mk_versionKey (bk_BucketID b) (rq_Key r) (subresource r "versionId") = Some v /\ head = objectHeadFromVersion v).

(** The gateway's edition has envelope encryption and no key is disabled. *)
Definition decrypts (s : Repository) : Prop :=
  edition_Require (h_Edition h) FeatureSSEKMS = None /\ map_Forall (fun _ k => KMSKeyAllowsDecrypt (kms_State k) = true) (kmsKeys s).

Lemma checkDecryptAdmission_ok e w : decrypts (w_repo w) -> exists w', checkDecryptAdmission quiet error_text h e w = (Ok tt, w') /\ same w w'.
Proof.
  intros [Hed Hkeys]. unfold checkDecryptAdmission. destruct (negb _); [by exists w|]. rewrite Hed.
  destruct (_ =s ""); [by exists w|]. unfold st_bind, attempt.
  destruct (quiet_read (GetKMSKey (sse_KeyID e)) w (lookup_or_reads _ _)) as (w1 & -> & Hs). cbn [fst snd].
  unfold GetKMSKey, lookup_or. cbn [fst]. destruct (kmsKeys (w_repo w) !! _) as [k|] eqn:Hk; cbn [meta_outcome].
  - rewrite (Hkeys _ _ Hk). by exists w1.
  - by exists w1.
Qed.

Lemma recordAccessAudit_ok r action b k v details w :
  action <> "" -> exists w', recordAccessAudit quiet error_text r action b k v details w = (Ok tt, w').
Proof.
  intros Ha. unfold recordAccessAudit, st_bind, or_refuse. cbv zeta.
  set (req := mkPutAdminAuditEventRequest _ _ _ _ _ _). destruct (quiet_call (C_PutAdminAuditEvent req) (PutAdminAuditEvent req) w) as (w1 & -> & _).
  assert (exists e, (PutAdminAuditEvent req (w_repo w)).1 = Ok e) as [e ->]; [|by exists w1].
  change (wp (PutAdminAuditEvent req) (fun o _ => exists e, o = Ok e) (w_repo w)). unfold PutAdminAuditEvent.
  apply wp_if; intros Hc; [by apply String.eqb_eq in Hc|]. unfold put_admin_event. apply wp_bind, wp_append.
  unfold last_event. apply wp_lookup_or; [eauto|]. unfold appended. field_simpl. by rewrite last_snoc.
Qed.

Lemma objectHead_names r w b head :
  (GetBucketByName (rq_Bucket r) (w_repo w)).1 = Ok b -> names (w_repo w) b r head ->
  exists w', objectHead quiet r w = (Ok head, w') /\ same w w'.
Proof.
  intros Hb Hn. unfold objectHead, st_bind, bucketByName.
  destruct (quiet_read (GetBucketByName (rq_Bucket r)) w (bucketByName_reads _)) as (w1 & -> & Hs). rewrite Hb. cbn [meta_outcome].
  cbv zeta. destruct Hn as [[-> Hh]|[Hv (v & Hver & ->)]].
  - cbn [String.eqb negb]. destruct (quiet_read (GetObjectHead (bk_BucketID b) (rq_Key r)) w1 (lookup_or_reads _ _)) as (w2 & -> & Hs2).
    rewrite (proj1 Hs). unfold GetObjectHead, lookup_or. rewrite Hh. exists w2. split; [done | by etransitivity].
  - rewrite (proj2 (String.eqb_neq _ _) Hv). cbn [negb].
    destruct (quiet_read (GetObjectVersion (bk_BucketID b) (rq_Key r) (subresource r "versionId")) w1 (lookup_or_reads _ _)) as (w2 & -> & Hs2).
    rewrite (proj1 Hs). unfold GetObjectVersion, lookup_or. rewrite Hver. exists w2. split; [done | by etransitivity].
Qed.

Lemma getObject_served r w b head texts :
  (GetBucketByName (rq_Bucket r) (w_repo w)).1 = Ok b -> names (w_repo w) b r head -> oh_DeleteMarker head = false ->
  Forall2 (holds h (w_store w)) (objectSegmentRefs head) texts -> oh_SizeBytes head = str_len (concat_str texts) ->
  str_len (concat_str texts) < 2 ^ 63 -> decrypts (w_repo w) -> h_Budget h = None ->
  (get r w).1 = served r head (concat_str texts).
Proof.
  intros Hb Hn Hdm Hall Hsize Hmax Hdec Hbud. unfold getObject, served.
  destruct (objectHead_names _ _ _ _ Hb Hn) as (w1 & Hhead & [Hr1 Hs1]). unfold st_bind at 1, or_refuse at 1. rewrite Hhead.
  rewrite Hdm. rewrite <- Hr1 in Hdec. destruct (checkDecryptAdmission_ok (oh_ServerSideEncryption head) w1 Hdec) as (w2 & Hadm & [_ Hs2]).
  unfold st_bind at 1. rewrite Hadm, Hsize. unfold uint64. rewrite Z.mod_small by (unfold str_len in *; lia).
  destruct (parseRange _ _) as [spec|] eqn:Hspec; [|done]. unfold st_bind at 1. cbn [checked st_ret].
  apply parseRange_within in Hspec; [|unfold str_len in *; lia]. unfold st_bind at 1, reserveDataBudget at 1. rewrite Hbud. cbn [st_ret].
  unfold st_bind at 1, or_refuse at 1. rewrite <- Hs1, <- Hs2 in Hall. rewrite (openObjectReaders_holds enc_text h head _ _ _ w2 Hall) by lia.
  unfold st_bind at 1. match goal with |- context [recordAccessAudit quiet ?e ?r ?a ?b ?k ?v ?d w2] =>
    destruct (recordAccessAudit_ok r a b k v d w2) as (w3 & ->); [done|] end. done.
Qed.

(** ** Writing *)

(** The identifier the store chooses next is none the replaced head names. *)
Definition fresh_for (w : World D) (bucketID key : string) : Prop :=
  forall req ref d old, PutSegment req (w_store w) = (Ok ref, d) -> heads (w_repo w) !! mk_objectKey bucketID key = Some old ->
    sr_SegmentID ref ∉ map sr_SegmentID (objectSegmentRefs old).

Lemma published_view req head s s1 s2 : objects_view s2 = objects_view s1 -> published req head s s1 -> published req head s s2.
Proof. unfold objects_view, published. intros [= -> -> -> -> ->]. done. Qed.

Lemma publish_ok b req w head w' :
  publish quiet order error_text b req w = (Ok head, w') ->
  published req head (w_repo w) (w_repo w') /\
  forall ref, (forall old, heads (w_repo w) !! mk_objectKey (bpo_BucketID req) (bpo_Key req) = Some old ->
                sr_SegmentID ref ∉ map sr_SegmentID (objectSegmentRefs old)) ->
    segment_bytes (w_store w') ref = segment_bytes (w_store w) ref.
Proof.
  unfold publish. unfold st_bind at 1, attempt.
  destruct (quiet_call (C_PutObjectVersion req) (PutObjectVersion req) w) as (w1 & -> & Hr & Hs). cbn [fst snd].
  pose proof (PutObjectVersion_published req (w_repo w)) as Hp. unfold wp in Hp. rewrite <- Hr in Hp.
  destruct ((PutObjectVersion req (w_repo w)).1) as [res|e]; cbn [meta_outcome].
  2:{ unfold st_bind. destruct (markOrphan _ _ _ _) as [[] ?]; done. }
  destruct Hp as [Hp Hrep]. unfold st_bind at 1. destruct (negb _ && _) eqn:Hc.
  - pose proof (delete_refs_frame order (objectSegmentRefs (povr_ReplacedHead res)) DeleteReasonObjectOverwritten w1) as [Hv Hseg].
    unfold deleteObjectSegments, st_exec in *. destruct (delete_refs _ _ _ _ w1) as [[[]|] w2]; [|done]. cbn [snd] in *.
    intros [= <- <-]. split; [by eapply published_view|].
    intros ref Hfresh. rewrite Hseg, Hs; [done|]. rewrite Hrep.
    destruct (heads (w_repo w) !! _) as [old|]; [by apply Hfresh|]. apply not_elem_of_nil.
  - intros [= <- <-]. split; [done|]. intros ref _. by rewrite Hs.
Qed.

Lemma requestPayload_ok r p : requestPayload bufs r = Ok p -> p.1 = read_body bufs r /\ 0 <= p.2.
Proof.
  unfold requestPayload. destruct (isAWSChunkedRequest r).
  - destruct (decodedContentLength r) as [size|] eqn:Hd; [|done]. intros [= <-]. split; [done|]. unfold decodedContentLength in Hd.
    destruct (_ =s ""); simplify_eq; [done|]. by apply ParseUint_range in Hd as [? _].
  - intros [= <-]. split; [done|]. unfold requestContentLength. cbn [snd]. destruct (Z.leb_spec (rq_ContentLength r) 0); lia.
Qed.

(** The bucket the request names, and what its objects are encrypted with. *)
Definition target (w : World D) (r : Request) (b : Bucket) : Prop := (GetBucketByName (rq_Bucket r) (w_repo w)).1 = Ok b.
Definition payload_sized (w : World D) (r : Request) (text : string) : Prop :=
  forall b sse, target w r b -> serverSideEncryptionFromRequest r (bk_DefaultEncryption b) = Ok sse -> sized sse text.

Lemma putObject_stores r w reply w' text :
  provider_ok random h -> (forall b, target w r b -> fresh_for w (bk_BucketID b) (rq_Key r)) ->
  read_body bufs r = Ok text -> payload_sized w r text -> put r w = (Ok reply, w') ->
  exists b ref req head, target w r b /\ rq_Key r = bpo_Key req /\ bk_BucketID b = bpo_BucketID req /\
    published req head (w_repo w) (w_repo w') /\ bpo_SegmentRef req = ref /\ bpo_SegmentRefs req = [] /\ sr_SegmentID ref <> "" /\
    bpo_SizeBytes req = str_len text /\ bpo_ETag req = etag_of text /\ holds h (w_store w') ref text /\
    rp_Headers reply = put_headers head (etag_of text).
Proof.
  intros Hprov Hfresh Htext Hsized Hput. unfold putObject in Hput.
  step Hput b w1 Hb. apply bucketByName_ok in Hb as [Hb S1]. step Hput u w2 E2. destruct u. apply if_none_match_ok in E2.
  step Hput tg w3 E3. apply checked_ok in E3 as [_ ->]. step Hput t w4 E4. apply gateway_now_ok in E4 as ->.
  step Hput lk w5 E5. apply checked_ok in E5 as [_ ->]. step Hput pl w6 E6. apply checked_ok in E6 as [Hpl ->].
  step Hput u w7 E7. destruct u. apply reserveDataBudget_ok in E7 as ->. step Hput cl w8 E8. apply checked_ok in E8 as [_ ->].
  step Hput u w9 E9. destruct u. apply quota_ok in E9. step Hput sse w10 E10. apply checked_ok in E10 as [Hsse ->].
  step Hput p w11 E11. step Hput ref w12 E12. apply or_refuse_ok in E12. cbv zeta in Hput. step Hput nh w13 E13.
  injection Hput as <- <-. cbn [rp_Headers]. apply requestPayload_ok in Hpl as [Hp1 Hp2]. rewrite Hp1, Htext in *. cbn [bytes_of] in *.
  pose proof (stored_text enc_text chunk_text random h _ _ _ _ _ _ _ _ _ _ _ Hprov Hp2 E11 E12) as
    (-> & Hrepo & Hid & Halg & (sreq & ref0 & Hseg & Hid0) & (text' & [= <-] & Hholds)).
  assert (same w w9) as S9 by (by do 2 (etransitivity; [done|])). destruct S9 as [R9 T9].
  specialize (Hholds (Hsized _ _ Hb Hsse)). apply publish_ok in E13 as [Hpub Hkeep]. rewrite Hrepo, R9 in Hpub, Hkeep.
  cbn [bpo_BucketID bpo_Key] in Hkeep. eexists b, ref, _, nh. split_and!; [exact Hb | | | exact Hpub | ..]; try done.
  - cbn [bpo_SizeBytes]. rewrite (holds_size _ _ _ _ Hholds). apply int64_id. destruct Hholds as [? _]. unfold str_len in *. lia.
  - eapply holds_frame; [|exact Hholds]. apply Hkeep. intros old Hold. rewrite <- Hid0. rewrite T9 in Hseg.
    exact (Hfresh _ Hb _ _ _ _ Hseg Hold).
Qed.

(** ** The round trip *)

Lemma lookup_set_header name name' value hs :
  set_header name value hs !! name' = if decide (name = name') then (if value =s "" then None else Some value) else hs !! name'.
Proof.
  unfold set_header, Headers. destruct (value =s "").
  - by destruct (decide (name = name')) as [->|]; [rewrite lookup_delete_eq | rewrite lookup_delete_ne].
  - by destruct (decide (name = name')) as [->|]; [rewrite lookup_insert_eq | rewrite lookup_insert_ne].
Qed.

Lemma lookup_sse_headers e hs name :
  name <> "x-amz-server-side-encryption" -> name <> "x-amz-server-side-encryption-aws-kms-key-id" ->
  writeServerSideEncryptionHeaders e hs !! name = hs !! name.
Proof.
  intros H1' H2'. unfold writeServerSideEncryptionHeaders. by repeat case_match; rewrite ?lookup_set_header, ?decide_False by congruence.
Qed.

(** The headers a client goes on with. *)
Lemma put_headers_spec head etag :
  etag <> "" ->
  put_headers head etag !! "ETag" = Some etag /\
  put_headers head etag !! "x-amz-version-id" = if oh_VersionID head =s "" then None else Some (oh_VersionID head).
Proof.
  intros He. apply String.eqb_neq in He. unfold put_headers. rewrite !lookup_sse_headers, !lookup_set_header, He by done. split; done.
Qed.

(** The current object, or the version the reply to the put named. *)
Definition asks_for (rget : Request) (reply : Reply) : Prop :=
  subresource rget "versionId" = "" \/ rp_Headers reply !! "x-amz-version-id" = Some (subresource rget "versionId").

Lemma published_names (s s' : Repository) b req head r :
  published req head s s' -> bk_BucketID b = bpo_BucketID req -> rq_Key r = bpo_Key req ->
  subresource r "versionId" = "" \/ (oh_VersionID head <> "" /\ subresource r "versionId" = oh_VersionID head) ->
  exists head', names s' b r head' /\ oh_DeleteMarker head' = false /\ objectSegmentRefs head' = objectSegmentRefs head /\
    oh_SizeBytes head' = oh_SizeBytes head /\ oh_ETag head' = oh_ETag head.
Proof.
  intros (_ & _ & _ & Hhead & (v & Hv & Hrefs & Href & Hsz & Hdm & Htag & _) & Hdm' & Hn & Hfirst & _) Hb Hk [Hver|[Hne Hver]].
  - exists head. split_and!; try done. left. by rewrite Hb, Hk.
  - exists (objectHeadFromVersion v). split_and!; try done.
    + right. rewrite Hver, Hb, Hk. eauto.
    + unfold objectSegmentRefs, objectHeadFromVersion. cbn [oh_SegmentRefs oh_SegmentRef]. by rewrite Hrefs, Href.
Qed.


End RoundTrip.
