(* ===== verification/GatewayCompletion.v ===== *)
(** * GatewayCompletion: a completed upload is the concatenation of its parts

    [completeMultipartUpload] of [src/internal/gateway/s3_handlers.go]: the pending
    version, the completion record, the commit and the clean-up, from an active upload
    to the object that GetObject serves. *)

From S2P Require Import Prelude GoLib GoText Sha256 StorageTypes Model Requests Encoding Meta Manifest Repo RepoLogic.
From S2P Require Import RepoBuckets RepoObjects RepoMultipart RepoListing RepoOps RepoAudit RepoCalls ObjRules.
From S2P Require Import Segments LocalStore Gc Policy Chunked StorageClass Encryption S3Http Routing Admission GatewayRequest Gateway GatewayMultipart.
From S2P Require Import GatewayLogic GatewayRoundTrip.
Open Scope string_scope.
Open Scope Z_scope.

(** ** The repository's side *)

Section Repo.
Context `{Env}.
Implicit Types s : Repository.

(** What the calls around the commit leave alone. *)
Definition completion_view s := (objects_view s, uploads s).

Lemma Prepare_frame req : frames completion_view (PrepareMultipartCompletion req).
Proof. frame. Qed.
Lemma Mark_frame req state : frames completion_view (markMultipartCompletionState req state).
Proof. frame. Qed.
Lemma Complete_frame req : frames objects_view (CompleteMultipartUpload req).
Proof. frame. Qed.
Lemma Cleanup_frame req : frames objects_view (CleanupMultipartUploadParts req).
Proof. frame. Qed.

Lemma BeginPutObject_pending req s :
  wp (BeginPutObject req) (fun o s' => match o with
    | Ok p => exists t, let v := pov_Version p in
        v = version_of_request req (ov_VersionID v) (normalizeSegmentRefs (bpo_SegmentRef req) (bpo_SegmentRefs req)) ObjectVersionPending t 0 /\
        versions s' = <[mk_versionKey (bpo_BucketID req) (bpo_Key req) (ov_VersionID v) := v]> (versions s) /\
        heads s' = heads s /\ bucketNameToID s' = bucketNameToID s /\ bucketsByID s' = bucketsByID s /\ kmsKeys s' = kmsKeys s /\
        uploads s' = uploads s /\ completions s' = completions s /\
        pov_BaseHeadVersionID p = oh_VersionID (default zero_ObjectHead (heads s !! mk_objectKey (bpo_BucketID req) (bpo_Key req)))
    | Fail _ => True
    end) s.
Proof.
  unfold BeginPutObject. owp; try done.
  all: eexists; cbv zeta; cbn [pov_Version pov_BaseHeadVersionID]; unfold version_of_request; cbn [ov_VersionID]; field_simpl; by split_and!.
Qed.

(** The pending version becomes the head when the head is the expected one. *)
Lemma CommitObjectVersion_commits req bk key id t expected s :
  let v := version_of_request req id (normalizeSegmentRefs (bpo_SegmentRef req) (bpo_SegmentRefs req)) ObjectVersionPending t 0 in
  bk = bpo_BucketID req -> key = bpo_Key req -> versions s !! mk_versionKey bk key id = Some v ->
  expected = oh_VersionID (default zero_ObjectHead (heads s !! mk_objectKey bk key)) ->
  wp (CommitObjectVersion (mkCommitObjectVersionRequest bk key id expected)) (fun o s' => match o with
    | Ok head => published req head s s' /\ uploads s' = uploads s /\ completions s' = completions s
    | Fail e => e <> ErrCASConflict
    end) s.
Proof.
  intros v -> -> Hv ->. unfold CommitObjectVersion. cbn [cov_BucketID cov_Key cov_VersionID cov_ExpectedHeadVersionID].
  apply wp_if; intros _; [done|]. cbv zeta. apply wp_bind, wp_gets, wp_bind, wp_gets. rewrite String.eqb_refl. cbn [negb].
  apply wp_bind, wp_lookup_or; [|by rewrite Hv].
  rewrite Hv. intros ? [= <-]. apply wp_if; intros Hst; [done|]. apply wp_bind, wp_now, wp_bind, wp_modify, wp_bind.
  apply wp_drop_replaced. intros V m HV. apply wp_bind, wp_setHeadLocked. cbv zeta. apply wp_bind, wp_sync. intros m'. apply wp_ret.
  field_simpl. unfold published. field_simpl. rewrite lookup_insert_eq. split; [|done]. split_and!; try done.
  exists (v <| ov_State := ObjectVersionCommitted |> <| ov_CommittedAt := env_now (clock_calls s) |>). split_and!; try done.
  unfold headFromVersion. cbn [oh_VersionID]. unfold v, version_of_request in *. cbn [ov_VersionID] in *. field_simpl_in HV.
  destruct HV as [->|(_ & _ & Hne & ->)]; [by rewrite lookup_insert_eq|]. rewrite lookup_delete_ne; [by rewrite lookup_insert_eq | intros [= He]; apply Hne; exact He].
Qed.

Lemma CompleteMultipartUpload_etag req upload s :
  uploads s !! mk_uploadKey (cmp_BucketID req) (cmp_Key req) (cmp_UploadID req) = Some upload -> mu_State upload = MultipartUploadActive ->
  wp (CompleteMultipartUpload req) (fun o _ => match o with Ok u => mu_CompletedETag u = cmp_ETag req | Fail _ => True end) s.
Proof.
  intros Hu Hst. unfold CompleteMultipartUpload, getUploadLocked. apply wp_if; intros _; [done|]. cbv zeta. apply wp_bind.
  apply wp_if; intros _; [done|]. apply wp_lookup_or; [|done]. unfold upload_key. cbn [mur_BucketID mur_Key mur_UploadID]. rewrite Hu.
  intros ? [= <-]. rewrite Hst. cbn [String.eqb Ascii.eqb Bool.eqb negb]. apply wp_if; [done|]. intros _. apply wp_if; intros _; [done|].
  apply wp_bind, wp_lift. destruct (ValidateCompletedMultipartPartCount _); [|done]. apply wp_bind, wp_now, wp_bind. unfold put_upload.
  apply wp_modify, wp_bind. unfold wp. destruct (applyTenantActiveUploadDeltaForBucketLocked _ _ _ _) as [[] ?]; [by field_simpl | done].
Qed.

End Repo.

(** ** The gateway's side *)

Section Gateway.
Context `{Env} {D : Type} `{SegmentStoreLaws D} `{GoFmt, GoNet, Aead, !AeadLaws}.
Context (error_text : WErr -> string) (enc_text : EncErr -> string) (validator : option (SegmentRef -> D -> outcome StoreErr unit)).
Context (h : s3Handler).
Implicit Types w : World D.

(** The part a completion asks for is recorded and its segment holds the text. *)
Definition part_holds w (b : Bucket) (r : Request) (c : completePart) (text : string) : Prop :=
  exists part, parts (w_repo w) !! mk_partKey (bk_BucketID b) (rq_Key r) (subresource r "uploadId") (cpt_PartNumber c) = Some part /\
    mp_PartNumber part = cpt_PartNumber c /\ mp_SizeBytes part = str_len text /\ holds h (w_store w) (mp_SegmentRef part) text.

Lemma by_number_elem (available : list MultipartPart) (m : gmap Z MultipartPart) n part :
  foldl (fun m part => <[mp_PartNumber part := part]> m) m available !! n = Some part ->
  (part ∈ available /\ mp_PartNumber part = n) \/ m !! n = Some part.
Proof.
  revert m. induction available as [|p l IH]; intros m; cbn [foldl]; [by right|]. intros [[? ?]|Hm]%IH; [left; split; [by right | done]|].
  apply lookup_insert_Some in Hm as [[? ->]|[_ Hm]]; [left; split; [by left | done] | by right].
Qed.

Lemma select_parts_elem byNumber requested selected :
  select_parts byNumber requested = Ok selected ->
  Forall2 (fun c part => byNumber !! cpt_PartNumber c = Some part) requested selected.
Proof.
  revert selected. induction requested as [|c l IH]; intros selected; cbn [select_parts]; [intros [= <-]; constructor|].
  destruct (byNumber !! _) as [part|] eqn:Hp; [|done]. destruct (_ && _); [done|].
  destruct (select_parts byNumber l) as [rest|] eqn:Hr; [|done]. intros [= <-]. constructor; [done | by apply IH].
Qed.

(** The selected parts are the recorded ones, in the order of the request. *)
Lemma selected_hold w b r requested texts selected :
  Forall2 (part_holds w b r) requested texts ->
  selectCompleteParts requested (omap (fun n => parts (w_repo w) !! mk_partKey (bk_BucketID b) (rq_Key r) (subresource r "uploadId") n)
    (completePartNumbers requested)) = Ok selected ->
  Forall2 (fun part text => mp_SizeBytes part = str_len text /\ holds h (w_store w) (mp_SegmentRef part) text) selected texts.
Proof.
  intros Hall Hsel%select_parts_elem. unfold completePartNumbers in Hsel.
  set (M := foldl _ _ _) in Hsel. assert (forall c part, c ∈ requested -> M !! cpt_PartNumber c = Some part ->
    parts (w_repo w) !! mk_partKey (bk_BucketID b) (rq_Key r) (subresource r "uploadId") (cpt_PartNumber c) = Some part) as Hown.
  { intros c part Hc [[Hin Hn]|Hno]%by_number_elem; [|by rewrite lookup_empty in Hno].
    apply list_elem_of_omap in Hin as (n & (c' & -> & Hc')%list_elem_of_fmap & Hp).
    apply list_elem_of_lookup_1 in Hc' as [i Hi]. destruct (Forall2_lookup_l _ _ _ _ _ Hall Hi) as (text & _ & (part' & Hp' & Hnum & _)). rewrite Hp in Hp'. simplify_eq. by rewrite <- Hn, Hnum. }
  clearbody M. revert selected Hsel. induction Hall as [|c text requested texts (part & Hp & _ & Hsz & Hh) Hall IH];
    intros selected Hsel; inversion Hsel as [|? p ? selected' Hc Hrest]; subst; [constructor|].
  rewrite (Hown c p) in Hp; [|by left|done]. simplify_eq. constructor; [done|]. apply IH; [|done]. intros c' p' Hin. apply Hown. by right.
Qed.

Lemma total_size w selected texts :
  Forall2 (fun part text => mp_SizeBytes part = str_len text /\ holds h (w_store w) (mp_SegmentRef part) text) selected texts ->
  str_len (concat_str texts) < 2 ^ 62 -> (partSegmentRefs selected).2 = str_len (concat_str texts).
Proof.
  unfold partSegmentRefs. cbn [snd]. intros Hall Hmax.
  assert (forall acc, 0 <= acc -> acc + str_len (concat_str texts) < 2 ^ 63 ->
    foldl (fun total part => uint64 (total + uint64 (mp_SizeBytes part))) acc selected = acc + str_len (concat_str texts)) as Hgen.
  { clear Hmax. induction Hall as [|part text selected texts [Hsz _] Hall IH]; intros acc Hacc; [unfold str_len; simpl; lia|].
    cbn [concat_str foldl]. assert (str_len (text +:+ concat_str texts) = str_len text + str_len (concat_str texts)) as ->
      by (unfold str_len; rewrite str_length_app; lia).
    intros Hm. rewrite Hsz. unfold uint64. assert (0 <= str_len text /\ 0 <= str_len (concat_str texts)) as [? ?] by (unfold str_len; lia).
    rewrite (Z.mod_small (str_len text)), Z.mod_small by lia. rewrite IH by lia. lia. }
  rewrite Hgen by lia. lia.
Qed.

Lemma validateCompleteSegments_ok f refs w w' : or_refuse f (validateCompleteSegments validator refs) w = (Ok tt, w') -> w' = w.
Proof.
  intros Hv%or_refuse_ok. unfold validateCompleteSegments in Hv. destruct validator as [validate|]; [|by injection Hv].
  revert Hv. induction refs as [|ref refs IH]; cbn [validate_refs]; [by intros [= <-]|]. destruct (_ =s _); [|done].
  unfold st_bind, seg_read. destruct (validate ref (w_store w)) as [[]|]; [apply IH | done].
Qed.

Abbreviation complete := (completeMultipartUpload quiet error_text validator).
Abbreviation upload_of w b r := (uploads (w_repo w) !! mk_uploadKey (bk_BucketID b) (rq_Key r) (subresource r "uploadId")).

(** The pending version and its completion record. *)
Definition completion_begun (req : BeginPutObjectRequest) (c : MultipartCompletionRecord) (s s' : Repository) : Prop :=
  exists t, let v := version_of_request req (mcr_ObjectVersionID c) (normalizeSegmentRefs (bpo_SegmentRef req) (bpo_SegmentRefs req)) ObjectVersionPending t 0 in
    versions s' !! mk_versionKey (mcr_BucketID c) (mcr_Key c) (mcr_ObjectVersionID c) = Some v /\
    heads s' = heads s /\ bucketNameToID s' = bucketNameToID s /\ bucketsByID s' = bucketsByID s /\ kmsKeys s' = kmsKeys s /\
    uploads s' = uploads s /\ mcr_BucketID c = bpo_BucketID req /\ mcr_Key c = bpo_Key req /\ mcr_ETag c = bpo_ETag req /\
    mcr_ExpectedHeadVersionID c = oh_VersionID (default zero_ObjectHead (heads s !! mk_objectKey (bpo_BucketID req) (bpo_Key req))).

Lemma Prepare_record req s :
  completions s !! mk_uploadKey (pmc_BucketID req) (pmc_Key req) (pmc_UploadID req) = None ->
  wp (PrepareMultipartCompletion req) (fun o s' => completion_view s' = completion_view s /\ match o with
    | Ok c => mcr_BucketID c = pmc_BucketID req /\ mcr_Key c = pmc_Key req /\ mcr_UploadID c = pmc_UploadID req /\
              mcr_ObjectVersionID c = pmc_ObjectVersionID req /\ mcr_ExpectedHeadVersionID c = pmc_ExpectedHeadVersionID req /\
              mcr_ETag c = pmc_ETag req
    | Fail _ => True
    end) s.
Proof.
  intros Hnone. unfold PrepareMultipartCompletion, getUploadLocked. apply wp_if; intros _; [done|]. cbv zeta. apply wp_bind, wp_gets.
  rewrite Hnone. repeat wp_step; by split_and!.
Qed.

Lemma GetMultipartParts_reads req : reads_only (GetMultipartParts req).
Proof.
  intros s. unfold GetMultipartParts, getActiveUploadLocked, getUploadLocked, st_bind, st_lift, lookup_or, gets, st_fail, st_ret.
  by repeat case_match; simplify_eq.
Qed.
Lemma GetMultipartParts_value req s l :
  (GetMultipartParts req s).1 = Ok l ->
  l = omap (fun n => parts s !! mk_partKey (gmp_BucketID req) (gmp_Key req) (gmp_UploadID req) n) (gmp_PartNumbers req).
Proof.
  change (wp (GetMultipartParts req) (fun o _ => o = Ok l -> l = omap (fun n => parts s !! mk_partKey (gmp_BucketID req) (gmp_Key req) (gmp_UploadID req) n)
    (gmp_PartNumbers req)) s). unfold GetMultipartParts, getActiveUploadLocked, getUploadLocked. repeat wp_step; intros; by simplify_eq.
Qed.

Lemma parse_complete_some body requested : parseCompleteMultipartUpload body = Ok requested -> requested <> [].
Proof. unfold parseCompleteMultipartUpload. destruct (xml_complete body) as [[|p l]|]; [done| |done]. case_match; intros; by simplify_eq. Qed.

Lemma begin_completion_ok r b upload requested texts w c w' :
  parseCompleteMultipartUpload (rq_Body r) = Ok requested -> Forall2 (part_holds w b r) requested texts -> str_len (concat_str texts) < 2 ^ 62 ->
  completions (w_repo w) !! mk_uploadKey (bk_BucketID b) (rq_Key r) (subresource r "uploadId") = None ->
  begin_completion quiet error_text validator r b upload w = (Ok c, w') ->
  exists req, completion_begun req c (w_repo w) (w_repo w') /\ w_store w' = w_store w /\ mcr_UploadID c = subresource r "uploadId" /\
    bpo_BucketID req = bk_BucketID b /\ bpo_Key req = rq_Key r /\ bpo_SizeBytes req = str_len (concat_str texts) /\
    bpo_SegmentRefs req <> [] /\ Forall2 (holds h (w_store w)) (bpo_SegmentRefs req) texts.
Proof.
  intros Hreq Hall Hmax Hnone Hbeg. unfold begin_completion in Hbeg. rewrite Hreq in Hbeg.
  step Hbeg rq0 w1 E1. apply checked_ok in E1 as [[= <-] ->]. step Hbeg pts w2 E2. apply or_refuse_ok in E2.
  apply quiet_read_ok in E2 as [Hparts S2]; [|apply GetMultipartParts_reads]. apply GetMultipartParts_value in Hparts.
  cbn [gmp_BucketID gmp_Key gmp_UploadID gmp_PartNumbers] in Hparts. subst pts.
  step Hbeg sel w3 E3. apply checked_ok in E3 as [Hsel ->]. pose proof (selected_hold _ _ _ _ _ _ Hall Hsel) as Hhold.
  step Hbeg tag w4 E4. apply checked_ok in E4 as [_ ->]. cbv zeta in Hbeg. step Hbeg sz0 w5 E5. apply checked_ok in E5 as [_ ->].
  step Hbeg u w6 E6. destruct u. apply quota_ok in E6. step Hbeg u w7 E7. destruct u. apply validateCompleteSegments_ok in E7 as ->.
  step Hbeg pend w8 E8. unfold attempt in E8. set (breq := mkBeginPutObjectRequest _ _ _ _ _ _ _ _ _ _ _ _ _) in *.
  destruct (quiet_call (C_BeginPutObject breq) (BeginPutObject breq) w6) as (w8' & Ec & Hr8 & Hs8). rewrite Ec in E8. injection E8 as <- <-.
  assert (same w w6) as [R6 S6] by (etransitivity; eassumption).
  pose proof (BeginPutObject_pending breq (w_repo w6)) as Hp. unfold wp in Hp. rewrite <- Hr8, R6 in Hp. rewrite R6 in Hbeg.
  destruct ((BeginPutObject breq (w_repo w)).1) as [p|e]; cbn [meta_outcome] in Hbeg.
  2:{ exfalso. step Hbeg u w9 E9. done. }
  destruct Hp as (t0 & Hv & Hvs & Hh & Hn & Hb & Hk & Hu & Hc & Hbase). cbv zeta in Hbeg, Hv, Hvs.
  apply or_refuse_ok in Hbeg. set (preq := mkPrepareMultipartCompletionRequest _ _ _ _ _ _ _ _) in *.
  destruct (quiet_call (C_PrepareMultipartCompletion preq) (PrepareMultipartCompletion preq) w8') as (w9 & Ep & Hr9 & Hs9).
  rewrite Ep in Hbeg. pose proof (Prepare_record preq (w_repo w8')) as Hprep. unfold wp in Hprep. rewrite <- Hr9 in Hprep.
  destruct ((PrepareMultipartCompletion preq (w_repo w8')).1) as [c0|]; cbn [meta_outcome] in Hbeg; [|done]. injection Hbeg as <- <-.
  destruct Hprep as [Hview (Pb & Pk & Pu & Pv & Pe & Pt)]; [by rewrite Hc|]. cbn [preq pmc_BucketID pmc_Key pmc_UploadID pmc_ObjectVersionID
    pmc_ExpectedHeadVersionID pmc_ETag] in *. unfold completion_view, objects_view in Hview. injection Hview as V1 V2 V3 V4 V5 V6.
  exists breq. unfold completion_begun. rewrite Hs9, Hs8, S6. split; [|split_and!; try done].
  - exists t0. cbv zeta. rewrite V1, V2, V3, V4, V5, V6, Pb, Pk, Pv, Pt, Pe, Hvs. split_and!; try done. rewrite lookup_insert_eq. by rewrite Hv at 1.
  - cbn [breq bpo_SizeBytes]. rewrite (total_size _ _ _ Hhold Hmax). apply int64_id. unfold str_len in *. lia.
  - cbn [breq bpo_SegmentRefs partSegmentRefs fst]. apply parse_complete_some in Hreq. intros Hnil.
    apply Forall2_length in Hhold, Hall. destruct sel; [|done]. destruct requested; [done|]. cbn in *. lia.
  - cbn [breq bpo_SegmentRefs partSegmentRefs fst]. rewrite Forall2_fmap_l. eapply Forall2_impl; [exact Hhold|]. by intros ? ? [_ ?].
Qed.

(** ** Commit and clean-up *)

Lemma ignore_quiet {A B} (f : Repository -> B) (c : call) (m : M A) w w' :
  frames f m -> ignore (meta_call quiet c m) w = (Ok tt, w') -> f (w_repo w') = f (w_repo w) /\ w_store w' = w_store w.
Proof. intros Hm [= <-]. field_simpl. split; [apply Hm | done]. Qed.

Lemma published_since req head s s1 s2 :
  heads s1 = heads s -> bucketNameToID s1 = bucketNameToID s -> bucketsByID s1 = bucketsByID s -> kmsKeys s1 = kmsKeys s ->
  published req head s1 s2 -> published req head s s2.
Proof. unfold published. intros _ -> -> ->. done. Qed.

Lemma committed_head_ok req c s w head w' :
  completion_begun req c s (w_repo w) -> committedMultipartCompletionHead quiet c w = (Ok head, w') ->
  published req head s (w_repo w') /\ w_store w' = w_store w /\ uploads (w_repo w') = uploads (w_repo w).
Proof.
  intros (t & Hv & Hh & Hn & Hb & Hk & Hu & Cb & Ck & Ct & Ce) Hc. unfold committedMultipartCompletionHead in Hc. cbv zeta in Hc, Hv.
  step Hc ver w1 E1. unfold attempt_of in E1.
  destruct (quiet_read (GetObjectVersion (mcr_BucketID c) (mcr_Key c) (mcr_ObjectVersionID c)) w (lookup_or_reads _ _)) as (w1' & Er & [R1 S1]).
  rewrite Er in E1. injection E1 as <- <-. unfold GetObjectVersion, lookup_or in Hc. cbn [fst] in Hc. rewrite Hv in Hc. cbn [meta_outcome] in Hc.
  unfold version_of_request at 1 in Hc. cbn [ov_State] in Hc. assert ((ObjectVersionPending =s ObjectVersionCommitted) = false) as Ep by done.
  rewrite Ep in Hc. step Hc com w2 E2. unfold attempt_of in E2. set (creq := mkCommitObjectVersionRequest _ _ _ _) in *.
  destruct (quiet_call (C_CommitObjectVersion creq) (CommitObjectVersion creq) w1') as (w2' & Ec & R2 & S2). rewrite Ec in E2. injection E2 as <- <-.
  pose proof (CommitObjectVersion_commits req (mcr_BucketID c) (mcr_Key c) (mcr_ObjectVersionID c) t (mcr_ExpectedHeadVersionID c) (w_repo w1')
    Cb Ck) as Hcom. cbv zeta in Hcom. rewrite R1 in Hcom. specialize (Hcom Hv). rewrite Hh, Cb, Ck in Hcom. specialize (Hcom Ce).
  rewrite <- Cb, <- Ck in Hcom. unfold wp in Hcom. fold creq in Hcom. rewrite <- R1, <- R2 in Hcom.
  destruct ((CommitObjectVersion creq (w_repo w1')).1) as [hd0|e]; cbn [meta_outcome] in Hc.
  - destruct Hcom as (Hpub & Hu2 & _). injection Hc as <- <-. rewrite R1 in *. split_and!; [|congruence|congruence].
    by eapply published_since.
  - destruct e; done.
Qed.

Lemma resume_ok req b c upload s w reply w' :
  completion_begun req c s (w_repo w) ->
  uploads (w_repo w) !! mk_uploadKey (mcr_BucketID c) (mcr_Key c) (mcr_UploadID c) = Some upload -> mu_State upload = MultipartUploadActive ->
  resumeMultipartCompletion quiet error_text b c w = (Ok reply, w') ->
  exists head, published req head s (w_repo w') /\ w_store w' = w_store w /\
    rp_Body reply = Xml (completeResult (bk_Name b) (mcr_Key c) (bpo_ETag req)).
Proof.
  intros Hbegun Hup Hst Hres. unfold resumeMultipartCompletion in Hres. cbv zeta in Hres. step Hres nh w1 E1. apply or_refuse_ok in E1.
  apply (committed_head_ok _ _ _ _ _ _ Hbegun) in E1 as (Hpub & S1 & U1). step Hres u w2 E2. destruct u.
  apply (ignore_quiet completion_view) in E2 as [V2 S2]; [|apply Mark_frame]. injection V2 as N2 B2 H2' O2 K2 U2.
  step Hres up w3 E3. apply or_refuse_ok in E3. set (creq := mkCompleteMultipartUploadRequest _ _ _ _ _ _ _) in *.
  destruct (quiet_call (C_CompleteMultipartUpload creq) (CompleteMultipartUpload creq) w2) as (w3' & Ec & R3 & S3). rewrite Ec in E3.
  pose proof (CompleteMultipartUpload_etag creq upload (w_repo w2)) as Htag. cbn [creq cmp_BucketID cmp_Key cmp_UploadID cmp_ETag] in Htag.
  rewrite U2, U1 in Htag. specialize (Htag Hup Hst). unfold wp in Htag. fold creq in Htag.
  destruct ((CompleteMultipartUpload creq (w_repo w2)).1) as [u0|]; cbn [meta_outcome] in E3; [|done]. injection E3 as <- <-.
  pose proof (Complete_frame creq (w_repo w2)) as V3. unfold st_exec in V3. rewrite <- R3 in V3. cbv beta in V3.
  step Hres u w4 E4. destruct u. apply (ignore_quiet completion_view) in E4 as [V4 S4]; [|apply Mark_frame]. injection V4 as N4 B4 H4' O4 K4 _.
  step Hres u w5 E5. destruct u. unfold cleanupMultipartUploadPartsBestEffort in E5. cbv zeta in E5.
  apply (ignore_quiet objects_view) in E5 as [V5 S5]; [|apply Cleanup_frame]. injection Hres as <- <-. exists nh. split_and!; [|congruence|].
  - eapply published_view; [|exact Hpub]. rewrite V5. unfold objects_view in *. rewrite N4, B4, H4', O4, K4, V3, N2, B2, H2', O2, K2. done.
  - cbn [rp_Body]. destruct Hbegun as (? & _ & _ & _ & _ & _ & _ & _ & _ & Ct & _). by rewrite Htag, Ct.
Qed.

Lemma complete_ok r b upload requested texts w reply w' :
  target w r b -> upload_of w b r = Some upload -> mu_State upload = MultipartUploadActive ->
  completions (w_repo w) !! mk_uploadKey (bk_BucketID b) (rq_Key r) (subresource r "uploadId") = None ->
  parseCompleteMultipartUpload (rq_Body r) = Ok requested -> Forall2 (part_holds w b r) requested texts ->
  str_len (concat_str texts) < 2 ^ 62 -> complete r w = (Ok reply, w') ->
  exists req head, published req head (w_repo w) (w_repo w') /\ w_store w' = w_store w /\ bpo_BucketID req = bk_BucketID b /\
    bpo_Key req = rq_Key r /\ bpo_SizeBytes req = str_len (concat_str texts) /\ bpo_SegmentRefs req <> [] /\
    Forall2 (holds h (w_store w)) (bpo_SegmentRefs req) texts /\
    rp_Body reply = Xml (completeResult (bk_Name b) (rq_Key r) (bpo_ETag req)).
Proof.
  intros Hb Hup Hst Hnone Hreq Hall Hmax Hc. unfold completeMultipartUpload in Hc.
  step Hc b0 w1 E1. apply bucketByName_ok in E1 as [Hb0 S1]. unfold target in Hb. rewrite Hb in Hb0. injection Hb0 as <-.
  step Hc up w2 E2. apply or_refuse_ok in E2. apply quiet_read_ok in E2 as [Hu S2].
  2:{ intros s. unfold GetMultipartUpload, getUploadLocked. by destruct (_ || _ || _). }
  assert (up = upload) as ->.
  { unfold GetMultipartUpload, getUploadLocked in Hu. destruct (_ || _ || _); [done|]. unfold lookup_or, upload_key, upload_request in Hu.
    cbn in Hu. rewrite (proj1 S1), Hup in Hu. by injection Hu. }
  rewrite Hst in Hc. assert ((MultipartUploadActive =s MultipartUploadCompleted) = false) as Ea by done. rewrite Ea, String.eqb_refl in Hc.
  cbn [negb] in Hc. step Hc fnd w3 E3. unfold attempt in E3.
  destruct (quiet_read (GetMultipartCompletion (upload_request b r)) w2 (lookup_or_reads _ _)) as (w3' & Er & S3). rewrite Er in E3.
  injection E3 as <- <-. assert (same w w3') as [R S] by (do 2 (etransitivity; [eassumption|]); done).
  unfold GetMultipartCompletion, lookup_or, upload_key, upload_request in Hc. cbn in Hc. rewrite (proj1 S2), (proj1 S1), Hnone in Hc.
  cbn in Hc. change (st_bind (begin_completion quiet error_text validator r b upload)
    (fun completion => resumeMultipartCompletion quiet error_text b completion) w3' = (Ok reply, w')) in Hc.
  step Hc c w4 E4. assert (Forall2 (part_holds w3' b r) requested texts) as Hall'.
  { unfold part_holds in *. by rewrite R, S. }
  destruct (begin_completion_ok _ _ _ _ _ _ _ _ Hreq Hall' Hmax ltac:(by rewrite R) E4) as
    (req & Hbegun & Hs4 & Hid & Hrb & Hrk & Hsz & Hne & Hholds). rewrite R, S in *.
  pose proof Hbegun as (t & _ & _ & _ & _ & _ & Hu4 & Cb & Ck & _).
  destruct (resume_ok _ _ _ upload _ _ _ _ Hbegun ltac:(by rewrite Cb, Ck, Hid, Hrb, Hrk, Hu4) Hst Hc) as (nh & Hpub & Hs5 & Hbody).
  exists req, nh. split_and!; try done; [congruence|]. by rewrite Hbody, Ck, Hrk.
Qed.

(** When the completion of an active multipart upload succeeds, the object it
    leaves is the concatenation, in the order of the completion request, of the
    texts of the parts asked for (encrypted or not): GetObject answers every range with
    exactly that range of the concatenation, and the entity tag is the one the
    completion reported. *)
Lemma completion_served (r rget : Request) (b : Bucket) (upload : MultipartUpload) (requested : list completePart)
    (texts : list string) (w w' : World D) (reply : Reply) :
  target w r b -> upload_of w b r = Some upload -> mu_State upload = MultipartUploadActive ->
  completions (w_repo w) !! mk_uploadKey (bk_BucketID b) (rq_Key r) (subresource r "uploadId") = None ->
  parseCompleteMultipartUpload (rq_Body r) = Ok requested -> Forall2 (part_holds w b r) requested texts ->
  str_len (concat_str texts) < 2 ^ 62 -> h_Budget h = None -> decrypts h (w_repo w) ->
  complete r w = (Ok reply, w') ->
  rq_Bucket rget = rq_Bucket r -> rq_Key rget = rq_Key r -> subresource rget "versionId" = "" ->
  exists head, rp_Body reply = Xml (completeResult (bk_Name b) (rq_Key r) (oh_ETag head)) /\
    (getObject quiet error_text enc_text h rget w').1 = served rget head (concat_str texts).
Proof.
  intros Hb Hup Hst Hnone Hreq Hall Hmax Hbud Hdec Hc Hbucket Hkey Hver.
  destruct (complete_ok _ _ _ _ _ _ _ _ Hb Hup Hst Hnone Hreq Hall Hmax Hc) as (req & hd0 & Hpub & Hs & Hrb & Hrk & Hsz & Hne & Hholds & Hbody).
  destruct Hpub as (Hpn & Hpb & Hpk & Hhead & _ & Hdm & Hnorm & _ & Hsize & Hetag & _).
  assert (objectSegmentRefs hd0 = bpo_SegmentRefs req) as Hrefs.
  { unfold objectSegmentRefs. rewrite Hnorm. unfold normalizeSegmentRefs. by destruct (bpo_SegmentRefs req). }
  exists hd0. split; [by rewrite Hbody, Hetag|].
  eapply getObject_served; [| |done| | | | |done].
  - unfold target, GetBucketByName, st_bind, lookup_or, gets in *. rewrite Hpn, Hpb, Hbucket. by destruct (bucketNameToID (w_repo w) !! _).
  - left. split; [done|]. rewrite Hkey, <- Hrb, <- Hrk. exact Hhead.
  - by rewrite Hrefs, Hs.
  - congruence.
  - lia.
  - unfold decrypts in *. by rewrite Hpk.
Qed.

End Gateway.
