(* ===== verification/GatewayParts.v ===== *)
(** * GatewayParts: an uploaded part is there for the completion

    What [uploadPart] of [src/internal/gateway/s3_handlers.go] leaves: the part under its
    number, with the text of the payload in the store, beside the parts uploaded before.
    [GatewayCompletion] starts from what this file proves of each part. *)

From S2P Require Import Prelude GoLib GoText Sha256 StorageTypes Model Requests Encoding Meta Manifest Repo RepoLogic.
From S2P Require Import RepoBuckets RepoObjects RepoMultipart RepoListing RepoOps RepoAudit RepoCalls.
From S2P Require Import Segments LocalStore Gc Policy Chunked StorageClass Encryption S3Http Routing Admission GatewayRequest Gateway GatewayMultipart.
From S2P Require Import GatewayLogic GatewayRoundTrip GatewayCompletion.
Open Scope string_scope.
Open Scope Z_scope.

Section Parts.
Context `{Env} {D : Type} `{SegmentStoreLaws D} `{GoFmt, GoNet, Aead, !AeadLaws}.
Context (error_text : WErr -> string) (enc_text : EncErr -> string) (chunk_text : ChunkErr -> string) (bufs : nat -> nat) (random : nat -> entropy).
Context (h : s3Handler).
Implicit Types w : World D.

(** The part of a number of the upload the request names. *)
Abbreviation part_of w b r n := (parts (w_repo w) !! mk_partKey (bk_BucketID b) (rq_Key r) (subresource r "uploadId") n).

(** The parts of the upload have segments of their own. *)
Definition apart w (b : Bucket) (r : Request) : Prop :=
  forall n m p q, part_of w b r n = Some p -> part_of w b r m = Some q -> n <> m ->
    sr_SegmentID (mp_SegmentRef p) <> sr_SegmentID (mp_SegmentRef q).
(** The identifier the store chooses next is none of them. *)
Definition fresh_part w (b : Bucket) (r : Request) : Prop :=
  forall req ref d n p, PutSegment req (w_store w) = (Ok ref, d) -> part_of w b r n = Some p ->
    sr_SegmentID ref <> sr_SegmentID (mp_SegmentRef p).

(** What uploading parts reads and does not change. *)
Definition part_view (s : Repository) := (parts s, uploads s, completions s, bucketNameToID s, bucketsByID s, kmsKeys s).

Lemma drop_segment_parts ref reason w : part_view (w_repo (drop_segment quiet ref reason w).2) = part_view (w_repo w).
Proof.
  unfold drop_segment, st_bind, attempt. cbv zeta. cbn [fst snd].
  assert (w_repo (seg_call (DeleteSegment ref reason) w).2 = w_repo w) as E by done. set (p := seg_call _ w) in *. clearbody p. rewrite <- E.
  assert (part_view (w_repo (markOrphan quiet ref reason p.2).2) = part_view (w_repo p.2)) as Hmark.
  { unfold markOrphan. destruct (_ =s ""); [done|]. unfold ignore, tracker_MarkOrphan. cbv zeta. cbn [snd]. unfold st_bind.
    set (req := mkPutGCCandidateRequest _ _). destruct (quiet_call (C_PutGCCandidate req) (PutGCCandidate req) p.2) as (w1 & -> & R & _).
    assert (frames part_view (PutGCCandidate req)) as Hf by frame. specialize (Hf (w_repo p.2)). unfold st_exec in Hf. rewrite <- R in Hf.
    by destruct (meta_outcome _). }
  destruct p as [[|[|[]| |]] w1]; cbn [fst snd] in *; done.
Qed.

Lemma PutMultipartPart_parts req s :
  wp (PutMultipartPart req) (fun o s' => match o with
    | Ok (part, previous) =>
        let key := mk_partKey (pmp_BucketID req) (pmp_Key req) (pmp_UploadID req) (pmp_PartNumber req) in
        previous = parts s !! key /\ parts s' = <[key := part]> (parts s) /\ mp_PartNumber part = pmp_PartNumber req /\
        mp_SizeBytes part = pmp_SizeBytes req /\ mp_ETag part = pmp_ETag req /\ mp_SegmentRef part = pmp_SegmentRef req /\
        completions s' = completions s /\ bucketNameToID s' = bucketNameToID s /\ bucketsByID s' = bucketsByID s /\ kmsKeys s' = kmsKeys s /\
        let ukey := mk_uploadKey (pmp_BucketID req) (pmp_Key req) (pmp_UploadID req) in
        exists upload t, uploads s !! ukey = Some upload /\
          uploads s' = <[ukey := ApplyMultipartPartSummary upload part previous t]> (uploads s)
    | Fail _ => True
    end) s.
Proof.
  unfold PutMultipartPart, getActiveUploadLocked, getUploadLocked, put_upload. repeat wp_step; try done; field_simpl; split_and!; try done; eauto.
Qed.

Lemma active_upload_ok b r w upload w' :
  active_upload quiet error_text b r w = (Ok upload, w') ->
  uploads (w_repo w) !! mk_uploadKey (bk_BucketID b) (rq_Key r) (subresource r "uploadId") = Some upload /\ same w w'.
Proof.
  intros Hu. unfold active_upload in Hu. step Hu up w1 E1. apply or_refuse_ok, quiet_read_ok in E1 as [Hup S1].
  2:{ intros s. unfold GetMultipartUpload, getUploadLocked. by destruct (_ || _ || _). }
  destruct (negb _); [done|]. injection Hu as <- <-. split; [|done].
  unfold GetMultipartUpload, getUploadLocked in Hup. destruct (_ || _ || _); [done|]. unfold lookup_or in Hup. cbn [fst] in Hup.
  change (upload_key (upload_request b r)) with (mk_uploadKey (bk_BucketID b) (rq_Key r) (subresource r "uploadId")) in Hup.
  destruct (uploads (w_repo w) !! _); by simplify_eq.
Qed.

(** An active upload that has not begun to complete, its objects to be encrypted with [sse]. *)
Definition open_upload (sse : ServerSideEncryption) w (b : Bucket) (r : Request) : Prop :=
  target w r b /\ completions (w_repo w) !! mk_uploadKey (bk_BucketID b) (rq_Key r) (subresource r "uploadId") = None /\
  decrypts h (w_repo w) /\
  exists upload, uploads (w_repo w) !! mk_uploadKey (bk_BucketID b) (rq_Key r) (subresource r "uploadId") = Some upload /\
    mu_State upload = MultipartUploadActive /\ mu_ServerSideEncryption upload = sse.

Lemma summary_keeps upload part previous t :
  mu_State (ApplyMultipartPartSummary upload part previous t) = mu_State upload /\
  mu_ServerSideEncryption (ApplyMultipartPartSummary upload part previous t) = mu_ServerSideEncryption upload.
Proof. unfold ApplyMultipartPartSummary. by destruct previous; case_match. Qed.

Lemma open_upload_step sse w w' b r part previous upload t :
  let key := mk_uploadKey (bk_BucketID b) (rq_Key r) (subresource r "uploadId") in
  completions (w_repo w') = completions (w_repo w) -> bucketNameToID (w_repo w') = bucketNameToID (w_repo w) ->
  bucketsByID (w_repo w') = bucketsByID (w_repo w) -> kmsKeys (w_repo w') = kmsKeys (w_repo w) ->
  uploads (w_repo w) !! key = Some upload ->
  uploads (w_repo w') = <[key := ApplyMultipartPartSummary upload part previous t]> (uploads (w_repo w)) ->
  open_upload sse w b r -> open_upload sse w' b r.
Proof.
  intros key Hc Hn Hb Hk Hu Hu' (Ht & Hnone & Hdec & (upload' & Hu2 & Hst & Hsse)). subst key. rewrite Hu in Hu2. injection Hu2 as <-.
  destruct (summary_keeps upload part previous t) as [E1 E2]. split_and!.
  - unfold target, GetBucketByName, st_bind, lookup_or, gets in *. rewrite Hn, Hb. by destruct (bucketNameToID (w_repo w) !! _).
  - by rewrite Hc.
  - unfold decrypts in *. by rewrite Hk.
  - eexists. rewrite Hu', lookup_insert_eq. split; [done|]. by rewrite E1, E2.
Qed.

(** What a put of a part leaves of the parts and the store. *)
Lemma put_part_ok sse b r upload n text size w etag w' :
  provider_ok random h -> 0 <= size -> sized (mu_ServerSideEncryption upload) text -> fresh_part w b r -> apart w b r ->
  put_part quiet error_text enc_text chunk_text random h b r upload n (Ok text) size w = (Ok etag, w') ->
  etag = etag_of text /\ apart w' b r /\ (open_upload sse w b r -> open_upload sse w' b r) /\
  (exists part, part_of w' b r n = Some part /\ mp_PartNumber part = n /\ mp_SizeBytes part = str_len text /\
     holds h (w_store w') (mp_SegmentRef part) text) /\
  forall m p, m <> n -> part_of w b r m = Some p ->
    part_of w' b r m = Some p /\ segment_bytes (w_store w') (mp_SegmentRef p) = segment_bytes (w_store w) (mp_SegmentRef p).
Proof.
  intros Hprov Hsize Hsized Hfresh Hapart Hput. unfold put_part in Hput. step Hput pr w1 E1. step Hput ref w2 E2. apply or_refuse_ok in E2.
  destruct (stored_text enc_text chunk_text random h _ _ _ _ _ _ _ _ _ _ _ Hprov Hsize E1 E2) as
    (-> & Hrepo & Hid & _ & (sreq & ref0 & Hseg & Hid0) & (text' & [= <-] & Hholds)). specialize (Hholds Hsized).
  cbv zeta in Hput. step Hput st w3 E3. unfold attempt in E3. set (req := mkPutMultipartPartRequest _ _ _ _ _ _ _) in *.
  destruct (quiet_call (C_PutMultipartPart req) (PutMultipartPart req) w2) as (w3' & Ec & R3 & S3). rewrite Ec in E3. injection E3 as <- <-.
  pose proof (PutMultipartPart_parts req (w_repo w2)) as Hp. unfold wp in Hp. rewrite <- R3, Hrepo in Hp. rewrite Hrepo in Hput.
  destruct ((PutMultipartPart req (w_repo w)).1) as [[part previous]|e]; cbn [meta_outcome] in Hput.
  2:{ exfalso. step Hput u w4 E4. done. }
  destruct Hp as (-> & Hparts & Hn & Hsz & Htag & Href & Hc & Hbn & Hbi & Hk & (upl & t & Hu & Hus)). cbn [req pmp_BucketID pmp_Key pmp_UploadID pmp_PartNumber pmp_SizeBytes pmp_ETag pmp_SegmentRef] in *.
  clear R3 Ec. clear req. step Hput u w4 E4. injection Hput as <- <-.
  assert (part_view (w_repo w4) = part_view (w_repo w3') /\ forall ref', (forall p, part_of w b r n = Some p -> sr_SegmentID (mp_SegmentRef p) <> sr_SegmentID ref') ->
    segment_bytes (w_store w4) ref' = segment_bytes (w_store w2) ref') as [Hview4 Hkeep].
  { destruct (part_of w b r n) as [old|] eqn:Hold.
    - pose proof (drop_segment_parts (mp_SegmentRef old) DeleteReasonMultipartAborted w3') as Hd. rewrite E4 in Hd. split; [done|].
      pose proof (drop_segment_frame [sr_SegmentID (mp_SegmentRef old)] (mp_SegmentRef old) DeleteReasonMultipartAborted ltac:(by left) w3') as [_ Hf].
      unfold st_exec in Hf. rewrite E4 in Hf. intros ref' Hne. rewrite Hf, S3; [done|]. intros Hin%list_elem_of_singleton. by apply (Hne old).
    - injection E4 as _ <-. split; [done|]. intros ref' _. by rewrite S3. }
  injection Hview4 as Hparts4 Hu4 Hc4 Hn4 Hb4 Hk4.
  assert (forall p m, part_of w b r m = Some p -> sr_SegmentID ref <> sr_SegmentID (mp_SegmentRef p)) as Hnew
    by (intros p m Hm; rewrite <- Hid0; eapply Hfresh; eassumption).
  rewrite Hparts4, Hparts. split_and!; [done | | | |].
  - unfold apart. rewrite Hparts4, Hparts. intros i j p q Hi Hj Hne.
    apply lookup_insert_Some in Hi as [[[= <-] <-]|[_ Hi]]; apply lookup_insert_Some in Hj as [[[= <-] <-]|[_ Hj]]; try done.
    + rewrite Href. by eapply Hnew.
    + rewrite Href. intros Heq. by eapply Hnew.
    + by eapply Hapart.
  - eapply open_upload_step; [congruence..|exact Hu|]. by rewrite Hu4.
  - exists part. rewrite lookup_insert_eq, Hsz, Href. split_and!; [done | done | |].
    + rewrite (holds_size _ _ _ _ Hholds). apply int64_id. destruct Hholds as [? _]. unfold str_len in *. lia.
    + eapply holds_frame; [|exact Hholds]. apply Hkeep. intros p Hp. apply not_eq_sym. by eapply Hnew.
  - intros m p Hne Hm. rewrite lookup_insert_ne by congruence. split; [done|]. rewrite Hkeep by (intros old Hold; by eapply Hapart).
    eapply put_frame; [exact Hseg|]. intros ref1 [= <-]. rewrite Hid0. by eapply Hnew.
Qed.

(** A part uploaded is there for the completion, and the parts of other numbers stay. *)
Lemma uploadPart_ok sse r b n text w reply w' :
  provider_ok random h -> Atoi (subresource r "partNumber") = Some n -> read_body bufs r = Ok text -> sized sse text ->
  fresh_part w b r -> apart w b r -> open_upload sse w b r ->
  uploadPart quiet error_text enc_text chunk_text bufs random h r w = (Ok reply, w') ->
  rp_Headers reply !! "ETag" = Some (etag_of text) /\ apart w' b r /\ open_upload sse w' b r /\
  (forall c, cpt_PartNumber c = n -> part_holds h w' b r c text) /\
  (forall c text', cpt_PartNumber c <> n -> part_holds h w b r c text' -> part_holds h w' b r c text').
Proof.
  intros Hprov Hn Htext Hsized Hfresh Hapart Hopen Hup. pose proof Hopen as (Ht & _ & _ & (upload & Hu & _ & Hsse)). unfold uploadPart in Hup.
  step Hup b' w1 E1. apply bucketByName_ok in E1 as [Hb' [R1 S1]]. unfold target in Ht. rewrite Ht in Hb'. injection Hb' as <-.
  step Hup n' w2 E2. unfold part_number in E2. rewrite Hn in E2. injection E2 as <- <-. step Hup upl w3 E3.
  apply active_upload_ok in E3 as [Hu3 [R3 S3]]. rewrite R1, Hu in Hu3. injection Hu3 as <-. step Hup pl w4 E4. apply checked_ok in E4 as [Hpl ->].
  apply requestPayload_ok in Hpl as [Hp1 Hp2]. step Hup u w5 E5. destruct u. apply reserveDataBudget_ok in E5 as ->. step Hup etag w6 E6.
  injection Hup as <- <-. rewrite Hp1, Htext in E6. rewrite R1 in R3. rewrite S1 in S3.
  apply (put_part_ok sse) in E6 as (-> & Ha & Ho & (part & Hpart & Hnum & Hsz & Hh) & Hothers);
    [|by rewrite ?Hsse; unfold fresh_part, apart, sized in *; rewrite ?R3, ?S3..].
  split_and!.
  - cbn [rp_Headers]. by rewrite lookup_set_header, decide_True.
  - done.
  - apply Ho. unfold open_upload, target in *. by rewrite R3.
  - intros c <-. by exists part.
  - intros c text' Hne (p & Hp & Hpn & Hps & Hph). rewrite R3, S3 in Hothers. destruct (Hothers _ _ Hne Hp) as [Hp' Hbytes].
    exists p. split_and!; try done. by eapply holds_frame.
Qed.

(** ** The whole upload *)

Context (validator : option (SegmentRef -> D -> outcome StoreErr unit)).
Abbreviation upload_part := (uploadPart quiet error_text enc_text chunk_text bufs random h).
Abbreviation complete := (completeMultipartUpload quiet error_text validator).

Definition same_upload (r r' : Request) : Prop :=
  rq_Bucket r' = rq_Bucket r /\ rq_Key r' = rq_Key r /\ subresource r' "uploadId" = subresource r "uploadId".

(** A client that uploads texts as the parts of some numbers, in this order. *)
Inductive uploaded (sse : ServerSideEncryption) (b : Bucket) (r : Request) w : list (Z * string) -> World D -> Prop :=
| uploaded_none : uploaded sse b r w [] w
| uploaded_part ups w1 rpart n text reply w2 :
    uploaded sse b r w ups w1 -> same_upload r rpart -> Atoi (subresource rpart "partNumber") = Some n ->
    read_body bufs rpart = Ok text -> sized sse text -> fresh_part w1 b r -> upload_part rpart w1 = (Ok reply, w2) ->
    uploaded sse b r w (ups ++ [(n, text)]) w2.

(** A part uploaded again replaces the part of its number. *)
Definition last_texts (ups : list (Z * string)) : gmap Z string := foldl (fun m up => <[up.1 := up.2]> m) ∅ ups.

Lemma uploaded_holds sse b r w ups w1 :
  provider_ok random h -> apart w b r -> open_upload sse w b r -> uploaded sse b r w ups w1 ->
  apart w1 b r /\ open_upload sse w1 b r /\
  forall c text, last_texts ups !! cpt_PartNumber c = Some text -> part_holds h w1 b r c text.
Proof.
  intros Hprov Ha Ho Hups. induction Hups as [|ups w1 rpart n text reply w2 _ (Ha1 & Ho1 & Hl1) (Eb & Ek & Eu) Hn Htext Hsized Hfresh Hup].
  { by split_and!. }
  assert (fresh_part w1 b rpart /\ apart w1 b rpart /\ open_upload sse w1 b rpart) as (Hf & Ha' & Ho').
  { unfold fresh_part, apart, open_upload, target in *. by rewrite Eb, Ek, Eu. }
  apply (uploadPart_ok sse) with (b := b) (n := n) (text := text) in Hup as (_ & Ha2 & Ho2 & Hnew & Hold); [|done..].
  split_and!.
  - unfold apart in *. by rewrite <- Ek, <- Eu.
  - unfold open_upload, target in *. by rewrite <- Eb, <- Ek, <- Eu.
  - assert (forall c text', part_holds h w2 b rpart c text' -> part_holds h w2 b r c text') as Hr by (unfold part_holds; by rewrite Ek, Eu).
    intros c text'. unfold last_texts. rewrite foldl_snoc. cbn [fst snd]. intros [[Heq <-]|[Hne Hc]]%lookup_insert_Some; [by apply Hr, Hnew|].
    apply Hr, Hold; [congruence|]. unfold part_holds. rewrite Ek, Eu. by apply Hl1.
Qed.


End Parts.
