(* ===== verification/GatewayExample.v ===== *)
(** * GatewayExample: a concrete gateway

    A gateway over a repository with one bucket and a local store: the inputs on which
    the witnesses of the gateway's theorems are evaluated. The texts of errors, the
    decoders and the cipher are the simplest with the laws asked for. At the end, runs of
    the handlers in which bytes are lost, leaked or miscounted. *)

From S2P Require Import Prelude GoLib GoText Sha256 StorageTypes Model Requests Encoding Meta Manifest Repo RepoLogic.
From S2P Require Import RepoBuckets RepoObjects RepoMultipart RepoListing RepoOps RepoAudit RepoCalls RepoExample.
From S2P Require Import Segments LocalStore Gc Policy Chunked StorageClass Encryption S3Http Routing Admission GatewayRequest Gateway GatewayMultipart.
From S2P Require Import GatewayLogic GatewayRoundTrip GatewayCompletion GatewayParts.
From Stdlib Require Import Ascii.
Open Scope string_scope.
Open Scope Z_scope.

Definition exFmt : GoFmt := {| Sprintf format args := format |}.
Definition exNet : GoNet := {|
  ParseMediaType _ := None; ParseRFC3339 _ := None; ParseDate _ := None; HttpTime _ := "date"; xml_versioning _ := None;
  xml_objectLock _ := None; xml_cors _ := None; xml_lifecycle _ := None; xml_encryption _ := None; xml_delete _ := None;
  xml_complete body := Some [mkcompletePart 1 ""; mkcompletePart 2 ""]; xml_tagging _ := None; xml_retention _ := None;
  xml_legalHold _ := None; json_policy _ := None; decode_error := "not well-formed"
|}.

(** A cipher that puts its tag before the text. *)
Definition ex_tag : string := "0123456789abcdef".
Definition exAead : Aead := {|
  gcm_Seal key nonce plaintext aad := ex_tag +:+ plaintext;
  gcm_Open key nonce ciphertext aad := Some (drop_str 16 ciphertext)
|}.
Lemma exAead_ok : @AeadLaws exAead.
Proof.
  split.
  - intros key nonce plaintext aad _ _. cbn [gcm_Open gcm_Seal exAead]. f_equal. exact (drop_str_app ex_tag plaintext).
  - intros key nonce plaintext aad. cbn [gcm_Seal exAead]. rewrite str_length_app. cbn. lia.
Qed.

#[export] Existing Instance exEnv.
#[export] Existing Instance exFmt.
#[export] Existing Instance exNet.
#[export] Existing Instance exAead.
#[export] Existing Instance exAead_ok.

Definition ex_key32 : string := "0123456789abcdef0123456789abcdef".
Definition ex_random (_ : nat) : entropy := mkEntropy ex_key32 "123456789012" "abcdefghijkl".
Definition ex_provider : LocalProvider :=
  mkLocalProvider {[DefaultKMSKeyID := mkLocalKey DefaultKMSKeyID "1" ex_key32 KMSKeyActive]}.
Definition ex_handler : s3Handler := mkS3Handler "enterprise" "eu-1" None (Some ex_provider).

Definition ex_docs : list call :=
  [ C_CreateTenant (mkCreateTenantRequest "tenant" "Tenant");
    C_CreateBucket (mkCreateBucketRequest "tenant" "docs" "eu-1" false) ].
(** Random bytes for eight identifiers of segments. *)
Definition ex_bytes : list ascii := map (fun n => ascii_of_nat n) (seq 0 128).
Definition ex_world : World LocalStore :=
  mkWorld (run_all ex_docs NewWithClock) (mkLocalStore ∅ ∅ ex_bytes []) ex_docs 0%nat.

Definition ex_request (key : string) (sub : gmap string string) (header : gmap string (list string)) (body : string) : Request :=
  mkRequest "docs" key sub ∅ header (str_len body) body None None "req-1".

(** *** A put under an envelope, and a read of a range of it *)

Definition ex_order (l : list ProtectedRef) : list ProtectedRef := l.
Definition ex_error (_ : WErr) : string := "error".
Definition ex_enc (_ : EncErr) : string := "encryption error".
Definition ex_chunk (_ : ChunkErr) : string := "chunk error".
Definition ex_bufs (_ : nat) : nat := 4%nat.
Abbreviation ex_put_object := (putObject quiet ex_order ex_error ex_enc ex_chunk ex_bufs ex_random ex_handler).
Abbreviation ex_get_object := (getObject quiet ex_error ex_enc ex_handler).
Definition ex_secret : Request := ex_request "a.txt" ∅ {["x-amz-server-side-encryption" := ["aws:kms"]]} "hello world".
Definition ex_range : Request := ex_request "a.txt" ∅ {["range" := ["bytes=6-99"]]} "".
Definition ex_stored : World LocalStore := (ex_put_object ex_secret ex_world).2.
Definition ex_reply : Reply := match (ex_put_object ex_secret ex_world).1 with Ok r => r | Fail _ => mkReply 500 ∅ NoBody end.

Lemma ex_provider_ok : provider_ok ex_random ex_handler.
Proof. split; [by intros n; split|]. intros p [= <-]. by apply map_Forall_singleton. Qed.


(** *** A multipart upload under an envelope *)

(** The identifier of a segment is drawn from the random bytes of the store. *)
Lemma local_put_id `{ReedSolomon} req s ref s' :
  LocalStore_PutSegment req s = (Ok ref, s') -> sr_SegmentID ref = EncodeToString (take 16 (ls_entropy s)).
Proof.
  unfold LocalStore_PutSegment, putECSegment, putPlainSegment, newSegmentID, ls_now, st_bind, st_lift, st_modify, st_fail, st_ret.
  repeat case_match; intros; by simplify_eq.
Qed.

Lemma fresh_in w b r :
  map_Forall (fun _ p => EncodeToString (take 16 (ls_entropy (w_store w))) <> sr_SegmentID (mp_SegmentRef p)) (parts (w_repo w)) ->
  fresh_part w b r.
Proof. intros Hall req ref d n p Hput%local_put_id Hp. rewrite Hput. exact (Hall _ _ Hp). Qed.

Definition ex_kms : gmap string (list string) := {["x-amz-server-side-encryption" := ["aws:kms"]]}.
Definition ex_begun : World LocalStore := (createMultipartUpload quiet ex_error (ex_request "film" ∅ ex_kms "") ex_world).2.
Definition ex_part_request (number text : string) : Request :=
  ex_request "film" (<["uploadId" := "upl_1"]> {["partNumber" := number]}) ∅ text.
Abbreviation ex_upload := (uploadPart quiet ex_error ex_enc ex_chunk ex_bufs ex_random ex_handler).
Definition ex_w1 : World LocalStore := (ex_upload (ex_part_request "2" "world") ex_begun).2.
Definition ex_w2 : World LocalStore := (ex_upload (ex_part_request "1" "goodbye ") ex_w1).2.
Definition ex_w3 : World LocalStore := (ex_upload (ex_part_request "1" "hello ") ex_w2).2.
Definition ex_complete : Request := ex_request "film" {["uploadId" := "upl_1"]} ∅ "parts".
Definition ex_completed := completeMultipartUpload quiet ex_error None ex_complete ex_w3.
Definition ex_film_range : Request := ex_request "film" ∅ {["range" := ["bytes=3-8"]]} "".

Definition ex_sse : ServerSideEncryption :=
  match map_to_list (uploads (w_repo ex_begun)) with (_, upload) :: _ => mu_ServerSideEncryption upload | [] => zero_ServerSideEncryption end.
Definition ex_docs_bucket : Bucket := default zero_Bucket (bucketsByID (w_repo ex_world) !! "bkt_0").

Lemma ex_uploaded ups w1 number n text :
  uploaded ex_error ex_enc ex_chunk ex_bufs ex_random ex_handler ex_sse ex_docs_bucket ex_complete ex_begun ups w1 ->
  Atoi number = Some n -> text <> "" -> str_len text < 2 ^ 62 ->
  map_Forall (fun _ p => EncodeToString (take 16 (ls_entropy (w_store w1))) <> sr_SegmentID (mp_SegmentRef p)) (parts (w_repo w1)) ->
  match (ex_upload (ex_part_request number text) w1).1 with Ok _ => true | Fail _ => false end = true ->
  uploaded ex_error ex_enc ex_chunk ex_bufs ex_random ex_handler ex_sse ex_docs_bucket ex_complete ex_begun (ups ++ [(n, text)])
    (ex_upload (ex_part_request number text) w1).2.
Proof.
  intros Hups Hn Hne Hmax Hfresh Hok. destruct (ex_upload _ w1) as [[reply|] w2] eqn:Hup; [|done].
  eapply (uploaded_part _ _ _ _ _ _ _ _ _ _ _ _ (ex_part_request number text)); [exact Hups | done | exact Hn | done | done | by apply fresh_in | exact Hup].
Qed.


(** * Behaviours of the handlers that depart from what they mean to do

    Each theorem evaluates the handlers of [Gateway] and [GatewayMultipart] on this gateway. *)

Definition refused_with {A} (o : outcome Refusal A) : string := match o with Ok _ => "" | Fail e => e_Code (rf_Error e) end.

(** ** An abort after the commit *)

(** A bucket with object lock and an upload whose object is to be retained. *)
Definition vault_calls : list call :=
  [ C_CreateTenant (mkCreateTenantRequest "tenant" "Tenant");
    C_CreateBucket (mkCreateBucketRequest "tenant" "docs" "eu-1" true);
    C_CreateMultipartUpload (mkCreateMultipartUploadRequest "bkt_0" "film" "video/mp4" StandardSnapshot zero_ServerSideEncryption ∅ ∅
      (mkObjectLockRetention ObjectLockModeCompliance 1000000) "") ].
Definition vault_world : World LocalStore :=
  (uploadPart quiet ex_error ex_enc ex_chunk ex_bufs ex_random ex_handler (ex_part_request "1" "hello world")
    (mkWorld (run_all vault_calls NewWithClock) (mkLocalStore ∅ ∅ ex_bytes []) vault_calls 0%nat)).2.
Definition vault_ref : SegmentRef :=
  match map_to_list (parts (w_repo vault_world)) with (_, part) :: _ => mp_SegmentRef part | [] => zero_SegmentRef end.
(** What a gateway that completes the upload calls, up to the commit. *)
Definition vault_commit : list call :=
  [ C_BeginPutObject (mkBeginPutObjectRequest "bkt_0" "film" 11 "etag" "video/mp4" StandardSnapshot zero_ServerSideEncryption
      zero_SegmentRef [vault_ref] ∅ ∅ (mkObjectLockRetention ObjectLockModeCompliance 1000000) "");
    C_PrepareMultipartCompletion (mkPrepareMultipartCompletionRequest "bkt_0" "film" "upl_1" "ver_2" "" "etag" 11 1);
    C_CommitObjectVersion (mkCommitObjectVersionRequest "bkt_0" "film" "ver_2" "") ].
(** The other gateway commits between the two calls of the abort. *)
Definition vault_others (turn : nat) : list call := if (turn =? S (w_turn vault_world))%nat then vault_commit else [].
Definition vault_abort := abortMultipartUpload vault_others ex_error ex_complete vault_world.


(** ** Segments nobody names *)

Definition spare_world : World LocalStore := (ex_upload (ex_part_request "3" "spare") ex_w3).2.
Definition spare_id : string :=
  match parts (w_repo spare_world) !! mk_partKey "bkt_0" "film" "upl_1" 3 with Some part => sr_SegmentID (mp_SegmentRef part) | None => "" end.
Definition spare_completed := completeMultipartUpload quiet ex_error None ex_complete spare_world.

(** Completing an upload with some of its parts leaks the segments of the others: the
    clean-up deletes the records of all the parts, and the segment of a part the request
    did not ask for is neither deleted nor queued for collection. *)
Theorem completion_leaks_segments :
  match spare_completed.1 with Ok r => rp_Status r = 200 | Fail _ => False end /\
  match ls_segments (w_store spare_completed.2) !! spare_id with Some _ => true | None => false end = true /\
  parts (w_repo spare_completed.2) = ∅ /\ gcCandidates (w_repo spare_completed.2) = ∅ /\
  Forall (fun kv => ~ spare_id ∈ map sr_SegmentID (ov_SegmentRefs kv.2)) (map_to_list (versions (w_repo spare_completed.2))).
Proof. split_and!; try (vm_compute; reflexivity). apply (bool_decide_unpack _). vm_compute. exact I. Qed.

(** ** Empty objects under an envelope *)

Definition ex_empty_put := ex_put_object (ex_request "a.txt" ∅ ex_kms "") ex_world.

(** An empty object under SSE-KMS is recorded with the size of its ciphertext:
    [segmentLogicalSize] takes a plaintext size of zero for an unknown one. GetObject
    announces 16 bytes and sends none. *)
Theorem empty_secret_announces_ciphertext :
  match ex_empty_put.1 with Ok r => rp_Status r = 200 | Fail _ => False end /\
  match (ex_get_object (ex_request "a.txt" ∅ ∅ "") ex_empty_put.2).1 with
  | Ok r => rp_Status r = 200 /\ rp_Headers r !! "Content-Length" = Some "16" /\ rp_Body r = Bytes ""
  | Fail _ => False
  end.
Proof. split; vm_compute; [reflexivity|]. by split_and!. Qed.
