(* ===== verification/SigV4.v ===== *)
(** * SigV4: request signatures

    [src/internal/auth/sigv4] and [src/internal/auth/credentials/store.go]: the canonical
    request, the parsing of the Authorization header and of presigned queries, and the
    verification against a credential store. A request is what [net/http] has parsed:
    header names in lower case, the escaped path, the decoded query. Errors are kept by
    their kind, without their texts. [crypto/hmac] and the parsing of times are modelled. *)

From S2P Require Import Prelude GoLib GoText Sha256 Encoding Policy Keyspace GatewayRequest.
From Stdlib Require Import Ascii.
Open Scope string_scope.
Open Scope Z_scope.

Record SignedRequest := mkSignedRequest {
  sq_Method : string;
  sq_Host : string;
  sq_EscapedPath : string;
  sq_Query : gmap string (list string);
  sq_Header : gmap string (list string)
}.

(** [url.Values.Get] and [http.Header.Get]. *)
Definition get_first (m : gmap string (list string)) (name : string) : string :=
  match m !! name with Some (v :: _) => v | _ => "" end.

(** ** Canonical requests *)

Definition algorithm : string := "AWS4-HMAC-SHA256".
Definition scopeTerminator : string := "aws4_request".
Definition unsignedPayload : string := "UNSIGNED-PAYLOAD".
Definition emptyPayloadSHA256 : string := "e3b0c44298fc1c149afbf4c8996fb92427ae41e4649b934ca495991b7852b855".
Definition line_feed : ascii := ascii_of_N 10.

Definition isUnreserved (c : ascii) : bool :=
  byte_in 65 90 c || byte_in 97 122 c || byte_in 48 57 c ||
  byte_is 45 c || byte_is 95 c || byte_is 46 c || byte_is 126 c.

(** The runes of the text are escaped byte by byte, and so are the bytes that are none. *)
Fixpoint awsPercentEncode (value : string) : string :=
  match value with
  | "" => ""
  | String c rest =>
      if isUnreserved c then String c (awsPercentEncode rest)
      else String percent (String (upper_hex_digit (N_of_ascii c / 16))
             (String (upper_hex_digit (N_of_ascii c mod 16)) (awsPercentEncode rest)))
  end.

(** [strings.Fields]: [word] is the word begun, in reverse. *)
Definition end_word (word : list ascii) (words : list string) : list string :=
  match word with [] => words | _ => String.string_of_list_ascii (reverse word) :: words end.
Fixpoint fields (word s : list ascii) : list string :=
  match s with
  | [] => end_word word []
  | c1 :: s1 =>
      if space1 c1 then end_word word (fields [] s1)
      else match s1 with
           | c2 :: s2 =>
               if space2 c1 c2 then end_word word (fields [] s2)
               else match s2 with
                    | c3 :: s3 => if space3 c1 c2 c3 then end_word word (fields [] s3) else fields (c1 :: word) s1
                    | [] => fields (c1 :: word) s1
                    end
           | [] => fields (c1 :: word) s1
           end
  end.
Definition Fields (s : string) : list string := fields [] (String.list_ascii_of_string s).
Definition normalizeHeaderValue (value : string) : string := join_with " " (Fields value).

(** The loop, with the headers seen. *)
Fixpoint normalize_headers (seen : gset string) (headers : list string) : list string :=
  match headers with
  | [] => []
  | header :: rest =>
      let header := ToLower (TrimSpace header) in
      if (header =s "") || bool_decide (header ∈ seen) then normalize_headers seen rest
      else header :: normalize_headers ({[header]} ∪ seen) rest
  end.
Definition normalizeSignedHeaders (headers : list string) : list string := normalize_headers ∅ headers.

Definition canonicalHeaderValue (r : SignedRequest) (name : string) : option string :=
  if name =s "host" then (if sq_Host r =s "" then None else Some (normalizeHeaderValue (sq_Host r)))
  else match sq_Header r !! name with
       | None | Some [] => None
       | Some values => Some (join_with "," (map normalizeHeaderValue values))
       end.

Fixpoint buildCanonicalHeaders (r : SignedRequest) (signedHeaders : list string) : option string :=
  match signedHeaders with
  | [] => Some ""
  | name :: rest =>
      value ← canonicalHeaderValue r name;
      tail ← buildCanonicalHeaders r rest;
      Some (name +:+ ":" +:+ value +:+ String line_feed tail)
  end.

Definition canonicalURI (r : SignedRequest) : string := if sq_EscapedPath r =s "" then "/" else sq_EscapedPath r.

Definition pair_ltb (a b : string * string) : bool := if a.1 =s b.1 then str_ltb a.2 b.2 else str_ltb a.1 b.1.
(** The pairs of the query; a key without values counts once. *)
Definition query_pairs (q : gmap string (list string)) : list (string * string) :=
  sort_by pair_ltb
    (flat_map (fun kv => match kv.2 with [] => [(kv.1, "")] | vals => map (pair kv.1) vals end) (map_to_list q)).
Definition signed_query (r : SignedRequest) (excludeSignature : bool) : gmap string (list string) :=
  if excludeSignature then delete "X-Amz-Signature" (sq_Query r) else sq_Query r.
Definition canonicalQueryString (r : SignedRequest) (excludeSignature : bool) : string :=
  join_with "&" (map (fun p => awsPercentEncode p.1 +:+ "=" +:+ awsPercentEncode p.2) (query_pairs (signed_query r excludeSignature))).

Fixpoint strings_sorted (l : list string) : bool :=
  match l with
  | a :: (b :: _) as rest => negb (str_ltb b a) && strings_sorted rest
  | _ => true
  end.

(** The canonical request and the text of its signed headers. *)
Definition buildCanonicalRequest (r : SignedRequest) (signedHeaders : list string) (payloadHash : string) (excludeSignature : bool)
    : option (string * string) :=
  let signedHeaders := normalizeSignedHeaders signedHeaders in
  match signedHeaders with
  | [] => None
  | _ =>
      if negb (strings_sorted signedHeaders) then None
      else
        canonicalHeaders ← buildCanonicalHeaders r signedHeaders;
        let payloadHash := if payloadHash =s "" then emptyPayloadSHA256 else payloadHash in
        let signedHeaderText := join_with ";" signedHeaders in
        Some (join_with (String line_feed "")
                [sq_Method r; canonicalURI r; canonicalQueryString r excludeSignature; canonicalHeaders; signedHeaderText; payloadHash],
              signedHeaderText)
  end.

(** ** Parsing *)

Inductive SigErr :=
| ErrAccessDenied
| ErrSignatureDoesNotMatch
| ErrInvalidRequest
| ErrRequestTimeTooSkewed
| ErrExpiredPresign
| ErrCredentialStore.

Record credentialScope := mkCredentialScope {
  cs_AccessKeyID : string;
  cs_Date : string;
  cs_Region : string;
  cs_Service : string;
  cs_Terminator : string
}.

Definition parseCredentialScope (value : string) : outcome SigErr credentialScope :=
  match Split "/" value with
  | [accessKeyID; date; region; service; terminator] =>
      if accessKeyID =s "" then Fail ErrInvalidRequest
      else Ok (mkCredentialScope accessKeyID date region service terminator)
  | _ => Fail ErrInvalidRequest
  end.

(** The loop over the items of the header. *)
Fixpoint auth_fields (items : list string) (acc : gmap string string) : option (gmap string string) :=
  match items with
  | [] => Some acc
  | item :: rest =>
      let '(key, value, ok) := Cut "=" (TrimSpace item) in
      if negb ok then None else auth_fields rest (<[key := value]> acc)
  end.

Definition parseAuthorizationHeader (header : string) : outcome SigErr (credentialScope * list string * string) :=
  if header =s "" then Fail ErrAccessDenied
  else
    let '(algorithmText, rest, ok) := Cut " " header in
    if negb ok || negb (algorithmText =s algorithm) then Fail ErrInvalidRequest
    else match auth_fields (Split "," rest) ∅ with
    | None => Fail ErrInvalidRequest
    | Some fs =>
        let field name := default "" (fs !! name) in
        match parseCredentialScope (field "Credential") with
        | Fail e => Fail e
        | Ok scope =>
            if (field "SignedHeaders" =s "") || (field "Signature" =s "") then Fail ErrInvalidRequest
            else Ok (scope, Split ";" (field "SignedHeaders"), field "Signature")
        end
    end.

Definition second : Z := 1000000000.
Definition maxPresignExpiry : Z := 7 * 24 * 3600 * second.

(** The expiry is computed in 64 bits before it is compared. *)
Definition parsePresignedQuery (values : gmap string (list string)) : outcome SigErr (credentialScope * list string * string * Z) :=
  if negb (get_first values "X-Amz-Algorithm" =s algorithm) then Fail ErrInvalidRequest
  else match parseCredentialScope (get_first values "X-Amz-Credential") with
  | Fail e => Fail e
  | Ok scope =>
      let signedHeadersText := get_first values "X-Amz-SignedHeaders" in
      let signature := get_first values "X-Amz-Signature" in
      if (signedHeadersText =s "") || (signature =s "") then Fail ErrInvalidRequest
      else match Atoi (get_first values "X-Amz-Expires") with
      | None => Fail ErrInvalidRequest
      | Some expiresSeconds =>
          if expiresSeconds <=? 0 then Fail ErrInvalidRequest
          else
            let expires := int64 (expiresSeconds * second) in
            if maxPresignExpiry <? expires then Fail ErrInvalidRequest
            else Ok (scope, Split ";" signedHeadersText, signature, expires)
      end
  end.

(** *** Times in the layout 20060102T150405Z *)

Definition digits_of (s : list ascii) : option Z := match s with [] => None | _ => parse_digits 0 s end.
Definition leap (y : Z) : bool := (y mod 4 =? 0) && (negb (y mod 100 =? 0) || (y mod 400 =? 0)).
Definition days_in (y m : Z) : Z :=
  if m =? 2 then (if leap y then 29 else 28)
  else if existsb (Z.eqb m) [4; 6; 9; 11] then 30 else 31.
(** A fraction of a second after a period or a comma is read up to nanoseconds. *)
Definition split_fraction (s : list ascii) : Z * list ascii :=
  match s with
  | c :: rest =>
      if (byte_is 46 c || byte_is 44 c) && match rest with d :: _ => byte_in 48 57 d | [] => false end then
        let ds := (fix go l := match l with d :: l' => if byte_in 48 57 d then d :: go l' else [] | [] => [] end) rest in
        let kept := take 9 ds in
        (default 0 (parse_digits 0 kept) * 10 ^ (9 - Z.of_nat (length kept)), drop (length ds) rest)
      else (0, s)
  | [] => (0, [])
  end.
Definition parseAMZDate (value : string) : outcome SigErr Time :=
  if value =s "" then Fail ErrAccessDenied
  else
    let s := String.list_ascii_of_string value in
    match digits_of (take 4 s), digits_of (take 2 (drop 4 s)), digits_of (take 2 (drop 6 s)),
          digits_of (take 2 (drop 9 s)), digits_of (take 2 (drop 11 s)), digits_of (take 2 (drop 13 s)) with
    | Some y, Some m, Some d, Some hh, Some mm, Some ss =>
        let '(ns, rest) := split_fraction (drop 15 s) in
        if bool_decide (take 1 (drop 8 s) = ["T"%char]) && bool_decide (rest = ["Z"%char]) && (length (take 15 s) =? 15)%nat &&
           (1 <=? m) && (m <=? 12) && (1 <=? d) && (d <=? days_in y m) && (hh <? 24) && (mm <? 60) && (ss <? 60)
        then Ok ((days_before y m d * 86400 + hh * 3600 + mm * 60 + ss) * second + ns)
        else Fail ErrInvalidRequest
    | _, _, _, _, _, _ => Fail ErrInvalidRequest
    end.

(** [t.Format("20060102")] and [t.Format(amzDateLayout)]. *)
Definition FormatDate (t : Time) : string :=
  let '(y, m, d) := civil (t / second / 86400) in leftPadZeros 4 y +:+ leftPadZeros 2 m +:+ leftPadZeros 2 d.
Definition FormatAMZ (t : Time) : string :=
  let tod := t / second mod 86400 in
  FormatDate t +:+ "T" +:+ leftPadZeros 2 (tod / 3600) +:+ leftPadZeros 2 (tod / 60 mod 60) +:+ leftPadZeros 2 (tod mod 60) +:+ "Z".

Definition requestPayloadHash (r : SignedRequest) : string :=
  let value := get_first (sq_Header r) "x-amz-content-sha256" in if value =s "" then unsignedPayload else value.
Definition presignedPayloadHash (values : gmap string (list string)) : string :=
  let value := get_first values "X-Amz-Content-Sha256" in if value =s "" then unsignedPayload else value.
Definition isPresigned (values : gmap string (list string)) : bool := negb (get_first values "X-Amz-Signature" =s "").

Definition validateScope (scope : credentialScope) (region : string) : bool :=
  negb ((cs_Date scope =s "") || negb (cs_Region scope =s region) || negb (cs_Service scope =s "s3") || negb (cs_Terminator scope =s scopeTerminator)).

Definition hex_char (c : ascii) : bool := byte_in 48 57 c || byte_in 97 102 c || byte_in 65 70 c.
Definition isHexSignature (value : string) : bool :=
  (String.length value =? 64)%nat && forallb hex_char (String.list_ascii_of_string value).

(** ** Signatures *)

(** HMAC with SHA-256: blocks of 64 bytes. *)
Definition hmac_sha256 (key msg : list N) : list N :=
  let key := if (64 <? length key)%nat then sha256 key else key in
  let key := (key ++ repeat 0%N (64 - length key))%list in
  sha256 (map (N.lxor 92) key ++ sha256 (map (N.lxor 54) key ++ msg)).
Definition hmacSHA256 (key : list N) (value : string) : list N := hmac_sha256 key (string_bytes value).

Definition deriveSigningKey (secret date region service : string) : list N :=
  hmacSHA256 (hmacSHA256 (hmacSHA256 (hmacSHA256 (string_bytes ("AWS4" +:+ secret)) date) region) service) scopeTerminator.

Definition buildStringToSign (requestTime : Time) (scope : credentialScope) (canonicalRequest : string) : string :=
  algorithm +:+ String line_feed (FormatAMZ requestTime +:+ String line_feed
    (cs_Date scope +:+ "/" +:+ cs_Region scope +:+ "/" +:+ cs_Service scope +:+ "/" +:+ cs_Terminator scope +:+
     String line_feed (sha256_hex canonicalRequest))).

Definition hex_of (bytes : list N) : string := EncodeToString (map ascii_of_N bytes).
Definition signature_of (secret : string) (scope : credentialScope) (requestTime : Time) (canonicalRequest : string) : string :=
  hex_of (hmacSHA256 (deriveSigningKey secret (cs_Date scope) (cs_Region scope) (cs_Service scope))
            (buildStringToSign requestTime scope canonicalRequest)).

(** ** Credentials *)

Record Credential := mkCredential {
  cr_AccessKeyID : string;
  cr_SecretAccessKey : string;
  cr_SecretHash : string;
  cr_Principal : Principal;
  cr_Active : bool
}.

Definition with_access_key (cred : Credential) : Credential :=
  if p_AccessKeyID (cr_Principal cred) =s ""
  then mkCredential (cr_AccessKeyID cred) (cr_SecretAccessKey cred) (cr_SecretHash cred)
         ((cr_Principal cred) <| p_AccessKeyID := cr_AccessKeyID cred |>) (cr_Active cred)
  else cred.
Fixpoint add_credentials (creds : list Credential) (m : gmap string Credential) : outcome string (gmap string Credential) :=
  match creds with
  | [] => Ok m
  | cred :: rest =>
      if cr_AccessKeyID cred =s "" then Fail "access key id is required"
      else if cr_SecretAccessKey cred =s "" then Fail "secret access key is required"
      else match m !! cr_AccessKeyID cred with
           | Some _ => Fail "duplicate access key id"
           | None => add_credentials rest (<[cr_AccessKeyID cred := with_access_key cred]> m)
           end
  end.
Definition NewStaticStore (creds : list Credential) : outcome string (gmap string Credential) := add_credentials creds ∅.

Inductive LookupErr := ErrCredentialNotFound | ErrLookup.
Definition StaticStore_LookupAccessKey (store : gmap string Credential) (accessKeyID : string) : outcome LookupErr Credential :=
  match store !! accessKeyID with
  | Some cred => if cr_Active cred then Ok cred else Fail ErrCredentialNotFound
  | None => Fail ErrCredentialNotFound
  end.

(** ** Verification *)

Record Verifier := mkVerifier {
  v_region : string;
  v_credentials : string -> outcome LookupErr Credential;
  v_maxSkew : Z
}.
Definition NewVerifier (region : string) (credentials : string -> outcome LookupErr Credential) (maxSkew : Z) : Verifier :=
  mkVerifier region credentials (if maxSkew =? 0 then 15 * 60 * second else maxSkew).

Record VerifyResult := mkVerifyResult {
  vr_Principal : Principal;
  vr_AccessKeyID : string;
  vr_Presigned : bool;
  vr_RequestTime : Time;
  vr_CanonicalRequest : string;
  vr_StringToSign : string;
  vr_SignedHeaders : string
}.

Section Verify.
Context (v : Verifier) (now : Time).

Definition verifySignature (r : SignedRequest) (scope : credentialScope) (signedHeaders : list string) (signature : string) (requestTime : Time)
    (payloadHash : string) (excludeSignature presigned : bool) : outcome SigErr VerifyResult :=
  match v_credentials v (cs_AccessKeyID scope) with
  | Fail ErrCredentialNotFound => Fail ErrAccessDenied
  | Fail ErrLookup => Fail ErrCredentialStore
  | Ok cred =>
      match buildCanonicalRequest r signedHeaders payloadHash excludeSignature with
      | None => Fail ErrInvalidRequest
      | Some (canonicalRequest, signedHeaderText) =>
          if negb (signature_of (cr_SecretAccessKey cred) scope requestTime canonicalRequest =s signature) then Fail ErrSignatureDoesNotMatch
          else Ok (mkVerifyResult (cr_Principal cred) (cr_AccessKeyID cred) presigned requestTime canonicalRequest
                     (buildStringToSign requestTime scope canonicalRequest) signedHeaderText)
      end
  end.

Definition validateClockSkew (requestTime : Time) : bool :=
  negb ((requestTime <? now - v_maxSkew v) || (now + v_maxSkew v <? requestTime)).

Definition verifyHeader (r : SignedRequest) : outcome SigErr VerifyResult :=
  match parseAuthorizationHeader (get_first (sq_Header r) "authorization") with
  | Fail e => Fail e
  | Ok (scope, signedHeaders, signature) =>
      if negb (validateScope scope (v_region v)) then Fail ErrSignatureDoesNotMatch
      else if negb (isHexSignature signature) then Fail ErrInvalidRequest
      else match parseAMZDate (get_first (sq_Header r) "x-amz-date") with
      | Fail e => Fail e
      | Ok requestTime =>
          if negb (cs_Date scope =s FormatDate requestTime) then Fail ErrSignatureDoesNotMatch
          else if negb (validateClockSkew requestTime) then Fail ErrRequestTimeTooSkewed
          else verifySignature r scope signedHeaders signature requestTime (requestPayloadHash r) false false
      end
  end.

Definition verifyPresigned (r : SignedRequest) : outcome SigErr VerifyResult :=
  match parsePresignedQuery (sq_Query r) with
  | Fail e => Fail e
  | Ok (scope, signedHeaders, signature, expires) =>
      if negb (validateScope scope (v_region v)) then Fail ErrSignatureDoesNotMatch
      else if negb (isHexSignature signature) then Fail ErrInvalidRequest
      else match parseAMZDate (get_first (sq_Query r) "X-Amz-Date") with
      | Fail e => Fail e
      | Ok requestTime =>
          if negb (cs_Date scope =s FormatDate requestTime) then Fail ErrSignatureDoesNotMatch
          else if now <? requestTime - v_maxSkew v then Fail ErrRequestTimeTooSkewed
          else if requestTime + expires <? now then Fail ErrExpiredPresign
          else verifySignature r scope signedHeaders signature requestTime (presignedPayloadHash (sq_Query r)) true true
      end
  end.

Definition Verify (r : SignedRequest) : outcome SigErr VerifyResult :=
  if isPresigned (sq_Query r) then verifyPresigned r else verifyHeader r.

End Verify.

(** ** Known answers *)

(** Test case 2 of RFC 4231. *)
Example hmac_rfc4231 :
  hex_of (hmacSHA256 (string_bytes "Jefe") "what do ya want for nothing?")
  = "5bdcc146bf60754e6a042426089575c75a003f089d2739839dec58b964ec3843".
Proof. vm_compute. reflexivity. Qed.

Example fields_ex : Fields " a  b c " = ["a"; "b"; "c"].
Proof. reflexivity. Qed.

Example amz_date_ex :
  parseAMZDate "20130524T000000Z" = Ok (days_before 2013 5 24 * 86400 * second) /\
  parseAMZDate "20130524T000001,5Z" = Ok (days_before 2013 5 24 * 86400 * second + 1500000000) /\
  parseAMZDate "20130229T000000Z" = Fail ErrInvalidRequest /\ parseAMZDate "20130524T240000Z" = Fail ErrInvalidRequest /\
  FormatAMZ (days_before 2013 5 24 * 86400 * second) = "20130524T000000Z".
Proof. by vm_compute. Qed.
