(* ===== verification/Drain.v ===== *)
(** * Drain: moving objects off a volume

    [src/internal/drain/worker.go]: the worker that copies the segments of an object
    version off a volume and publishes the copies, and the one that queues the copied
    segments for collection. Each attempt is recorded in a drain operation. A move
    returns its result with the error that came after it, if any. *)

From S2P Require Import Prelude GoLib GoText StorageTypes Model Requests Meta Manifest Repo RepoLogic.
From S2P Require Import RepoObjects RepoOps RepoShared RepoCalls Segments.
Open Scope string_scope.
Open Scope Z_scope.

Definition VolumeDrainOperationSucceeded : string := "succeeded".
Definition VolumeDrainOperationRetryPending : string := "retry_pending".
Definition VolumeDrainAttemptCopied : string := "copied".
Definition VolumeDrainAttemptQueuedGC : string := "queued_gc".
Definition VolumeDrainAttemptSkipped : string := "skipped".
Definition VolumeDrainAttemptProtected : string := "protected".
Definition VolumeDrainAttemptRetryable : string := "retryable".

Record MoveObjectVersionRequest := mkMoveObjectVersionRequest {
  mov_ResumeOfOperationID : string;
  mov_PoolID : string;
  mov_SourceVolumeID : string;
  mov_TargetVolumeID : string;
  mov_OwnerID : string;
  mov_BucketID : string;
  mov_Key : string;
  mov_VersionID : string
}.

Definition zero_VolumeDrainOperationRecord : VolumeDrainOperationRecord :=
  mkVolumeDrainOperationRecord "" "" "" "" "" "" "" "" 0 0 0 0 0 0 0 [] 0.

Record MoveObjectVersionResult := mkMoveObjectVersionResult {
  movr_Version : ObjectVersion;
  movr_PreviousSegmentRefs : list SegmentRef;
  movr_PublishedSegmentRefs : list SegmentRef;
  movr_Operation : VolumeDrainOperationRecord
}.

Record ReclaimOperationRequest := mkReclaimOperationRequest {
  rco_Operation : VolumeDrainOperationRecord;
  rco_OwnerID : string;
  rco_Reason : string
}.

Record ReclaimOperationResult := mkReclaimOperationResult {
  rcr_Operation : VolumeDrainOperationRecord;
  rcr_Queued : Z;
  rcr_Skipped : Z;
  rcr_Protected : Z;
  rcr_Retryable : Z
}.

Record operationDraft := mkOperationDraft {
  od_status : string;
  od_cursor : string;
  od_startedAt : Time;
  od_finishedAt : Time;
  od_scanned : Z;
  od_copied : Z;
  od_skipped : Z;
  od_protected : Z;
  od_retryable : Z;
  od_attempts : list VolumeDrainAttempt
}.
#[export] Instance eta_operationDraft : RecordEta operationDraft := fun d =>
  mkOperationDraft (od_status d) (od_cursor d) (od_startedAt d) (od_finishedAt d) (od_scanned d) (od_copied d) (od_skipped d)
    (od_protected d) (od_retryable d) (od_attempts d).

Definition add_attempt (a : VolumeDrainAttempt) (d : operationDraft) : operationDraft :=
  d <| od_attempts := (od_attempts d ++ [a])%list |>.
Definition count_copied (d : operationDraft) : operationDraft := d <| od_copied := od_copied d + 1 |>.
Definition count_skipped (d : operationDraft) : operationDraft := d <| od_skipped := od_skipped d + 1 |>.
Definition count_protected (d : operationDraft) : operationDraft := d <| od_protected := od_protected d + 1 |>.
Definition count_retryable (d : operationDraft) : operationDraft := d <| od_retryable := od_retryable d + 1 |>.

Definition objectVersionSegmentRefs (version : ObjectVersion) : list SegmentRef :=
  match ov_SegmentRefs version with
  | [] => if sr_SegmentID (ov_SegmentRef version) =s "" then [] else [ov_SegmentRef version]
  | refs => refs
  end.

Section DrainWorker.
Context `{Env} {D : Type} `{SegmentStore D} `{GoFmt}.
Context (others : nat -> list call) (order : list ProtectedRef -> list ProtectedRef) (error_text : WErr -> string).
Context (validator : option (SegmentRef -> D -> outcome StoreErr unit)).
Abbreviation W := (W (D := D)).
Abbreviation meta_call := (meta_call others).
Abbreviation meta_read := (meta_read others).

(** ** Moving *)

Definition copySegment (version : ObjectVersion) (ref : SegmentRef) : W SegmentRef :=
  let! reader := seg_read (GetSegment ref 0 (sr_SizeBytes ref)) in
  let storageClass := if scs_StorageClassID (sr_StorageClass ref) =s "" then ov_StorageClass version else sr_StorageClass ref in
  seg_call (PutSegment (mkPutSegmentRequest reader (sr_SizeBytes ref) storageClass)).

Definition putOperation (req : MoveObjectVersionRequest) (draft : operationDraft) : W VolumeDrainOperationRecord :=
  let! finishedAt := if od_finishedAt draft =? 0 then worker_now else st_ret (od_finishedAt draft) in
  let put := mkPutVolumeDrainOperationRequest (mov_ResumeOfOperationID req) (mov_PoolID req) (mov_SourceVolumeID req)
    (mov_TargetVolumeID req) (mov_OwnerID req) (od_status draft) (od_cursor draft) (od_startedAt draft) finishedAt
    (od_scanned draft) (od_copied draft) (od_skipped draft) (od_protected draft) (od_retryable draft) (od_attempts draft) in
  meta_call (C_PutVolumeDrainOperation put) (PutVolumeDrainOperation put).

(** An attempt at moving a segment of the version. *)
Definition move_attempt (req : MoveObjectVersionRequest) (source target : SegmentRef) (status error : string) : VolumeDrainAttempt :=
  mkVolumeDrainAttempt (mov_BucketID req) (mov_Key req) (mov_VersionID req) (sr_SegmentID source) source (sr_SegmentID target) target status
    (status =s VolumeDrainAttemptProtected) (status =s VolumeDrainAttemptRetryable) error.

(** The loop over the segments: the draft and the references to publish. *)
Fixpoint copy_refs (req : MoveObjectVersionRequest) (version : ObjectVersion) (refs : list SegmentRef) (draft : operationDraft)
    (replacementRefs : list SegmentRef) : W (operationDraft * list SegmentRef) :=
  match refs with
  | [] => st_ret (draft, replacementRefs)
  | ref :: rest =>
      if negb (SegmentRefVolumeID ref =s mov_SourceVolumeID req) then
        copy_refs req version rest
          (add_attempt (move_attempt req ref zero_SegmentRef VolumeDrainAttemptSkipped "segment ref is not on source volume") (count_skipped draft))
          (replacementRefs ++ [ref])%list
      else
        let! copied := attempt_of (copySegment version ref) in
        match copied with
        | Fail e =>
            copy_refs req version rest
              (add_attempt (move_attempt req ref zero_SegmentRef VolumeDrainAttemptRetryable (error_text e)) (count_retryable draft)) replacementRefs
        | Ok copiedRef =>
            if negb (mov_TargetVolumeID req =s "") && negb (SegmentRefVolumeID copiedRef =s mov_TargetVolumeID req) then
              copy_refs req version rest
                (add_attempt (move_attempt req ref copiedRef VolumeDrainAttemptRetryable
                  (Sprintf "copied segment landed on volume %q, want %q" [SegmentRefVolumeID copiedRef; mov_TargetVolumeID req]))
                  (count_retryable draft)) replacementRefs
            else
              copy_refs req version rest
                (add_attempt (move_attempt req ref copiedRef VolumeDrainAttemptCopied "") (count_copied draft)) (replacementRefs ++ [copiedRef])%list
        end
  end.

(** The operation is recorded; a failure to do so takes the place of the error given. *)
Definition finish (req : MoveObjectVersionRequest) (draft : operationDraft) (status : string)
    (result : VolumeDrainOperationRecord -> MoveObjectVersionResult) (err : option WErr) : W (MoveObjectVersionResult * option WErr) :=
  let! finishedAt := worker_now in
  let! record := attempt_of (putOperation req (draft <| od_status := status |> <| od_finishedAt := finishedAt |>)) in
  st_ret (match record with
          | Ok record => (result record, err)
          | Fail e => (result zero_VolumeDrainOperationRecord, Some e)
          end).

Definition only_operation (record : VolumeDrainOperationRecord) : MoveObjectVersionResult := mkMoveObjectVersionResult zero_ObjectVersion [] [] record.

Definition MoveObjectVersion (req : MoveObjectVersionRequest) : W (MoveObjectVersionResult * option WErr) :=
  fail! (MetaErr ErrInvalidArgument) when (mov_BucketID req =s "") || (mov_Key req =s "") || (mov_VersionID req =s "") ;
  fail! (MetaErr ErrInvalidArgument) when mov_SourceVolumeID req =s "" ;
  let! startedAt := worker_now in
  let! version := meta_read (GetObjectVersion (mov_BucketID req) (mov_Key req) (mov_VersionID req)) in
  let refs := objectVersionSegmentRefs version in
  let draft := mkOperationDraft "" (mov_VersionID req) startedAt 0 (Z.of_nat (length refs)) 0 0 0 0 [] in
  match refs with
  | [] => finish req draft VolumeDrainOperationSucceeded (mkMoveObjectVersionResult version [] []) None
  | _ :: _ =>
      let! copied := copy_refs req version refs draft [] in
      let draft := copied.1 in
      let replacementRefs := copied.2 in
      if 0 <? od_retryable draft then
        finish req draft VolumeDrainOperationRetryPending only_operation (Some (TextErr "volume drain copy has retryable failures"))
      else if od_copied draft =? 0 then
        finish req draft VolumeDrainOperationSucceeded (mkMoveObjectVersionResult version [] replacementRefs) None
      else
        let publish := mkPublishObjectVersionRefsRequest (mov_BucketID req) (mov_Key req) (mov_VersionID req) (mov_SourceVolumeID req)
                         replacementRefs in
        let! published := attempt_of (meta_call (C_PublishObjectVersionRefs publish) (PublishObjectVersionRefs publish)) in
        match published with
        | Fail e =>
            let attempt status := move_attempt req (firstSegmentRef refs) (firstSegmentRef replacementRefs) status (error_text e) in
            let draft := match e with
                         | MetaErr ErrObjectLocked => add_attempt (attempt VolumeDrainAttemptProtected) (count_protected draft)
                         | _ => add_attempt (attempt VolumeDrainAttemptRetryable) (count_retryable draft)
                         end in
            finish req draft VolumeDrainOperationRetryPending only_operation (Some e)
        | Ok published =>
            finish req draft VolumeDrainOperationSucceeded
              (mkMoveObjectVersionResult (pvrr_Version published) (pvrr_PreviousSegmentRefs published) replacementRefs) None
        end
  end.

(** ** Reclaiming *)

Definition validateTargetSegment (ref : SegmentRef) : W unit :=
  fail! (SegErr SegInvalidArgument) when sr_SegmentID ref =s "" ;
  match validator with
  | Some validate => seg_read (validate ref)
  | None => let! _ := seg_read (GetSegment ref 0 0) in st_ret tt
  end.

Definition sourceRefProtected (ref : SegmentRef) : W bool :=
  let req := mkListProtectedRefsRequest "" "" "" (sr_SegmentID ref) true 1 in
  let! refs := meta_call (C_ListProtectedRefs order req) (ListProtectedRefs order req) in
  st_ret (0 <? length refs)%nat.

Definition reclaim_attempt (source : VolumeDrainAttempt) (status error : string) : VolumeDrainAttempt :=
  mkVolumeDrainAttempt (vda_BucketID source) (vda_Key source) (vda_VersionID source) (sr_SegmentID (vda_SourceRef source)) (vda_SourceRef source)
    (sr_SegmentID (vda_TargetRef source)) (vda_TargetRef source) status (status =s VolumeDrainAttemptProtected)
    (status =s VolumeDrainAttemptRetryable) error.

(** What became of one copied segment. *)
Definition reclaim_one (sourceVolumeID reason : string) (attempt : VolumeDrainAttempt) : W VolumeDrainAttempt :=
  let sourceRef := vda_SourceRef attempt in
  let retryable e := reclaim_attempt attempt VolumeDrainAttemptRetryable (error_text e) in
  if negb (SegmentRefVolumeID sourceRef =s sourceVolumeID) then
    st_ret (reclaim_attempt attempt VolumeDrainAttemptSkipped "source ref is not on drain source volume")
  else
    let! valid := attempt_of (validateTargetSegment (vda_TargetRef attempt)) in
    match valid with
    | Fail e => st_ret (retryable e)
    | Ok _ =>
        let! protected := attempt_of (sourceRefProtected sourceRef) in
        match protected with
        | Fail e => st_ret (retryable e)
        | Ok true => st_ret (reclaim_attempt attempt VolumeDrainAttemptProtected "source segment has an active protected ref")
        | Ok false =>
            let put := mkPutGCCandidateRequest sourceRef reason in
            let! queued := attempt_of (meta_call (C_PutGCCandidate put) (PutGCCandidate put)) in
            match queued with
            | Fail e => st_ret (retryable e)
            | Ok _ => st_ret (reclaim_attempt attempt VolumeDrainAttemptQueuedGC "")
            end
        end
    end.

(** The counters by the status of the attempt. *)
Definition count_reclaimed (a : VolumeDrainAttempt) (acc : operationDraft * ReclaimOperationResult) : operationDraft * ReclaimOperationResult :=
  let '(d, r) := acc in
  let d := add_attempt a d in
  if vda_Status a =s VolumeDrainAttemptSkipped then
    (count_skipped d, mkReclaimOperationResult (rcr_Operation r) (rcr_Queued r) (rcr_Skipped r + 1) (rcr_Protected r) (rcr_Retryable r))
  else if vda_Status a =s VolumeDrainAttemptProtected then
    (count_protected d, mkReclaimOperationResult (rcr_Operation r) (rcr_Queued r) (rcr_Skipped r) (rcr_Protected r + 1) (rcr_Retryable r))
  else if vda_Status a =s VolumeDrainAttemptRetryable then
    (count_retryable d, mkReclaimOperationResult (rcr_Operation r) (rcr_Queued r) (rcr_Skipped r) (rcr_Protected r) (rcr_Retryable r + 1))
  else (d, mkReclaimOperationResult (rcr_Operation r) (rcr_Queued r + 1) (rcr_Skipped r) (rcr_Protected r) (rcr_Retryable r)).

Definition missing_refs (a : VolumeDrainAttempt) : VolumeDrainAttempt :=
  mkVolumeDrainAttempt (vda_BucketID a) (vda_Key a) (vda_VersionID a) (vda_SourceSegmentID a) (vda_SourceRef a) (vda_TargetSegmentID a)
    (vda_TargetRef a) VolumeDrainAttemptSkipped false false "copied attempt is missing source or target ref".

Fixpoint reclaim_all (sourceVolumeID reason : string) (attempts : list VolumeDrainAttempt) (acc : operationDraft * ReclaimOperationResult)
    : W (operationDraft * ReclaimOperationResult) :=
  match attempts with
  | [] => st_ret acc
  | a :: rest =>
      if negb (vda_Status a =s VolumeDrainAttemptCopied) then reclaim_all sourceVolumeID reason rest acc
      else if (sr_SegmentID (vda_SourceRef a) =s "") || (sr_SegmentID (vda_TargetRef a) =s "") then
        reclaim_all sourceVolumeID reason rest (count_reclaimed (missing_refs a) acc)
      else
        let! done := reclaim_one sourceVolumeID reason a in
        reclaim_all sourceVolumeID reason rest
          (count_reclaimed done (acc.1 <| od_scanned := od_scanned acc.1 + 1 |>, acc.2))
  end.

Definition ReclaimOperation (req : ReclaimOperationRequest) : W (ReclaimOperationResult * option WErr) :=
  let operation := CloneVolumeDrainOperationRecord (rco_Operation req) in
  fail! (MetaErr ErrInvalidArgument) when vdor_SourceVolumeID operation =s "" ;
  let reason := if rco_Reason req =s "" then DeleteReasonVolumeDrained else rco_Reason req in
  let ownerID := if rco_OwnerID req =s "" then vdor_OwnerID operation else rco_OwnerID req in
  let! startedAt := worker_now in
  let draft := mkOperationDraft "" (vdor_OperationID operation) startedAt 0 0 0 0 0 0 [] in
  let! acc := reclaim_all (vdor_SourceVolumeID operation) reason (vdor_Attempts operation)
                (draft, mkReclaimOperationResult zero_VolumeDrainOperationRecord 0 0 0 0) in
  let draft := acc.1 in
  let status := if (0 <? od_retryable draft) || (0 <? od_protected draft) then VolumeDrainOperationRetryPending else VolumeDrainOperationSucceeded in
  let! finishedAt := worker_now in
  let put := mkPutVolumeDrainOperationRequest (vdor_OperationID operation) (vdor_PoolID operation) (vdor_SourceVolumeID operation)
    (vdor_TargetVolumeID operation) ownerID status (od_cursor draft) (od_startedAt draft) finishedAt (od_scanned draft) 0 (od_skipped draft)
    (od_protected draft) (od_retryable draft) (od_attempts draft) in
  let! record := attempt_of (meta_call (C_PutVolumeDrainOperation put) (PutVolumeDrainOperation put)) in
  st_ret (match record with
          | Ok record => (mkReclaimOperationResult record (rcr_Queued acc.2) (rcr_Skipped acc.2) (rcr_Protected acc.2) (rcr_Retryable acc.2), None)
          | Fail e => (acc.2, Some e)
          end).

End DrainWorker.
