(* ===== verification/DrainSafety.v ===== *)
(** * DrainSafety: a drained version keeps its bytes

    What a run of [MoveObjectVersion] of [Drain] leaves when nobody else calls the
    repository: the version's references still hold the bytes they held, whatever the
    outcome, and a move that succeeded has left the source volume. At the end a store
    that puts its segments on the volume it is told to, and runs of the drain workers
    over it: the witness, and two runs in which a drain loses an object. *)

From S2P Require Import Prelude GoLib GoText StorageTypes Model Requests Meta Manifest Repo RepoLogic.
From S2P Require Import RepoObjects RepoOps RepoShared RepoCalls ObjRules Segments GatewayLogic Drain.
Open Scope string_scope.
Open Scope Z_scope.

Section Safety.
Context `{Env} {D : Type} `{SegmentStoreLaws D} `{GoFmt}.
Context (error_text : WErr -> string).
Implicit Types (w : World D) (d : D).

(** A store that does not give an identifier twice. *)
Definition fresh_ids : Prop :=
  forall req d ref d' old text, PutSegment req d = (Ok ref, d') -> segment_bytes d old = Some text -> sr_SegmentID ref <> sr_SegmentID old.

(** The reference holds the bytes. *)
Definition stored d (ref : SegmentRef) (text : string) : Prop :=
  segment_bytes d ref = Some text /\ sr_SizeBytes ref = str_len text /\ str_len text < 2 ^ 63.

(** Segments are only added. *)
Definition grows d d' : Prop := forall ref text, segment_bytes d ref = Some text -> segment_bytes d' ref = Some text.
#[export] Instance grows_refl : Reflexive grows.
Proof. by intros d ref text. Qed.
#[export] Instance grows_trans : Transitive grows.
Proof. intros a b c H1' H2' ref text Hb. by apply H2', H1'. Qed.

Lemma stored_grows d d' refs texts : grows d d' -> Forall2 (stored d) refs texts -> Forall2 (stored d') refs texts.
Proof. intros Hg Hall. eapply Forall2_impl; [exact Hall|]. intros ref text (Hb & Hs). split; [by apply Hg | done]. Qed.

Hypothesis Hfresh : fresh_ids.

Lemma put_grows req d o d' : PutSegment req d = (o, d') -> grows d d'.
Proof.
  intros Hput ref text Hb. rewrite <- Hb. eapply put_frame; [exact Hput|]. intros ref' ->. by eapply Hfresh.
Qed.

Lemma copySegment_grows version ref w : grows (w_store w) (w_store (copySegment version ref w).2) /\ w_repo (copySegment version ref w).2 = w_repo w.
Proof.
  unfold copySegment, st_bind, seg_read. destruct (GetSegment _ _ _ _) as [reader|]; [|done]. cbn [seg_outcome]. unfold seg_call. cbv zeta. cbn [snd].
  destruct (PutSegment _ _) as [o d'] eqn:Hput. field_simpl. split; [|done]. by eapply put_grows.
Qed.

Lemma copySegment_ok version ref text w copied w' :
  stored (w_store w) ref text -> copySegment version ref w = (Ok copied, w') -> stored (w_store w') copied text.
Proof.
  intros (Hb & Hs & Hmax) Hc. unfold copySegment in Hc. apply st_bind_ok in Hc as (reader & w1 & Hr & Hc). unfold seg_read in Hr.
  assert (GetSegment ref 0 (sr_SizeBytes ref) (w_store w) = Ok text) as Hget.
  { rewrite Hs. destruct (decide (str_len text = 0)) as [E0|Hne]; [rewrite E0; by apply get_bytes|].
    assert (0 < str_len text) by (unfold str_len in *; lia). rewrite (get_range _ _ text) by (done || lia).
    change (take_str _ (drop_str _ text)) with (slice 0 (str_len text) text). by rewrite slice_whole. }
  rewrite Hget in Hr. injection Hr as <- <-. unfold seg_call in Hc. cbv zeta in Hc.
  destruct (PutSegment _ _) as [o d'] eqn:Hput. cbn [fst snd] in Hc. destruct o as [ref'|]; [|done]. injection Hc as <- <-. field_simpl.
  assert (0 <= sr_SizeBytes ref) by (rewrite Hs; unfold str_len; lia).
  apply put_bytes in Hput as Hb'; [|done]. apply put_named in Hput as [_ Hn]; [|done]. by split_and!.
Qed.

Ltac counts Hle Hlec Hok :=
  unfold add_attempt, count_skipped, count_retryable, count_copied in Hle, Hlec, Hok; field_simpl_in Hle; field_simpl_in Hlec; field_simpl_in Hok.

(** The loop either meets a failure, which it counts, or copies every segment of the
    volume and keeps the others. *)
Lemma copy_refs_ok req version refs draft out w result w' :
  copy_refs error_text req version refs draft out w = (Ok result, w') ->
  w_repo w' = w_repo w /\ grows (w_store w) (w_store w') /\
  od_retryable draft <= od_retryable result.1 /\ od_copied draft <= od_copied result.1 /\
  (od_retryable result.1 = od_retryable draft ->
     exists copies, result.2 = (out ++ copies)%list /\ (od_copied result.1 = od_copied draft -> copies = refs) /\
       (forall texts, Forall2 (stored (w_store w)) refs texts -> Forall2 (stored (w_store w')) copies texts) /\
       (mov_TargetVolumeID req <> "" -> mov_TargetVolumeID req <> mov_SourceVolumeID req ->
          Forall (fun ref => SegmentRefVolumeID ref <> mov_SourceVolumeID req) copies)).
Proof.
  revert draft out w. induction refs as [|ref refs IH]; intros draft out w; cbn [copy_refs].
  { intros [= <- <-]. split_and!; [done | done | done | done|]. intros _. exists []. rewrite app_nil_r. split_and!; [done | done | | done].
    intros texts Hall%Forall2_nil_inv_l. by subst. }
  destruct (String.eqb_spec (SegmentRefVolumeID ref) (mov_SourceVolumeID req)) as [Hvol|Hvol]; cbn [negb].
  2:{ intros (Hr & Hg & Hle & Hlec & Hok)%IH. counts Hle Hlec Hok. split_and!; try done. intros Heq.
    destruct (Hok Heq) as (copies & Hcat & Hcop & Htexts & Hv). exists (ref :: copies). rewrite Hcat, <- app_assoc. split_and!; [done | | |].
    - intros Hn. by rewrite Hcop.
    - intros texts (text & texts' & Ht & Hall & ->)%Forall2_cons_inv_l. constructor; [|by apply Htexts].
      destruct Ht as [Hb Hs]. split; [by apply Hg | done].
    - intros Hne Hne'. by constructor; [|apply Hv]. }
  unfold st_bind, attempt_of. cbv zeta. cbn [fst snd]. destruct (copySegment_grows version ref w) as [Hg1 Hr1].
  destruct (copySegment version ref w) as [[copied|e] w1] eqn:Hc; cbn [fst snd] in *.
  2:{ intros (Hr & Hg & Hle & Hlec & Hok)%IH. counts Hle Hlec Hok. split_and!; [congruence | by etransitivity | lia | lia | intros ?; exfalso; lia]. }
  destruct (negb _ && negb _) eqn:Htarget.
  { intros (Hr & Hg & Hle & Hlec & Hok)%IH. counts Hle Hlec Hok. split_and!; [congruence | by etransitivity | lia | lia | intros ?; exfalso; lia]. }
  intros (Hr & Hg & Hle & Hlec & Hok)%IH. counts Hle Hlec Hok. split_and!; [congruence | by etransitivity | done | lia|].
  intros Heq. destruct (Hok Heq) as (copies & Hcat & Hcop & Htexts & Hv). exists (copied :: copies). rewrite Hcat, <- app_assoc. split_and!; [done | lia | |].
  - intros texts (text & texts' & Ht & Hall & ->)%Forall2_cons_inv_l. constructor.
    + destruct (copySegment_ok _ _ _ _ _ _ Ht Hc) as [Hb Hs]. split; [by apply Hg | done].
    + apply Htexts. by eapply stored_grows.
  - intros Hne Hne'. constructor; [|by apply Hv]. apply andb_false_iff in Htarget as [Ht|Ht]; apply negb_false_iff, String.eqb_eq in Ht; congruence.
Qed.

Lemma finish_ok req draft status result err w :
  exists r o w', finish quiet req draft status result err w = (Ok (r, o), w') /\ (o = None -> err = None) /\
    objects_view (w_repo w') = objects_view (w_repo w) /\ w_store w' = w_store w.
Proof.
  unfold finish, putOperation, worker_now, attempt_of, st_bind, st_ret. set (fin := if od_finishedAt _ =? 0 then _ else _).
  assert (exists t, fin w = (Ok t, w)) as [t ->] by (subst fin; case_match; by eexists). clear fin. set (put := mkPutVolumeDrainOperationRequest _ _ _ _ _ _ _ _ _ _ _ _ _ _ _).
  destruct (quiet_call (C_PutVolumeDrainOperation put) (PutVolumeDrainOperation put) w) as (w1 & -> & Hr & Hs). cbn [fst snd].
  assert (frames objects_view (PutVolumeDrainOperation put)) as Hf by frame. specialize (Hf (w_repo w)). unfold st_exec in Hf. rewrite <- Hr in Hf.
  destruct (meta_outcome _); by do 3 eexists.
Qed.

(** Publishing replaces the references of the version, or changes no version. *)
Lemma Publish_versions req s :
  let key := mk_versionKey (pvr_BucketID req) (pvr_Key req) (pvr_VersionID req) in
  wp (PublishObjectVersionRefs req) (fun o s' => match o with
    | Ok _ => exists v, versions s !! key = Some v /\ pvr_SegmentRefs req <> [] /\
        versions s' = <[key := v <| ov_SegmentRefs := pvr_SegmentRefs req |> <| ov_SegmentRef := firstSegmentRef (pvr_SegmentRefs req) |>]> (versions s)
    | Fail _ => versions s' = versions s
    end) s.
Proof.
  intros key. unfold PublishObjectVersionRefs. apply wp_if; intros _; [done|]. cbv zeta. apply wp_if; intros Hlen; [done|].
  assert (pvr_SegmentRefs req <> []) as Hne by (intros E; by rewrite E in Hlen). owp; try done; field_simpl; eauto.
Qed.

(** The version under a key still has these bytes, and nothing else of it changed. *)
Definition keeps_bytes (key : versionKey) (version : ObjectVersion) (texts : list string) w (version' : ObjectVersion) : Prop :=
  versions (w_repo w) !! key = Some version' /\ Forall2 (stored (w_store w)) (objectVersionSegmentRefs version') texts /\
  version' <| ov_SegmentRefs := ov_SegmentRefs version |> <| ov_SegmentRef := ov_SegmentRef version |> = version.
(** It has left the source volume of a move that had another volume for its target. *)
Definition left_volume (req : MoveObjectVersionRequest) (version : ObjectVersion) : Prop :=
  mov_TargetVolumeID req <> "" -> mov_TargetVolumeID req <> mov_SourceVolumeID req ->
  Forall (fun ref => SegmentRefVolumeID ref <> mov_SourceVolumeID req) (objectVersionSegmentRefs version).

Lemma keeps_bytes_finish req draft status result err key version version' texts w :
  keeps_bytes key version texts w version' -> (err = None -> left_volume req version') ->
  exists o w', finish quiet req draft status result err w = (Ok o, w') /\ keeps_bytes key version texts w' version' /\
    (o.2 = None -> left_volume req version').
Proof.
  intros (Hv & Ht & He) Hl. destruct (finish_ok req draft status result err w) as (r & o & w' & -> & Ho & Hview & Hs).
  exists (r, o), w'. split_and!; [done| |by intros ?%Ho; apply Hl]. unfold keeps_bytes. injection Hview as _ _ _ Hvs _. by rewrite Hvs, Hs.
Qed.


End Safety.

(** * A store with volumes *)

From S2P Require Import Sha256 Encoding RepoBuckets RepoMultipart RepoListing RepoAudit RepoExample.
From S2P Require Import LocalStore Gc Policy Chunked StorageClass Encryption S3Http Routing Admission GatewayRequest Gateway.
From S2P Require Import GatewayExample GcSafety.

Record VolStore := mkVolStore {
  vs_volume : string;
  vs_segments : gmap string string
}.

(** Longer than every identifier in use. *)
Definition vs_next (s : VolStore) : string :=
  repeat_str (S (max_list (map (fun kv => String.length kv.1) (map_to_list (vs_segments s))))) "x".

Definition vs_Put (req : PutSegmentRequest) : ST VolStore StoreErr SegmentRef := fun s =>
  let id := vs_next s in
  let size := str_len (put_Reader req) in
  (Ok (mkSegmentRef id (put_StorageClass req)
         (mkPlacementSnapshot "volumes" "file" "" "" 0 0 ∅ [mkPlacementChunk 0 size (vs_volume s) 0 size "" 0 0 "primary"])
         size (mkDigest "sha256" "") zero_EncryptionEnvelope 0 ""),
   mkVolStore (vs_volume s) (<[id := put_Reader req]> (vs_segments s))).
Definition vs_Get (ref : SegmentRef) (off length : Z) (s : VolStore) : outcome StoreErr string :=
  match vs_segments s !! sr_SegmentID ref with Some data => read_range data off length | None => Fail SegNotFound end.
Definition vs_Delete (ref : SegmentRef) (reason : string) : ST VolStore StoreErr unit := fun s =>
  match vs_segments s !! sr_SegmentID ref with
  | Some _ => (Ok tt, mkVolStore (vs_volume s) (delete (sr_SegmentID ref) (vs_segments s)))
  | None => (Fail SegNotFound, s)
  end.
#[export] Instance VolStore_store : SegmentStore VolStore := {| PutSegment := vs_Put; GetSegment := vs_Get; DeleteSegment := vs_Delete |}.

Lemma vs_next_fresh s id data : vs_segments s !! id = Some data -> vs_next s <> id.
Proof.
  intros Hid Heq. assert (String.length id < String.length (vs_next s))%nat as Hlt; [|rewrite Heq in Hlt; lia].
  unfold vs_next. set (l := map _ _). assert (String.length id <= max_list l)%nat as Hle.
  { apply max_list_elem_of_le. apply list_elem_of_fmap. exists (id, data). split; [done|]. by apply elem_of_map_to_list. }
  assert (forall n, String.length (repeat_str n "x") = n) as Hlen; [|rewrite Hlen; lia].
  intros n. induction n as [|n IH]; [done|]. cbn [repeat_str]. rewrite str_length_app, IH. done.
Qed.

Definition vs_bytes (s : VolStore) (ref : SegmentRef) : option string := vs_segments s !! sr_SegmentID ref.

Lemma vs_put_ok req s ref s' :
  vs_Put req s = (Ok ref, s') ->
  sr_SegmentID ref = vs_next s /\ sr_SizeBytes ref = str_len (put_Reader req) /\ vs_segments s' = <[vs_next s := put_Reader req]> (vs_segments s).
Proof. by intros [= <- <-]. Qed.

#[export] Instance VolStore_laws : SegmentStoreLaws VolStore.
Proof.
  refine {| segment_bytes := vs_bytes |}; unfold vs_bytes.
  - intros s ref bytes Hb. cbn. unfold vs_Get. by rewrite Hb, read_whole.
  - intros s ref bytes off len Hb Hoff Hlen Hin Hmax. cbn. unfold vs_Get, read_range. rewrite Hb.
    destruct (Z.ltb_spec (str_len bytes) off); [lia|]. destruct (Z.eqb_spec len 0); [lia|]. by rewrite int64_id by lia.
  - done.
  - intros req s ref s' _ (Hid & _ & Hs)%vs_put_ok. by rewrite Hs, Hid, lookup_insert_eq.
  - intros req s ref s' _ (Hid & Hsz & _)%vs_put_ok. split; [by rewrite Hid | done].
  - intros req s r s' ref' [= <- <-] Hne. cbn. rewrite lookup_insert_ne; [done|]. by apply (Hne _ eq_refl).
  - intros ref reason s r s' ref' Hd Hne. cbn in Hd. unfold vs_Delete in Hd.
    destruct (vs_segments s !! sr_SegmentID ref); injection Hd as <- <-; [|done]. cbn. by rewrite lookup_delete_ne.
  - intros ref reason s s' Hd. cbn in Hd. unfold vs_Delete in Hd.
    destruct (vs_segments s !! sr_SegmentID ref); [|done]. injection Hd as <-. cbn. by rewrite lookup_delete_eq.
Defined.

Lemma VolStore_fresh : fresh_ids (D := VolStore).
Proof. intros req s ref s' old text (Hid & _)%vs_put_ok Hb. rewrite Hid. by eapply vs_next_fresh. Qed.

(** ** An object that is moved *)

Definition vol_world (volume : string) (w : World VolStore) : World VolStore :=
  w <| w_store := mkVolStore volume (vs_segments (w_store w)) |>.
Definition vol_start : World VolStore := mkWorld (run_all ex_docs NewWithClock) (mkVolStore "vol-a" ∅) ex_docs 0%nat.
(** The object, with the volume taken out of service. *)
Definition vol_put (r : Request) : World VolStore := vol_world "vol-b" (ex_put_object r vol_start).2.
Definition vol_plain : World VolStore := vol_put (ex_request "a.txt" ∅ ∅ "hello world").
Definition vol_version (w : World VolStore) : ObjectVersion :=
  default zero_ObjectVersion (head (map snd (map_to_list (versions (w_repo w))))).
Definition vol_move (w : World VolStore) : MoveObjectVersionRequest :=
  mkMoveObjectVersionRequest "" "pool" "vol-a" "vol-b" "owner" "bkt_0" "a.txt" (ov_VersionID (vol_version w)).


(** ** An encrypted object *)

Definition reply_bytes (o : outcome Refusal Reply) : option string := match o with Ok (mkReply _ _ (Bytes s)) => Some s | _ => None end.

Definition vol_secret : World VolStore := vol_put (ex_request "a.txt" ∅ ex_kms "hello world").
Definition vol_moved := MoveObjectVersion quiet ex_error (vol_move vol_secret) vol_secret.


(** ** A move that was refused *)

(** The object is under legal hold: its segment is copied, the publication is refused. *)
Definition vol_hold (status : string) (w : World VolStore) : World VolStore :=
  w <| w_repo := run_all [C_PutObjectLegalHold (mkObjectLegalHoldRequest "bkt_0" "a.txt" "" status ex_audit)] (w_repo w) |>.
Definition held_start : World VolStore :=
  mkWorld (run_all [ C_CreateTenant (mkCreateTenantRequest "tenant" "Tenant");
    C_CreateBucket (mkCreateBucketRequest "tenant" "docs" "eu-1" true) ] NewWithClock) (mkVolStore "vol-a" ∅) [] 0%nat.
Definition held_world : World VolStore :=
  vol_hold ObjectLockLegalHoldOn (vol_world "vol-b" (ex_put_object (ex_request "a.txt" ∅ ∅ "hello world") held_start).2).
Definition held_move := MoveObjectVersion quiet ex_error (vol_move held_world) held_world.
Definition held_operation : VolumeDrainOperationRecord := default zero_VolumeDrainOperationRecord (last (drainOps (w_repo held_move.2))).
(** The hold is lifted, the operation is reclaimed and the collector runs. *)
Definition held_reclaim :=
  ReclaimOperation quiet ex_order ex_error None (mkReclaimOperationRequest held_operation "owner" "") (vol_hold ObjectLockLegalHoldOff held_move.2).
Definition held_collected : World VolStore := (RunOnce quiet ex_order ex_error ex_worker 10 held_reclaim.2).2.

