(* ===== verification/Findings.v ===== *)
(** * Findings: reachable behaviours that depart from what the code means to do

    Each theorem evaluates the model on a short run from an empty repository. *)

From S2P Require Import Prelude GoLib Sha256 StorageTypes Model Requests Encoding Meta Manifest Repo RepoLogic.
From S2P Require Import RepoBuckets RepoObjects RepoMultipart RepoListing RepoOps RepoShared RepoAudit RepoCalls.
From S2P Require Import ObjInv RepoExample Pagination Worm Segments LocalStore Gc Lifecycle LifecycleSafety GcSafety.
Open Scope string_scope.
Open Scope Z_scope.

(** ** Version listings lose versions *)

(** One key of a versioned bucket written five times. *)
Definition five_puts : list call :=
  [ C_CreateTenant (mkCreateTenantRequest "tenant" "Tenant");
    C_CreateBucket (mkCreateBucketRequest "tenant" "photos" "eu-1" false);
    C_PutBucketVersioning (mkPutBucketVersioningRequest ex_bucket BucketVersioningEnabled);
    C_PutObjectVersion (ex_put "a" zero_ObjectLockRetention "");
    C_PutObjectVersion (ex_put "a" zero_ObjectLockRetention "");
    C_PutObjectVersion (ex_put "a" zero_ObjectLockRetention "");
    C_PutObjectVersion (ex_put "a" zero_ObjectLockRetention "");
    C_PutObjectVersion (ex_put "a" zero_ObjectLockRetention "") ].
Definition five_state : Repository := @run_all exEnv five_puts (@NewWithClock exEnv).

Definition version_page (s : Repository) (req : ListObjectVersionsRequest) : outcome Err ListObjectVersionsResult :=
  (ListObjectVersions req s).1.
Definition next_version_page (req : ListObjectVersionsRequest) (page : ListObjectVersionsResult)
    : option ListObjectVersionsRequest :=
  if lovr_IsTruncated page
  then Some (mkListObjectVersionsRequest (lov_BucketID req) (lov_Prefix req) (lov_Delimiter req)
               (lovr_NextKeyMarker page) (lovr_NextVersionIDMarker page) (lov_MaxKeys req))
  else None.

Definition page_ids (page : ListObjectVersionsResult) : list string :=
  map (fun e => ov_VersionID (ove_Version e)) (lovr_Versions page).


(** ** A commit outlives its bucket *)

Definition orphan_commit : list call :=
  [ C_CreateTenant (mkCreateTenantRequest "tenant" "Tenant");
    C_CreateBucket (mkCreateBucketRequest "tenant" "photos" "eu-1" false);
    C_BeginPutObject (ex_put "a" zero_ObjectLockRetention "");
    C_DeleteBucket ex_bucket;
    C_CommitObjectVersion (mkCommitObjectVersionRequest ex_bucket "a" "ver_1" "") ].
Definition orphan_state : Repository := @run_all exEnv orphan_commit (@NewWithClock exEnv).

(** A bucket can be deleted while a put is in flight ([DeleteBucket] counts
    committed versions only), and committing the put afterwards succeeds: the
    repository then holds a head and a committed version in a bucket that does
    not exist, which no listing or delete call reaches any more. *)
Theorem commit_after_bucket_delete :
  @reachable exEnv orphan_state /\ bucketsByID orphan_state !! ex_bucket = None /\
  is_some (heads orphan_state !! mk_objectKey ex_bucket "a") = true /\
  (@DeleteObject exEnv (mkDeleteObjectRequest ex_bucket "a" "ver_1" false ex_audit) orphan_state).1 = Fail ErrNotFound /\
  (ListObjects ex_list orphan_state).1 = Fail ErrNotFound.
Proof. split; [apply run_all_steps|]. split_and!; by_eval. Qed.

(** ** A deleted bucket leaks active uploads *)

Definition ex_upload : CreateMultipartUploadRequest :=
  mkCreateMultipartUploadRequest ex_bucket "big" "text/plain" zero_StorageClassSnapshot zero_ServerSideEncryption
    ∅ ∅ zero_ObjectLockRetention "".
Definition leaked_upload : list call :=
  [ C_CreateTenant (mkCreateTenantRequest "tenant" "Tenant");
    C_PutTenantQuota (mkTenantQuotaRequest "tenant" 0 0 1);
    C_CreateBucket (mkCreateBucketRequest "tenant" "photos" "eu-1" false);
    C_CreateMultipartUpload ex_upload;
    C_DeleteBucket ex_bucket;
    C_AbortMultipartUpload (mkMultipartUploadRequest ex_bucket "big" "upl_1");
    C_CreateBucket (mkCreateBucketRequest "tenant" "photos" "eu-1" false) ].
Definition leaked_state : Repository := @run_all exEnv leaked_upload (@NewWithClock exEnv).

(** A bucket with an active multipart upload can be deleted, and aborting the
    upload afterwards does not give the tenant its slot back, because the counter
    is found through the bucket: with a quota of one upload and no upload active,
    the tenant's next upload is refused. *)
Theorem deleted_bucket_leaks_upload_slot :
  @reachable exEnv leaked_state /\
  forallb (fun kv => negb (mu_State kv.2 =s MultipartUploadActive)) (map_to_list (uploads leaked_state)) = true /\
  tu_ActiveUploads (default zero_TenantUsage (tenantUsages leaked_state !! "tenant")) = 1 /\
  (@CreateMultipartUpload exEnv (mkCreateMultipartUploadRequest "bkt_2" "big" "text/plain" zero_StorageClassSnapshot
     zero_ServerSideEncryption ∅ ∅ zero_ObjectLockRetention "") leaked_state).1 = Fail ErrQuotaExceeded.
Proof. split; [apply run_all_steps|]. split_and!; by_eval. Qed.

(** ** Publishing twice forgets a reference *)

Definition ex_dedupe_put : BeginPutObjectRequest :=
  mkBeginPutObjectRequest ex_bucket "a" 4 "etag" "text/plain" zero_StorageClassSnapshot zero_ServerSideEncryption
    (zero_SegmentRef <| sr_SegmentID := "seg-1" |> <| sr_Digest := mkDigest "sha256" "00ff" |>) [] ∅ ∅
    zero_ObjectLockRetention "".
Definition published_twice : list call :=
  [ C_CreateTenant (mkCreateTenantRequest "tenant" "Tenant");
    C_CreateBucket (mkCreateBucketRequest "tenant" "photos" "eu-1" false);
    C_PutBucketVersioning (mkPutBucketVersioningRequest ex_bucket BucketVersioningEnabled);
    C_PutObjectVersion ex_dedupe_put; C_PutObjectVersion ex_dedupe_put;
    C_PublishSharedObject (mkPublishSharedObjectRequest ex_bucket "a" "ver_1");
    C_PublishSharedObject (mkPublishSharedObjectRequest ex_bucket "a" "ver_2") ].
Definition published_state : Repository := @run_all exEnv published_twice (@NewWithClock exEnv).

(** Publishing a second version with the content of an existing shared object
    records a second reference to it but leaves its reference count at one, so the
    count is below the number of references until a repair runs. *)
Theorem publish_undercounts_references :
  @reachable exEnv published_state /\
  map (fun kv => so_RefCount kv.2) (map_to_list (sharedObjects published_state)) = [1] /\
  map (fun kv => shared_ref_count published_state kv.1) (map_to_list (sharedObjects published_state)) = [2].
Proof. split; [apply run_all_steps|]. split_and!; by_eval. Qed.

(** ** Expiry destroys the bytes of a locked version *)

Definition deduped_put (segment : string) : BeginPutObjectRequest :=
  mkBeginPutObjectRequest ex_bucket "a" 4 "etag" "text/plain" zero_StorageClassSnapshot zero_ServerSideEncryption
    (zero_SegmentRef <| sr_SegmentID := segment |> <| sr_Digest := mkDigest "sha256" "00ff" |>) [] ∅ ∅
    zero_ObjectLockRetention "".
Definition ex_shared_id : string := sharedObjectID "tenant" ex_bucket "a" (mkDigest "sha256" "00ff") 4.
(** Two versions with the same content are deduplicated, then the newer is locked. *)
Definition deduped : list call :=
  [ C_CreateTenant (mkCreateTenantRequest "tenant" "Tenant");
    C_CreateBucket (mkCreateBucketRequest "tenant" "photos" "eu-1" true);
    C_PutObjectVersion (deduped_put "seg-1"); C_PutObjectVersion (deduped_put "seg-2");
    C_PublishSharedObject (mkPublishSharedObjectRequest ex_bucket "a" "ver_1");
    C_AttachObjectVersionToSharedObject (mkAttachObjectVersionToSharedObjectRequest ex_shared_id ex_bucket "a" "ver_1");
    C_AttachObjectVersionToSharedObject (mkAttachObjectVersionToSharedObjectRequest ex_shared_id ex_bucket "a" "ver_2");
    C_PutObjectRetention (mkObjectRetentionRequest ex_bucket "a" "ver_2"
      (mkObjectLockRetention ObjectLockModeCompliance 1000000) false ex_audit ex_audit);
    C_PutBucketLifecycle (mkBucketLifecycleRequest ex_bucket (mkBucketLifecycleConfiguration [ex_rule]) ex_audit) ].
Definition deduped_disk : LocalStore := mkLocalStore {["seg-1" := PlainFile "data"]} ∅ [] [].
Definition deduped_run : World LocalStore :=
  st_exec (@LifecycleWorker_RunOnce exEnv LocalStore LocalStore_store (fun _ => []) (fun l => l) (mkLifecycleWorker true true true) ex_due)
    (mkWorld (@run_all exEnv deduped (@NewWithClock exEnv)) deduped_disk deduped 0%nat).
Definition locked_copy : ObjectVersion :=
  default zero_ObjectVersion (versions (w_repo deduped_run) !! mk_versionKey ex_bucket "a" "ver_2").


(** ** Skipped candidates block the collector *)

Definition ex_free_segment : SegmentRef := zero_SegmentRef <| sr_SegmentID := "seg-free" |>.
Definition queued : list call :=
  (ex_history ++ [C_PutGCCandidate (mkPutGCCandidateRequest ex_free_segment "orphan")])%list.
Definition queued_disk : LocalStore := mkLocalStore (<["seg-1" := PlainFile "data"]> (<["seg-free" := PlainFile "junk"]> ∅)) ∅ [] [].
Definition gc_limited (limit : Z) (w : World LocalStore) : World LocalStore :=
  st_exec (@RunOnce exEnv LocalStore LocalStore_store (fun _ => []) (fun l => l) (fun _ => "error") ex_worker limit) w.
Definition queued_world : World LocalStore := mkWorld (@run_all exEnv queued (@NewWithClock exEnv)) queued_disk queued 0%nat.

(** A candidate that the gate refuses stays at the head of the queue, and a
    run with a limit looks at the head only: with a limit of one and a protected
    segment queued first, an unprotected segment behind it is still there after ten
    runs, although one run without that limit collects it. *)
Theorem gc_starves_behind_protected :
  map (fun w => is_ok (GetSegment ex_free_segment 0 0 (w_store w)))
    [Nat.iter 10 (gc_limited 1) queued_world; gc_limited 2 queued_world] = [true; false].
Proof. by_eval. Qed.
